(* ===== verification/_CoqProject ===== *)
-Q . S2P
Prelude.v
Layout.v
RangeTree.v
RbList.v
State.v
Balloc.v
BallocFacts.v
BallocSpec.v
BallocInit.v
BallocTheorems.v
TreeEdits.v
InodeMap.v
LogBlocks.v
InodeTable.v
Monitor.v
Histogram.v
HashTable.v
Records.v
KnapSack.v
Detect.v
WriteCount.v
Migrate.v
Journal.v
LogPages.v
World.v
InodeLog.v
FastGc.v
LogAppend.v
BlockMap.v
Shutdown.v
Crawl.v
FileTree.v
Truncate.v
Rebuild.v
WearBudget.v
FileData.v
FileWrite.v
Directory.v
DirTree.v
DirLog.v
Attr.v
Resize.v
Release.v
Vfs.v
Names.v
Transaction.v
Create.v
Unlink.v
Sampling.v
SuperBlock.v
MountOptions.v
Seek.v
DaxMap.v
Recovery.v
Mount.v
