(* ===== verification/Prelude.v ===== *)
(** * Verification of the Themis variant of the NOVA file system

    NOVA is a log-structured file system for byte-addressable persistent memory, written
    in C as a Linux kernel module.  Themis adds wear levelling: it counts the writes to
    every block, samples the write traffic of processes to find those that would wear out
    the device, and moves worn pages of inodes and journals to other blocks.  This library
    models the parts below as functions on explicit states and proves that they do what
    the rest of the file system relies on.

    ** The program and its model

    The state of a mounted file system is [State.nova_sb_info] (struct nova_sb_info of
    nova.h): the geometry, the free lists, the inode maps, the inode mapping tables with
    their mutexes, the slab of range nodes and the bytes of the device ([nvm]).  The state of
    the wear monitor is [Monitor.monitor], the global variables of detect.c, record.c,
    hash.c, occupySpace.c, average.c and writecount.c.

    - Layout (nova.h, nova_def.h): constants, little-endian loads and stores of the packed
      structures, translation between block numbers, offsets and addresses.
    - RangeTree (balloc.c, super.c): trees of [nova_range_node]s over a heap of nodes; the
      descent, the insertion point and the search for a free slot are NOVA's, rebalancing
      and the slab are the kernel's and enter as the class [RbTree] with the laws
      [RbTreeLaws].  RbList gives an instance, so that the laws can be met and every
      operation can be run.  TreeEdits has the edits of a tree the clients share.
    - Balloc (balloc.c): [nova_new_blocks], [nova_free_blocks] and their callers, one
      definition per function or loop.  BallocFacts has the invariant of one free list,
      BallocSpec the refinement of the whole allocator to a set of free blocks, BallocInit
      its initialisation, BallocTheorems what its callers may rely on.
    - InodeMap (inode.c): the inode numbers in use, per CPU.
    - LogBlocks: the class that states what the allocator promises to the components that
      take metadata pages from it, with the allocator as its instance.  InodeTable,
      Migrate and LogPages are proved against the class.
    - InodeTable (inode.c, mappingtable.c, nova.h): the pages that hold the inodes and the
      table of their addresses, with its mutexes.
    - Monitor, Histogram, HashTable (hash.c, utility.c), Records (record.c, occupySpace.c),
      KnapSack and Detect (detect.c, detect_time.c), WriteCount (writecount.c, nova.h,
      wearleveling.c): the wear monitor.
    - Migrate (wearleveling.c, writecount.c): moving a page of inodes or a journal page.
    - Journal (journal.c, namei.c): the per-CPU undo journal of small transactions.
    - LogPages (inode.c, nova.h): the chain of pages of an inode's log.
    - World: the state the operations on a log share, [world], the file system with the
      monitor and the DRAM header of the inode (struct nova_inode_info_header), and the
      monad [fs] over it.
    - InodeLog (inode.c, nova.h): the entries of a log, which of them are dead, both garbage
      collections, the extension of a log and the appending of an entry.  FastGc proves the
      fast collection, LogAppend the appending.
    - Shutdown (bbuild.c): the log of the free ranges and of the inode numbers that an
      unmount writes and a mount reads.
    - BlockMap (bbuild.c): the bitmaps of used blocks of the recovery and the free lists
      rebuilt from them.  Crawl: the walk over the log of an inode that marks its blocks.
      Recovery: the inode numbers found on the device and the whole recovery after a crash.
    - FileTree (inode.c, nova.h, namei.c): the tree of the pages of a file: deleting a range,
      entering a write entry, rebuilding the tree from the log after a mount.  Truncate proves
      the deletion, Rebuild the rebuilding.
    - FileData (dax.c): reading, and writing by copy into new blocks; it has the theorem on
      reading.  FileWrite proves the write.  WearBudget has the class of the budgets of
      writes an operation draws on.  DaxMap (dax.c): the blocks behind the pages of a file,
      for page faults.  Seek (file.c, inode.c): the search for data and holes, and the
      write-back of a mapped file.
    - Directory (dir.c): the entries of a directory, the tree of their hashes, the rebuilding
      and the listing.  DirTree proves that the operations act on a map from names to inode
      numbers, DirLog what the rebuilding and the listing give.
    - Attr (inode.c, nova.h): changing the attributes of an inode and the size of a file, the
      copies of the fields between the device and [struct inode], and the release of an
      inode without links.  Resize proves the cutting of a file, Release the release.
    - Vfs (inode.c, bbuild.c, nova.h): the inodes in memory.  [vfs_state] adds the cache of
      inodes, each with its header, to the file system and the monitor; [vfs] is the monad
      over it, in which an operation on one inode runs as a computation of [fs].  It has
      [nova_new_vfs_inode], [nova_iget] and [nova_rebuild_inode].
    - Names (namei.c, symlink.c): every operation of the VFS on names: lookup, create, mknod,
      symlink, link, unlink, mkdir, rmdir, rename.  They compose the inode numbers and tables,
      the directories, the inode logs and the journal.  Transaction proves their transactions,
      Create the creation of a file, Unlink the removal of a name and the additional link.
    - Sampling (wearleveling.c): the average and the deviation of sampled write counts.
    - SuperBlock (super.c, wprotect.h): the super block, its second copy and its checksum.
      MountOptions (super.c): the options of a mount and the remount.  Mount (super.c):
      formatting, mounting, unmounting and the statistics, which compose all of the above.

    How the code is rendered.  A function that can fail returns the code's error number;
    [None] is what the C code must never do: an access through a null or dangling pointer,
    an index out of range, a division by zero, a [BUG()], or waiting for a mutex that the
    same thread holds.  Integers are [Z] and every C operation that can wrap around is
    followed by the wrap-around of its type ([u64], [i32], ...).  Loops are [Fixpoint]s on
    the number of turns, or on fuel where the code follows pointers; the fuel is the size
    of the structure (the nodes of a tree, the blocks of the device), and the theorems show
    that it suffices, since they give results and not only properties of results.
    Operations take what the kernel provides as arguments: the CPU ([smp]), the outcome of
    memory allocations, the contents of fresh slab objects, the time, random numbers and
    the current process ([Monitor.env]).  Printing, timing and cache-line flushes are left
    out; so are spin locks, since every path releases the ones it takes, while the mutexes
    of the mapping tables are kept, since some paths do not.

    ** What the theorems show

    - Block allocator: every block is at any time in exactly one place, free or held by a
      client; allocation and freeing refine removal from and addition to a set; a double
      free is refused; out of memory and out of space change nothing; no sequence of calls
      faults; the counters agree with the lists.  A client frees ranges within one free list.
    - Inode numbers: allocation and freeing refine a set of numbers in use; live inodes
      have different numbers.
    - Inode tables: a new inode gets an unused slot in a zeroed page; slots are disjoint;
      an address that was given out is found again; a path that returns with the mutex
      held blocks the next caller.
    - Wear monitor: the table of processes is the histogram of all writes that were recorded
      in windows, mean and variance are exact, the counters are exact and never fail, the
      detection follows its state machine and raises the alarm exactly when the write rate
      exceeds what the device endures, except for a rate that would use up the device within a
      second, which raises none; the dynamic program computes the optimum of the knapsack
      problem; the sampled average and deviation are the integer ones.
    - Migration: the inodes of a page that moves keep their contents and are found again.
    - Journal: a transaction writes its entries into the ring and opens it by the tail; the
      recovery after a crash does not restore the fields, because the width stays in the
      top byte of the address.
    - Inode log: the pages taken for a log form a chain of fresh blocks, and releasing a
      chain frees exactly its blocks.  An appended entry is read back where it was put.  The
      fast collection keeps exactly the pages with a live entry, in order, and those from the
      tail on, and frees the others.
    - Shutdown: the ranges that are written to the log give the same free blocks when they
      are read; but the pointers to the log are stored in the wrong inode, so a mount never
      finds it.
    - Recovery: the free blocks of the rebuilt lists are exactly those no bitmap marks, and the
      crawl over the log of a file marks exactly the pages of the log and the blocks that
      replaying its entries gives the pages below the end of the file.  The scan of a page of
      inodes enters exactly the numbers of its valid inodes.
    - Mounting: the super block survives damage to its first copy, but a damaged second copy can
      be taken for good; a remount keeps exactly one reaction to errors and restores the options
      when it is refused; a mount without formatting faults in the recovery, because the tables
      of inode pages are allocated only by the formatting.
    - Files: rebuilding the tree gives the same pages as the replay the crawl uses; deleting
      pages removes exactly them and frees exactly their blocks.  A read returns the bytes of
      the file; a write past the test of its buffer changes exactly the bytes it wrote and
      commits its entries, or changes nothing when the device is full, and a read gets them
      back; but the test is inverted and refuses every valid buffer, following an unset
      pointer.  A request for blocks maps those of the file or a zeroed extent with its entry
      committed.  The search for data and holes and the write-back are exact.  Cutting a file keeps the bytes below the new size, clears
      those behind it and gives back the blocks; releasing a file gives back exactly its
      blocks, the pages of its log and its number.
    - Directories: sequences of additions and removals act as on a finite map as long as the
      hashes of the names differ; names with equal hashes are taken for each other; the
      rebuilt tree is the replay of the log; a listing gives each name the inode number of
      the next one.
    - Names: creating a file enters its name, initialises an unused inode and commits both
      with one transaction, and a lookup then finds it.  Removing a name and adding a link
      change the directory and the number of links with one transaction.  In all three the
      bytes of the device outside the places named are unchanged.

    The scope of the theorems.  Those on writes, directories and names are about operations
    whose entries fit into the page in which the log ends (extending a log is covered by the
    theorems of LogPages and FastGc), and where the radix tree gets its memory.  Those on
    directories and names are about directories other than the root, whose inode is not in the
    inode tables, and about names with different hashes.  Operations that only count their
    writes need a monitor that is [WearBudget.counting]: its counters, which are [int]s, have
    room for them.  Operations that also ask whether a page is to be migrated (the write, the
    request for blocks and those with a transaction) need one that is [WearBudget.ready k]:
    every block, by itself, is more than [k] writes below the threshold of the migration, so
    that none happens on the way; the migration has a theorem of its own (Migrate).  The
    threads of the recovery run one after the other.  The memory of the device is total: a
    store outside of it changes nothing of the file system and does not fault.

    ** Not modelled

    The handlers of page faults and the flags of mapped pages (the rest of dax.c), which the
    kernel's page tables drive; ioctl, statistics and sysfs, which are input and output; the
    processor's write protection (wprotect.c); the registration with the VFS (super.c); and
    the list of released pages (freelist.c), which no live code uses. *)

From stdpp Require Export base gmap list sorting.
From Stdlib Require Export ZArith Lia.

#[global] Open Scope Z_scope.

(** The lemmas that close the routine goals of the components. *)
Create HintDb nova.

Declare Scope word_scope.
Delimit Scope word_scope with word.

(** ** Machine integers

    A C integer of width [w] is a [Z]; every arithmetic operation of the source
    is followed by the wrap-around of its type. *)

Definition u64 (x : Z) : Z := x mod 18446744073709551616.
Definition u32 (x : Z) : Z := x mod 4294967296.
Definition u16 (x : Z) : Z := x mod 65536.
Definition u8 (x : Z) : Z := x mod 256.

(** Conversion to a signed type keeps the low bits, two's complement. *)
Definition i64 (x : Z) : Z :=
  (x + 9223372036854775808) mod 18446744073709551616 - 9223372036854775808.
Definition i32 (x : Z) : Z := (x + 2147483648) mod 4294967296 - 2147483648.

Lemma u64_small x : 0 <= x < 18446744073709551616 -> u64 x = x.
Proof. apply Z.mod_small. Qed.

Lemma u32_small x : 0 <= x < 4294967296 -> u32 x = x.
Proof. apply Z.mod_small. Qed.

Lemma i32_small x : -2147483648 <= x < 2147483648 -> i32 x = x.
Proof. intros. unfold i32. rewrite Z.mod_small by lia. lia. Qed.

Lemma i64_small x :
  -9223372036854775808 <= x < 9223372036854775808 -> i64 x = x.
Proof. intros. unfold i64. rewrite Z.mod_small by lia. lia. Qed.

Lemma u64_range x : 0 <= u64 x < 18446744073709551616.
Proof. apply Z.mod_pos_bound. lia. Qed.

Lemma u64_u64_add x y : u64 (u64 x + y) = u64 (x + y).
Proof. unfold u64. apply Zplus_mod_idemp_l. Qed.

(** Sums and differences of [unsigned long]s. *)
Notation "x ⊞ y" := (u64 (x + y)) (at level 50, left associativity) : word_scope.
Notation "x ⊟ y" := (u64 (x - y)) (at level 50, left associativity) : word_scope.

#[export] Hint Resolve u64_range : nova.

(** [wrap] removes the wrap-arounds whose argument [lia] can bound. *)
Ltac wrap :=
  repeat match goal with
  | |- context [u64 ?x] => rewrite (u64_small x) by lia
  | |- context [u32 ?x] => rewrite (u32_small x) by lia
  | |- context [i32 ?x] => rewrite (i32_small x) by lia
  | |- context [i64 ?x] => rewrite (i64_small x) by lia
  end.

Ltac wrap_in H :=
  repeat match type of H with
  | context [u64 ?x] => rewrite (u64_small x) in H by lia
  | context [u32 ?x] => rewrite (u32_small x) in H by lia
  | context [i32 ?x] => rewrite (i32_small x) in H by lia
  | context [i64 ?x] => rewrite (i64_small x) in H by lia
  end.

(** [mlia]: linear arithmetic with division and modulus by literals. *)
Ltac mlia := Z.to_euclidean_division_equations; lia.

(** ** Kernel error numbers (include/uapi/asm-generic/errno-base.h) *)

Definition ENOMEM : Z := 12.
Definition EACCES : Z := 13.
Definition EINVAL : Z := 22.
Definition ENOSPC : Z := 28.

(** ** Booleans of comparisons *)

Ltac bool_hyps :=
  repeat match goal with
  | H : _ && _ = true |- _ => apply andb_true_iff in H as [? ?]
  | H : _ || _ = false |- _ => apply orb_false_iff in H as [? ?]
  | H : negb _ = true |- _ => apply negb_true_iff in H
  | H : negb _ = false |- _ => apply negb_false_iff in H
  | H : (_ <? _) = true |- _ => apply Z.ltb_lt in H
  | H : (_ <? _) = false |- _ => apply Z.ltb_ge in H
  | H : (_ <=? _) = true |- _ => apply Z.leb_le in H
  | H : (_ <=? _) = false |- _ => apply Z.leb_gt in H
  | H : (_ >? _) = true |- _ => rewrite Z.gtb_ltb in H; apply Z.ltb_lt in H
  | H : (_ >? _) = false |- _ => rewrite Z.gtb_ltb in H; apply Z.ltb_ge in H
  | H : (_ >=? _) = true |- _ => rewrite Z.geb_leb in H; apply Z.leb_le in H
  | H : (_ >=? _) = false |- _ => rewrite Z.geb_leb in H; apply Z.leb_gt in H
  | H : (_ =? _) = true |- _ => apply Z.eqb_eq in H
  | H : (_ =? _) = false |- _ => apply Z.eqb_neq in H
  end.

(** Case analysis on the comparison a goal is stuck on. *)
Ltac case_cmp :=
  match goal with
  | |- context [if ?b then _ else _] =>
    let E := fresh "Hif" in destruct b eqn:E; bool_hyps
  end.

(** ** Lists *)

Section sorted.
Context {A : Type} (R : A -> A -> Prop).

Lemma StronglySorted_app_iff l1 l2 :
  StronglySorted R (l1 ++ l2) <->
  StronglySorted R l1 /\ StronglySorted R l2 /\
  Forall (fun x => Forall (R x) l2) l1.
Proof.
  induction l1 as [|x l1 IH]; simpl.
  - split; [intros; split_and!; auto using SSorted_nil | tauto].
  - split.
    + intros H. apply StronglySorted_inv in H as [H1 H2].
      apply IH in H1 as (? & ? & ?). apply Forall_app in H2 as [? ?].
      split_and!; auto using SSorted_cons.
    + intros (H1 & H2 & H3). apply StronglySorted_inv in H1 as [? ?].
      inversion H3; subst. apply SSorted_cons; [by apply IH|].
      by apply Forall_app.
Qed.

Lemma StronglySorted_cons_iff x l :
  StronglySorted R (x :: l) <-> StronglySorted R l /\ Forall (R x) l.
Proof.
  split; [apply StronglySorted_inv | intros [? ?]; by apply SSorted_cons].
Qed.
End sorted.

(** Sum of a measure over a list. *)
Definition sum_of {A} (f : A -> Z) (l : list A) : Z :=
  foldr (fun x acc => f x + acc) 0 l.

Lemma sum_of_app {A} (f : A -> Z) l1 l2 :
  sum_of f (l1 ++ l2) = sum_of f l1 + sum_of f l2.
Proof. induction l1; simpl; [done | lia]. Qed.

Lemma sum_of_nonneg {A} (f : A -> Z) l :
  Forall (fun x => 0 <= f x) l -> 0 <= sum_of f l.
Proof. induction 1; simpl; lia. Qed.

Lemma elem_of_option_list {A} (x : A) (o : option A) : x ∈ option_list o <-> o = Some x.
Proof.
  destruct o as [y|]; simpl.
  - rewrite list_elem_of_singleton. split; [by intros -> | by intros [= ->]].
  - split; [by intros ?%not_elem_of_nil | done].
Qed.

Lemma Forall2_impl_elem {A B} (P Q : A -> B -> Prop) l k :
  Forall2 P l k -> (forall x y, x ∈ l -> P x y -> Q x y) -> Forall2 Q l k.
Proof.
  induction 1 as [|x y l k Hxy Hlk IH]; intros H; constructor.
  - by apply H; [left|].
  - apply IH. intros x' y' Hx. by apply H; right.
Qed.

(** Replacing the partner of one element of a list without repetition. *)
Lemma Forall2_replace {A B} (P Q : A -> B -> Prop) l k i x y :
  Forall2 P l k -> NoDup l -> l !! i = Some x -> Q x y ->
  (forall x' y', x' <> x -> P x' y' -> Q x' y') -> Forall2 Q l (<[i := y]> k).
Proof.
  intros Hf. revert i. induction Hf as [|x' y' l k Hxy Hlk IH]; intros i Hnd Hi HQ H; [done|].
  apply NoDup_cons in Hnd as [Hx Hnd]. destruct i as [|i]; simpl in Hi |- *.
  - injection Hi as ->. constructor; [done|]. eapply Forall2_impl_elem; [done|].
    intros z z' Hz. apply H. by intros ->.
  - constructor; [|by apply IH]. apply H; [|done]. intros ->.
    by apply list_elem_of_lookup_2 in Hi.
Qed.

(** Taking one element out of a list without repetition. *)
Lemma NoDup_mid {A} (l1 : list A) x l2 :
  NoDup (l1 ++ x :: l2) -> NoDup (l1 ++ l2) /\ (x ∉ l1) /\ (x ∉ l2).
Proof.
  rewrite <- Permutation_middle. intros [Hx Hnd]%NoDup_cons.
  split; [done|]. by apply not_elem_of_app.
Qed.

(** ** Running an operation on a concrete state

    The state an operation ends in, with a default for a fault; its result can be
    computed without normalising the state. *)

Definition run_state {A S} (r : option (A * S)) (d : S) : S :=
  match r with Some (_, s) => s | None => d end.

Lemma run_result {A S} (r : option (A * S)) (d : S) (a : A) :
  fst <$> r = Some a -> r = Some (a, run_state r d).
Proof. destruct r as [[x s]|]; simpl; [by intros [= ->]|done]. Qed.
