(* ===== verification/Layout.v ===== *)
(** * On-media layout and address translation (nova.h, nova_def.h)

    Constants, the bytes of the persistent memory, the fields of the packed
    structures as little-endian loads and stores, and the inline functions that
    translate between block numbers, device offsets and kernel addresses. *)

From S2P Require Import Prelude.

(** ** Constants *)

Definition PAGE_SHIFT : Z := 12.
Definition PAGE_SIZE : Z := 4096.
Definition CACHELINE_SIZE : Z := 64.
Definition INVALID_MASK : Z := 4095.
Definition LAST_ENTRY : Z := 4064.
Definition NOVA_SB_SIZE : Z := 512.
Definition NOVA_INODE_SIZE : Z := 128.
Definition NOVA_INODE_BITS : Z := 7.
Definition NOVA_DEF_BLOCK_SIZE_4K : Z := 4096.
Definition NOVA_BLOCK_TYPE_4K : Z := 0.
Definition NOVA_BLOCK_TYPE_2M : Z := 1.
Definition NOVA_BLOCK_TYPE_1G : Z := 2.
Definition NOVA_ROOT_INO : Z := 1.
Definition NOVA_INODETABLE_INO : Z := 2.
Definition NOVA_BLOCKNODE_INO : Z := 3.
Definition NOVA_INODELIST_INO : Z := 4.
Definition NOVA_LITEJOURNAL_INO : Z := 5.
Definition NOVA_NORMAL_INODE_START : Z := 16.
Definition SHARED_CPU : Z := 65536.
Definition RESERVED_BLOCKS : Z := 3.
Definition BLOCKS_MAX : Z := 17179869184 / 4096.

(** [blk_type_to_shift]; reading past the three entries is [None]. *)
Definition blk_type_to_shift (btype : Z) : option Z :=
  if btype =? NOVA_BLOCK_TYPE_4K then Some 12
  else if btype =? NOVA_BLOCK_TYPE_2M then Some 21
  else if btype =? NOVA_BLOCK_TYPE_1G then Some 30
  else None.

(** Blocks of 4 KB in one block of a type. *)
Definition nova_get_numblocks (btype : Z) : Z :=
  if btype =? NOVA_BLOCK_TYPE_4K then 1
  else if btype =? NOVA_BLOCK_TYPE_2M then 512
  else 262144.

(** ** Memory

    The kernel address space as bytes; the device is mapped at [virt_addr]. *)

Abbreviation memory := (Z -> Z).

Fixpoint load (n : nat) (m : memory) (a : Z) : Z :=
  match n with
  | O => 0
  | S n => m a mod 256 + 256 * load n m (a + 1)
  end.

Definition store (n : nat) (m : memory) (a v : Z) : memory :=
  fun x => if (a <=? x) && (x <? a + Z.of_nat n)
           then (v / 256 ^ (x - a)) mod 256 else m x.

(** [memset] to zero and [memcpy] of [len] bytes. *)
Definition memset0 (m : memory) (a len : Z) : memory :=
  fun x => if (a <=? x) && (x <? a + len) then 0 else m x.

Definition memcpy (m : memory) (dst src len : Z) : memory :=
  fun x => if (dst <=? x) && (x <? dst + len) then m (src + (x - dst)) else m x.

(** Two memories that agree on [len] bytes from [a]. *)
Definition agree (m m' : memory) (a len : Z) : Prop :=
  forall x, a <= x < a + len -> m x = m' x.

Lemma load_ext n m m' a : agree m m' a (Z.of_nat n) -> load n m a = load n m' a.
Proof.
  revert a. induction n as [|n IH]; intros a Hag; simpl; [done|].
  rewrite (Hag a) by lia. rewrite (IH (a + 1)); [done|].
  intros x ?. apply Hag. lia.
Qed.

Lemma load_range n m a : 0 <= load n m a < 256 ^ Z.of_nat n.
Proof.
  revert a. induction n as [|n IH]; intros a; [simpl; lia|].
  simpl load. specialize (IH (a + 1)).
  rewrite Nat2Z.inj_succ, Z.pow_succ_r by lia.
  pose proof (Z.mod_pos_bound (m a) 256). lia.
Qed.

Lemma store_disjoint n m a v x :
  x < a \/ a + Z.of_nat n <= x -> store n m a v x = m x.
Proof. intros. unfold store. case_cmp; [lia|done]. Qed.

Lemma load_store_ne n k m a b v :
  b + Z.of_nat n <= a \/ a + Z.of_nat k <= b ->
  load n (store k m a v) b = load n m b.
Proof. intros. apply load_ext. intros x ?. apply store_disjoint. lia. Qed.

Lemma load_digits n v : forall k m a,
  (forall i, 0 <= i < Z.of_nat n -> m (a + i) = (v / 256 ^ (k + i)) mod 256) -> 0 <= k ->
  load n m a = (v / 256 ^ k) mod 256 ^ Z.of_nat n.
Proof.
  induction n as [|n IH]; intros k m a Hm Hk; simpl load.
  - by rewrite Z.mod_1_r.
  - rewrite (IH (k + 1) m (a + 1)); [| |lia].
    + pose proof (Hm 0 ltac:(lia)) as H0. rewrite !Z.add_0_r in H0. rewrite H0.
      rewrite Nat2Z.inj_succ, Z.pow_succ_r by lia.
      rewrite Z.rem_mul_r by (try lia; apply Z.pow_nonzero; lia).
      rewrite Z.mod_mod by lia.
      rewrite Z.pow_add_r, Z.pow_1_r, Z.div_div by lia. done.
    + intros i ?. replace (a + 1 + i) with (a + (i + 1)) by lia.
      rewrite Hm by lia. by replace (k + 1 + i) with (k + (i + 1)) by lia.
Qed.

(** Reading back what was stored gives the value at the width of the field. *)
Lemma load_store_eq n m a v : load n (store n m a v) a = v mod 256 ^ Z.of_nat n.
Proof.
  rewrite (load_digits n v 0); [by rewrite Z.pow_0_r, Z.div_1_r| |lia].
  intros i ?. unfold store.
  rewrite (proj2 (Z.leb_le _ _)) by lia. rewrite (proj2 (Z.ltb_lt _ _)) by lia.
  simpl. f_equal. f_equal. f_equal. lia.
Qed.

Lemma load8_store8 m a v : 0 <= v < 18446744073709551616 -> load 8 (store 8 m a v) a = v.
Proof. intros. rewrite load_store_eq. apply Z.mod_small. done. Qed.

Lemma load_memset0 n m a len b :
  a <= b -> b + Z.of_nat n <= a + len -> load n (memset0 m a len) b = 0.
Proof.
  intros. rewrite (load_ext _ _ (fun _ => 0)).
  - clear. revert b. induction n as [|n IH]; intros b; simpl; [done|]. by rewrite IH.
  - intros x ?. unfold memset0. case_cmp; [done|lia].
Qed.

Lemma load_memset0_ne n m a len b :
  b + Z.of_nat n <= a \/ a + len <= b -> load n (memset0 m a len) b = load n m b.
Proof. intros. apply load_ext. intros x ?. unfold memset0. case_cmp; [lia|done]. Qed.

Lemma load_memcpy n m dst src len o :
  0 <= o -> o + Z.of_nat n <= len ->
  load n (memcpy m dst src len) (dst + o) = load n m (src + o).
Proof.
  intros H0 H1. revert o H0 H1. induction n as [|n IH]; intros o H0 H1; simpl; [done|].
  rewrite <- !Z.add_assoc, IH by lia. f_equal. unfold memcpy.
  case_cmp; [|lia]. f_equal. f_equal. lia.
Qed.

Lemma load_memcpy_ne n m dst src len b :
  b + Z.of_nat n <= dst \/ dst + len <= b ->
  load n (memcpy m dst src len) b = load n m b.
Proof. intros. apply load_ext. intros x ?. unfold memcpy. case_cmp; [lia|done]. Qed.

(** ** Address translation *)

(** [nova_get_block]: offset 0 is the null pointer. *)
Definition nova_get_block (virt_addr block : Z) : Z :=
  if block =? 0 then 0 else u64 (virt_addr + block).

Definition nova_get_block_off (blocknr : Z) : Z := u64 (Z.shiftl blocknr PAGE_SHIFT).

Definition nova_get_blocknr (block : Z) : Z := Z.shiftr block PAGE_SHIFT.

Definition nova_get_addr_off (virt_addr addr : Z) : Z := u64 (addr - virt_addr).

(** Number of the block an address lies in (writecount.h). *)
Definition get_block_number_by_virt (virt_addr viraddr : Z) : Z :=
  let block := if viraddr =? 0 then 0 else u64 (viraddr - virt_addr) in
  if block =? 0 then 0 else Z.shiftr block 12.

Definition BLOCK_OFF (p : Z) : Z := Z.land p (Z.lnot INVALID_MASK).
Definition ENTRY_LOC (p : Z) : Z := Z.land p INVALID_MASK.

Lemma BLOCK_OFF_alt p : BLOCK_OFF p = p - p mod 4096.
Proof.
  unfold BLOCK_OFF, INVALID_MASK. rewrite <- Z.ldiff_land.
  change 4095 with (Z.ones 12). rewrite Z.ldiff_ones_r by lia.
  rewrite Z.shiftl_mul_pow2, Z.shiftr_div_pow2 by lia.
  change (2 ^ 12) with 4096. pose proof (Z.div_mod p 4096). lia.
Qed.

Lemma ENTRY_LOC_alt p : ENTRY_LOC p = p mod 4096.
Proof. unfold ENTRY_LOC, INVALID_MASK. change 4095 with (Z.ones 12). by rewrite Z.land_ones. Qed.

Lemma nova_get_block_off_alt b :
  0 <= b < 4503599627370496 -> nova_get_block_off b = 4096 * b.
Proof.
  intros. unfold nova_get_block_off, PAGE_SHIFT.
  rewrite Z.shiftl_mul_pow2 by lia. change (2 ^ 12) with 4096. wrap. lia.
Qed.

(** Block numbers and offsets are inverse to each other. *)
Lemma nova_get_blocknr_off b :
  0 <= b < 4503599627370496 -> nova_get_blocknr (nova_get_block_off b) = b.
Proof.
  intros. rewrite nova_get_block_off_alt by done. unfold nova_get_blocknr, PAGE_SHIFT.
  rewrite Z.shiftr_div_pow2 by lia. change (2 ^ 12) with 4096. mlia.
Qed.

(** ** Fields of [struct nova_inode] (offsets of the packed structure) *)

Module Pi.
Definition valid (m : memory) (pi : Z) : Z := load 1 m (pi + 2).
Definition i_blk_type (m : memory) (pi : Z) : Z := load 1 m (pi + 3).
Definition i_flags (m : memory) (pi : Z) : Z := load 4 m (pi + 4).
Definition i_size (m : memory) (pi : Z) : Z := load 8 m (pi + 8).
Definition i_ctime (m : memory) (pi : Z) : Z := load 4 m (pi + 16).
Definition i_mtime (m : memory) (pi : Z) : Z := load 4 m (pi + 20).
Definition i_atime (m : memory) (pi : Z) : Z := load 4 m (pi + 24).
Definition i_mode (m : memory) (pi : Z) : Z := load 2 m (pi + 28).
Definition i_links_count (m : memory) (pi : Z) : Z := load 2 m (pi + 30).
Definition i_blocks (m : memory) (pi : Z) : Z := load 8 m (pi + 32).
Definition i_xattr (m : memory) (pi : Z) : Z := load 8 m (pi + 40).
Definition i_uid (m : memory) (pi : Z) : Z := load 4 m (pi + 48).
Definition i_gid (m : memory) (pi : Z) : Z := load 4 m (pi + 52).
Definition i_generation (m : memory) (pi : Z) : Z := load 4 m (pi + 56).
Definition nova_ino (m : memory) (pi : Z) : Z := load 8 m (pi + 64).
Definition log_head (m : memory) (pi : Z) : Z := load 8 m (pi + 72).
Definition log_tail (m : memory) (pi : Z) : Z := load 8 m (pi + 80).
Definition set_valid m pi v : memory := store 1 m (pi + 2) v.
Definition set_i_blk_type m pi v : memory := store 1 m (pi + 3) v.
Definition set_i_flags m pi v : memory := store 4 m (pi + 4) v.
Definition set_i_size m pi v : memory := store 8 m (pi + 8) v.
Definition set_i_ctime m pi v : memory := store 4 m (pi + 16) v.
Definition set_i_mtime m pi v : memory := store 4 m (pi + 20) v.
Definition set_i_atime m pi v : memory := store 4 m (pi + 24) v.
Definition set_i_mode m pi v : memory := store 2 m (pi + 28) v.
Definition set_i_links_count m pi v : memory := store 2 m (pi + 30) v.
Definition set_i_blocks m pi v : memory := store 8 m (pi + 32) v.
Definition set_i_uid m pi v : memory := store 4 m (pi + 48) v.
Definition set_i_gid m pi v : memory := store 4 m (pi + 52) v.
Definition set_i_generation m pi v : memory := store 4 m (pi + 56) v.
Definition set_nova_ino m pi v : memory := store 8 m (pi + 64) v.
Definition set_log_head m pi v : memory := store 8 m (pi + 72) v.
Definition set_log_tail m pi v : memory := store 8 m (pi + 80) v.
End Pi.

(** The file types of [i_mode] (include/uapi/linux/stat.h). *)
Definition S_IFMT : Z := 61440.
Definition S_IFDIR : Z := 16384.
Definition S_IFREG : Z := 32768.
Definition S_IFLNK : Z := 40960.
Definition S_ISREG (mode : Z) : bool := Z.land mode S_IFMT =? S_IFREG.
Definition S_ISDIR (mode : Z) : bool := Z.land mode S_IFMT =? S_IFDIR.

(** The reserved inodes lie behind the two copies of the super block. *)
Definition nova_get_basic_inode (virt_addr inode_number : Z) : Z :=
  u64 (virt_addr + NOVA_SB_SIZE * 2 + (inode_number - NOVA_ROOT_INO) * NOVA_INODE_SIZE).

Definition nova_get_inode_by_ino (virt_addr ino : Z) : option Z :=
  if (ino =? 0) || (NOVA_NORMAL_INODE_START <=? ino) then None
  else Some (nova_get_basic_inode virt_addr ino).
