(* ===== verification/RangeTree.v ===== *)
(** * Range trees (balloc.c, super.c)

    [struct nova_range_node] trees: the free-block tree of each [free_list] and
    the in-use inode tree of each [inode_map] are red-black trees of nodes that
    hold a closed range.  The descent and the insertion point are NOVA's own
    code; rebalancing, erasing and the neighbour functions are the kernel's
    [lib/rbtree.c], which enters as the interface [RbTree] below.  Nodes live in
    a slab cache and are updated in place through pointers, so the model keeps
    them in a heap, and a tree is a shape over pointers. *)

From S2P Require Import Prelude.

(** ** Nodes and trees *)

(** A pointer to a live object; a nullable pointer is an [option ptr]. *)
Abbreviation ptr := positive.

(** [struct nova_range_node], less the embedded [rb_node]. *)
Record nova_range_node := RangeNode { range_low : Z; range_high : Z }.

(** The slab cache [nova_range_node_cachep]: the live nodes. *)
Abbreviation node_heap := (gmap ptr nova_range_node).

(** [struct rb_root]: the shape reached from [rb_node] through [rb_left] and
    [rb_right]. *)
Inductive rb_tree :=
| RB_ROOT
| RBNode (rb_left : rb_tree) (n : ptr) (rb_right : rb_tree).

Fixpoint inorder (t : rb_tree) : list ptr :=
  match t with
  | RB_ROOT => []
  | RBNode l n r => inorder l ++ n :: inorder r
  end.

(** ** The kernel's red-black tree and slab interfaces *)

(** The functions of [lib/rbtree.c] and of the slab allocator NOVA calls. *)
Class RbTree := {
  rb_insert_color : ptr -> rb_tree -> rb_tree;
  rb_erase : ptr -> rb_tree -> rb_tree;
  rb_next : rb_tree -> ptr -> option ptr;
  rb_prev : rb_tree -> ptr -> option ptr;
  rb_first : rb_tree -> option ptr;
  kmem_cache_alloc : node_heap -> option ptr;
}.

(** What their documentation (Documentation/rbtree.txt) promises: rebalancing
    keeps the order, erasing removes one node, the neighbours are those of the
    sorted order, and an allocation is [NULL] or a fresh object. *)
Class RbTreeLaws `{RbTree} : Prop := {
  rb_insert_color_inorder n t : inorder (rb_insert_color n t) = inorder t;
  rb_erase_inorder t l1 n l2 :
    NoDup (inorder t) -> inorder t = l1 ++ n :: l2 ->
    inorder (rb_erase n t) = l1 ++ l2;
  rb_next_inorder t l1 n l2 :
    NoDup (inorder t) -> inorder t = l1 ++ n :: l2 -> rb_next t n = head l2;
  rb_prev_inorder t l1 n l2 :
    NoDup (inorder t) -> inorder t = l1 ++ n :: l2 -> rb_prev t n = last l1;
  rb_first_inorder t : rb_first t = head (inorder t);
  kmem_cache_alloc_fresh h p : kmem_cache_alloc h = Some p -> h !! p = None;
}.

(** ** Operations *)

(** Three-way comparison of a key with a node's range. *)
Definition nova_rbtree_compare_rangenode (curr : nova_range_node) (low : Z) : Z :=
  if low <? range_low curr then -1
  else if range_high curr <? low then 1
  else 0.

(** The descent: the found flag and the last node visited.  [None] is the
    access to a node that is not live. *)
Fixpoint find_range_loop (h : node_heap) (temp : rb_tree) (low : Z)
    (curr : option ptr) : option (Z * option ptr) :=
  match temp with
  | RB_ROOT => Some (0, curr)
  | RBNode l n r =>
    rn ← h !! n;
    let compVal := nova_rbtree_compare_rangenode rn low in
    if compVal =? -1 then find_range_loop h l low (Some n)
    else if compVal =? 1 then find_range_loop h r low (Some n)
    else Some (1, Some n)
  end.

Definition nova_find_range_node (h : node_heap) (tree : rb_tree) (low : Z) :
    option (Z * option ptr) :=
  find_range_loop h tree low None.

(** The descent of the insertion and [rb_link_node] at the empty slot it ends
    in; [inl] is the -EINVAL of a key already covered. *)
Fixpoint link_range_node (h : node_heap) (temp : rb_tree) (low : Z) (n : ptr) :
    option (Z + rb_tree) :=
  match temp with
  | RB_ROOT => Some (inr (RBNode RB_ROOT n RB_ROOT))
  | RBNode l c r =>
    rn ← h !! c;
    let compVal := nova_rbtree_compare_rangenode rn low in
    if compVal =? -1 then
      res ← link_range_node h l low n;
      Some (match res with inl e => inl e | inr l' => inr (RBNode l' c r) end)
    else if compVal =? 1 then
      res ← link_range_node h r low n;
      Some (match res with inl e => inl e | inr r' => inr (RBNode l c r') end)
    else Some (inl (- EINVAL))
  end.

Section operations.
Context `{RbTree}.

(** Returns 0 and the tree with [new_node], or -EINVAL and the tree as it
    was. *)
Definition nova_insert_range_node (h : node_heap) (tree : rb_tree)
    (new_node : ptr) : option (Z * rb_tree) :=
  rn ← h !! new_node;
  res ← link_range_node h tree (range_low rn) new_node;
  Some (match res with
        | inl e => (e, tree)
        | inr t => (0, rb_insert_color new_node t)
        end).

(** [nova_insert_blocktree] only adds a debug message to the insertion. *)
Definition nova_insert_blocktree (h : node_heap) (tree : rb_tree)
    (new_node : ptr) : option (Z * rb_tree) :=
  nova_insert_range_node h tree new_node.

(** The free neighbours of a range that is to be inserted: 0 with [prev] and
    [next], or -EINVAL. *)
Definition nova_find_free_slot (h : node_heap) (tree : rb_tree) (low high : Z) :
    option (Z * (option ptr * option ptr)) :=
  res ← nova_find_range_node h tree low;
  let '(ret, ret_node) := (res : Z * option ptr) in
  if negb (ret =? 0) then Some (- EINVAL, (None, None))
  else
    match ret_node with
    | None => Some (0, (None, None))
    | Some n =>
      rn ← h !! n;
      if range_high rn <? low then Some (0, (Some n, rb_next tree n))
      else if high <? range_low rn then Some (0, (rb_prev tree n, Some n))
      else Some (- EINVAL, (None, None))
    end.

(** [nova_alloc_range_node]: the new object's fields hold whatever the slab
    left there; every caller stores both before it reads them. *)
Definition nova_alloc_range_node (h : node_heap) (garbage : nova_range_node) :
    option (ptr * node_heap) :=
  match kmem_cache_alloc h with
  | Some p => Some (p, <[p := garbage]> h)
  | None => None
  end.
End operations.

Definition nova_free_range_node (n : ptr) (h : node_heap) : node_heap :=
  delete n h.

(** In-place updates of a live node. *)
Definition set_range_low (n : ptr) (v : Z) (h : node_heap) : node_heap :=
  alter (fun r => RangeNode v (range_high r)) n h.
Definition set_range_high (n : ptr) (v : Z) (h : node_heap) : node_heap :=
  alter (fun r => RangeNode (range_low r) v) n h.

(** ** Well-formed trees *)

(** Block and inode numbers stay below 2^52 (a 64-bit byte address shifted by
    [PAGE_SHIFT]); the bound makes every sum of the code exact. *)
Definition RANGE_LIMIT : Z := 4503599627370496.

Definition wf_range (r : nova_range_node) : Prop :=
  0 <= range_low r <= range_high r /\ range_high r < RANGE_LIMIT.

(** Ranges are kept apart: adjacent ones are always merged. *)
Definition before (a b : nova_range_node) : Prop :=
  range_high a + 1 < range_low b.

(** The nodes [ns] are live and hold the ranges [rs]. *)
Definition holds (h : node_heap) (ns : list ptr) (rs : list nova_range_node) : Prop :=
  Forall2 (fun n r => h !! n = Some r) ns rs.

Record tree_ok (h : node_heap) (t : rb_tree) (rs : list nova_range_node) : Prop := {
  tree_holds : holds h (inorder t) rs;
  tree_sorted : StronglySorted before rs;
  tree_wf : Forall wf_range rs;
}.

(** Number of elements of a range. *)
Definition range_size (r : nova_range_node) : Z := range_high r - range_low r + 1.

(** Membership of a number in a set of ranges. *)
Definition in_range (b : Z) (r : nova_range_node) : Prop :=
  range_low r <= b <= range_high r.
Definition in_ranges (b : Z) (rs : list nova_range_node) : Prop :=
  Exists (in_range b) rs.

Section holds.
Implicit Types (h : node_heap) (ns : list ptr) (rs : list nova_range_node).

Lemma holds_app_inv h ns1 ns2 rs :
  holds h (ns1 ++ ns2) rs ->
  exists rs1 rs2, rs = rs1 ++ rs2 /\ holds h ns1 rs1 /\ holds h ns2 rs2.
Proof.
  intros H. apply Forall2_app_inv_l in H as (rs1 & rs2 & ? & ? & ->). eauto.
Qed.

Lemma holds_app h ns1 ns2 rs1 rs2 :
  holds h ns1 rs1 -> holds h ns2 rs2 -> holds h (ns1 ++ ns2) (rs1 ++ rs2).
Proof. apply Forall2_app. Qed.

Lemma holds_cons_inv h n ns rs :
  holds h (n :: ns) rs ->
  exists r rs', rs = r :: rs' /\ h !! n = Some r /\ holds h ns rs'.
Proof. intros H. inversion H; subst. eauto. Qed.

Lemma holds_in h ns rs n :
  holds h ns rs -> n ∈ ns -> exists r, h !! n = Some r /\ r ∈ rs.
Proof.
  intros H. induction H as [|n' r ns rs Hn _ IH]; intros Hin.
  - by apply not_elem_of_nil in Hin.
  - apply elem_of_cons in Hin as [->|Hin]; [exists r; split; [done|set_solver]|].
    destruct (IH Hin) as (r' & ? & ?). exists r'. set_solver.
Qed.

(** Touching a node outside the list does not change what the list holds. *)
Lemma holds_frame h h' ns rs :
  holds h ns rs -> (forall n, n ∈ ns -> h' !! n = h !! n) -> holds h' ns rs.
Proof.
  intros H. induction H as [|n r ns rs Hn _ IH]; intros Heq; [constructor|].
  constructor; [rewrite Heq; set_solver|]. apply IH. set_solver.
Qed.

(** Two nodes of a sorted tree never coincide. *)
Lemma holds_sorted_NoDup h ns rs :
  holds h ns rs -> StronglySorted before rs -> Forall wf_range rs -> NoDup ns.
Proof.
  intros H. induction H as [|n r ns rs Hn Hh IH]; intros Hs Hw; [constructor|].
  apply StronglySorted_inv in Hs as [Hs Hb]. inversion Hw as [|? ? Hr Hw']; subst.
  constructor; [|by apply IH].
  intros Hin. destruct (holds_in _ _ _ _ Hh Hin) as (r' & Hn' & Hin').
  rewrite Hn in Hn'. simplify_eq.
  rewrite Forall_forall in Hb. specialize (Hb _ Hin').
  unfold before, wf_range in *. lia.
Qed.

(** One node sits at one position. *)
Lemma NoDup_split_unique (l1 l2 k1 k2 : list ptr) n :
  NoDup (l1 ++ n :: l2) -> l1 ++ n :: l2 = k1 ++ n :: k2 -> l1 = k1 /\ l2 = k2.
Proof.
  revert k1. induction l1 as [|x l1 IH]; intros [|y k1] Hnd Heq; simplify_eq/=; auto.
  - apply NoDup_cons in Hnd as [Hx _]. set_solver.
  - apply NoDup_cons in Hnd as [Hx _]. set_solver.
  - apply NoDup_cons in Hnd as [_ Hnd]. destruct (IH k1) as [-> ->]; auto.
Qed.
End holds.

Lemma tree_ok_NoDup h t rs : tree_ok h t rs -> NoDup (inorder t).
Proof. intros []. eauto using holds_sorted_NoDup. Qed.

(** ** The descent *)

Definition below (low : Z) (r : nova_range_node) : Prop := range_high r < low.
Definition above (low : Z) (r : nova_range_node) : Prop := low < range_low r.

Lemma compare_cases rn low :
  wf_range rn ->
  (nova_rbtree_compare_rangenode rn low = -1 /\ above low rn) \/
  (nova_rbtree_compare_rangenode rn low = 1 /\ below low rn) \/
  (nova_rbtree_compare_rangenode rn low = 0 /\ in_range low rn).
Proof.
  intros Hw. unfold nova_rbtree_compare_rangenode, above, below, in_range, wf_range in *.
  repeat case_cmp; lia.
Qed.

Lemma Forall_before_below r rs low :
  Forall (fun x => before x r) rs -> range_low r <= low + 1 -> Forall (below low) rs.
Proof. intros H ?. eapply Forall_impl; [exact H|]. unfold before, below. intros; lia. Qed.

Lemma Forall_before_above r rs low :
  Forall (before r) rs -> low <= range_high r + 1 -> Forall (above low) rs.
Proof. intros H ?. eapply Forall_impl; [exact H|]. unfold before, above. intros; lia. Qed.

(** A sorted tree splits around its root. *)
Lemma tree_ok_node_inv h l n r rs :
  tree_ok h (RBNode l n r) rs ->
  exists rs1 rn rs2,
    rs = rs1 ++ rn :: rs2 /\ h !! n = Some rn /\ wf_range rn /\
    tree_ok h l rs1 /\ tree_ok h r rs2 /\
    Forall (fun x => before x rn) rs1 /\ Forall (before rn) rs2.
Proof.
  intros [Hh Hs Hw]. simpl in Hh.
  apply holds_app_inv in Hh as (rs1 & rs2' & -> & H1 & H2).
  apply holds_cons_inv in H2 as (rn & rs2 & -> & Hn & H2).
  apply StronglySorted_app_iff in Hs as (Hs1 & Hs2 & Hc).
  apply StronglySorted_cons_iff in Hs2 as [Hs2 Hb].
  apply Forall_app in Hw as [Hw1 Hw2]. inversion Hw2; subst.
  exists rs1, rn, rs2. split_and!; auto; try by constructor.
  eapply Forall_impl; [exact Hc|]. intros x Hx. by inversion Hx.
Qed.

(** The position [low] falls into: the nodes split into those below and those
    above it. *)
Record slot_at (h : node_heap) (t : rb_tree) (rs : list nova_range_node) (low : Z)
    (ns1 ns2 : list ptr) (rs1 rs2 : list nova_range_node) : Prop := {
  slot_nodes : inorder t = ns1 ++ ns2;
  slot_ranges : rs = rs1 ++ rs2;
  slot_holds1 : holds h ns1 rs1;
  slot_holds2 : holds h ns2 rs2;
  slot_below : Forall (below low) rs1;
  slot_above : Forall (above low) rs2;
}.

Definition last_visited (t : rb_tree) (ns1 ns2 : list ptr) (curr c : option ptr) : Prop :=
  (ns1 <> [] /\ c = last ns1) \/ (ns2 <> [] /\ c = head ns2) \/
  (inorder t = [] /\ c = curr).

Lemma slot_at_left h l n r rs1 rn rs2 low ms1 ms2 qs1 qs2 :
  slot_at h l rs1 low ms1 ms2 qs1 qs2 ->
  h !! n = Some rn -> holds h (inorder r) rs2 -> above low rn ->
  Forall (before rn) rs2 -> wf_range rn ->
  slot_at h (RBNode l n r) (rs1 ++ rn :: rs2) low ms1 (ms2 ++ n :: inorder r)
    qs1 (qs2 ++ rn :: rs2).
Proof.
  intros [Hn Hr H1 H2 Hb Ha] Hrn Hh Hlow Hbr [Hw _]. unfold above in *.
  split; simpl; auto.
  - by rewrite Hn, <- app_assoc.
  - by rewrite Hr, <- app_assoc.
  - apply holds_app; [done|]. by constructor.
  - apply Forall_app; split; [done|]. constructor; [done|].
    eapply Forall_before_above; [done|]. lia.
Qed.

Lemma slot_at_right h l n r rs1 rn rs2 low ms1 ms2 qs1 qs2 :
  slot_at h r rs2 low ms1 ms2 qs1 qs2 ->
  h !! n = Some rn -> holds h (inorder l) rs1 -> below low rn ->
  Forall (fun x => before x rn) rs1 -> wf_range rn ->
  slot_at h (RBNode l n r) (rs1 ++ rn :: rs2) low (inorder l ++ n :: ms1) ms2
    (rs1 ++ rn :: qs1) qs2.
Proof.
  intros [Hn Hr H1 H2 Hb Ha] Hrn Hh Hlow Hbr [Hw _]. unfold below in *.
  split; simpl; auto.
  - by rewrite Hn, <- app_assoc.
  - by rewrite Hr, <- app_assoc.
  - apply holds_app; [done|]. by constructor.
  - apply Forall_app; split; [|by constructor].
    eapply Forall_before_below; [done|]. lia.
Qed.

Lemma last_visited_left t l n r ms1 ms2 curr c :
  last_visited l ms1 ms2 (Some n) c -> inorder l = ms1 ++ ms2 ->
  t = RBNode l n r -> last_visited t ms1 (ms2 ++ n :: inorder r) curr c.
Proof.
  intros [[? ->]|[[? ->]|[Hl ->]]] Hs ->; unfold last_visited.
  - auto.
  - right; left. split; [by destruct ms2|]. by destruct ms2.
  - rewrite Hl in Hs. symmetry in Hs. apply app_eq_nil in Hs as [-> ->].
    right; left. done.
Qed.

Lemma last_visited_right t l n r ms1 ms2 curr c :
  last_visited r ms1 ms2 (Some n) c -> inorder r = ms1 ++ ms2 ->
  t = RBNode l n r -> last_visited t (inorder l ++ n :: ms1) ms2 curr c.
Proof.
  intros [[? ->]|[[? ->]|[Hl ->]]] Hs ->; unfold last_visited.
  - left. split; [by destruct (inorder l)|]. rewrite last_app_cons.
    destruct ms1; [done|]. by rewrite last_cons_cons.
  - auto.
  - rewrite Hl in Hs. symmetry in Hs. apply app_eq_nil in Hs as [-> ->].
    left. split; [by destruct (inorder l)|]. by rewrite last_app_cons.
Qed.

(** The descent finds the range that covers the key, or ends at a neighbour of
    the slot the key falls into. *)
Lemma find_range_loop_spec h t rs low curr :
  tree_ok h t rs ->
  (exists n rn, find_range_loop h t low curr = Some (1, Some n) /\
     n ∈ inorder t /\ h !! n = Some rn /\ rn ∈ rs /\ in_range low rn) \/
  (exists c ns1 ns2 rs1 rs2, find_range_loop h t low curr = Some (0, c) /\
     slot_at h t rs low ns1 ns2 rs1 rs2 /\ last_visited t ns1 ns2 curr c).
Proof.
  revert rs curr. induction t as [|l IHl n r IHr]; intros rs curr Hok.
  - right. destruct Hok as [Hh _ _]. simpl in *. inversion Hh; subst.
    exists curr, [], [], [], []. unfold last_visited.
    split_and!; [done | split; auto; constructor | auto].
  - apply tree_ok_node_inv in Hok
      as (rs1 & rn & rs2 & -> & Hn & Hw & Hl & Hr & Hb1 & Hb2).
    simpl. rewrite Hn. simpl.
    destruct (compare_cases rn low Hw) as [[-> Hc]|[[-> Hc]|[-> Hc]]]; simpl.
    + destruct (IHl _ (Some n) Hl) as
        [(m & rm & E & ? & ? & ? & ?)|(c & ms1 & ms2 & qs1 & qs2 & E & Hs & Hv)].
      * left. exists m, rm. rewrite E. set_solver.
      * right. exists c, ms1, (ms2 ++ n :: inorder r), qs1, (qs2 ++ rn :: rs2).
        split_and!; [done | eapply slot_at_left; eauto; apply Hr |].
        eapply last_visited_left; eauto. apply Hs.
    + destruct (IHr _ (Some n) Hr) as
        [(m & rm & E & ? & ? & ? & ?)|(c & ms1 & ms2 & qs1 & qs2 & E & Hs & Hv)].
      * left. exists m, rm. rewrite E. set_solver.
      * right. exists c, (inorder l ++ n :: ms1), ms2, (rs1 ++ rn :: qs1), qs2.
        split_and!; [done | eapply slot_at_right; eauto; apply Hl |].
        eapply last_visited_right; eauto. apply Hs.
    + left. exists n, rn. set_solver.
Qed.

(** Linking a node puts it into the slot its key falls into. *)
Lemma link_range_node_spec h t rs low n :
  tree_ok h t rs ->
  (link_range_node h t low n = Some (inl (- EINVAL)) /\ in_ranges low rs) \/
  (exists t' ns1 ns2 rs1 rs2, link_range_node h t low n = Some (inr t') /\
     slot_at h t rs low ns1 ns2 rs1 rs2 /\ inorder t' = ns1 ++ n :: ns2).
Proof.
  revert rs. induction t as [|l IHl c r IHr]; intros rs Hok.
  - right. destruct Hok as [Hh _ _]. simpl in *. inversion Hh; subst.
    exists (RBNode RB_ROOT n RB_ROOT), [], [], [], [].
    split_and!; [done | split; auto; constructor | auto].
  - apply tree_ok_node_inv in Hok
      as (rs1 & rn & rs2 & -> & Hn & Hw & Hl & Hr & Hb1 & Hb2).
    simpl. rewrite Hn. simpl. unfold in_ranges.
    destruct (compare_cases rn low Hw) as [[-> Hc]|[[-> Hc]|[-> Hc]]]; simpl.
    + destruct (IHl _ Hl) as [[E ?]|(t' & ms1 & ms2 & qs1 & qs2 & E & Hs & Hi)].
      * left. rewrite E. split; [done|]. apply Exists_app. auto.
      * right. exists (RBNode t' c r), ms1, (ms2 ++ c :: inorder r), qs1, (qs2 ++ rn :: rs2).
        rewrite E. split_and!; [done | eapply slot_at_left; eauto; apply Hr |].
        simpl. by rewrite Hi, <- app_assoc.
    + destruct (IHr _ Hr) as [[E ?]|(t' & ms1 & ms2 & qs1 & qs2 & E & Hs & Hi)].
      * left. rewrite E. split; [done|]. apply Exists_app. auto.
      * right. exists (RBNode l c t'), (inorder l ++ c :: ms1), ms2, (rs1 ++ rn :: qs1), qs2.
        rewrite E. split_and!; [done | eapply slot_at_right; eauto; apply Hl |].
        simpl. by rewrite Hi, <- app_assoc.
    + left. split; [done|]. apply Exists_app. auto.
Qed.

(** Two slots for the same key are the same. *)
Lemma slot_at_disjoint_low h t rs low ns1 ns2 rs1 rs2 :
  slot_at h t rs low ns1 ns2 rs1 rs2 -> ~ in_ranges low rs.
Proof.
  intros [_ -> _ _ Hb Ha] Hin. apply Exists_app in Hin.
  rewrite !Exists_exists, !Forall_forall in *. unfold in_range, below, above in *.
  destruct Hin as [(x & Hx & ?)|(x & Hx & ?)]; [specialize (Hb _ Hx)|specialize (Ha _ Hx)]; lia.
Qed.

Lemma holds_length h ns rs : holds h ns rs -> length ns = length rs.
Proof. apply Forall2_length. Qed.

Lemma below_above_split low (a1 a2 b1 b2 : list nova_range_node) :
  a1 ++ a2 = b1 ++ b2 -> Forall wf_range (a1 ++ a2) ->
  Forall (below low) a1 -> Forall (above low) a2 ->
  Forall (below low) b1 -> Forall (above low) b2 -> a1 = b1.
Proof.
  revert b1. induction a1 as [|x a1 IH]; intros [|y b1] E Hw Ha1 Ha2 Hb1 Hb2; simpl in *; auto.
  - subst. inversion Ha2; inversion Hb1; inversion Hw; subst.
    unfold below, above, wf_range in *. lia.
  - subst. inversion Ha1; inversion Hb2; inversion Hw; subst.
    unfold below, above, wf_range in *. lia.
  - simplify_eq. f_equal. inversion Ha1; inversion Hb1; inversion Hw; subst.
    apply IH; auto.
Qed.

Lemma slot_at_unique h t rs low ns1 ns2 rs1 rs2 ms1 ms2 qs1 qs2 :
  Forall wf_range rs ->
  slot_at h t rs low ns1 ns2 rs1 rs2 -> slot_at h t rs low ms1 ms2 qs1 qs2 ->
  ns1 = ms1 /\ ns2 = ms2 /\ rs1 = qs1 /\ rs2 = qs2.
Proof.
  intros Hw [N1 R1 H1 H2 B1 A1] [N2 R2 H3 H4 B2 A2]. subst rs.
  assert (rs1 = qs1) as -> by eauto using below_above_split.
  apply app_inv_head in R2 as ->.
  assert (length ns1 = length ms1) as Hlen
    by (rewrite (holds_length _ _ _ H1), (holds_length _ _ _ H3); done).
  rewrite N1 in N2. apply app_inj_1 in N2 as [-> ->]; auto.
Qed.

(** ** Finding a free slot and inserting into it *)

Section specs.
Context `{RbTreeLaws}.

(** A range that is disjoint from every node gets its two neighbours. *)
Lemma nova_find_free_slot_ok h t rs low high :
  tree_ok h t rs -> low <= high ->
  Forall (fun r => range_high r < low \/ high < range_low r) rs ->
  exists ns1 ns2 rs1 rs2,
    nova_find_free_slot h t low high = Some (0, (last ns1, head ns2)) /\
    slot_at h t rs low ns1 ns2 rs1 rs2 /\ Forall (above high) rs2.
Proof.
  intros Hok Hle Hdis.
  pose proof (tree_ok_NoDup _ _ _ Hok) as Hnd.
  unfold nova_find_free_slot, nova_find_range_node.
  destruct (find_range_loop_spec h t rs low None Hok) as
    [(n & rn & E & ? & ? & Hin & Hr)|(c & ns1 & ns2 & rs1 & rs2 & E & Hs & Hv)].
  - rewrite Forall_forall in Hdis. specialize (Hdis _ Hin).
    unfold in_range in Hr. lia.
  - rewrite E. simpl. exists ns1, ns2, rs1, rs2.
    destruct Hs as [Hn Hr H1 H2 Hb Ha]. subst rs.
    assert (Forall (above high) rs2) as Hah.
    { apply Forall_app in Hdis as [_ Hd2].
      rewrite Forall_forall in *. intros r Hin.
      specialize (Ha _ Hin). specialize (Hd2 _ Hin). simpl in *.
      destruct Hok as [_ _ Hw]. apply Forall_app in Hw as [_ Hw].
      rewrite Forall_forall in Hw. specialize (Hw _ Hin).
      unfold above, wf_range in *. lia. }
    split; [|split; [by split|done]].
    destruct Hv as [[Hne ->]|[[Hne ->]|[Hnil ->]]].
    + destruct (exists_last Hne) as (m1 & n & ->). rewrite last_snoc.
      apply holds_app_inv in H1 as (q1 & q2 & -> & Hq1 & Hq2).
      apply holds_cons_inv in Hq2 as (rn & q3 & -> & Hrn & _).
      rewrite Hrn. simpl. apply Forall_app in Hb as [_ Hb].
      inversion Hb as [|? ? Hbn _]; subst. unfold below in Hbn.
      rewrite (proj2 (Z.ltb_lt _ _) Hbn).
      rewrite <- app_assoc in Hn. simpl in Hn.
      by rewrite (rb_next_inorder t m1 n ns2).
    + destruct ns2 as [|n ms2]; [done|]. simpl.
      apply holds_cons_inv in H2 as (rn & q3 & -> & Hrn & _).
      rewrite Hrn. simpl. inversion Ha as [|? ? Han _]; subst.
      inversion Hah as [|? ? Hhn _]; subst.
      destruct Hok as [_ _ Hw]. apply Forall_app in Hw as [_ Hw].
      inversion Hw as [|? ? Hwn _]; subst. unfold above, wf_range in *.
      rewrite (proj2 (Z.ltb_ge _ _)) by lia.
      rewrite (proj2 (Z.ltb_lt _ _)) by lia.
      by rewrite (rb_prev_inorder t ns1 n ms2).
    + rewrite Hnil in Hn. symmetry in Hn. by apply app_eq_nil in Hn as [-> ->].
Qed.

(** A range whose first element is covered already is refused. *)
Lemma nova_find_free_slot_covered h t rs low high :
  tree_ok h t rs -> in_ranges low rs ->
  nova_find_free_slot h t low high = Some (- EINVAL, (None, None)).
Proof.
  intros Hok Hin. unfold nova_find_free_slot, nova_find_range_node.
  destruct (find_range_loop_spec h t rs low None Hok) as
    [(n & rn & -> & _)|(c & ns1 & ns2 & rs1 & rs2 & E & Hs & Hv)]; [done|].
  by apply slot_at_disjoint_low in Hs.
Qed.

(** Inserting a fresh node for a range that is apart from all others. *)
Lemma nova_insert_range_node_ok h t rs n rn ns1 ns2 rs1 rs2 :
  tree_ok h t rs -> h !! n = Some rn ->
  slot_at h t rs (range_low rn) ns1 ns2 rs1 rs2 ->
  exists t', nova_insert_range_node h t n = Some (0, t') /\
    inorder t' = ns1 ++ n :: ns2.
Proof.
  intros Hok Hn Hs. unfold nova_insert_range_node. rewrite Hn. simpl.
  destruct (link_range_node_spec h t rs (range_low rn) n Hok) as
    [[E ?]|(t' & ms1 & ms2 & qs1 & qs2 & E & Hs' & Hi)].
  - by apply slot_at_disjoint_low in Hs.
  - rewrite E. simpl. exists (rb_insert_color n t'). split; [done|].
    rewrite rb_insert_color_inorder, Hi.
    destruct Hok as [_ _ Hw].
    by destruct (slot_at_unique _ _ _ _ _ _ _ _ _ _ _ _ Hw Hs Hs') as (-> & -> & _).
Qed.
End specs.
