(* ===== verification/RbList.v ===== *)
(** * A reference instance of the kernel interface

    The development is proved for any red-black tree and slab that keep the laws
    of [RbTreeLaws].  This file gives the simplest such implementation: a tree is
    rebuilt from its sorted list of nodes, neighbours are looked up in that list,
    and the slab returns the pointer after the largest live one.  It shows that
    the laws can be met, and it makes every operation of the development
    executable on concrete states. *)

From S2P Require Import Prelude RangeTree.

Module RbList.

(** A tree that is a chain of right children. *)
Fixpoint chain (ns : list ptr) : rb_tree :=
  match ns with
  | [] => RB_ROOT
  | n :: ns => RBNode RB_ROOT n (chain ns)
  end.

Fixpoint remove_node (n : ptr) (ns : list ptr) : list ptr :=
  match ns with
  | [] => []
  | m :: ns => if decide (m = n) then ns else m :: remove_node n ns
  end.

Fixpoint node_after (n : ptr) (ns : list ptr) : option ptr :=
  match ns with
  | [] => None
  | m :: ns => if decide (m = n) then head ns else node_after n ns
  end.

Fixpoint node_before (n : ptr) (prev : option ptr) (ns : list ptr) : option ptr :=
  match ns with
  | [] => None
  | m :: ns => if decide (m = n) then prev else node_before n (Some m) ns
  end.

Definition last_live (h : node_heap) : ptr :=
  foldr (fun e acc => Pos.max (fst e) acc) 1%positive (map_to_list h).

#[export] Instance rb_list : RbTree := {
  rb_insert_color _ t := t;
  rb_erase n t := chain (remove_node n (inorder t));
  rb_next t n := node_after n (inorder t);
  rb_prev t n := node_before n None (inorder t);
  rb_first t := head (inorder t);
  kmem_cache_alloc h := Some (Pos.succ (last_live h));
}.

Lemma inorder_chain ns : inorder (chain ns) = ns.
Proof. induction ns; simpl; congruence. Qed.

Lemma remove_node_app l1 n l2 : n ∉ l1 -> remove_node n (l1 ++ n :: l2) = l1 ++ l2.
Proof.
  induction l1 as [|m l1 IH]; simpl; intros Hn; case_decide; try done; [set_solver|].
  rewrite IH; set_solver.
Qed.

Lemma node_after_app l1 n l2 : n ∉ l1 -> node_after n (l1 ++ n :: l2) = head l2.
Proof.
  induction l1 as [|m l1 IH]; simpl; intros Hn; case_decide; try done; [set_solver|].
  apply IH. set_solver.
Qed.

Lemma node_before_app l1 n l2 : forall prev, n ∉ l1 ->
  node_before n prev (l1 ++ n :: l2) = match last l1 with Some m => Some m | None => prev end.
Proof.
  induction l1 as [|m l1 IH]; intros prev Hn; simpl; case_decide; try done; [set_solver|].
  rewrite IH by set_solver. destruct l1 as [|k l1]; [done|].
  rewrite last_cons_cons. by destruct (last (k :: l1)) eqn:E; [|by apply last_None in E].
Qed.

Lemma last_live_bound h n r : h !! n = Some r -> (n <= last_live h)%positive.
Proof.
  intros Hn. apply elem_of_map_to_list in Hn. unfold last_live.
  induction (map_to_list h) as [|[m s] l IH]; simpl; [by apply not_elem_of_nil in Hn|].
  apply elem_of_cons in Hn as [[= -> ->]|Hn]; [lia|]. specialize (IH Hn). lia.
Qed.

Lemma NoDup_before (l1 l2 : list ptr) n l : NoDup l -> l = l1 ++ n :: l2 -> n ∉ l1.
Proof. intros Hnd ->. apply NoDup_app in Hnd as (_ & Hnd & _). set_solver. Qed.

#[export] Instance rb_list_laws : RbTreeLaws.
Proof.
  split; simpl.
  - done.
  - intros t l1 n l2 Hnd E. rewrite inorder_chain, E. eauto using remove_node_app, NoDup_before.
  - intros t l1 n l2 Hnd E. rewrite E. eauto using node_after_app, NoDup_before.
  - intros t l1 n l2 Hnd E. rewrite E, node_before_app by eauto using NoDup_before.
    by destruct (last l1).
  - done.
  - intros h p [= <-]. destruct (h !! _) eqn:E; [|done]. apply last_live_bound in E. lia.
Qed.

(** This slab never runs out. *)
Lemma rb_list_alloc h : kmem_cache_alloc h <> None.
Proof. done. Qed.

End RbList.
