(* ===== verification/State.v ===== *)
(** * File-system state (nova.h)

    The in-memory structures the components share: [struct free_list],
    [struct inode_map] and [struct nova_sb_info], with the slab cache of range
    nodes and the persistent memory the super block gives access to.  Of the locks only
    the mutexes of the inode mapping tables are kept, since some paths return with
    one held; wait queues and the fields no modelled operation reads are left out. *)

From S2P Require Import Prelude Layout RangeTree.

(** [struct free_list] *)
Record free_list := FreeList {
  block_free_tree : rb_tree;
  first_node : option ptr;
  block_start : Z;
  block_end : Z;
  num_free_blocks : Z;
  num_blocknode : Z;
  p_node : option ptr;  (* the allocation cursor of Themis *)
  alloc_log_count : Z;
  alloc_data_count : Z;
  free_log_count : Z;
  free_data_count : Z;
  alloc_log_pages : Z;
  alloc_data_pages : Z;
  freed_log_pages : Z;
  freed_data_pages : Z;
}.

Definition with_block_free_tree (v : rb_tree) (r : free_list) : free_list :=
  FreeList v (first_node r) (block_start r) (block_end r) (num_free_blocks
    r) (num_blocknode r) (p_node r) (alloc_log_count r) (alloc_data_count r)
    (free_log_count r) (free_data_count r) (alloc_log_pages r)
    (alloc_data_pages r) (freed_log_pages r) (freed_data_pages r).
Definition with_first_node (v : option ptr) (r : free_list) : free_list :=
  FreeList (block_free_tree r) v (block_start r) (block_end r)
    (num_free_blocks r) (num_blocknode r) (p_node r) (alloc_log_count r)
    (alloc_data_count r) (free_log_count r) (free_data_count r)
    (alloc_log_pages r) (alloc_data_pages r) (freed_log_pages r)
    (freed_data_pages r).
Definition with_block_start (v : Z) (r : free_list) : free_list :=
  FreeList (block_free_tree r) (first_node r) v (block_end r)
    (num_free_blocks r) (num_blocknode r) (p_node r) (alloc_log_count r)
    (alloc_data_count r) (free_log_count r) (free_data_count r)
    (alloc_log_pages r) (alloc_data_pages r) (freed_log_pages r)
    (freed_data_pages r).
Definition with_block_end (v : Z) (r : free_list) : free_list :=
  FreeList (block_free_tree r) (first_node r) (block_start r) v
    (num_free_blocks r) (num_blocknode r) (p_node r) (alloc_log_count r)
    (alloc_data_count r) (free_log_count r) (free_data_count r)
    (alloc_log_pages r) (alloc_data_pages r) (freed_log_pages r)
    (freed_data_pages r).
Definition with_num_free_blocks (v : Z) (r : free_list) : free_list :=
  FreeList (block_free_tree r) (first_node r) (block_start r) (block_end r)
    v (num_blocknode r) (p_node r) (alloc_log_count r) (alloc_data_count r)
    (free_log_count r) (free_data_count r) (alloc_log_pages r)
    (alloc_data_pages r) (freed_log_pages r) (freed_data_pages r).
Definition with_num_blocknode (v : Z) (r : free_list) : free_list :=
  FreeList (block_free_tree r) (first_node r) (block_start r) (block_end r)
    (num_free_blocks r) v (p_node r) (alloc_log_count r) (alloc_data_count
    r) (free_log_count r) (free_data_count r) (alloc_log_pages r)
    (alloc_data_pages r) (freed_log_pages r) (freed_data_pages r).
Definition with_p_node (v : option ptr) (r : free_list) : free_list :=
  FreeList (block_free_tree r) (first_node r) (block_start r) (block_end r)
    (num_free_blocks r) (num_blocknode r) v (alloc_log_count r)
    (alloc_data_count r) (free_log_count r) (free_data_count r)
    (alloc_log_pages r) (alloc_data_pages r) (freed_log_pages r)
    (freed_data_pages r).
Definition with_alloc_log_count (v : Z) (r : free_list) : free_list :=
  FreeList (block_free_tree r) (first_node r) (block_start r) (block_end r)
    (num_free_blocks r) (num_blocknode r) (p_node r) v (alloc_data_count r)
    (free_log_count r) (free_data_count r) (alloc_log_pages r)
    (alloc_data_pages r) (freed_log_pages r) (freed_data_pages r).
Definition with_alloc_data_count (v : Z) (r : free_list) : free_list :=
  FreeList (block_free_tree r) (first_node r) (block_start r) (block_end r)
    (num_free_blocks r) (num_blocknode r) (p_node r) (alloc_log_count r) v
    (free_log_count r) (free_data_count r) (alloc_log_pages r)
    (alloc_data_pages r) (freed_log_pages r) (freed_data_pages r).
Definition with_free_log_count (v : Z) (r : free_list) : free_list :=
  FreeList (block_free_tree r) (first_node r) (block_start r) (block_end r)
    (num_free_blocks r) (num_blocknode r) (p_node r) (alloc_log_count r)
    (alloc_data_count r) v (free_data_count r) (alloc_log_pages r)
    (alloc_data_pages r) (freed_log_pages r) (freed_data_pages r).
Definition with_free_data_count (v : Z) (r : free_list) : free_list :=
  FreeList (block_free_tree r) (first_node r) (block_start r) (block_end r)
    (num_free_blocks r) (num_blocknode r) (p_node r) (alloc_log_count r)
    (alloc_data_count r) (free_log_count r) v (alloc_log_pages r)
    (alloc_data_pages r) (freed_log_pages r) (freed_data_pages r).
Definition with_alloc_log_pages (v : Z) (r : free_list) : free_list :=
  FreeList (block_free_tree r) (first_node r) (block_start r) (block_end r)
    (num_free_blocks r) (num_blocknode r) (p_node r) (alloc_log_count r)
    (alloc_data_count r) (free_log_count r) (free_data_count r) v
    (alloc_data_pages r) (freed_log_pages r) (freed_data_pages r).
Definition with_alloc_data_pages (v : Z) (r : free_list) : free_list :=
  FreeList (block_free_tree r) (first_node r) (block_start r) (block_end r)
    (num_free_blocks r) (num_blocknode r) (p_node r) (alloc_log_count r)
    (alloc_data_count r) (free_log_count r) (free_data_count r)
    (alloc_log_pages r) v (freed_log_pages r) (freed_data_pages r).
Definition with_freed_log_pages (v : Z) (r : free_list) : free_list :=
  FreeList (block_free_tree r) (first_node r) (block_start r) (block_end r)
    (num_free_blocks r) (num_blocknode r) (p_node r) (alloc_log_count r)
    (alloc_data_count r) (free_log_count r) (free_data_count r)
    (alloc_log_pages r) (alloc_data_pages r) v (freed_data_pages r).
Definition with_freed_data_pages (v : Z) (r : free_list) : free_list :=
  FreeList (block_free_tree r) (first_node r) (block_start r) (block_end r)
    (num_free_blocks r) (num_blocknode r) (p_node r) (alloc_log_count r)
    (alloc_data_count r) (free_log_count r) (free_data_count r)
    (alloc_log_pages r) (alloc_data_pages r) (freed_log_pages r) v.

(** [struct inode_map] *)
Record inode_map := InodeMap {
  inode_inuse_tree : rb_tree;
  num_range_node_inode : Z;
  first_inode_range : option ptr;
  allocated : Z;
  freed : Z;
}.

Definition with_inode_inuse_tree (v : rb_tree) (r : inode_map) : inode_map :=
  InodeMap v (num_range_node_inode r) (first_inode_range r) (allocated r)
    (freed r).
Definition with_num_range_node_inode (v : Z) (r : inode_map) : inode_map :=
  InodeMap (inode_inuse_tree r) v (first_inode_range r) (allocated r) (freed
    r).
Definition with_first_inode_range (v : option ptr) (r : inode_map) : inode_map :=
  InodeMap (inode_inuse_tree r) (num_range_node_inode r) v (allocated r)
    (freed r).
Definition with_allocated (v : Z) (r : inode_map) : inode_map :=
  InodeMap (inode_inuse_tree r) (num_range_node_inode r) (first_inode_range
    r) v (freed r).
Definition with_freed (v : Z) (r : inode_map) : inode_map :=
  InodeMap (inode_inuse_tree r) (num_range_node_inode r) (first_inode_range
    r) (allocated r) v.

(** [struct nova_sb_info] *)
Record nova_sb_info := SbInfo {
  virt_addr : Z;
  num_blocks : Z;
  s_inodes_used_count : Z;
  reserved_blocks : Z;
  cpus : Z;
  inode_maps : list inode_map;
  map_id : Z;
  free_lists : list free_list;
  inode_page_mapping_tables : list (list Z);
  inode_page_mapping_table_locks : list bool;  (* held? *)
  per_list_blocks : Z;
  shared_free_list : free_list;
  range_nodes : node_heap;  (* the slab cache of range nodes *)
  nvm : memory;  (* the mapped persistent memory *)
}.

Definition with_num_blocks (v : Z) (r : nova_sb_info) : nova_sb_info :=
  SbInfo (virt_addr r) v (s_inodes_used_count r) (reserved_blocks r) (cpus
    r) (inode_maps r) (map_id r) (free_lists r) (inode_page_mapping_tables
    r) (inode_page_mapping_table_locks r) (per_list_blocks r)
    (shared_free_list r) (range_nodes r) (nvm r).
Definition with_s_inodes_used_count (v : Z) (r : nova_sb_info) : nova_sb_info :=
  SbInfo (virt_addr r) (num_blocks r) v (reserved_blocks r) (cpus r)
    (inode_maps r) (map_id r) (free_lists r) (inode_page_mapping_tables r)
    (inode_page_mapping_table_locks r) (per_list_blocks r) (shared_free_list
    r) (range_nodes r) (nvm r).
Definition with_inode_maps (v : list inode_map) (r : nova_sb_info) : nova_sb_info :=
  SbInfo (virt_addr r) (num_blocks r) (s_inodes_used_count r)
    (reserved_blocks r) (cpus r) v (map_id r) (free_lists r)
    (inode_page_mapping_tables r) (inode_page_mapping_table_locks r)
    (per_list_blocks r) (shared_free_list r) (range_nodes r) (nvm r).
Definition with_map_id (v : Z) (r : nova_sb_info) : nova_sb_info :=
  SbInfo (virt_addr r) (num_blocks r) (s_inodes_used_count r)
    (reserved_blocks r) (cpus r) (inode_maps r) v (free_lists r)
    (inode_page_mapping_tables r) (inode_page_mapping_table_locks r)
    (per_list_blocks r) (shared_free_list r) (range_nodes r) (nvm r).
Definition with_free_lists (v : list free_list) (r : nova_sb_info) : nova_sb_info :=
  SbInfo (virt_addr r) (num_blocks r) (s_inodes_used_count r)
    (reserved_blocks r) (cpus r) (inode_maps r) (map_id r) v
    (inode_page_mapping_tables r) (inode_page_mapping_table_locks r)
    (per_list_blocks r) (shared_free_list r) (range_nodes r) (nvm r).
Definition with_inode_page_mapping_tables (v : list (list Z)) (r : nova_sb_info) : nova_sb_info :=
  SbInfo (virt_addr r) (num_blocks r) (s_inodes_used_count r)
    (reserved_blocks r) (cpus r) (inode_maps r) (map_id r) (free_lists r) v
    (inode_page_mapping_table_locks r) (per_list_blocks r) (shared_free_list
    r) (range_nodes r) (nvm r).
Definition with_inode_page_mapping_table_locks (v : list bool) (r : nova_sb_info) : nova_sb_info :=
  SbInfo (virt_addr r) (num_blocks r) (s_inodes_used_count r)
    (reserved_blocks r) (cpus r) (inode_maps r) (map_id r) (free_lists r)
    (inode_page_mapping_tables r) v (per_list_blocks r) (shared_free_list r)
    (range_nodes r) (nvm r).
Definition with_per_list_blocks (v : Z) (r : nova_sb_info) : nova_sb_info :=
  SbInfo (virt_addr r) (num_blocks r) (s_inodes_used_count r)
    (reserved_blocks r) (cpus r) (inode_maps r) (map_id r) (free_lists r)
    (inode_page_mapping_tables r) (inode_page_mapping_table_locks r) v
    (shared_free_list r) (range_nodes r) (nvm r).
Definition with_shared_free_list (v : free_list) (r : nova_sb_info) : nova_sb_info :=
  SbInfo (virt_addr r) (num_blocks r) (s_inodes_used_count r)
    (reserved_blocks r) (cpus r) (inode_maps r) (map_id r) (free_lists r)
    (inode_page_mapping_tables r) (inode_page_mapping_table_locks r)
    (per_list_blocks r) v (range_nodes r) (nvm r).
Definition with_range_nodes (v : node_heap) (r : nova_sb_info) : nova_sb_info :=
  SbInfo (virt_addr r) (num_blocks r) (s_inodes_used_count r)
    (reserved_blocks r) (cpus r) (inode_maps r) (map_id r) (free_lists r)
    (inode_page_mapping_tables r) (inode_page_mapping_table_locks r)
    (per_list_blocks r) (shared_free_list r) v (nvm r).
Definition with_nvm (v : memory) (r : nova_sb_info) : nova_sb_info :=
  SbInfo (virt_addr r) (num_blocks r) (s_inodes_used_count r)
    (reserved_blocks r) (cpus r) (inode_maps r) (map_id r) (free_lists r)
    (inode_page_mapping_tables r) (inode_page_mapping_table_locks r)
    (per_list_blocks r) (shared_free_list r) (range_nodes r) v.

(** A zeroed [struct free_list], as [kzalloc] leaves it. *)
Definition empty_free_list : free_list :=
  FreeList RB_ROOT None 0 0 0 0 None 0 0 0 0 0 0 0 0.

(** A zeroed [struct inode_map]. *)
Definition empty_inode_map : inode_map := InodeMap RB_ROOT 0 None 0 0.

(** [nova_get_free_list]: the list of a CPU, or the shared list; a negative
    index or one past the array is an invalid access. *)
Definition nova_get_free_list (sbi : nova_sb_info) (cpu : Z) : option free_list :=
  if cpu <? cpus sbi
  then (if cpu <? 0 then None else free_lists sbi !! Z.to_nat cpu)
  else Some (shared_free_list sbi).

(** Writing back through the pointer [nova_get_free_list] returned. *)
Definition put_free_list (sbi : nova_sb_info) (cpu : Z) (fl : free_list) : nova_sb_info :=
  if cpu <? cpus sbi
  then with_free_lists (<[Z.to_nat cpu := fl]> (free_lists sbi)) sbi
  else with_shared_free_list fl sbi.
