(* ===== verification/Balloc.v ===== *)
(** * Block allocator (balloc.c)

    Per-CPU lists of free block ranges and the shared list.  Each operation
    takes the super-block information and returns the code's result with the
    new state; [None] is an invalid memory access (a null or dangling pointer,
    an index out of bounds, a division by zero), which the theorems exclude.

    The functions on one list ([free_in_list], [nova_alloc_blocks_in_free_list])
    take the slab heap and the list; the functions of the file system select the
    list and write it back. *)

From S2P Require Import Prelude Layout RangeTree State.

(** ** Freeing *)

(** [prev && block_low == prev->range_high + 1] *)
Definition joins_prev (h : node_heap) (prev : option ptr) (block_low : Z) : option bool :=
  match prev with
  | None => Some false
  | Some p => rp ← h !! p; Some (block_low =? u64 (range_high rp + 1))
  end.

(** [next && block_high + 1 == next->range_low] *)
Definition joins_next (h : node_heap) (next : option ptr) (block_high : Z) : option bool :=
  match next with
  | None => Some false
  | Some n => rn ← h !! n; Some (u64 (block_high + 1) =? range_low rn)
  end.

(** The label [block_found]: the counters after a successful free. *)
Definition free_account (fl : free_list) (nblocks log_page : Z) : free_list :=
  let fl := with_num_free_blocks (u64 (num_free_blocks fl + nblocks)) fl in
  if negb (log_page =? 0) then
    with_freed_log_pages (u64 (freed_log_pages fl + nblocks))
      (with_free_log_count (u64 (free_log_count fl + 1)) fl)
  else
    with_freed_data_pages (u64 (freed_data_pages fl + nblocks))
      (with_free_data_count (u64 (free_data_count fl + 1)) fl).

(** [if (!prev) free_list->first_node = curr_node] *)
Definition first_if_none (prev : option ptr) (curr_node : ptr) (fl : free_list) : free_list :=
  match prev with
  | None => with_first_node (Some curr_node) fl
  | Some _ => fl
  end.

Section operations.
Context `{RbTree}.

(** The cursor moves off a node that is about to be merged away. *)
Definition cursor_off (fl : free_list) (next : ptr) : free_list :=
  if decide (p_node fl = Some next) then
    match rb_next (block_free_tree fl) next with
    | Some p_next => with_p_node (Some p_next) fl
    | None => with_p_node (first_node fl) fl
    end
  else fl.

(** The part of [nova_free_blocks] under the list's lock.  [curr_node] is the
    pre-allocated node; it is released again unless it entered the tree. *)
Definition free_in_list (h : node_heap) (fl : free_list) (curr_node : ptr)
    (block_low block_high nblocks log_page : Z) : option (Z * node_heap * free_list) :=
  let tree := block_free_tree fl in
  slot ← nova_find_free_slot h tree block_low block_high;
  let '(ret, (prev, next)) := (slot : Z * (option ptr * option ptr)) in
  if negb (ret =? 0) then Some (ret, nova_free_range_node curr_node h, fl)
  else
    jp ← joins_prev h prev block_low;
    jn ← joins_next h next block_high;
    match prev, next, jp, jn with
    | Some p, Some n, true, true =>
      (* fits the hole *)
      rn ← h !! n;
      let fl := cursor_off fl n in
      let fl := with_num_blocknode (u64 (num_blocknode fl - 1))
                  (with_block_free_tree (rb_erase n tree) fl) in
      let h := set_range_high p (range_high rn) h in
      let h := nova_free_range_node n h in
      Some (0, nova_free_range_node curr_node h, free_account fl nblocks log_page)
    | Some p, _, true, _ =>
      (* aligns left *)
      rp ← h !! p;
      let h := set_range_high p (u64 (range_high rp + nblocks)) h in
      Some (0, nova_free_range_node curr_node h, free_account fl nblocks log_page)
    | _, Some n, _, true =>
      (* aligns right *)
      rn ← h !! n;
      let h := set_range_low n (u64 (range_low rn - nblocks)) h in
      Some (0, nova_free_range_node curr_node h, free_account fl nblocks log_page)
    | _, _, _, _ =>
      (* aligns somewhere in the middle *)
      let h := <[curr_node := RangeNode block_low block_high]> h in
      ins ← nova_insert_blocktree h tree curr_node;
      let '(ret, tree') := (ins : Z * rb_tree) in
      if negb (ret =? 0) then Some (ret, nova_free_range_node curr_node h, fl)
      else
        let fl := with_block_free_tree tree' fl in
        let fl := first_if_none prev curr_node fl in
        let fl := with_num_blocknode (u64 (num_blocknode fl + 1)) fl in
        Some (0, h, free_account fl nblocks log_page)
    end.

(** What the slab leaves in a new object. *)
Context (slab_garbage : nova_range_node).

Definition nova_free_blocks (sbi : nova_sb_info) (blocknr num btype log_page : Z) :
    option (Z * nova_sb_info) :=
  if num <=? 0 then Some (- EINVAL, sbi)
  else if per_list_blocks sbi =? 0 then None
  else
    let cpuid := i32 (blocknr / per_list_blocks sbi) in
    let cpuid := if cpus sbi <=? cpuid then SHARED_CPU else cpuid in
    match nova_alloc_range_node (range_nodes sbi) slab_garbage with
    | None => Some (- ENOMEM, sbi)
    | Some (curr_node, h) =>
      fl ← nova_get_free_list sbi cpuid;
      let nblocks := u64 (nova_get_numblocks btype * num) in
      let block_low := blocknr in
      let block_high := u64 (blocknr + nblocks - 1) in
      res ← free_in_list h fl curr_node block_low block_high nblocks log_page;
      let '(ret, h, fl) := (res : Z * node_heap * free_list) in
      Some (ret, with_range_nodes h (put_free_list sbi cpuid fl))
    end.

(** [pi] is the address of the owning inode, read for its block type. *)
Definition nova_free_data_blocks (sbi : nova_sb_info) (pi blocknr num : Z) :
    option (Z * nova_sb_info) :=
  if blocknr =? 0 then Some (- EINVAL, sbi)
  else nova_free_blocks sbi blocknr num (Pi.i_blk_type (nvm sbi) pi) 0.

Definition nova_free_log_blocks (sbi : nova_sb_info) (pi blocknr num : Z) :
    option (Z * nova_sb_info) :=
  if blocknr =? 0 then Some (- EINVAL, sbi)
  else nova_free_blocks sbi blocknr num (Pi.i_blk_type (nvm sbi) pi) 1.

(** ** Allocating *)

(** The search from the cursor [temp] along the successors.  Found: the count
    and the first block; [fuel] bounds the steps by the number of nodes. *)
Fixpoint alloc_loop (fuel : nat) (h : node_heap) (fl : free_list) (btype nblocks : Z)
    (temp : option ptr) : option (option (Z * Z) * node_heap * free_list) :=
  match temp, fuel with
  | None, _ => Some (None, h, fl)
  | Some _, O => None
  | Some curr, S fuel =>
    rc ← h !! curr;
    let curr_blocks := u64 (range_high rc - range_low rc + 1) in
    if curr_blocks <=? nblocks then
      if (0 <? btype) && (curr_blocks <? nblocks) then
        (* superpage allocation must succeed *)
        alloc_loop fuel h fl btype nblocks (rb_next (block_free_tree fl) curr)
      else
        (* allocate the whole blocknode *)
        let next_node := rb_next (block_free_tree fl) curr in
        let fl :=
          if decide (first_node fl = Some curr) then
            with_p_node next_node (with_first_node next_node fl)
          else
            match next_node with
            | Some n => with_p_node (Some n) fl
            | None => with_p_node (first_node fl) fl
            end in
        let fl := with_block_free_tree (rb_erase curr (block_free_tree fl)) fl in
        let fl := with_num_blocknode (u64 (num_blocknode fl - 1)) fl in
        Some (Some (curr_blocks, range_low rc), nova_free_range_node curr h, fl)
    else
      (* allocate partial blocknode *)
      let h := set_range_low curr (u64 (range_low rc + nblocks)) h in
      Some (Some (nblocks, range_low rc), h, with_p_node (Some curr) fl)
  end.

(** Returns the number of blocks taken, or -ENOSPC as an [unsigned long], and
    [*new_blocknr], which stays 0 when nothing is found. *)
Definition nova_alloc_blocks_in_free_list (h : node_heap) (fl : free_list)
    (btype nblocks : Z) : option (Z * Z * node_heap * free_list) :=
  res ← alloc_loop (length (inorder (block_free_tree fl))) h fl btype nblocks (p_node fl);
  let '(found, h, fl) := (res : option (Z * Z) * node_heap * free_list) in
  Some (match found with
        | Some (n, new_blocknr) =>
          (n, new_blocknr, h, with_num_free_blocks (u64 (num_free_blocks fl - n)) fl)
        | None => (u64 (- ENOSPC), 0, h, fl)
        end).

(** The loop of [nova_get_candidate_free_list]: CPUs [i], [i+1], ... *)
Fixpoint candidate_loop (sbi : nova_sb_info) (n : nat) (i cpuid best : Z) : option Z :=
  match n with
  | O => Some cpuid
  | S n =>
    fl ← nova_get_free_list sbi i;
    if u64 best <? num_free_blocks fl
    then candidate_loop sbi n (i + 1) i (i32 (num_free_blocks fl))
    else candidate_loop sbi n (i + 1) cpuid best
  end.

Definition nova_get_candidate_free_list (sbi : nova_sb_info) : option Z :=
  candidate_loop sbi (Z.to_nat (cpus sbi)) 0 0 0.

Inductive alloc_type := LOG | DATA.

Definition alloc_account (fl : free_list) (atype : alloc_type) (ret_blocks : Z) : free_list :=
  match atype with
  | LOG => with_alloc_log_pages (u64 (alloc_log_pages fl + ret_blocks))
             (with_alloc_log_count (u64 (alloc_log_count fl + 1)) fl)
  | DATA => with_alloc_data_pages (u64 (alloc_data_pages fl + ret_blocks))
              (with_alloc_data_count (u64 (alloc_data_count fl + 1)) fl)
  end.

(** Allocation from the list of one CPU, once the list is known to have enough
    free blocks; the result is the code's return value with [*blocknr]. *)
Definition take_blocks (sbi : nova_sb_info) (cpuid : Z) (fl : free_list)
    (nblocks btype zero : Z) (atype : alloc_type) (blocknr : Z) :
    option (Z * Z * nova_sb_info) :=
  res ← nova_alloc_blocks_in_free_list (range_nodes sbi) fl btype nblocks;
  let '(ret_blocks, new_blocknr, h, fl) := (res : Z * Z * node_heap * free_list) in
  let fl := alloc_account fl atype ret_blocks in
  let sbi := with_range_nodes h (put_free_list sbi cpuid fl) in
  if (ret_blocks <=? 0) || (new_blocknr =? 0) then Some (- ENOSPC, blocknr, sbi)
  else
    let sbi :=
      if negb (zero =? 0) then
        let bp := nova_get_block (virt_addr sbi) (nova_get_block_off new_blocknr) in
        with_nvm (memset0 (nvm sbi) bp (u32 (PAGE_SIZE * ret_blocks))) sbi
      else sbi in
    Some (i32 (ret_blocks / nova_get_numblocks btype), new_blocknr, sbi).

(** The [retry] loop: [retries] more lists may be tried. *)
Fixpoint new_blocks_retry (retries : nat) (sbi : nova_sb_info) (cpuid nblocks btype zero : Z)
    (atype : alloc_type) (blocknr : Z) : option (Z * Z * nova_sb_info) :=
  fl ← nova_get_free_list sbi cpuid;
  if (num_free_blocks fl <? nblocks) || bool_decide (first_node fl = None)
     || bool_decide (p_node fl = None) then
    if nblocks <=? num_free_blocks fl then
      let first := rb_first (block_free_tree fl) in
      let fl := with_p_node first (with_first_node first fl) in
      take_blocks sbi cpuid fl nblocks btype zero atype blocknr
    else
      match retries with
      | O => Some (- ENOSPC, blocknr, sbi)
      | S retries =>
        cpuid ← nova_get_candidate_free_list sbi;
        new_blocks_retry retries sbi cpuid nblocks btype zero atype blocknr
      end
  else take_blocks sbi cpuid fl nblocks btype zero atype blocknr.

(** [nova_new_blocks]: [cpu] is [smp_processor_id()], [blocknr] the old value of
    [*blocknr]. *)
Definition nova_new_blocks (sbi : nova_sb_info) (cpu blocknr num btype zero : Z)
    (atype : alloc_type) : option (Z * Z * nova_sb_info) :=
  let nblocks := u64 (num * nova_get_numblocks btype) in
  if nblocks =? 0 then Some (- EINVAL, blocknr, sbi)
  else new_blocks_retry 3 sbi cpu nblocks btype zero atype blocknr.

Definition nova_new_data_blocks (sbi : nova_sb_info) (cpu pi blocknr num zero : Z) :
    option (Z * Z * nova_sb_info) :=
  nova_new_blocks sbi cpu blocknr num (Pi.i_blk_type (nvm sbi) pi) zero DATA.

Definition nova_new_log_blocks (sbi : nova_sb_info) (cpu pi blocknr num zero : Z) :
    option (Z * Z * nova_sb_info) :=
  nova_new_blocks sbi cpu blocknr num (Pi.i_blk_type (nvm sbi) pi) zero LOG.

(** ** Initialisation and accounting *)

(** [nova_alloc_block_free_lists]; the array pointer is NULL when [kzalloc] fails. *)
Definition nova_alloc_block_free_lists (sbi : nova_sb_info) (kzalloc_ok : bool) :
    Z * nova_sb_info :=
  if kzalloc_ok
  then (0, with_free_lists (replicate (Z.to_nat (cpus sbi)) empty_free_list) sbi)
  else (- ENOMEM, with_free_lists [] sbi).

Definition nova_delete_free_lists (sbi : nova_sb_info) : nova_sb_info :=
  with_free_lists [] sbi.

(** One turn of the loop of [nova_init_blockmap]; [inl] is the early return. *)
Definition init_one_list (sbi : nova_sb_info) (i recovery : Z) :
    option (nova_sb_info + nova_sb_info) :=
  fl ← nova_get_free_list sbi i;
  let per := per_list_blocks sbi in
  let start := u64 (per * i) in
  let fl := with_block_start start fl in
  let fl := with_block_end (u64 (start + per - 1)) fl in
  if recovery =? 0 then
    let fl := with_num_free_blocks per fl in
    let fl :=
      if i =? 0 then
        with_num_free_blocks (u64 (num_free_blocks fl - reserved_blocks sbi))
          (with_block_start (u64 (block_start fl + reserved_blocks sbi)) fl)
      else fl in
    match nova_alloc_range_node (range_nodes sbi) slab_garbage with
    | None => None (* NOVA_ASSERT only warns; the next store faults *)
    | Some (blknode, h) =>
      let h := <[blknode := RangeNode (block_start fl) (block_end fl)]> h in
      ins ← nova_insert_blocktree h (block_free_tree fl) blknode;
      let '(ret, tree) := (ins : Z * rb_tree) in
      if negb (ret =? 0) then
        Some (inl (with_range_nodes (nova_free_range_node blknode h) (put_free_list sbi i fl)))
      else
        let fl := with_block_free_tree tree fl in
        let fl := with_p_node (Some blknode) (with_num_blocknode 1
                    (with_first_node (Some blknode) fl)) in
        Some (inr (with_range_nodes h (put_free_list sbi i fl)))
    end
  else Some (inr (put_free_list sbi i fl)).

Fixpoint init_lists (n : nat) (i : Z) (sbi : nova_sb_info) (recovery : Z) :
    option (nova_sb_info + nova_sb_info) :=
  match n with
  | O => Some (inr sbi)
  | S n =>
    r ← init_one_list sbi i recovery;
    match r with
    | inl sbi => Some (inl sbi)
    | inr sbi => init_lists n (i + 1) sbi recovery
    end
  end.

Definition nova_init_blockmap (sbi : nova_sb_info) (recovery : Z) : option nova_sb_info :=
  if cpus sbi =? 0 then None
  else
    let sbi := with_per_list_blocks (num_blocks sbi / cpus sbi) sbi in
    r ← init_lists (Z.to_nat (cpus sbi)) 0 sbi recovery;
    match r with
    | inl sbi => Some sbi
    | inr sbi =>
      fl ← nova_get_free_list sbi (cpus sbi - 1);
      if u64 (block_end fl + 1) <? num_blocks sbi then
        Some (with_shared_free_list
                (with_block_end (u64 (num_blocks sbi - 1))
                  (with_block_start (u64 (block_end fl + 1)) (shared_free_list sbi))) sbi)
      else Some sbi
    end.

(** Sum over the CPU lists from [i] on. *)
Fixpoint count_loop (sbi : nova_sb_info) (n : nat) (i acc : Z) : option Z :=
  match n with
  | O => Some acc
  | S n =>
    fl ← nova_get_free_list sbi i;
    count_loop sbi n (i + 1) (u64 (acc + num_free_blocks fl))
  end.

Definition nova_count_free_blocks (sbi : nova_sb_info) : option Z :=
  acc ← count_loop sbi (Z.to_nat (cpus sbi)) 0 0;
  fl ← nova_get_free_list sbi SHARED_CPU;
  Some (u64 (acc + num_free_blocks fl)).
End operations.
