(* ===== verification/BallocFacts.v ===== *)
(** * Correctness of one free list (balloc.c)

    The invariant of a free list, and that freeing adds and allocating removes
    exactly the blocks it reports: the list refines a set of block numbers. *)

From S2P Require Import Prelude Layout RangeTree State Balloc.

(** ** The invariant *)

(** A set of ranges that are valid, sorted and pairwise apart. *)
Record ranges_ok (rs : list nova_range_node) : Prop := {
  ranges_sorted : StronglySorted before rs;
  ranges_wf : Forall wf_range rs;
}.

Record free_list_ok (h : node_heap) (fl : free_list) (rs : list nova_range_node) : Prop := {
  fl_tree : tree_ok h (block_free_tree fl) rs;
  fl_first : first_node fl = head (inorder (block_free_tree fl));
  fl_cursor : forall n, p_node fl = Some n -> n ∈ inorder (block_free_tree fl);
  fl_count : num_free_blocks fl = sum_of range_size rs;
  fl_nodes : num_blocknode fl = Z.of_nat (length rs);
}.

(** The heap changes only at the nodes [ns]. *)
Definition changes_only (h h' : node_heap) (ns : list ptr) : Prop :=
  forall n, n ∉ ns -> h' !! n = h !! n.

(** ** Ranges *)

Section ranges.
Implicit Types (x y : nova_range_node) (pre post rs : list nova_range_node).

Lemma before_trans x y z : wf_range y -> before x y -> before y z -> before x z.
Proof. unfold before, wf_range. lia. Qed.

Lemma ranges_ok_mid pre x post :
  ranges_ok (pre ++ x :: post) <->
  ranges_ok pre /\ ranges_ok post /\ wf_range x /\
  Forall (fun y => before y x) pre /\ Forall (before x) post.
Proof.
  split.
  - intros [Hs Hw]. apply StronglySorted_app_iff in Hs as (H1 & H2 & H3).
    apply StronglySorted_cons_iff in H2 as [H2 H4].
    apply Forall_app in Hw as [W1 W2]. inversion W2; subst.
    split_and!; auto; try by constructor.
    eapply Forall_impl; [exact H3|]. intros y Hy. by inversion Hy.
  - intros ([S1 W1] & [S2 W2] & Hx & Hb & Ha). split.
    + apply StronglySorted_app_iff. split_and!; auto.
      { apply StronglySorted_cons_iff. auto. }
      eapply Forall_impl; [exact Hb|]. intros y Hy. constructor; [done|].
      eapply Forall_impl; [exact Ha|]. intros z Hz. eauto using before_trans.
    + apply Forall_app. split; auto.
Qed.

Lemma ranges_ok_app pre post :
  ranges_ok (pre ++ post) -> ranges_ok pre /\ ranges_ok post.
Proof.
  intros [Hs Hw]. apply StronglySorted_app_iff in Hs as (? & ? & _).
  apply Forall_app in Hw as [? ?]. by split; split.
Qed.

Lemma ranges_ok_nil : ranges_ok [].
Proof. split; constructor. Qed.

Lemma range_size_pos x : wf_range x -> 0 < range_size x.
Proof. unfold wf_range, range_size. lia. Qed.

Lemma sum_ranges_nonneg rs : ranges_ok rs -> 0 <= sum_of range_size rs.
Proof.
  intros [_ Hw]. apply sum_of_nonneg. eapply Forall_impl; [exact Hw|].
  intros x Hx. apply range_size_pos in Hx. lia.
Qed.

(** Ranges that are pairwise apart between [lo] and [hi] fit in there. *)
Lemma sum_ranges_bound lo hi rs :
  ranges_ok rs -> Forall (fun x => lo <= range_low x /\ range_high x < hi) rs -> lo <= hi ->
  lo + sum_of range_size rs + Z.of_nat (length rs) <= hi + 1.
Proof.
  revert lo. induction rs as [|x rs IH]; intros lo Hok Hlo Hle; [simpl; lia|].
  apply (ranges_ok_mid []) in Hok as (_ & Hok & Hx & _ & Hb).
  apply Forall_cons in Hlo as [[? ?] Hlo]. unfold wf_range, before in *.
  assert (range_high x + 2 <= hi \/ rs = []) as [Hh | ->].
  - destruct rs as [|y rs]; [by right|]. left.
    apply Forall_cons in Hb as [? _]. apply Forall_cons in Hlo as [? _].
    destruct Hok as [_ Hw]. apply Forall_cons in Hw as [Hw _]. unfold wf_range in Hw. lia.
  - specialize (IH (range_high x + 2) Hok). simpl length. rewrite Nat2Z.inj_succ.
    simpl sum_of. unfold range_size at 1.
    assert (range_high x + 2 + sum_of range_size rs + Z.of_nat (length rs) <= hi + 1); [|lia].
    apply IH; [|lia]. rewrite Forall_forall in *. intros y Hy.
    specialize (Hb _ Hy). specialize (Hlo _ Hy). simpl in *. lia.
  - simpl. unfold range_size. lia.
Qed.

Lemma sum_ranges_limit rs :
  ranges_ok rs -> sum_of range_size rs + Z.of_nat (length rs) <= RANGE_LIMIT + 1.
Proof.
  intros Hok.
  assert (0 + sum_of range_size rs + Z.of_nat (length rs) <= RANGE_LIMIT + 1); [|lia].
  apply sum_ranges_bound; [done| |unfold RANGE_LIMIT; lia].
  destruct Hok as [_ Hw]. eapply Forall_impl; [exact Hw|]. unfold wf_range. intros; lia.
Qed.

Lemma in_ranges_app b pre post :
  in_ranges b (pre ++ post) <-> in_ranges b pre \/ in_ranges b post.
Proof. apply Exists_app. Qed.

Lemma in_ranges_cons b x rs : in_ranges b (x :: rs) <-> in_range b x \/ in_ranges b rs.
Proof. apply Exists_cons. Qed.

Lemma in_ranges_nil b : in_ranges b [] <-> False.
Proof. apply Exists_nil. Qed.

(** Ranges above [high] that do not touch it are apart from it. *)
Lemma above_apart high rs :
  ranges_ok rs -> Forall (above high) rs ->
  (forall x, head rs = Some x -> range_low x <> high + 1) ->
  Forall (fun y => high + 1 < range_low y) rs.
Proof.
  intros Hok Ha Hhd. destruct rs as [|x rs]; [constructor|].
  specialize (Hhd x eq_refl). inversion Ha as [|? ? Hx Ha']; subst.
  apply (ranges_ok_mid []) in Hok as (_ & _ & Hwx & _ & Hb).
  unfold above, before, wf_range in *. constructor; [lia|].
  eapply Forall_impl; [exact Hb|]. intros; simpl in *; lia.
Qed.

Lemma below_apart low rs :
  ranges_ok rs -> Forall (below low) rs ->
  (forall x, last rs = Some x -> range_high x + 1 <> low) ->
  Forall (fun y => range_high y + 1 < low) rs.
Proof.
  intros Hok Hb Hl. destruct rs as [|x rs _] using rev_ind; [constructor|].
  rewrite last_snoc in Hl. specialize (Hl x eq_refl).
  apply Forall_app in Hb as [Hb Hx]. inversion Hx; subst.
  apply ranges_ok_mid in Hok as (_ & _ & Hwx & Ha & _).
  unfold below, before, wf_range in *. apply Forall_app. split.
  - eapply Forall_impl; [exact Ha|]. intros; simpl in *; lia.
  - constructor; [lia|constructor].
Qed.
End ranges.

#[export] Hint Resolve ranges_ok_nil range_size_pos sum_ranges_nonneg : nova.
#[export] Hint Rewrite in_ranges_app in_ranges_cons in_ranges_nil : nova.

(** Membership in a concatenation, unfolded to arithmetic. *)
Ltac in_ranges_solve :=
  autorewrite with nova;
  unfold in_range in *; simpl in *; intuition lia.

(** [Forall] facts that differ by arithmetic. *)
Ltac forall_lia H :=
  eapply Forall_impl; [exact H|]; unfold before, above, below, wf_range in *;
  simpl in *; intros; lia.

(** ** Heap updates under a tree *)

Section heap.
Implicit Types (h : node_heap) (ns : list ptr) (rs : list nova_range_node).

Lemma holds_alter h f n ns1 ns2 rs1 r rs2 :
  NoDup (ns1 ++ n :: ns2) -> holds h ns1 rs1 -> h !! n = Some r -> holds h ns2 rs2 ->
  holds (alter f n h) (ns1 ++ n :: ns2) (rs1 ++ f r :: rs2).
Proof.
  intros Hnd H1 Hn H2. apply NoDup_app in Hnd as (_ & Hx & Hnd).
  apply NoDup_cons in Hnd as [Hn2 _].
  apply holds_app; [|constructor].
  - eapply holds_frame; [exact H1|]. intros m Hm. apply lookup_alter_ne.
    intros <-. apply (Hx n); set_solver.
  - by rewrite lookup_alter_eq, Hn.
  - eapply holds_frame; [exact H2|]. intros m Hm. apply lookup_alter_ne. set_solver.
Qed.

Lemma holds_insert h n r ns rs : n ∉ ns -> holds h ns rs -> holds (<[n:=r]> h) ns rs.
Proof.
  intros Hn Hh. eapply holds_frame; [exact Hh|]. intros m Hm.
  apply lookup_insert_ne. set_solver.
Qed.

Lemma holds_delete h n ns rs : n ∉ ns -> holds h ns rs -> holds (delete n h) ns rs.
Proof.
  intros Hn Hh. eapply holds_frame; [exact Hh|]. intros m Hm.
  apply lookup_delete_ne. set_solver.
Qed.

Lemma holds_last_case h ns rs :
  holds h ns rs ->
  (ns = [] /\ rs = []) \/
  exists ms p qs rp, ns = ms ++ [p] /\ rs = qs ++ [rp] /\ h !! p = Some rp /\ holds h ms qs.
Proof.
  intros Hh. destruct ns as [|p ms _] using rev_ind.
  - inversion Hh. auto.
  - right. apply holds_app_inv in Hh as (qs & q & -> & H1 & H2).
    apply holds_cons_inv in H2 as (rp & q' & -> & Hp & H2). inversion H2; subst.
    exists ms, p, qs, rp. auto.
Qed.

Lemma holds_head_case h ns rs :
  holds h ns rs ->
  (ns = [] /\ rs = []) \/
  exists n ms rn qs, ns = n :: ms /\ rs = rn :: qs /\ h !! n = Some rn /\ holds h ms qs.
Proof.
  intros Hh. destruct ns as [|n ms]; [inversion Hh; auto|]. right.
  apply holds_cons_inv in Hh as (rn & qs & -> & ? & ?). eauto 10.
Qed.

Lemma tree_ok_ranges h t rs : tree_ok h t rs -> ranges_ok rs.
Proof. intros [_ ? ?]. by split. Qed.
End heap.

#[export] Hint Resolve tree_ok_ranges : nova.

(** ** Freeing a range *)

Lemma free_account_fields fl nblocks log_page :
  block_free_tree (free_account fl nblocks log_page) = block_free_tree fl /\
  first_node (free_account fl nblocks log_page) = first_node fl /\
  p_node (free_account fl nblocks log_page) = p_node fl /\
  num_blocknode (free_account fl nblocks log_page) = num_blocknode fl /\
  num_free_blocks (free_account fl nblocks log_page) = u64 (num_free_blocks fl + nblocks).
Proof. unfold free_account. by destruct (negb _). Qed.

(** Rebuilding the invariant after the counters were updated. *)
Lemma free_account_ok h fl rs nblocks log_page rs0 :
  tree_ok h (block_free_tree fl) rs ->
  first_node fl = head (inorder (block_free_tree fl)) ->
  (forall n, p_node fl = Some n -> n ∈ inorder (block_free_tree fl)) ->
  num_blocknode fl = Z.of_nat (length rs) ->
  num_free_blocks fl = sum_of range_size rs0 -> 
  sum_of range_size rs = sum_of range_size rs0 + nblocks ->
  free_list_ok h (free_account fl nblocks log_page) rs.
Proof.
  intros Ht Hf Hc Hn Hcnt Hsum.
  pose proof (tree_ok_ranges _ _ _ Ht) as Hrs.
  pose proof (sum_ranges_limit _ Hrs). pose proof (sum_ranges_nonneg _ Hrs).
  destruct (free_account_fields fl nblocks log_page) as (E1 & E2 & E3 & E4 & E5).
  split; rewrite ?E1, ?E2, ?E3, ?E4, ?E5; auto.
  rewrite Hcnt, <- Hsum. unfold RANGE_LIMIT in *. wrap. done.
Qed.

#[local] Arguments joins_prev : simpl never.
#[local] Arguments joins_next : simpl never.

Section free.
Context `{RbTreeLaws}.
Implicit Types (h : node_heap) (fl : free_list) (rs : list nova_range_node).

(** What a successful free has to establish for the list. *)
Definition freed_ok h fl rs curr low high (res : option (Z * node_heap * free_list)) : Prop :=
  exists h' fl' rs',
    res = Some (0, h', fl') /\ free_list_ok h' fl' rs' /\
    (forall b, in_ranges b rs' <-> in_ranges b rs \/ low <= b <= high) /\
    changes_only h h' (curr :: inorder (block_free_tree fl)) /\
    (forall n, n ∈ inorder (block_free_tree fl') ->
               n = curr \/ n ∈ inorder (block_free_tree fl)) /\
    (curr ∉ inorder (block_free_tree fl') -> h' !! curr = None).

Lemma joins_prev_some h p rp low :
  h !! p = Some rp -> wf_range rp ->
  joins_prev h (Some p) low = Some (low =? range_high rp + 1).
Proof.
  intros Hp Hw. unfold joins_prev. rewrite Hp. simpl. unfold wf_range, RANGE_LIMIT in Hw. by wrap.
Qed.

Lemma joins_next_some h n rn high :
  h !! n = Some rn -> 0 <= high < RANGE_LIMIT ->
  joins_next h (Some n) high = Some (high + 1 =? range_low rn).
Proof. intros Hn ?. unfold joins_next. rewrite Hn. simpl. unfold RANGE_LIMIT in *. by wrap. Qed.

Lemma first_if_none_fields (prev : option ptr) curr fl :
  block_free_tree (first_if_none prev curr fl) = block_free_tree fl /\
  p_node (first_if_none prev curr fl) = p_node fl /\
  num_blocknode (first_if_none prev curr fl) = num_blocknode fl /\
  num_free_blocks (first_if_none prev curr fl) = num_free_blocks fl.
Proof. by destruct prev. Qed.

(** The freed range joins neither neighbour: a new node. *)
Lemma free_new_node h fl rs curr g low high nblocks log_page ns1 ns2 rs1 rs2
    (prev : option ptr) :
  free_list_ok h fl rs -> h !! curr = Some g -> curr ∉ inorder (block_free_tree fl) ->
  slot_at h (block_free_tree fl) rs low ns1 ns2 rs1 rs2 -> Forall (above high) rs2 ->
  0 <= low <= high -> high < RANGE_LIMIT -> nblocks = high - low + 1 ->
  (forall x, last rs1 = Some x -> range_high x + 1 <> low) ->
  (forall x, head rs2 = Some x -> range_low x <> high + 1) ->
  (prev = None <-> ns1 = []) ->
  freed_ok h fl rs curr low high
    (let h := <[curr := RangeNode low high]> h in
     ins ← nova_insert_blocktree h (block_free_tree fl) curr;
     let '(ret, tree') := (ins : Z * rb_tree) in
     if negb (ret =? 0) then Some (ret, nova_free_range_node curr h, fl)
     else
       let fl := with_block_free_tree tree' fl in
       let fl := first_if_none prev curr fl in
       let fl := with_num_blocknode (u64 (num_blocknode fl + 1)) fl in
       Some (0, h, free_account fl nblocks log_page)).
Proof.
  intros [Ht Hf Hc Hcnt Hnn] Hcurr Hfresh Hs Hah Hlow Hhigh Hnb Hp Hn Hprev.
  destruct Hs as [En Er Hh1 Hh2 Hb Ha]. subst rs.
  pose proof (tree_ok_ranges _ _ _ Ht) as Hrs.
  pose proof (ranges_ok_app _ _ Hrs) as [Hrs1 Hrs2].
  set (h1 := <[curr := RangeNode low high]> h).
  assert ((curr ∉ ns1) /\ (curr ∉ ns2)) as [Hc1 Hc2] by (rewrite En in Hfresh; set_solver).
  destruct (nova_insert_range_node_ok h1 (block_free_tree fl) (rs1 ++ rs2) curr
              (RangeNode low high) ns1 ns2 rs1 rs2) as (t' & E & Hi).
  { destruct Ht as [Hh ? ?]. split; auto. by apply holds_insert. }
  { apply lookup_insert_eq. }
  { split; auto; by apply holds_insert. }
  cbv zeta. unfold nova_insert_blocktree. rewrite E. simpl.
  pose proof (below_apart low rs1 Hrs1 Hb Hp) as Hb'.
  pose proof (above_apart high rs2 Hrs2 Hah Hn) as Ha'.
  assert (ranges_ok (rs1 ++ RangeNode low high :: rs2)) as Hok.
  { apply ranges_ok_mid. unfold wf_range, before; simpl. split_and!; auto; lia. }
  pose proof (sum_ranges_limit _ Hok) as Hlim.
  pose proof (sum_ranges_nonneg _ Hrs1). pose proof (sum_ranges_nonneg _ Hrs2).
  rewrite length_app, sum_of_app in Hlim. simpl in Hlim.
  unfold range_size in Hlim at 2. simpl in Hlim. unfold RANGE_LIMIT in *.
  destruct (first_if_none_fields prev curr (with_block_free_tree t' fl))
    as (F1 & F2 & F3 & F4).
  eexists h1, _, (rs1 ++ RangeNode low high :: rs2). split; [done|].
  rewrite (proj1 (free_account_fields _ _ _)). simpl. rewrite F1. simpl.
  split; [|split; [|split; [|split]]].
  - apply free_account_ok with (rs0 := rs1 ++ rs2); simpl; rewrite ?F1, ?F2, ?F3, ?F4; auto.
    + destruct Hok. split; auto. simpl. rewrite Hi.
      apply holds_app; [by apply holds_insert|].
      constructor; [apply lookup_insert_eq|by apply holds_insert].
    + simpl. rewrite Hi. destruct prev; simpl.
      * rewrite Hf, En. destruct ns1; [|done]. discriminate (proj2 Hprev eq_refl).
      * by rewrite (proj1 Hprev eq_refl).
    + simpl. rewrite Hi. intros n Hpn. apply Hc in Hpn. rewrite En in Hpn. set_solver.
    + simpl. rewrite Hnn, !length_app. simpl. wrap. lia.
    + rewrite !sum_of_app. simpl. unfold range_size at 2. simpl. lia.
  - intros b. in_ranges_solve.
  - intros n Hn'. unfold h1. apply lookup_insert_ne. set_solver.
  - rewrite Hi, En. set_solver.
  - rewrite Hi. set_solver.
Qed.

(** The freed range extends one neighbour in place. *)
Lemma free_extend h fl rs curr g f p ms1 ms2 qs1 rp qs2 low high nblocks log_page :
  free_list_ok h fl rs -> h !! curr = Some g -> curr ∉ inorder (block_free_tree fl) ->
  inorder (block_free_tree fl) = ms1 ++ p :: ms2 -> rs = qs1 ++ rp :: qs2 ->
  holds h ms1 qs1 -> h !! p = Some rp -> holds h ms2 qs2 ->
  wf_range (f rp) -> Forall (fun y => before y (f rp)) qs1 -> Forall (before (f rp)) qs2 ->
  range_size (f rp) = range_size rp + nblocks ->
  (forall b, in_range b (f rp) <-> in_range b rp \/ low <= b <= high) ->
  freed_ok h fl rs curr low high
    (Some (0, nova_free_range_node curr (alter f p h), free_account fl nblocks log_page)).
Proof.
  intros [Ht Hf Hc Hcnt Hnn] Hcurr Hfresh En -> H1 Hp H2 Hw Hb Ha Hsz Hin.
  pose proof (tree_ok_ranges _ _ _ Ht) as Hrs.
  pose proof (tree_ok_NoDup _ _ _ Ht) as Hnd.
  apply ranges_ok_mid in Hrs as (Hrs1 & Hrs2 & _).
  eexists _, _, (qs1 ++ f rp :: qs2). split; [done|].
  rewrite (proj1 (free_account_fields _ _ _)).
  split; [|split; [|split; [|split]]].
  - apply free_account_ok with (rs0 := qs1 ++ rp :: qs2); auto.
    + assert (ranges_ok (qs1 ++ f rp :: qs2)) as [? ?] by (by apply ranges_ok_mid).
      split; auto. apply holds_delete; [done|]. rewrite En in *. by apply holds_alter.
    + rewrite Hnn, !length_app. done.
    + rewrite !sum_of_app. simpl. lia.
  - intros b. rewrite !in_ranges_app, !in_ranges_cons, Hin. tauto.
  - intros n Hn. unfold nova_free_range_node. rewrite lookup_delete_ne by set_solver.
    apply lookup_alter_ne. rewrite En in Hn. set_solver.
  - auto.
  - intros _. apply lookup_delete_eq.
Qed.

(** ... the one before it. *)
Lemma free_left h fl rs curr g p ms1 ms2 qs1 rp qs2 low high nblocks log_page :
  free_list_ok h fl rs -> h !! curr = Some g -> curr ∉ inorder (block_free_tree fl) ->
  inorder (block_free_tree fl) = ms1 ++ p :: ms2 -> rs = qs1 ++ rp :: qs2 ->
  holds h ms1 qs1 -> h !! p = Some rp -> holds h ms2 qs2 ->
  low = range_high rp + 1 -> low <= high < RANGE_LIMIT -> nblocks = high - low + 1 ->
  Forall (fun x => high + 1 < range_low x) qs2 ->
  freed_ok h fl rs curr low high
    (let h := set_range_high p (u64 (range_high rp + nblocks)) h in
     Some (0, nova_free_range_node curr h, free_account fl nblocks log_page)).
Proof.
  intros Hfl Hcurr Hfresh En -> H1 Hp H2 Hlow Hhigh Hnb Ha.
  pose proof (tree_ok_ranges _ _ _ (fl_tree _ _ _ Hfl)) as Hrs.
  apply ranges_ok_mid in Hrs as (_ & _ & Hw & Hb & _).
  unfold set_range_high. replace (u64 (range_high rp + nblocks)) with high
    by (unfold wf_range, RANGE_LIMIT in *; wrap; lia).
  eapply (free_extend h fl _ curr g (fun r => RangeNode (range_low r) high) p ms1 ms2 qs1 rp qs2);
    eauto; unfold wf_range, before, range_size, in_range in *; simpl; auto; lia.
Qed.

(** ... the one behind it. *)
Lemma free_right h fl rs curr g n ms1 ms2 qs1 rn qs2 low high nblocks log_page :
  free_list_ok h fl rs -> h !! curr = Some g -> curr ∉ inorder (block_free_tree fl) ->
  inorder (block_free_tree fl) = ms1 ++ n :: ms2 -> rs = qs1 ++ rn :: qs2 ->
  holds h ms1 qs1 -> h !! n = Some rn -> holds h ms2 qs2 ->
  high + 1 = range_low rn -> 0 <= low <= high -> nblocks = high - low + 1 ->
  Forall (fun x => range_high x + 1 < low) qs1 ->
  freed_ok h fl rs curr low high
    (let h := set_range_low n (u64 (range_low rn - nblocks)) h in
     Some (0, nova_free_range_node curr h, free_account fl nblocks log_page)).
Proof.
  intros Hfl Hcurr Hfresh En -> H1 Hn H2 Hhigh Hlow Hnb Hb.
  pose proof (tree_ok_ranges _ _ _ (fl_tree _ _ _ Hfl)) as Hrs.
  apply ranges_ok_mid in Hrs as (_ & _ & Hw & _ & Ha).
  unfold set_range_low. replace (u64 (range_low rn - nblocks)) with low
    by (unfold wf_range, RANGE_LIMIT in *; wrap; lia).
  eapply (free_extend h fl _ curr g (fun r => RangeNode low (range_high r)) n ms1 ms2 qs1 rn qs2);
    eauto; unfold wf_range, before, range_size, in_range in *; simpl; auto; lia.
Qed.

Lemma cursor_off_fields fl n :
  block_free_tree (cursor_off fl n) = block_free_tree fl /\
  first_node (cursor_off fl n) = first_node fl /\
  num_blocknode (cursor_off fl n) = num_blocknode fl /\
  num_free_blocks (cursor_off fl n) = num_free_blocks fl.
Proof. unfold cursor_off. case_decide; [|done]. by destruct (rb_next _ _). Qed.

(** The cursor is moved to a node that stays. *)
Lemma cursor_off_member h fl rs n p ms1 ms2 m :
  free_list_ok h fl rs -> inorder (block_free_tree fl) = (ms1 ++ [p]) ++ n :: ms2 ->
  p_node (cursor_off fl n) = Some m -> m ∈ ms1 ++ p :: ms2.
Proof.
  intros [Ht Hf Hc _ _] En. pose proof (tree_ok_NoDup _ _ _ Ht) as Hnd.
  unfold cursor_off. case_decide as Hd.
  - rewrite (rb_next_inorder _ (ms1 ++ [p]) n ms2) by auto.
    destruct ms2 as [|m2 ms2]; simpl; [|set_solver].
    rewrite Hf, En. destruct ms1; simpl; set_solver.
  - intros Hm. pose proof (Hc _ Hm) as Hin. rewrite En in Hin.
    assert (m <> n) by congruence. set_solver.
Qed.

(** The freed range closes the gap between two nodes, which become one. *)
Lemma free_fill h fl rs curr g p n ms1 ms2 qs1 rp rn qs2 low high nblocks log_page :
  free_list_ok h fl rs -> h !! curr = Some g -> curr ∉ inorder (block_free_tree fl) ->
  inorder (block_free_tree fl) = (ms1 ++ [p]) ++ n :: ms2 -> rs = qs1 ++ rp :: rn :: qs2 ->
  holds h ms1 qs1 -> h !! p = Some rp -> h !! n = Some rn -> holds h ms2 qs2 ->
  low = range_high rp + 1 -> high + 1 = range_low rn -> nblocks = high - low + 1 ->
  freed_ok h fl rs curr low high
    (let fl1 := cursor_off fl n in
     let fl2 := with_num_blocknode (u64 (num_blocknode fl1 - 1))
                  (with_block_free_tree (rb_erase n (block_free_tree fl)) fl1) in
     let h := set_range_high p (range_high rn) h in
     let h := nova_free_range_node n h in
     Some (0, nova_free_range_node curr h, free_account fl2 nblocks log_page)).
Proof.
  intros Hfl Hcurr Hfresh En -> H1 Hp Hn H2 Hlow Hhigh Hnb.
  pose proof (fun m => cursor_off_member _ _ _ n p ms1 ms2 m Hfl En) as Hcur.
  destruct (cursor_off_fields fl n) as (C1 & C2 & C3 & C4). destruct Hfl as [Ht Hf Hc Hcnt Hnn].
  pose proof (tree_ok_ranges _ _ _ Ht) as Hrs. pose proof (tree_ok_NoDup _ _ _ Ht) as Hnd.
  pose proof (sum_ranges_limit _ Hrs) as Hlim. pose proof (sum_ranges_nonneg _ Hrs).
  apply ranges_ok_mid in Hrs as (Hrs1 & Hrs2 & Hwp & Hb1 & Hb2).
  apply (ranges_ok_mid []) in Hrs2 as (_ & Hrs2 & Hwn & _ & Hb3).
  apply Forall_cons in Hb2 as [Hpn _].
  assert (inorder (rb_erase n (block_free_tree fl)) = ms1 ++ p :: ms2) as Ei.
  { rewrite (rb_erase_inorder _ (ms1 ++ [p]) n ms2); auto. by rewrite <- app_assoc. }
  assert (range_high rn + 1 <= RANGE_LIMIT) by (unfold wf_range in *; lia).
  rewrite En in Hfresh, Hnd. apply NoDup_mid in Hnd as (Hnd & Hn1 & Hn2).
  rewrite <- app_assoc in Hnd. cbv zeta.
  eexists _, _, (qs1 ++ RangeNode (range_low rp) (range_high rn) :: qs2). split; [done|].
  rewrite (proj1 (free_account_fields _ _ _)). simpl. rewrite Ei.
  split; [|split; [|split; [|split]]].
  - apply free_account_ok with (rs0 := qs1 ++ rp :: rn :: qs2); simpl; rewrite ?Ei, ?C4; auto.
    + assert (ranges_ok (qs1 ++ RangeNode (range_low rp) (range_high rn) :: qs2)) as [? ?].
      { apply ranges_ok_mid. unfold wf_range, before in *; simpl. split_and!; auto; lia. }
      split; auto. simpl. rewrite Ei. do 2 (apply holds_delete; [set_solver|]).
      by apply (holds_alter h (fun r => RangeNode (range_low r) (range_high rn)) p
                  ms1 ms2 qs1 rp qs2).
    + rewrite C2, Hf, En. by destruct ms1.
    + rewrite C3, Hnn, !length_app in *. simpl in *. rewrite !sum_of_app in *.
      unfold RANGE_LIMIT in *. simpl in *. wrap. lia.
    + rewrite !sum_of_app. unfold range_size. simpl. lia.
  - intros b. unfold wf_range, before in *. in_ranges_solve.
  - intros m Hm. rewrite En in Hm. unfold nova_free_range_node.
    rewrite !lookup_delete_ne by set_solver. apply lookup_alter_ne. set_solver.
  - rewrite En. set_solver.
  - intros _. apply lookup_delete_eq.
Qed.

(** A range without a block of the list lies before or behind each node. *)
Lemma disjoint_apart rs low high :
  ranges_ok rs -> low <= high -> (forall b, in_ranges b rs -> ~ low <= b <= high) ->
  Forall (fun r => range_high r < low \/ high < range_low r) rs.
Proof.
  intros [_ Hw] Hlow Hdis. rewrite Forall_forall in *. intros r Hr.
  specialize (Hw r Hr). unfold wf_range in Hw.
  destruct (decide (range_high r < low)); [by left|right].
  destruct (decide (high < range_low r)); [done|].
  exfalso. apply (Hdis (Z.max low (range_low r))); [|lia].
  apply Exists_exists. exists r. unfold in_range. split; [done|lia].
Qed.

(** Freeing a range that is disjoint from the list succeeds, keeps the
    invariant and adds exactly the range. *)
Lemma free_in_list_ok h fl rs curr g low high nblocks log_page :
  free_list_ok h fl rs -> h !! curr = Some g -> curr ∉ inorder (block_free_tree fl) ->
  0 <= low <= high -> high < RANGE_LIMIT -> nblocks = high - low + 1 ->
  (forall b, in_ranges b rs -> ~ low <= b <= high) ->
  freed_ok h fl rs curr low high (free_in_list h fl curr low high nblocks log_page).
Proof.
  intros Hfl Hcurr Hfresh Hlow Hhigh Hnb Hdis.
  pose proof (fl_tree _ _ _ Hfl) as Ht. pose proof (tree_ok_ranges _ _ _ Ht) as Hrs.
  destruct (nova_find_free_slot_ok h (block_free_tree fl) rs low high Ht ltac:(lia))
    as (ns1 & ns2 & rs1 & rs2 & E & Hs & Hah); [by apply disjoint_apart; auto; lia|].
  unfold free_in_list. rewrite E. simpl.
  pose proof Hs as [En Er Hh1 Hh2 Hb Ha]. subst rs.
  pose proof (ranges_ok_app _ _ Hrs) as [Hrs1 Hrs2].
  pose proof (below_apart low rs1 Hrs1 Hb) as Bp.
  pose proof (above_apart high rs2 Hrs2 Hah) as Bn.
  destruct (holds_last_case _ _ _ Hh1) as [[-> ->]|(ms1 & p & qs1 & rp & -> & -> & Hp & Hm1)];
  destruct (holds_head_case _ _ _ Hh2) as [[-> ->]|(n & ms2 & rn & qs2 & -> & -> & Hn & Hm2)];
    rewrite ?last_snoc in *; simpl in *;
    try (apply ranges_ok_mid in Hrs1 as (_ & _ & Hwp & _));
    try rewrite (joins_prev_some h _ _ _ Hp Hwp);
    try rewrite (joins_next_some h _ _ high Hn) by lia; simpl.
  - eapply (free_new_node h fl _ curr g low high nblocks log_page [] [] [] [] None); eauto; done.
  - destruct (high + 1 =? range_low rn) eqn:Jn; bool_hyps.
    + rewrite Hn. by eapply (free_right h fl _ curr g n [] ms2 [] rn qs2).
    + eapply (free_new_node h fl _ curr g low high nblocks log_page [] (n :: ms2) [] (rn :: qs2) None);
        eauto; try done. intros x [= <-]. lia.
  - destruct (low =? range_high rp + 1) eqn:Jp; bool_hyps.
    + rewrite Hp. eapply (free_left h fl _ curr g p ms1 [] qs1 rp []); eauto;
        rewrite ?En, ?app_nil_r; auto; lia.
    + eapply (free_new_node h fl _ curr g low high nblocks log_page (ms1 ++ [p]) []
                (qs1 ++ [rp]) [] (Some p)); eauto; try done; try (by destruct ms1).
      intros x. rewrite last_snoc. intros [= <-]. lia.
  - destruct (low =? range_high rp + 1) eqn:Jp, (high + 1 =? range_low rn) eqn:Jn; bool_hyps.
    + rewrite Hn. eapply (free_fill h fl _ curr g p n ms1 ms2 qs1 rp rn qs2); eauto;
        by rewrite <- app_assoc.
    + rewrite Hp. eapply (free_left h fl _ curr g p ms1 (n :: ms2) qs1 rp (rn :: qs2)); eauto;
        rewrite ?En, <- ?app_assoc; auto; [lia|]. apply Bn. intros x [= <-]. lia.
    + rewrite Hn. eapply (free_right h fl _ curr g n (ms1 ++ [p]) ms2 (qs1 ++ [rp]) rn qs2);
        eauto. apply Bp. intros x [= <-]. lia.
    + eapply (free_new_node h fl _ curr g low high nblocks log_page (ms1 ++ [p]) (n :: ms2)
                (qs1 ++ [rp]) (rn :: qs2) (Some p)); eauto; try (by destruct ms1);
        intros x; rewrite ?last_snoc; intros [= <-]; lia.
Qed.

(** Freeing a block that is free already is refused and changes nothing. *)
Lemma free_in_list_refused h fl rs curr low high nblocks log_page :
  free_list_ok h fl rs -> in_ranges low rs ->
  free_in_list h fl curr low high nblocks log_page =
    Some (- EINVAL, nova_free_range_node curr h, fl).
Proof.
  intros [Ht _ _ _ _] Hin. unfold free_in_list.
  by rewrite (nova_find_free_slot_covered _ _ _ _ _ Ht Hin).
Qed.
End free.

(** ** Allocating blocks *)

Lemma ranges_ok_remove pre x post : ranges_ok (pre ++ x :: post) -> ranges_ok (pre ++ post).
Proof.
  intros [Hs Hw]. apply StronglySorted_app_iff in Hs as (H1 & H2 & H3).
  apply StronglySorted_cons_iff in H2 as [H2 _].
  apply Forall_app in Hw as [W1 W2]. inversion W2; subst. split.
  - apply StronglySorted_app_iff. split_and!; auto.
    eapply Forall_impl; [exact H3|]. intros y Hy. by inversion Hy.
  - by apply Forall_app.
Qed.

Section alloc.
Context `{RbTreeLaws}.
Implicit Types (h : node_heap) (fl : free_list) (rs : list nova_range_node).

(** [k] blocks from [start] on were taken out of the list, up to the counter
    [num_free_blocks], which the caller updates. *)
Record taken h fl rs (nblocks k start : Z) h' fl' rs' : Prop := {
  taken_count : 0 < k <= nblocks;
  taken_start : 0 <= start /\ start + k <= RANGE_LIMIT;
  taken_tree : tree_ok h' (block_free_tree fl') rs';
  taken_first : first_node fl' = head (inorder (block_free_tree fl'));
  taken_cursor n : p_node fl' = Some n -> n ∈ inorder (block_free_tree fl');
  taken_nodes : num_blocknode fl' = Z.of_nat (length rs');
  taken_free : num_free_blocks fl' = num_free_blocks fl;
  taken_sum : sum_of range_size rs = sum_of range_size rs' + k;
  taken_set b : in_ranges b rs <-> in_ranges b rs' \/ start <= b < start + k;
  taken_disjoint b : in_ranges b rs' -> ~ start <= b < start + k;
  taken_frame : changes_only h h' (inorder (block_free_tree fl));
  taken_sub n : n ∈ inorder (block_free_tree fl') -> n ∈ inorder (block_free_tree fl);
  taken_rest : block_start fl' = block_start fl /\ block_end fl' = block_end fl;
}.

(** Every block of [pre ++ post] lies outside the range between them. *)
Lemma mid_disjoint b pre x post :
  ranges_ok (pre ++ x :: post) -> in_ranges b (pre ++ post) -> ~ in_range b x.
Proof.
  intros Hok. apply ranges_ok_mid in Hok as (_ & _ & Hx & Hb & Ha).
  rewrite in_ranges_app. unfold in_ranges. rewrite !Exists_exists.
  rewrite Forall_forall in *. unfold in_range, wf_range, before in *.
  intros [(y & Hy & ?)|(y & Hy & ?)]; [specialize (Hb _ Hy)|specialize (Ha _ Hy)]; lia.
Qed.

(** Taking the whole node under the cursor. *)
Lemma take_whole h fl rs nblocks l1 curr l2 q1 rc q2 :
  free_list_ok h fl rs -> inorder (block_free_tree fl) = l1 ++ curr :: l2 ->
  rs = q1 ++ rc :: q2 -> holds h l1 q1 -> h !! curr = Some rc -> holds h l2 q2 ->
  range_size rc <= nblocks ->
  let next_node := rb_next (block_free_tree fl) curr in
  let fl1 :=
    if decide (first_node fl = Some curr) then
      with_p_node next_node (with_first_node next_node fl)
    else
      match next_node with
      | Some n => with_p_node (Some n) fl
      | None => with_p_node (first_node fl) fl
      end in
  let fl2 := with_block_free_tree (rb_erase curr (block_free_tree fl1)) fl1 in
  let fl3 := with_num_blocknode (u64 (num_blocknode fl2 - 1)) fl2 in
  taken h fl rs nblocks (range_size rc) (range_low rc)
    (nova_free_range_node curr h) fl3 (q1 ++ q2).
Proof.
  intros [Ht Hf Hc Hcnt Hnn] En -> H1 Hcr H2 Hle.
  pose proof (tree_ok_ranges _ _ _ Ht) as Hrs.
  pose proof (tree_ok_NoDup _ _ _ Ht) as Hnd.
  pose proof (sum_ranges_limit _ Hrs) as Hlim. pose proof (sum_ranges_nonneg _ Hrs) as Hpos.
  pose proof (ranges_ok_remove _ _ _ Hrs) as Hrs'.
  pose proof (fun b => mid_disjoint b _ _ _ Hrs) as Hmid.
  apply ranges_ok_mid in Hrs as (_ & _ & Hwc & _ & _).
  rewrite (rb_next_inorder _ l1 curr l2) by auto. cbv zeta.
  assert (inorder (rb_erase curr (block_free_tree fl)) = l1 ++ l2) as Ei
    by (by apply rb_erase_inorder).
  assert ((curr ∉ l1) /\ (curr ∉ l2)) as [Hc1 Hc2].
  { rewrite En in Hnd. by apply NoDup_mid in Hnd as [_ ?]. }
  set (fl1 := if decide (first_node fl = Some curr) then _ else _).
  assert (block_free_tree fl1 = block_free_tree fl /\ num_blocknode fl1 = num_blocknode fl /\
          num_free_blocks fl1 = num_free_blocks fl /\
          block_start fl1 = block_start fl /\ block_end fl1 = block_end fl)
    as (F1 & F2 & F3 & F4 & F5).
  { unfold fl1. case_decide; [done|]. by destruct (head l2). }
  assert (first_node fl1 = head (l1 ++ l2)) as F6.
  { unfold fl1. rewrite Hf, En. destruct l1 as [|x l1]; simpl.
    - by rewrite decide_True by done.
    - rewrite decide_False by (intros [= ->]; set_solver).
      destruct (head l2); simpl; by rewrite Hf, En. }
  assert (forall n, p_node fl1 = Some n -> n ∈ l1 ++ l2) as F7.
  { intros n. unfold fl1. rewrite Hf, En.
    destruct l1 as [|x l1], l2 as [|y l2]; simpl; case_decide; simpl;
      intros; simplify_eq; set_solver. }
  pose proof (range_size_pos _ Hwc) as Hsz.
  assert (0 <= range_low rc /\ range_low rc + range_size rc <= RANGE_LIMIT)
    by (unfold wf_range, range_size in *; lia).
  rewrite length_app in Hlim, Hnn. simpl in Hlim, Hnn.
  split; simpl; rewrite ?F1, ?F2, ?F3; rewrite ?Ei; auto.
  - destruct Hrs'. split; auto. simpl. rewrite Ei.
    apply holds_app; by apply holds_delete.
  - rewrite Hnn, !length_app. unfold RANGE_LIMIT in *. wrap. lia.
  - rewrite !sum_of_app. simpl. lia.
  - intros b. unfold range_size. in_ranges_solve.
  - intros b Hb. specialize (Hmid b Hb). unfold in_range, range_size in *. lia.
  - intros n Hn. apply lookup_delete_ne. rewrite En in Hn. set_solver.
  - rewrite En. set_solver.
Qed.

(** Taking the front of the node under the cursor. *)
Lemma take_part h fl rs nblocks l1 curr l2 q1 rc q2 :
  free_list_ok h fl rs -> inorder (block_free_tree fl) = l1 ++ curr :: l2 ->
  rs = q1 ++ rc :: q2 -> holds h l1 q1 -> h !! curr = Some rc -> holds h l2 q2 ->
  0 < nblocks < range_size rc ->
  taken h fl rs nblocks nblocks (range_low rc)
    (set_range_low curr (range_low rc + nblocks) h) (with_p_node (Some curr) fl)
    (q1 ++ RangeNode (range_low rc + nblocks) (range_high rc) :: q2).
Proof.
  intros [Ht Hf Hc Hcnt Hnn] En -> H1 Hcr H2 Hle.
  pose proof (tree_ok_ranges _ _ _ Ht) as Hrs.
  pose proof (tree_ok_NoDup _ _ _ Ht) as Hnd.
  pose proof (fun b => mid_disjoint b _ _ _ Hrs) as Hmid.
  apply ranges_ok_mid in Hrs as (Hr1 & Hr2 & Hwc & Hb & Ha).
  assert (range_size (RangeNode (range_low rc + nblocks) (range_high rc))
          = range_size rc - nblocks) as Hsz by (unfold range_size; simpl; lia).
  unfold wf_range, before in *.
  assert (range_low rc + range_size rc = range_high rc + 1) by (unfold range_size; lia).
  split; simpl; auto; try lia.
  - assert (ranges_ok (q1 ++ RangeNode (range_low rc + nblocks) (range_high rc) :: q2))
      as [? ?].
    { apply ranges_ok_mid. unfold wf_range, before; simpl. split_and!; auto; try lia.
      eapply Forall_impl; [exact Hb|]. simpl. intros; lia. }
    split; auto. simpl. rewrite En in *.
    apply (holds_alter h (fun r => RangeNode (range_low rc + nblocks) (range_high r)) curr
             l1 l2 q1 rc q2); auto.
  - rewrite En. intros n [= <-]. set_solver.
  - rewrite Hnn, !length_app. simpl. lia.
  - rewrite !sum_of_app. simpl. lia.
  - intros b. in_ranges_solve.
  - intros b. rewrite in_ranges_app, in_ranges_cons.
    specialize (Hmid b). rewrite in_ranges_app in Hmid. unfold in_range in *. simpl.
    intuition lia.
  - intros n Hn. apply lookup_alter_ne. rewrite En in Hn. set_solver.
Qed.

(** The search of the code finds a node as soon as there is one at the cursor
    that fits; it stops before the end of its fuel. *)
Lemma alloc_loop_spec h fl rs btype nblocks : forall l2 l1 temp fuel,
  free_list_ok h fl rs -> inorder (block_free_tree fl) = l1 ++ l2 -> temp = head l2 ->
  (length l2 <= fuel)%nat -> 0 < nblocks < 4503599627370496 * 2048 ->
  (exists k start h' fl' rs',
     alloc_loop fuel h fl btype nblocks temp = Some (Some (k, start), h', fl') /\
     taken h fl rs nblocks k start h' fl' rs' /\ (0 < btype -> k = nblocks)) \/
  (alloc_loop fuel h fl btype nblocks temp = Some (None, h, fl) /\ (l2 = [] \/ 0 < btype)).
Proof.
  induction l2 as [|curr l2 IH]; intros l1 temp fuel Hfl En -> Hfuel Hnb.
  - right. split; [by destruct fuel|by left].
  - destruct fuel as [|fuel]; [simpl in Hfuel; lia|]. simpl head. simpl alloc_loop.
    pose proof (fl_tree _ _ _ Hfl) as Ht.
    pose proof (tree_ok_NoDup _ _ _ Ht) as Hnd.
    pose proof (tree_ok_ranges _ _ _ Ht) as Hrs.
    pose proof (tree_holds _ _ _ Ht) as Hh. rewrite En in Hh.
    apply holds_app_inv in Hh as (q1 & q2' & -> & H1 & H2).
    apply holds_cons_inv in H2 as (rc & q2 & -> & Hcr & H2).
    apply ranges_ok_mid in Hrs as (_ & _ & Hwc & _ & _).
    rewrite Hcr. simpl.
    replace (u64 (range_high rc - range_low rc + 1)) with (range_size rc)
      by (unfold wf_range, RANGE_LIMIT, range_size in *; wrap; done).
    assert (0 < range_size rc) by (unfold wf_range, range_size in *; lia).
    destruct (range_size rc <=? nblocks) eqn:C1; bool_hyps.
    + destruct ((0 <? btype) && (range_size rc <? nblocks)) eqn:C2; bool_hyps.
      * destruct (IH (l1 ++ [curr]) (rb_next (block_free_tree fl) curr) fuel Hfl)
          as [(k & st & h' & fl' & rs' & E & Ht' & Hk)|[E Hk]]; auto.
        { by rewrite <- app_assoc. }
        { by apply rb_next_inorder with l1. }
        { simpl in Hfuel. lia. }
        { left. rewrite E. eauto 10. }
      * left. do 4 eexists. exists (q1 ++ q2). split; [done|].
        split; [by apply take_whole with l1 l2|].
        intros Hbt. apply andb_false_iff in C2 as [C2|C2]; bool_hyps; lia.
    + left. do 4 eexists.
      exists (q1 ++ RangeNode (range_low rc + nblocks) (range_high rc) :: q2).
      split; [done|]. split; [|done].
      replace (u64 (range_low rc + nblocks)) with (range_low rc + nblocks)
        by (unfold wf_range, RANGE_LIMIT, range_size in *; wrap; done).
      apply take_part with l1 l2; auto. lia.
Qed.

(** What an allocation establishes for the list. *)
Lemma alloc_in_list_ok h fl rs btype nblocks :
  free_list_ok h fl rs -> 0 < nblocks < 4503599627370496 * 2048 ->
  (exists k start h' fl' rs',
     nova_alloc_blocks_in_free_list h fl btype nblocks = Some (k, start, h', fl') /\
     free_list_ok h' fl' rs' /\ 0 < k <= nblocks /\ 0 <= start /\ start + k <= RANGE_LIMIT /\
     (0 < btype -> k = nblocks) /\
     (forall b, in_ranges b rs <-> in_ranges b rs' \/ start <= b < start + k) /\
     (forall b, in_ranges b rs' -> ~ start <= b < start + k) /\
     changes_only h h' (inorder (block_free_tree fl)) /\
     (forall n, n ∈ inorder (block_free_tree fl') -> n ∈ inorder (block_free_tree fl))) \/
  (nova_alloc_blocks_in_free_list h fl btype nblocks = Some (u64 (- ENOSPC), 0, h, fl) /\
   (p_node fl = None \/ 0 < btype)).
Proof.
  intros Hfl Hnb. unfold nova_alloc_blocks_in_free_list.
  pose proof (fl_tree _ _ _ Hfl) as Ht. pose proof (tree_ok_ranges _ _ _ Ht) as Hrs.
  pose proof (sum_ranges_limit _ Hrs). 
  assert (exists l1 l2, inorder (block_free_tree fl) = l1 ++ l2 /\ p_node fl = head l2 /\
            (l2 = [] -> p_node fl = None)) as (l1 & l2 & En & Hp & Hl).
  { destruct (p_node fl) as [n|] eqn:E.
    - apply (fl_cursor _ _ _ Hfl) in E.
      apply list_elem_of_split in E as (l1 & l2 & E). by exists l1, (n :: l2).
    - exists (inorder (block_free_tree fl)), []. by rewrite app_nil_r. }
  destruct (alloc_loop_spec h fl rs btype nblocks l2 l1 (p_node fl)
              (length (inorder (block_free_tree fl))) Hfl En Hp)
    as [(k & st & h' & fl' & rs' & E & Htk & Hk)|[E Hk]].
  { rewrite En, length_app. lia. }
  { lia. }
  - left. rewrite E. simpl. destruct Htk.
    pose proof (tree_ok_ranges _ _ _ taken_tree0) as Hrs'.
    pose proof (sum_ranges_nonneg _ Hrs').
    do 4 eexists. exists rs'. split; [done|]. split; [|split_and!; auto; lia].
    split; simpl; auto. rewrite taken_free0, (fl_count _ _ _ Hfl).
    unfold RANGE_LIMIT in *. wrap. lia.
  - right. rewrite E. simpl. split; [done|]. destruct Hk; auto.
Qed.
End alloc.
