(* ===== verification/BallocSpec.v ===== *)
(** * The allocator as a set of free blocks (balloc.c)

    The invariant of the whole allocator and the refinement of the file-system
    level operations: allocation removes exactly the blocks it returns from the
    set of free blocks, freeing adds exactly the blocks it is given, a failure
    changes nothing, and no operation faults. *)

From S2P Require Import Prelude Layout RangeTree State Balloc BallocFacts.

(** ** The invariant *)

(** The lists: one per CPU and the shared one. *)
Definition valid_cpu (sbi : nova_sb_info) (c : Z) : Prop :=
  0 <= c < cpus sbi \/ c = SHARED_CPU.

(** The list a block belongs to. *)
Definition home (sbi : nova_sb_info) (b : Z) : Z :=
  let c := b / per_list_blocks sbi in
  if cpus sbi <=? c then SHARED_CPU else c.

(** [R c] are the ranges of list [c]. *)
Record balloc_ok (sbi : nova_sb_info) (R : Z -> list nova_range_node) : Prop := {
  bo_cpus : cpus sbi = Z.of_nat (length (free_lists sbi)) /\ 0 < cpus sbi <= 64;
  bo_size : 0 < per_list_blocks sbi /\
            num_blocks sbi < cpus sbi * (per_list_blocks sbi + 1) /\
            num_blocks sbi < 2147483648;
  bo_list c fl : valid_cpu sbi c -> nova_get_free_list sbi c = Some fl ->
    free_list_ok (range_nodes sbi) fl (R c);
  bo_apart c d fl fl' n : valid_cpu sbi c -> valid_cpu sbi d -> c <> d ->
    nova_get_free_list sbi c = Some fl -> nova_get_free_list sbi d = Some fl' ->
    n ∈ inorder (block_free_tree fl) -> n ∉ inorder (block_free_tree fl');
  bo_home c b : valid_cpu sbi c -> in_ranges b (R c) ->
    0 < b < num_blocks sbi /\ home sbi b = c;
}.

(** The abstract state: the set of free blocks. *)
Definition free_block (sbi : nova_sb_info) (R : Z -> list nova_range_node) (b : Z) : Prop :=
  exists c, valid_cpu sbi c /\ in_ranges b (R c).

(** Nodes that belong to some free list. *)
Definition block_node (sbi : nova_sb_info) (n : ptr) : Prop :=
  exists c fl, valid_cpu sbi c /\ nova_get_free_list sbi c = Some fl /\
    n ∈ inorder (block_free_tree fl).

(** Range nodes of other owners are left alone and do not enter a free list. *)
Definition nodes_frame (sbi sbi' : nova_sb_info) : Prop :=
  forall n r, range_nodes sbi !! n = Some r -> ~ block_node sbi n ->
              range_nodes sbi' !! n = Some r /\ ~ block_node sbi' n.

Lemma nodes_frame_refl sbi : nodes_frame sbi sbi.
Proof. by intros n r. Qed.

Lemma nodes_frame_trans sbi1 sbi2 sbi3 :
  nodes_frame sbi1 sbi2 -> nodes_frame sbi2 sbi3 -> nodes_frame sbi1 sbi3.
Proof. intros H1 H2 n r Hr Hn. destruct (H1 n r Hr Hn). auto. Qed.

#[export] Hint Resolve nodes_frame_refl nodes_frame_trans : nova.

(** The geometry an operation keeps. *)
Record same_geometry (sbi sbi' : nova_sb_info) : Prop := {
  sg_virt : virt_addr sbi' = virt_addr sbi;
  sg_cpus : cpus sbi' = cpus sbi;
  sg_blocks : num_blocks sbi' = num_blocks sbi;
  sg_per : per_list_blocks sbi' = per_list_blocks sbi;
  sg_maps : inode_maps sbi' = inode_maps sbi;
  sg_tables : inode_page_mapping_tables sbi' = inode_page_mapping_tables sbi /\
    inode_page_mapping_table_locks sbi' = inode_page_mapping_table_locks sbi;
  sg_map_id : map_id sbi' = map_id sbi;
  sg_used : s_inodes_used_count sbi' = s_inodes_used_count sbi;
  sg_reserved : reserved_blocks sbi' = reserved_blocks sbi;
}.

Definition set_ranges (c : Z) (rs : list nova_range_node) (R : Z -> list nova_range_node) :
    Z -> list nova_range_node :=
  fun d => if decide (d = c) then rs else R d.

(** ** Selecting and writing back a list *)

Lemma valid_cpu_get sbi R c :
  balloc_ok sbi R -> valid_cpu sbi c -> exists fl, nova_get_free_list sbi c = Some fl.
Proof.
  intros Hok Hc. destruct (bo_cpus _ _ Hok) as [Hl ?]. unfold nova_get_free_list.
  destruct Hc as [Hc| ->].
  - rewrite (proj2 (Z.ltb_lt _ _)), (proj2 (Z.ltb_ge _ _)) by lia.
    apply lookup_lt_is_Some. lia.
  - unfold SHARED_CPU. rewrite (proj2 (Z.ltb_ge _ _)) by lia. eauto.
Qed.

Lemma get_put_same sbi R c fl :
  balloc_ok sbi R -> valid_cpu sbi c -> nova_get_free_list (put_free_list sbi c fl) c = Some fl.
Proof.
  intros Hok Hc. destruct (bo_cpus _ _ Hok) as [Hl ?].
  unfold put_free_list, nova_get_free_list.
  destruct Hc as [Hc| ->].
  - rewrite (proj2 (Z.ltb_lt _ (cpus sbi))) by lia. simpl.
    rewrite (proj2 (Z.ltb_lt _ (cpus sbi))), (proj2 (Z.ltb_ge _ 0)) by lia.
    apply list_lookup_insert_eq. lia.
  - unfold SHARED_CPU. rewrite (proj2 (Z.ltb_ge _ (cpus sbi))) by lia. simpl.
    by rewrite (proj2 (Z.ltb_ge _ (cpus sbi))) by lia.
Qed.

Lemma get_put_other sbi R c d fl :
  balloc_ok sbi R -> valid_cpu sbi c -> valid_cpu sbi d -> c <> d ->
  nova_get_free_list (put_free_list sbi c fl) d = nova_get_free_list sbi d.
Proof.
  intros Hok Hc Hd Hne. destruct (bo_cpus _ _ Hok) as [Hl ?].
  unfold put_free_list, nova_get_free_list, valid_cpu, SHARED_CPU in *.
  destruct (c <? cpus sbi) eqn:Ec; simpl; [|destruct (d <? cpus sbi) eqn:Ed; [done|]];
    bool_hyps; [|lia].
  destruct (d <? cpus sbi) eqn:Ed; [|done]. bool_hyps.
  rewrite (proj2 (Z.ltb_ge d 0)) by lia.
  apply list_lookup_insert_ne. lia.
Qed.

Lemma put_free_list_fields sbi c fl :
  same_geometry sbi (put_free_list sbi c fl) /\
  range_nodes (put_free_list sbi c fl) = range_nodes sbi /\
  nvm (put_free_list sbi c fl) = nvm sbi /\
  length (free_lists (put_free_list sbi c fl)) = length (free_lists sbi).
Proof.
  unfold put_free_list. destruct (c <? cpus sbi); simpl;
    rewrite ?length_insert; split_and!; auto; by constructor.
Qed.

(** ** Replacing one list *)

Section update.
Context (sbi : nova_sb_info) (R : Z -> list nova_range_node) (c : Z).
Context (fl fl' : free_list) (h' : node_heap) (rs' : list nova_range_node).
Context (fresh : option ptr).

Hypothesis Hok : balloc_ok sbi R.
Hypothesis Hc : valid_cpu sbi c.
Hypothesis Hget : nova_get_free_list sbi c = Some fl.
Hypothesis Hfl' : free_list_ok h' fl' rs'.
(** [h'] differs from the old heap in the nodes of the list and in [fresh],
    which was not live. *)
Hypothesis Hframe : changes_only (range_nodes sbi) h'
  (option_list fresh ++ inorder (block_free_tree fl)).
Hypothesis Hfresh : forall n, fresh = Some n -> range_nodes sbi !! n = None.
Hypothesis Hsub : forall n, n ∈ inorder (block_free_tree fl') ->
  fresh = Some n \/ n ∈ inorder (block_free_tree fl).
Hypothesis Hhome : forall b, in_ranges b rs' -> 0 < b < num_blocks sbi /\ home sbi b = c.

Definition updated : nova_sb_info := with_range_nodes h' (put_free_list sbi c fl').

Lemma updated_geometry : same_geometry sbi updated.
Proof. unfold updated. destruct (put_free_list_fields sbi c fl') as [[] _]. by split. Qed.

Lemma updated_get d :
  valid_cpu sbi d ->
  nova_get_free_list updated d =
    if decide (d = c) then Some fl' else nova_get_free_list sbi d.
Proof.
  intros Hd. change (nova_get_free_list updated d)
    with (nova_get_free_list (put_free_list sbi c fl') d).
  case_decide as Hdc; [subst; eauto using get_put_same|].
  eapply get_put_other; eauto.
Qed.

(** Live nodes of another list are not touched. *)
Lemma updated_other d gl n :
  valid_cpu sbi d -> d <> c -> nova_get_free_list sbi d = Some gl ->
  n ∈ inorder (block_free_tree gl) ->
  (n ∉ option_list fresh ++ inorder (block_free_tree fl)).
Proof.
  intros Hd Hne Hg Hn. rewrite elem_of_app. intros [Hf|Hf].
  - apply elem_of_option_list in Hf.
    pose proof (bo_list _ _ Hok _ _ Hd Hg) as [[Hh _ _] _ _ _ _].
    destruct (holds_in _ _ _ _ Hh Hn) as (r & Hr & _).
    by rewrite (Hfresh n Hf) in Hr.
  - by apply (bo_apart _ _ Hok d c gl fl n).
Qed.

Lemma updated_ok : balloc_ok updated (set_ranges c rs' R).
Proof.
  pose proof (put_free_list_fields sbi c fl') as ([] & _ & _ & Hlen).
  assert (forall d, valid_cpu updated d <-> valid_cpu sbi d) as Hv.
  { intros d. unfold valid_cpu. simpl. by rewrite sg_cpus0. }
  assert (forall b, home updated b = home sbi b) as Hh.
  { intros b. unfold home. simpl. by rewrite sg_cpus0, sg_per0. }
  split; simpl; rewrite ?sg_cpus0, ?sg_per0, ?sg_blocks0, ?Hlen; try apply Hok.
  - intros d gl Hd Hg. apply Hv in Hd. rewrite updated_get in Hg by done.
    unfold set_ranges. case_decide as Hdc; [by simplify_eq|].
    pose proof (bo_list _ _ Hok _ _ Hd Hg) as [[Ht ? ?] ? ? ? ?].
    split; auto. split; auto. eapply holds_frame; [exact Ht|].
    intros n Hn. apply Hframe. by eapply updated_other.
  - intros d e gd ge n Hd He Hne Hgd Hge Hn. apply Hv in Hd, He.
    rewrite updated_get in Hgd, Hge by done.
    destruct (decide (d = c)) as [->|Hdc], (decide (e = c)) as [->|Hec]; simplify_eq.
    + intros Hn'. eapply (updated_other e ge n); eauto.
      apply Hsub in Hn as [Hn|Hn]; apply elem_of_app; [left|by right].
      by apply elem_of_option_list.
    + intros Hn'. eapply (updated_other d gd n); eauto.
      apply Hsub in Hn' as [Hn'|Hn']; apply elem_of_app; [left|by right].
      by apply elem_of_option_list.
    + eapply (bo_apart _ _ Hok d e); eauto.
  - intros d b Hd Hb. apply Hv in Hd. rewrite Hh. unfold set_ranges in Hb.
    case_decide as Hdc; [subst d; by apply Hhome|]. by apply (bo_home _ _ Hok).
Qed.

Lemma updated_free b :
  free_block updated (set_ranges c rs' R) b <->
  in_ranges b rs' \/ exists d, valid_cpu sbi d /\ d <> c /\ in_ranges b (R d).
Proof.
  pose proof updated_geometry as []. unfold free_block, valid_cpu, set_ranges.
  rewrite sg_cpus0. split.
  - intros (d & Hd & Hin). case_decide; [by left|right; eauto].
  - intros [Hin|(d & Hd & Hne & Hin)].
    + exists c. split; [exact Hc|]. by rewrite decide_True.
    + exists d. split; [done|]. by rewrite decide_False.
Qed.

(** Nodes outside the free lists are not touched. *)
Lemma updated_foreign n r :
  range_nodes sbi !! n = Some r -> ~ block_node sbi n -> h' !! n = Some r.
Proof.
  intros Hr Hb. rewrite <- Hr. apply Hframe. rewrite elem_of_app. intros [Hf|Hf].
  - apply elem_of_option_list in Hf. by rewrite (Hfresh n Hf) in Hr.
  - apply Hb. exists c, fl. auto.
Qed.

Lemma updated_nodes_frame : nodes_frame sbi updated.
Proof.
  intros n r Hr Hb. split; [by apply updated_foreign|]. intros (d & gl & Hd & Hg & Hn).
  assert (valid_cpu sbi d) as Hd'
    by (revert Hd; unfold valid_cpu; by rewrite (sg_cpus _ _ updated_geometry)).
  rewrite updated_get in Hg by done. apply Hb. case_decide; simplify_eq.
  - apply Hsub in Hn as [Hn|Hn]; [by rewrite (Hfresh n Hn) in Hr|]. by exists c, fl.
  - by exists d, gl.
Qed.
End update.

(** Writing back what was read changes nothing. *)
Lemma put_get_same sbi c fl :
  nova_get_free_list sbi c = Some fl -> put_free_list sbi c fl = sbi.
Proof.
  unfold nova_get_free_list, put_free_list. destruct (c <? cpus sbi).
  - destruct (c <? 0); [done|]. intros Hl. destruct sbi; simpl in *.
    unfold with_free_lists; simpl. by rewrite list_insert_id.
  - intros [= <-]. by destruct sbi.
Qed.

(** ** Freeing *)

Section free_ops.
Context `{RbTreeLaws} (slab_garbage : nova_range_node).
Implicit Types (sbi : nova_sb_info) (R : Z -> list nova_range_node).

Lemma home_valid sbi R b :
  balloc_ok sbi R -> 0 <= b < num_blocks sbi -> valid_cpu sbi (home sbi b).
Proof.
  intros Hok Hb. destruct (bo_size _ _ Hok) as (Hper & _ & _).
  unfold home, valid_cpu. case_cmp; [by right|left].
  pose proof (Z.div_pos b (per_list_blocks sbi)). lia.
Qed.

(** The list the code selects is the block's home. *)
Lemma cpuid_home sbi R b :
  balloc_ok sbi R -> 0 <= b < num_blocks sbi ->
  (if cpus sbi <=? i32 (b / per_list_blocks sbi) then SHARED_CPU
   else i32 (b / per_list_blocks sbi)) = home sbi b.
Proof.
  intros Hok Hb. destruct (bo_size _ _ Hok) as (Hper & _ & Hsz).
  pose proof (Z.div_pos b (per_list_blocks sbi)).
  assert (b / per_list_blocks sbi <= b) by (apply Z.div_le_upper_bound; nia).
  wrap. done.
Qed.

(** Free blocks are the ranges of their home list. *)
Lemma free_block_home sbi R b :
  balloc_ok sbi R -> free_block sbi R b <->
  valid_cpu sbi (home sbi b) /\ in_ranges b (R (home sbi b)).
Proof.
  intros Hok. split.
  - intros (c & Hc & Hin). destruct (bo_home _ _ Hok c b Hc Hin) as [? ->]. auto.
  - intros [? ?]. by exists (home sbi b).
Qed.

(** What a successful free of [b .. b+n-1] means. *)
Definition freed_blocks sbi R (b n : Z) sbi' : Prop :=
  exists R', balloc_ok sbi' R' /\
    (forall x, free_block sbi' R' x <-> free_block sbi R x \/ b <= x < b + n).

(** What every call leaves alone: the geometry, the persistent memory, and the
    range nodes of other owners. *)
Definition preserves sbi sbi' : Prop :=
  same_geometry sbi sbi' /\ nvm sbi' = nvm sbi /\ nodes_frame sbi sbi'.

Lemma preserves_refl sbi : preserves sbi sbi.
Proof. split_and!; auto with nova. by constructor. Qed.

(** Every block of the range has the same home list, and none is free. *)
Definition freeable sbi R (b n : Z) : Prop :=
  forall x, b <= x < b + n -> home sbi x = home sbi b /\ ~ free_block sbi R x.

(** The list of a freed range, written back. *)
Lemma freed_blocks_intro sbi R b n fl curr h' fl' rs' :
  balloc_ok sbi R -> 0 < b -> 0 < n -> b + n <= num_blocks sbi -> freeable sbi R b n ->
  nova_get_free_list sbi (home sbi b) = Some fl -> range_nodes sbi !! curr = None ->
  free_list_ok h' fl' rs' ->
  (forall x, in_ranges x rs' <-> in_ranges x (R (home sbi b)) \/ b <= x <= b + n - 1) ->
  changes_only (range_nodes sbi) h' (option_list (Some curr) ++ inorder (block_free_tree fl)) ->
  (forall m, m ∈ inorder (block_free_tree fl') -> m = curr \/ m ∈ inorder (block_free_tree fl)) ->
  let sbi' := updated sbi (home sbi b) fl' h' in
  preserves sbi sbi' /\ freed_blocks sbi R b n sbi'.
Proof.
  intros Hok Hb Hn Hle Hfree Hget Hcurr Hok' Hset Hfr Hsub sbi'.
  pose proof (home_valid sbi R b Hok ltac:(lia)) as Hc.
  assert (forall m, Some curr = Some m -> range_nodes sbi !! m = None) as Hfresh
    by (by intros m [= <-]).
  assert (forall m, m ∈ inorder (block_free_tree fl') ->
    Some curr = Some m \/ m ∈ inorder (block_free_tree fl)) as Hsub'
    by (intros m Hm; destruct (Hsub m Hm); subst; auto).
  split.
  { split_and!; [apply (updated_geometry sbi (home sbi b) fl' h')| |].
    - apply (put_free_list_fields sbi (home sbi b) fl').
    - by eapply (updated_nodes_frame sbi R (home sbi b) fl fl' h' (Some curr)). }
  exists (set_ranges (home sbi b) rs' R). split.
  - eapply (updated_ok sbi R (home sbi b) fl fl' h' rs' (Some curr)); eauto.
    intros x Hx. apply Hset in Hx as [Hx|Hx]; [by apply (bo_home _ _ Hok)|].
    destruct (Hfree x ltac:(lia)) as [Hh _]. split; [lia|done].
  - intros x. unfold sbi'. rewrite updated_free by done. rewrite Hset. split.
    + intros [[Hx|Hx]|(d & Hd & _ & Hx)]; [left; by exists (home sbi b)|right; lia|].
      left. by exists d.
    + intros [(d & Hd & Hx)|Hx]; [|left; right; lia].
      destruct (decide (d = home sbi b)); [subst; auto|]. right. eauto.
Qed.

Lemma nova_free_blocks_spec sbi R b num btype log_page :
  balloc_ok sbi R -> 0 < num -> 0 < b ->
  b + nova_get_numblocks btype * num <= num_blocks sbi ->
  freeable sbi R b (nova_get_numblocks btype * num) ->
  exists ret sbi',
    nova_free_blocks slab_garbage sbi b num btype log_page = Some (ret, sbi') /\
    preserves sbi sbi' /\
    ((ret = 0 /\ freed_blocks sbi R b (nova_get_numblocks btype * num) sbi') \/
     (ret = - ENOMEM /\ sbi' = sbi /\ kmem_cache_alloc (range_nodes sbi) = None)).
Proof.
  intros Hok Hnum Hb Hle Hfree.
  assert (0 < nova_get_numblocks btype * num) as Hn
    by (unfold nova_get_numblocks; repeat case_cmp; lia).
  set (n := nova_get_numblocks btype * num) in *.
  destruct (bo_size _ _ Hok) as (Hper & _ & Hsz).
  unfold nova_free_blocks. rewrite (proj2 (Z.leb_gt num 0)) by lia.
  rewrite (proj2 (Z.eqb_neq _ 0)) by lia. cbv zeta.
  rewrite (cpuid_home sbi R b Hok) by lia. fold n.
  pose proof (home_valid sbi R b Hok ltac:(lia)) as Hc.
  destruct (valid_cpu_get sbi R _ Hok Hc) as [fl Hget].
  pose proof (bo_list _ _ Hok _ _ Hc Hget) as Hfl.
  unfold nova_alloc_range_node.
  destruct (kmem_cache_alloc (range_nodes sbi)) as [curr|] eqn:Ea;
    [|eexists _, sbi; split_and!; eauto using preserves_refl].
  apply kmem_cache_alloc_fresh in Ea. rewrite Hget. simpl.
  rewrite (u64_small n), (u64_small (b + n - 1)) by lia.
  assert (curr ∉ inorder (block_free_tree fl)) as Hnin.
  { intros Hin. destruct (holds_in _ _ _ _ (tree_holds _ _ _ (fl_tree _ _ _ Hfl)) Hin)
      as (? & ? & _). congruence. }
  set (h1 := <[curr:=slab_garbage]> (range_nodes sbi)).
  assert (free_list_ok h1 fl (R (home sbi b))) as Hfl1.
  { destruct Hfl as [[] ? ? ? ?]. split; auto. split; auto. by apply holds_insert. }
  destruct (free_in_list_ok h1 fl (R (home sbi b)) curr slab_garbage b (b + n - 1) n log_page)
    as (h' & fl' & rs' & E & Hok' & Hset & Hframe & Hsub & _); auto; try lia.
  { apply lookup_insert_eq. }
  { unfold RANGE_LIMIT. lia. }
  { intros x Hin Hx. destruct (Hfree x ltac:(lia)) as [Hh Hnf].
    apply Hnf. apply (free_block_home _ _ _ Hok). by rewrite Hh. }
  rewrite E. simpl. eexists _, _. split; [done|].
  destruct (freed_blocks_intro sbi R b n fl curr h' fl' rs') as [Hpre Hfb]; auto.
  intros m Hm. simpl in Hm. rewrite (Hframe m) by set_solver. apply lookup_insert_ne. set_solver.
Qed.

(** Freeing a range whose first block is free already is refused. *)
Lemma nova_free_blocks_double sbi R b num btype log_page :
  balloc_ok sbi R -> 0 < num -> free_block sbi R b ->
  exists ret, nova_free_blocks slab_garbage sbi b num btype log_page = Some (ret, sbi) /\
    (ret = - EINVAL \/ ret = - ENOMEM).
Proof.
  intros Hok Hnum Hfb. apply (free_block_home _ _ _ Hok) in Hfb as [Hc Hin].
  destruct (bo_home _ _ Hok _ _ Hc Hin) as [Hb _].
  destruct (bo_size _ _ Hok) as (Hper & _ & Hsz).
  unfold nova_free_blocks. rewrite (proj2 (Z.leb_gt num 0)) by lia.
  rewrite (proj2 (Z.eqb_neq _ 0)) by lia. cbv zeta.
  rewrite (cpuid_home sbi R b Hok) by lia.
  destruct (valid_cpu_get sbi R _ Hok Hc) as [fl Hget].
  pose proof (bo_list _ _ Hok _ _ Hc Hget) as Hfl.
  unfold nova_alloc_range_node.
  destruct (kmem_cache_alloc (range_nodes sbi)) as [curr|] eqn:Ea; [|eauto].
  apply kmem_cache_alloc_fresh in Ea. rewrite Hget. simpl.
  rewrite (free_in_list_refused _ _ (R (home sbi b))); [|clear Hget|done].
  - simpl. exists (- EINVAL). split; [|by left]. rewrite (put_get_same _ _ _ Hget).
    unfold nova_free_range_node. rewrite delete_insert_id by done. by destruct sbi.
  - destruct Hfl as [[Hh ? ?] ? ? ? ?]. split; auto. split; auto.
    apply holds_insert; [|done]. intros Hin'.
    destruct (holds_in _ _ _ _ Hh Hin') as (? & ? & _). congruence.
Qed.
End free_ops.

(** ** Allocating *)

Section alloc_ops.
Context `{RbTreeLaws}.
Implicit Types (sbi : nova_sb_info) (R : Z -> list nova_range_node).

(** What a successful allocation of [n] blocks at [nr] means. *)
Definition took_blocks sbi R (nr n : Z) sbi' : Prop :=
  0 < nr /\ nr + n <= num_blocks sbi /\
  exists R', balloc_ok sbi' R' /\ freeable sbi' R' nr n /\
    (forall x, free_block sbi R x <-> free_block sbi' R' x \/ nr <= x < nr + n).

(** What an allocation leaves alone: everything but the free lists, and the
    memory of the new blocks when they are zeroed. *)
Definition alloc_frame sbi (zero nr n : Z) sbi' : Prop :=
  same_geometry sbi sbi' /\ nodes_frame sbi sbi' /\
  nvm sbi' = if negb (zero =? 0)
             then memset0 (nvm sbi) (nova_get_block (virt_addr sbi) (nova_get_block_off nr))
                    (u32 (PAGE_SIZE * n))
             else nvm sbi.

Lemma alloc_account_fields fl atype n :
  let fl' := alloc_account fl atype n in
  block_free_tree fl' = block_free_tree fl /\ first_node fl' = first_node fl /\
  p_node fl' = p_node fl /\ num_blocknode fl' = num_blocknode fl /\
  num_free_blocks fl' = num_free_blocks fl.
Proof. by destruct atype. Qed.

Lemma alloc_account_ok h fl rs atype n :
  free_list_ok h fl rs -> free_list_ok h (alloc_account fl atype n) rs.
Proof.
  intros []. destruct (alloc_account_fields fl atype n) as (E1 & E2 & E3 & E4 & E5).
  split; rewrite ?E1, ?E2, ?E3, ?E4, ?E5; auto.
Qed.

(** A stretch of free blocks inside one range: all have the same home. *)
Lemma taken_region sbi R c rs' nr n :
  balloc_ok sbi R -> valid_cpu sbi c -> 0 < n ->
  (forall b, in_ranges b (R c) <-> in_ranges b rs' \/ nr <= b < nr + n) ->
  0 < nr /\ nr + n <= num_blocks sbi /\
  (forall x, nr <= x < nr + n -> home sbi x = c) /\
  (forall b, in_ranges b rs' -> 0 < b < num_blocks sbi /\ home sbi b = c).
Proof.
  intros Hok Hc Hn Hset.
  assert (forall x, nr <= x < nr + n -> 0 < x < num_blocks sbi /\ home sbi x = c) as Hx.
  { intros x Hx. apply (bo_home _ _ Hok); [done|]. apply Hset. by right. }
  split_and!; [apply (Hx nr); lia | |intros; by apply Hx|].
  - assert (0 < nr + n - 1 < num_blocks sbi /\ home sbi (nr + n - 1) = c)
      by (apply Hx; lia). lia.
  - intros b Hb. apply (bo_home _ _ Hok); [done|]. apply Hset. by left.
Qed.

(** The blocks taken from one list are taken from the file system. *)
Lemma took_updated sbi R c fl0 fl2 h' rs' nr n :
  balloc_ok sbi R -> valid_cpu sbi c -> nova_get_free_list sbi c = Some fl0 ->
  free_list_ok h' fl2 rs' -> 0 < n ->
  changes_only (range_nodes sbi) h' (inorder (block_free_tree fl0)) ->
  (forall m, m ∈ inorder (block_free_tree fl2) -> m ∈ inorder (block_free_tree fl0)) ->
  (forall b, in_ranges b (R c) <-> in_ranges b rs' \/ nr <= b < nr + n) ->
  (forall b, in_ranges b rs' -> ~ nr <= b < nr + n) ->
  took_blocks sbi R nr n (updated sbi c fl2 h').
Proof.
  intros Hok Hc Hget Hfl2 Hn Hframe Hsub Hset Hdis.
  destruct (taken_region sbi R c rs' nr n Hok Hc Hn Hset) as (Hnr & Hend & Hhome & Hrs').
  split; [done|]. split; [done|]. exists (set_ranges c rs' R).
  assert (forall x, free_block (updated sbi c fl2 h') (set_ranges c rs' R) x <->
          in_ranges x rs' \/ exists d, valid_cpu sbi d /\ d <> c /\ in_ranges x (R d)) as Hfb
    by (intros x; by apply updated_free).
  destruct (updated_geometry sbi c fl2 h') as [_ Gc _ Gp _ _ _ _ _].
  split; [|split].
  - eapply (updated_ok sbi R c fl0 fl2 h' rs' None); eauto; done.
  - intros x Hx. split.
    + unfold home. rewrite Gc, Gp. fold (home sbi x). fold (home sbi nr).
      rewrite !Hhome by lia. done.
    + rewrite Hfb. intros [Hin|(d & Hd & Hne & Hin)]; [by apply (Hdis x)|].
      destruct (bo_home _ _ Hok d x Hd Hin) as [_ <-]. by rewrite Hhome in Hne.
  - intros x. rewrite Hfb. split.
    + intros (d & Hd & Hin). destruct (decide (d = c)) as [->|Hne].
      * apply Hset in Hin. tauto.
      * left. right. eauto.
    + intros [[Hin|(d & Hd & Hne & Hin)]|Hx]; [|by exists d|]; exists c; split; auto;
        apply Hset; auto.
Qed.

(** The persistent memory plays no part in the allocator's state. *)
Lemma took_with_nvm sbi R nr n sbi' m :
  took_blocks sbi R nr n sbi' -> took_blocks sbi R nr n (with_nvm m sbi').
Proof.
  intros (? & ? & R' & Hok & Hfr & Hset). split; [done|]. split; [done|].
  exists R'. split; [|by split]. destruct Hok. split; auto.
Qed.

Lemma set_ranges_same c R d : set_ranges c (R c) R d = R d.
Proof. unfold set_ranges. case_decide; [by subst|done]. Qed.

(** A list whose tree did not change keeps the ranges. *)
Lemma updated_noop sbi R c fl0 fl2 :
  balloc_ok sbi R -> valid_cpu sbi c -> nova_get_free_list sbi c = Some fl0 ->
  free_list_ok (range_nodes sbi) fl2 (R c) -> block_free_tree fl2 = block_free_tree fl0 ->
  balloc_ok (updated sbi c fl2 (range_nodes sbi)) R /\
  preserves sbi (updated sbi c fl2 (range_nodes sbi)).
Proof.
  intros Hok Hc Hget Hfl2 Htree. split.
  - destruct (updated_ok sbi R c fl0 fl2 (range_nodes sbi) (R c) None)
      as [B1 B2 B3 B4 B5]; auto; try done.
    + intros m Hm. rewrite Htree in Hm. by right.
    + intros b Hb. by apply (bo_home _ _ Hok).
    + split; auto.
      * intros d gl Hd Hg. rewrite <- (set_ranges_same c R d). by apply B3.
      * intros d x Hd Hx. rewrite <- (set_ranges_same c R d) in Hx. by apply B5.
  - split; [apply updated_geometry|]. split; [apply (put_free_list_fields sbi c fl2)|].
    eapply (updated_nodes_frame sbi R c fl0 fl2 _ None); eauto; try done.
    intros m Hm. rewrite Htree in Hm. by right.
Qed.

Lemma take_blocks_spec sbi R c fl0 fl nblocks btype zero atype old :
  balloc_ok sbi R -> valid_cpu sbi c -> nova_get_free_list sbi c = Some fl0 ->
  block_free_tree fl = block_free_tree fl0 -> free_list_ok (range_nodes sbi) fl (R c) ->
  0 < nblocks < 4503599627370496 * 2048 ->
  exists ret nr sbi', take_blocks sbi c fl nblocks btype zero atype old = Some (ret, nr, sbi') /\
    ((exists k, 0 < k <= nblocks /\ (0 < btype -> k = nblocks) /\
        ret = i32 (k / nova_get_numblocks btype) /\
        took_blocks sbi R nr k sbi' /\ alloc_frame sbi zero nr k sbi') \/
     (ret = - ENOSPC /\ nr = old /\ preserves sbi sbi' /\ (p_node fl = None \/ 0 < btype) /\
      balloc_ok sbi' R)).
Proof.
  intros Hok Hc Hget Htree Hfl Hnb. unfold take_blocks.
  destruct (alloc_in_list_ok (range_nodes sbi) fl (R c) btype nblocks Hfl Hnb)
    as [(k & st & h' & fl' & rs' & E & Hok' & Hk & Hst & Hlim & Hbt & Hset & Hdis & Hframe & Hsub)
       |[E Hp]]; rewrite E; simpl.
  - rewrite Htree in Hframe, Hsub.
    destruct (taken_region sbi R c rs' st k Hok Hc ltac:(lia) Hset) as (Hst0 & _).
    rewrite (proj2 (Z.leb_gt k 0)), (proj2 (Z.eqb_neq st 0)) by lia. simpl.
    pose proof (alloc_account_ok _ _ _ atype k Hok') as Hacc.
    pose proof (proj1 (alloc_account_fields fl' atype k)) as E1. simpl in E1.
    set (fl2 := alloc_account fl' atype k) in *. fold (updated sbi c fl2 h').
    assert (took_blocks sbi R st k (updated sbi c fl2 h')) as Htook.
    { eapply took_updated; eauto; [lia|]. intros m Hm. rewrite E1 in Hm. auto. }
    destruct (put_free_list_fields sbi c fl2) as (Hg & _ & Hnvm & _).
    exists (i32 (k / nova_get_numblocks btype)), st. eexists. split; [done|]. left.
    exists k. split_and!; auto; try lia.
    + destruct (negb (zero =? 0)); [by apply took_with_nvm|done].
    + split; [|split].
      * destruct Hg. destruct (negb (zero =? 0)); split; auto.
      * assert (nodes_frame sbi (updated sbi c fl2 h')) as Hnf
          by (eapply (updated_nodes_frame sbi R c fl0 fl2 h' None); eauto; try done;
              intros m Hm; rewrite E1 in Hm; auto).
        by destruct (negb (zero =? 0)).
      * destruct Hg. destruct (negb (zero =? 0)); simpl; [|done]. by rewrite Hnvm, sg_virt0.
  - exists (- ENOSPC), old. eexists. split; [done|]. right.
    destruct (updated_noop sbi R c fl0 (alloc_account fl atype (u64 (- ENOSPC))))
      as [? ?]; auto using alloc_account_ok.
    by rewrite (proj1 (alloc_account_fields _ _ _)).
Qed.

(** A list holds no more blocks than the device has. *)
Lemma num_free_bound sbi R c fl :
  balloc_ok sbi R -> valid_cpu sbi c -> nova_get_free_list sbi c = Some fl ->
  0 <= num_free_blocks fl < 2147483648.
Proof.
  intros Hok Hc Hget. pose proof (bo_list _ _ Hok _ _ Hc Hget) as Hfl.
  pose proof (tree_ok_ranges _ _ _ (fl_tree _ _ _ Hfl)) as Hrs.
  pose proof (sum_ranges_nonneg _ Hrs). destruct (bo_size _ _ Hok) as (_ & _ & Hsz).
  rewrite (fl_count _ _ _ Hfl). split; [done|].
  destruct (R c) as [|x rs] eqn:ER; [simpl; lia|].
  assert (0 + sum_of range_size (x :: rs) + Z.of_nat (length (x :: rs))
            <= num_blocks sbi + 1); [|simpl in *; lia].
  assert (Forall (fun y => 0 <= range_low y /\ range_high y < num_blocks sbi) (x :: rs)) as HF.
  { rewrite Forall_forall. intros y Hy. destruct Hrs as [_ Hw].
    rewrite Forall_forall in Hw. specialize (Hw y Hy). unfold wf_range in Hw.
    destruct (bo_home _ _ Hok c (range_high y) Hc); [|lia]. rewrite ER.
    apply Exists_exists. exists y. unfold in_range. split; [done|lia]. }
  apply sum_ranges_bound; auto. apply Forall_cons in HF as [? _].
  destruct Hrs as [_ Hw]. apply Forall_cons in Hw as [Hw _]. unfold wf_range in Hw. lia.
Qed.

(** The candidate list has the most free blocks of all CPUs. *)
Lemma candidate_loop_spec sbi R n : forall i cpuid best,
  balloc_ok sbi R -> 0 <= i -> i + Z.of_nat n = cpus sbi -> 0 <= cpuid < cpus sbi ->
  0 <= best < 2147483648 ->
  (forall fl, nova_get_free_list sbi cpuid = Some fl -> best <= num_free_blocks fl) ->
  (forall j fl, 0 <= j < i -> nova_get_free_list sbi j = Some fl -> num_free_blocks fl <= best) ->
  exists c, candidate_loop sbi n i cpuid best = Some c /\ 0 <= c < cpus sbi /\
    (forall j fl flc, 0 <= j < cpus sbi -> nova_get_free_list sbi j = Some fl ->
       nova_get_free_list sbi c = Some flc -> num_free_blocks fl <= num_free_blocks flc).
Proof.
  induction n as [|n IH]; intros i cpuid best Hok Hi Hn Hc Hb Hbest Hall; simpl.
  - exists cpuid. split_and!; auto; try lia. intros j fl flc Hj Hg Hgc.
    specialize (Hbest _ Hgc). specialize (Hall j fl ltac:(lia) Hg). lia.
  - assert (valid_cpu sbi i) as Hvi by (left; lia).
    destruct (valid_cpu_get sbi R i Hok Hvi) as [fl Hfl]. rewrite Hfl. simpl.
    pose proof (num_free_bound sbi R i fl Hok Hvi Hfl). wrap.
    destruct (best <? num_free_blocks fl) eqn:C; bool_hyps; apply IH; auto; try lia.
    + intros fl' Hfl'. simplify_eq. lia.
    + intros j fl' Hj Hg. destruct (decide (j = i)) as [->|]; [simplify_eq; lia|].
      specialize (Hall j fl' ltac:(lia) Hg). lia.
    + intros j fl' Hj Hg. destruct (decide (j = i)) as [->|]; [simplify_eq; lia|].
      apply (Hall j); [lia|done].
Qed.

Lemma nova_get_candidate_free_list_spec sbi R :
  balloc_ok sbi R ->
  exists c, nova_get_candidate_free_list sbi = Some c /\ 0 <= c < cpus sbi /\
    (forall j fl flc, 0 <= j < cpus sbi -> nova_get_free_list sbi j = Some fl ->
       nova_get_free_list sbi c = Some flc -> num_free_blocks fl <= num_free_blocks flc).
Proof.
  intros Hok. destruct (bo_cpus _ _ Hok) as [_ Hcp].
  apply (candidate_loop_spec sbi R); auto; try lia.
  intros fl Hfl. apply (num_free_bound sbi R 0 fl Hok); [left; lia|done].
Qed.

(** Resetting the cursor to the first node. *)
Lemma reset_cursor_ok h fl rs :
  free_list_ok h fl rs ->
  free_list_ok h (with_p_node (rb_first (block_free_tree fl))
    (with_first_node (rb_first (block_free_tree fl)) fl)) rs.
Proof.
  intros [Ht Hf Hc Hcnt Hnn]. rewrite rb_first_inorder. split; auto.
  simpl. intros n Hn. destruct (inorder (block_free_tree fl)); simplify_eq/=. set_solver.
Qed.

Lemma reset_cursor_some h fl rs :
  free_list_ok h fl rs -> 0 < num_free_blocks fl ->
  rb_first (block_free_tree fl) <> None.
Proof.
  intros [[Hh _ _] _ _ Hcnt _] Hpos. rewrite rb_first_inorder.
  destruct (inorder (block_free_tree fl)); [|done]. inversion Hh; subst. simpl in Hcnt. lia.
Qed.

(** Outcomes of an allocation of [nblocks] blocks. *)
Definition alloc_outcome sbi R nblocks btype zero old (tried_all : Prop)
    (ret nr : Z) sbi' : Prop :=
  (exists k, 0 < k <= nblocks /\ (0 < btype -> k = nblocks) /\
     ret = i32 (k / nova_get_numblocks btype) /\
     took_blocks sbi R nr k sbi' /\ alloc_frame sbi zero nr k sbi') \/
  (ret = - ENOSPC /\ nr = old /\ preserves sbi sbi' /\ balloc_ok sbi' R /\
   (btype = 0 -> sbi' = sbi /\
      (tried_all -> forall d fl, 0 <= d < cpus sbi -> nova_get_free_list sbi d = Some fl ->
                    num_free_blocks fl < nblocks))).

(** A list with enough free blocks is used, with a live cursor. *)
Lemma retry_enough sbi R c fl nblocks btype zero atype old retries :
  balloc_ok sbi R -> valid_cpu sbi c -> nova_get_free_list sbi c = Some fl ->
  0 < nblocks <= num_free_blocks fl ->
  exists fl', block_free_tree fl' = block_free_tree fl /\
    free_list_ok (range_nodes sbi) fl' (R c) /\ p_node fl' <> None /\
    new_blocks_retry retries sbi c nblocks btype zero atype old =
    take_blocks sbi c fl' nblocks btype zero atype old.
Proof.
  intros Hok Hvc Hget Hnb. pose proof (bo_list _ _ Hok _ _ Hvc Hget) as Hfl.
  destruct (decide (first_node fl = None \/ p_node fl = None)) as [Hd|Hd].
  - eexists. split; [|split; [apply (reset_cursor_ok _ _ _ Hfl)|split]]; [done| |].
    + simpl. eapply reset_cursor_some; eauto. lia.
    + destruct retries; simpl; rewrite Hget; simpl;
        (destruct (_ || _) eqn:C; [by rewrite (proj2 (Z.leb_le _ _)) by lia|]);
        bool_hyps; rewrite bool_decide_eq_false in *; tauto.
  - exists fl. split_and!; auto.
    assert (((num_free_blocks fl <? nblocks) || bool_decide (first_node fl = None))
            || bool_decide (p_node fl = None) = false) as C.
    { rewrite (proj2 (Z.ltb_ge _ _)) by lia.
      rewrite !bool_decide_eq_false_2 by tauto. done. }
    destruct retries; simpl; rewrite Hget; simpl; by rewrite C.
Qed.

(** A list with too few blocks sends the search to the candidate list. *)
Lemma retry_short sbi c fl nblocks btype zero atype old retries :
  nova_get_free_list sbi c = Some fl -> num_free_blocks fl < nblocks ->
  new_blocks_retry retries sbi c nblocks btype zero atype old =
  match retries with
  | O => Some (- ENOSPC, old, sbi)
  | S retries =>
    c' ← nova_get_candidate_free_list sbi;
    new_blocks_retry retries sbi c' nblocks btype zero atype old
  end.
Proof.
  intros Hget Hlt. destruct retries; simpl; rewrite Hget; simpl;
    rewrite (proj2 (Z.ltb_lt _ _)), (proj2 (Z.leb_gt _ _)) by lia; done.
Qed.

Lemma new_blocks_retry_spec sbi R nblocks btype zero atype old : forall retries c,
  balloc_ok sbi R -> 0 <= c < cpus sbi -> 0 < nblocks < 4503599627370496 * 2048 ->
  exists ret nr sbi',
    new_blocks_retry retries sbi c nblocks btype zero atype old = Some (ret, nr, sbi') /\
    alloc_outcome sbi R nblocks btype zero old
      (retries <> O \/
       forall d fl flc, 0 <= d < cpus sbi -> nova_get_free_list sbi d = Some fl ->
         nova_get_free_list sbi c = Some flc -> num_free_blocks fl <= num_free_blocks flc)
      ret nr sbi'.
Proof.
  induction retries as [|retries IH]; intros c Hok Hc Hnb;
    (assert (valid_cpu sbi c) as Hvc by (by left));
    destruct (valid_cpu_get sbi R c Hok Hvc) as [fl Hget];
    (destruct (decide (nblocks <= num_free_blocks fl));
     [ edestruct (retry_enough sbi R c fl nblocks) as (fl' & Ht & Hfl' & Hp & ->); eauto; [lia|];
       destruct (take_blocks_spec sbi R c fl fl' nblocks btype zero atype old)
         as (ret & nr & sbi' & E & Hout); auto; exists ret, nr, sbi'; split; [done|];
       destruct Hout as [Hs|(-> & -> & Hpr & [Hn|Hn] & Hok')];
       [by left|by destruct Hp|right; split_and!; auto; intros ->; lia]
     | rewrite (retry_short _ _ _ _ _ _ _ _ _ Hget) by lia ]).
  - exists (- ENOSPC), old, sbi. split; [done|]. right.
    split_and!; auto using preserves_refl. intros _. split; [done|].
    intros [?|Hmax]; [done|]. intros d fl' Hd Hg. specialize (Hmax d fl' fl Hd Hg Hget). lia.
  - destruct (nova_get_candidate_free_list_spec sbi R Hok) as (c' & -> & Hc' & Hmax). simpl.
    destruct (IH c' Hok Hc' Hnb) as (ret & nr & sbi' & E & Hout).
    exists ret, nr, sbi'. split; [done|].
    destruct Hout as [Hs|(-> & -> & Hp & Hok' & Ht)]; [by left|right].
    split_and!; auto. intros Hb0. destruct (Ht Hb0) as [-> Hall]. split; [done|].
    intros _. apply Hall. by right.
Qed.

(** ** The two operations of the file system *)

Lemma numblocks_cases btype :
  nova_get_numblocks btype = 1 \/ nova_get_numblocks btype = 512 \/
  nova_get_numblocks btype = 262144.
Proof. unfold nova_get_numblocks. repeat case_cmp; auto. Qed.

Lemma nova_new_blocks_spec sbi R cpu old num btype zero atype :
  balloc_ok sbi R -> 0 <= cpu < cpus sbi -> 0 < num < 2147483648 ->
  exists ret nr sbi',
    nova_new_blocks sbi cpu old num btype zero atype = Some (ret, nr, sbi') /\
    alloc_outcome sbi R (num * nova_get_numblocks btype) btype zero old True ret nr sbi'.
Proof.
  intros Hok Hc Hnum. unfold nova_new_blocks.
  destruct (numblocks_cases btype) as [E|[E|E]];
    (rewrite (u64_small (num * _)) by (rewrite E; lia);
     rewrite (proj2 (Z.eqb_neq _ _)) by (rewrite E; lia);
     destruct (new_blocks_retry_spec sbi R (num * nova_get_numblocks btype) btype zero atype old
                 3 cpu Hok Hc) as (ret & nr & sbi' & E1 & Hout); [rewrite E; lia|];
     exists ret, nr, sbi'; split; [exact E1|];
     destruct Hout as [Hs|(? & ? & ? & ? & Ht)]; [by left|right];
     split_and!; auto; intros Hb; destruct (Ht Hb) as [-> Hall];
     split; [done|intros _; apply Hall; by left]).
Qed.
End alloc_ops.
