(* ===== verification/BallocInit.v ===== *)
(** * Initialisation and accounting of the allocator (balloc.c)

    [nova_init_blockmap] of a fresh file system establishes the allocator's
    invariant, with the blocks behind the reserved ones free, and
    [nova_count_free_blocks] counts the free blocks. *)

From S2P Require Import Prelude Layout RangeTree State Balloc BallocFacts BallocSpec.

(** ** A zeroed list *)

Record zeroed (fl : free_list) : Prop := {
  z_tree : block_free_tree fl = RB_ROOT;
  z_first : first_node fl = None;
  z_cursor : p_node fl = None;
  z_count : num_free_blocks fl = 0;
  z_nodes : num_blocknode fl = 0;
}.

Lemma zeroed_ok h fl : zeroed fl -> free_list_ok h fl [].
Proof.
  intros [E1 E2 E3 E4 E5]. split; rewrite ?E1, ?E2, ?E3, ?E4, ?E5; try done.
  split; constructor.
Qed.

Lemma empty_free_list_zeroed : zeroed empty_free_list.
Proof. done. Qed.

(** A mount hands the allocator zeroed lists and a plausible geometry. *)
Record fresh_blockmap (sbi : nova_sb_info) : Prop := {
  fb_cpus : cpus sbi = Z.of_nat (length (free_lists sbi)) /\ 0 < cpus sbi <= 64;
  fb_lists : Forall zeroed (free_lists sbi);
  fb_shared : zeroed (shared_free_list sbi);
  fb_reserved : 0 < reserved_blocks sbi < num_blocks sbi / cpus sbi;
  fb_size : num_blocks sbi < 2147483648;
}.

(** The range list [i] starts with. *)
Definition init_range (sbi : nova_sb_info) (i : Z) : nova_range_node :=
  RangeNode (if i =? 0 then reserved_blocks sbi else per_list_blocks sbi * i)
    (per_list_blocks sbi * (i + 1) - 1).

(** The ranges once the lists below [i] are initialised. *)
Definition init_ranges (sbi : nova_sb_info) (i : Z) (c : Z) : list nova_range_node :=
  if (0 <=? c) && (c <? i) then [init_range sbi c] else [].

(** What the loop needs of the lists it has not reached. *)
Record init_inv (sbi : nova_sb_info) (i : Z) : Prop := {
  ii_ok : balloc_ok sbi (init_ranges sbi i);
  ii_index : 0 <= i <= cpus sbi;
  ii_rest c fl : i <= c < cpus sbi -> nova_get_free_list sbi c = Some fl -> zeroed fl;
  ii_reserved : 0 < reserved_blocks sbi < per_list_blocks sbi;
  ii_total : per_list_blocks sbi * cpus sbi <= num_blocks sbi;
}.

Lemma init_ranges_in sbi i c b :
  in_ranges b (init_ranges sbi i c) <-> 0 <= c < i /\ in_range b (init_range sbi c).
Proof.
  unfold init_ranges, in_ranges. case_cmp.
  - rewrite Exists_cons, Exists_nil. intuition lia.
  - rewrite Exists_nil. split; [done|]. intros [? _].
    apply andb_false_iff in Hif as [?|?]; bool_hyps; lia.
Qed.

Section init_facts.
Context (sbi : nova_sb_info) (i : Z) (Hinv : init_inv sbi i) (Hlt : i < cpus sbi).

Lemma init_range_bounds b :
  in_range b (init_range sbi i) -> 0 < b < num_blocks sbi /\ home sbi b = i.
Proof.
  destruct Hinv as [_ Hi _ [Hr0 Hr] Ht]. unfold in_range, init_range, home. simpl.
  intros Hb.
  assert (per_list_blocks sbi * i <= b < per_list_blocks sbi * (i + 1)) as Hb'.
  { revert Hb. case_cmp; nia. }
  assert (b / per_list_blocks sbi = i) as E.
  { symmetry. apply (Z.div_unique _ _ _ (b - per_list_blocks sbi * i)); [left; lia|lia]. }
  rewrite E. rewrite (proj2 (Z.leb_gt _ _)) by lia. split; [|done]. split; [|nia].
  revert Hb. case_cmp; nia.
Qed.

Lemma init_range_wf : wf_range (init_range sbi i).
Proof.
  destruct Hinv as [Hok Hi _ [Hr0 Hr] Ht]. destruct (bo_size _ _ Hok) as (_ & _ & Hn).
  unfold wf_range, init_range, RANGE_LIMIT. simpl. case_cmp; nia.
Qed.
End init_facts.

Section init_ops.
Context `{RbTreeLaws} (slab_garbage : nova_range_node).
(** The slab serves the first nodes of a mount. *)
Hypothesis slab_serves : forall h, kmem_cache_alloc h <> None.
Implicit Types (sbi : nova_sb_info).

Lemma singleton_list_ok h n r fl :
  h !! n = Some r -> wf_range r -> inorder (block_free_tree fl) = [n] ->
  first_node fl = Some n -> p_node fl = Some n -> num_free_blocks fl = range_size r ->
  num_blocknode fl = 1 -> free_list_ok h fl [r].
Proof.
  intros Hn Hw E1 E2 E3 E4 E5. split; rewrite ?E1, ?E2, ?E3, ?E4, ?E5; try done.
  - split; [rewrite E1; constructor; [done|constructor]|repeat constructor|by constructor].
  - intros m [= <-]. set_solver.
  - simpl. lia.
Qed.

(** Inserting into an empty tree. *)
Lemma insert_into_empty h n r :
  h !! n = Some r ->
  exists t, nova_insert_blocktree h RB_ROOT n = Some (0, t) /\ inorder t = [n].
Proof.
  intros Hn. unfold nova_insert_blocktree, nova_insert_range_node. rewrite Hn. simpl.
  eexists. split; [done|]. by rewrite rb_insert_color_inorder.
Qed.

(** The fields of a list the loop body computes. *)
Lemma init_fields sbi i :
  init_inv sbi i -> i < cpus sbi ->
  let per := per_list_blocks sbi in
  let st := u64 (per * i) in
  u64 (st + per - 1) = range_high (init_range sbi i) /\
  (if i =? 0 then u64 (st + reserved_blocks sbi) else st) = range_low (init_range sbi i) /\
  (if i =? 0 then u64 (per - reserved_blocks sbi) else per) = range_size (init_range sbi i).
Proof.
  intros [Hok Hi _ [Hr0 Hr] Ht] Hlt. destruct (bo_size _ _ Hok) as (_ & _ & Hn).
  unfold range_size, init_range. simpl.
  assert (0 <= per_list_blocks sbi * i <= num_blocks sbi) by nia.
  assert (per_list_blocks sbi * (i + 1) = per_list_blocks sbi * i + per_list_blocks sbi) as E by lia.
  rewrite E. assert (per_list_blocks sbi * i + per_list_blocks sbi <= num_blocks sbi) by nia.
  rewrite (u64_small (per_list_blocks sbi * i)) by lia.
  split; [wrap; lia|]. case_cmp; [subst|]; wrap; lia.
Qed.

Lemma init_one_list_ok sbi i :
  init_inv sbi i -> i < cpus sbi ->
  exists fl n fl', nova_get_free_list sbi i = Some fl /\ zeroed fl /\
    range_nodes sbi !! n = None /\
    let h' := <[n := init_range sbi i]> (range_nodes sbi) in
    init_one_list slab_garbage sbi i 0 = Some (inr (updated sbi i fl' h')) /\
    free_list_ok h' fl' [init_range sbi i] /\ inorder (block_free_tree fl') = [n].
Proof.
  intros Hinv Hlt. pose proof Hinv as [Hok Hi Hrest _ _].
  destruct (valid_cpu_get sbi _ i Hok ltac:(left; lia)) as [fl Hget].
  pose proof (Hrest i fl ltac:(lia) Hget) as Hz. pose proof Hz as [E1 E2 E3 E4 E5].
  destruct (kmem_cache_alloc (range_nodes sbi)) as [n|] eqn:Ea; [|by destruct (slab_serves (range_nodes sbi))].
  pose proof (kmem_cache_alloc_fresh _ _ Ea) as Hf.
  unfold init_one_list. rewrite Hget. simpl. unfold nova_alloc_range_node. rewrite Ea.
  destruct (init_fields sbi i Hinv Hlt) as (F1 & F2 & F3). rewrite insert_insert_eq.
  set (h' := <[n:=init_range sbi i]> (range_nodes sbi)).
  destruct (insert_into_empty h' n (init_range sbi i)) as (t & Ht & Hin);
    [apply lookup_insert_eq|].
  exists fl, n.
  destruct (i =? 0); simpl; rewrite F1, F2;
    (change (RangeNode (range_low (init_range sbi i)) (range_high (init_range sbi i)))
       with (init_range sbi i); fold h'; rewrite E1, Ht; simpl; eexists;
     split_and!; [done|done|done|done| |exact Hin];
     apply (singleton_list_ok h' n); simpl; auto; [apply lookup_insert_eq|
     by apply init_range_wf]).
Qed.

(** One turn of the loop keeps the invariant. *)
Lemma init_step sbi i :
  init_inv sbi i -> i < cpus sbi ->
  exists sbi', init_one_list slab_garbage sbi i 0 = Some (inr sbi') /\
    init_inv sbi' (i + 1) /\ same_geometry sbi sbi'.
Proof.
  intros Hinv Hlt. pose proof Hinv as [Hok Hi Hrest Hres Htot].
  destruct (init_one_list_ok sbi i Hinv Hlt) as (fl & n & fl' & Hget & Hz & Hf & E & Hfl' & Hin).
  set (h' := <[n:=init_range sbi i]> (range_nodes sbi)) in *.
  assert (valid_cpu sbi i) as Hvi by (left; lia).
  pose proof (updated_geometry sbi i fl' h') as Hg.
  assert (balloc_ok (updated sbi i fl' h') (set_ranges i [init_range sbi i] (init_ranges sbi i))) as Hb.
  { eapply (updated_ok sbi _ i fl fl' h' _ (Some n)); eauto.
    - intros m Hm. apply lookup_insert_ne. simpl in Hm. set_solver.
    - by intros m [= <-].
    - intros m Hm. rewrite Hin in Hm. left. f_equal. set_solver.
    - intros b Hx. apply Exists_cons in Hx as [Hx|Hx]; [|by apply Exists_nil in Hx].
      by apply (init_range_bounds sbi i Hinv Hlt). }
  exists (updated sbi i fl' h'). split; [done|]. split; [|done].
  assert (forall c, init_ranges (updated sbi i fl' h') (i + 1) c =
                    set_ranges i [init_range sbi i] (init_ranges sbi i) c) as HR.
  { intros c. unfold set_ranges, init_ranges, init_range.
    destruct Hg as [_ _ _ -> _ _ _ _ ->]. case_decide as Hd; [subst c|].
    - by rewrite (proj2 (Z.leb_le _ _)), (proj2 (Z.ltb_lt _ _)) by lia.
    - replace (c <? i + 1) with (c <? i); [done|].
      destruct (c <? i) eqn:C, (c <? i + 1) eqn:D; bool_hyps; try done; lia. }
  pose proof Hg as [_ Ec En Ep _ _ _ _ Er].
  split; rewrite ?Ec, ?En, ?Ep, ?Er; [| lia | | done | done].
  - destruct Hb as [B1 B2 B3 B4 B5]. split; auto; intros *; rewrite HR; auto.
  - intros c gl Hc. rewrite (updated_get sbi (init_ranges sbi i)) by (eauto; left; lia).
    rewrite decide_False by lia. apply Hrest. lia.
Qed.

Lemma same_geometry_trans sbi1 sbi2 sbi3 :
  same_geometry sbi1 sbi2 -> same_geometry sbi2 sbi3 -> same_geometry sbi1 sbi3.
Proof. intros [] []. split; intuition congruence. Qed.

Lemma init_lists_ok n : forall sbi i,
  init_inv sbi i -> i + Z.of_nat n = cpus sbi ->
  exists sbi', init_lists slab_garbage n i sbi 0 = Some (inr sbi') /\
    init_inv sbi' (cpus sbi) /\ same_geometry sbi sbi'.
Proof.
  induction n as [|n IH]; intros sbi i Hinv Hn; simpl.
  - exists sbi. replace (cpus sbi) with i by lia. split_and!; auto. by constructor.
  - destruct (init_step sbi i Hinv ltac:(lia)) as (sbi1 & -> & Hinv1 & Hg1). simpl.
    pose proof (sg_cpus _ _ Hg1) as Ec.
    destruct (IH sbi1 (i + 1) Hinv1 ltac:(lia)) as (sbi2 & E & Hinv2 & Hg2).
    exists sbi2. rewrite E, <- Ec. eauto using same_geometry_trans.
Qed.

Lemma fresh_inv sbi :
  fresh_blockmap sbi -> init_inv (with_per_list_blocks (num_blocks sbi / cpus sbi) sbi) 0.
Proof.
  intros [[Hl Hc] Hz Hs Hr Hsz].
  pose proof (Z.mul_div_le (num_blocks sbi) (cpus sbi) ltac:(lia)).
  pose proof (Z.mul_succ_div_gt (num_blocks sbi) (cpus sbi) ltac:(lia)).
  assert (forall c fl, nova_get_free_list (with_per_list_blocks (num_blocks sbi / cpus sbi) sbi) c
            = Some fl -> zeroed fl) as Hall.
  { intros c fl. unfold nova_get_free_list. simpl. repeat case_cmp; [done| |by intros [= <-]].
    rewrite Forall_forall in Hz. intros Hlk. apply Hz. by eapply list_elem_of_lookup_2. }
  split; simpl; [|lia|by intros; eapply Hall|lia|lia].
  assert (forall s i c, i <= 0 -> init_ranges s i c = []) as Hnil.
  { intros s i c Hi. unfold init_ranges. case_cmp; [lia|done]. }
  split; simpl; [done|lia| | |].
  - intros c fl _ Hg. rewrite Hnil by lia. apply zeroed_ok. by eapply Hall.
  - intros c d fl fl' n _ _ _ Hg _ Hn. apply Hall in Hg as [E _ _ _ _]. rewrite E in Hn.
    by apply not_elem_of_nil in Hn.
  - intros c b _. rewrite Hnil by lia. by intros ?%Exists_nil.
Qed.

(** A block of the initialised part lies in the range of its home list. *)
Lemma init_free_blocks sbi b :
  init_inv sbi (cpus sbi) ->
  free_block sbi (init_ranges sbi (cpus sbi)) b <->
  reserved_blocks sbi <= b < per_list_blocks sbi * cpus sbi.
Proof.
  intros [Hok Hi _ Hr Ht]. unfold free_block. setoid_rewrite init_ranges_in.
  unfold in_range, init_range. simpl. split.
  - intros (c & _ & Hc & Hb). revert Hb. case_cmp; nia.
  - intros Hb. set (c := b / per_list_blocks sbi).
    assert (per_list_blocks sbi * c <= b < per_list_blocks sbi * (c + 1)) as Hcb.
    { unfold c. pose proof (Z.mul_div_le b (per_list_blocks sbi)).
      pose proof (Z.mul_succ_div_gt b (per_list_blocks sbi)). lia. }
    assert (0 <= c < cpus sbi) by nia.
    exists c. split; [left; lia|]. split; [lia|]. case_cmp; nia.
Qed.
(** The bounds stored in the shared list play no part in the invariant. *)
Lemma shared_bounds_ok sbi R lo hi :
  balloc_ok sbi R ->
  balloc_ok (with_shared_free_list (with_block_end hi (with_block_start lo (shared_free_list sbi)))
               sbi) R.
Proof.
  intros [B1 B2 B3 B4 B5].
  set (sbi' := with_shared_free_list _ _).
  assert (forall c fl', nova_get_free_list sbi' c = Some fl' ->
    exists fl, nova_get_free_list sbi c = Some fl /\
      block_free_tree fl' = block_free_tree fl /\
      (forall rs, free_list_ok (range_nodes sbi) fl rs -> free_list_ok (range_nodes sbi) fl' rs))
    as Hget.
  { intros c fl'. unfold nova_get_free_list. simpl. destruct (c <? cpus sbi).
    - intros E. exists fl'. auto.
    - intros [= <-]. exists (shared_free_list sbi). split_and!; auto. intros rs []. by split. }
  split; auto.
  - intros c fl' Hc E. apply Hget in E as (fl & E & _ & Hok). apply Hok. by apply B3.
  - intros c d fl fl' n Hc Hd Hne E E'.
    apply Hget in E as (gl & E & -> & _). apply Hget in E' as (gl' & E' & -> & _).
    by apply (B4 c d).
Qed.

Lemma nova_init_blockmap_spec sbi :
  fresh_blockmap sbi ->
  exists sbi', let R := init_ranges sbi' (cpus sbi') in
    nova_init_blockmap slab_garbage sbi 0 = Some sbi' /\ balloc_ok sbi' R /\
    cpus sbi' = cpus sbi /\ num_blocks sbi' = num_blocks sbi /\
    (forall b, free_block sbi' R b <->
       reserved_blocks sbi <= b < num_blocks sbi / cpus sbi * cpus sbi).
Proof.
  intros Hfresh. destruct (fb_cpus _ Hfresh) as [_ Hc].
  pose proof (fresh_inv sbi Hfresh) as Hinv. unfold nova_init_blockmap.
  rewrite (proj2 (Z.eqb_neq _ _)) by lia.
  set (sbi0 := with_per_list_blocks _ _) in *.
  destruct (init_lists_ok (Z.to_nat (cpus sbi0)) sbi0 0 Hinv) as (sbi1 & E & Hinv1 & Hg);
    [simpl; lia|].
  rewrite E. simpl. destruct Hg as [_ Ec En Ep _ _ _ _ Er]. simpl in *.
  rewrite <- Ec in Hinv1. pose proof (ii_ok _ _ Hinv1) as Hok.
  destruct (valid_cpu_get sbi1 _ (cpus sbi1 - 1) Hok) as [fl ->]; [left; lia|]. simpl.
  assert (forall b, free_block sbi1 (init_ranges sbi1 (cpus sbi1)) b <->
    reserved_blocks sbi <= b < num_blocks sbi / cpus sbi * cpus sbi) as Hfb.
  { intros b. rewrite init_free_blocks by done. by rewrite Er, Ep, Ec. }
  case_cmp; eexists; (split; [done|]); split_and!; try done. by apply shared_bounds_ok.
Qed.

(** ** Counting *)

(** The blocks of a set of ranges, one by one. *)
Definition blocks_of (rs : list nova_range_node) : list Z :=
  rs ≫= fun r => seqZ (range_low r) (range_size r).

Lemma elem_of_blocks_of b rs : b ∈ blocks_of rs <-> in_ranges b rs.
Proof.
  unfold blocks_of, in_ranges. rewrite list_elem_of_bind, Exists_exists.
  unfold in_range, range_size. setoid_rewrite elem_of_seqZ.
  split; intros (r & ? & ?); exists r; split; auto; lia.
Qed.

Lemma NoDup_blocks_of rs : ranges_ok rs -> NoDup (blocks_of rs).
Proof.
  intros [Hs Hw]. induction rs as [|r rs IH]; simpl; [constructor|].
  apply StronglySorted_cons_iff in Hs as [Hs Hb]. apply Forall_cons in Hw as [Hr Hw].
  apply NoDup_app. split_and!; [apply NoDup_seqZ| |auto].
  intros b Hin Hin'. fold (blocks_of rs) in Hin'. apply elem_of_blocks_of, Exists_exists in Hin' as (r' & Hr' & Hb').
  apply elem_of_seqZ in Hin. rewrite Forall_forall in Hb. specialize (Hb _ Hr').
  unfold before, in_range, range_size in *. lia.
Qed.

Lemma length_blocks_of rs :
  ranges_ok rs -> Z.of_nat (length (blocks_of rs)) = sum_of range_size rs.
Proof.
  intros [_ Hw]. induction rs as [|r rs IH]; simpl; [done|].
  apply Forall_cons in Hw as [Hr Hw]. fold (blocks_of rs).
  rewrite length_app, length_seqZ, Nat2Z.inj_add, IH by done.
  pose proof (range_size_pos r Hr). lia.
Qed.

(** The blocks of the lists [i], [i+1], ... of the CPUs. *)
Fixpoint blocks_from (R : Z -> list nova_range_node) (n : nat) (i : Z) : list Z :=
  match n with
  | O => []
  | S n => blocks_of (R i) ++ blocks_from R n (i + 1)
  end.

Lemma elem_of_blocks_from R b n : forall i,
  b ∈ blocks_from R n i <-> exists c, i <= c < i + Z.of_nat n /\ in_ranges b (R c).
Proof.
  induction n as [|n IH]; intros i; simpl.
  - rewrite elem_of_nil. split; [done|]. intros (c & ? & _). lia.
  - rewrite elem_of_app, elem_of_blocks_of, IH. split.
    + intros [Hb|(c & ? & ?)]; [exists i|exists c]; split; auto; lia.
    + intros (c & ? & Hb). destruct (decide (c = i)) as [->|]; [auto|].
      right. exists c. split; [lia|done].
Qed.

Section counting.
Context (sbi : nova_sb_info) (R : Z -> list nova_range_node) (Hok : balloc_ok sbi R).

Lemma list_ranges_ok c : valid_cpu sbi c -> ranges_ok (R c).
Proof.
  intros Hc. destruct (valid_cpu_get sbi R c Hok Hc) as [fl Hfl].
  eapply tree_ok_ranges, fl_tree. by eapply bo_list.
Qed.

Lemma blocks_from_NoDup n : forall i,
  0 <= i -> i + Z.of_nat n <= cpus sbi -> NoDup (blocks_from R n i).
Proof.
  induction n as [|n IH]; intros i Hi Hn; simpl; [constructor|].
  apply NoDup_app. split_and!; [apply NoDup_blocks_of, list_ranges_ok; left; lia| |apply IH; lia].
  intros b Hb (c & Hc & Hb')%elem_of_blocks_from. apply elem_of_blocks_of in Hb.
  destruct (bo_home _ _ Hok i b ltac:(left; lia) Hb) as [_ E].
  destruct (bo_home _ _ Hok c b ltac:(left; lia) Hb') as [_ E']. lia.
Qed.

Lemma count_loop_spec n : forall i acc,
  0 <= i -> i + Z.of_nat n <= cpus sbi ->
  0 <= acc <= i * 2147483648 ->
  count_loop sbi n i acc = Some (acc + Z.of_nat (length (blocks_from R n i))) /\
  acc + Z.of_nat (length (blocks_from R n i)) <= (i + Z.of_nat n) * 2147483648.
Proof.
  destruct (bo_cpus _ _ Hok) as [_ Hcpus].
  induction n as [|n IH]; intros i acc Hi Hn Hacc; simpl; [split; [f_equal|]; lia|].
  assert (valid_cpu sbi i) as Hv by (left; lia).
  destruct (valid_cpu_get sbi R i Hok Hv) as [fl Hfl]. rewrite Hfl. simpl.
  pose proof (num_free_bound sbi R i fl Hok Hv Hfl) as Hb.
  pose proof (fl_count _ _ _ (bo_list _ _ Hok _ _ Hv Hfl)) as Hcnt.
  rewrite <- length_blocks_of in Hcnt by (by apply list_ranges_ok).
  wrap. rewrite length_app.
  destruct (IH (i + 1) (acc + num_free_blocks fl)) as [-> Hle]; [lia..|].
  split; [f_equal|]; lia.
Qed.

Lemma nova_count_free_blocks_spec bs :
  NoDup bs -> (forall b, b ∈ bs <-> free_block sbi R b) ->
  nova_count_free_blocks sbi = Some (Z.of_nat (length bs)).
Proof.
  intros Hnd Hbs. destruct (bo_cpus _ _ Hok) as [_ Hcpus].
  assert (valid_cpu sbi SHARED_CPU) as Hv by (by right).
  unfold nova_count_free_blocks.
  destruct (count_loop_spec (Z.to_nat (cpus sbi)) 0 0) as [-> Hle]; [lia..|]. simpl.
  destruct (valid_cpu_get sbi R _ Hok Hv) as [fl Hfl]. rewrite Hfl. simpl.
  pose proof (num_free_bound sbi R _ fl Hok Hv Hfl) as Hb.
  pose proof (fl_count _ _ _ (bo_list _ _ Hok _ _ Hv Hfl)) as Hcnt.
  rewrite <- length_blocks_of in Hcnt by (by apply list_ranges_ok).
  wrap. f_equal. rewrite Hcnt, Z.add_0_l, <- Nat2Z.inj_add, <- length_app. f_equal.
  apply Permutation_length, NoDup_Permutation; [|done|].
  - apply NoDup_app. split_and!;
      [apply blocks_from_NoDup; lia| |by apply NoDup_blocks_of, list_ranges_ok].
    intros b (c & Hc & Hb')%elem_of_blocks_from Hb2%elem_of_blocks_of.
    destruct (bo_home _ _ Hok _ b Hv Hb2) as [_ E].
    destruct (bo_home _ _ Hok c b ltac:(left; lia) Hb') as [_ E'].
    unfold SHARED_CPU in *. lia.
  - intros b. rewrite elem_of_app, elem_of_blocks_from, elem_of_blocks_of, Hbs.
    unfold free_block, valid_cpu. split.
    + intros [(c & Hc & Hb')|Hb']; [exists c|exists SHARED_CPU]; split; auto. left. lia.
    + intros (c & [Hc| ->] & Hb'); [left; exists c; split; [lia|done]|by right].
Qed.
End counting.
End init_ops.
