(* ===== verification/BallocTheorems.v ===== *)
(** * What the block allocator guarantees (balloc.c)

    The allocator as its callers see it: a set of free blocks that allocation
    shrinks and freeing grows by exactly the blocks named, with no fault, no
    block handed out twice, and failures that change nothing. *)

From S2P Require Import Prelude Layout RangeTree RbList State Balloc.
From S2P Require Import BallocFacts BallocSpec BallocInit.

(** ** The allocator and its clients as a transition system

    [owned] are the blocks the clients hold.  A client may free any range of
    blocks it holds that lies in one list; allocation gives it the blocks of the
    returned extent.  [nova_free_blocks] does not test that a range lies in one list: one
    that does not is entered whole in the list of its first block, and is outside this
    contract (the truncation can pass such a range, inode.c:396). *)

Definition blocks (b n : Z) : gset Z := list_to_set (seqZ b n).

Lemma elem_of_blocks x b n : x ∈ blocks b n <-> b <= x < b + n.
Proof. unfold blocks. rewrite elem_of_list_to_set, elem_of_seqZ. done. Qed.

Record client_state := ClientState { cs_sbi : nova_sb_info; cs_owned : gset Z }.

Section transitions.
Context `{RbTree} (slab_garbage : nova_range_node).

(** A step of a client; a free is of a range within one list. *)
Inductive balloc_step : client_state -> client_state -> Prop :=
| step_alloc sbi owned cpu old num btype zero atype ret nr sbi' :
  0 <= cpu < cpus sbi -> 0 < num < 2147483648 -> 0 <= btype ->
  nova_new_blocks sbi cpu old num btype zero atype = Some (ret, nr, sbi') ->
  0 < ret ->
  balloc_step (ClientState sbi owned)
    (ClientState sbi' (owned ∪ blocks nr (ret * nova_get_numblocks btype)))
| step_alloc_fails sbi owned cpu old num btype zero atype ret nr sbi' :
  0 <= cpu < cpus sbi -> 0 < num < 2147483648 -> 0 <= btype ->
  nova_new_blocks sbi cpu old num btype zero atype = Some (ret, nr, sbi') ->
  ret <= 0 ->
  balloc_step (ClientState sbi owned) (ClientState sbi' owned)
| step_free sbi owned b num btype log_page ret sbi' :
  0 < num ->
  blocks b (nova_get_numblocks btype * num) ⊆ owned ->
  (forall x, x ∈ blocks b (nova_get_numblocks btype * num) -> home sbi x = home sbi b) ->
  nova_free_blocks slab_garbage sbi b num btype log_page = Some (ret, sbi') ->
  balloc_step (ClientState sbi owned)
    (ClientState sbi'
       (if decide (ret = 0) then owned ∖ blocks b (nova_get_numblocks btype * num)
        else owned)).
End transitions.

(** Free and owned blocks split a fixed set [U] of blocks. *)
Record partition (U : Z -> Prop) (st : client_state) (R : Z -> list nova_range_node) : Prop := {
  pt_ok : balloc_ok (cs_sbi st) R;
  pt_apart b : b ∈ cs_owned st -> ~ free_block (cs_sbi st) R b;
  pt_all b : U b <-> free_block (cs_sbi st) R b \/ b ∈ cs_owned st;
  pt_bound b : U b -> 0 < b < num_blocks (cs_sbi st);
}.

Section facts.
Context `{RbTreeLaws} (slab_garbage : nova_range_node).

(** The extent a positive return value stands for. *)
Lemma outcome_extent sbi R num btype zero old tried ret nr sbi' :
  balloc_ok sbi R -> 0 < num < 2147483648 -> 0 <= btype ->
  alloc_outcome sbi R (num * nova_get_numblocks btype) btype zero old tried ret nr sbi' ->
  (0 < ret <= num /\ (0 < btype -> ret = num) /\
   took_blocks sbi R nr (ret * nova_get_numblocks btype) sbi' /\
   alloc_frame sbi zero nr (ret * nova_get_numblocks btype) sbi') \/
  (ret = - ENOSPC /\ nr = old /\ preserves sbi sbi' /\ balloc_ok sbi' R).
Proof.
  intros Hok Hnum Hbt [(k & Hk & Hsup & -> & Ht & Hfr)|(-> & -> & Hp & Hok' & _)];
    [left|by right].
  destruct (bo_size _ _ Hok) as (_ & _ & Hsz).
  assert (k <= num_blocks sbi) by (destruct Ht as (? & ? & _); lia).
  assert (0 < nova_get_numblocks btype)
    by (destruct (numblocks_cases btype) as [->|[->| ->]]; lia).
  assert (exists q, k = q * nova_get_numblocks btype /\ 0 < q <= num /\ (0 < btype -> q = num))
    as (q & -> & Hq & Hqs).
  { destruct (decide (0 < btype)) as [Hp|Hn]; [exists num; rewrite Hsup by done; lia|].
    assert (btype = 0) as -> by lia. exists k. change (nova_get_numblocks 0) with 1 in *. lia. }
  rewrite Z.div_mul by lia. wrap. auto.
Qed.

Lemma new_blocks_extent sbi R cpu old num btype zero atype :
  balloc_ok sbi R -> 0 <= cpu < cpus sbi -> 0 < num < 2147483648 -> 0 <= btype ->
  exists ret nr sbi',
    nova_new_blocks sbi cpu old num btype zero atype = Some (ret, nr, sbi') /\
    ((0 < ret <= num /\ (0 < btype -> ret = num) /\
      took_blocks sbi R nr (ret * nova_get_numblocks btype) sbi' /\
      alloc_frame sbi zero nr (ret * nova_get_numblocks btype) sbi') \/
     (ret = - ENOSPC /\ nr = old /\ preserves sbi sbi' /\ balloc_ok sbi' R)).
Proof.
  intros Hok Hc Hn Hb.
  destruct (nova_new_blocks_spec sbi R cpu old num btype zero atype Hok Hc Hn)
    as (ret & nr & sbi' & E & Ho).
  eauto 10 using outcome_extent.
Qed.
(** The free set only depends on the number of lists and the ranges. *)
Lemma free_block_geometry sbi sbi' R b :
  same_geometry sbi sbi' -> free_block sbi' R b <-> free_block sbi R b.
Proof. intros [_ E _ _ _ _ _ _ _]. unfold free_block, valid_cpu. by rewrite E. Qed.

Lemma partition_alloc U sbi owned R nr n sbi' :
  partition U (ClientState sbi owned) R -> took_blocks sbi R nr n sbi' ->
  num_blocks sbi' = num_blocks sbi ->
  exists R', partition U (ClientState sbi' (owned ∪ blocks nr n)) R'.
Proof.
  intros [Hok Hap Hall Hbd] (Hnr & Hend & R' & Hok' & Hfr & Hset) En. simpl in *.
  exists R'. split; simpl; [done| | |by rewrite En].
  - intros b [Hb|Hb%elem_of_blocks]%elem_of_union; [|by apply Hfr].
    intros Hf. apply (Hap b Hb). apply Hset. by left.
  - intros b. rewrite Hall, Hset, elem_of_union, elem_of_blocks. tauto.
Qed.

Lemma partition_same U sbi owned R sbi' :
  partition U (ClientState sbi owned) R -> same_geometry sbi sbi' -> balloc_ok sbi' R ->
  partition U (ClientState sbi' owned) R.
Proof.
  intros [Hok Hap Hall Hbd] Hg Hok'. simpl in *.
  pose proof (sg_blocks _ _ Hg) as En.
  split; simpl; [done| | |by rewrite En]; intros b; rewrite free_block_geometry; eauto.
Qed.

(** Freeing owned blocks of one list meets the contract of the allocator. *)
Lemma owned_freeable U sbi owned R b n :
  partition U (ClientState sbi owned) R -> 0 < n -> blocks b n ⊆ owned ->
  (forall x, x ∈ blocks b n -> home sbi x = home sbi b) ->
  0 < b /\ b + n <= num_blocks sbi /\ freeable sbi R b n.
Proof.
  intros [Hok Hap Hall Hbd] Hn Hsub Hhome. simpl in *.
  assert (forall x, b <= x < b + n -> x ∈ owned) as Ho.
  { intros x Hx. apply Hsub. by apply elem_of_blocks. }
  assert (forall x, b <= x < b + n -> 0 < x < num_blocks sbi) as Hr.
  { intros x Hx. apply Hbd, Hall. right. auto. }
  split_and!; [apply (Hr b); lia| |].
  - assert (0 < b + n - 1 < num_blocks sbi) by (apply Hr; lia). lia.
  - intros x Hx. split; [apply Hhome, elem_of_blocks; lia|]. apply Hap. auto.
Qed.

Lemma partition_free U sbi owned R b n sbi' :
  partition U (ClientState sbi owned) R -> blocks b n ⊆ owned ->
  freed_blocks sbi R b n sbi' -> num_blocks sbi' = num_blocks sbi ->
  exists R', partition U (ClientState sbi' (owned ∖ blocks b n)) R'.
Proof.
  intros [Hok Hap Hall Hbd] Hsub (R' & Hok' & Hset) En. simpl in *.
  exists R'. split; simpl; [done| | |by rewrite En].
  - intros x [Hx Hn]%elem_of_difference. rewrite elem_of_blocks in Hn. rewrite Hset.
    intros [Hf|Hf]; [by apply (Hap x)|done].
  - intros x. rewrite Hall, Hset, elem_of_difference, elem_of_blocks.
    pose proof (Hsub x) as Hs. rewrite elem_of_blocks in Hs.
    destruct (decide (b <= x < b + n)); tauto.
Qed.

Lemma balloc_step_partition U st st' R :
  partition U st R -> balloc_step slab_garbage st st' -> exists R', partition U st' R'.
Proof.
  intros Hp Hstep. pose proof (pt_ok _ _ _ Hp) as Hok.
  destruct Hstep as [sbi owned cpu old num btype zero atype ret nr sbi' Hc Hn Hb E Hr
                    |sbi owned cpu old num btype zero atype ret nr sbi' Hc Hn Hb E Hr
                    |sbi owned b num btype log_page ret sbi' Hn Hsub Hhome E]; simpl in *.
  - destruct (new_blocks_extent sbi R cpu old num btype zero atype Hok Hc Hn Hb)
      as (? & ? & ? & E' & [(_ & _ & Ht & [Hg _])|(-> & _)]); rewrite E in E'; simplify_eq;
      [|unfold ENOSPC in Hr; lia].
    eapply partition_alloc; eauto. apply Hg.
  - destruct (new_blocks_extent sbi R cpu old num btype zero atype Hok Hc Hn Hb)
      as (? & ? & ? & E' & [(Hpos & _)|(_ & _ & [Hg _] & Hok')]); rewrite E in E'; simplify_eq;
      [lia|].
    exists R. by eapply partition_same.
  - set (n := nova_get_numblocks btype * num) in *.
    assert (0 < n) by (unfold n; destruct (numblocks_cases btype) as [->|[->| ->]]; lia).
    destruct (owned_freeable U sbi owned R b n) as (Hb & Hend & Hf); auto.
    destruct (nova_free_blocks_spec slab_garbage sbi R b num btype log_page)
      as (? & ? & E' & [Hg _] & [[-> Hfr]|(-> & -> & _)]); auto; rewrite E in E'; simplify_eq.
    + rewrite decide_True by done. eapply partition_free; eauto. apply Hg.
    + rewrite decide_False by done. eauto.
Qed.

Lemma balloc_run_partition U st st' R :
  partition U st R -> rtc (balloc_step slab_garbage) st st' -> exists R', partition U st' R'.
Proof.
  intros Hp Hrun. revert R Hp. induction Hrun as [|st1 st2 st3 Hs _ IH]; intros R Hp; [eauto|].
  destruct (balloc_step_partition U st1 st2 R Hp Hs) as [R2 Hp2]. eauto.
Qed.

(** The state after a fresh mount, with nothing handed out. *)
Definition mounted (sbi : nova_sb_info) (st : client_state) : Prop :=
  nova_init_blockmap slab_garbage sbi 0 = Some (cs_sbi st) /\ cs_owned st = ∅.

Definition managed (sbi : nova_sb_info) (b : Z) : Prop :=
  reserved_blocks sbi <= b < num_blocks sbi / cpus sbi * cpus sbi.

Lemma mounted_partition sbi st :
  (forall h, kmem_cache_alloc h <> None) -> fresh_blockmap sbi -> mounted sbi st ->
  exists R, partition (managed sbi) st R.
Proof.
  intros Hslab Hfresh [E Eo]. destruct st as [sbi1 owned]. simpl in *. subst owned.
  destruct (nova_init_blockmap_spec slab_garbage Hslab sbi Hfresh)
    as (sbi' & E' & Hok & Ec & En & Hset). rewrite E in E'. simplify_eq.
  eexists. split; simpl; [done|set_solver| |].
  - intros b. rewrite Hset. unfold managed. set_solver.
  - intros b Hb%Hset. destruct Hb as (c & Hc & Hb). by apply (bo_home _ _ Hok) in Hb as [? _].
Qed.
End facts.

(** ** The theorems *)

Section theorems.
Context `{RbTreeLaws} (slab_garbage : nova_range_node).
Implicit Types (sbi : nova_sb_info) (R : Z -> list nova_range_node).

(** Every list short of [n] blocks: the search for 4K blocks gives up. *)
Lemma all_short sbi R nblocks btype zero atype old : forall retries cpu,
  balloc_ok sbi R -> 0 <= cpu < cpus sbi ->
  (forall d fl, 0 <= d < cpus sbi -> nova_get_free_list sbi d = Some fl ->
                num_free_blocks fl < nblocks) ->
  new_blocks_retry retries sbi cpu nblocks btype zero atype old = Some (- ENOSPC, old, sbi).
Proof.
  induction retries as [|retries IH]; intros cpu Hok Hc Hall;
    destruct (valid_cpu_get sbi R cpu Hok (or_introl Hc)) as [fl Hget];
    rewrite (retry_short _ _ fl) by eauto; [done|].
  destruct (nova_get_candidate_free_list_spec sbi R Hok) as (c' & -> & Hc' & _). simpl. auto.
Qed.

(** C12: From a fresh mount, after any sequence of allocations and of frees of
    blocks the clients hold, the free blocks and the blocks held split the
    managed blocks: none is lost and none is both free and held. *)
Theorem balloc_partition sbi st0 st :
  (forall h, kmem_cache_alloc h <> None) -> fresh_blockmap sbi -> mounted slab_garbage sbi st0 ->
  rtc (balloc_step slab_garbage) st0 st ->
  exists R, balloc_ok (cs_sbi st) R /\
    (forall b, b ∈ cs_owned st -> ~ free_block (cs_sbi st) R b) /\
    (forall b, managed sbi b <-> free_block (cs_sbi st) R b \/ b ∈ cs_owned st).
Proof.
  intros Hslab Hfresh Hm Hrun. destruct (mounted_partition _ _ _ Hslab Hfresh Hm) as [R0 H0'].
  destruct (balloc_run_partition _ _ _ _ _ H0' Hrun) as [R [? ? ? ?]]. eauto.
Qed.

(** No block is handed out while a client still holds it: an extent that is
    returned in a reachable state lies in the managed area and shares no block
    with those already held. *)
Theorem balloc_no_double_allocation sbi st0 st cpu old num btype zero atype ret nr sbi' :
  (forall h, kmem_cache_alloc h <> None) -> fresh_blockmap sbi -> mounted slab_garbage sbi st0 ->
  rtc (balloc_step slab_garbage) st0 st ->
  0 <= cpu < cpus (cs_sbi st) -> 0 < num < 2147483648 -> 0 <= btype ->
  nova_new_blocks (cs_sbi st) cpu old num btype zero atype = Some (ret, nr, sbi') -> 0 < ret ->
  forall b, nr <= b < nr + ret * nova_get_numblocks btype -> managed sbi b /\ b ∉ cs_owned st.
Proof.
  intros Hslab Hfresh Hm Hrun Hc Hn Hb E Hr b Hbr.
  destruct (mounted_partition _ _ _ Hslab Hfresh Hm) as [R0 H0'].
  destruct (balloc_run_partition _ _ _ _ _ H0' Hrun) as [R [Hok Hap Hall _]].
  destruct (new_blocks_extent _ R cpu old num btype zero atype Hok Hc Hn Hb)
    as (? & ? & ? & E' & [(_ & _ & (_ & _ & R' & _ & _ & Hset) & _)|(-> & _)]);
    rewrite E in E'; simplify_eq; [|unfold ENOSPC in Hr; lia].
  assert (free_block (cs_sbi st) R b) as Hf by (apply Hset; by right).
  split; [apply Hall; by left|]. intros Ho. by apply (Hap b).
Qed.

(** C13: The allocator does not fault, also when memory is short: from any state in which the
    free blocks and those held split the managed ones (as after a mount, [mounted_partition]),
    after any sequence of allocations and of frees of ranges within one list, an allocation
    returns a count of at most what was asked for or -ENOSPC, and freeing a range that is held
    and lies within one list returns 0, or -ENOMEM without a change when the slab allocator
    has no node for it. *)
Theorem balloc_no_fault U st0 R0 st cpu old num btype zero atype b log_page :
  partition U st0 R0 -> rtc (balloc_step slab_garbage) st0 st ->
  0 <= cpu < cpus (cs_sbi st) -> 0 < num < 2147483648 -> 0 <= btype ->
  (exists ret nr sbi',
     nova_new_blocks (cs_sbi st) cpu old num btype zero atype = Some (ret, nr, sbi') /\
     (0 < ret <= num \/ ret = - ENOSPC)) /\
  (blocks b (nova_get_numblocks btype * num) ⊆ cs_owned st ->
   (forall x, x ∈ blocks b (nova_get_numblocks btype * num) ->
              home (cs_sbi st) x = home (cs_sbi st) b) ->
   exists ret sbi', nova_free_blocks slab_garbage (cs_sbi st) b num btype log_page = Some (ret, sbi') /\
     (ret = 0 \/ ret = - ENOMEM /\ sbi' = cs_sbi st /\ kmem_cache_alloc (range_nodes (cs_sbi st)) = None)).
Proof.
  intros H0' Hrun Hc Hn Hb. destruct (balloc_run_partition _ _ _ _ _ H0' Hrun) as [R Hp].
  pose proof (pt_ok _ _ _ Hp) as Hok. split.
  - destruct (new_blocks_extent _ R cpu old num btype zero atype Hok Hc Hn Hb)
      as (ret & nr & sbi' & E & [(? & _)|(-> & _)]); eauto 10.
  - intros Hsub Hhome. destruct st as [sbi1 owned]. simpl in *.
    assert (0 < nova_get_numblocks btype * num)
      by (destruct (numblocks_cases btype) as [->|[->| ->]]; lia).
    destruct (owned_freeable U sbi1 owned R b (nova_get_numblocks btype * num)) as (? & ? & ?);
      auto.
    destruct (nova_free_blocks_spec slab_garbage sbi1 R b num btype log_page)
      as (ret & sbi' & E & _ & [[-> _]|?]); eauto 10; lia.
Qed.

(** C14: Allocation refines removal from the set of free blocks: the blocks of
    the returned extent were free and no longer are, no other block changes,
    nothing but the free lists and the zeroed memory is written; a failure
    leaves the set as it was. *)
Theorem new_blocks_refines sbi R cpu old num btype zero atype :
  balloc_ok sbi R -> 0 <= cpu < cpus sbi -> 0 < num < 2147483648 -> 0 <= btype ->
  exists ret nr sbi',
    nova_new_blocks sbi cpu old num btype zero atype = Some (ret, nr, sbi') /\
    ((0 < ret <= num /\ (0 < btype -> ret = num) /\
      alloc_frame sbi zero nr (ret * nova_get_numblocks btype) sbi' /\
      exists R', balloc_ok sbi' R' /\
        (forall x, nr <= x < nr + ret * nova_get_numblocks btype -> ~ free_block sbi' R' x) /\
        (forall x, free_block sbi R x <->
           free_block sbi' R' x \/ nr <= x < nr + ret * nova_get_numblocks btype)) \/
     (ret = - ENOSPC /\ nr = old /\ preserves sbi sbi' /\ balloc_ok sbi' R)).
Proof.
  intros Hok Hc Hn Hb.
  destruct (new_blocks_extent sbi R cpu old num btype zero atype Hok Hc Hn Hb)
    as (ret & nr & sbi' & E & [(? & ? & (_ & _ & R' & Hok' & Hfr & Hset) & ?)|?]);
    exists ret, nr, sbi'; split; auto.
  left. split_and!; auto; try lia. exists R'. split_and!; auto. intros x Hx. by apply Hfr.
Qed.

(** C15: Freeing refines insertion into the set of free blocks, whichever of the
    four ways the range meets its neighbours: exactly the freed blocks become
    free, and -ENOMEM leaves the state as it was. *)
Theorem free_blocks_refines sbi R b num btype log_page :
  balloc_ok sbi R -> 0 < num -> 0 < b ->
  b + nova_get_numblocks btype * num <= num_blocks sbi ->
  freeable sbi R b (nova_get_numblocks btype * num) ->
  exists ret sbi',
    nova_free_blocks slab_garbage sbi b num btype log_page = Some (ret, sbi') /\
    preserves sbi sbi' /\
    ((ret = 0 /\ freed_blocks sbi R b (nova_get_numblocks btype * num) sbi') \/
     (ret = - ENOMEM /\ sbi' = sbi /\ kmem_cache_alloc (range_nodes sbi) = None)).
Proof. apply nova_free_blocks_spec. Qed.

(** A double free is refused: when the first block of the range is free
    already, the call fails and the state is unchanged. *)
Theorem free_blocks_double_free sbi R b num btype log_page :
  balloc_ok sbi R -> 0 < num -> free_block sbi R b ->
  exists ret, nova_free_blocks slab_garbage sbi b num btype log_page = Some (ret, sbi) /\
    (ret = - EINVAL \/ ret = - ENOMEM).
Proof. apply nova_free_blocks_double. Qed.

(** Allocating and freeing again the extent that was returned restores the
    set of free blocks. *)
Theorem alloc_free_roundtrip sbi R cpu old num btype zero atype log_page ret nr sbi1 :
  (forall h, kmem_cache_alloc h <> None) ->
  balloc_ok sbi R -> 0 <= cpu < cpus sbi -> 0 < num < 2147483648 -> 0 <= btype ->
  nova_new_blocks sbi cpu old num btype zero atype = Some (ret, nr, sbi1) -> 0 < ret ->
  exists sbi2 R2, nova_free_blocks slab_garbage sbi1 nr ret btype log_page = Some (0, sbi2) /\
    balloc_ok sbi2 R2 /\ (forall x, free_block sbi2 R2 x <-> free_block sbi R x).
Proof.
  intros Hslab Hok Hc Hn Hb E Hr.
  destruct (new_blocks_extent sbi R cpu old num btype zero atype Hok Hc Hn Hb)
    as (r1 & n1 & s1 & E' & [(_ & _ & (Hnr & Hend & R' & Hok' & Hfr & Hset) & [Hg _])|(Hr1 & _)]);
    rewrite E in E'; injection E' as <- <- <-; [|unfold ENOSPC in *; lia].
  rewrite Z.mul_comm in Hend, Hfr. setoid_rewrite Z.mul_comm in Hset.
  destruct (nova_free_blocks_spec slab_garbage sbi1 R' nr ret btype log_page)
    as (? & sbi2 & E2 & _ & [[-> (R2 & Hok2 & Hset2)]|(_ & _ & Hnone)]); auto.
  - by rewrite (sg_blocks _ _ Hg).
  - exists sbi2, R2. split_and!; auto. intros x. rewrite Hset2, Hset. done.
  - by apply Hslab in Hnone.
Qed.

(** A request for 4K blocks fails exactly when every CPU's list has fewer
    free blocks than asked for; it then returns -ENOSPC and changes nothing. *)
Theorem new_blocks_enospc_exact sbi R cpu old num zero atype :
  balloc_ok sbi R -> 0 <= cpu < cpus sbi -> 0 < num < 2147483648 ->
  nova_new_blocks sbi cpu old num NOVA_BLOCK_TYPE_4K zero atype = Some (- ENOSPC, old, sbi) <->
  (forall d fl, 0 <= d < cpus sbi -> nova_get_free_list sbi d = Some fl ->
                num_free_blocks fl < num).
Proof.
  intros Hok Hc Hn. split.
  - intros E.
    destruct (nova_new_blocks_spec sbi R cpu old num NOVA_BLOCK_TYPE_4K zero atype Hok Hc Hn)
      as (? & ? & ? & E' & [(k & Hk & _ & -> & _)|(_ & _ & _ & _ & Hall)]);
      rewrite E in E'; simplify_eq; change (nova_get_numblocks NOVA_BLOCK_TYPE_4K) with 1 in *.
    + rewrite Z.div_1_r, i32_small in * by lia. unfold ENOSPC in *. lia.
    + rewrite Z.mul_1_r in Hall. destruct Hall as [_ Hall]; [done|]. by apply Hall.
  - intros Hall. unfold nova_new_blocks.
    change (nova_get_numblocks NOVA_BLOCK_TYPE_4K) with 1. rewrite Z.mul_1_r. wrap.
    rewrite (proj2 (Z.eqb_neq _ _)) by lia. by eapply all_short.
Qed.

(** The list tried after a list that is short has the most free blocks of
    all CPUs. *)
Theorem candidate_has_most_blocks sbi R :
  balloc_ok sbi R ->
  exists c flc, nova_get_candidate_free_list sbi = Some c /\ 0 <= c < cpus sbi /\
    nova_get_free_list sbi c = Some flc /\
    (forall j fl, 0 <= j < cpus sbi -> nova_get_free_list sbi j = Some fl ->
                  num_free_blocks fl <= num_free_blocks flc).
Proof.
  intros Hok. destruct (nova_get_candidate_free_list_spec sbi R Hok) as (c & E & Hc & Hmax).
  destruct (valid_cpu_get sbi R c Hok (or_introl Hc)) as [flc Hf]. eauto 10.
Qed.

(** Blocks allocated with the zero flag read as zero and no other byte of
    memory changes, for extents below 4 GB on a device that is mapped without
    wrapping around the address space. *)
Theorem new_blocks_zeroes sbi R cpu old num btype zero atype ret nr sbi' :
  balloc_ok sbi R -> 0 <= cpu < cpus sbi -> 0 < num < 2147483648 -> 0 <= btype ->
  zero <> 0 -> 0 < virt_addr sbi ->
  virt_addr sbi + 4096 * num_blocks sbi <= 18446744073709551616 ->
  nova_new_blocks sbi cpu old num btype zero atype = Some (ret, nr, sbi') -> 0 < ret ->
  ret * nova_get_numblocks btype < 1048576 ->
  forall a, nvm sbi' a =
    if decide (virt_addr sbi + 4096 * nr <= a <
               virt_addr sbi + 4096 * (nr + ret * nova_get_numblocks btype))
    then 0 else nvm sbi a.
Proof.
  intros Hok Hc Hn Hb Hz Hv Hmap E Hr Hsmall a.
  destruct (new_blocks_extent sbi R cpu old num btype zero atype Hok Hc Hn Hb)
    as (r1 & n1 & s1 & E' & [(_ & _ & (Hnr & Hend & _) & (_ & _ & Hm))|(Hr1 & _)]);
    rewrite E in E'; injection E' as <- <- <-; [|unfold ENOSPC in *; lia].
  destruct (bo_size _ _ Hok) as (_ & _ & Hsz).
  assert (0 < ret * nova_get_numblocks btype)
    by (destruct (numblocks_cases btype) as [->|[->| ->]]; lia).
  rewrite Hm. rewrite (proj2 (Z.eqb_neq _ _)) by done. simpl.
  unfold memset0, nova_get_block, PAGE_SIZE. rewrite nova_get_block_off_alt by lia.
  rewrite (proj2 (Z.eqb_neq (4096 * nr) 0)) by lia. wrap.
  case_decide as Hd; case_cmp; try done; [|lia].
  apply andb_false_iff in Hif as [?|?]; bool_hyps; lia.
Qed.

(** Initialising a fresh file system succeeds, establishes the allocator's
    invariant and frees exactly the blocks behind the reserved ones, up to a
    multiple of the number of CPUs. *)
Theorem init_blockmap_ok sbi :
  (forall h, kmem_cache_alloc h <> None) -> fresh_blockmap sbi ->
  exists sbi' R, nova_init_blockmap slab_garbage sbi 0 = Some sbi' /\ balloc_ok sbi' R /\
    (forall b, free_block sbi' R b <->
       reserved_blocks sbi <= b < num_blocks sbi / cpus sbi * cpus sbi).
Proof.
  intros Hslab Hfresh.
  destruct (nova_init_blockmap_spec slab_garbage Hslab sbi Hfresh) as (sbi' & ? & ? & _ & _ & ?).
  eauto.
Qed.

(** The count of free blocks reported to the user is the size of the set of
    free blocks. *)
Theorem count_free_blocks_ok sbi R bs :
  balloc_ok sbi R -> NoDup bs -> (forall b, b ∈ bs <-> free_block sbi R b) ->
  nova_count_free_blocks sbi = Some (Z.of_nat (length bs)).
Proof. intros Hok. by apply nova_count_free_blocks_spec. Qed.
End theorems.

(** ** A concrete file system

    Two CPUs, twenty blocks, three of them reserved, freshly mounted. *)

Module Demo.
Import RbList.RbList.

Definition raw : nova_sb_info :=
  SbInfo 65536 20 0 3 2 [] 0 [empty_free_list; empty_free_list] [] [] 0 empty_free_list ∅ (fun _ => 7).

Definition garbage : nova_range_node := RangeNode 0 0.

Definition fs : nova_sb_info :=
  match nova_init_blockmap garbage raw 0 with Some sbi => sbi | None => raw end.

Definition R : Z -> list nova_range_node := init_ranges fs (cpus fs).

Definition st0 : client_state := ClientState fs ∅.

(** The state after an allocation of three data blocks. *)
Definition alloc3 : option (Z * Z * nova_sb_info) := nova_new_blocks fs 0 0 3 0 1 DATA.
Definition fs3 : nova_sb_info := run_state alloc3 fs.
Definition st3 : client_state := ClientState fs3 (∅ ∪ blocks 3 3).

Lemma raw_fresh : fresh_blockmap raw.
Proof. split; simpl; try lia; repeat constructor; vm_compute; done. Qed.

Lemma slab h : kmem_cache_alloc h <> None.
Proof. apply rb_list_alloc. Qed.

Lemma fs_cpus : cpus fs = 2.
Proof. vm_compute. reflexivity. Qed.

Lemma fs_mounted : mounted garbage raw st0.
Proof. split; [vm_compute; reflexivity|done]. Qed.

Lemma fs_ok : balloc_ok fs R.
Proof.
  destruct (nova_init_blockmap_spec garbage slab raw raw_fresh) as (sbi' & E & Hok & _).
  assert (fs = sbi') as <- by (unfold fs; by rewrite E). exact Hok.
Qed.

Lemma fs_free b : free_block fs R b <-> 3 <= b < 20.
Proof.
  destruct (nova_init_blockmap_spec garbage slab raw raw_fresh) as (sbi' & E & _ & _ & _ & Hset).
  assert (fs = sbi') as <- by (unfold fs; by rewrite E). apply Hset.
Qed.

Lemma alloc3_eq : alloc3 = Some (3, 3, fs3).
Proof. apply (run_result _ fs). vm_compute. reflexivity. Qed.

Lemma reach3 : rtc (balloc_step garbage) st0 st3.
Proof.
  apply rtc_once. unfold st0, st3.
  apply (step_alloc garbage fs ∅ 0 0 3 0 1 DATA 3 3 fs3); [done|lia|lia|exact alloc3_eq|lia].
Qed.

(** Block 0 is reserved and can be given to the allocator. *)
Lemma fs_freeable : freeable fs R 1 2.
Proof.
  intros x Hx. split.
  - assert (x = 1 \/ x = 2) as [-> | ->] by lia; vm_compute; reflexivity.
  - rewrite fs_free. lia.
Qed.

Lemma balloc_partition_witness :
  exists R', balloc_ok fs3 R' /\
    (forall b, b ∈ cs_owned st3 -> ~ free_block fs3 R' b) /\
    (forall b, managed raw b <-> free_block fs3 R' b \/ b ∈ cs_owned st3).
Proof. exact (balloc_partition garbage raw st0 st3 slab raw_fresh fs_mounted reach3). Defined.

(** Two more log blocks, from the list of the other CPU. *)
Definition alloc2 : option (Z * Z * nova_sb_info) := nova_new_blocks fs3 1 0 2 0 0 LOG.
Definition fs5 : nova_sb_info := run_state alloc2 fs.

Lemma alloc2_eq : alloc2 = Some (2, 10, fs5).
Proof. apply (run_result _ fs). vm_compute. reflexivity. Qed.

Lemma balloc_no_double_allocation_witness :
  alloc2 = Some (2, 10, fs5) /\
  forall b, 10 <= b < 10 + 2 * nova_get_numblocks 0 -> managed raw b /\ b ∉ cs_owned st3.
Proof.
  split; [exact alloc2_eq|].
  apply (balloc_no_double_allocation garbage raw st0 st3 1 0 2 0 0 LOG 2 10 fs5
           slab raw_fresh fs_mounted reach3);
    [vm_compute; split; congruence|lia|lia|exact alloc2_eq|lia].
Defined.

Lemma balloc_no_fault_witness :
  (exists ret nr sbi', nova_new_blocks fs3 0 0 1 0 0 DATA = Some (ret, nr, sbi') /\
     (0 < ret <= 1 \/ ret = - ENOSPC)) /\
  exists sbi', nova_free_blocks garbage fs3 4 1 0 0 = Some (0, sbi').
Proof.
  destruct (mounted_partition garbage raw st0 slab raw_fresh fs_mounted) as [R0 Hp].
  destruct (balloc_no_fault garbage (managed raw) st0 R0 st3 0 0 1 0 0 DATA 4 0 Hp reach3)
    as [Ha Hf]; [vm_compute; split; congruence|lia|lia|].
  split; [exact Ha|]. destruct Hf as (ret & sbi' & E & [->|(_ & _ & Hnone)]); [| |by exists sbi'|by apply slab in Hnone].
  - intros x Hx. apply elem_of_blocks in Hx. apply elem_of_union. right.
    apply elem_of_blocks. change (nova_get_numblocks 0) with 1 in Hx. lia.
  - intros x Hx. apply elem_of_blocks in Hx. change (nova_get_numblocks 0) with 1 in Hx.
    assert (x = 4) as -> by lia. reflexivity.
Defined.

Lemma new_blocks_refines_witness :
  exists ret nr sbi', nova_new_blocks fs 0 0 3 0 1 DATA = Some (ret, nr, sbi') /\
    ((0 < ret <= 3 /\ (0 < 0 -> ret = 3) /\ alloc_frame fs 1 nr (ret * 1) sbi' /\
      exists R', balloc_ok sbi' R' /\
        (forall x, nr <= x < nr + ret * 1 -> ~ free_block sbi' R' x) /\
        (forall x, free_block fs R x <-> free_block sbi' R' x \/ nr <= x < nr + ret * 1)) \/
     (ret = - ENOSPC /\ nr = 0 /\ preserves fs sbi' /\ balloc_ok sbi' R)).
Proof. apply (new_blocks_refines fs R 0 0 3 0 1 DATA fs_ok); [vm_compute; split; congruence|lia|lia]. Defined.

Lemma free_blocks_refines_witness :
  exists ret sbi', nova_free_blocks garbage fs 1 2 0 0 = Some (ret, sbi') /\ preserves fs sbi' /\
    ((ret = 0 /\ freed_blocks fs R 1 2 sbi') \/
     (ret = - ENOMEM /\ sbi' = fs /\ kmem_cache_alloc (range_nodes fs) = None)).
Proof.
  apply (free_blocks_refines garbage fs R 1 2 0 0 fs_ok); [lia|lia| |exact fs_freeable].
  vm_compute. discriminate.
Defined.

Lemma free_blocks_double_free_witness :
  exists ret, nova_free_blocks garbage fs 12 2 0 0 = Some (ret, fs) /\
    (ret = - EINVAL \/ ret = - ENOMEM).
Proof.
  apply (free_blocks_double_free garbage fs R 12 2 0 0 fs_ok); [lia|]. apply fs_free. lia.
Defined.

Lemma alloc_free_roundtrip_witness :
  exists sbi2 R2, nova_free_blocks garbage fs3 3 3 0 0 = Some (0, sbi2) /\
    balloc_ok sbi2 R2 /\ (forall x, free_block sbi2 R2 x <-> free_block fs R x).
Proof.
  apply (alloc_free_roundtrip garbage fs R 0 0 3 0 1 DATA 0 3 3 fs3 slab fs_ok);
    [vm_compute; split; congruence|lia|lia|exact alloc3_eq|lia].
Defined.

Lemma new_blocks_enospc_exact_witness :
  nova_new_blocks fs 0 5 11 NOVA_BLOCK_TYPE_4K 0 DATA = Some (- ENOSPC, 5, fs).
Proof.
  apply (new_blocks_enospc_exact fs R 0 5 11 0 DATA fs_ok); [vm_compute; split; congruence|lia|].
  intros d fl Hd. assert (d = 0 \/ d = 1) as [-> | ->] by (rewrite fs_cpus in Hd; lia);
    vm_compute; intros [= <-]; reflexivity.
Defined.

Lemma candidate_has_most_blocks_witness :
  exists c flc, nova_get_candidate_free_list fs = Some c /\ 0 <= c < cpus fs /\
    nova_get_free_list fs c = Some flc /\
    (forall j fl, 0 <= j < cpus fs -> nova_get_free_list fs j = Some fl ->
                  num_free_blocks fl <= num_free_blocks flc).
Proof. exact (candidate_has_most_blocks fs R fs_ok). Defined.

Lemma new_blocks_zeroes_witness : nvm fs3 (65536 + 4096 * 4) = 0 /\ nvm fs3 65536 = 7.
Proof.
  assert (forall a, nvm fs3 a = if decide (65536 + 4096 * 3 <= a < 65536 + 4096 * (3 + 3 * 1))
                                then 0 else nvm fs a) as E.
  { apply (new_blocks_zeroes fs R 0 0 3 0 1 DATA 3 3 fs3 fs_ok);
      [vm_compute; split; congruence|lia|lia|lia|vm_compute; reflexivity|vm_compute; discriminate
      |exact alloc3_eq|lia|vm_compute; reflexivity]. }
  rewrite !E. split; vm_compute; reflexivity.
Defined.

Lemma init_blockmap_ok_witness :
  exists sbi' R', nova_init_blockmap garbage raw 0 = Some sbi' /\ balloc_ok sbi' R' /\
    (forall b, free_block sbi' R' b <-> 3 <= b < 20 / 2 * 2).
Proof. exact (init_blockmap_ok garbage raw slab raw_fresh). Defined.

Lemma count_free_blocks_ok_witness : nova_count_free_blocks fs = Some 17.
Proof.
  apply (count_free_blocks_ok fs R (seqZ 3 17) fs_ok); [apply NoDup_seqZ|].
  intros b. rewrite elem_of_seqZ, fs_free. lia.
Defined.

End Demo.
