(* ===== verification/TreeEdits.v ===== *)
(** * Edits of a range tree

    The four edits the clients of a range tree make (changing a node in place,
    erasing one, inserting a fresh one, replacing two neighbours by one), each
    with what it does to the ranges the tree holds. *)

From S2P Require Import Prelude Layout RangeTree State Balloc BallocFacts.

(** The position of a node in a tree. *)
Record node_at (h : node_heap) (t : rb_tree) (rs : list nova_range_node) (n : ptr)
    (ms1 ms2 : list ptr) (qs1 : list nova_range_node) (rn : nova_range_node)
    (qs2 : list nova_range_node) : Prop := {
  na_nodes : inorder t = ms1 ++ n :: ms2;
  na_ranges : rs = qs1 ++ rn :: qs2;
  na_before : holds h ms1 qs1;
  na_here : h !! n = Some rn;
  na_after : holds h ms2 qs2;
}.

Lemma tree_ok_at h t rs n :
  tree_ok h t rs -> n ∈ inorder t ->
  exists ms1 ms2 qs1 rn qs2, node_at h t rs n ms1 ms2 qs1 rn qs2.
Proof.
  intros [Hh _ _] Hin. apply list_elem_of_split in Hin as (ms1 & ms2 & E).
  rewrite E in Hh. apply holds_app_inv in Hh as (qs1 & qs & -> & H1 & H2).
  apply holds_cons_inv in H2 as (rn & qs2 & -> & Hn & H2).
  exists ms1, ms2, qs1, rn, qs2. by split.
Qed.

(** The first node. *)
Lemma tree_ok_head h t r rs :
  tree_ok h t (r :: rs) -> exists n ms, node_at h t (r :: rs) n [] ms [] r rs.
Proof.
  intros [Hh _ _]. inversion Hh as [|n ? ms ? Hn Hms E]; subst. exists n, ms.
  split; auto. constructor.
Qed.

Lemma ranges_tree_ok h t rs : ranges_ok rs -> holds h (inorder t) rs -> tree_ok h t rs.
Proof. intros [] ?. by split. Qed.

Section edits.
Context `{RbTreeLaws}.
Implicit Types (h : node_heap) (t : rb_tree).

Lemma node_at_nodup h t rs n ms1 ms2 qs1 rn qs2 :
  tree_ok h t rs -> node_at h t rs n ms1 ms2 qs1 rn qs2 ->
  (n ∉ ms1 ++ ms2) /\ NoDup (ms1 ++ n :: ms2).
Proof.
  intros Ht [E _ _ _ _]. apply tree_ok_NoDup in Ht. rewrite E in Ht. split; [|done].
  apply NoDup_app in Ht as (_ & Hx & Hy). apply NoDup_cons in Hy as [Hy _]. set_solver.
Qed.

Lemma tree_ok_alter h t rs n ms1 ms2 qs1 rn qs2 f :
  tree_ok h t rs -> node_at h t rs n ms1 ms2 qs1 rn qs2 ->
  ranges_ok (qs1 ++ f rn :: qs2) -> tree_ok (alter f n h) t (qs1 ++ f rn :: qs2).
Proof.
  intros Ht Hat Hrs. pose proof (node_at_nodup _ _ _ _ _ _ _ _ _ Ht Hat) as [_ Hnd].
  destruct Hat as [E _ H1 Hn H2]. apply ranges_tree_ok; [done|]. rewrite E.
  by apply holds_alter.
Qed.

Lemma tree_ok_erase h t rs n ms1 ms2 qs1 rn qs2 :
  tree_ok h t rs -> node_at h t rs n ms1 ms2 qs1 rn qs2 ->
  tree_ok (delete n h) (rb_erase n t) (qs1 ++ qs2) /\ inorder (rb_erase n t) = ms1 ++ ms2.
Proof.
  intros Ht Hat. pose proof (node_at_nodup _ _ _ _ _ _ _ _ _ Ht Hat) as [Hnin _].
  destruct Hat as [E Er H1 Hn H2]. subst rs.
  assert (inorder (rb_erase n t) = ms1 ++ ms2) as Ei.
  { apply rb_erase_inorder; [by eapply tree_ok_NoDup|done]. }
  split; [|done]. apply ranges_tree_ok.
  - by eapply ranges_ok_remove, tree_ok_ranges.
  - rewrite Ei. apply holds_delete; [done|]. by apply holds_app.
Qed.

(** A node that lies between two parts of the tree is inserted there. *)
Lemma tree_ok_insert h t ms1 ms2 qs1 qs2 c rc :
  tree_ok h t (qs1 ++ qs2) -> inorder t = ms1 ++ ms2 -> holds h ms1 qs1 -> holds h ms2 qs2 ->
  h !! c = Some rc -> ranges_ok (qs1 ++ rc :: qs2) ->
  exists t', nova_insert_range_node h t c = Some (0, t') /\ inorder t' = ms1 ++ c :: ms2 /\
    tree_ok h t' (qs1 ++ rc :: qs2).
Proof.
  intros Ht E H1 H2 Hc Hrs.
  pose proof Hrs as (_ & _ & Hw & Hb & Ha)%ranges_ok_mid.
  destruct (nova_insert_range_node_ok h t (qs1 ++ qs2) c rc ms1 ms2 qs1 qs2)
    as (t' & Ei & Ein); auto.
  { unfold wf_range in Hw. split; auto.
    - forall_lia Hb.
    - forall_lia Ha. }
  exists t'. split_and!; auto. apply ranges_tree_ok; [done|]. rewrite Ein.
  apply holds_app; [done|]. by constructor.
Qed.

Lemma rb_next_at h t rs n ms1 ms2 qs1 rn qs2 :
  tree_ok h t rs -> node_at h t rs n ms1 ms2 qs1 rn qs2 -> rb_next t n = head ms2.
Proof.
  intros Ht [E _ _ _ _]. eapply rb_next_inorder; [by eapply tree_ok_NoDup|done].
Qed.
End edits.

(** Looking up a number: the range that covers it, or none. *)
Lemma nova_find_range_node_spec h t rs x :
  tree_ok h t rs ->
  (exists n rn, nova_find_range_node h t x = Some (1, Some n) /\ n ∈ inorder t /\
     h !! n = Some rn /\ in_range x rn) \/
  (exists c, nova_find_range_node h t x = Some (0, c) /\ ~ in_ranges x rs).
Proof.
  intros Ht. unfold nova_find_range_node.
  destruct (find_range_loop_spec h t rs x None Ht)
    as [(n & rn & -> & ? & ? & _ & ?)|(c & ns1 & ns2 & rs1 & rs2 & -> & Hs & _)].
  - left. eauto 10.
  - right. exists c. split; [done|]. by eapply slot_at_disjoint_low.
Qed.
