(* ===== verification/InodeMap.v ===== *)
(** * Inode numbers (inode.c, balloc.c)

    Each CPU keeps a tree of the inode numbers in use, divided by the number of
    CPUs; a new inode takes the number after the first range of the tree, and
    freeing one shrinks, removes or splits the range it lies in.  The component
    refines a set of inode numbers in use. *)

From S2P Require Import Prelude Layout RangeTree RbList State Balloc BallocFacts BallocSpec TreeEdits.

(** ** The operations *)

(** [MAX_INODE] of [nova_alloc_unused_inode]. *)
Definition MAX_INODE : Z := 2147483648.

Definition nova_get_inode_map (sbi : nova_sb_info) (cpu : Z) : option inode_map :=
  if cpu <? 0 then None else inode_maps sbi !! Z.to_nat cpu.

Definition put_inode_map (sbi : nova_sb_info) (cpu : Z) (im : inode_map) : nova_sb_info :=
  with_inode_maps (<[Z.to_nat cpu := im]> (inode_maps sbi)) sbi.

(** The found flag and the range, for the map the number belongs to. *)
Definition nova_search_inodetree (sbi : nova_sb_info) (ino : Z) : option (Z * option ptr) :=
  if cpus sbi =? 0 then None
  else
    im ← nova_get_inode_map sbi (ino mod cpus sbi);
    nova_find_range_node (range_nodes sbi) (inode_inuse_tree im) (ino / cpus sbi).

Section operations.
Context `{RbTree} (slab_garbage : nova_range_node).

(** Inserts [new_node], a node of [sbi]'s slab, into the tree of [cpu]. *)
Definition nova_insert_inodetree (sbi : nova_sb_info) (new_node : ptr) (cpu : Z) :
    option (Z * nova_sb_info) :=
  im ← nova_get_inode_map sbi cpu;
  res ← nova_insert_range_node (range_nodes sbi) (inode_inuse_tree im) new_node;
  let '(ret, tree) := (res : Z * rb_tree) in
  Some (ret, put_inode_map sbi cpu (with_inode_inuse_tree tree im)).

(** The reserved numbers of every CPU, from [i] on. *)
Fixpoint init_inuse_loop (n : nat) (i : Z) (range_high : Z) (sbi : nova_sb_info) :
    option (Z * nova_sb_info) :=
  match n with
  | O => Some (0, sbi)
  | S n =>
    match nova_alloc_range_node (range_nodes sbi) slab_garbage with
    | None => Some (- ENOMEM, sbi)
    | Some (range_node, h) =>
      let sbi := with_range_nodes (<[range_node := RangeNode 0 range_high]> h) sbi in
      res ← nova_insert_inodetree sbi range_node i;
      let '(ret, sbi) := (res : Z * nova_sb_info) in
      if negb (ret =? 0) then
        Some (ret, with_range_nodes (nova_free_range_node range_node (range_nodes sbi)) sbi)
      else
        im ← nova_get_inode_map sbi i;
        let im := with_first_inode_range (Some range_node) (with_num_range_node_inode 1 im) in
        init_inuse_loop n (i + 1) range_high (put_inode_map sbi i im)
    end
  end.

(** The highest reserved number of a map. *)
Definition inuse_range_high (cpus : Z) : Z :=
  let range_high := (NOVA_NORMAL_INODE_START - 1) / cpus in
  if negb (NOVA_NORMAL_INODE_START mod cpus =? 0) then range_high + 1 else range_high.

Definition nova_init_inode_inuse_list (sbi : nova_sb_info) : option (Z * nova_sb_info) :=
  if cpus sbi =? 0 then None
  else
    let sbi := with_s_inodes_used_count NOVA_NORMAL_INODE_START sbi in
    init_inuse_loop (Z.to_nat (cpus sbi)) 0 (inuse_range_high (cpus sbi)) sbi.

(** Returns the code's result and [*ino], whose old value is [ino]. *)
Definition nova_alloc_unused_inode (sbi : nova_sb_info) (cpuid ino : Z) :
    option (Z * Z * nova_sb_info) :=
  im ← nova_get_inode_map sbi cpuid;
  i ← first_inode_range im;
  let h := range_nodes sbi in
  ri ← h !! i;
  let next_i := rb_next (inode_inuse_tree im) i in
  next_range_low ← match next_i with
                   | None => Some MAX_INODE
                   | Some n => rn ← h !! n; Some (range_low rn)
                   end;
  let new_ino := u64 (range_high ri + 1) in
  let finish (h : node_heap) (im : inode_map) :=
    let sbi := with_range_nodes h sbi in
    let sbi := with_s_inodes_used_count (u64 (s_inodes_used_count sbi + 1)) sbi in
    let sbi := put_inode_map sbi cpuid (with_allocated (i32 (allocated im + 1)) im) in
    Some (0, u64 (u64 (new_ino * cpus sbi) + cpuid), sbi) in
  match next_i with
  | Some n =>
    if new_ino =? u64 (next_range_low - 1) then
      (* fill the gap completely *)
      rn ← h !! n;
      let h := nova_free_range_node n (set_range_high i (range_high rn) h) in
      let im := with_inode_inuse_tree (rb_erase n (inode_inuse_tree im)) im in
      finish h (with_num_range_node_inode (u64 (num_range_node_inode im - 1)) im)
    else if new_ino <? u64 (next_range_low - 1) then
      finish (set_range_high i new_ino h) im
    else Some (- ENOSPC, ino, sbi)
  | None =>
    if new_ino <? u64 (next_range_low - 1) then
      finish (set_range_high i new_ino h) im
    else Some (- ENOSPC, ino, sbi)
  end.

(** The label [block_found]. *)
Definition inode_freed (sbi : nova_sb_info) (cpuid : Z) (h : node_heap) (im : inode_map) (ret : Z) :
    option (Z * nova_sb_info) :=
  let sbi := with_range_nodes h sbi in
  let sbi := with_s_inodes_used_count (u64 (s_inodes_used_count sbi - 1)) sbi in
  Some (ret, put_inode_map sbi cpuid (with_freed (i32 (freed im + 1)) im)).

Definition nova_free_inuse_inode (sbi : nova_sb_info) (ino : Z) : option (Z * nova_sb_info) :=
  if cpus sbi =? 0 then None
  else
    let cpuid := ino mod cpus sbi in
    let internal_ino := ino / cpus sbi in
    im ← nova_get_inode_map sbi cpuid;
    res ← nova_search_inodetree sbi ino;
    let '(found, ret_node) := (res : Z * option ptr) in
    if found =? 0 then Some (- EINVAL, sbi)
    else
      i ← ret_node;
      let h := range_nodes sbi in
      ri ← h !! i;
      if (internal_ino =? range_low ri) && (internal_ino =? range_high ri) then
        (* fits entire node *)
        let im := with_inode_inuse_tree (rb_erase i (inode_inuse_tree im)) im in
        inode_freed sbi cpuid (nova_free_range_node i h)
          (with_num_range_node_inode (u64 (num_range_node_inode im - 1)) im) 0
      else if (internal_ino =? range_low ri) && (internal_ino <? range_high ri) then
        (* aligns left *)
        inode_freed sbi cpuid (set_range_low i (u64 (internal_ino + 1)) h) im 0
      else if (range_low ri <? internal_ino) && (internal_ino =? range_high ri) then
        (* aligns right *)
        inode_freed sbi cpuid (set_range_high i (u64 (internal_ino - 1)) h) im 0
      else if (range_low ri <? internal_ino) && (internal_ino <? range_high ri) then
        (* aligns somewhere in the middle *)
        match nova_alloc_range_node h slab_garbage with
        | None => inode_freed sbi cpuid h im 0
        | Some (curr_node, h) =>
          let h := <[curr_node := RangeNode (u64 (internal_ino + 1)) (range_high ri)]> h in
          let h := set_range_high i (u64 (internal_ino - 1)) h in
          res ← nova_insert_inodetree (with_range_nodes h sbi) curr_node cpuid;
          let '(ret, sbi) := (res : Z * nova_sb_info) in
          if negb (ret =? 0) then
            Some (ret, with_range_nodes (nova_free_range_node curr_node h) sbi)
          else
            im ← nova_get_inode_map sbi cpuid;
            inode_freed sbi cpuid h
              (with_num_range_node_inode (u64 (num_range_node_inode im + 1)) im) ret
        end
      else Some (0, sbi).
End operations.

(** ** The invariant *)

(** One map: its tree starts with the reserved numbers [0 .. base], and the
    ranges stay below [MAX_INODE]. *)
Record inode_map_ok (h : node_heap) (im : inode_map) (base : Z) (rs : list nova_range_node) :
    Prop := {
  im_tree : tree_ok h (inode_inuse_tree im) rs;
  im_first : first_inode_range im = head (inorder (inode_inuse_tree im));
  im_count : num_range_node_inode im = Z.of_nat (length rs);
  im_base : exists r rest, rs = r :: rest /\ range_low r = 0 /\ base <= range_high r;
  im_limit : Forall (fun r => range_high r < MAX_INODE) rs;
}.

(** [R c] are the ranges of the map of CPU [c]. *)
Record inodes_ok (sbi : nova_sb_info) (R : Z -> list nova_range_node) : Prop := {
  io_cpus : cpus sbi = Z.of_nat (length (inode_maps sbi)) /\ 0 < cpus sbi <= 64;
  io_map c im : 0 <= c < cpus sbi -> nova_get_inode_map sbi c = Some im ->
    inode_map_ok (range_nodes sbi) im (inuse_range_high (cpus sbi)) (R c);
  io_apart c d im im' n : 0 <= c < cpus sbi -> 0 <= d < cpus sbi -> c <> d ->
    nova_get_inode_map sbi c = Some im -> nova_get_inode_map sbi d = Some im' ->
    n ∈ inorder (inode_inuse_tree im) -> n ∉ inorder (inode_inuse_tree im');
}.

(** The abstract state: the inode numbers in use. *)
Definition used_ino (sbi : nova_sb_info) (R : Z -> list nova_range_node) (ino : Z) : Prop :=
  in_ranges (ino / cpus sbi) (R (ino mod cpus sbi)).

Definition inode_node (sbi : nova_sb_info) (n : ptr) : Prop :=
  exists c im, 0 <= c < cpus sbi /\ nova_get_inode_map sbi c = Some im /\
    n ∈ inorder (inode_inuse_tree im).

(** What the operations on inode numbers leave alone: the block allocator, the
    mapping tables, the memory and the range nodes of others. *)
Record inode_frame (sbi sbi' : nova_sb_info) : Prop := {
  if_virt : virt_addr sbi' = virt_addr sbi;
  if_cpus : cpus sbi' = cpus sbi;
  if_blocks : num_blocks sbi' = num_blocks sbi;
  if_per : per_list_blocks sbi' = per_list_blocks sbi;
  if_lists : free_lists sbi' = free_lists sbi;
  if_shared : shared_free_list sbi' = shared_free_list sbi;
  if_tables : inode_page_mapping_tables sbi' = inode_page_mapping_tables sbi /\
    inode_page_mapping_table_locks sbi' = inode_page_mapping_table_locks sbi;
  if_nvm : nvm sbi' = nvm sbi;
  if_nodes n r : range_nodes sbi !! n = Some r -> ~ inode_node sbi n ->
    range_nodes sbi' !! n = Some r;
}.

(** ** One map *)

Section one_map.
Context `{RbTreeLaws}.
Implicit Types (h : node_heap) (im : inode_map).

(** The result of an edit of one map: the new state is valid, holds [P], and
    only the nodes of the map and [fresh] were touched. *)
Definition map_edit h im base (fresh : option ptr) (P : Z -> Prop) h' im' rs' : Prop :=
  inode_map_ok h' im' base rs' /\ (forall x, in_ranges x rs' <-> P x) /\
  changes_only h h' (option_list fresh ++ inorder (inode_inuse_tree im)) /\
  (forall n, n ∈ inorder (inode_inuse_tree im') ->
             fresh = Some n \/ n ∈ inorder (inode_inuse_tree im)).

(** Extending the first range by one number. *)
Lemma map_extend h im base r rest i :
  inode_map_ok h im base (r :: rest) -> first_inode_range im = Some i ->
  Forall (before (RangeNode (range_low r) (range_high r + 1))) rest ->
  range_high r + 1 < MAX_INODE ->
  map_edit h im base None (fun x => in_ranges x (r :: rest) \/ x = range_high r + 1)
    (set_range_high i (range_high r + 1) h) im
    (RangeNode (range_low r) (range_high r + 1) :: rest).
Proof.
  intros [Ht Hf Hc Hb Hl] Hi Hbef Hlim.
  destruct (tree_ok_head _ _ _ _ Ht) as (n & ms & Hat).
  assert (i = n) as -> by (rewrite (na_nodes _ _ _ _ _ _ _ _ _ Hat) in Hf; simpl in Hf; congruence).
  pose proof (tree_ok_ranges _ _ _ Ht) as Hrs.
  apply (ranges_ok_mid []) in Hrs as (_ & Hrest & Hw & _ & _). unfold MAX_INODE in *.
  split; [|split; [|split]].
  - split; auto.
    + apply (tree_ok_alter h _ (r :: rest) n [] ms [] r rest (fun x => RangeNode (range_low x) (range_high r + 1)));
        auto.
      apply (ranges_ok_mid []). unfold wf_range, RANGE_LIMIT in *; simpl. split_and!; auto; try lia.
      apply ranges_ok_nil.
    + destruct Hb as (r0 & rest0 & Er & E0 & Hb). injection Er as <- _.
      eexists _, _. split; [done|]. simpl. lia.
    + apply Forall_cons in Hl as [_ Hl]. by constructor.
  - intros x. rewrite !in_ranges_cons. unfold in_range, wf_range in *; simpl. intuition lia.
  - intros m Hm. apply lookup_alter_ne. rewrite (na_nodes _ _ _ _ _ _ _ _ _ Hat) in Hm. set_solver.
  - auto.
Qed.

(** Joining the first two ranges over a gap of one number. *)
Lemma map_join h im base r rn rest i n :
  inode_map_ok h im base (r :: rn :: rest) -> first_inode_range im = Some i ->
  rb_next (inode_inuse_tree im) i = Some n -> range_high r + 2 = range_low rn ->
  map_edit h im base None (fun x => in_ranges x (r :: rn :: rest) \/ x = range_high r + 1)
    (nova_free_range_node n (set_range_high i (range_high rn) h))
    (with_num_range_node_inode (u64 (num_range_node_inode im - 1))
       (with_inode_inuse_tree (rb_erase n (inode_inuse_tree im)) im))
    (RangeNode (range_low r) (range_high rn) :: rest).
Proof.
  intros [Ht Hf Hc Hb Hl] Hi Hnx Hgap.
  pose proof (tree_ok_ranges _ _ _ Ht) as Hrs. pose proof (sum_ranges_limit _ Hrs) as Hlim.
  pose proof (sum_ranges_nonneg _ Hrs) as Hnn.
  pose proof Hrs as (_ & Hrs2 & Hwr & _ & Hbef)%(ranges_ok_mid []).
  apply (ranges_ok_mid []) in Hrs2 as (_ & Hrest & Hwn & _ & Hbn).
  destruct Ht as [Hh Hs Hw].
  inversion Hh as [|i' ? ns ? Hi' Hh' E]; subst.
  inversion Hh' as [|n' ? ms ? Hn' Hms]; subst.
  assert (i' = i) as -> by (rewrite <- E in Hf; simpl in Hf; congruence).
  assert (tree_ok h (inode_inuse_tree im) (r :: rn :: rest)) as Ht by (split; auto).
  assert (node_at h (inode_inuse_tree im) (r :: rn :: rest) i [] (n' :: ms) [] r (rn :: rest)) as Hat
    by (split; auto; constructor).
  rewrite (rb_next_at _ _ _ _ _ _ _ _ _ Ht Hat) in Hnx. injection Hnx as ->.
  pose proof (node_at_nodup _ _ _ _ _ _ _ _ _ Ht Hat) as [Hni _].
  assert (node_at h (inode_inuse_tree im) (r :: rn :: rest) n [i] ms [r] rn rest) as Hat2
    by (split; auto; constructor; [done|constructor]).
  destruct (tree_ok_erase _ _ _ _ _ _ _ _ _ Ht Hat2) as [Ht2 Ei]. simpl in Ei, Ht2.
  pose proof (node_at_nodup _ _ _ _ _ _ _ _ _ Ht Hat2) as [Hnn2 _].
  split; [|split; [|split]].
  - split; simpl.
    + unfold nova_free_range_node, set_range_high. rewrite delete_alter_ne by set_solver.
      apply (tree_ok_alter (delete n h) _ (r :: rest) i [] ms [] r rest
               (fun x => RangeNode (range_low x) (range_high rn)) Ht2).
      { split; auto; [constructor|rewrite lookup_delete_ne by set_solver; done|].
        apply holds_delete; [set_solver|done]. }
      apply (ranges_ok_mid []). unfold wf_range in *; simpl. split_and!; auto; try lia.
      all: first [apply ranges_ok_nil|forall_lia Hbn].
    + rewrite Ei. done.
    + rewrite Hc. simpl length in *. unfold RANGE_LIMIT in *. wrap. lia.
    + destruct Hb as (r0 & rest0 & Er & E0 & Hb). injection Er as <- _.
      unfold wf_range in *. eexists _, _. split; [done|]. simpl. lia.
    + apply Forall_cons in Hl as [_ Hl]. apply Forall_cons in Hl as [Hln Hl]. by constructor.
  - intros x. rewrite !in_ranges_cons. unfold in_range, wf_range in *; simpl. intuition lia.
  - intros m Hm. rewrite <- E in Hm. unfold nova_free_range_node.
    rewrite lookup_delete_ne by set_solver. apply lookup_alter_ne. set_solver.
  - simpl. rewrite Ei, <- E. set_solver.
Qed.

(** Where the reserved range sits relative to a node. *)
Lemma base_split base qs1 ri qs2 :
  (exists r rest, qs1 ++ ri :: qs2 = r :: rest /\ range_low r = 0 /\ base <= range_high r) ->
  (exists r rest, qs1 = r :: rest /\ range_low r = 0 /\ base <= range_high r) \/
  (qs1 = [] /\ range_low ri = 0 /\ base <= range_high ri).
Proof.
  intros (r & rest & E & ? & ?). destruct qs1 as [|q qs1]; simpl in E; simplify_eq; [auto|].
  left. eauto.
Qed.

(** Changing the range of one node in place. *)
Lemma map_replace h im base rs i ms1 ms2 qs1 ri qs2 f P :
  inode_map_ok h im base rs -> node_at h (inode_inuse_tree im) rs i ms1 ms2 qs1 ri qs2 ->
  ranges_ok (qs1 ++ f ri :: qs2) -> range_high (f ri) < MAX_INODE ->
  (qs1 = [] -> range_low (f ri) = 0 /\ base <= range_high (f ri)) ->
  (forall x, in_ranges x (qs1 ++ f ri :: qs2) <-> P x) ->
  map_edit h im base None P (alter f i h) im (qs1 ++ f ri :: qs2).
Proof.
  intros [Ht Hf Hc Hb Hl] Hat Hok Hlim Hbase HP. pose proof Hat as [En Er _ _ _]. subst rs.
  split; [|split; [done|split]].
  - split; auto.
    + by eapply tree_ok_alter.
    + rewrite Hc, !length_app. done.
    + apply base_split in Hb as [(r & rest & -> & ? & ?)|(-> & _ & _)]; simpl; [eauto|].
      eexists _, _. split; [done|]. by apply Hbase.
    + apply Forall_app in Hl as [Hl1 Hl2]. apply Forall_cons in Hl2 as [_ Hl2].
      apply Forall_app. split; [done|]. by constructor.
  - intros m Hm. apply lookup_alter_ne. rewrite En in Hm. set_solver.
  - auto.
Qed.

(** Removing one node. *)
Lemma map_remove h im base rs i ms1 ms2 qs1 ri qs2 :
  inode_map_ok h im base rs -> node_at h (inode_inuse_tree im) rs i ms1 ms2 qs1 ri qs2 ->
  qs1 <> [] ->
  map_edit h im base None (fun x => in_ranges x (qs1 ++ qs2)) (nova_free_range_node i h)
    (with_num_range_node_inode (u64 (num_range_node_inode im - 1))
       (with_inode_inuse_tree (rb_erase i (inode_inuse_tree im)) im)) (qs1 ++ qs2).
Proof.
  intros [Ht Hf Hc Hb Hl] Hat Hne. pose proof Hat as [En Er H1 _ _]. subst rs.
  pose proof (sum_ranges_limit _ (tree_ok_ranges _ _ _ Ht)) as Hlim.
  pose proof (sum_ranges_nonneg _ (tree_ok_ranges _ _ _ Ht)) as Hnn.
  destruct (tree_ok_erase _ _ _ _ _ _ _ _ _ Ht Hat) as [Ht' Ei].
  split; [|split; [done|split]].
  - split; simpl; auto.
    + rewrite Ei, Hf, En. destruct ms1; [|done]. by inversion H1; subst.
    + rewrite Hc. rewrite !length_app in *. simpl in *. unfold RANGE_LIMIT in *. wrap. lia.
    + apply base_split in Hb as [(r & rest & -> & ? & ?)|(-> & _ & _)]; simpl; [eauto|done].
    + apply Forall_app in Hl as [Hl1 Hl2]. apply Forall_cons in Hl2 as [_ Hl2].
      by apply Forall_app.
  - intros m Hm. apply lookup_delete_ne. rewrite En in Hm. set_solver.
  - simpl. rewrite Ei, En. set_solver.
Qed.

(** The two ranges that remain when [x] is taken out of the middle of one. *)
Lemma split_ranges_ok qs1 ri qs2 x :
  ranges_ok (qs1 ++ ri :: qs2) -> range_low ri < x < range_high ri ->
  ranges_ok (qs1 ++ RangeNode (range_low ri) (x - 1) :: RangeNode (x + 1) (range_high ri) :: qs2).
Proof.
  intros (Hq1 & Hq2 & Hw & Hb1 & Hb2)%ranges_ok_mid Hx. apply ranges_ok_mid.
  unfold wf_range, before in *; simpl. split_and!; auto; try lia.
  - apply (ranges_ok_mid []). unfold wf_range, before; simpl.
    split_and!; auto with nova; lia.
  - constructor; [simpl; lia|]. forall_lia Hb2.
Qed.

Lemma split_ranges_set qs1 ri qs2 x y :
  ranges_ok (qs1 ++ ri :: qs2) -> range_low ri < x < range_high ri ->
  in_ranges y (qs1 ++ RangeNode (range_low ri) (x - 1) :: RangeNode (x + 1) (range_high ri) :: qs2)
  <-> in_ranges y (qs1 ++ ri :: qs2) /\ y <> x.
Proof.
  intros Hrs Hx. pose proof (mid_disjoint y _ _ _ Hrs) as Hd.
  rewrite !in_ranges_app in *. rewrite !in_ranges_cons. unfold in_range in *; simpl.
  assert (y = x -> ~ (in_ranges y qs1 \/ in_ranges y qs2)) by (intros -> H'; apply Hd in H'; lia).
  intuition lia.
Qed.

(** The nodes of a split: [c] is the new one. *)
Lemma split_nodes h t rs i ms1 ms2 qs1 ri qs2 c x :
  tree_ok h t rs -> node_at h t rs i ms1 ms2 qs1 ri qs2 -> h !! c = None ->
  range_low ri < x < range_high ri ->
  let lo := RangeNode (range_low ri) (x - 1) in let up := RangeNode (x + 1) (range_high ri) in
  let h1 := set_range_high i (x - 1) (<[c := up]> h) in
  tree_ok h1 t (qs1 ++ lo :: qs2) /\ holds h1 (ms1 ++ [i]) (qs1 ++ [lo]) /\ holds h1 ms2 qs2 /\
  h1 !! c = Some up /\ (forall m, m <> c -> m <> i -> h1 !! m = h !! m).
Proof.
  intros Ht Hat Hcf Hx lo up h1. pose proof Hat as [En Er H1 Hi H2]. subst rs.
  pose proof (split_ranges_ok _ _ _ _ (tree_ok_ranges _ _ _ Ht) Hx) as Hok2.
  assert (c ∉ inorder t) as Hcin.
  { intros Hin. destruct (holds_in _ _ _ _ (tree_holds _ _ _ Ht) Hin) as (? & ? & _). congruence. }
  assert (c <> i) as Hci by (intros ->; congruence). rewrite En in Hcin.
  assert (h1 !! i = Some lo) as Hi1.
  { unfold h1, set_range_high. rewrite lookup_alter_eq, lookup_insert_ne by done. by rewrite Hi. }
  pose proof (node_at_nodup _ _ _ _ _ _ _ _ _ Ht Hat) as [Hni _].
  assert (forall m, m <> c -> m <> i -> h1 !! m = h !! m) as Hfr.
  { intros m ? ?. unfold h1, set_range_high. by rewrite lookup_alter_ne, lookup_insert_ne by done. }
  split_and!; [| | | |done].
  - apply (tree_ok_alter (<[c:=up]> h) _ (qs1 ++ ri :: qs2) i ms1 ms2 qs1 ri qs2
             (fun r => RangeNode (range_low r) (x - 1))).
    + destruct Ht. split; auto. apply holds_insert; [by rewrite En|done].
    + split; auto; try (apply holds_insert; [set_solver|done]). by rewrite lookup_insert_ne.
    + replace (qs1 ++ _ :: _ :: qs2) with ((qs1 ++ [lo]) ++ up :: qs2) in Hok2
        by (by rewrite <- app_assoc).
      apply ranges_ok_remove in Hok2. by rewrite <- app_assoc in Hok2.
  - apply holds_app; [|by repeat constructor]. eapply holds_frame; [exact H1|].
    intros m Hm. apply Hfr; set_solver.
  - eapply holds_frame; [exact H2|]. intros m Hm. apply Hfr; set_solver.
  - unfold h1, set_range_high. rewrite lookup_alter_ne by done. apply lookup_insert_eq.
Qed.

(** Splitting a node: it keeps the lower part, the fresh node [c] gets the upper. *)
Lemma map_split h im base rs i ms1 ms2 qs1 ri qs2 c x :
  inode_map_ok h im base rs -> node_at h (inode_inuse_tree im) rs i ms1 ms2 qs1 ri qs2 ->
  h !! c = None -> range_low ri < x < range_high ri -> base < x ->
  let h1 := set_range_high i (x - 1) (<[c := RangeNode (x + 1) (range_high ri)]> h) in
  exists t', nova_insert_range_node h1 (inode_inuse_tree im) c = Some (0, t') /\
    map_edit h im base (Some c) (fun y => in_ranges y rs /\ y <> x) h1
      (with_num_range_node_inode (u64 (num_range_node_inode im + 1))
         (with_inode_inuse_tree t' im))
      (qs1 ++ RangeNode (range_low ri) (x - 1) :: RangeNode (x + 1) (range_high ri) :: qs2).
Proof.
  intros [Ht Hf Hc Hb Hl] Hat Hcf Hx Hbx h1.
  destruct (split_nodes _ _ _ _ _ _ _ _ _ _ _ Ht Hat Hcf Hx) as (Ht1 & Hh1 & Hh2 & Hc1 & Hfr).
  fold h1 in Ht1, Hh1, Hh2, Hc1, Hfr. pose proof Hat as [En Er H1 Hi H2]. subst rs.
  pose proof (tree_ok_ranges _ _ _ Ht) as Hrs. pose proof (sum_ranges_limit _ Hrs) as Hlim.
  pose proof (sum_ranges_nonneg _ Hrs) as Hnn. pose proof (split_ranges_ok _ _ _ _ Hrs Hx) as Hok2.
  destruct (tree_ok_insert h1 (inode_inuse_tree im) (ms1 ++ [i]) ms2
    (qs1 ++ [RangeNode (range_low ri) (x - 1)]) qs2 c (RangeNode (x + 1) (range_high ri)))
    as (t' & E & Ei & Ht'); rewrite <- ?app_assoc; auto.
  rewrite <- app_assoc in Ei, Ht'. simpl in Ei, Ht'.
  exists t'. split; [done|]. split; [|split; [|split]].
  - split; simpl; auto.
    + rewrite Ei, Hf, En. by destruct ms1.
    + rewrite Hc. rewrite !length_app in *. simpl in *. unfold RANGE_LIMIT in *. wrap. lia.
    + apply base_split in Hb as [(r & rest & -> & ? & ?)|(-> & ? & _)]; simpl; [eauto|].
      eexists _, _. split; [done|]. simpl. lia.
    + unfold MAX_INODE in *. apply Forall_app in Hl as [Hl1 Hl2].
      apply Forall_cons in Hl2 as [Hl0 Hl2]. apply Forall_app. split; [done|].
      repeat constructor; simpl; auto; lia.
  - intros y. by apply split_ranges_set.
  - intros m Hm. simpl in Hm. rewrite En in Hm. apply Hfr; set_solver.
  - simpl. rewrite Ei, En. set_solver.
Qed.
End one_map.

(** ** All maps *)

Lemma get_inode_map_some sbi R c :
  inodes_ok sbi R -> 0 <= c < cpus sbi -> exists im, nova_get_inode_map sbi c = Some im.
Proof.
  intros [[Hl Hc] _ _] Hr. unfold nova_get_inode_map.
  rewrite (proj2 (Z.ltb_ge c 0)) by lia. apply lookup_lt_is_Some. lia.
Qed.

Section update.
Context `{RbTreeLaws}.
Context (sbi : nova_sb_info) (R : Z -> list nova_range_node) (c : Z).
Context (im im' : inode_map) (fresh : option ptr) (P : Z -> Prop).
Context (h' : node_heap) (rs' : list nova_range_node) (used : Z).

Hypothesis Hok : inodes_ok sbi R.
Hypothesis Hc : 0 <= c < cpus sbi.
Hypothesis Hget : nova_get_inode_map sbi c = Some im.
Hypothesis Hfresh : forall n, fresh = Some n -> range_nodes sbi !! n = None.
Hypothesis Hedit :
  map_edit (range_nodes sbi) im (inuse_range_high (cpus sbi)) fresh P h' im' rs'.

Definition map_updated : nova_sb_info :=
  put_inode_map (with_s_inodes_used_count used (with_range_nodes h' sbi)) c im'.

Lemma map_updated_get d :
  0 <= d < cpus sbi ->
  nova_get_inode_map map_updated d = if decide (d = c) then Some im' else nova_get_inode_map sbi d.
Proof.
  intros Hd. destruct (io_cpus _ _ Hok) as [Hl _].
  unfold nova_get_inode_map, map_updated. simpl.
  rewrite (proj2 (Z.ltb_ge d 0)) by lia. case_decide as Hdc.
  - subst. apply list_lookup_insert_eq. lia.
  - apply list_lookup_insert_ne. lia.
Qed.

Lemma map_updated_other d gm n :
  0 <= d < cpus sbi -> d <> c -> nova_get_inode_map sbi d = Some gm ->
  n ∈ inorder (inode_inuse_tree gm) ->
  n ∉ option_list fresh ++ inorder (inode_inuse_tree im).
Proof.
  intros Hd Hne Hg Hn. rewrite elem_of_app. intros [Hf%elem_of_option_list|Hf].
  - destruct (io_map _ _ Hok d gm Hd Hg) as [[Hh _ _] _ _ _ _].
    destruct (holds_in _ _ _ _ Hh Hn) as (r & Hr & _). by rewrite (Hfresh n Hf) in Hr.
  - by apply (io_apart _ _ Hok d c gm im n).
Qed.

Lemma map_updated_ok : inodes_ok map_updated (set_ranges c rs' R).
Proof.
  destruct Hedit as (Hm & _ & Hframe & Hsub). split; simpl.
  - rewrite length_insert. apply Hok.
  - intros d gm Hd. rewrite map_updated_get by done. unfold set_ranges.
    case_decide as Hdc; [by intros [= <-]|]. intros Hg.
    pose proof (io_map _ _ Hok d gm Hd Hg) as [[Ht ? ?] ? ? ? ?].
    split; auto. split; auto. eapply holds_frame; [exact Ht|].
    intros n Hn. apply Hframe. by eapply map_updated_other.
  - intros d e gd ge n Hd He Hne. rewrite !map_updated_get by done.
    destruct (decide (d = c)) as [->|Hdc], (decide (e = c)) as [->|Hec]; try done.
    + intros [= <-] Hg Hn Hn'. apply (map_updated_other e ge n He Hec Hg Hn').
      apply elem_of_app. apply Hsub in Hn as [Hn|Hn]; [left|by right]. by apply elem_of_option_list.
    + intros Hg [= <-] Hn Hn'. apply (map_updated_other d gd n Hd Hdc Hg Hn).
      apply elem_of_app. apply Hsub in Hn' as [Hn'|Hn']; [left|by right].
      by apply elem_of_option_list.
    + intros ? ?. by apply (io_apart _ _ Hok d e).
Qed.

Lemma map_updated_frame : inode_frame sbi map_updated.
Proof.
  destruct Hedit as (_ & _ & Hframe & _). split; try done. simpl. intros n r Hr Hin.
  rewrite <- Hr. apply Hframe. rewrite elem_of_app. intros [Hf%elem_of_option_list|Hf].
  - by rewrite (Hfresh n Hf) in Hr.
  - apply Hin. by exists c, im.
Qed.

(** An inode node of the new state is one of the old or was not live. *)
Lemma map_updated_nodes n :
  inode_node map_updated n -> inode_node sbi n \/ range_nodes sbi !! n = None.
Proof.
  destruct Hedit as (_ & _ & _ & Hsub). intros (d & gm & Hd & Hg & Hn). simpl in Hd.
  rewrite map_updated_get in Hg by done. case_decide; simplify_eq.
  - apply Hsub in Hn as [Hn|Hn]; [right; by apply Hfresh|]. left. by exists c, im.
  - left. by exists d, gm.
Qed.

Lemma map_updated_used ino :
  used_ino map_updated (set_ranges c rs' R) ino <->
  if decide (ino mod cpus sbi = c) then P (ino / cpus sbi) else used_ino sbi R ino.
Proof.
  destruct Hedit as (_ & HP & _ & _). unfold used_ino, set_ranges. simpl.
  case_decide; [apply HP|done].
Qed.
End update.

Lemma map_edit_stats h im base fresh P h' im' rs' a :
  map_edit h im base fresh P h' im' rs' ->
  map_edit h im base fresh P h' (with_allocated a im') rs' /\
  map_edit h im base fresh P h' (with_freed a im') rs'.
Proof.
  intros ([] & ? & ? & ?). split; (split; [by split|by split_and!]).
Qed.

(** The numbers of CPU [c] are [k * cpus + c]. *)
Lemma ino_parts cpus k c : 0 < cpus -> 0 <= c < cpus ->
  (k * cpus + c) mod cpus = c /\ (k * cpus + c) / cpus = k.
Proof.
  intros Hp Hc. rewrite Z.add_comm, Z.mod_add, Z.div_add by lia.
  rewrite Z.mod_small, Z.div_small by lia. lia.
Qed.

Lemma ino_rejoin cpus ino : 0 < cpus -> ino = ino / cpus * cpus + ino mod cpus.
Proof. intros. pose proof (Z.div_mod ino cpus). lia. Qed.

Section specs.
Context `{RbTreeLaws} (slab_garbage : nova_range_node).
Implicit Types (sbi : nova_sb_info) (R : Z -> list nova_range_node).

(** What adding [ino] to the numbers in use means for the whole state. *)
Record ino_added sbi R (c ino : Z) sbi' R' : Prop := {
  ia_ok : inodes_ok sbi' R';
  ia_frame : inode_frame sbi sbi';
  ia_map_id : map_id sbi' = map_id sbi;
  ia_nodes n : inode_node sbi' n -> inode_node sbi n \/ range_nodes sbi !! n = None;
  ia_cpu : ino mod cpus sbi = c /\ inuse_range_high (cpus sbi) < ino / cpus sbi < MAX_INODE;
  ia_pred : in_ranges (ino / cpus sbi - 1) (R c);
  ia_new : ~ used_ino sbi R ino;
  ia_set x : used_ino sbi' R' x <-> used_ino sbi R x \/ x = ino;
}.

(** The number after the first range is not in use. *)
Lemma after_first_unused r rest : ranges_ok (r :: rest) -> ~ in_ranges (range_high r + 1) (r :: rest).
Proof.
  intros (_ & _ & _ & _ & Hb)%(ranges_ok_mid []) Hin.
  apply in_ranges_cons in Hin as [Hin|(x & Hx & Hin)%Exists_exists];
    [unfold in_range in Hin; lia|].
  rewrite Forall_forall in Hb. specialize (Hb _ Hx). unfold before, in_range in *. lia.
Qed.

Lemma ino_added_intro sbi R c im r rest h' im' rs' :
  inodes_ok sbi R -> 0 <= c < cpus sbi -> nova_get_inode_map sbi c = Some im -> R c = r :: rest ->
  range_high r + 1 < MAX_INODE ->
  map_edit (range_nodes sbi) im (inuse_range_high (cpus sbi)) None
    (fun x => in_ranges x (r :: rest) \/ x = range_high r + 1) h' im' rs' ->
  ino_added sbi R c ((range_high r + 1) * cpus sbi + c)
    (map_updated sbi c (with_allocated (i32 (allocated im' + 1)) im') h'
       (u64 (s_inodes_used_count sbi + 1)))
    (set_ranges c rs' R).
Proof.
  intros Hok Hc Hget ER Hlim Hedit.
  destruct (map_edit_stats _ _ _ _ _ _ _ _ (i32 (allocated im' + 1)) Hedit) as [He _].
  destruct (io_cpus _ _ Hok) as [_ Hcp].
  pose proof (io_map _ _ Hok _ _ Hc Hget) as [Ht _ _ Hb _]. rewrite ER in Ht, Hb.
  destruct (ino_parts (cpus sbi) (range_high r + 1) c ltac:(lia) Hc) as [Hm Hd].
  destruct Hb as (r0 & rest0 & Er & E0 & Hb). injection Er as <- _.
  assert (forall n : ptr, None = Some n -> range_nodes sbi !! n = None) as Hfresh by done.
  split.
  - eapply map_updated_ok; eauto.
  - eapply map_updated_frame; eauto.
  - done.
  - intros n. eapply map_updated_nodes; eauto.
  - rewrite Hm, Hd. lia.
  - rewrite Hd, ER. apply in_ranges_cons. left. pose proof (tree_ok_ranges _ _ _ Ht) as [_ Hw].
    apply Forall_cons in Hw as [Hw _]. unfold in_range, wf_range in *. lia.
  - unfold used_ino. rewrite Hm, Hd, ER. by eapply after_first_unused, tree_ok_ranges.
  - intros x. rewrite (map_updated_used sbi R c im _ None _ h' rs' _ He).
    case_decide as Hx.
    + unfold used_ino. rewrite Hx, ER.
      pose proof (ino_rejoin (cpus sbi) x ltac:(lia)) as Ex. rewrite Hx in Ex.
      split; (intros [?|E]; [by left|right]); [by rewrite E in Ex|by rewrite E].
    + split; [by left|]. intros [?| ->]; done.
Qed.

Lemma nova_alloc_unused_inode_spec sbi R c old :
  inodes_ok sbi R -> 0 <= c < cpus sbi ->
  (exists ino sbi' R', nova_alloc_unused_inode sbi c old = Some (0, ino, sbi') /\
     ino_added sbi R c ino sbi' R') \/
  (nova_alloc_unused_inode sbi c old = Some (- ENOSPC, old, sbi) /\
   forall k, 0 <= k < MAX_INODE - 1 -> in_ranges k (R c)).
Proof.
  intros Hok Hc. destruct (get_inode_map_some sbi R c Hok Hc) as [im Hget].
  destruct (io_cpus _ _ Hok) as [_ Hcp].
  pose proof (io_map _ _ Hok _ _ Hc Hget) as Him.
  pose proof Him as [Ht Hf Hn (r & rest & ER & E0 & Hb) Hl].
  rewrite ER in Him, Ht, Hl. destruct (tree_ok_head _ _ _ _ Ht) as (i & ms & Hat).
  pose proof (rb_next_at _ _ _ _ _ _ _ _ _ Ht Hat) as Hnx.
  pose proof Hat as [En _ _ Hi Hms]. rewrite En in Hf. simpl in Hf.
  pose proof (tree_ok_ranges _ _ _ Ht) as Hrs.
  apply (ranges_ok_mid []) in Hrs as (_ & Hrest & Hw & _ & Hbef).
  apply Forall_cons in Hl as [Hlr Hl]. unfold MAX_INODE in *.
  unfold nova_alloc_unused_inode. rewrite Hget. simpl. rewrite Hf. simpl. rewrite Hi. simpl.
  unfold wf_range in Hw. rewrite Hnx. rewrite (u64_small (range_high r + 1)) by lia.
  assert (u64 (u64 ((range_high r + 1) * cpus sbi) + c) = (range_high r + 1) * cpus sbi + c) as Eino
    by (assert (0 <= (range_high r + 1) * cpus sbi <= 2147483648 * 64) by nia; by wrap).
  destruct (holds_head_case _ _ _ Hms) as [[-> ->]|(n & ms2 & rn & qs2 & -> & -> & Hn' & Hms2)]; simpl.
  - change (u64 (MAX_INODE - 1)) with 2147483647.
    destruct (range_high r + 1 <? 2147483647) eqn:C; bool_hyps.
    + left. eexists _, _, _. rewrite Eino. split; [done|].
      eapply ino_added_intro; eauto; [unfold MAX_INODE; lia|].
      apply map_extend; auto. unfold MAX_INODE. lia.
    + right. split; [done|]. intros k Hk. rewrite ER, in_ranges_cons. left.
      unfold in_range. lia.
  - rewrite Hn'. simpl. apply Forall_cons in Hbef as [Hbn Hbef].
    apply Forall_cons in Hl as [Hln Hl]. unfold before in Hbn.
    pose proof Hrest as (_ & _ & Hwn & _ & Hbn2)%(ranges_ok_mid []). unfold wf_range in Hwn.
    rewrite (u64_small (range_low rn - 1)) by lia.
    left. destruct (range_high r + 1 =? range_low rn - 1) eqn:C; bool_hyps.
    + eexists _, _, _. rewrite Eino. split; [done|].
      eapply (ino_added_intro sbi R c im r (rn :: qs2) _
        (with_num_range_node_inode (u64 (num_range_node_inode im - 1))
           (with_inode_inuse_tree (rb_erase n (inode_inuse_tree im)) im)));
        eauto; [unfold MAX_INODE; lia|].
      eapply map_join; eauto. lia.
    + rewrite (proj2 (Z.ltb_lt _ _)) by lia. eexists _, _, _. rewrite Eino. split; [done|].
      eapply ino_added_intro; eauto; [unfold MAX_INODE; lia|].
      apply map_extend; auto; [|unfold MAX_INODE; lia].
      constructor; [unfold before; simpl; lia|]. forall_lia Hbn2.
Qed.
(** What removing [ino] from the numbers in use means. *)
Record ino_removed sbi R (ino : Z) sbi' R' : Prop := {
  ir_ok : inodes_ok sbi' R';
  ir_frame : inode_frame sbi sbi';
  ir_map_id : map_id sbi' = map_id sbi;
  ir_nodes n : inode_node sbi' n -> inode_node sbi n \/ range_nodes sbi !! n = None;
  ir_set x : used_ino sbi' R' x <-> used_ino sbi R x /\ x <> ino;
}.

Lemma ino_removed_intro sbi R ino im fresh h' im' rs' :
  let c := ino mod cpus sbi in
  inodes_ok sbi R -> nova_get_inode_map sbi c = Some im ->
  (forall n, fresh = Some n -> range_nodes sbi !! n = None) ->
  map_edit (range_nodes sbi) im (inuse_range_high (cpus sbi)) fresh
    (fun x => in_ranges x (R c) /\ x <> ino / cpus sbi) h' im' rs' ->
  exists sbi', inode_freed sbi c h' im' 0 = Some (0, sbi') /\
    ino_removed sbi R ino sbi' (set_ranges c rs' R).
Proof.
  intros c Hok Hget Hfresh Hedit. destruct (io_cpus _ _ Hok) as [_ Hcp].
  assert (0 <= c < cpus sbi) as Hc by (apply Z.mod_pos_bound; lia).
  destruct (map_edit_stats _ _ _ _ _ _ _ _ (i32 (freed im' + 1)) Hedit) as [_ He].
  exists (map_updated sbi c (with_freed (i32 (freed im' + 1)) im') h'
            (u64 (s_inodes_used_count sbi - 1))).
  split; [done|]. split.
  - eapply map_updated_ok; eauto.
  - eapply map_updated_frame; eauto.
  - done.
  - intros n. eapply map_updated_nodes; eauto.
  - intros x. rewrite (map_updated_used sbi R c im _ fresh _ h' rs' _ He).
    case_decide as Hx.
    + unfold used_ino. rewrite Hx. split; intros [Hin Hne]; (split; [done|]).
      * intros ->. done.
      * intros E. apply Hne. rewrite (ino_rejoin (cpus sbi) x), (ino_rejoin (cpus sbi) ino) by lia.
        fold c. by rewrite Hx, E.
    + split; [|by intros [? _]]. intros Hu. split; [done|]. intros ->. done.
Qed.

(** The outcome of freeing a number that is in use.  When the slab has no node
    to split a range with, the call reports success although the number stays in
    use. *)
Definition ino_freed sbi R (ino : Z) (res : option (Z * nova_sb_info)) : Prop :=
  exists sbi', res = Some (0, sbi') /\
    ((exists R', ino_removed sbi R ino sbi' R') \/
     (kmem_cache_alloc (range_nodes sbi) = None /\
      exists R', inodes_ok sbi' R' /\ (forall x, used_ino sbi' R' x <-> used_ino sbi R x))).

Lemma ino_freed_intro sbi R ino im fresh h' im' rs' :
  let c := ino mod cpus sbi in
  inodes_ok sbi R -> nova_get_inode_map sbi c = Some im ->
  (forall n, fresh = Some n -> range_nodes sbi !! n = None) ->
  map_edit (range_nodes sbi) im (inuse_range_high (cpus sbi)) fresh
    (fun x => in_ranges x (R c) /\ x <> ino / cpus sbi) h' im' rs' ->
  ino_freed sbi R ino (inode_freed sbi c h' im' 0).
Proof.
  intros c Hok Hget Hfresh Hedit.
  destruct (ino_removed_intro sbi R ino im fresh h' im' rs' Hok Hget Hfresh Hedit)
    as (sbi' & E & Hr).
  exists sbi'. split; [done|]. left. eauto.
Qed.

(** Only the counters change. *)
Lemma ino_freed_nothing sbi R ino im :
  let c := ino mod cpus sbi in
  inodes_ok sbi R -> nova_get_inode_map sbi c = Some im ->
  kmem_cache_alloc (range_nodes sbi) = None ->
  ino_freed sbi R ino (inode_freed sbi c (range_nodes sbi) im 0).
Proof.
  intros c Hok Hget Hnone. destruct (io_cpus _ _ Hok) as [_ Hcp].
  assert (0 <= c < cpus sbi) as Hc by (apply Z.mod_pos_bound; lia).
  assert (map_edit (range_nodes sbi) im (inuse_range_high (cpus sbi)) None
            (fun x => in_ranges x (R c)) (range_nodes sbi) im (R c)) as Hedit.
  { split_and!; [by apply (io_map _ _ Hok)|done|by intros n _|by right]. }
  destruct (map_edit_stats _ _ _ _ _ _ _ _ (i32 (freed im + 1)) Hedit) as [_ He].
  assert (forall n : ptr, None = Some n -> range_nodes sbi !! n = None) as Hfresh by done.
  eexists. split; [done|]. right. split; [done|]. exists (set_ranges c (R c) R). split.
  - by apply (map_updated_ok sbi R c im _ None _ _ _ _ Hok Hc Hget Hfresh He).
  - intros x. unfold used_ino. by rewrite set_ranges_same.
Qed.

(** The insertion of a node into the tree is overwritten by the final update. *)
Lemma inode_freed_put sbi c h1 im1 h im ret :
  inode_freed (put_inode_map (with_range_nodes h1 sbi) c im1) c h im ret =
  inode_freed sbi c h im ret.
Proof.
  unfold inode_freed, put_inode_map, with_inode_maps. simpl. by rewrite list_insert_insert_eq.
Qed.

(** The edit that removes number [x] from the node that covers it. *)
Lemma range_hole qs1 ri qs2 x y :
  ranges_ok (qs1 ++ ri :: qs2) -> in_range x ri -> in_ranges y qs1 \/ in_ranges y qs2 -> y <> x.
Proof.
  intros (_ & _ & _ & Hb1 & Hb2)%ranges_ok_mid Hx. rewrite Forall_forall in Hb1, Hb2.
  intros [(r & Hr & Hy)%Exists_exists|(r & Hr & Hy)%Exists_exists];
    [specialize (Hb1 r Hr)|specialize (Hb2 r Hr)]; unfold in_range, before in *; lia.
Qed.

Lemma map_shrink h im base rs i ms1 ms2 qs1 ri qs2 f x :
  inode_map_ok h im base rs -> node_at h (inode_inuse_tree im) rs i ms1 ms2 qs1 ri qs2 ->
  in_range x ri -> range_low ri <= range_low (f ri) <= range_high (f ri) ->
  range_high (f ri) <= range_high ri ->
  (forall y, in_range y (f ri) <-> in_range y ri /\ y <> x) ->
  (qs1 = [] -> range_low (f ri) = 0 /\ base <= range_high (f ri)) ->
  map_edit h im base None (fun y => in_ranges y rs /\ y <> x) (alter f i h) im (qs1 ++ f ri :: qs2).
Proof.
  intros Him Hat Hx Hlo Hhi Hy Hbase. pose proof Hat as [_ Er _ _ _].
  pose proof Him as [Ht _ _ _ Hl]. pose proof (tree_ok_ranges _ _ _ Ht) as Hrs. subst rs.
  pose proof Hrs as (Hq1 & Hq2 & Hw & Hb1 & Hb2)%ranges_ok_mid.
  eapply map_replace; eauto.
  - apply ranges_ok_mid. unfold wf_range in *. split_and!; auto; try lia; [forall_lia Hb1|forall_lia Hb2].
  - apply Forall_app in Hl as [_ Hl]. apply Forall_cons in Hl as [Hl _]. lia.
  - intros y. pose proof (range_hole qs1 ri qs2 x y Hrs Hx) as Hh.
    rewrite !in_ranges_app, !in_ranges_cons, Hy. tauto.
Qed.

Lemma inuse_range_high_nonneg n : 0 < n -> 0 <= inuse_range_high n.
Proof.
  intros Hn. unfold inuse_range_high.
  pose proof (Z.div_pos (NOVA_NORMAL_INODE_START - 1) n).
  unfold NOVA_NORMAL_INODE_START in *. case_cmp; lia.
Qed.

(** The number lies inside a range: the upper part moves to a new node, or, when there is
    no memory for one, nothing happens. *)
Lemma free_split_ok sbi R ino im i ms1 ms2 qs1 ri qs2 :
  let c := ino mod cpus sbi in let k := ino / cpus sbi in
  inodes_ok sbi R -> nova_get_inode_map sbi c = Some im ->
  node_at (range_nodes sbi) (inode_inuse_tree im) (R c) i ms1 ms2 qs1 ri qs2 ->
  range_low ri < k < range_high ri -> inuse_range_high (cpus sbi) < k ->
  ino_freed sbi R ino
    (match nova_alloc_range_node (range_nodes sbi) slab_garbage with
     | None => inode_freed sbi c (range_nodes sbi) im 0
     | Some (curr_node, h) =>
       let h := <[curr_node := RangeNode (k + 1) (range_high ri)]> h in
       let h := set_range_high i (k - 1) h in
       res ← nova_insert_inodetree (with_range_nodes h sbi) curr_node c;
       let '(ret, sbi) := (res : Z * nova_sb_info) in
       if negb (ret =? 0) then
         Some (ret, with_range_nodes (nova_free_range_node curr_node h) sbi)
       else
         im ← nova_get_inode_map sbi c;
         inode_freed sbi c h
           (with_num_range_node_inode (u64 (num_range_node_inode im + 1)) im) ret
     end).
Proof.
  intros c k Hok Hget Hat Hk Hbase. destruct (io_cpus _ _ Hok) as [Hlen Hcp].
  assert (0 <= c < cpus sbi) as Hc by (apply Z.mod_pos_bound; lia).
  pose proof (io_map _ _ Hok _ _ Hc Hget) as Him. unfold nova_alloc_range_node.
  destruct (kmem_cache_alloc (range_nodes sbi)) as [cn|] eqn:Ea; [|by apply ino_freed_nothing].
  pose proof (kmem_cache_alloc_fresh _ _ Ea) as Hfr. rewrite insert_insert_eq.
  destruct (map_split _ _ _ _ i ms1 ms2 qs1 ri qs2 cn k Him Hat Hfr Hk ltac:(lia))
    as (t' & E & Hedit).
  unfold nova_insert_inodetree.
  change (nova_get_inode_map (with_range_nodes ?h sbi) c) with (nova_get_inode_map sbi c).
  rewrite Hget. simpl. rewrite E. simpl.
  set (h1 := set_range_high i (k - 1) _) in *.
  assert (nova_get_inode_map (put_inode_map (with_range_nodes h1 sbi) c
            (with_inode_inuse_tree t' im)) c = Some (with_inode_inuse_tree t' im)) as ->.
  { unfold nova_get_inode_map. simpl. rewrite (proj2 (Z.ltb_ge c 0)) by lia.
    apply list_lookup_insert_eq. lia. }
  simpl. rewrite inode_freed_put.
  eapply (ino_freed_intro sbi R ino im (Some cn)); [done|done|by intros n [= <-]|exact Hedit].
Qed.

Lemma nova_free_inuse_inode_spec sbi R ino :
  inodes_ok sbi R -> 0 <= ino -> inuse_range_high (cpus sbi) < ino / cpus sbi ->
  (used_ino sbi R ino /\ ino_freed sbi R ino (nova_free_inuse_inode slab_garbage sbi ino)) \/
  (~ used_ino sbi R ino /\ nova_free_inuse_inode slab_garbage sbi ino = Some (- EINVAL, sbi)).
Proof.
  intros Hok Hino Hbase. destruct (io_cpus _ _ Hok) as [_ Hcp].
  set (c := ino mod cpus sbi) in *. set (k := ino / cpus sbi) in *.
  assert (0 <= c < cpus sbi) as Hc by (apply Z.mod_pos_bound; lia).
  destruct (get_inode_map_some sbi R c Hok Hc) as [im Hget].
  pose proof (io_map _ _ Hok _ _ Hc Hget) as Him. pose proof Him as [Ht Hf Hn Hb Hl].
  unfold nova_free_inuse_inode, nova_search_inodetree.
  rewrite (proj2 (Z.eqb_neq (cpus sbi) 0)) by lia. fold c. fold k. rewrite Hget. simpl.
  destruct (nova_find_range_node_spec _ _ _ k Ht) as [(i & ri & -> & Hin & Hi & Hk)|(cc & -> & Hnu)];
    simpl; [left|right; by split].
  destruct (tree_ok_at _ _ _ _ Ht Hin) as (ms1 & ms2 & qs1 & ri' & qs2 & Hat).
  pose proof Hat as [En Er _ Hi' _]. rewrite Hi in Hi'. injection Hi' as <-.
  split. { unfold used_ino. fold c k. rewrite Er. apply in_ranges_app. right. by apply Exists_cons_hd. }
  pose proof (tree_ok_ranges _ _ _ Ht) as Hrs. pose proof Hrs as [_ Hw]. rewrite Er in Hrs, Hw, Hb, Hl.
  apply Forall_app in Hw as [_ Hw]. apply Forall_cons in Hw as [Hw _].
  apply Forall_app in Hl as [_ Hl]. apply Forall_cons in Hl as [Hlr _].
  pose proof (base_split _ _ _ _ Hb) as Hbs.
  pose proof (inuse_range_high_nonneg (cpus sbi) ltac:(lia)) as Hpos.
  unfold wf_range, in_range, MAX_INODE in *.
  assert (forall n : ptr, None = Some n -> range_nodes sbi !! n = None) as Hfresh by done.
  rewrite Hi. simpl. rewrite (u64_small (k + 1)), (u64_small (k - 1)) by lia.
  destruct ((k =? range_low ri) && (k =? range_high ri)) eqn:C1;
    [|destruct ((k =? range_low ri) && (k <? range_high ri)) eqn:C2;
      [|destruct ((range_low ri <? k) && (k =? range_high ri)) eqn:C3;
        [|destruct ((range_low ri <? k) && (k <? range_high ri)) eqn:C4]]]; bool_hyps.
  - eapply (ino_freed_intro sbi R ino im None); [done|done|done|].
    destruct (map_remove _ _ _ _ _ _ _ _ _ _ Him Hat) as (Hm & _ & ? & ?).
    { destruct Hbs as [(? & ? & -> & _)|(-> & ? & _)]; [done|lia]. }
    split_and!; eauto. intros y. fold c k. pose proof (range_hole qs1 ri qs2 k y Hrs Hk) as Hh.
    rewrite Er, !in_ranges_app, in_ranges_cons. unfold in_range in *. intuition lia.
  - eapply (ino_freed_intro sbi R ino im None); [done|done|done|].
    eapply (map_shrink _ _ _ _ i ms1 ms2 qs1 ri qs2 (fun r => RangeNode (k + 1) (range_high r)));
      eauto; unfold in_range; simpl; try lia.
    intros ->. destruct Hbs as [(? & ? & ? & _)|(_ & ? & _)]; [done|lia].
  - eapply (ino_freed_intro sbi R ino im None); [done|done|done|].
    eapply (map_shrink _ _ _ _ i ms1 ms2 qs1 ri qs2 (fun r => RangeNode (range_low r) (k - 1)));
      eauto; unfold in_range; simpl; try lia.
    intros ->. destruct Hbs as [(? & ? & ? & _)|(_ & ? & _)]; [done|lia].
  - apply (free_split_ok sbi R ino im i ms1 ms2 qs1 ri qs2); auto; lia.
  - exfalso. repeat match goal with H : _ && _ = false |- _ => apply andb_false_iff in H as [?|?] end;
      bool_hyps; lia.
Qed.
End specs.

(** ** Initialisation *)

(** The map of one CPU after its reserved range was entered at node [n]. *)
Record map_reserved (h : node_heap) (im : inode_map) (base : Z) (n : ptr) : Prop := {
  mr_tree : inorder (inode_inuse_tree im) = [n];
  mr_first : first_inode_range im = Some n;
  mr_count : num_range_node_inode im = 1;
  mr_node : h !! n = Some (RangeNode 0 base);
}.

(** The maps below [i] are initialised, at the nodes [N], the others empty. *)
Record init_maps (sbi : nova_sb_info) (i : Z) (N : Z -> ptr) : Prop := {
  ij_cpus : cpus sbi = Z.of_nat (length (inode_maps sbi)) /\ 0 < cpus sbi <= 64;
  ij_done c : 0 <= c < i -> exists im, nova_get_inode_map sbi c = Some im /\
    map_reserved (range_nodes sbi) im (inuse_range_high (cpus sbi)) (N c);
  ij_todo c : i <= c < cpus sbi -> exists im, nova_get_inode_map sbi c = Some im /\
    inode_inuse_tree im = RB_ROOT;
  ij_apart c d : 0 <= c < i -> 0 <= d < i -> c <> d -> N c <> N d;
}.

(** What initialisation leaves alone: all but the inode maps and their count;
    no live node is changed. *)
Record maps_only (sbi sbi' : nova_sb_info) : Prop := {
  mo_virt : virt_addr sbi' = virt_addr sbi;
  mo_cpus : cpus sbi' = cpus sbi;
  mo_blocks : num_blocks sbi' = num_blocks sbi;
  mo_per : per_list_blocks sbi' = per_list_blocks sbi;
  mo_lists : free_lists sbi' = free_lists sbi;
  mo_shared : shared_free_list sbi' = shared_free_list sbi;
  mo_tables : inode_page_mapping_tables sbi' = inode_page_mapping_tables sbi /\
    inode_page_mapping_table_locks sbi' = inode_page_mapping_table_locks sbi;
  mo_nvm : nvm sbi' = nvm sbi;
  mo_nodes n r : range_nodes sbi !! n = Some r -> range_nodes sbi' !! n = Some r;
}.

Lemma maps_only_trans sbi1 sbi2 sbi3 :
  maps_only sbi1 sbi2 -> maps_only sbi2 sbi3 -> maps_only sbi1 sbi3.
Proof. intros [] []. split; intuition (eauto || congruence). Qed.

Lemma inuse_range_high_bounds cpus : 0 < cpus <= 64 -> 0 <= inuse_range_high cpus <= 16.
Proof.
  intros Hc. unfold inuse_range_high, NOVA_NORMAL_INODE_START.
  assert (0 <= (16 - 1) / cpus <= 15).
  { split; [apply Z.div_pos; lia|]. apply Z.div_le_upper_bound; nia. }
  case_cmp; lia.
Qed.

Section init.
Context `{RbTreeLaws} (slab_garbage : nova_range_node).
Hypothesis slab_serves : forall h, kmem_cache_alloc h <> None.

Lemma init_inuse_step sbi i N rest base :
  init_maps sbi i N -> 0 <= i < cpus sbi -> base = inuse_range_high (cpus sbi) ->
  exists sbi' n,
    init_inuse_loop slab_garbage (S rest) i base sbi =
      init_inuse_loop slab_garbage rest (i + 1) base sbi' /\
    maps_only sbi sbi' /\ init_maps sbi' (i + 1) (fun c => if decide (c = i) then n else N c) /\
    range_nodes sbi !! n = None.
Proof.
  intros [[Hl Hcp] Hdone Htodo Hap] Hi ->. set (base := inuse_range_high (cpus sbi)).
  destruct (Htodo i ltac:(lia)) as (im & Hget & Htree).
  simpl. unfold nova_alloc_range_node.
  destruct (kmem_cache_alloc (range_nodes sbi)) as [n|] eqn:Ea; [|by destruct (slab_serves (range_nodes sbi))].
  pose proof (kmem_cache_alloc_fresh _ _ Ea) as Hf. rewrite insert_insert_eq.
  set (h1 := <[n:=RangeNode 0 base]> (range_nodes sbi)).
  assert (h1 !! n = Some (RangeNode 0 base)) as Hn by apply lookup_insert_eq.
  unfold nova_insert_inodetree, nova_insert_range_node.
  change (nova_get_inode_map (with_range_nodes h1 sbi) i) with (nova_get_inode_map sbi i).
  rewrite Hget. simpl. rewrite Hn, Htree. simpl.
  set (t := rb_insert_color n (RBNode RB_ROOT n RB_ROOT)).
  assert (inorder t = [n]) as Et by (unfold t; by rewrite rb_insert_color_inorder).
  set (sbi1 := put_inode_map (with_range_nodes h1 sbi) i (with_inode_inuse_tree t im)).
  assert (forall s c im0, length (inode_maps s) = length (inode_maps sbi) -> 0 <= c < cpus sbi ->
            nova_get_inode_map (put_inode_map s i im0) c =
            if decide (c = i) then Some im0 else nova_get_inode_map s c) as Hput.
  { intros s c im0 Hs Hc. unfold nova_get_inode_map. simpl. rewrite (proj2 (Z.ltb_ge c 0)) by lia.
    case_decide; [subst; apply list_lookup_insert_eq; lia|apply list_lookup_insert_ne; lia]. }
  assert (nova_get_inode_map sbi1 i = Some (with_inode_inuse_tree t im)) as ->
    by (unfold sbi1; rewrite Hput by (done || lia); by rewrite decide_True).
  simpl.
  eexists _, n. split; [done|].
  assert (length (inode_maps sbi1) = length (inode_maps sbi)) as Hl1 by (simpl; apply length_insert).
  split; [|split; [|done]].
  - split; try done. intros m r Hm. simpl. unfold h1.
    rewrite lookup_insert_ne; [done|]. intros ->. congruence.
  - split; simpl.
    + rewrite !length_insert. split; [done|lia].
    + intros c Hc. rewrite Hput by (done || lia). case_decide as Hci.
      * eexists. split; [done|]. by split.
      * unfold sbi1. rewrite Hput by (done || lia). rewrite decide_False by done.
        destruct (Hdone c ltac:(lia)) as (im1 & Hg1 & [M1 M2 M3 M4]). exists im1. split; [done|].
        split; auto. unfold h1. rewrite lookup_insert_ne; [done|]. intros ->. congruence.
    + intros c Hc. rewrite Hput by (done || lia). rewrite decide_False by lia.
      unfold sbi1. rewrite Hput by (done || lia). rewrite decide_False by lia. apply Htodo. lia.
    + intros c d Hc Hd Hne. destruct (decide (c = i)), (decide (d = i)); subst; try done.
      * intros E. destruct (Hdone d ltac:(lia)) as (im1 & _ & [_ _ _ M4]). congruence.
      * intros E. destruct (Hdone c ltac:(lia)) as (im1 & _ & [_ _ _ M4]). congruence.
      * apply Hap; lia.
Qed.

Lemma init_inuse_loop_spec rest : forall sbi i N base,
  init_maps sbi i N -> 0 <= i -> i + Z.of_nat rest = cpus sbi -> base = inuse_range_high (cpus sbi) ->
  exists sbi' N', init_inuse_loop slab_garbage rest i base sbi = Some (0, sbi') /\
    init_maps sbi' (cpus sbi') N' /\ maps_only sbi sbi' /\
    (forall c, i <= c < cpus sbi -> range_nodes sbi !! N' c = None) /\
    (forall c, 0 <= c < i -> N' c = N c).
Proof.
  induction rest as [|rest IH]; intros sbi i N base Hinv Hi Hn Hb.
  - exists sbi, N. replace (cpus sbi) with i by lia. split_and!; auto; [by split|lia].
  - destruct (init_inuse_step sbi i N rest base Hinv ltac:(lia) Hb) as (sbi1 & n & E & Hmo & Hinv1 & Hf).
    pose proof (mo_cpus _ _ Hmo) as Ec.
    destruct (IH sbi1 (i + 1) _ base Hinv1) as (sbi2 & N2 & E2 & Hinv2 & Hmo2 & Hf2 & Hk);
      [lia|lia|by rewrite Ec|].
    exists sbi2, N2. rewrite E, E2. split_and!; eauto using maps_only_trans.
    + intros c Hc. destruct (decide (c = i)) as [->|].
      * rewrite Hk by lia. by rewrite decide_True.
      * destruct (range_nodes sbi !! N2 c) eqn:El; [|done].
        apply (mo_nodes _ _ Hmo) in El. rewrite Hf2 in El by lia. done.
    + intros c Hc. rewrite Hk by lia. by rewrite decide_False by lia.
Qed.

(** The invariant of the initialised maps. *)
Lemma init_maps_ok sbi N :
  init_maps sbi (cpus sbi) N ->
  inodes_ok sbi (fun _ => [RangeNode 0 (inuse_range_high (cpus sbi))]).
Proof.
  intros [Hl Hdone _ Hap]. pose proof (inuse_range_high_bounds (cpus sbi) ltac:(lia)) as Hb.
  split; [done| |].
  - intros c im Hc Hg. destruct (Hdone c Hc) as (im' & Hg' & [M1 M2 M3 M4]). simplify_eq.
    split; auto.
    + apply ranges_tree_ok; [|rewrite M1; by repeat constructor].
      apply (ranges_ok_mid []). unfold wf_range, RANGE_LIMIT; simpl.
      split_and!; auto with nova; lia.
    + by rewrite M1.
    + eexists _, _. split; [done|]. simpl. lia.
    + repeat constructor. unfold MAX_INODE. simpl. lia.
  - intros c d im im' n Hc Hd Hne Hg Hg' Hn Hn'.
    destruct (Hdone c Hc) as (im1 & ? & [M1 _ _ _]). destruct (Hdone d Hd) as (im2 & ? & [M2 _ _ _]).
    simplify_eq. rewrite M1 in Hn. rewrite M2 in Hn'.
    apply (Hap c d Hc Hd Hne). set_solver.
Qed.
End init.

(** ** Inode numbers and their holders *)

Record ino_state := InoState { is_sbi : nova_sb_info; is_live : gset Z }.

(** The numbers no inode is created with. *)
Definition reserved_ino (cpus x : Z) : Prop := x / cpus <= inuse_range_high cpus.

Section transitions.
Context `{RbTree} (slab_garbage : nova_range_node).

Inductive ino_step : ino_state -> ino_state -> Prop :=
| step_new sbi live c old ino sbi' :
  0 <= c < cpus sbi ->
  nova_alloc_unused_inode sbi c old = Some (0, ino, sbi') ->
  ino_step (InoState sbi live) (InoState sbi' (live ∪ {[ino]}))
| step_full sbi live c old ino sbi' ret :
  0 <= c < cpus sbi ->
  nova_alloc_unused_inode sbi c old = Some (ret, ino, sbi') -> ret <> 0 ->
  ino_step (InoState sbi live) (InoState sbi' live)
| step_delete sbi live ino sbi' :
  ino ∈ live -> nova_free_inuse_inode slab_garbage sbi ino = Some (0, sbi') ->
  ino_step (InoState sbi live) (InoState sbi' (live ∖ {[ino]})).
End transitions.

(** The numbers in use are the reserved ones and those handed out. *)
Record ino_inv (st : ino_state) (R : Z -> list nova_range_node) : Prop := {
  iv_ok : inodes_ok (is_sbi st) R;
  iv_live x : x ∈ is_live st -> 0 <= x /\ ~ reserved_ino (cpus (is_sbi st)) x;
  iv_used x : 0 <= x ->
    used_ino (is_sbi st) R x <-> reserved_ino (cpus (is_sbi st)) x \/ x ∈ is_live st;
}.

Section run.
Context `{RbTreeLaws} (slab_garbage : nova_range_node).
Hypothesis slab_serves : forall h, kmem_cache_alloc h <> None.

Lemma ino_step_inv st st' R :
  ino_inv st R -> ino_step slab_garbage st st' -> exists R', ino_inv st' R'.
Proof.
  intros [Hok Hl Hu] Hs. destruct (io_cpus _ _ Hok) as [_ Hcp].
  destruct Hs as [sbi live c old ino sbi' Hc E|sbi live c old ino sbi' ret Hc E Hr
                 |sbi live ino sbi' Hin E]; simpl in *.
  - destruct (nova_alloc_unused_inode_spec sbi R c old Hok Hc)
      as [(ino1 & sbi1 & R1 & E1 & Ha)|[E1 _]]; rewrite E in E1; [|discriminate].
    injection E1 as <- <-. destruct Ha as [Hok1 Hf _ _ [Hm Hb] _ _ Hset].
    pose proof (if_cpus _ _ Hf) as Ec.
    assert (0 <= ino) as Hi0.
    { pose proof (inuse_range_high_bounds (cpus sbi) Hcp). rewrite (ino_rejoin (cpus sbi) ino) by lia.
      pose proof (Z.mod_pos_bound ino (cpus sbi)). nia. }
    exists R1. split; simpl; [done| |].
    + intros x [Hx|Hx]%elem_of_union; rewrite Ec; [by apply Hl|].
      apply elem_of_singleton in Hx as ->. unfold reserved_ino. split; lia.
    + intros x Hx. rewrite Hset, Hu, Ec, elem_of_union, elem_of_singleton by done. tauto.
  - destruct (nova_alloc_unused_inode_spec sbi R c old Hok Hc)
      as [(ino1 & sbi1 & R1 & E1 & Ha)|[E1 _]]; rewrite E in E1; [congruence|].
    injection E1 as -> -> ->. exists R. by split.
  - destruct (Hl _ Hin) as [Hi0 Hnr].
    destruct (nova_free_inuse_inode_spec slab_garbage sbi R ino Hok Hi0)
      as [[_ (sbi1 & E1 & [[R1 [Hok1 Hf _ _ Hset]]|[Hnone _]])]|[Hnu _]].
    + unfold reserved_ino in Hnr. lia.
    + rewrite E in E1. injection E1 as <-. pose proof (if_cpus _ _ Hf) as Ec.
      exists R1. split; simpl; [done| |]; rewrite Ec.
      * intros x [Hx _]%elem_of_difference. by apply Hl.
      * intros x Hx. rewrite Hset, Hu by done. rewrite elem_of_difference, elem_of_singleton.
        split; [tauto|]. intros [Hres|[? ?]]; [|tauto]. split; [tauto|]. by intros ->.
    + by apply slab_serves in Hnone.
    + destruct Hnu. apply Hu; auto.
Qed.

Lemma ino_run_inv st st' R :
  ino_inv st R -> rtc (ino_step slab_garbage) st st' -> exists R', ino_inv st' R'.
Proof.
  intros Hi Hrun. revert R Hi. induction Hrun as [|s1 s2 s3 Hs _ IH]; intros R Hi; [eauto|].
  destruct (ino_step_inv s1 s2 R Hi Hs) as [R2 Hi2]. eauto.
Qed.

(** Zeroed maps, as the mount leaves them. *)
Record fresh_maps (sbi : nova_sb_info) : Prop := {
  fm_cpus : cpus sbi = Z.of_nat (length (inode_maps sbi)) /\ 0 < cpus sbi <= 64;
  fm_maps : Forall (fun im => inode_inuse_tree im = RB_ROOT) (inode_maps sbi);
}.

Lemma nova_init_inode_inuse_list_spec sbi :
  fresh_maps sbi ->
  exists sbi', nova_init_inode_inuse_list slab_garbage sbi = Some (0, sbi') /\
    maps_only sbi sbi' /\
    (forall n, inode_node sbi' n -> range_nodes sbi !! n = None) /\
    inodes_ok sbi' (fun _ => [RangeNode 0 (inuse_range_high (cpus sbi))]).
Proof.
  intros [[Hl Hc] Hz]. unfold nova_init_inode_inuse_list.
  rewrite (proj2 (Z.eqb_neq _ _)) by lia.
  set (sbi0 := with_s_inodes_used_count _ sbi).
  assert (init_maps sbi0 0 (fun _ => 1%positive)) as Hinv.
  { split; simpl; [done|lia| |lia]. intros c Hci. unfold nova_get_inode_map. simpl.
    rewrite (proj2 (Z.ltb_ge c 0)) by lia.
    destruct (lookup_lt_is_Some_2 (inode_maps sbi) (Z.to_nat c)) as [im Him]; [lia|].
    exists im. split; [done|]. rewrite Forall_forall in Hz. apply Hz. by eapply list_elem_of_lookup_2. }
  destruct (init_inuse_loop_spec slab_garbage slab_serves (Z.to_nat (cpus sbi0)) sbi0 0 _
              (inuse_range_high (cpus sbi)) Hinv)
    as (sbi' & N & E & Hinv' & Hmo & Hf & _); [lia|simpl; lia|done|].
  exists sbi'. split; [done|]. pose proof (mo_cpus _ _ Hmo) as Ec. simpl in Ec.
  split; [|split].
  - destruct Hmo. by split.
  - intros n (c & im & Hcc & Hg & Hn). destruct (ij_done _ _ _ Hinv' c Hcc) as (im' & Hg' & [M _ _ _]).
    simplify_eq. rewrite M in Hn. apply list_elem_of_singleton in Hn as ->.
    apply (Hf c). simpl. lia.
  - rewrite <- Ec. eapply init_maps_ok; eauto.
Qed.

Lemma ino_init_inv sbi sbi0 :
  fresh_maps sbi -> nova_init_inode_inuse_list slab_garbage sbi = Some (0, sbi0) ->
  exists R, ino_inv (InoState sbi0 ∅) R.
Proof.
  intros Hf E. destruct (nova_init_inode_inuse_list_spec sbi Hf) as (sbi' & E' & Hmo & _ & Hok).
  rewrite E in E'. injection E' as <-. pose proof (mo_cpus _ _ Hmo) as Ec.
  eexists. split; simpl; [exact Hok|set_solver|]. intros x Hx. unfold used_ino, reserved_ino.
  rewrite Ec, in_ranges_cons, in_ranges_nil. unfold in_range; simpl.
  destruct (fm_cpus _ Hf) as [_ Hcp]. pose proof (Z.div_pos x (cpus sbi) Hx ltac:(lia)).
  set_solver by lia.
Qed.
End run.

(** ** The theorems *)

Section theorems.
Context `{RbTreeLaws} (slab_garbage : nova_range_node).

(** C16: A new inode number is one that was not in use, in the map asked for and
    behind the reserved ones; it is then in use, no other number changes, and the
    call fails only when every number of the map is taken. *)
Theorem alloc_inode_refines sbi R c old :
  inodes_ok sbi R -> 0 <= c < cpus sbi ->
  (exists ino sbi' R', nova_alloc_unused_inode sbi c old = Some (0, ino, sbi') /\
     inodes_ok sbi' R' /\ inode_frame sbi sbi' /\ ino mod cpus sbi = c /\
     ~ reserved_ino (cpus sbi) ino /\ ~ used_ino sbi R ino /\
     (forall x, used_ino sbi' R' x <-> used_ino sbi R x \/ x = ino)) \/
  (nova_alloc_unused_inode sbi c old = Some (- ENOSPC, old, sbi) /\
   forall k, 0 <= k < MAX_INODE - 1 -> used_ino sbi R (k * cpus sbi + c)).
Proof.
  intros Hok Hc. destruct (io_cpus _ _ Hok) as [_ Hcp].
  destruct (nova_alloc_unused_inode_spec sbi R c old Hok Hc)
    as [(ino & sbi' & R' & E & [? ? _ _ [? ?] _ ? ?])|[E Hall]]; [left|right].
  - exists ino, sbi', R'. split_and!; auto. unfold reserved_ino. lia.
  - split; [done|]. intros k Hk. unfold used_ino.
    destruct (ino_parts (cpus sbi) k c ltac:(lia) Hc) as [-> ->]. auto.
Qed.

(** C17: Freeing an inode number takes exactly that number out of use, whether it
    is the whole range, an end of it or inside; a number that is not in use is
    refused without a change.  Only when the slab cannot serve the node for a
    split does a successful return leave the number in use. *)
Theorem free_inode_refines sbi R ino :
  inodes_ok sbi R -> 0 <= ino -> ~ reserved_ino (cpus sbi) ino ->
  (used_ino sbi R ino /\ exists sbi' R',
     nova_free_inuse_inode slab_garbage sbi ino = Some (0, sbi') /\ inodes_ok sbi' R' /\
     ((inode_frame sbi sbi' /\ (forall x, used_ino sbi' R' x <-> used_ino sbi R x /\ x <> ino)) \/
      (kmem_cache_alloc (range_nodes sbi) = None /\
       (forall x, used_ino sbi' R' x <-> used_ino sbi R x)))) \/
  (~ used_ino sbi R ino /\ nova_free_inuse_inode slab_garbage sbi ino = Some (- EINVAL, sbi)).
Proof.
  intros Hok Hi Hr. unfold reserved_ino in Hr.
  destruct (nova_free_inuse_inode_spec slab_garbage sbi R ino Hok Hi ltac:(lia))
    as [[Hu (sbi' & E & [[R' []]|[? (R' & ? & ?)]])]|?]; [left|left|by right];
    (split; [done|]); exists sbi', R'; auto.
Qed.

(** C18: From freshly initialised maps, whatever inode numbers are created and
    deleted, the numbers in use are the reserved ones and those handed out, and a
    new inode never gets a number below [NOVA_NORMAL_INODE_START] or one that is
    still held. *)
Theorem inode_numbers_unique sbi sbi0 st :
  (forall h, kmem_cache_alloc h <> None) -> fresh_maps sbi ->
  nova_init_inode_inuse_list slab_garbage sbi = Some (0, sbi0) ->
  rtc (ino_step slab_garbage) (InoState sbi0 ∅) st ->
  (exists R, inodes_ok (is_sbi st) R /\
     (forall x, 0 <= x -> used_ino (is_sbi st) R x <->
                reserved_ino (cpus (is_sbi st)) x \/ x ∈ is_live st)) /\
  (forall c old, 0 <= c < cpus (is_sbi st) ->
     exists ret ino sbi', nova_alloc_unused_inode (is_sbi st) c old = Some (ret, ino, sbi') /\
       (ret = 0 /\ NOVA_NORMAL_INODE_START <= ino /\ ino ∉ is_live st \/
        ret = - ENOSPC /\ sbi' = is_sbi st)).
Proof.
  intros Hslab Hf E Hrun. destruct (ino_init_inv slab_garbage Hslab sbi sbi0 Hf E) as [R0 H0'].
  destruct (ino_run_inv slab_garbage Hslab _ _ _ H0' Hrun) as [R [Hok Hl Hu]].
  split; [eauto|]. intros c old Hc. destruct (io_cpus _ _ Hok) as [_ Hcp].
  destruct (nova_alloc_unused_inode_spec _ R c old Hok Hc)
    as [(ino & sbi' & R' & E' & [_ _ _ _ [Hm Hb] _ Hnew _])|[E' _]];
    [exists 0, ino, sbi'|exists (- ENOSPC), old, (is_sbi st)]; (split; [done|]); [left|auto].
  assert (NOVA_NORMAL_INODE_START <= ino) as Hge.
  { destruct (decide (ino < NOVA_NORMAL_INODE_START)) as [Hlt|]; [|lia].
    assert (ino / cpus (is_sbi st) <= (NOVA_NORMAL_INODE_START - 1) / cpus (is_sbi st))
      by (apply Z.div_le_mono; lia).
    unfold inuse_range_high in Hb. revert Hb. case_cmp; lia. }
  split_and!; auto. intros Hin. apply Hnew, Hu; [unfold NOVA_NORMAL_INODE_START in *; lia|by right].
Qed.
End theorems.

(** ** A concrete file system: two CPUs, freshly initialised maps *)

Module InodeDemo.
Import RbList.RbList.

Definition raw : nova_sb_info :=
  SbInfo 65536 20 0 3 2 [empty_inode_map; empty_inode_map] 0 [] [] [] 0 empty_free_list ∅ (fun _ => 0).

Definition garbage : nova_range_node := RangeNode 0 0.

Definition fs : nova_sb_info :=
  match nova_init_inode_inuse_list garbage raw with Some (_, sbi) => sbi | None => raw end.

Definition R : Z -> list nova_range_node := fun _ => [RangeNode 0 7].

(** Two inodes are created on CPU 0, and the first is deleted again. *)
Definition fs1 : nova_sb_info :=
  match nova_alloc_unused_inode fs 0 0 with Some (_, _, s) => s | None => fs end.
Definition fs2 : nova_sb_info :=
  match nova_alloc_unused_inode fs1 0 0 with Some (_, _, s) => s | None => fs end.
Definition fs3 : nova_sb_info :=
  match nova_free_inuse_inode garbage fs2 16 with Some (_, s) => s | None => fs end.

Lemma imap_raw_fresh : fresh_maps raw.
Proof. split; simpl; [lia|repeat constructor]. Qed.

Lemma imap_slab h : kmem_cache_alloc h <> None.
Proof. apply rb_list_alloc. Qed.

Lemma fs_init : nova_init_inode_inuse_list garbage raw = Some (0, fs).
Proof. vm_compute. reflexivity. Qed.

Lemma imap_fs_ok : inodes_ok fs R.
Proof.
  destruct (nova_init_inode_inuse_list_spec garbage imap_slab raw imap_raw_fresh) as (s & E & _ & _ & Hok).
  rewrite fs_init in E. injection E as <-. exact Hok.
Qed.

Lemma imap_fs_cpus : cpus fs = 2.
Proof. vm_compute. reflexivity. Qed.

Lemma alloc1 : nova_alloc_unused_inode fs 0 0 = Some (0, 16, fs1).
Proof. vm_compute. reflexivity. Qed.
Lemma alloc2 : nova_alloc_unused_inode fs1 0 0 = Some (0, 18, fs2).
Proof. vm_compute. reflexivity. Qed.
Lemma free1 : nova_free_inuse_inode garbage fs2 16 = Some (0, fs3).
Proof. vm_compute. reflexivity. Qed.

Definition live3 : gset Z := (∅ ∪ {[16]} ∪ {[18]}) ∖ {[16]}.

Lemma imap_reach3 : rtc (ino_step garbage) (InoState fs ∅) (InoState fs3 live3).
Proof.
  eapply rtc_l; [eapply (step_new garbage fs ∅ 0 0 16 fs1); [vm_compute; split; congruence|exact alloc1]|].
  eapply rtc_l; [eapply (step_new garbage fs1 _ 0 0 18 fs2); [vm_compute; split; congruence|exact alloc2]|].
  apply rtc_once. apply step_delete; [set_solver|exact free1].
Qed.

Lemma alloc_inode_refines_witness :
  (exists ino sbi' R', nova_alloc_unused_inode fs 0 0 = Some (0, ino, sbi') /\
     inodes_ok sbi' R' /\ inode_frame fs sbi' /\ ino mod cpus fs = 0 /\
     ~ reserved_ino (cpus fs) ino /\ ~ used_ino fs R ino /\
     (forall x, used_ino sbi' R' x <-> used_ino fs R x \/ x = ino)) \/
  (nova_alloc_unused_inode fs 0 0 = Some (- ENOSPC, 0, fs) /\
   forall k, 0 <= k < MAX_INODE - 1 -> used_ino fs R (k * cpus fs + 0)).
Proof. apply (alloc_inode_refines fs R 0 0 imap_fs_ok). vm_compute. split; congruence. Defined.

Lemma free_inode_refines_witness :
  (used_ino fs R 40 /\ exists sbi' R',
     nova_free_inuse_inode garbage fs 40 = Some (0, sbi') /\ inodes_ok sbi' R' /\
     ((inode_frame fs sbi' /\ (forall x, used_ino sbi' R' x <-> used_ino fs R x /\ x <> 40)) \/
      (kmem_cache_alloc (range_nodes fs) = None /\
       (forall x, used_ino sbi' R' x <-> used_ino fs R x)))) \/
  (~ used_ino fs R 40 /\ nova_free_inuse_inode garbage fs 40 = Some (- EINVAL, fs)).
Proof.
  apply (free_inode_refines garbage fs R 40 imap_fs_ok); [lia|].
  unfold reserved_ino. rewrite imap_fs_cpus. vm_compute. congruence.
Defined.

Lemma inode_numbers_unique_witness :
  (exists R', inodes_ok fs3 R' /\
     (forall x, 0 <= x -> used_ino fs3 R' x <-> reserved_ino (cpus fs3) x \/ x ∈ live3)) /\
  (forall c old, 0 <= c < cpus fs3 ->
     exists ret ino sbi', nova_alloc_unused_inode fs3 c old = Some (ret, ino, sbi') /\
       (ret = 0 /\ NOVA_NORMAL_INODE_START <= ino /\ ino ∉ live3 \/ ret = - ENOSPC /\ sbi' = fs3)).
Proof.
  exact (inode_numbers_unique garbage raw fs (InoState fs3 live3) imap_slab imap_raw_fresh fs_init imap_reach3).
Defined.

End InodeDemo.
