(* ===== verification/LogBlocks.v ===== *)
(** * The interface between the block allocator and its clients

    What the inode tables, the journal and the inode logs rely on: one zeroed 4K
    block per request, or a run of blocks, taken from a set of free blocks and given
    back to it, with everything but the new block's memory and the free lists left
    alone.  The clients' theorems are
    proved against the class; the instance at the end shows that the allocator of
    balloc.c keeps the promise. *)

From S2P Require Import Prelude Layout RangeTree State Balloc BallocFacts BallocSpec BallocTheorems.

(** The device is mapped without wrapping around the address space. *)
Definition mapped (sbi : nova_sb_info) : Prop :=
  0 < virt_addr sbi /\ virt_addr sbi + 4096 * num_blocks sbi <= 18446744073709551616.

(** The bytes of a block. *)
Definition block_addr (sbi : nova_sb_info) (b : Z) : Z := virt_addr sbi + 4096 * b.

(** A block was zeroed; all other memory is as before. *)
Definition zeroed_page (sbi : nova_sb_info) (b : Z) (m m' : memory) : Prop :=
  (forall a, block_addr sbi b <= a < block_addr sbi (b + 1) -> m' a = 0) /\
  (forall a, ~ block_addr sbi b <= a < block_addr sbi (b + 1) -> m' a = m a).

(** The same for [n] blocks. *)
Definition zeroed_pages (sbi : nova_sb_info) (b n : Z) (m m' : memory) : Prop :=
  (forall a, block_addr sbi b <= a < block_addr sbi (b + n) -> m' a = 0) /\
  (forall a, ~ block_addr sbi b <= a < block_addr sbi (b + n) -> m' a = m a).

(** The part of the state the free lists live in. *)
Record same_lists (sbi sbi' : nova_sb_info) : Prop := {
  sl_cpus : cpus sbi' = cpus sbi;
  sl_blocks : num_blocks sbi' = num_blocks sbi;
  sl_per : per_list_blocks sbi' = per_list_blocks sbi;
  sl_lists : free_lists sbi' = free_lists sbi;
  sl_shared : shared_free_list sbi' = shared_free_list sbi;
  sl_nodes n : block_node sbi n -> range_nodes sbi' !! n = range_nodes sbi !! n;
}.

(** What a client that allocates blocks leaves alone: the geometry and the
    inode numbers. *)
Record blocks_only (sbi sbi' : nova_sb_info) : Prop := {
  bl_virt : virt_addr sbi' = virt_addr sbi;
  bl_cpus : cpus sbi' = cpus sbi;
  bl_blocks : num_blocks sbi' = num_blocks sbi;
  bl_maps : inode_maps sbi' = inode_maps sbi /\ map_id sbi' = map_id sbi;
  bl_nodes : nodes_frame sbi sbi';
}.

#[export] Instance blocks_only_preorder : PreOrder blocks_only.
Proof.
  split.
  - intros sbi. split; auto with nova.
  - intros s1 s2 s3 [V1 C1 N1 [M1 I1] F1] [V2 C2 N2 [M2 I2] F2].
    split; try congruence; [split; congruence|eauto with nova].
Qed.

Class LogBlocks `{RbTree} := {
  (** The set of blocks that are free. *)
  lb_free : nova_sb_info -> (Z -> Prop) -> Prop;
  lb_bounds sbi F b : lb_free sbi F -> F b -> 0 < b < num_blocks sbi;
  lb_size sbi F : lb_free sbi F -> num_blocks sbi < 2147483648;
  lb_ext sbi F F' : lb_free sbi F -> (forall b, F' b <-> F b) -> lb_free sbi F';
  lb_live sbi F n : lb_free sbi F -> block_node sbi n -> range_nodes sbi !! n <> None;
  (** A change elsewhere does not matter. *)
  lb_local sbi sbi' F : lb_free sbi F -> same_lists sbi sbi' -> lb_free sbi' F;
  lb_new sbi F cpu pi old :
    lb_free sbi F -> mapped sbi -> 0 <= cpu < cpus sbi -> Pi.i_blk_type (nvm sbi) pi = 0 ->
    exists ret nr sbi', nova_new_log_blocks sbi cpu pi old 1 1 = Some (ret, nr, sbi') /\
      same_geometry sbi sbi' /\ nodes_frame sbi sbi' /\
      ((ret = 1 /\ F nr /\ lb_free sbi' (fun b => F b /\ b <> nr) /\
        zeroed_page sbi nr (nvm sbi) (nvm sbi')) \/
       (ret = - ENOSPC /\ nr = old /\ lb_free sbi' F /\ nvm sbi' = nvm sbi));
  (** Several pages at once, not zeroed: a part of the request, from one list. *)
  lb_extent sbi F cpu pi old num :
    lb_free sbi F -> 0 <= cpu < cpus sbi -> Pi.i_blk_type (nvm sbi) pi = 0 ->
    0 < num < 2147483648 ->
    exists ret nr sbi', nova_new_log_blocks sbi cpu pi old num 0 = Some (ret, nr, sbi') /\
      same_geometry sbi sbi' /\ nodes_frame sbi sbi' /\ nvm sbi' = nvm sbi /\
      ((0 < ret <= num /\ (forall b, nr <= b < nr + ret -> F b /\ home sbi b = home sbi nr) /\
        lb_free sbi' (fun b => F b /\ ~ nr <= b < nr + ret)) \/
       (ret = - ENOSPC /\ nr = old /\ lb_free sbi' F));
  (** The same for blocks of data. *)
  lb_extent_data sbi F cpu pi old num :
    lb_free sbi F -> 0 <= cpu < cpus sbi -> Pi.i_blk_type (nvm sbi) pi = 0 ->
    0 < num < 2147483648 ->
    exists ret nr sbi', nova_new_data_blocks sbi cpu pi old num 0 = Some (ret, nr, sbi') /\
      same_geometry sbi sbi' /\ nodes_frame sbi sbi' /\ nvm sbi' = nvm sbi /\
      ((0 < ret <= num /\ (forall b, nr <= b < nr + ret -> F b /\ home sbi b = home sbi nr) /\
        lb_free sbi' (fun b => F b /\ ~ nr <= b < nr + ret)) \/
       (ret = - ENOSPC /\ nr = old /\ lb_free sbi' F));
  (** Blocks of data that are zeroed: less than 4 GB, since the length is cut to 32 bits. *)
  lb_extent_zeroed sbi F cpu pi old num :
    lb_free sbi F -> mapped sbi -> 0 <= cpu < cpus sbi -> Pi.i_blk_type (nvm sbi) pi = 0 ->
    0 < num < 1048576 ->
    exists ret nr sbi', nova_new_data_blocks sbi cpu pi old num 1 = Some (ret, nr, sbi') /\
      same_geometry sbi sbi' /\ nodes_frame sbi sbi' /\
      ((0 < ret <= num /\ (forall b, nr <= b < nr + ret -> F b) /\
        lb_free sbi' (fun b => F b /\ ~ nr <= b < nr + ret) /\ zeroed_pages sbi nr ret (nvm sbi) (nvm sbi')) \/
       (ret = - ENOSPC /\ nr = old /\ lb_free sbi' F /\ nvm sbi' = nvm sbi));
  (** Releasing pages of one list. *)
  lb_release garbage sbi F pi b num :
    lb_free sbi F -> Pi.i_blk_type (nvm sbi) pi = 0 -> 0 < num -> 0 < b ->
    b + num <= num_blocks sbi ->
    (forall x, b <= x < b + num -> home sbi x = home sbi b /\ ~ F x) ->
    exists ret sbi', nova_free_log_blocks garbage sbi pi b num = Some (ret, sbi') /\
      same_geometry sbi sbi' /\ nodes_frame sbi sbi' /\ nvm sbi' = nvm sbi /\
      ((ret = 0 /\ lb_free sbi' (fun x => F x \/ b <= x < b + num)) \/
       (ret = - ENOMEM /\ sbi' = sbi /\ kmem_cache_alloc (range_nodes sbi) = None));
  (** The same for blocks of data. *)
  lb_release_data garbage sbi F pi b num :
    lb_free sbi F -> Pi.i_blk_type (nvm sbi) pi = 0 -> 0 < num -> 0 < b ->
    b + num <= num_blocks sbi ->
    (forall x, b <= x < b + num -> home sbi x = home sbi b /\ ~ F x) ->
    exists ret sbi', nova_free_data_blocks garbage sbi pi b num = Some (ret, sbi') /\
      same_geometry sbi sbi' /\ nodes_frame sbi sbi' /\ nvm sbi' = nvm sbi /\
      ((ret = 0 /\ lb_free sbi' (fun x => F x \/ b <= x < b + num)) \/
       (ret = - ENOMEM /\ sbi' = sbi /\ kmem_cache_alloc (range_nodes sbi) = None));
}.

(** ** The allocator keeps the promise *)

Section instance.
Context `{RbTreeLaws}.

Definition free_set (sbi : nova_sb_info) (F : Z -> Prop) : Prop :=
  exists R, balloc_ok sbi R /\ (forall b, F b <-> free_block sbi R b).

Lemma same_lists_get sbi sbi' c :
  same_lists sbi sbi' -> nova_get_free_list sbi' c = nova_get_free_list sbi c.
Proof. intros [Ec _ _ El Es _]. unfold nova_get_free_list. by rewrite Ec, El, Es. Qed.

Lemma free_set_local sbi sbi' F : free_set sbi F -> same_lists sbi sbi' -> free_set sbi' F.
Proof.
  intros (R & Hok & HF) Hs. pose proof Hs as [Ec Eb Ep El Es En]. exists R.
  assert (forall c, valid_cpu sbi' c <-> valid_cpu sbi c) as Hv
    by (intros c; unfold valid_cpu; by rewrite Ec).
  split.
  - split.
    + rewrite Ec, El. apply Hok.
    + rewrite Ec, Eb, Ep. apply Hok.
    + intros c fl Hc. rewrite (same_lists_get _ _ _ Hs). intros Hg. apply Hv in Hc.
      pose proof (bo_list _ _ Hok c fl Hc Hg) as [[Hh ? ?] ? ? ? ?]. split; auto. split; auto.
      eapply holds_frame; [exact Hh|]. intros n Hn. apply En. by exists c, fl.
    + intros c d fl fl' n Hc Hd. rewrite !(same_lists_get _ _ _ Hs). apply Hv in Hc, Hd.
      by apply (bo_apart _ _ Hok).
    + intros c b Hc Hb. apply Hv in Hc. unfold home. rewrite Eb, Ec, Ep.
      by apply (bo_home _ _ Hok).
  - intros b. rewrite HF. unfold free_block. by setoid_rewrite Hv.
Qed.

Lemma pages_zeroed sbi b n m : mapped sbi -> 0 < b -> 0 < n < 1048576 -> b + n <= num_blocks sbi -> num_blocks sbi < 2147483648 ->
  zeroed_pages sbi b n m
    (memset0 m (nova_get_block (virt_addr sbi) (nova_get_block_off b)) (u32 (PAGE_SIZE * n))).
Proof.
  intros [Hv Hm] Hb Hn Hbn Hs. unfold zeroed_pages, memset0, nova_get_block, block_addr, PAGE_SIZE.
  rewrite nova_get_block_off_alt by lia. rewrite (proj2 (Z.eqb_neq (4096 * b) 0)) by lia. wrap.
  split; intros a Ha; case_cmp; try done; [|lia].
  apply andb_false_iff in Hif as [?|?]; bool_hyps; lia.
Qed.

Lemma free_set_extent sbi F cpu pi old num atype :
  free_set sbi F -> 0 <= cpu < cpus sbi -> Pi.i_blk_type (nvm sbi) pi = 0 ->
  0 < num < 2147483648 ->
  exists ret nr sbi', nova_new_blocks sbi cpu old num (Pi.i_blk_type (nvm sbi) pi) 0 atype = Some (ret, nr, sbi') /\
    same_geometry sbi sbi' /\ nodes_frame sbi sbi' /\ nvm sbi' = nvm sbi /\
    ((0 < ret <= num /\ (forall b, nr <= b < nr + ret -> F b /\ home sbi b = home sbi nr) /\
      free_set sbi' (fun b => F b /\ ~ nr <= b < nr + ret)) \/
     (ret = - ENOSPC /\ nr = old /\ free_set sbi' F)).
Proof.
  intros (R & Hok & HF) Hcpu Hbt Hnum. rewrite Hbt.
  destruct (new_blocks_extent sbi R cpu old num 0 0 atype Hok Hcpu Hnum ltac:(lia))
    as (ret & nr & sbi' & E & [(Hr & _ & (Hnr & Hend & R' & Hok' & Hfr & Hset) & Hg & Hn & Hm)
                              |(-> & -> & (Hg & Hm & Hn) & Hok')]).
  - change (nova_get_numblocks 0) with 1 in *. rewrite Z.mul_1_r in *.
    exists ret, nr, sbi'. split_and!; auto. left. split_and!; [lia|lia| |].
    + intros b Hb. split; [apply HF, Hset; by right|]. destruct (Hfr b Hb) as [Hh _].
      unfold home in *. by rewrite (sg_cpus _ _ Hg), (sg_per _ _ Hg) in Hh.
    + exists R'. split; [done|]. intros b. rewrite HF, Hset. split; [tauto|].
      intros Hb. split; [by left|]. intros Hin. by apply (Hfr b Hin).
  - exists (- ENOSPC), old, sbi'. split_and!; auto. right. split_and!; auto.
    exists R. split; [done|]. intros b. rewrite HF. symmetry. by apply free_block_geometry.
Qed.

Lemma free_set_release garbage sbi F pi b num log_page :
  free_set sbi F -> Pi.i_blk_type (nvm sbi) pi = 0 -> 0 < num -> 0 < b ->
  b + num <= num_blocks sbi ->
  (forall x, b <= x < b + num -> home sbi x = home sbi b /\ ~ F x) ->
  exists ret sbi', nova_free_blocks garbage sbi b num (Pi.i_blk_type (nvm sbi) pi) log_page = Some (ret, sbi') /\
    same_geometry sbi sbi' /\ nodes_frame sbi sbi' /\ nvm sbi' = nvm sbi /\
    ((ret = 0 /\ free_set sbi' (fun x => F x \/ b <= x < b + num)) \/
     (ret = - ENOMEM /\ sbi' = sbi /\ kmem_cache_alloc (range_nodes sbi) = None)).
Proof.
  intros (R & Hok & HF) Hbt Hnum Hb Hle Hout. rewrite Hbt.
  destruct (nova_free_blocks_spec garbage sbi R b num 0 log_page Hok Hnum Hb)
    as (ret & sbi' & E & (Hg & Hm & Hn) & Hres); change (nova_get_numblocks 0) with 1 in *;
    rewrite ?Z.mul_1_l in *; [done| |].
  { intros x Hx. rewrite <- HF. by apply Hout. }
  exists ret, sbi'. split_and!; auto.
  destruct Hres as [(-> & R' & Hok' & Hset)|?]; [left|by right]. split; [done|].
  exists R'. split; [done|]. intros x. by rewrite Hset, HF.
Qed.

#[export] Instance balloc_log_blocks : LogBlocks.
Proof.
  refine {| lb_free := free_set |}.
  - intros sbi F b (R & Hok & HF) Hb%HF. destruct Hb as (c & Hc & Hb).
    by apply (bo_home _ _ Hok) in Hb as [? _].
  - intros sbi F (R & Hok & _). apply (bo_size _ _ Hok).
  - intros sbi F F' (R & Hok & HF) HE. exists R. split; [done|]. intros b. by rewrite HE.
  - intros sbi F n (R & Hok & _) (c & fl & Hc & Hg & Hn).
    destruct (bo_list _ _ Hok c fl Hc Hg) as [[Hh _ _] _ _ _ _].
    destruct (holds_in _ _ _ _ Hh Hn) as (r & -> & _). done.
  - exact free_set_local.
  - intros sbi F cpu pi old (R & Hok & HF) Hmap Hcpu Hbt.
    unfold nova_new_log_blocks. rewrite Hbt.
    destruct (new_blocks_extent sbi R cpu old 1 0 1 LOG Hok Hcpu ltac:(lia) ltac:(lia))
      as (ret & nr & sbi' & E & [(Hr & _ & (Hnr & Hend & R' & Hok' & Hfr & Hset) & Hg & Hn & Hm)
                                |(-> & -> & (Hg & Hm & Hn) & Hok')]);
      exists ret || exists (- ENOSPC).
    + assert (ret = 1) as -> by lia. change (1 * nova_get_numblocks 0) with 1 in *.
      exists nr, sbi'. split_and!; auto. left. split_and!; auto.
      * apply HF, Hset. right. lia.
      * exists R'. split; [done|]. intros b. rewrite HF, Hset.
        split; [intros [[?|?] ?]; [done|lia]|].
        intros Hb. split; [by left|]. intros ->. by apply (Hfr nr ltac:(lia)).
      * rewrite Hm. apply (pages_zeroed sbi nr 1); auto; [lia|]. apply (bo_size _ _ Hok).
    + exists old, sbi'. split_and!; auto. right. split_and!; auto.
      exists R. split; [done|]. intros b. rewrite HF. symmetry. by apply free_block_geometry.
  - intros. by apply free_set_extent.
  - intros. by apply free_set_extent.
  - intros sbi F cpu pi old num (R & Hok & HF) Hmap Hcpu Hbt Hnum. unfold nova_new_data_blocks. rewrite Hbt.
    destruct (new_blocks_extent sbi R cpu old num 0 1 DATA Hok Hcpu ltac:(lia) ltac:(lia))
      as (ret & nr & sbi' & E & [(Hr & _ & (Hnr & Hend & R' & Hok' & Hfr & Hset) & Hg & Hn & Hm)
                                |(-> & -> & (Hg & Hm & Hn) & Hok')]).
    + change (nova_get_numblocks 0) with 1 in *. rewrite Z.mul_1_r in *.
      exists ret, nr, sbi'. split_and!; auto. left. split_and!; [lia|lia| | |].
      * intros b Hb. apply HF, Hset. by right.
      * exists R'. split; [done|]. intros b. rewrite HF, Hset. split; [tauto|].
        intros Hb. split; [by left|]. intros Hin. by apply (Hfr b Hin).
      * rewrite Hm. apply pages_zeroed; auto; [lia|]. apply (bo_size _ _ Hok).
    + exists (- ENOSPC), old, sbi'. split_and!; auto. right. split_and!; auto.
      exists R. split; [done|]. intros b. rewrite HF. symmetry. by apply free_block_geometry.
  - intros garbage sbi F pi b num Hf Hbt Hn Hb. unfold nova_free_log_blocks.
    rewrite (proj2 (Z.eqb_neq b 0)) by lia. by apply free_set_release.
  - intros garbage sbi F pi b num Hf Hbt Hn Hb. unfold nova_free_data_blocks.
    rewrite (proj2 (Z.eqb_neq b 0)) by lia. by apply free_set_release.
Defined.
End instance.
