(* ===== verification/InodeTable.v ===== *)
(** * The inode mapping tables (inode.c, mappingtable.c, nova.h)

    Themis keeps, for each CPU, a table of the 4K pages that hold the inodes of
    that CPU: page [j] holds the inodes whose number divided by the number of CPUs
    is [32 j .. 32 j + 31].  Pages are added when an inode number needs one. *)

From S2P Require Import Prelude Layout RangeTree RbList State Balloc BallocFacts BallocSpec.
From S2P Require Import BallocInit TreeEdits InodeMap LogBlocks.

(** ** The operations *)

Definition TABLE_NUM : Z := 512.

(** [mutex_lock] of a table's mutex: a thread that holds it already waits for
    itself, and never returns. *)
Definition mutex_lock (sbi : nova_sb_info) (cpu : Z) : option nova_sb_info :=
  held ← inode_page_mapping_table_locks sbi !! Z.to_nat cpu;
  if (held : bool) then None
  else Some (with_inode_page_mapping_table_locks
               (<[Z.to_nat cpu := true]> (inode_page_mapping_table_locks sbi)) sbi).

Definition mutex_unlock (sbi : nova_sb_info) (cpu : Z) : nova_sb_info :=
  with_inode_page_mapping_table_locks
    (<[Z.to_nat cpu := false]> (inode_page_mapping_table_locks sbi)) sbi.

(** [None] is the null pointer, or an index past the array. *)
Definition nova_get_inode_page_mapping_table (sbi : nova_sb_info) (cpu : Z) : option (list Z) :=
  if cpu <? cpus sbi
  then (if cpu <? 0 then None else inode_page_mapping_tables sbi !! Z.to_nat cpu)
  else None.

(** Reading and writing one entry of a CPU's table. *)
Definition table_read (sbi : nova_sb_info) (cpu j : Z) : option Z :=
  table ← nova_get_inode_page_mapping_table sbi cpu;
  if j <? 0 then None else table !! Z.to_nat j.

Definition table_write (sbi : nova_sb_info) (cpu j v : Z) : option nova_sb_info :=
  table ← nova_get_inode_page_mapping_table sbi cpu;
  if (0 <=? j) && (j <? Z.of_nat (length table)) then
    Some (with_inode_page_mapping_tables
            (<[Z.to_nat cpu := <[Z.to_nat j := v]> table]> (inode_page_mapping_tables sbi)) sbi)
  else None.

(** [kzalloc_ok] tells whether the array of tables, and then the table of each
    CPU, could be allocated; a table that was not is a null pointer, here a table
    without entries. *)
Definition nova_alloc_block_inode_page_mapping_table (sbi : nova_sb_info) (kzalloc_ok : option (Z -> bool)) :
    Z * nova_sb_info :=
  match kzalloc_ok with
  | None => (- ENOMEM, with_inode_page_mapping_tables [] sbi)
  | Some ok =>
    (0, with_inode_page_mapping_tables
          (map (fun i => if ok i then replicate (Z.to_nat TABLE_NUM) 0 else []) (seqZ 0 (cpus sbi))) sbi)
  end.

Definition nova_delete_inode_page_mapping_tables (sbi : nova_sb_info) : nova_sb_info :=
  with_inode_page_mapping_tables [] sbi.

(** [inode_table] of a CPU, in the third block of the device. *)
Definition nova_get_inode_table (sbi : nova_sb_info) (cpu : Z) : option Z :=
  if cpus sbi <=? cpu then None
  else Some (u64 (nova_get_block (virt_addr sbi) (NOVA_DEF_BLOCK_SIZE_4K * 2) + cpu * CACHELINE_SIZE)).

(** [nova_get_inode_page_lock] has locks for 40 CPUs; past that it returns no
    value. *)
Definition nova_get_inode_page_lock (cpu : Z) : option unit :=
  if cpu <? 40 then Some tt else None.

(** All [TABLE_NUM] entries are cleared and the first one set. *)
Definition first_page (block : Z) (table : list Z) : list Z :=
  <[0%nat := block]> (replicate (Z.to_nat TABLE_NUM) 0 ++ drop (Z.to_nat TABLE_NUM) table).
#[global] Arguments first_page : simpl never.

Section operations.
Context `{RbTree}.
(** [smp_processor_id()], for the allocations. *)
Context (smp : Z).

(** One turn of the loop of [nova_init_inode_table] for CPU [i]; [blocknr] is the
    local variable.  [inl] is the early return. *)
Definition init_table_one (sbi : nova_sb_info) (pi i blocknr : Z) :
    option ((Z * nova_sb_info) + (Z * nova_sb_info)) :=
  match nova_get_inode_table sbi i with
  | None => Some (inl (- EINVAL, sbi))
  | Some inode_table =>
    res ← nova_new_log_blocks sbi smp pi blocknr 1 1;
    let '(allocated, blocknr, sbi) := (res : Z * Z * nova_sb_info) in
    if negb (allocated =? 1) || (blocknr =? 0) then Some (inl (- ENOSPC, sbi))
    else
      sbi ← mutex_lock sbi i;
      table ← nova_get_inode_page_mapping_table sbi i;
      _ ← nova_get_inode_page_lock i;
      if Z.of_nat (length table) <? TABLE_NUM then None
      else
        let block := nova_get_block_off blocknr in
        let table := first_page block table in
        let sbi := with_inode_page_mapping_tables
                     (<[Z.to_nat i := table]> (inode_page_mapping_tables sbi)) sbi in
        let sbi := mutex_unlock sbi i in
        Some (inr (blocknr, with_nvm (store 8 (nvm sbi) inode_table block) sbi))
  end.

Fixpoint init_table_loop (n : nat) (i : Z) (sbi : nova_sb_info) (pi blocknr : Z) :
    option (Z * nova_sb_info) :=
  match n with
  | O => Some (0, sbi)
  | S n =>
    res ← init_table_one sbi pi i blocknr;
    match res with
    | inl r => Some r
    | inr (blocknr, sbi) => init_table_loop n (i + 1) sbi pi blocknr
    end
  end.

(** The fields [nova_init_inode_table] sets in the inode of the inode table. *)
Definition init_table_inode (m : memory) (pi : Z) : memory :=
  let m := Pi.set_i_mode m pi 0 in
  let m := Pi.set_i_uid m pi 0 in
  let m := Pi.set_i_gid m pi 0 in
  let m := Pi.set_i_links_count m pi 1 in
  let m := Pi.set_i_flags m pi 0 in
  let m := Pi.set_nova_ino m pi NOVA_INODETABLE_INO in
  Pi.set_i_blk_type m pi NOVA_BLOCK_TYPE_4K.

(** [blocknr] is the uninitialised local variable. *)
Definition nova_init_inode_table (sbi : nova_sb_info) (kzalloc_ok : option (Z -> bool)) (blocknr : Z) :
    option (Z * nova_sb_info) :=
  pi ← nova_get_inode_by_ino (virt_addr sbi) NOVA_INODETABLE_INO;
  let sbi := with_inode_page_mapping_table_locks (replicate (Z.to_nat (cpus sbi)) false) sbi in
  let sbi := with_nvm (init_table_inode (nvm sbi) pi) sbi in
  let '(_, sbi) := nova_alloc_block_inode_page_mapping_table sbi kzalloc_ok in
  init_table_loop (Z.to_nat (cpus sbi)) 0 sbi pi blocknr.

(** The loop over the pages [i+1 .. superpage_count] of the table: it stops with
    the error of a page that is missing and cannot be added. *)
Fixpoint extend_table (n : nat) (i : Z) (sbi : nova_sb_info) (cpuid pi extendable blocknr : Z) :
    option (Z * nova_sb_info) :=
  match n with
  | O => Some (0, sbi)
  | S n =>
    curr ← table_read sbi cpuid (i + 1);
    if curr =? 0 then
      if extendable =? 0 then Some (- EINVAL, sbi)
      else
        res ← nova_new_log_blocks sbi smp pi blocknr 1 1;
        let '(allocated, blocknr, sbi) := (res : Z * Z * nova_sb_info) in
        if negb (allocated =? 1) then Some (allocated, sbi)
        else
          sbi ← table_write sbi cpuid (i + 1) (nova_get_block_off blocknr);
          extend_table n (i + 1) sbi cpuid pi extendable blocknr
    else extend_table n (i + 1) sbi cpuid pi extendable blocknr
  end.

(** Returns the code's result and [*pi_addr], whose old value is [pi_addr].  The
    error returns leave the mutex held, as the code does. *)
Definition nova_get_inode_address (sbi : nova_sb_info) (ino pi_addr extendable blocknr : Z) :
    option (Z * Z * nova_sb_info) :=
  pi ← nova_get_inode_by_ino (virt_addr sbi) NOVA_INODETABLE_INO;
  data_bits ← blk_type_to_shift (Pi.i_blk_type (nvm sbi) pi);
  let num_inodes_bits := u32 (data_bits - NOVA_INODE_BITS) in
  if cpus sbi =? 0 then None
  else
    let cpuid := ino mod cpus sbi in
    let internal_ino := ino / cpus sbi in
    sbi ← mutex_lock sbi cpuid;
    let superpage_count := u32 (Z.shiftr internal_ino num_inodes_bits) in
    let index := u32 (Z.land internal_ino (i32 (Z.shiftl 1 num_inodes_bits) - 1)) in
    curr ← table_read sbi cpuid 0;
    if curr =? 0 then Some (- EINVAL, pi_addr, sbi)
    else
      res ← extend_table (Z.to_nat superpage_count) 0 sbi cpuid pi extendable blocknr;
      let '(ret, sbi) := (res : Z * nova_sb_info) in
      if negb (ret =? 0) then Some (ret, pi_addr, sbi)
      else
        curr ← table_read sbi cpuid superpage_count;
        Some (0, u64 (curr + index * NOVA_INODE_SIZE), mutex_unlock sbi cpuid).

(** [nova_new_nova_inode] returns the inode number, 0 on failure, and
    [*pi_addr]. *)
Definition nova_new_nova_inode (sbi : nova_sb_info) (pi_addr blocknr : Z) :
    option (Z * Z * nova_sb_info) :=
  if cpus sbi =? 0 then None
  else
    let map_id := i32 (map_id sbi) in
    let sbi := with_map_id (u64 (State.map_id sbi + 1) mod cpus sbi) sbi in
    res ← nova_alloc_unused_inode sbi map_id 0;
    let '(ret, free_ino, sbi) := (res : Z * Z * nova_sb_info) in
    if negb (ret =? 0) then Some (0, pi_addr, sbi)
    else
      res ← nova_get_inode_address sbi free_ino pi_addr 1 blocknr;
      let '(ret, pi_addr, sbi) := (res : Z * Z * nova_sb_info) in
      if negb (ret =? 0) then Some (0, pi_addr, sbi)
      else Some (free_ino, pi_addr, sbi).

(** The inode at an offset, whose number the code compares: offset 0 is the null pointer,
    and the comparison faults on it. *)
Definition inode_at (sbi : nova_sb_info) (addr : Z) : option ((unit + Z) * nova_sb_info) :=
  if addr =? 0 then None else Some (inr (nova_get_block (virt_addr sbi) addr), sbi).

(** The address of an inode in memory, or the null pointer as [inl tt]; [si_addr]
    is [pi_addr] in the in-memory inode. *)
Definition nova_get_inode (sbi : nova_sb_info) (ino si_addr : Z) :
    option ((unit + Z) * nova_sb_info) :=
  res ← nova_get_inode_address sbi ino 0 0 0;
  let '(ret, pi_addr, sbi) := (res : Z * Z * nova_sb_info) in
  if negb (ret =? 0) then Some (inl tt, sbi)
  else if ino <? NOVA_NORMAL_INODE_START then inode_at sbi si_addr
  else inode_at sbi pi_addr.

Definition nova_get_inode_by_ino_wwb (sbi : nova_sb_info) (ino : Z) :
    option ((unit + Z) * nova_sb_info) :=
  res ← nova_get_inode_address sbi ino 0 0 0;
  let '(ret, pi_addr, sbi) := (res : Z * Z * nova_sb_info) in
  if negb (ret =? 0) then Some (inl tt, sbi)
  else inode_at sbi pi_addr.

(** The label [WWB_GET] with [retries] attempts left after this one. *)
Fixpoint wwb_get (retries : nat) (sbi : nova_sb_info) (ino : Z) :
    option ((unit + Z) * nova_sb_info) :=
  res ← nova_get_inode_address sbi ino 0 0 0;
  let '(ret, piaddr, sbi) := (res : Z * Z * nova_sb_info) in
  if negb (ret =? 0) then
    match retries with
    | O => Some (inl tt, sbi)
    | S retries => wwb_get retries sbi ino
    end
  else inode_at sbi piaddr.

Definition nova_get_inode_by_ino_or_pi_addr (sbi : nova_sb_info) (ino pi_addr : Z) :
    option ((unit + Z) * nova_sb_info) :=
  if ino <? NOVA_NORMAL_INODE_START then
    if pi_addr =? 0 then wwb_get 3 sbi ino
    else
      let pi := nova_get_block (virt_addr sbi) pi_addr in
      if negb (ino =? Pi.nova_ino (nvm sbi) pi) then
        match nova_get_inode_by_ino (virt_addr sbi) ino with
        | None => wwb_get 3 sbi ino
        | Some pi => Some (inr pi, sbi)
        end
      else Some (inr pi, sbi)
  else wwb_get 3 sbi ino.
End operations.

(** ** The invariant *)

(** [P c] are the numbers of the pages in CPU [c]'s table, in order. *)
Definition table_of (pages : list Z) : list Z :=
  map (fun b => 4096 * b) pages ++ replicate (Z.to_nat TABLE_NUM - length pages) 0.

(** The inode of the inode table lies in block 0. *)
Definition table_pi (sbi : nova_sb_info) : Z := nova_get_basic_inode (virt_addr sbi) NOVA_INODETABLE_INO.

Record tables_ok (sbi : nova_sb_info) (P : Z -> list Z) : Prop := {
  to_cpus : 0 < cpus sbi <= 64 /\ length (inode_page_mapping_tables sbi) = Z.to_nat (cpus sbi) /\
    length (inode_page_mapping_table_locks sbi) = Z.to_nat (cpus sbi);
  to_table c : 0 <= c < cpus sbi ->
    inode_page_mapping_tables sbi !! Z.to_nat c = Some (table_of (P c)) /\
    (0 < length (P c) <= Z.to_nat TABLE_NUM)%nat;
  to_pages c b : 0 <= c < cpus sbi -> b ∈ P c -> 0 < b < num_blocks sbi;
  to_distinct c d i j b : 0 <= c < cpus sbi -> 0 <= d < cpus sbi ->
    P c !! i = Some b -> P d !! j = Some b -> c = d /\ i = j;
  to_type : Pi.i_blk_type (nvm sbi) (table_pi sbi) = NOVA_BLOCK_TYPE_4K;
}.

(** No mutex is held. *)
Definition unlocked (sbi : nova_sb_info) : Prop :=
  forall c, 0 <= c < cpus sbi -> inode_page_mapping_table_locks sbi !! Z.to_nat c = Some false.

(** The byte offset of an inode: its page and its slot of 128 bytes. *)
Definition inode_slot (cpus : Z) (P : Z -> list Z) (ino : Z) : option Z :=
  page ← P (ino mod cpus) !! Z.to_nat (ino / cpus / 32);
  Some (4096 * page + (ino / cpus) mod 32 * NOVA_INODE_SIZE).

(** ** Reading the tables *)

Lemma lookup_table_of pages j :
  (j < Z.to_nat TABLE_NUM)%nat -> (length pages <= Z.to_nat TABLE_NUM)%nat ->
  table_of pages !! j = Some (match pages !! j with Some b => 4096 * b | None => 0 end).
Proof.
  intros Hj Hl. unfold table_of. destruct (decide (j < length pages)%nat) as [Hlt|Hge].
  - destruct (lookup_lt_is_Some_2 pages j Hlt) as [b Hb]. rewrite Hb.
    rewrite lookup_app_l by (by rewrite length_map). by rewrite list_lookup_fmap, Hb.
  - rewrite (lookup_ge_None_2 pages j) by lia.
    rewrite lookup_app_r by (rewrite length_map; lia).
    apply lookup_replicate_2. rewrite length_map. lia.
Qed.

Section tables.
Implicit Types (sbi : nova_sb_info) (P : Z -> list Z).

Lemma table_read_ok sbi P c j :
  tables_ok sbi P -> 0 <= c < cpus sbi -> 0 <= j < TABLE_NUM ->
  table_read sbi c j = Some (match P c !! Z.to_nat j with Some b => 4096 * b | None => 0 end).
Proof.
  intros Hok Hc Hj. destruct (to_table _ _ Hok c Hc) as [E Hl].
  unfold table_read, nova_get_inode_page_mapping_table.
  rewrite (proj2 (Z.ltb_lt c (cpus sbi))), (proj2 (Z.ltb_ge c 0)), E by lia. simpl.
  rewrite (proj2 (Z.ltb_ge j 0)) by lia. apply lookup_table_of; unfold TABLE_NUM in *; lia.
Qed.

Lemma table_of_snoc pages b :
  (length pages < Z.to_nat TABLE_NUM)%nat ->
  <[length pages := 4096 * b]> (table_of pages) = table_of (pages ++ [b]).
Proof.
  intros Hl. unfold table_of. rewrite map_app, length_app. simpl.
  destruct (Z.to_nat TABLE_NUM - length pages)%nat as [|k] eqn:E; [lia|]. simpl.
  replace (Z.to_nat TABLE_NUM - (length pages + 1))%nat with k by lia.
  rewrite <- app_assoc. simpl.
  set (f := fun x : Z => 4096 * x).
  replace (length pages) with (length (map f pages) + 0)%nat by (rewrite length_map; lia).
  by rewrite insert_app_r.
Qed.

Lemma length_table_of pages :
  (length pages <= Z.to_nat TABLE_NUM)%nat -> length (table_of pages) = Z.to_nat TABLE_NUM.
Proof. intros. unfold table_of. rewrite length_app, length_map, length_replicate. lia. Qed.

(** Appending the page [b] to the table of CPU [c]. *)
Definition add_page P (c b : Z) : Z -> list Z :=
  fun d => if decide (d = c) then P c ++ [b] else P d.

Lemma table_write_ok sbi P c b :
  tables_ok sbi P -> 0 <= c < cpus sbi -> (length (P c) < Z.to_nat TABLE_NUM)%nat ->
  0 < b < num_blocks sbi -> (forall d, 0 <= d < cpus sbi -> b ∉ P d) ->
  exists sbi', table_write sbi c (Z.of_nat (length (P c))) (4096 * b) = Some sbi' /\
    tables_ok sbi' (add_page P c b) /\ same_lists sbi sbi' /\ nvm sbi' = nvm sbi /\
    virt_addr sbi' = virt_addr sbi /\
    inode_page_mapping_table_locks sbi' = inode_page_mapping_table_locks sbi /\
    (inode_maps sbi' = inode_maps sbi /\ map_id sbi' = map_id sbi) /\
    range_nodes sbi' = range_nodes sbi.
Proof.
  intros Hok Hc Hl Hb Hnew. destruct (to_table _ _ Hok c Hc) as [E Hlen].
  unfold table_write, nova_get_inode_page_mapping_table.
  rewrite (proj2 (Z.ltb_lt c (cpus sbi))), (proj2 (Z.ltb_ge c 0)), E by lia. simpl.
  rewrite length_table_of by lia.
  rewrite (proj2 (Z.leb_le _ _)), (proj2 (Z.ltb_lt _ _)) by (unfold TABLE_NUM in *; lia). simpl.
  rewrite Nat2Z.id, table_of_snoc by done. eexists. split; [done|].
  split; [|split_and!; try done; by split].
  destruct (to_cpus _ _ Hok) as (Hcp & Ht & Hlk).
  split; simpl; [by rewrite length_insert| | | |apply Hok].
  - intros d Hd. unfold add_page. case_decide as Hdc.
    + subst d. rewrite list_lookup_insert_eq by lia. rewrite length_app. simpl.
      split; [done|]. lia.
    + rewrite list_lookup_insert_ne by lia. by apply (to_table _ _ Hok).
  - intros d x Hd. unfold add_page. case_decide.
    + intros [Hx|Hx]%elem_of_app; [by apply (to_pages _ _ Hok c)|].
      apply list_elem_of_singleton in Hx as ->. done.
    + by apply (to_pages _ _ Hok).
  - assert (forall d i x, 0 <= d < cpus sbi -> add_page P c b d !! i = Some x ->
      P d !! i = Some x \/ (d = c /\ i = length (P c) /\ x = b)) as Hcase.
    { intros d i x Hd. unfold add_page. case_decide as Hdc; [subst d|by left].
      intros [Hi|[Hge Hi]]%lookup_app_Some; [by left|right].
      apply list_lookup_singleton_Some in Hi as [Hz ->]. split_and!; [done|lia|done]. }
    intros d e i j x Hd He Hi Hj. apply Hcase in Hi, Hj; auto.
    destruct Hi as [Hi|(Hi1 & Hi2 & Hi3)], Hj as [Hj|(Hj1 & Hj2 & Hj3)];
      [| | |split; congruence].
    + by apply (to_distinct _ _ Hok d e i j x).
    + destruct (Hnew d Hd). rewrite <- Hj3. by eapply list_elem_of_lookup_2.
    + destruct (Hnew e He). rewrite <- Hi3. by eapply list_elem_of_lookup_2.
Qed.

(** A change of the memory outside block 0 keeps the tables. *)
Lemma tables_ok_frame sbi sbi' P :
  tables_ok sbi P -> mapped sbi -> same_geometry sbi sbi' ->
  (forall a, a < block_addr sbi 1 -> nvm sbi' a = nvm sbi a) -> 0 < num_blocks sbi ->
  tables_ok sbi' P.
Proof.
  intros [T1 T2 T3 T4 T5] [Hv Hm] [Ev Ec En _ _ [Et El] _ _ _] Hmem Hnb.
  split; rewrite ?Ec, ?Et, ?El, ?En; auto.
  unfold table_pi in *. rewrite Ev. rewrite <- T5. unfold Pi.i_blk_type. apply load_ext.
  intros a Ha. apply Hmem. unfold block_addr, nova_get_basic_inode, NOVA_SB_SIZE, NOVA_INODETABLE_INO,
    NOVA_ROOT_INO, NOVA_INODE_SIZE in *.
  rewrite u64_small in Ha by lia. simpl in Ha. lia.
Qed.
End tables.

(** ** Adding pages *)

(** The pages of CPU [c]'s table grew by [new], which were free before and are
    zeroed now; no other memory, table or lock changed. *)
Record grown (sbi : nova_sb_info) (F : Z -> Prop) (P : Z -> list Z) (c : Z) (new : list Z)
    (sbi' : nova_sb_info) (F' : Z -> Prop) (P' : Z -> list Z) : Prop := {
  gr_virt : virt_addr sbi' = virt_addr sbi;
  gr_cpus : cpus sbi' = cpus sbi;
  gr_blocks : num_blocks sbi' = num_blocks sbi;
  gr_maps : inode_maps sbi' = inode_maps sbi /\ map_id sbi' = map_id sbi;
  gr_locks : inode_page_mapping_table_locks sbi' = inode_page_mapping_table_locks sbi;
  gr_nodes : nodes_frame sbi sbi';
  gr_pages d : P' d = if decide (d = c) then P c ++ new else P d;
  gr_free b : F' b <-> F b /\ b ∉ new;
  gr_new b : b ∈ new -> F b;
  gr_zero a b : b ∈ new -> block_addr sbi b <= a < block_addr sbi (b + 1) -> nvm sbi' a = 0;
  gr_same a : (forall b, b ∈ new -> ~ block_addr sbi b <= a < block_addr sbi (b + 1)) ->
    nvm sbi' a = nvm sbi a;
}.

Lemma grown_refl sbi F P c : grown sbi F P c [] sbi F P.
Proof.
  split; auto with nova; try set_solver.
  intros d. case_decide; subst; by rewrite ?app_nil_r.
Qed.

Lemma grown_trans sbi1 F1 P1 c new1 sbi2 F2 P2 new2 sbi3 F3 P3 :
  grown sbi1 F1 P1 c new1 sbi2 F2 P2 -> grown sbi2 F2 P2 c new2 sbi3 F3 P3 ->
  grown sbi1 F1 P1 c (new1 ++ new2) sbi3 F3 P3.
Proof.
  intros [V1 C1 B1 [M1 I1] L1 N1 Pg1 Fr1 Nw1 Z1 S1] [V2 C2 B2 [M2 I2] L2 N2 Pg2 Fr2 Nw2 Z2 S2].
  unfold block_addr in *. rewrite V1 in Z2, S2.
  split; try congruence; eauto with nova.
  - split; congruence.
  - intros d. rewrite Pg2. case_decide; rewrite Pg1; [rewrite decide_True by done; by rewrite app_assoc|].
    by rewrite decide_False.
  - intros b. rewrite Fr2, Fr1. set_solver.
  - intros b [Hb|Hb]%elem_of_app; [auto|]. apply Nw2, Fr1 in Hb as [? _]. done.
  - intros a b [Hb|Hb]%elem_of_app Ha; [|by apply (Z2 a b)].
    rewrite S2; [by apply (Z1 a b)|]. intros b' Hb' Ha'.
    assert (b = b') as -> by (unfold block_addr in Ha; lia).
    apply Nw2, Fr1 in Hb' as [_ Hn]. done.
  - intros a Ha. rewrite S2, S1; [done| |]; intros b Hb; apply Ha; set_solver.
Qed.

Section extend.
Context `{RbTree} {L : LogBlocks} (smp : Z).
Implicit Types (sbi : nova_sb_info) (F : Z -> Prop) (P : Z -> list Z).

(** The tables and the free blocks, with no page in both. *)
Record table_inv sbi F P : Prop := {
  ti_free : lb_free sbi F;
  ti_tables : tables_ok sbi P;
  ti_mapped : mapped sbi;
  ti_apart c b : 0 <= c < cpus sbi -> b ∈ P c -> ~ F b;
  ti_smp : 0 <= smp < cpus sbi;
}.

(** One page is allocated and entered behind the last one. *)
Lemma add_page_ok sbi F P c old :
  table_inv sbi F P -> 0 <= c < cpus sbi -> (length (P c) < Z.to_nat TABLE_NUM)%nat ->
  exists ret nr sbi1, nova_new_log_blocks sbi smp (table_pi sbi) old 1 1 = Some (ret, nr, sbi1) /\
    ((ret = 1 /\ exists sbi2,
        table_write sbi1 c (Z.of_nat (length (P c))) (nova_get_block_off nr) = Some sbi2 /\
        table_inv sbi2 (fun b => F b /\ b <> nr) (add_page P c nr) /\
        grown sbi F P c [nr] sbi2 (fun b => F b /\ b <> nr) (add_page P c nr)) \/
     (ret = - ENOSPC /\ table_inv sbi1 F P /\ grown sbi F P c [] sbi1 F P)).
Proof.
  intros [Hf Ht Hm Hap Hs] Hc Hl.
  destruct (lb_new sbi F smp (table_pi sbi) old Hf Hm Hs (to_type _ _ Ht))
    as (ret & nr & sbi1 & E & Hg & Hn & Hout).
  pose proof (lb_size sbi F Hf) as Hsz.
  pose proof Hg as [Ev Ec En _ Em [Et El] Emi _ _].
  assert (0 < num_blocks sbi) as Hnb.
  { destruct (to_table _ _ Ht c Hc) as [_ Hlen]. destruct (P c) as [|b0 l] eqn:EP; [simpl in *; lia|].
    destruct (to_pages _ _ Ht c b0 Hc); [rewrite EP; set_solver|lia]. }
  assert (mapped sbi1) as Hm1 by (destruct Hm; split; rewrite ?Ev, ?En; auto).
  exists ret, nr, sbi1. split; [done|].
  destruct Hout as [(-> & HF & Hf1 & Hz & Hsame)|(-> & -> & Hf1 & Hmem)]; [left|right]; (split; [done|]).
  - pose proof (lb_bounds sbi F nr Hf HF) as Hnr.
    assert (tables_ok sbi1 P) as Ht1.
    { eapply tables_ok_frame; eauto. intros a Ha. apply Hsame. unfold block_addr in *. lia. }
    rewrite nova_get_block_off_alt by lia.
    destruct (table_write_ok sbi1 P c nr) as (sbi2 & E2 & Ht2 & Hsl & Em2 & Ev2 & El2 & [Eim Emi2] & Ern);
      rewrite ?Ec, ?En; auto.
    { intros d Hd Hin. by apply (Hap d nr Hd Hin). }
    exists sbi2. split; [done|]. pose proof (sl_cpus _ _ Hsl) as Ec2. pose proof (sl_blocks _ _ Hsl) as En2.
    assert (forall n, block_node sbi2 n <-> block_node sbi1 n) as Hbn.
    { intros n. unfold block_node, valid_cpu. rewrite Ec2. by setoid_rewrite (same_lists_get _ _ _ Hsl). }
    split.
    + split; auto.
      * by eapply lb_local.
      * destruct Hm1. split; rewrite ?Ev2, ?En2; auto.
      * intros d b Hd. rewrite Ec2, Ec in Hd. unfold add_page. case_decide; [subst d|].
        -- intros [Hb|Hb]%elem_of_app [Hb1 Hb2]; [by apply (Hap c b)|].
           by apply list_elem_of_singleton in Hb.
        -- intros Hb [Hb1 _]. by apply (Hap d b).
      * by rewrite Ec2, Ec.
    + split; try congruence; auto; [split; congruence| | | | |].
      * intros n r Hr Hb. destruct (Hn n r Hr Hb) as [Hr1 Hb1]. rewrite Ern, Hbn. auto.
      * intros b. rewrite list_elem_of_singleton. done.
      * intros b ->%list_elem_of_singleton. done.
      * intros a b ->%list_elem_of_singleton Ha. rewrite Em2. by apply Hz.
      * intros a Ha. rewrite Em2. apply Hsame, Ha. set_solver.
  - split.
    + split; auto; rewrite ?Ec; auto. eapply tables_ok_frame; eauto. intros a _. by rewrite Hmem.
    + split; auto; try set_solver.
      * intros d. case_decide; subst; by rewrite ?app_nil_r.
      * intros a Ha. by rewrite Hmem.
Qed.
(** Pages that are there already: nothing changes. *)
Lemma extend_table_present n : forall i sbi P c pi extendable old,
  tables_ok sbi P -> 0 <= c < cpus sbi -> 0 <= i -> i + Z.of_nat n < Z.of_nat (length (P c)) ->
  extend_table smp n i sbi c pi extendable old = Some (0, sbi).
Proof.
  induction n as [|n IH]; intros i sbi P c pi extendable old Ht Hc Hi Hn; simpl; [done|].
  destruct (to_table _ _ Ht c Hc) as [_ Hlen]. unfold TABLE_NUM in Hlen.
  rewrite (table_read_ok sbi P) by (auto; unfold TABLE_NUM; lia). simpl.
  destruct (lookup_lt_is_Some_2 (P c) (Z.to_nat (i + 1))) as [b Hb]; [lia|]. rewrite Hb.
  pose proof (to_pages _ _ Ht c b Hc (list_elem_of_lookup_2 _ _ _ Hb)).
  rewrite (proj2 (Z.eqb_neq (4096 * b) 0)) by lia. apply (IH _ _ P); auto; lia.
Qed.

(** A missing page, when the table must not grow. *)
Lemma extend_table_missing n : forall i sbi P c pi old,
  tables_ok sbi P -> 0 <= c < cpus sbi -> 0 <= i < Z.of_nat (length (P c)) ->
  Z.of_nat (length (P c)) <= i + Z.of_nat n < TABLE_NUM ->
  extend_table smp n i sbi c pi 0 old = Some (- EINVAL, sbi).
Proof.
  induction n as [|n IH]; intros i sbi P c pi old Ht Hc Hi Hn; simpl; [lia|].
  rewrite (table_read_ok sbi P) by (auto; unfold TABLE_NUM in *; lia). simpl.
  destruct (decide (i + 1 = Z.of_nat (length (P c)))) as [He|Hne].
  - by rewrite (lookup_ge_None_2 (P c)) by lia.
  - destruct (lookup_lt_is_Some_2 (P c) (Z.to_nat (i + 1))) as [b Hb]; [lia|]. rewrite Hb.
    pose proof (to_pages _ _ Ht c b Hc (list_elem_of_lookup_2 _ _ _ Hb)).
    rewrite (proj2 (Z.eqb_neq (4096 * b) 0)) by lia. apply (IH _ _ P); auto; lia.
Qed.

(** The table grows to the page asked for, or as far as there are free blocks. *)
Lemma extend_table_spec n : forall i sbi F P c extendable old,
  table_inv sbi F P -> 0 <= c < cpus sbi -> extendable <> 0 ->
  0 <= i < Z.of_nat (length (P c)) -> i + Z.of_nat n < TABLE_NUM ->
  exists ret sbi' F' P' new,
    extend_table smp n i sbi c (table_pi sbi) extendable old = Some (ret, sbi') /\
    table_inv sbi' F' P' /\ grown sbi F P c new sbi' F' P' /\
    ((ret = 0 /\ i + Z.of_nat n < Z.of_nat (length (P' c))) \/ ret = - ENOSPC).
Proof.
  induction n as [|n IH]; intros i sbi F P c extendable old Hinv Hc He Hi Hn; simpl.
  - exists 0, sbi, F, P, []. split_and!; auto using grown_refl. left. lia.
  - pose proof Hinv as [_ Ht _ _ _]. destruct (to_table _ _ Ht c Hc) as [_ Hlen].
    rewrite (table_read_ok sbi P) by (auto; unfold TABLE_NUM in *; lia). simpl.
    destruct (decide (i + 1 = Z.of_nat (length (P c)))) as [Hnew|Hne].
    + rewrite (lookup_ge_None_2 (P c)) by lia. simpl.
      rewrite (proj2 (Z.eqb_neq extendable 0)) by done.
      destruct (add_page_ok sbi F P c old Hinv Hc) as (ret & nr & sbi1 & E & Hout);
        [unfold TABLE_NUM in *; lia|]. rewrite E. simpl.
      destruct Hout as [(-> & sbi2 & Ew & Hinv2 & Hgr2)|(-> & Hinv1 & Hgr1)]; simpl.
      * rewrite Hnew, Ew. simpl.
        assert (table_pi sbi = table_pi sbi2) as -> by (unfold table_pi; by rewrite (gr_virt _ _ _ _ _ _ _ _ Hgr2)).
        assert (length (add_page P c nr c) = S (length (P c))) as El
          by (unfold add_page; rewrite decide_True, length_app by done; simpl; lia).
        destruct (IH (Z.of_nat (length (P c))) sbi2 _ _ c extendable nr Hinv2)
          as (ret & sbi3 & F3 & P3 & new & E3 & Hinv3 & Hgr3 & Hr); auto; try lia.
        { by rewrite (gr_cpus _ _ _ _ _ _ _ _ Hgr2). }
        exists ret, sbi3, F3, P3, ([nr] ++ new). split_and!; eauto using grown_trans.
        destruct Hr as [[-> Hr]| ->]; [left; split; [done|lia]|by right].
      * exists (- ENOSPC), sbi1, F, P, []. split_and!; auto.
    + destruct (lookup_lt_is_Some_2 (P c) (Z.to_nat (i + 1))) as [b Hb]; [lia|]. rewrite Hb.
      pose proof (to_pages _ _ Ht c b Hc (list_elem_of_lookup_2 _ _ _ Hb)).
      rewrite (proj2 (Z.eqb_neq (4096 * b) 0)) by lia.
      destruct (IH (i + 1) sbi F P c extendable old Hinv Hc He)
        as (ret & sbi3 & F3 & P3 & new & E3 & Hinv3 & Hgr3 & Hr); try lia.
      exists ret, sbi3, F3, P3, new. split_and!; auto.
      destruct Hr as [[-> Hr]| ->]; [left; split; [done|lia]|by right].
Qed.
End extend.

(** ** The address of an inode *)

Lemma locked_tables_ok sbi P l :
  tables_ok sbi P -> length l = length (inode_page_mapping_table_locks sbi) ->
  tables_ok (with_inode_page_mapping_table_locks l sbi) P.
Proof. intros [(? & ? & ?) ? ? ? ?] Hl. split; simpl; auto. split_and!; auto; lia. Qed.

Section address.
Context `{RbTree} {L : LogBlocks} (smp : Z).
Implicit Types (sbi : nova_sb_info) (F : Z -> Prop) (P : Z -> list Z).

Lemma mutex_lock_ok sbi P c :
  tables_ok sbi P -> unlocked sbi -> 0 <= c < cpus sbi ->
  mutex_lock sbi c = Some (with_inode_page_mapping_table_locks
    (<[Z.to_nat c := true]> (inode_page_mapping_table_locks sbi)) sbi).
Proof. intros Ht Hu Hc. unfold mutex_lock. by rewrite (Hu c Hc). Qed.

(** A held mutex: the thread that holds it never gets past the next lock. *)
Definition deadlocked (sbi : nova_sb_info) (c : Z) : Prop :=
  inode_page_mapping_table_locks sbi !! Z.to_nat c = Some true.

Lemma mutex_lock_held sbi c : deadlocked sbi c -> mutex_lock sbi c = None.
Proof. intros E. unfold mutex_lock. by rewrite E. Qed.

(** The decomposition of an inode number, at 32 inodes per page. *)
Lemma table_indices k :
  0 <= k < 16384 ->
  u32 (Z.shiftr k (u32 (12 - NOVA_INODE_BITS))) = k / 32 /\
  u32 (Z.land k (i32 (Z.shiftl 1 (u32 (12 - NOVA_INODE_BITS))) - 1)) = k mod 32.
Proof.
  intros Hk. change (u32 (12 - NOVA_INODE_BITS)) with 5. rewrite Z.shiftr_div_pow2 by lia.
  change (2 ^ 5) with 32. change (i32 (Z.shiftl 1 5) - 1) with (Z.ones 5).
  rewrite Z.land_ones by lia. change (2 ^ 5) with 32.
  pose proof (Z.mod_pos_bound k 32). assert (0 <= k / 32 <= k) by mlia. by wrap.
Qed.

Lemma slot_value sbi P c k b :
  tables_ok sbi P -> num_blocks sbi < 2147483648 -> 0 <= c < cpus sbi -> 0 <= k ->
  P c !! Z.to_nat (k / 32) = Some b ->
  u64 (4096 * b + k mod 32 * NOVA_INODE_SIZE) = 4096 * b + k mod 32 * NOVA_INODE_SIZE.
Proof.
  intros Ht Hn Hc Hk Hb. pose proof (to_pages _ _ Ht c b Hc (list_elem_of_lookup_2 _ _ _ Hb)).
  pose proof (Z.mod_pos_bound k 32). unfold NOVA_INODE_SIZE. by wrap.
Qed.

(** The part of [nova_get_inode_address] up to the loop. *)
Lemma get_inode_address_start sbi P ino pi_addr extendable old :
  tables_ok sbi P -> unlocked sbi -> 0 <= ino -> ino / cpus sbi < 16384 ->
  let c := ino mod cpus sbi in
  let k := ino / cpus sbi in
  let sbi1 := with_inode_page_mapping_table_locks
                (<[Z.to_nat c := true]> (inode_page_mapping_table_locks sbi)) sbi in
  nova_get_inode_address smp sbi ino pi_addr extendable old =
    (res ← extend_table smp (Z.to_nat (k / 32)) 0 sbi1 c (table_pi sbi) extendable old;
     let '(ret, sbi) := (res : Z * nova_sb_info) in
     if negb (ret =? 0) then Some (ret, pi_addr, sbi)
     else
       curr ← table_read sbi c (k / 32);
       Some (0, u64 (curr + k mod 32 * NOVA_INODE_SIZE), mutex_unlock sbi c)).
Proof.
  intros Ht Hu Hi Hk c k sbi1. destruct (to_cpus _ _ Ht) as (Hcp & Hlt & Hll).
  assert (0 <= c < cpus sbi) as Hc by (apply Z.mod_pos_bound; lia).
  assert (0 <= k) by (apply Z.div_pos; lia).
  unfold nova_get_inode_address.
  change (nova_get_inode_by_ino (virt_addr sbi) NOVA_INODETABLE_INO) with (Some (table_pi sbi)). simpl.
  rewrite (to_type _ _ Ht). simpl. rewrite (proj2 (Z.eqb_neq (cpus sbi) 0)) by lia.
  fold c k. rewrite (mutex_lock_ok sbi P c Ht Hu Hc). simpl. fold sbi1.
  destruct (table_indices k) as [-> ->]; [fold k in Hk; lia|].
  assert (tables_ok sbi1 P) as Ht1 by (apply locked_tables_ok; [done|by rewrite length_insert]).
  rewrite (table_read_ok sbi1 P) by (auto; unfold TABLE_NUM; lia). simpl.
  destruct (to_table _ _ Ht c Hc) as [_ Hlen].
  destruct (lookup_lt_is_Some_2 (P c) (Z.to_nat 0)) as [b Hb]; [lia|]. rewrite Hb.
  pose proof (to_pages _ _ Ht c b Hc (list_elem_of_lookup_2 _ _ _ Hb)).
  by rewrite (proj2 (Z.eqb_neq (4096 * b) 0)) by lia.
Qed.

Lemma unlock_relock sbi c :
  0 <= c < cpus sbi -> unlocked sbi ->
  <[Z.to_nat c := false]> (<[Z.to_nat c := true]> (inode_page_mapping_table_locks sbi)) =
  inode_page_mapping_table_locks sbi.
Proof. intros Hc Hu. rewrite list_insert_insert_eq. apply list_insert_id. by apply Hu. Qed.

(** An inode whose page is there: its slot is returned and nothing changes. *)
Lemma get_inode_address_present sbi P ino pi_addr extendable old a :
  tables_ok sbi P -> unlocked sbi -> num_blocks sbi < 2147483648 -> 0 <= ino ->
  inode_slot (cpus sbi) P ino = Some a ->
  nova_get_inode_address smp sbi ino pi_addr extendable old = Some (0, a, sbi).
Proof.
  intros Ht Hu Hn Hi Ha. destruct (to_cpus _ _ Ht) as (Hcp & Hlt & Hll).
  assert (0 <= ino mod cpus sbi < cpus sbi) as Hc by (apply Z.mod_pos_bound; lia).
  assert (0 <= ino / cpus sbi) as Hk by (apply Z.div_pos; lia).
  unfold inode_slot in Ha.
  destruct (P (ino mod cpus sbi) !! Z.to_nat (ino / cpus sbi / 32)) as [b|] eqn:Eb; [|done].
  simpl in Ha. injection Ha as <-.
  destruct (to_table _ _ Ht _ Hc) as [_ Hlen]. unfold TABLE_NUM in Hlen.
  pose proof (lookup_lt_Some _ _ _ Eb) as Hlt'.
  assert (0 <= ino / cpus sbi / 32) by (apply Z.div_pos; lia).
  rewrite (get_inode_address_start sbi P) by (auto; mlia).
  set (sbi1 := with_inode_page_mapping_table_locks _ sbi).
  assert (tables_ok sbi1 P) as Ht1 by (apply locked_tables_ok; [done|by rewrite length_insert]).
  rewrite (extend_table_present smp _ _ _ P) by (auto; lia). simpl.
  rewrite (table_read_ok sbi1 P) by (auto; unfold TABLE_NUM; lia). simpl. rewrite Eb. simpl.
  rewrite (slot_value sbi P (ino mod cpus sbi)) by done.
  unfold mutex_unlock. simpl. rewrite (unlock_relock sbi) by done. by destruct sbi.
Qed.

(** A slot is not the null pointer. *)
Lemma inode_at_slot sbi P ino a :
  tables_ok sbi P -> 0 <= ino -> inode_slot (cpus sbi) P ino = Some a ->
  inode_at sbi a = Some (inr (nova_get_block (virt_addr sbi) a), sbi).
Proof.
  intros Ht Hi Ha. destruct (to_cpus _ _ Ht) as (Hcp & _).
  assert (0 <= ino mod cpus sbi < cpus sbi) as Hc by (apply Z.mod_pos_bound; lia).
  unfold inode_slot in Ha. destruct (P (ino mod cpus sbi) !! Z.to_nat (ino / cpus sbi / 32)) as [b|] eqn:Eb; [|done].
  simpl in Ha. injection Ha as <-. pose proof (to_pages _ _ Ht _ b Hc (list_elem_of_lookup_2 _ _ _ Eb)).
  pose proof (Z.mod_pos_bound (ino / cpus sbi) 32 ltac:(lia)). unfold inode_at, NOVA_INODE_SIZE.
  by rewrite (proj2 (Z.eqb_neq _ 0)) by lia.
Qed.

(** The inode of a number that is not reserved. *)
Lemma get_inode_present sbi P ino si_addr a :
  tables_ok sbi P -> unlocked sbi -> num_blocks sbi < 2147483648 -> NOVA_NORMAL_INODE_START <= ino ->
  inode_slot (cpus sbi) P ino = Some a ->
  nova_get_inode smp sbi ino si_addr = Some (inr (nova_get_block (virt_addr sbi) a), sbi).
Proof.
  unfold NOVA_NORMAL_INODE_START. intros Ht Hu Hn Hi Ha. unfold nova_get_inode.
  rewrite (get_inode_address_present sbi P ino 0 0 0 a) by (auto; lia). cbn [mbind option_bind negb Z.eqb].
  rewrite (proj2 (Z.ltb_ge _ _)) by done. apply (inode_at_slot sbi P ino); auto; lia.
Qed.

(** A page that is missing: -EINVAL, with the mutex left held. *)
Lemma get_inode_address_missing sbi P ino pi_addr old :
  tables_ok sbi P -> unlocked sbi -> 0 <= ino -> ino / cpus sbi < 16384 ->
  inode_slot (cpus sbi) P ino = None ->
  exists sbi', nova_get_inode_address smp sbi ino pi_addr 0 old = Some (- EINVAL, pi_addr, sbi') /\
    deadlocked sbi' (ino mod cpus sbi) /\ cpus sbi' = cpus sbi.
Proof.
  intros Ht Hu Hi Hk Ha. destruct (to_cpus _ _ Ht) as (Hcp & Hlt & Hll).
  assert (0 <= ino mod cpus sbi < cpus sbi) as Hc by (apply Z.mod_pos_bound; lia).
  assert (0 <= ino / cpus sbi) as Hk0 by (apply Z.div_pos; lia).
  unfold inode_slot in Ha.
  destruct (P (ino mod cpus sbi) !! Z.to_nat (ino / cpus sbi / 32)) as [b|] eqn:Eb; [done|].
  apply lookup_ge_None_1 in Eb. destruct (to_table _ _ Ht _ Hc) as [_ Hlen].
  assert (0 <= ino / cpus sbi / 32 < 512) by mlia.
  rewrite (get_inode_address_start sbi P) by auto.
  set (sbi1 := with_inode_page_mapping_table_locks _ sbi).
  assert (tables_ok sbi1 P) as Ht1 by (apply locked_tables_ok; [done|by rewrite length_insert]).
  rewrite (extend_table_missing smp _ _ _ P) by (auto; unfold TABLE_NUM in *; lia). simpl.
  eexists. split; [done|]. split; [|done]. unfold deadlocked. simpl. apply list_lookup_insert_eq. lia.
Qed.

Lemma get_inode_address_deadlock sbi x pi_addr extendable old :
  deadlocked sbi (x mod cpus sbi) -> nova_get_inode_address smp sbi x pi_addr extendable old = None.
Proof.
  intros Hd. unfold nova_get_inode_address. destruct (nova_get_inode_by_ino _ _); [|done]. simpl.
  destruct (blk_type_to_shift _); [|done]. simpl. case_cmp; [done|].
  by rewrite (mutex_lock_held _ _ Hd).
Qed.
Definition with_lock sbi (c : Z) (held : bool) : nova_sb_info :=
  with_inode_page_mapping_table_locks
    (<[Z.to_nat c := held]> (inode_page_mapping_table_locks sbi)) sbi.

Lemma table_inv_lock sbi F P c held : table_inv smp sbi F P -> table_inv smp (with_lock sbi c held) F P.
Proof.
  intros [Hf Ht Hm Ha Hs]. split; auto.
  - eapply lb_local; [exact Hf|]. by split.
  - apply locked_tables_ok; [done|by rewrite length_insert].
Qed.

(** The table grows as far as the inode number needs. *)
Lemma get_inode_address_extend sbi F P ino pi_addr extendable old :
  let c := ino mod cpus sbi in
  table_inv smp sbi F P -> unlocked sbi -> 0 <= ino -> ino / cpus sbi < 16384 -> extendable <> 0 ->
  exists ret a sbi' F' P' new,
    nova_get_inode_address smp sbi ino pi_addr extendable old = Some (ret, a, sbi') /\
    table_inv smp sbi' F' P' /\
    ((ret = 0 /\ inode_slot (cpus sbi) P' ino = Some a /\ unlocked sbi' /\
      grown sbi F P c new sbi' F' P') \/
     (ret = - ENOSPC /\ a = pi_addr /\ deadlocked sbi' c /\
      grown (with_lock sbi c true) F P c new sbi' F' P')).
Proof.
  intros c Hinv Hu Hi Hk He. pose proof Hinv as [Hf Ht Hm Hap Hs].
  destruct (to_cpus _ _ Ht) as (Hcp & Hlt & Hll).
  assert (0 <= c < cpus sbi) as Hc by (apply Z.mod_pos_bound; lia).
  assert (0 <= ino / cpus sbi) as Hk0 by (apply Z.div_pos; lia).
  assert (0 <= ino / cpus sbi / 32 < 512) as Hk32 by mlia.
  rewrite (get_inode_address_start sbi P) by auto. fold c. fold (with_lock sbi c true).
  destruct (to_table _ _ Ht c Hc) as [_ Hlen].
  destruct (extend_table_spec smp (Z.to_nat (ino / cpus sbi / 32)) 0 (with_lock sbi c true) F P c
              extendable old)
    as (ret & sbi2 & F2 & P2 & new & E & Hinv2 & Hgr & Hout); auto using table_inv_lock;
    try (unfold TABLE_NUM; lia).
  change (table_pi (with_lock sbi c true)) with (table_pi sbi) in E. rewrite E. simpl.
  pose proof (gr_cpus _ _ _ _ _ _ _ _ Hgr) as Ec. simpl in Ec.
  pose proof (gr_locks _ _ _ _ _ _ _ _ Hgr) as El. simpl in El.
  destruct Hout as [[-> Hlen2]| ->]; simpl.
  - pose proof Hinv2 as [Hf2 Ht2 _ _ _].
    rewrite (table_read_ok sbi2 P2) by (auto; unfold TABLE_NUM; lia). simpl.
    destruct (lookup_lt_is_Some_2 (P2 c) (Z.to_nat (ino / cpus sbi / 32))) as [b Hb]; [lia|].
    pose proof (lb_size _ _ Hf2). rewrite Hb, (slot_value sbi2 P2 c) by (auto; lia).
    eexists 0, _, _, F2, P2, new. split; [done|].
    split; [apply (table_inv_lock sbi2 F2 P2 c false Hinv2)|]. left. split; [done|].
    split; [unfold inode_slot; fold c; by rewrite Hb|].
    assert (inode_page_mapping_table_locks (mutex_unlock sbi2 c) = inode_page_mapping_table_locks sbi) as Eq
      by (simpl; rewrite El; by apply unlock_relock).
    split; [intros d Hd; rewrite Eq; apply Hu; simpl in Hd; lia|].
    destruct Hgr. split; auto.
  - eexists (- ENOSPC), _, _, F2, P2, new. split; [done|]. split; [done|]. right.
    split_and!; auto. unfold deadlocked. rewrite El. apply list_lookup_insert_eq. lia.
Qed.
End address.

(** ** Creating inodes *)

Section create.
Context `{RbTreeLaws} {L : LogBlocks} (smp : Z).
Implicit Types (sbi : nova_sb_info) (F : Z -> Prop) (P : Z -> list Z) (R : Z -> list nova_range_node).

(** The block allocator, the tables and the inode numbers together. *)
Record create_inv sbi F P R : Prop := {
  ci_table : table_inv smp sbi F P;
  ci_inodes : inodes_ok sbi R;
  ci_nodes n : inode_node sbi n -> ~ block_node sbi n;
  ci_map_id : 0 <= map_id sbi < cpus sbi;
}.

(** Allocating a block does not disturb the inode maps. *)
Lemma inodes_ok_frame sbi sbi' R :
  inodes_ok sbi R -> (forall n, inode_node sbi n -> ~ block_node sbi n) ->
  inode_maps sbi' = inode_maps sbi -> cpus sbi' = cpus sbi -> nodes_frame sbi sbi' ->
  inodes_ok sbi' R /\ (forall n, inode_node sbi' n -> ~ block_node sbi' n).
Proof.
  intros [Hl Hm Ha] Hap Em Ec Hf.
  assert (forall c, nova_get_inode_map sbi' c = nova_get_inode_map sbi c) as Hg
    by (intros c; unfold nova_get_inode_map; by rewrite Em).
  assert (forall c im n, 0 <= c < cpus sbi -> nova_get_inode_map sbi c = Some im ->
    n ∈ inorder (inode_inuse_tree im) ->
    exists r, range_nodes sbi !! n = Some r /\ range_nodes sbi' !! n = Some r /\ ~ block_node sbi' n)
    as Hn.
  { intros c im n Hc Hgc Hin. destruct (Hm c im Hc Hgc) as [[Hh _ _] _ _ _ _].
    destruct (holds_in _ _ _ _ Hh Hin) as (r & Hr & _). exists r. split; [done|].
    apply Hf; [done|]. apply Hap. by exists c, im. }
  split; [split|].
  - by rewrite Ec, Em.
  - intros c im. rewrite Ec, Hg. intros Hc Hgc. destruct (Hm c im Hc Hgc) as [[Hh ? ?] ? ? ? ?].
    split; auto. split; auto. eapply holds_frame; [exact Hh|]. intros n Hin.
    destruct (Hn c im n Hc Hgc Hin) as (r & -> & -> & _). done.
  - intros c d im im' n. rewrite Ec, !Hg. by apply Ha.
  - intros n (c & im & Hc & Hgc & Hin). rewrite Ec in Hc. rewrite Hg in Hgc.
    by destruct (Hn c im n Hc Hgc Hin) as (r & _ & _ & ?).
Qed.

(** Allocating an inode number does not disturb the blocks and the tables. *)
Lemma ino_added_table sbi F P R c ino sbi' R' :
  table_inv smp sbi F P -> (forall n, inode_node sbi n -> ~ block_node sbi n) ->
  ino_added sbi R c ino sbi' R' ->
  table_inv smp sbi' F P /\ (forall n, inode_node sbi' n -> ~ block_node sbi' n).
Proof.
  intros [Hf Ht Hm Ha Hs] Hap [_ [Ev Ec En Ep El Es [Et Etl] Em Hn] _ Hnd _ _ _ _].
  assert (same_lists sbi sbi') as Hsl.
  { split; auto. intros n Hb. pose proof (lb_live sbi F n Hf Hb).
    destruct (range_nodes sbi !! n) as [r|] eqn:Er; [|done]. apply Hn; [done|]. intros Hi. by apply (Hap n). }
  assert (forall n, block_node sbi' n <-> block_node sbi n) as Hbn.
  { intros n. unfold block_node, valid_cpu. rewrite Ec. by setoid_rewrite (same_lists_get _ _ _ Hsl). }
  split; [split|].
  - by eapply lb_local.
  - destruct Ht as [T1 T2 T3 T4 T5]. split; unfold table_pi; rewrite ?Ec, ?Et, ?Etl, ?En, ?Em, ?Ev; auto.
  - destruct Hm. split; rewrite ?Ev, ?En; auto.
  - intros d b. rewrite Ec. apply Ha.
  - by rewrite Ec.
  - intros n Hi. rewrite Hbn. apply Hnd in Hi as [Hi|Hi]; [auto|].
    intros Hb. by apply (lb_live sbi F n Hf Hb).
Qed.

(** Initialising the inode maps does not disturb the blocks. *)
Lemma maps_only_free sbi sbi' F :
  lb_free sbi F -> maps_only sbi sbi' -> (forall n, inode_node sbi' n -> range_nodes sbi !! n = None) ->
  lb_free sbi' F /\ (forall n, inode_node sbi' n -> ~ block_node sbi' n).
Proof.
  intros HF [_ Ec En Ep El Es _ _ Hnd] Hn.
  assert (same_lists sbi sbi') as Hsl.
  { split; auto. intros n Hb. pose proof (lb_live sbi F n HF Hb).
    destruct (range_nodes sbi !! n) eqn:Er; [|done]. by apply Hnd. }
  split; [by eapply lb_local|].
  intros n Hi (c & fl & Hc & Hg & Hin). apply Hn in Hi. rewrite (same_lists_get _ _ _ Hsl) in Hg.
  apply (lb_live sbi F n HF); [|done]. exists c, fl. unfold valid_cpu in *. rewrite Ec in Hc. auto.
Qed.

(** Growing the tables keeps the addresses there are. *)
Lemma grown_slots sbi F P c new sbi' F' P' cpus ino a :
  grown sbi F P c new sbi' F' P' -> inode_slot cpus P ino = Some a -> inode_slot cpus P' ino = Some a.
Proof.
  intros Hg. unfold inode_slot. rewrite (gr_pages _ _ _ _ _ _ _ _ Hg). case_decide as Hd; [|done].
  rewrite Hd. destruct (P c !! _) eqn:E; [|done]. by rewrite (lookup_app_l_Some _ _ _ _ E).
Qed.

(** What the creation of an inode amounts to. *)
Record inode_created sbi F P R (ino a : Z) sbi' F' P' R' (new : list Z) : Prop := {
  ic_inv : create_inv sbi' F' P' R';
  ic_unlocked : unlocked sbi';
  ic_cpus : cpus sbi' = cpus sbi /\ virt_addr sbi' = virt_addr sbi;
  ic_new : NOVA_NORMAL_INODE_START <= ino /\ ~ used_ino sbi R ino;
  ic_used x : used_ino sbi' R' x <-> used_ino sbi R x \/ x = ino;
  ic_slot : inode_slot (cpus sbi) P' ino = Some a;
  ic_stable x b : inode_slot (cpus sbi) P x = Some b -> inode_slot (cpus sbi) P' x = Some b;
  ic_fresh b : b ∈ new -> F b;
  ic_memory y : (forall b, b ∈ new -> ~ block_addr sbi b <= y < block_addr sbi (b + 1)) ->
    nvm sbi' y = nvm sbi y;
  ic_blocks : num_blocks sbi' = num_blocks sbi;
  ic_pages c b : b ∈ P' c -> b ∈ P c \/ b ∈ new;
  ic_free b : F' b <-> F b /\ b ∉ new;
}.

(** Numbers behind the reserved ones are normal inode numbers. *)
Lemma not_reserved_normal cpus ino :
  0 < cpus -> inuse_range_high cpus < ino / cpus -> NOVA_NORMAL_INODE_START <= ino.
Proof.
  intros Hc Hb. destruct (decide (ino < NOVA_NORMAL_INODE_START)) as [Hlt|]; [|lia].
  assert (ino / cpus <= (NOVA_NORMAL_INODE_START - 1) / cpus) by (apply Z.div_le_mono; lia).
  unfold inuse_range_high in Hb. revert Hb. case_cmp; lia.
Qed.

Lemma create_inv_map_id sbi F P R :
  create_inv sbi F P R ->
  create_inv (with_map_id (u64 (map_id sbi + 1) mod cpus sbi) sbi) F P R.
Proof.
  intros [[Hf [] [] Ha Hs] [Hl Hm Hap] Hn Hmi]. split; auto.
  - split; auto; [|by split|by split]. eapply lb_local; [exact Hf|]. by split.
  - by split.
  - simpl. apply Z.mod_pos_bound. lia.
Qed.

Lemma nova_new_nova_inode_spec sbi F P R pi_addr old :
  create_inv sbi F P R -> unlocked sbi ->
  (forall k c, 0 <= c < cpus sbi -> in_ranges k (R c) -> k < 16383) ->
  exists ino a sbi', nova_new_nova_inode smp sbi pi_addr old = Some (ino, a, sbi') /\
    ((exists F' P' R' new, inode_created sbi F P R ino a sbi' F' P' R' new) \/
     (ino = 0 /\ a = pi_addr /\ deadlocked sbi' (map_id sbi))).
Proof.
  intros Hinv Hu Hlim. pose proof Hinv as [Hti Hio Hnd Hmi].
  destruct (io_cpus _ _ Hio) as [_ Hcp].
  pose proof (create_inv_map_id _ _ _ _ Hinv) as [Hti1 Hio1 Hnd1 Hmi1].
  unfold nova_new_nova_inode. rewrite (proj2 (Z.eqb_neq (cpus sbi) 0)) by lia.
  rewrite (i32_small (map_id sbi)) by lia.
  set (sbi1 := with_map_id _ sbi) in *.
  destruct (nova_alloc_unused_inode_spec sbi1 R (map_id sbi) 0 Hio1 Hmi)
    as [(ino & sbi2 & R2 & E & Hadd)|[_ Hfull]].
  2: { specialize (Hfull 16383 ltac:(unfold MAX_INODE; lia)). apply Hlim in Hfull; [lia|done]. }
  rewrite E. simpl.
  destruct (ino_added_table sbi1 F P R _ ino sbi2 R2 Hti1 Hnd1 Hadd) as [Hti2 Hnd2].
  pose proof Hadd as [Hio2 [Ev Ec En _ _ _ [Et Etl] Em _] Emi _ [Hc Hb] Hpred Hnew Hset]. simpl in *.
  assert (unlocked sbi2) as Hu2 by (intros d Hd; rewrite Etl; apply Hu; lia).
  pose proof (not_reserved_normal (cpus sbi) ino ltac:(lia) (proj1 Hb)) as Hnorm.
  unfold NOVA_NORMAL_INODE_START in Hnorm.
  destruct (get_inode_address_extend smp sbi2 F P ino pi_addr 1 old Hti2 Hu2)
    as (ret & a & sbi3 & F3 & P3 & new & E3 & Hti3 & Hout); [lia| |done|].
  { rewrite Ec. apply Hlim in Hpred; [lia|done]. }
  rewrite E3. simpl. rewrite Ec, Hc in Hout.
  destruct Hout as [(-> & Hslot & Hu3 & Hgr)|(-> & -> & Hdl & _)]; simpl.
  - exists ino, a, sbi3. split; [done|]. left. exists F3, P3, R2, new.
    destruct (inodes_ok_frame sbi2 sbi3 R2 Hio2 Hnd2) as [Hio3 Hnd3]; try apply Hgr.
    pose proof Hgr as [Gv Gc Gb [Gm Gi] Gl Gn Gp Gf Gw Gz Gs].
    split; auto.
    + split; auto. rewrite Gc, Gi, Ec, Emi. done.
    + by rewrite Gc, Gv.
    + intros x. transitivity (used_ino sbi2 R2 x); [unfold used_ino; by rewrite Gc|apply Hset].
    + intros x b. by eapply grown_slots.
    + intros y Hy. rewrite Gs, Em; [done|]. intros b Hbn. unfold block_addr. rewrite Ev. by apply Hy.
    + by rewrite Gb.
    + intros c b. rewrite Gp. case_decide; subst; [rewrite elem_of_app; tauto|by left].
  - exists 0, pi_addr, sbi3. auto.
Qed.
End create.

(** ** Initialising the tables *)

Section init.
Context `{RbTree} {L : LogBlocks} (smp : Z).
Implicit Types (sbi : nova_sb_info) (F : Z -> Prop) (P : Z -> list Z).

(** The tables of the CPUs below [i] hold one page, the others none. *)
Record init_tables sbi (i : Z) F P : Prop := {
  it_cpus : 0 < cpus sbi <= 40 /\ length (inode_page_mapping_tables sbi) = Z.to_nat (cpus sbi) /\
    length (inode_page_mapping_table_locks sbi) = Z.to_nat (cpus sbi);
  it_table c : 0 <= c < cpus sbi ->
    inode_page_mapping_tables sbi !! Z.to_nat c = Some (table_of (P c));
  it_pages c : 0 <= c < cpus sbi ->
    (c < i -> exists b, P c = [b] /\ 0 < b < num_blocks sbi /\ ~ F b) /\ (i <= c -> P c = []);
  it_distinct c d b : 0 <= c < i -> 0 <= d < i -> P c = [b] -> P d = [b] -> c = d;
  it_type : Pi.i_blk_type (nvm sbi) (table_pi sbi) = NOVA_BLOCK_TYPE_4K;
  it_unlocked : unlocked sbi;
  it_free : lb_free sbi F;
  it_mapped : mapped sbi /\ 3 <= num_blocks sbi;
  it_smp : 0 <= smp < cpus sbi;
}.

(** The byte that holds the block type of the table's inode. *)
Lemma type_frame sbi (m m' : memory) :
  mapped sbi -> 3 <= num_blocks sbi -> (forall a, a < block_addr sbi 1 -> m' a = m a) ->
  Pi.i_blk_type m' (table_pi sbi) = Pi.i_blk_type m (table_pi sbi).
Proof.
  intros [Hv Hm] Hn Hsame. unfold Pi.i_blk_type, table_pi. apply load_ext. intros a Ha. apply Hsame.
  unfold block_addr, nova_get_basic_inode, NOVA_SB_SIZE, NOVA_INODETABLE_INO,
    NOVA_ROOT_INO, NOVA_INODE_SIZE in *.
  rewrite u64_small in Ha by lia. simpl in Ha. lia.
Qed.

(** The table of CPU [i] gets its first page [nr]. *)
Lemma init_tables_add sbi i F P nr sbi' :
  init_tables sbi i F P -> 0 <= i < cpus sbi -> F nr ->
  virt_addr sbi' = virt_addr sbi -> cpus sbi' = cpus sbi -> num_blocks sbi' = num_blocks sbi ->
  inode_page_mapping_tables sbi' =
    <[Z.to_nat i := table_of [nr]]> (inode_page_mapping_tables sbi) ->
  inode_page_mapping_table_locks sbi' =
    <[Z.to_nat i := false]> (inode_page_mapping_table_locks sbi) ->
  (forall a, a < block_addr sbi 1 -> nvm sbi' a = nvm sbi a) ->
  lb_free sbi' (fun b => F b /\ b <> nr) ->
  init_tables sbi' (i + 1) (fun b => F b /\ b <> nr) (fun c => if decide (c = i) then [nr] else P c).
Proof.
  intros [(Hcp & Hlt & Hll) Ht Hp Hd Hty Hu Hf [Hm Hn3] Hs] Hi HF Ev Ec En Et El Hsame Hf1.
  pose proof (lb_bounds sbi F nr Hf HF) as Hnr.
  assert (forall c, 0 <= c < cpus sbi -> P c <> [nr]) as Hnew.
  { intros c Hc E. destruct (Hp c Hc) as [H1 H2]. destruct (Z.lt_ge_cases c i) as [Hlt1|Hge].
    - destruct (H1 Hlt1) as (b & Eb & _ & Hnb). rewrite E in Eb. by simplify_eq.
    - by rewrite H2 in E. }
  split; rewrite ?Ec, ?En, ?Et, ?El, ?length_insert; auto.
  - intros c Hc. case_decide as Hci.
    + subst. apply list_lookup_insert_eq. lia.
    + rewrite list_lookup_insert_ne by lia. apply Ht. lia.
  - intros c Hc. case_decide as Hci.
    + split; [|lia]. intros _. exists nr. split_and!; auto; [lia|lia|]. by intros [_ ?].
    + destruct (Hp c Hc) as [H1 H2]. split; [|intros; apply H2; lia]. intros Hlt1.
      destruct (H1 ltac:(lia)) as (b & ? & ? & Hnb). exists b. split_and!; auto; try lia. by intros [? _].
  - intros c d b Hc Hdd. destruct (decide (c = i)), (decide (d = i)); subst; try done.
    + intros [= <-] Ed. by destruct (Hnew d ltac:(lia)).
    + intros Ed [= <-]. by destruct (Hnew c ltac:(lia)).
    + intros Ea Eb. apply (Hd c d b); auto; lia.
  - assert (table_pi sbi' = table_pi sbi) as -> by (unfold table_pi; by rewrite Ev).
    rewrite <- Hty. by apply type_frame.
  - intros c Hc. rewrite Ec in Hc. rewrite El. destruct (decide (c = i)) as [->|].
    + apply list_lookup_insert_eq. lia.
    + rewrite list_lookup_insert_ne by lia. apply Hu. lia.
  - destruct Hm. unfold mapped. by rewrite Ev, En.
Qed.

Lemma inode_table_addr sbi i :
  mapped sbi -> 3 <= num_blocks sbi -> 0 <= i < 64 ->
  block_addr sbi 2 <=
    u64 (nova_get_block (virt_addr sbi) (NOVA_DEF_BLOCK_SIZE_4K * 2) + i * CACHELINE_SIZE).
Proof.
  intros [Hv Hm] Hn Hi. unfold nova_get_block, block_addr, NOVA_DEF_BLOCK_SIZE_4K, CACHELINE_SIZE in *.
  change (4096 * 2 =? 0) with false. cbv iota.
  rewrite (u64_small (virt_addr sbi + 4096 * 2)) by lia. wrap. lia.
Qed.

(** Entering the first page of a table; the entry in block 2 is written too. *)
Lemma fill_table nr : first_page (4096 * nr) (table_of []) = table_of [nr].
Proof. reflexivity. Qed.

Lemma init_table_step sbi i F P old :
  init_tables sbi i F P -> 0 <= i < cpus sbi ->
  exists res, init_table_one smp sbi (table_pi sbi) i old = Some res /\
    ((exists sbi', res = inl (- ENOSPC, sbi')) \/
     (exists nr sbi', res = inr (nr, sbi') /\ F nr /\ table_pi sbi' = table_pi sbi /\
        blocks_only sbi sbi' /\
        init_tables sbi' (i + 1) (fun b => F b /\ b <> nr)
          (fun c => if decide (c = i) then [nr] else P c) /\
        (2 <= nr -> forall a, a < block_addr sbi 2 -> nvm sbi' a = nvm sbi a))).
Proof.
  intros Hit Hi. pose proof Hit as [(Hcp & Hlt & Hll) Ht Hp _ Hty Hu Hf [Hm Hn3] Hs].
  unfold init_table_one, nova_get_inode_table. rewrite (proj2 (Z.leb_gt _ _)) by lia.
  destruct (lb_new sbi F smp (table_pi sbi) old Hf Hm Hs Hty)
    as (ret & nr & sbi1 & E & [Ev Ec En _ Em [Et El] Emi _ _] & Hnf & Hout). rewrite E. simpl.
  destruct Hout as [(-> & HF & Hf1 & Hz & Hsame)|(-> & -> & _ & _)];
    [|eexists; split; [done|]; left; eauto].
  pose proof (lb_bounds sbi F nr Hf HF) as Hnr. pose proof (lb_size sbi F Hf) as Hsz.
  rewrite (proj2 (Z.eqb_neq nr 0)) by lia. simpl.
  assert (mutex_lock sbi1 i = Some (with_inode_page_mapping_table_locks
    (<[Z.to_nat i := true]> (inode_page_mapping_table_locks sbi1)) sbi1)) as ->.
  { unfold mutex_lock. by rewrite El, (Hu i Hi). }
  simpl. unfold nova_get_inode_page_mapping_table. simpl.
  rewrite Ec, Et, (proj2 (Z.ltb_lt i (cpus sbi))), (proj2 (Z.ltb_ge i 0)), (Ht i Hi) by lia. simpl.
  unfold nova_get_inode_page_lock. rewrite (proj2 (Z.ltb_lt i 40)) by lia. simpl.
  destruct (Hp i Hi) as [_ Hpi]. rewrite (Hpi ltac:(lia)).
  change (Z.of_nat (length (table_of [])) <? TABLE_NUM) with false. cbv iota.
  rewrite nova_get_block_off_alt, fill_table by lia.
  eexists. split; [done|]. right. eexists nr, _. split; [done|].
  split; [done|]. split; [unfold table_pi; simpl; by rewrite Ev|]. split; [by split|].
  pose proof (inode_table_addr sbi i Hm Hn3 ltac:(lia)) as Htab.
  split; [|intros H2 a Ha; simpl; rewrite store_disjoint by lia; apply Hsame; unfold block_addr in *; lia].
  apply (init_tables_add sbi); simpl; auto.
  - by rewrite El, list_insert_insert_eq.
  - intros a Ha. unfold block_addr in *. rewrite store_disjoint by lia. apply Hsame. lia.
  - eapply lb_local; [exact Hf1|]. by split.
Qed.

Lemma init_table_loop_spec n : forall i sbi F P old,
  init_tables sbi i F P -> 0 <= i -> i + Z.of_nat n = cpus sbi ->
  exists ret sbi', init_table_loop smp n i sbi (table_pi sbi) old = Some (ret, sbi') /\
    (ret = - ENOSPC \/
     (ret = 0 /\ blocks_only sbi sbi' /\
      exists F' P', init_tables sbi' (cpus sbi') F' P' /\ (forall b, F' b -> F b))).
Proof.
  induction n as [|n IH]; intros i sbi F P old Hinv Hi Hn; simpl.
  - exists 0, sbi. split; [done|]. right. split; [done|]. split; [done|].
    exists F, P. by replace (cpus sbi) with i by lia.
  - destruct (init_table_step sbi i F P old Hinv ltac:(lia)) as (res & -> & Hres). simpl.
    destruct Hres as [[sbi' ->]|(nr & sbi1 & -> & HF & Ep & Hbo & Hinv1 & _)]; [eauto 10|].
    pose proof (bl_cpus _ _ Hbo). rewrite <- Ep. destruct (IH (i + 1) sbi1 _ _ nr Hinv1) as (ret & sbi2 & E2 & Hout); [lia|lia|].
    exists ret, sbi2. split; [done|].
    destruct Hout as [?|(? & Hbo2 & F' & P' & ? & HF')]; [by left|right]. split; [done|].
    split; [by etransitivity|]. exists F', P'. split; [done|]. intros b Hb. by apply HF' in Hb as [? _].
Qed.

(** The blocks below the tables are left alone. *)
Lemma init_table_loop_frame n : forall i sbi F P old sbi',
  init_tables sbi i F P -> 0 <= i -> i + Z.of_nat n = cpus sbi -> (forall b, F b -> 2 <= b) ->
  init_table_loop smp n i sbi (table_pi sbi) old = Some (0, sbi') ->
  forall a, a < block_addr sbi 2 -> nvm sbi' a = nvm sbi a.
Proof.
  induction n as [|n IH]; intros i sbi F P old sbi' Hinv Hi Hn HF E a Ha; cbn [init_table_loop] in E; [by simplify_eq|].
  destruct (init_table_step sbi i F P old Hinv ltac:(lia)) as (res & Er & Hres). rewrite Er in E. simpl in E.
  destruct Hres as [[s ->]|(nr & sbi1 & -> & Hnr & Ep & Hbo & Hinv1 & Hfr)]; [simplify_eq|].
  pose proof (bl_cpus _ _ Hbo). rewrite <- Ep in E. rewrite <- Hfr by (auto; by apply HF).
  apply (IH _ _ _ _ _ _ Hinv1 ltac:(lia) ltac:(lia) ltac:(intros b [Hb _]; by apply HF) E). unfold block_addr in *. by rewrite (bl_virt _ _ Hbo).
Qed.

(** The finished tables. *)
Lemma init_tables_inv sbi F P :
  init_tables sbi (cpus sbi) F P -> table_inv smp sbi F P /\ unlocked sbi.
Proof.
  intros [(Hcp & Hlt & Hll) Ht Hp Hd Hty Hu Hf [Hm Hn3] Hs]. split; [|done].
  assert (forall c, 0 <= c < cpus sbi -> exists b, P c = [b] /\ 0 < b < num_blocks sbi /\ ~ F b) as Hpg.
  { intros c Hc. destruct (Hp c Hc) as [H1 _]. apply H1. lia. }
  split; auto; [split; auto|].
  - split_and!; auto; lia.
  - intros c Hc. split; [auto|]. destruct (Hpg c Hc) as (b & -> & _). unfold TABLE_NUM. simpl. lia.
  - intros c b Hc Hb. destruct (Hpg c Hc) as (b' & E & ? & _). rewrite E in Hb.
    by apply list_elem_of_singleton in Hb as ->.
  - intros c d i j b Hc Hdd Hi Hj. destruct (Hpg c Hc) as (b1 & E1 & _).
    destruct (Hpg d Hdd) as (b2 & E2 & _). rewrite E1 in Hi. rewrite E2 in Hj.
    apply list_lookup_singleton_Some in Hi as [Hi1 Hi2]. apply list_lookup_singleton_Some in Hj as [Hj1 Hj2].
    split; [|congruence]. apply (Hd c d b); congruence.
  - intros c b Hc Hb. destruct (Hpg c Hc) as (b' & E & _ & ?). rewrite E in Hb.
    by apply list_elem_of_singleton in Hb as ->.
Qed.

Lemma init_table_inode_type m pi : Pi.i_blk_type (init_table_inode m pi) pi = NOVA_BLOCK_TYPE_4K.
Proof. unfold Pi.i_blk_type, init_table_inode, Pi.set_i_blk_type. by rewrite load_store_eq. Qed.

(** The state in which the loop begins. *)
Definition tables_begin (sbi : nova_sb_info) : nova_sb_info :=
  with_inode_page_mapping_tables (map (fun _ => replicate (Z.to_nat TABLE_NUM) 0) (seqZ 0 (cpus sbi)))
    (with_nvm (init_table_inode (nvm sbi) (table_pi sbi))
       (with_inode_page_mapping_table_locks (replicate (Z.to_nat (cpus sbi)) false) sbi)).

Lemma tables_begin_ok sbi F :
  lb_free sbi F -> mapped sbi -> 3 <= num_blocks sbi -> 0 < cpus sbi <= 40 -> 0 <= smp < cpus sbi ->
  init_tables (tables_begin sbi) 0 F (fun _ => []).
Proof.
  intros Hf Hm Hn Hc Hs. split; simpl; auto; try lia.
  - rewrite length_map, length_seqZ, length_replicate. done.
  - intros c Hcc. rewrite list_lookup_fmap, lookup_seqZ_lt by lia. done.
  - intros c Hcc. split; [lia|done].
  - apply init_table_inode_type.
  - intros c Hcc. simpl. apply lookup_replicate_2. simpl in Hcc. lia.
  - eapply lb_local; [exact Hf|]. by split.
Qed.

Lemma nova_init_inode_table_spec sbi F old :
  lb_free sbi F -> mapped sbi -> 3 <= num_blocks sbi -> 0 < cpus sbi <= 40 -> 0 <= smp < cpus sbi ->
  exists ret sbi', nova_init_inode_table smp sbi (Some (fun _ => true)) old = Some (ret, sbi') /\
    (ret = - ENOSPC \/
     (ret = 0 /\ blocks_only sbi sbi' /\
      exists F' P', table_inv smp sbi' F' P' /\ unlocked sbi' /\ (forall b, F' b -> F b) /\
        (forall c, 0 <= c < cpus sbi' -> exists b, P' c = [b]))).
Proof.
  intros Hf Hm Hn Hc Hs. unfold nova_init_inode_table.
  change (nova_get_inode_by_ino (virt_addr sbi) NOVA_INODETABLE_INO) with (Some (table_pi sbi)). simpl.
  pose proof (tables_begin_ok sbi F Hf Hm Hn Hc Hs) as Hinv. change (table_pi sbi) with (table_pi (tables_begin sbi)).
  destruct (init_table_loop_spec (Z.to_nat (cpus sbi)) 0 (tables_begin sbi) F _ old Hinv)
    as (ret & sbi' & E & Hout); [lia|simpl; lia|].
  exists ret, sbi'. split; [exact E|]. destruct Hout as [?|(-> & Hbo & F' & P' & Hinv' & HF')]; [by left|right].
  destruct (init_tables_inv _ _ _ Hinv') as [? ?]. split; [done|].
  split; [by destruct Hbo; split|]. exists F', P'. split_and!; auto.
  intros c Hcc. destruct (it_pages _ _ _ _ Hinv' c Hcc) as [Hp1 _].
  destruct (Hp1 ltac:(lia)) as (b & ? & _). eauto.
Qed.

(** Below the block of the tables only the inode of the tables changes. *)
Lemma init_inode_table_frame sbi F old sbi' :
  lb_free sbi F -> mapped sbi -> 3 <= num_blocks sbi -> 0 < cpus sbi <= 40 -> 0 <= smp < cpus sbi -> (forall b, F b -> 2 <= b) ->
  nova_init_inode_table smp sbi (Some (fun _ => true)) old = Some (0, sbi') ->
  forall a, a < block_addr sbi 2 -> ~ table_pi sbi <= a < table_pi sbi + 128 -> nvm sbi' a = nvm sbi a.
Proof.
  intros Hf Hm Hn Hc Hs H2 E a Ha Hp. unfold nova_init_inode_table in E.
  change (nova_get_inode_by_ino (virt_addr sbi) NOVA_INODETABLE_INO) with (Some (table_pi sbi)) in E. simpl in E.
  rewrite (init_table_loop_frame (Z.to_nat (cpus sbi)) 0 (tables_begin sbi) F _ old sbi' (tables_begin_ok sbi F Hf Hm Hn Hc Hs)
    ltac:(lia) ltac:(simpl; lia) H2 E a Ha).
  simpl. unfold init_table_inode, Pi.set_i_mode, Pi.set_i_uid, Pi.set_i_gid, Pi.set_i_links_count, Pi.set_i_flags, Pi.set_nova_ino, Pi.set_i_blk_type.
  cbv zeta. by rewrite !store_disjoint by (simpl; lia).
Qed.
End init.

(** ** The theorems *)

Lemma inode_slot_inv cpus P ino a :
  0 < cpus -> 0 <= ino -> inode_slot cpus P ino = Some a ->
  exists b, P (ino mod cpus) !! Z.to_nat (ino / cpus / 32) = Some b /\
    a = 4096 * b + (ino / cpus) mod 32 * 128 /\ 0 <= ino / cpus / 32 /\
    0 <= (ino / cpus) mod 32 < 32.
Proof.
  intros Hc Hi. unfold inode_slot. destruct (P _ !! _) as [b|] eqn:E; [|done]. simpl.
  intros [= <-]. exists b. assert (0 <= ino / cpus) by (apply Z.div_pos; lia).
  split_and!; try done; [apply Z.div_pos; lia|apply Z.mod_pos_bound; lia..].
Qed.

Section theorems.
Context `{RbTreeLaws} {L : LogBlocks} (smp : Z).
Implicit Types (sbi : nova_sb_info) (F : Z -> Prop) (P : Z -> list Z) (R : Z -> list nova_range_node).

(** Creating an inode gives it a number that was not in use and a slot in
    its CPU's table, adding zeroed pages from the free blocks as needed; every
    other inode keeps its address and its bytes.  It fails only when the blocks
    run out, and then leaves the mutex of the table held. *)
Theorem new_inode_ok sbi F P R pi_addr old :
  create_inv smp sbi F P R -> unlocked sbi ->
  (forall k c, 0 <= c < cpus sbi -> in_ranges k (R c) -> k < 16383) ->
  exists ino a sbi', nova_new_nova_inode smp sbi pi_addr old = Some (ino, a, sbi') /\
    ((exists F' P' R' new, inode_created smp sbi F P R ino a sbi' F' P' R' new) \/
     (ino = 0 /\ a = pi_addr /\ deadlocked sbi' (map_id sbi))).
Proof. apply nova_new_nova_inode_spec. Qed.

(** The address of a created inode is found again by later lookups, which
    change nothing; so are the addresses of all inodes that were there before. *)
Theorem inode_address_roundtrip sbi F P R pi_addr old ino a sbi' x b :
  create_inv smp sbi F P R -> unlocked sbi ->
  (forall k c, 0 <= c < cpus sbi -> in_ranges k (R c) -> k < 16383) ->
  nova_new_nova_inode smp sbi pi_addr old = Some (ino, a, sbi') -> ino <> 0 ->
  0 <= x -> inode_slot (cpus sbi) P x = Some b ->
  nova_get_inode_address smp sbi' ino 0 0 0 = Some (0, a, sbi') /\
  nova_get_inode_address smp sbi' x 0 0 0 = Some (0, b, sbi').
Proof.
  intros Hinv Hu Hlim E Hne Hx Hb.
  destruct (nova_new_nova_inode_spec smp sbi F P R pi_addr old Hinv Hu Hlim)
    as (i1 & a1 & s1 & E1 & Hout). rewrite E in E1. injection E1 as <- <- <-.
  destruct Hout as [(F' & P' & R' & new & [[[Hf Ht _ _ _] _ _ _] Hu' [Ec _] [Hn _] _ Hs Hst _ _ _ _ _])|(-> & _)];
    [|done].
  unfold NOVA_NORMAL_INODE_START in Hn. pose proof (lb_size _ _ Hf).
  split; apply (get_inode_address_present smp sbi' P'); auto; rewrite ?Ec; auto; lia.
Qed.

Lemma slots_disjoint sbi P x y a b :
  tables_ok sbi P -> 0 <= x -> 0 <= y -> x <> y ->
  inode_slot (cpus sbi) P x = Some a -> inode_slot (cpus sbi) P y = Some b ->
  (a + NOVA_INODE_SIZE <= b \/ b + NOVA_INODE_SIZE <= a) /\
  4096 <= a /\ a + NOVA_INODE_SIZE <= 4096 * num_blocks sbi.
Proof.
  intros Ht Hx Hy Hne Ha Hb. destruct (to_cpus _ _ Ht) as (Hcp & _ & _).
  destruct (inode_slot_inv (cpus sbi) P x a ltac:(lia) Hx Ha) as (p & Ep & -> & Hp1 & Hp2).
  destruct (inode_slot_inv (cpus sbi) P y b ltac:(lia) Hy Hb) as (q & Eq & -> & Hq1 & Hq2).
  assert (0 <= x mod cpus sbi < cpus sbi) as Hcx by (apply Z.mod_pos_bound; lia).
  assert (0 <= y mod cpus sbi < cpus sbi) as Hcy by (apply Z.mod_pos_bound; lia).
  pose proof (to_pages _ _ Ht _ _ Hcx (list_elem_of_lookup_2 _ _ _ Ep)).
  unfold NOVA_INODE_SIZE. split; [|lia].
  destruct (decide (p = q)) as [->|]; [|lia].
  destruct (to_distinct _ _ Ht _ _ _ _ _ Hcx Hcy Ep Eq) as [Ec Ej].
  assert ((x / cpus sbi) mod 32 <> (y / cpus sbi) mod 32); [|lia].
  intros Em. apply Hne. rewrite (ino_rejoin (cpus sbi) x), (ino_rejoin (cpus sbi) y) by lia.
  rewrite Ec. f_equal. f_equal.
  rewrite (Z.div_mod (x / cpus sbi) 32), (Z.div_mod (y / cpus sbi) 32) by lia. lia.
Qed.

(** Two inodes never share a byte: the 128-byte slots of different numbers
    are disjoint, and each lies within the blocks of the device. *)
Theorem inode_slots_disjoint sbi P x y a b :
  tables_ok sbi P -> 0 <= x -> 0 <= y -> x <> y ->
  inode_slot (cpus sbi) P x = Some a -> inode_slot (cpus sbi) P y = Some b ->
  (a + NOVA_INODE_SIZE <= b \/ b + NOVA_INODE_SIZE <= a) /\
  4096 <= a /\ a + NOVA_INODE_SIZE <= 4096 * num_blocks sbi.
Proof. apply slots_disjoint. Qed.

(** Looking up an inode whose page does not exist returns -EINVAL with the
    mutex of its table still held, so the next lookup on that CPU never returns. *)
Theorem missing_page_deadlocks sbi P ino pi_addr old :
  tables_ok sbi P -> unlocked sbi -> 0 <= ino -> ino / cpus sbi < 16384 ->
  inode_slot (cpus sbi) P ino = None ->
  exists sbi', nova_get_inode_address smp sbi ino pi_addr 0 old = Some (- EINVAL, pi_addr, sbi') /\
    (forall x pi_addr' extendable old', x mod cpus sbi = ino mod cpus sbi ->
       nova_get_inode_address smp sbi' x pi_addr' extendable old' = None).
Proof.
  intros Ht Hu Hi Hk Hs.
  destruct (get_inode_address_missing smp sbi P ino pi_addr old Ht Hu Hi Hk Hs) as (sbi' & E & Hd & Ec).
  exists sbi'. split; [done|]. intros x pi_addr' extendable old' Hx.
  apply get_inode_address_deadlock. by rewrite Ec, Hx.
Qed.

(** Initialising the inode tables gives every CPU a table with one zeroed
    page, all pages different and taken from the free blocks, or fails for lack of
    blocks. *)
Theorem init_inode_table_ok sbi F old :
  lb_free sbi F -> mapped sbi -> 3 <= num_blocks sbi -> 0 < cpus sbi <= 40 -> 0 <= smp < cpus sbi ->
  exists ret sbi', nova_init_inode_table smp sbi (Some (fun _ => true)) old = Some (ret, sbi') /\
    (ret = - ENOSPC \/
     (ret = 0 /\ blocks_only sbi sbi' /\
      exists F' P', table_inv smp sbi' F' P' /\ unlocked sbi' /\ (forall b, F' b -> F b) /\
        (forall c, 0 <= c < cpus sbi' -> exists b, P' c = [b]))).
Proof. apply nova_init_inode_table_spec. Qed.
End theorems.

(** ** A concrete file system: two CPUs, twenty blocks, initialised *)

Module TableDemo.
Import RbList.RbList.

Definition raw : nova_sb_info :=
  SbInfo 65536 20 0 3 2 [empty_inode_map; empty_inode_map] 0 [empty_free_list; empty_free_list]
    [] [] 0 empty_free_list ∅ (fun _ => 0).

Definition garbage : nova_range_node := RangeNode 0 0.

Definition fs1 : nova_sb_info :=
  match nova_init_blockmap garbage raw 0 with Some s => s | None => raw end.
Definition fs2 : nova_sb_info :=
  match nova_init_inode_inuse_list garbage fs1 with Some (_, s) => s | None => raw end.
Definition fs3 : nova_sb_info :=
  match nova_init_inode_table 0 fs2 (Some (fun _ => true)) 0 with Some (_, s) => s | None => raw end.

(** The first inode that is created there. *)
Definition fs4 : nova_sb_info :=
  run_state (nova_new_nova_inode 0 fs3 0 0) raw.

Definition R : Z -> list nova_range_node := fun _ => [RangeNode 0 7].

Lemma table_slab h : kmem_cache_alloc h <> None.
Proof. apply rb_list_alloc. Qed.

Lemma table_raw_fresh : fresh_blockmap raw.
Proof. split; simpl; try lia; repeat constructor; vm_compute; done. Qed.

Lemma fs1_eq : nova_init_blockmap garbage raw 0 = Some fs1.
Proof. vm_compute. reflexivity. Qed.
Lemma fs2_eq : nova_init_inode_inuse_list garbage fs1 = Some (0, fs2).
Proof. vm_compute. reflexivity. Qed.
Lemma fs3_ret : fst <$> nova_init_inode_table 0 fs2 (Some (fun _ => true)) 0 = Some 0.
Proof. vm_compute. reflexivity. Qed.
Lemma fs3_tables : map (take 2) (inode_page_mapping_tables fs3) = [[4096 * 3; 0]; [4096 * 4; 0]].
Proof. vm_compute. reflexivity. Qed.
Lemma fs_geometry : cpus fs2 = 2 /\ virt_addr fs2 = 65536 /\ num_blocks fs2 = 20 /\
  cpus fs3 = 2 /\ num_blocks fs3 = 20 /\ map_id fs3 = 0.
Proof. vm_compute. done. Qed.

Lemma fs1_maps : fresh_maps fs1.
Proof. split; vm_compute; [done|repeat constructor]. Qed.

Lemma fs1_free : exists F, lb_free fs1 F.
Proof.
  destruct (nova_init_blockmap_spec garbage table_slab raw table_raw_fresh) as (s & E & Hok & _).
  rewrite fs1_eq in E. assert (fs1 = s) as -> by congruence. eexists. eexists. split; [exact Hok|done].
Qed.

Lemma fs2_ok : exists F, lb_free fs2 F /\ inodes_ok fs2 R /\
  (forall n, inode_node fs2 n -> ~ block_node fs2 n).
Proof.
  destruct fs1_free as [F HF]. exists F.
  destruct (nova_init_inode_inuse_list_spec garbage table_slab fs1 fs1_maps) as (s & E & Hmo & Hn & Hok).
  rewrite fs2_eq in E. assert (fs2 = s) as -> by congruence.
  destruct (maps_only_free fs1 s F HF Hmo Hn). split_and!; auto.
Qed.

Lemma fs3_ok : exists F P, create_inv 0 fs3 F P R /\ unlocked fs3 /\ P 0 = [3] /\ P 1 = [4].
Proof.
  destruct fs2_ok as (F & HF & Hio & Hnd). destruct fs_geometry as (G1 & G2 & G3 & G4 & G5 & G6).
  destruct (nova_init_inode_table_spec 0 fs2 F 0 HF) as (ret & s & E & Hout);
    [unfold mapped; rewrite G2, G3; lia|rewrite G3; lia|rewrite G1; lia|rewrite G1; lia|].
  assert (s = fs3) as -> by (unfold fs3; by rewrite E).
  pose proof fs3_ret as Er. rewrite E in Er. simpl in Er. injection Er as ->.
  destruct Hout as [?|(_ & Hbo & F' & P' & Hti & Hu & _ & Hone)]; [done|].
  exists F', P'. pose proof fs3_tables as Htab.
  assert (forall c b, 0 <= c < 2 -> inode_page_mapping_tables fs3 !! Z.to_nat c = Some (table_of (P' c)) ->
    P' c = [b] -> (take 2 (table_of (P' c))) = [4096 * b; 0]) as Hpg
    by (intros c b _ _ ->; reflexivity).
  assert (forall c v, 0 <= c < 2 -> map (take 2) (inode_page_mapping_tables fs3) !! Z.to_nat c = Some [4096 * v; 0] ->
    P' c = [v]) as Hval.
  { intros c v Hc Hl. destruct (Hone c ltac:(lia)) as [b Hb].
    destruct (to_table _ _ (ti_tables _ _ _ _ Hti) c ltac:(lia)) as [Et _].
    rewrite list_lookup_fmap, Et in Hl. simpl in Hl. rewrite (Hpg c b Hc Et Hb) in Hl.
    assert (b = v) as -> by (injection Hl; lia). done. }
  rewrite fs3_tables in Hval.
  destruct (inodes_ok_frame fs2 fs3 R Hio Hnd) as [Hio3 Hnd3]; try apply Hbo.
  split; [|split; [done|split; apply Hval; (lia || done)]].
  split; auto; rewrite G6, G4; lia.
Qed.

Lemma few_inodes k c : 0 <= c < cpus fs3 -> in_ranges k (R c) -> k < 16383.
Proof. intros _ Hin. apply in_ranges_cons in Hin as [Hin|Hin%in_ranges_nil]; [|done].
  unfold in_range in Hin. simpl in Hin. lia.
Qed.

Lemma fs4_ret : fst <$> nova_new_nova_inode 0 fs3 0 0 = Some (16, 4096 * 3 + 8 * 128).
Proof. vm_compute. reflexivity. Qed.

Lemma fs4_eq : nova_new_nova_inode 0 fs3 0 0 = Some (16, 4096 * 3 + 8 * 128, fs4).
Proof. apply (run_result _ raw), fs4_ret. Qed.

Lemma new_inode_ok_witness :
  exists F P ino a sbi', nova_new_nova_inode 0 fs3 0 0 = Some (ino, a, sbi') /\
    ((exists F' P' R' new, inode_created 0 fs3 F P R ino a sbi' F' P' R' new) \/
     (ino = 0 /\ a = 0 /\ deadlocked sbi' (map_id fs3))).
Proof.
  destruct fs3_ok as (F & P & Hinv & Hu & _). exists F, P.
  exact (new_inode_ok 0 fs3 F P R 0 0 Hinv Hu few_inodes).
Defined.

Lemma inode_address_roundtrip_witness :
  nova_get_inode_address 0 fs4 16 0 0 0 = Some (0, 4096 * 3 + 8 * 128, fs4) /\
  nova_get_inode_address 0 fs4 1 0 0 0 = Some (0, 4096 * 4 + 0 * 128, fs4).
Proof.
  destruct fs3_ok as (F & P & Hinv & Hu & HP0 & HP1). destruct fs_geometry as (_ & _ & _ & G4 & _).
  apply (inode_address_roundtrip 0 fs3 F P R 0 0 16 (4096 * 3 + 8 * 128) fs4 1 (4096 * 4 + 0 * 128)
           Hinv Hu few_inodes fs4_eq); [done|lia|].
  rewrite G4. unfold inode_slot. change (1 mod 2) with 1. rewrite HP1. reflexivity.
Defined.

Lemma inode_slots_disjoint_witness :
  exists P, inode_slot 2 P 16 = Some (4096 * 3 + 8 * 128) /\ inode_slot 2 P 1 = Some (4096 * 4 + 0 * 128) /\
    (4096 * 3 + 8 * 128 + NOVA_INODE_SIZE <= 4096 * 4 + 0 * 128 \/
     4096 * 4 + 0 * 128 + NOVA_INODE_SIZE <= 4096 * 3 + 8 * 128) /\
    4096 <= 4096 * 3 + 8 * 128 /\ 4096 * 3 + 8 * 128 + NOVA_INODE_SIZE <= 4096 * num_blocks fs3.
Proof.
  destruct fs3_ok as (F & P & [[_ Ht _ _ _] _ _ _] & _ & HP0 & HP1). destruct fs_geometry as (_ & _ & _ & G4 & _).
  assert (inode_slot 2 P 16 = Some (4096 * 3 + 8 * 128)) as E0
    by (unfold inode_slot; change (16 mod 2) with 0; by rewrite HP0).
  assert (inode_slot 2 P 1 = Some (4096 * 4 + 0 * 128)) as E1
    by (unfold inode_slot; change (1 mod 2) with 1; by rewrite HP1).
  exists P. split; [exact E0|]. split; [exact E1|].
  apply (inode_slots_disjoint fs3 P 16 1 _ _ Ht); [lia|lia|lia|rewrite G4; exact E0|rewrite G4; exact E1].
Defined.

Lemma missing_page_deadlocks_witness :
  exists sbi', nova_get_inode_address 0 fs3 100 0 0 0 = Some (- EINVAL, 0, sbi') /\
    (forall x pi_addr' extendable old', x mod cpus fs3 = 100 mod cpus fs3 ->
       nova_get_inode_address 0 sbi' x pi_addr' extendable old' = None).
Proof.
  destruct fs3_ok as (F & P & [[_ Ht _ _ _] _ _ _] & Hu & HP0 & HP1). destruct fs_geometry as (_ & _ & _ & G4 & _).
  apply (missing_page_deadlocks 0 fs3 P 100 0 0 Ht Hu); [lia|rewrite G4; reflexivity|].
  rewrite G4. unfold inode_slot. change (100 mod 2) with 0. rewrite HP0. reflexivity.
Defined.

Lemma init_inode_table_ok_witness :
  exists F ret sbi', nova_init_inode_table 0 fs2 (Some (fun _ => true)) 0 = Some (ret, sbi') /\
    (ret = - ENOSPC \/
     (ret = 0 /\ blocks_only fs2 sbi' /\
      exists F' P', table_inv 0 sbi' F' P' /\ unlocked sbi' /\ (forall b, F' b -> F b) /\
        (forall c, 0 <= c < cpus sbi' -> exists b, P' c = [b]))).
Proof.
  destruct fs2_ok as (F & HF & _). destruct fs_geometry as (G1 & G2 & G3 & _). exists F.
  apply (init_inode_table_ok 0 fs2 F 0 HF);
    [unfold mapped; rewrite G2, G3; lia|rewrite G3; lia|rewrite G1; lia|rewrite G1; lia].
Defined.

End TableDemo.
