(* ===== verification/Monitor.v ===== *)
(** * State of the wear monitor (record.h, hash.h, occupySpace.h, average.c, detect.c)

    The global variables with which Themis counts writes, detects processes that wear
    out the device and decides on migrations, as one record; and the monad of the code
    that updates them.  A chain of nodes that only its header reaches is the list of its
    nodes; the doubly linked list of suspects is kept as nodes with pointers, since its
    [prev] fields are read backwards.  Arrays are functions with a range check at each
    access; spin locks and mutexes are left out, every operation here releasing the ones
    it takes. *)

From S2P Require Import Prelude Layout RangeTree.

(** ** Constants *)

Definition WB_THRESHOLD : Z := 5.
Definition sizeV : Z := 2100.
Definition MAX_KEY : Z := 10.
Definition MAX_DETECT_KEY : Z := 1000.
Definition spaceTableVolume : Z := 10.
Definition byteToM : Z := 1048576.

(** ** Data *)

(** [struct blk_write_count] *)
Record blk_write_count := BlkWriteCount {
  write_count : Z;
  write_back_threshold : Z;  (* a [char] *)
}.


(** [struct detect_hash_node] *)
Record detect_hash_node := DetectNode {
  dn_write_count : Z;
  dn_block_num : Z;
}.


(** [struct detect_hash_table]: one chain of a detect table *)
Record detect_hash_table := DetectTable {
  node_count : Z;
  max_update : Z;
  dt_next : list detect_hash_node;  (* the chain of nodes *)
}.


(** [struct hash_node] *)
Record hash_node := HashNode {
  hn_pid : Z;
  total_count : Z;
  max_count : Z;
  detect_table : list detect_hash_table;
  max_page_writecount : Z;
  page_count : Z;
}.

Definition with_total_count (v : Z) (r : hash_node) : hash_node :=
  HashNode (hn_pid r) v (max_count r) (detect_table r) (max_page_writecount
    r) (page_count r).
Definition with_max_count (v : Z) (r : hash_node) : hash_node :=
  HashNode (hn_pid r) (total_count r) v (detect_table r)
    (max_page_writecount r) (page_count r).
Definition with_detect_table (v : list detect_hash_table) (r : hash_node) : hash_node :=
  HashNode (hn_pid r) (total_count r) (max_count r) v (max_page_writecount
    r) (page_count r).
Definition with_max_page_writecount (v : Z) (r : hash_node) : hash_node :=
  HashNode (hn_pid r) (total_count r) (max_count r) (detect_table r) v
    (page_count r).
Definition with_page_count (v : Z) (r : hash_node) : hash_node :=
  HashNode (hn_pid r) (total_count r) (max_count r) (detect_table r)
    (max_page_writecount r) v.

(** [struct suspect_process] *)
Record suspect_process := SuspectProcess {
  sp_pid : Z;
  averageCount : Z;
  deviation : Z;
  pageCount : Z;
  sp_next : option ptr;
  sp_prev : option ptr;
}.

Definition with_sp_next (v : option ptr) (r : suspect_process) : suspect_process :=
  SuspectProcess (sp_pid r) (averageCount r) (deviation r) (pageCount r) v
    (sp_prev r).
Definition with_sp_prev (v : option ptr) (r : suspect_process) : suspect_process :=
  SuspectProcess (sp_pid r) (averageCount r) (deviation r) (pageCount r)
    (sp_next r) v.

(** [struct space] *)
Record space := Space {
  space_pid : Z;
  space_size : Z;
}.


(** The global variables. *)
Record monitor := Monitor {
  block_write_count : Z -> Z;  (* [BLOCKS_MAX] cells *)
  global_blk_write_count : Z -> blk_write_count;  (* [BLOCKS_MAX] cells *)
  global_max_update : Z;
  count_hand : Z;
  count_average : Z;
  exceed_average : Z;
  max_deviation : Z;
  detect_mode : Z;
  time_base : Z;
  change_time_base_flag : Z;
  last_global_max_update : Z;
  write_traffic : Z;
  process_count : Z;
  pm_use_time : Z;
  Table_header : list (list hash_node);  (* [MAX_KEY] chains *)
  global_detect_table : list detect_hash_table;  (* [MAX_DETECT_KEY] chains *)
  malicious_header : list Z;  (* the chain of pids *)
  suspect_header : option ptr;
  suspects : gmap ptr suspect_process;  (* the nodes of the suspect list *)
  V : Z -> Z -> Z;  (* [sizeV * sizeV] cells *)
  memoryCap : Z;
  spaceTable : list (list space);  (* [spaceTableVolume] chains *)
  kmalloc_results : list bool;  (* what the next calls of kmalloc do *)
}.

Definition with_block_write_count (v : Z -> Z) (r : monitor) : monitor :=
  Monitor v (global_blk_write_count r) (global_max_update r) (count_hand r)
    (count_average r) (exceed_average r) (max_deviation r) (detect_mode r)
    (time_base r) (change_time_base_flag r) (last_global_max_update r)
    (write_traffic r) (process_count r) (pm_use_time r) (Table_header r)
    (global_detect_table r) (malicious_header r) (suspect_header r)
    (suspects r) (V r) (memoryCap r) (spaceTable r) (kmalloc_results r).
Definition with_global_blk_write_count (v : Z -> blk_write_count) (r : monitor) : monitor :=
  Monitor (block_write_count r) v (global_max_update r) (count_hand r)
    (count_average r) (exceed_average r) (max_deviation r) (detect_mode r)
    (time_base r) (change_time_base_flag r) (last_global_max_update r)
    (write_traffic r) (process_count r) (pm_use_time r) (Table_header r)
    (global_detect_table r) (malicious_header r) (suspect_header r)
    (suspects r) (V r) (memoryCap r) (spaceTable r) (kmalloc_results r).
Definition with_global_max_update (v : Z) (r : monitor) : monitor :=
  Monitor (block_write_count r) (global_blk_write_count r) v (count_hand r)
    (count_average r) (exceed_average r) (max_deviation r) (detect_mode r)
    (time_base r) (change_time_base_flag r) (last_global_max_update r)
    (write_traffic r) (process_count r) (pm_use_time r) (Table_header r)
    (global_detect_table r) (malicious_header r) (suspect_header r)
    (suspects r) (V r) (memoryCap r) (spaceTable r) (kmalloc_results r).
Definition with_count_hand (v : Z) (r : monitor) : monitor :=
  Monitor (block_write_count r) (global_blk_write_count r)
    (global_max_update r) v (count_average r) (exceed_average r)
    (max_deviation r) (detect_mode r) (time_base r) (change_time_base_flag
    r) (last_global_max_update r) (write_traffic r) (process_count r)
    (pm_use_time r) (Table_header r) (global_detect_table r)
    (malicious_header r) (suspect_header r) (suspects r) (V r) (memoryCap r)
    (spaceTable r) (kmalloc_results r).
Definition with_count_average (v : Z) (r : monitor) : monitor :=
  Monitor (block_write_count r) (global_blk_write_count r)
    (global_max_update r) (count_hand r) v (exceed_average r) (max_deviation
    r) (detect_mode r) (time_base r) (change_time_base_flag r)
    (last_global_max_update r) (write_traffic r) (process_count r)
    (pm_use_time r) (Table_header r) (global_detect_table r)
    (malicious_header r) (suspect_header r) (suspects r) (V r) (memoryCap r)
    (spaceTable r) (kmalloc_results r).
Definition with_exceed_average (v : Z) (r : monitor) : monitor :=
  Monitor (block_write_count r) (global_blk_write_count r)
    (global_max_update r) (count_hand r) (count_average r) v (max_deviation
    r) (detect_mode r) (time_base r) (change_time_base_flag r)
    (last_global_max_update r) (write_traffic r) (process_count r)
    (pm_use_time r) (Table_header r) (global_detect_table r)
    (malicious_header r) (suspect_header r) (suspects r) (V r) (memoryCap r)
    (spaceTable r) (kmalloc_results r).
Definition with_max_deviation (v : Z) (r : monitor) : monitor :=
  Monitor (block_write_count r) (global_blk_write_count r)
    (global_max_update r) (count_hand r) (count_average r) (exceed_average
    r) v (detect_mode r) (time_base r) (change_time_base_flag r)
    (last_global_max_update r) (write_traffic r) (process_count r)
    (pm_use_time r) (Table_header r) (global_detect_table r)
    (malicious_header r) (suspect_header r) (suspects r) (V r) (memoryCap r)
    (spaceTable r) (kmalloc_results r).
Definition with_detect_mode (v : Z) (r : monitor) : monitor :=
  Monitor (block_write_count r) (global_blk_write_count r)
    (global_max_update r) (count_hand r) (count_average r) (exceed_average
    r) (max_deviation r) v (time_base r) (change_time_base_flag r)
    (last_global_max_update r) (write_traffic r) (process_count r)
    (pm_use_time r) (Table_header r) (global_detect_table r)
    (malicious_header r) (suspect_header r) (suspects r) (V r) (memoryCap r)
    (spaceTable r) (kmalloc_results r).
Definition with_time_base (v : Z) (r : monitor) : monitor :=
  Monitor (block_write_count r) (global_blk_write_count r)
    (global_max_update r) (count_hand r) (count_average r) (exceed_average
    r) (max_deviation r) (detect_mode r) v (change_time_base_flag r)
    (last_global_max_update r) (write_traffic r) (process_count r)
    (pm_use_time r) (Table_header r) (global_detect_table r)
    (malicious_header r) (suspect_header r) (suspects r) (V r) (memoryCap r)
    (spaceTable r) (kmalloc_results r).
Definition with_change_time_base_flag (v : Z) (r : monitor) : monitor :=
  Monitor (block_write_count r) (global_blk_write_count r)
    (global_max_update r) (count_hand r) (count_average r) (exceed_average
    r) (max_deviation r) (detect_mode r) (time_base r) v
    (last_global_max_update r) (write_traffic r) (process_count r)
    (pm_use_time r) (Table_header r) (global_detect_table r)
    (malicious_header r) (suspect_header r) (suspects r) (V r) (memoryCap r)
    (spaceTable r) (kmalloc_results r).
Definition with_last_global_max_update (v : Z) (r : monitor) : monitor :=
  Monitor (block_write_count r) (global_blk_write_count r)
    (global_max_update r) (count_hand r) (count_average r) (exceed_average
    r) (max_deviation r) (detect_mode r) (time_base r)
    (change_time_base_flag r) v (write_traffic r) (process_count r)
    (pm_use_time r) (Table_header r) (global_detect_table r)
    (malicious_header r) (suspect_header r) (suspects r) (V r) (memoryCap r)
    (spaceTable r) (kmalloc_results r).
Definition with_write_traffic (v : Z) (r : monitor) : monitor :=
  Monitor (block_write_count r) (global_blk_write_count r)
    (global_max_update r) (count_hand r) (count_average r) (exceed_average
    r) (max_deviation r) (detect_mode r) (time_base r)
    (change_time_base_flag r) (last_global_max_update r) v (process_count r)
    (pm_use_time r) (Table_header r) (global_detect_table r)
    (malicious_header r) (suspect_header r) (suspects r) (V r) (memoryCap r)
    (spaceTable r) (kmalloc_results r).
Definition with_process_count (v : Z) (r : monitor) : monitor :=
  Monitor (block_write_count r) (global_blk_write_count r)
    (global_max_update r) (count_hand r) (count_average r) (exceed_average
    r) (max_deviation r) (detect_mode r) (time_base r)
    (change_time_base_flag r) (last_global_max_update r) (write_traffic r) v
    (pm_use_time r) (Table_header r) (global_detect_table r)
    (malicious_header r) (suspect_header r) (suspects r) (V r) (memoryCap r)
    (spaceTable r) (kmalloc_results r).
Definition with_pm_use_time (v : Z) (r : monitor) : monitor :=
  Monitor (block_write_count r) (global_blk_write_count r)
    (global_max_update r) (count_hand r) (count_average r) (exceed_average
    r) (max_deviation r) (detect_mode r) (time_base r)
    (change_time_base_flag r) (last_global_max_update r) (write_traffic r)
    (process_count r) v (Table_header r) (global_detect_table r)
    (malicious_header r) (suspect_header r) (suspects r) (V r) (memoryCap r)
    (spaceTable r) (kmalloc_results r).
Definition with_Table_header (v : list (list hash_node)) (r : monitor) : monitor :=
  Monitor (block_write_count r) (global_blk_write_count r)
    (global_max_update r) (count_hand r) (count_average r) (exceed_average
    r) (max_deviation r) (detect_mode r) (time_base r)
    (change_time_base_flag r) (last_global_max_update r) (write_traffic r)
    (process_count r) (pm_use_time r) v (global_detect_table r)
    (malicious_header r) (suspect_header r) (suspects r) (V r) (memoryCap r)
    (spaceTable r) (kmalloc_results r).
Definition with_global_detect_table (v : list detect_hash_table) (r : monitor) : monitor :=
  Monitor (block_write_count r) (global_blk_write_count r)
    (global_max_update r) (count_hand r) (count_average r) (exceed_average
    r) (max_deviation r) (detect_mode r) (time_base r)
    (change_time_base_flag r) (last_global_max_update r) (write_traffic r)
    (process_count r) (pm_use_time r) (Table_header r) v (malicious_header
    r) (suspect_header r) (suspects r) (V r) (memoryCap r) (spaceTable r)
    (kmalloc_results r).
Definition with_malicious_header (v : list Z) (r : monitor) : monitor :=
  Monitor (block_write_count r) (global_blk_write_count r)
    (global_max_update r) (count_hand r) (count_average r) (exceed_average
    r) (max_deviation r) (detect_mode r) (time_base r)
    (change_time_base_flag r) (last_global_max_update r) (write_traffic r)
    (process_count r) (pm_use_time r) (Table_header r) (global_detect_table
    r) v (suspect_header r) (suspects r) (V r) (memoryCap r) (spaceTable r)
    (kmalloc_results r).
Definition with_suspect_header (v : option ptr) (r : monitor) : monitor :=
  Monitor (block_write_count r) (global_blk_write_count r)
    (global_max_update r) (count_hand r) (count_average r) (exceed_average
    r) (max_deviation r) (detect_mode r) (time_base r)
    (change_time_base_flag r) (last_global_max_update r) (write_traffic r)
    (process_count r) (pm_use_time r) (Table_header r) (global_detect_table
    r) (malicious_header r) v (suspects r) (V r) (memoryCap r) (spaceTable
    r) (kmalloc_results r).
Definition with_suspects (v : gmap ptr suspect_process) (r : monitor) : monitor :=
  Monitor (block_write_count r) (global_blk_write_count r)
    (global_max_update r) (count_hand r) (count_average r) (exceed_average
    r) (max_deviation r) (detect_mode r) (time_base r)
    (change_time_base_flag r) (last_global_max_update r) (write_traffic r)
    (process_count r) (pm_use_time r) (Table_header r) (global_detect_table
    r) (malicious_header r) (suspect_header r) v (V r) (memoryCap r)
    (spaceTable r) (kmalloc_results r).
Definition with_V (v : Z -> Z -> Z) (r : monitor) : monitor :=
  Monitor (block_write_count r) (global_blk_write_count r)
    (global_max_update r) (count_hand r) (count_average r) (exceed_average
    r) (max_deviation r) (detect_mode r) (time_base r)
    (change_time_base_flag r) (last_global_max_update r) (write_traffic r)
    (process_count r) (pm_use_time r) (Table_header r) (global_detect_table
    r) (malicious_header r) (suspect_header r) (suspects r) v (memoryCap r)
    (spaceTable r) (kmalloc_results r).
Definition with_memoryCap (v : Z) (r : monitor) : monitor :=
  Monitor (block_write_count r) (global_blk_write_count r)
    (global_max_update r) (count_hand r) (count_average r) (exceed_average
    r) (max_deviation r) (detect_mode r) (time_base r)
    (change_time_base_flag r) (last_global_max_update r) (write_traffic r)
    (process_count r) (pm_use_time r) (Table_header r) (global_detect_table
    r) (malicious_header r) (suspect_header r) (suspects r) (V r) v
    (spaceTable r) (kmalloc_results r).
Definition with_spaceTable (v : list (list space)) (r : monitor) : monitor :=
  Monitor (block_write_count r) (global_blk_write_count r)
    (global_max_update r) (count_hand r) (count_average r) (exceed_average
    r) (max_deviation r) (detect_mode r) (time_base r)
    (change_time_base_flag r) (last_global_max_update r) (write_traffic r)
    (process_count r) (pm_use_time r) (Table_header r) (global_detect_table
    r) (malicious_header r) (suspect_header r) (suspects r) (V r) (memoryCap
    r) v (kmalloc_results r).
Definition with_kmalloc_results (v : list bool) (r : monitor) : monitor :=
  Monitor (block_write_count r) (global_blk_write_count r)
    (global_max_update r) (count_hand r) (count_average r) (exceed_average
    r) (max_deviation r) (detect_mode r) (time_base r)
    (change_time_base_flag r) (last_global_max_update r) (write_traffic r)
    (process_count r) (pm_use_time r) (Table_header r) (global_detect_table
    r) (malicious_header r) (suspect_header r) (suspects r) (V r) (memoryCap
    r) (spaceTable r) v.

(** The initial values of the variables; [NULL] tables have no chain. *)
Definition initial_monitor : monitor :=
  Monitor (fun _ => 0) (fun _ => BlkWriteCount 0 0) 0 0 0 0 400
    0 0 1 0 0 0 0 [] [] [] None ∅ (fun _ _ => 0) 256 [] [].

(** ** Operations of the monitor

    State passing with faults: [None] is an invalid access. *)

Definition mon (A : Type) : Type := monitor -> option (A * monitor).

#[export] Instance mon_ret : MRet mon := fun _ x m => Some (x, m).
#[export] Instance mon_bind : MBind mon := fun _ _ k c m =>
  match c m with
  | Some (x, m') => k x m'
  | None => None
  end.

Definition fault {A} : mon A := fun _ => None.
Definition gets {A} (f : monitor -> A) : mon A := fun m => Some (f m, m).
Definition modify (f : monitor -> monitor) : mon unit := fun m => Some (tt, f m).

(** Reading through a pointer or an index that may be invalid. *)
Definition deref {A} (o : option A) : mon A :=
  match o with Some x => mret x | None => fault end.

Lemma bind_step {A B} (c : mon A) (k : A -> mon B) m x m' :
  c m = Some (x, m') -> (c ≫= k) m = k x m'.
Proof. unfold mbind, mon_bind. by intros ->. Qed.

(** [mstep H] runs the first operation of a sequence, whose result [H] gives; [mrun]
    runs the ones that compute. *)
Ltac mstep H := rewrite (bind_step _ _ _ _ _ H).
Ltac mrun := repeat (erewrite bind_step by reflexivity); cbv beta.

(** [kmalloc] and [vmalloc] succeed or not as the outside decides. *)
Definition kmalloc : mon bool := fun m =>
  match kmalloc_results m with
  | [] => Some (true, m)
  | ok :: rest => Some (ok, with_kmalloc_results rest m)
  end.

(** [block_write_count[b]] *)
Definition read_block_write_count (b : Z) : mon Z :=
  if (0 <=? b) && (b <? BLOCKS_MAX) then gets (fun m => block_write_count m b) else fault.

Lemma read_block_write_count_ok b m :
  0 <= b < BLOCKS_MAX -> read_block_write_count b m = Some (block_write_count m b, m).
Proof.
  intros [H1 H2]. unfold read_block_write_count.
  rewrite (proj2 (Z.leb_le 0 b) H1), (proj2 (Z.ltb_lt b BLOCKS_MAX) H2). done.
Qed.

(** Every allocation succeeds from here on. *)
Definition memory_available (m : monitor) : Prop := kmalloc_results m = [].

Lemma kmalloc_available m : memory_available m -> kmalloc m = Some (true, m).
Proof. unfold kmalloc. by intros ->. Qed.
