(* ===== verification/Histogram.v ===== *)
(** * Histograms of a sequence of writes

    The reference definitions the hash tables of the monitor are compared with: how
    often a value occurs in a sequence, the values in the order of their first
    occurrence, and the largest number of occurrences. *)

From S2P Require Import Prelude.

(** How often [b] occurs in [bs]. *)
Definition occurs (b : Z) (bs : list Z) : Z := Z.of_nat (length (filter (b =.) bs)).

(** The values of [bs] without repetition, in the order of first occurrence. *)
Definition firsts (bs : list Z) : list Z :=
  foldl (fun acc b => if decide (b ∈ acc) then acc else acc ++ [b]) [] bs.

(** [p] is the largest number of occurrences, [0] for the empty sequence. *)
Definition is_peak (p : Z) (bs : list Z) : Prop :=
  (forall b, occurs b bs <= p) /\ (p = 0 \/ exists b, b ∈ bs /\ occurs b bs = p).

Lemma occurs_snoc b bs x :
  occurs b (bs ++ [x]) = occurs b bs + (if decide (b = x) then 1 else 0).
Proof.
  unfold occurs. rewrite filter_app, length_app, filter_cons, filter_nil.
  case_decide; simpl; lia.
Qed.

Lemma occurs_snoc_same b bs : occurs b (bs ++ [b]) = occurs b bs + 1.
Proof. rewrite occurs_snoc, decide_True by done. done. Qed.

Lemma occurs_snoc_other b bs x : b <> x -> occurs b (bs ++ [x]) = occurs b bs.
Proof. intros. rewrite occurs_snoc, decide_False by done. lia. Qed.

Lemma occurs_bounds b bs : 0 <= occurs b bs <= Z.of_nat (length bs).
Proof.
  unfold occurs. pose proof (length_filter (b =.) bs). lia.
Qed.

Lemma occurs_not_elem b bs : b ∉ bs -> occurs b bs = 0.
Proof.
  induction bs as [|x bs IH] using rev_ind; intros Hb; [done|].
  rewrite not_elem_of_app, list_elem_of_singleton in Hb. destruct Hb as [Hb Hx].
  rewrite occurs_snoc_other; auto.
Qed.

Lemma occurs_pos b bs : b ∈ bs -> 0 < occurs b bs.
Proof.
  intros Hb. unfold occurs.
  assert (b ∈ filter (b =.) bs) as Hf by by apply list_elem_of_filter.
  destruct (filter (b =.) bs); [by apply not_elem_of_nil in Hf | simpl; lia].
Qed.

Lemma firsts_snoc bs x :
  firsts (bs ++ [x]) = if decide (x ∈ firsts bs) then firsts bs else firsts bs ++ [x].
Proof. unfold firsts. by rewrite foldl_app. Qed.

Lemma elem_of_firsts bs b : b ∈ firsts bs <-> b ∈ bs.
Proof.
  induction bs as [|x bs IH] using rev_ind; [done|].
  rewrite firsts_snoc, elem_of_app, list_elem_of_singleton, <- IH.
  case_decide as Hx; [set_solver|].
  by rewrite elem_of_app, list_elem_of_singleton.
Qed.

Lemma firsts_snoc_old bs x : x ∈ bs -> firsts (bs ++ [x]) = firsts bs.
Proof. intros H. rewrite firsts_snoc, decide_True; [done | by apply elem_of_firsts]. Qed.

Lemma firsts_snoc_new bs x : x ∉ bs -> firsts (bs ++ [x]) = firsts bs ++ [x].
Proof. intros H. rewrite firsts_snoc, decide_False; [done | by rewrite elem_of_firsts]. Qed.

Lemma NoDup_firsts bs : NoDup (firsts bs).
Proof.
  induction bs as [|x bs IH] using rev_ind; [constructor|].
  rewrite firsts_snoc. case_decide as Hx; [done|].
  apply NoDup_app. split_and!; [done | | apply NoDup_singleton].
  intros y Hy ->%list_elem_of_singleton. done.
Qed.

Lemma length_firsts bs : (length (firsts bs) <= length bs)%nat.
Proof.
  induction bs as [|x bs IH] using rev_ind; [done|].
  rewrite firsts_snoc, length_app. case_decide; simpl; [lia|].
  rewrite length_app. simpl. lia.
Qed.

Lemma firsts_nil_iff bs : firsts bs = [] <-> bs = [].
Proof.
  split; [|by intros ->]. intros H. destruct bs as [|x bs]; [done|].
  assert (x ∈ firsts (x :: bs)) as Hx by (apply elem_of_firsts; set_solver).
  rewrite H in Hx. by apply not_elem_of_nil in Hx.
Qed.

(** The peak after one more occurrence. *)
Lemma is_peak_snoc p bs x :
  is_peak p bs -> is_peak (Z.max p (occurs x bs + 1)) (bs ++ [x]).
Proof.
  intros [Hle Hat]. split.
  - intros b. rewrite occurs_snoc. specialize (Hle b). case_decide as Hb; [subst|]; lia.
  - destruct (Z.le_gt_cases p (occurs x bs + 1)) as [Hp|Hp].
    + right. exists x. split; [set_solver|].
      rewrite occurs_snoc_same. lia.
    + destruct Hat as [->|(b & Hb & Hpb)].
      { pose proof (occurs_bounds x bs). lia. }
      right. exists b. split; [set_solver|].
      rewrite occurs_snoc_other; [lia|]. intros ->. lia.
Qed.

(** The same, with the comparison the code makes. *)
Lemma is_peak_bump p bs x :
  is_peak p bs -> is_peak (if occurs x bs + 1 >? p then occurs x bs + 1 else p) (bs ++ [x]).
Proof.
  intros H%(is_peak_snoc p bs x).
  by case_cmp; [rewrite Z.max_r in H by lia | rewrite Z.max_l in H by lia].
Qed.

Lemma is_peak_nil : is_peak 0 [].
Proof. split; [intros b; by unfold occurs | by left]. Qed.

Lemma is_peak_new p bs x :
  x ∉ bs -> bs <> [] -> is_peak p bs -> is_peak p (bs ++ [x]).
Proof.
  intros Hx Hne Hp. destruct (Hp) as [Hle _].
  enough (Z.max p (occurs x bs + 1) = p) as <- by by apply is_peak_snoc.
  rewrite occurs_not_elem by done.
  destruct bs as [|y bs]; [done|].
  pose proof (occurs_pos y (y :: bs) ltac:(set_solver)). specialize (Hle y). lia.
Qed.

Lemma is_peak_length p bs : is_peak p bs -> 0 <= p <= Z.of_nat (length bs).
Proof.
  intros [Hle [->|(b & _ & <-)]].
  - specialize (Hle 0). pose proof (occurs_bounds 0 bs). lia.
  - apply occurs_bounds.
Qed.
