(* ===== verification/HashTable.v ===== *)
(** * The write-window hash tables (hash.c, utility.c)

    In a detection window Themis counts, for every process, its writes and the blocks
    they went to: [Table_header] has [MAX_KEY] chains of processes, each with a detect
    table of [MAX_DETECT_KEY] chains of blocks.  A second detect table counts the blocks
    of all processes.  The theorems show that the tables are the histogram of the writes
    of the window. *)

From S2P Require Import Prelude Layout RangeTree Monitor Histogram.

(** ** One chain of a detect table *)

(** What recording a write in a chain did: the block was already there and now has
    [c] writes, it is new, or there was no memory for its node. *)
Inductive detect_event :=
  | Rewritten (c : Z)
  | NewBlock
  | NoMemory.

(** The loop over a chain, [n] steps before its last node: [true] and the position of
    the block, or [false] and the position of the last node read. *)
Fixpoint detect_walk (block_num : Z) (n : nat) (nodes : list detect_hash_node)
  {struct nodes} : option (bool * nat) :=
  match nodes with
  | [] => None  (* a NULL pointer is read *)
  | curr :: rest =>
    if dn_block_num curr =? block_num then Some (true, O)
    else match n with
         | O => Some (false, O)
         | S n => prod_map id S <$> detect_walk block_num n rest
         end
  end.

Definition detect_chain_insert (t : detect_hash_table) (block_num : Z)
  : mon (detect_hash_table * detect_event) :=
  let count := i32 (node_count t) in
  if count =? 0 then
    ok ← kmalloc;
    if negb ok then mret (t, NoMemory)
    else mret (DetectTable 1 1 [DetectNode 1 block_num], NewBlock)
  else
    '(found, i) ← deref (detect_walk block_num (Z.to_nat (count - 1)) (dt_next t));
    curr ← deref (dt_next t !! i);
    if found : bool then
      let c := u64 (dn_write_count curr + 1) in
      mret (DetectTable (node_count t) (if c >? max_update t then c else max_update t)
              (<[i := DetectNode c (dn_block_num curr)]> (dt_next t)), Rewritten c)
    else
      ok ← kmalloc;
      if negb ok then mret (t, NoMemory)
      else mret (DetectTable (u64 (node_count t + 1)) (max_update t)
                   (take (S i) (dt_next t) ++ [DetectNode 1 block_num]), NewBlock).

Definition empty_chain : detect_hash_table := DetectTable 0 0 [].

Definition empty_detect_table : list detect_hash_table :=
  replicate (Z.to_nat MAX_DETECT_KEY) empty_chain.

Definition detect_key (block_num : Z) : nat := Z.to_nat (block_num mod MAX_DETECT_KEY).

(** ** The table of a process *)

(** The result of the [kmalloc] is not tested before the chains are initialised. *)
Definition init_detect_hash_table (node : hash_node) : mon hash_node :=
  ok ← kmalloc;
  if negb ok then fault else mret (with_detect_table empty_detect_table node).

(** [insert_detect_hash_node]; the node is updated in place. *)
Definition insert_detect_hash_node (node : hash_node) (block_num : Z) : mon hash_node :=
  let key := detect_key block_num in
  t ← deref (detect_table node !! key);
  '(t', event) ← detect_chain_insert t block_num;
  let node := with_detect_table (<[key := t']> (detect_table node)) node in
  match event with
  | NoMemory => mret node
  | NewBlock => mret (with_page_count (u64 (page_count node + 1)) node)
  | Rewritten c =>
    let node := if c >? max_count node then with_max_count c node else node in
    total ← read_block_write_count block_num;
    mret (if max_page_writecount node <? total
          then with_max_page_writecount total node else node)
  end.

(** ** The table of processes *)

Definition init_hash_table : mon unit :=
  ok ← kmalloc;
  if negb ok then fault
  else modify (with_Table_header (replicate (Z.to_nat MAX_KEY) [])).

(** [int key = pid % MAX_KEY]; a negative remainder indexes before the array. *)
Definition hash_key (pid : Z) : option nat :=
  let key := Z.rem pid MAX_KEY in
  if key <? 0 then None else Some (Z.to_nat key).

(** [Table_header[key].next] *)
Definition chain_of (key : nat) : mon (list hash_node) :=
  table ← gets Table_header;
  deref (table !! key).

Definition set_chain (key : nat) (chain : list hash_node) : mon unit :=
  modify (fun m => with_Table_header (<[key := chain]> (Table_header m)) m).

Definition find_pid (pid : Z) (chain : list hash_node) : option (nat * hash_node) :=
  list_find (fun node => hn_pid node = pid) chain.

Definition search_from_hash_table (pid : Z) : mon (option hash_node) :=
  key ← deref (hash_key pid);
  chain ← chain_of key;
  mret (snd <$> find_pid pid chain).

Definition delete_from_hash_table (pid : Z) : mon Z :=
  key ← deref (hash_key pid);
  chain ← chain_of key;
  match chain with
  | [] => mret (-1)
  | _ =>
    match find_pid pid chain with
    | Some (i, _) => _ ← set_chain key (delete i chain); mret 1
    | None => mret 0
    end
  end.

(** The node [insert_into_hash_table] builds; [None] without memory for it. *)
Definition new_hash_node (pid block_num : Z) : mon (option hash_node) :=
  ok ← kmalloc;
  if negb ok then mret None
  else
    total ← read_block_write_count block_num;
    node ← init_detect_hash_table (HashNode pid 1 1 [] total 0);
    node ← insert_detect_hash_node node block_num;
    mret (Some node).

Definition insert_into_hash_table (pid block_num : Z) : mon Z :=
  key ← deref (hash_key pid);
  chain ← chain_of key;
  _ ← modify (fun m => with_process_count (i64 (process_count m + 1)) m);
  o ← new_hash_node pid block_num;
  match o with
  | None => mret (-1)
  | Some node => _ ← set_chain key (chain ++ [node]); mret 1
  end.

Definition update_hash_table (pid block_num : Z) : mon Z :=
  key ← deref (hash_key pid);
  chain ← chain_of key;
  match find_pid pid chain with
  | None => insert_into_hash_table pid block_num
  | Some (i, node) =>
    node ← insert_detect_hash_node (with_total_count (u64 (total_count node + 1)) node)
             block_num;
    _ ← set_chain key (<[i := node]> chain);
    mret 1
  end.

(** ** Release of the tables

    [detect_node] is a local variable without initial value that each chain with two or
    more nodes leaves [NULL]; freeing it before that is a fault.  The last node of each
    chain is not freed. *)

Definition delete_detect_chain (detect_node_set : bool) (t : detect_hash_table)
  : option bool :=
  let frees := Z.to_nat (i32 (node_count t) - 1) in
  if decide (length (dt_next t) < frees)%nat then None
  else if negb detect_node_set && bool_decide (frees = O) then None
  else Some true.

Fixpoint delete_detect_chains (detect_node_set : bool) (ts : list detect_hash_table)
  : option bool :=
  match ts with
  | [] => Some detect_node_set
  | t :: ts =>
    match delete_detect_chain detect_node_set t with
    | Some set' => delete_detect_chains set' ts
    | None => None
    end
  end.

Definition delete_from_detect_hash_table (node : hash_node) : mon unit :=
  _ ← deref (delete_detect_chains false (detect_table node));
  mret tt.

(** The nodes of a chain, then of the chains that follow. *)
Fixpoint free_nodes (nodes : list hash_node) : mon unit :=
  match nodes with
  | [] => mret tt
  | node :: rest => _ ← delete_from_detect_hash_table node; free_nodes rest
  end.

Definition free_all_node : mon unit :=
  table ← gets Table_header;
  if bool_decide (table = []) then fault
  else
    _ ← free_nodes (concat table);
    modify (with_Table_header (replicate (length table) [])).

(** ** The global table *)

Definition init_global_detect_table : mon unit :=
  ok ← kmalloc;
  if negb ok then fault else modify (with_global_detect_table empty_detect_table).

Definition insert_into_global_detect_table (block_num : Z) : mon unit :=
  let key := detect_key block_num in
  table ← gets global_detect_table;
  t ← deref (table !! key);
  '(t', _) ← detect_chain_insert t block_num;
  modify (fun m => with_global_detect_table (<[key := t']> (global_detect_table m)) m).

(** The counters and the chains are cleared, [max_update] is not. *)
Definition delete_global_detect_hash_table : mon unit :=
  table ← gets global_detect_table;
  _ ← deref (delete_detect_chains false table);
  modify (with_global_detect_table
            ((fun t => DetectTable 0 (max_update t) []) <$> table)).

Definition get_global_detect_frequent_update : mon Z :=
  table ← gets global_detect_table;
  first ← deref (head table);
  mret (foldl (fun acc t => if acc <? max_update t then max_update t else acc)
          (max_update first) table).

Definition free_table : mon unit :=
  modify (fun m => with_Table_header [] (with_global_detect_table [] m)).

(** ** Statistics of a window (utility.c) *)

Definition calculate_average (node : hash_node) : Z :=
  if negb (page_count node =? 0) then total_count node / page_count node else 0.

Definition square_deviation (average acc : Z) (n : detect_hash_node) : Z :=
  u64 (acc + u64 (u64 (dn_write_count n - average) * u64 (dn_write_count n - average))).

(** [calculate_deviation]: adds to the value [*deviation] has on entry; dividing by a
    zero [page_count] is a fault. *)
Definition calculate_deviation (average deviation : Z) (node : hash_node) : option Z :=
  let chain acc t :=
    let count := Z.to_nat (i32 (node_count t)) in
    if decide (length (dt_next t) < count)%nat then None
    else Some (foldl (square_deviation average) acc (take count (dt_next t))) in
  sum ← foldl (fun acc t => acc ≫= fun a => chain a t) (Some deviation) (detect_table node);
  if page_count node =? 0 then None else Some (sum / page_count node).

Definition maxValue (a b : Z) : Z := if a >? b then a else b.

(** ** The chains hold the histogram *)

(** [chain_rep bs t]: chain [t] has recorded exactly the writes [bs]. *)
Record chain_rep (bs : list Z) (t : detect_hash_table) : Prop := {
  cr_count : node_count t = Z.of_nat (length (firsts bs));
  cr_nodes : dt_next t = (fun b => DetectNode (occurs b bs) b) <$> firsts bs;
  cr_peak : is_peak (max_update t) bs;
}.

Lemma empty_chain_rep : chain_rep [] empty_chain.
Proof. split; [done | done | apply is_peak_nil]. Qed.

Section walk.
Context (f : Z -> detect_hash_node) (Hf : forall x, dn_block_num (f x) = x).

Lemma detect_walk_found b l i n :
  NoDup l -> l !! i = Some b -> (i <= n)%nat -> detect_walk b n (f <$> l) = Some (true, i).
Proof.
  revert i n. induction l as [|x l IH]; intros i n Hnd Hi Hn; [done|].
  apply NoDup_cons in Hnd as [Hx Hnd]. csimpl. rewrite Hf.
  destruct i as [|i]; simpl in Hi.
  - injection Hi as ->. by rewrite Z.eqb_refl.
  - rewrite (proj2 (Z.eqb_neq x b)).
    2: { intros ->. by apply list_elem_of_lookup_2 in Hi. }
    destruct n as [|n]; [lia|]. rewrite (IH i n) by (done || lia). done.
Qed.

Lemma detect_walk_absent b l n :
  b ∉ l -> length l = S n -> detect_walk b n (f <$> l) = Some (false, n).
Proof.
  revert n. induction l as [|x l IH]; intros n Hb Hn; [done|].
  apply not_elem_of_cons in Hb as [Hx Hb]. csimpl. rewrite Hf.
  rewrite (proj2 (Z.eqb_neq x b)) by congruence.
  destruct n as [|n]; [done|]. simpl in Hn. rewrite (IH n) by (done || lia). done.
Qed.
End walk.

(** Counting one more occurrence of the block at position [i]. *)
Lemma histogram_bump bs b i :
  firsts bs !! i = Some b ->
  <[i := DetectNode (occurs b bs + 1) b]>
    ((fun b => DetectNode (occurs b bs) b) <$> firsts bs) =
  (fun b' => DetectNode (occurs b' (bs ++ [b])) b') <$> firsts bs.
Proof.
  intros Hi. apply list_eq. intros j.
  destruct (decide (i = j)) as [<-|Hij].
  - rewrite list_lookup_insert_eq.
    2: { rewrite length_fmap. by apply lookup_lt_Some in Hi. }
    rewrite list_lookup_fmap, Hi. simpl. by rewrite occurs_snoc_same.
  - rewrite list_lookup_insert_ne, !list_lookup_fmap by done.
    destruct (firsts bs !! j) as [b'|] eqn:Hj; [|done]. simpl.
    rewrite occurs_snoc_other; [done|]. intros ->.
    apply Hij. eapply NoDup_lookup; [apply NoDup_firsts | done | done].
Qed.

Lemma histogram_extend bs b :
  b ∉ bs ->
  (fun b' => DetectNode (occurs b' (bs ++ [b])) b') <$> (firsts bs ++ [b]) =
  ((fun b => DetectNode (occurs b bs) b) <$> firsts bs) ++ [DetectNode 1 b].
Proof.
  intros Hb. rewrite fmap_app. simpl.
  rewrite occurs_snoc_same, (occurs_not_elem b bs) by done. f_equal.
  apply list_fmap_ext. intros i x Hx%list_elem_of_lookup_2.
  rewrite occurs_snoc_other; [done|]. intros ->. by apply Hb, elem_of_firsts.
Qed.

Lemma detect_chain_insert_first bs t b m :
  chain_rep bs t -> memory_available m -> bs = [] ->
  exists t', detect_chain_insert t b m = Some ((t', NewBlock), m) /\
             chain_rep (bs ++ [b]) t'.
Proof.
  intros [Hc Hn Hp] Hm ->. unfold detect_chain_insert. rewrite Hc. simpl.
  unfold mbind, mon_bind. rewrite kmalloc_available by done.
  eexists. split; [done|]. split; [done | |].
  - simpl. unfold firsts, occurs. simpl. by rewrite filter_cons_True.
  - rewrite <- (app_nil_l [b]). apply (is_peak_snoc 0 [] b is_peak_nil).
Qed.

Lemma detect_chain_insert_old bs t b m :
  chain_rep bs t -> b ∈ bs -> Z.of_nat (length bs) < 2147483647 ->
  exists t', detect_chain_insert t b m =
               Some ((t', Rewritten (occurs b bs + 1)), m) /\
             chain_rep (bs ++ [b]) t'.
Proof.
  intros [Hc Hn Hp] Hb Hlen. pose proof (length_firsts bs) as Hl.
  destruct (list_elem_of_lookup_1 (firsts bs) b) as [i Hi]; [by apply elem_of_firsts|].
  pose proof (lookup_lt_Some _ _ _ Hi) as Hlt. pose proof (occurs_bounds b bs) as Ho.
  unfold detect_chain_insert. rewrite Hc, Hn. rewrite i32_small by lia.
  rewrite (proj2 (Z.eqb_neq (Z.of_nat (length (firsts bs))) 0)) by lia.
  unfold mbind, mon_bind.
  rewrite (detect_walk_found (fun b => DetectNode (occurs b bs) b) ltac:(done) b _ i)
    by (apply NoDup_firsts || done || lia).
  simpl. rewrite list_lookup_fmap, Hi. simpl. rewrite u64_small by lia.
  eexists. split; [done|]. split.
  - by rewrite firsts_snoc_old.
  - simpl. rewrite firsts_snoc_old by done. by apply histogram_bump.
  - simpl. by apply is_peak_bump.
Qed.

Lemma detect_chain_insert_new bs t b m :
  chain_rep bs t -> memory_available m -> b ∉ bs -> bs <> [] ->
  Z.of_nat (length bs) < 2147483647 ->
  exists t', detect_chain_insert t b m = Some ((t', NewBlock), m) /\
             chain_rep (bs ++ [b]) t'.
Proof.
  intros [Hc Hn Hp] Hm Hb Hne Hlen. pose proof (length_firsts bs) as Hl.
  assert (0 < length (firsts bs))%nat as Hpos.
  { destruct (firsts bs) eqn:E; [by destruct Hne; apply firsts_nil_iff | simpl; lia]. }
  unfold detect_chain_insert. rewrite Hc, Hn. rewrite i32_small by lia.
  rewrite (proj2 (Z.eqb_neq (Z.of_nat (length (firsts bs))) 0)) by lia.
  unfold mbind, mon_bind.
  replace (Z.to_nat (Z.of_nat (length (firsts bs)) - 1))
    with (length (firsts bs) - 1)%nat by lia.
  rewrite (detect_walk_absent (fun b => DetectNode (occurs b bs) b) ltac:(done) b)
    by first [by rewrite elem_of_firsts | lia].
  simpl. rewrite list_lookup_fmap.
  destruct (lookup_lt_is_Some_2 (firsts bs) (length (firsts bs) - 1)) as [x ->]; [lia|].
  simpl. rewrite kmalloc_available by done. simpl.
  eexists. split; [done|]. split.
  - simpl. rewrite firsts_snoc_new, length_app by done. simpl. rewrite u64_small by lia. lia.
  - simpl. rewrite firsts_snoc_new, histogram_extend by done. f_equal.
    apply take_ge. rewrite length_fmap. lia.
  - by apply is_peak_new.
Qed.

(** Recording a write in a chain adds it to the histogram of the chain. *)
Lemma detect_chain_insert_ok bs t b m :
  chain_rep bs t -> memory_available m -> Z.of_nat (length bs) < 2147483647 ->
  exists t', detect_chain_insert t b m =
               Some ((t', if decide (b ∈ bs) then Rewritten (occurs b bs + 1)
                          else NewBlock), m) /\
             chain_rep (bs ++ [b]) t'.
Proof.
  intros Ht Hm Hlen. case_decide as Hb; [by apply detect_chain_insert_old|].
  destruct (decide (bs = [])); [by apply detect_chain_insert_first|].
  by apply detect_chain_insert_new.
Qed.

(** ** Detect tables *)

(** The writes to the blocks of one chain. *)
Definition in_chain (key : nat) (bs : list Z) : list Z :=
  filter (fun b => detect_key b = key) bs.

(** [table_rep bs ts]: the detect table [ts] has recorded exactly the writes [bs]. *)
Definition table_rep (bs : list Z) (ts : list detect_hash_table) : Prop :=
  length ts = Z.to_nat MAX_DETECT_KEY /\
  forall key t, ts !! key = Some t -> chain_rep (in_chain key bs) t.

Lemma detect_key_lt b : (detect_key b < Z.to_nat MAX_DETECT_KEY)%nat.
Proof.
  unfold detect_key. pose proof (Z.mod_pos_bound b MAX_DETECT_KEY ltac:(done)).
  unfold MAX_DETECT_KEY in *. lia.
Qed.

Lemma in_chain_snoc key bs b :
  in_chain key (bs ++ [b]) =
  if decide (detect_key b = key) then in_chain key bs ++ [b] else in_chain key bs.
Proof.
  unfold in_chain. rewrite filter_app, filter_cons, filter_nil.
  case_decide; [done | by rewrite app_nil_r].
Qed.

Lemma elem_of_in_chain b bs : b ∈ in_chain (detect_key b) bs <-> b ∈ bs.
Proof. unfold in_chain. rewrite list_elem_of_filter. tauto. Qed.

Lemma occurs_in_chain b bs : occurs b (in_chain (detect_key b) bs) = occurs b bs.
Proof.
  induction bs as [|x bs IH] using rev_ind; [done|].
  rewrite in_chain_snoc. case_decide as Hk.
  - by rewrite !occurs_snoc, IH.
  - rewrite occurs_snoc_other; [done|]. by intros ->.
Qed.

Lemma length_in_chain key bs : (length (in_chain key bs) <= length bs)%nat.
Proof. apply length_filter. Qed.

Lemma empty_table_rep : table_rep [] empty_detect_table.
Proof.
  unfold table_rep, empty_detect_table. split; [by rewrite length_replicate|].
  intros key t [-> _]%lookup_replicate. apply empty_chain_rep.
Qed.

(** One write in a detect table. *)
Lemma table_insert bs ts b m :
  table_rep bs ts -> memory_available m -> Z.of_nat (length bs) < 2147483647 ->
  exists t t',
    ts !! detect_key b = Some t /\
    detect_chain_insert t b m =
      Some ((t', if decide (b ∈ bs) then Rewritten (occurs b bs + 1) else NewBlock), m) /\
    table_rep (bs ++ [b]) (<[detect_key b := t']> ts).
Proof.
  intros [Hlen Hts] Hm Hbs. pose proof (detect_key_lt b) as Hk. rewrite <- Hlen in Hk.
  destruct (lookup_lt_is_Some_2 ts (detect_key b) Hk) as [t Ht].
  pose proof (length_in_chain (detect_key b) bs).
  destruct (detect_chain_insert_ok (in_chain (detect_key b) bs) t b m) as (t' & E & Ht');
    [by apply Hts | done | lia |].
  exists t, t'. split; [done|]. split.
  - rewrite E, occurs_in_chain. do 3 f_equal.
    destruct (decide (b ∈ bs)) as [Hb|Hb];
      [rewrite decide_True | rewrite decide_False]; by rewrite ?elem_of_in_chain.
  - split; [by rewrite length_insert|]. intros key u Hu. rewrite in_chain_snoc.
    apply list_lookup_insert_Some in Hu as [(<- & <- & _)|[Hne Hu]].
    + by rewrite decide_True.
    + rewrite decide_False by done. by apply Hts.
Qed.

(** ** The table of one process *)

(** [node_rep bs node]: the node has recorded exactly the writes [bs]. *)
Record node_rep (bs : list Z) (node : hash_node) : Prop := {
  nr_total : total_count node = Z.of_nat (length bs);
  nr_pages : page_count node = Z.of_nat (length (firsts bs));
  nr_peak : is_peak (max_count node) bs;
  nr_table : table_rep bs (detect_table node);
}.

(** [max_count] starts at 1, before the first write is recorded. *)
Definition counts_peak (c : Z) (bs : list Z) : Prop :=
  if decide (bs = []) then c = 1 else is_peak c bs.

Lemma counts_peak_new c bs b : b ∉ bs -> counts_peak c bs -> is_peak c (bs ++ [b]).
Proof.
  unfold counts_peak. intros Hb H. case_decide as Hbs; [|by apply is_peak_new].
  subst. apply (is_peak_snoc 0 [] b is_peak_nil).
Qed.

Lemma counts_peak_old c bs b :
  b ∈ bs -> counts_peak c bs ->
  is_peak (if occurs b bs + 1 >? c then occurs b bs + 1 else c) (bs ++ [b]).
Proof.
  unfold counts_peak. intros Hb H. rewrite decide_False in H by (by intros ->; inversion Hb).
  by apply is_peak_bump.
Qed.

Lemma insert_detect_hash_node_ok bs node b m :
  page_count node = Z.of_nat (length (firsts bs)) ->
  counts_peak (max_count node) bs ->
  table_rep bs (detect_table node) ->
  total_count node = Z.of_nat (length bs) + 1 ->
  memory_available m -> Z.of_nat (length bs) < 2147483647 -> 0 <= b < BLOCKS_MAX ->
  exists node', insert_detect_hash_node node b m = Some (node', m) /\
    hn_pid node' = hn_pid node /\ node_rep (bs ++ [b]) node'.
Proof.
  intros Hpc Hpk Hts Htot Hm Hlen Hb.
  destruct (table_insert bs (detect_table node) b m) as (t & t' & Ht & E & Hts');
    [done..|]. pose proof (length_firsts bs).
  unfold insert_detect_hash_node, mbind, mon_bind. rewrite Ht. simpl. rewrite E.
  assert (Z.of_nat (length (bs ++ [b])) = Z.of_nat (length bs) + 1) as Hl.
  { rewrite length_app. simpl. lia. }
  destruct (decide (b ∈ bs)) as [Hin|Hin].
  - rewrite read_block_write_count_ok by done.
    eexists. split; [done|]. split; [by repeat case_match|].
    assert (forall c n', node_rep (bs ++ [b]) n' ->
      node_rep (bs ++ [b]) (if max_page_writecount n' <? c
        then with_max_page_writecount c n' else n')) as Hmp.
    { intros c n' [????]. case_match; by split. }
    apply Hmp. pose proof (counts_peak_old _ _ _ Hin Hpk) as Hpk'.
    simpl. case_match; split; simpl; rewrite ?firsts_snoc_old, ?Hl by done; done.
  - eexists. split; [done|]. split; [done|].
    split; simpl; [lia | | by apply counts_peak_new | done].
    rewrite firsts_snoc_new, length_app by done. simpl. rewrite u64_small by lia. lia.
Qed.

(** ** The table of processes *)

(** The blocks a process wrote in the window, and the processes of one chain. *)
Definition written_by (pid : Z) (w : list (Z * Z)) : list Z :=
  (filter (fun x => x.1 = pid) w).*2.

Definition pids_in (key : nat) (w : list (Z * Z)) : list Z :=
  filter (fun pid => Z.rem pid MAX_KEY = Z.of_nat key) w.*1.

Definition process_rep (w : list (Z * Z)) (pid : Z) (node : hash_node) : Prop :=
  hn_pid node = pid /\ node_rep (written_by pid w) node.

(** [window_rep w table]: the table has recorded exactly the writes [w], a sequence of
    pairs of a process and a block. *)
Definition window_rep (w : list (Z * Z)) (table : list (list hash_node)) : Prop :=
  length table = Z.to_nat MAX_KEY /\
  forall key chain, table !! key = Some chain ->
    Forall2 (process_rep w) (firsts (pids_in key w)) chain.

Lemma written_by_snoc pid w p b :
  written_by pid (w ++ [(p, b)]) =
  if decide (p = pid) then written_by pid w ++ [b] else written_by pid w.
Proof.
  unfold written_by. rewrite filter_app, filter_cons, filter_nil, fmap_app. simpl.
  case_decide; simpl; [done | by rewrite app_nil_r].
Qed.

Lemma pids_in_snoc key w p b :
  pids_in key (w ++ [(p, b)]) =
  if decide (Z.rem p MAX_KEY = Z.of_nat key) then pids_in key w ++ [p] else pids_in key w.
Proof.
  unfold pids_in. rewrite fmap_app, filter_app. csimpl. rewrite filter_cons, filter_nil.
  case_decide; [done | by rewrite app_nil_r].
Qed.

Lemma length_written_by pid w : (length (written_by pid w) <= length w)%nat.
Proof. unfold written_by. rewrite length_fmap. apply length_filter. Qed.

Lemma written_by_absent pid w : pid ∉ w.*1 -> written_by pid w = [].
Proof.
  induction w as [|[p b] w IH] using rev_ind; intros H; [done|].
  rewrite fmap_app in H. csimpl in H. rewrite written_by_snoc, decide_False by set_solver.
  apply IH. set_solver.
Qed.

Lemma elem_of_pids_in key pid w :
  Z.rem pid MAX_KEY = Z.of_nat key -> pid ∈ firsts (pids_in key w) <-> pid ∈ w.*1.
Proof. intros. unfold pids_in. rewrite elem_of_firsts, list_elem_of_filter. tauto. Qed.

Lemma hash_key_ok pid : 0 <= pid ->
  exists key, hash_key pid = Some key /\ (key < Z.to_nat MAX_KEY)%nat /\
              Z.rem pid MAX_KEY = Z.of_nat key.
Proof.
  intros H. pose proof (Z.rem_bound_pos pid MAX_KEY H ltac:(done)) as [H1 H2].
  unfold hash_key. rewrite (proj2 (Z.ltb_ge (Z.rem pid MAX_KEY) 0)) by done.
  eexists. split; [done|]. unfold MAX_KEY in *. lia.
Qed.

Section find_pid.
Context (R : Z -> hash_node -> Prop) (HR : forall pid node, R pid node -> hn_pid node = pid).

Lemma find_pid_present ps chain pid i :
  Forall2 R ps chain -> NoDup ps -> ps !! i = Some pid ->
  exists node, find_pid pid chain = Some (i, node) /\ chain !! i = Some node /\ R pid node.
Proof.
  intros Hf Hnd Hi. destruct (Forall2_lookup_l _ _ _ _ _ Hf Hi) as (node & Hn & Hr).
  exists node. split; [|done]. apply list_find_Some. split; [done|]. split; [by apply HR|].
  intros j n Hj Hlt Hp. destruct (Forall2_lookup_r _ _ _ _ _ Hf Hj) as (p & Hp' & Hr').
  apply HR in Hr'. assert (j = i); [|lia].
  eapply NoDup_lookup; [done | done | congruence].
Qed.

Lemma find_pid_absent ps chain pid :
  Forall2 R ps chain -> pid ∉ ps -> find_pid pid chain = None.
Proof.
  intros Hf Hp. apply list_find_None, Forall_forall. intros n Hn Heq.
  apply list_elem_of_lookup in Hn as [j Hj].
  destruct (Forall2_lookup_r _ _ _ _ _ Hf Hj) as (p & Hp' & Hr').
  apply HR in Hr'. apply Hp. apply list_elem_of_lookup. exists j. congruence.
Qed.
End find_pid.

Lemma written_by_present pid w : pid ∈ w.*1 -> written_by pid w <> [].
Proof.
  intros ([p b] & -> & Hin)%list_elem_of_fmap E. unfold written_by in E. simpl in E.
  assert ((p, b) ∈ filter (fun x => x.1 = p) w) as Hf by by apply list_elem_of_filter.
  destruct (filter (fun x => x.1 = p) w); [by apply not_elem_of_nil in Hf | done].
Qed.

(** The other processes keep their nodes. *)
Lemma process_rep_other pid p b w node :
  p <> pid -> process_rep w pid node -> process_rep (w ++ [(p, b)]) pid node.
Proof. unfold process_rep. intros. by rewrite written_by_snoc, decide_False. Qed.

(** Writing back a chain that represents its processes. *)
Lemma window_rep_put w table key chain pid b :
  window_rep w table -> Z.rem pid MAX_KEY = Z.of_nat key -> (key < Z.to_nat MAX_KEY)%nat ->
  Forall2 (process_rep (w ++ [(pid, b)])) (firsts (pids_in key w ++ [pid])) chain ->
  window_rep (w ++ [(pid, b)]) (<[key := chain]> table).
Proof.
  intros [Hlen Hw] Hk Hlt Hc. split; [by rewrite length_insert|].
  intros key' chain' Hl. rewrite pids_in_snoc.
  apply list_lookup_insert_Some in Hl as [(<- & <- & _)|[Hne Hl]].
  - by rewrite decide_True.
  - rewrite decide_False by (intros ?; apply Hne; lia).
    eapply Forall2_impl_elem; [by apply Hw|]. intros p node Hp Hr.
    apply process_rep_other; [|done]. intros <-.
    unfold pids_in in Hp. rewrite elem_of_firsts, list_elem_of_filter in Hp. lia.
Qed.

Lemma process_rep_pid w pid node : process_rep w pid node -> hn_pid node = pid.
Proof. by intros [? _]. Qed.

(** The chain of a process. *)
Lemma window_chain w m pid :
  window_rep w (Table_header m) -> 0 <= pid ->
  exists key chain, hash_key pid = Some key /\ Z.rem pid MAX_KEY = Z.of_nat key /\
    (key < Z.to_nat MAX_KEY)%nat /\ Table_header m !! key = Some chain /\
    Forall2 (process_rep w) (firsts (pids_in key w)) chain.
Proof.
  intros [Hl Hw] Hpid. destruct (hash_key_ok pid Hpid) as (key & Hkey & Hlt & Hrem).
  destruct (lookup_lt_is_Some_2 (Table_header m) key) as [chain Hchain]; [by rewrite Hl|].
  exists key, chain. by repeat (split; [done|]); apply Hw.
Qed.

(** A process that is already in the table. *)
Lemma update_hash_table_old w m pid b :
  window_rep w (Table_header m) -> memory_available m -> pid ∈ w.*1 ->
  0 <= pid -> 0 <= b < BLOCKS_MAX -> Z.of_nat (length w) < 2147483647 ->
  exists table, update_hash_table pid b m = Some (1, with_Table_header table m) /\
                window_rep (w ++ [(pid, b)]) table.
Proof.
  intros Hw Hm Hin Hpid Hb Hlen.
  destruct (window_chain w m pid Hw Hpid) as (key & chain & Hkey & Hrem & Hlt & Hchain & Hf).
  pose proof (written_by_present _ _ Hin) as Hne. pose proof (length_written_by pid w).
  apply (elem_of_pids_in key pid w Hrem) in Hin as Hin'.
  apply list_elem_of_lookup in Hin' as [i Hi].
  destruct (find_pid_present _ (process_rep_pid w) _ _ _ _ Hf (NoDup_firsts _) Hi)
    as (node & Hfind & Hnode & Hpn & [Ht Hp Hpk Hts]).
  destruct (insert_detect_hash_node_ok (written_by pid w)
    (with_total_count (u64 (total_count node + 1)) node) b m) as (node' & E & Hpid' & Hr);
    [done | unfold counts_peak; by rewrite decide_False | done
    | simpl; rewrite u64_small by lia; lia | done | lia | done |].
  exists (<[key := <[i := node']> chain]> (Table_header m)). split.
  - unfold update_hash_table, mbind, mon_bind, chain_of. rewrite Hkey. simpl.
    unfold mbind, mon_bind. simpl. rewrite Hchain. simpl. rewrite Hfind, E. done.
  - apply window_rep_put; [done..|].
    assert (pid ∈ pids_in key w) as Hold by (by apply elem_of_firsts, list_elem_of_lookup; eauto).
    rewrite firsts_snoc_old by done.
    eapply Forall2_replace; [done | apply NoDup_firsts | done | |].
    + split; [by rewrite Hpid'|]. by rewrite written_by_snoc, decide_True.
    + intros p n Hne'. by apply process_rep_other.
Qed.

Lemma new_hash_node_ok pid b m :
  memory_available m -> 0 <= b < BLOCKS_MAX ->
  exists node, new_hash_node pid b m = Some (Some node, m) /\
               hn_pid node = pid /\ node_rep [b] node.
Proof.
  intros Hm Hb.
  destruct (insert_detect_hash_node_ok [] (with_detect_table empty_detect_table
    (HashNode pid 1 1 [] (block_write_count m b) 0)) b m) as (node & E & Hp & Hr);
    [done | done | apply empty_table_rep | done | done | done | done |].
  exists node. split; [|done]. unfold new_hash_node, init_detect_hash_table.
  mstep (kmalloc_available m Hm). unfold negb.
  mstep (read_block_write_count_ok b m Hb).
  erewrite bind_step; [|by mstep (kmalloc_available m Hm)]. by mstep E.
Qed.

(** A process that is new in the window. *)
Lemma update_hash_table_new w m pid b :
  window_rep w (Table_header m) -> memory_available m -> pid ∉ w.*1 ->
  0 <= pid -> 0 <= b < BLOCKS_MAX -> Z.of_nat (length w) < 2147483647 ->
  exists table, update_hash_table pid b m =
                  Some (1, with_Table_header table
                             (with_process_count (i64 (process_count m + 1)) m)) /\
                window_rep (w ++ [(pid, b)]) table.
Proof.
  intros Hw Hm Hin Hpid Hb Hlen.
  destruct (window_chain w m pid Hw Hpid) as (key & chain & Hkey & Hrem & Hlt & Hchain & Hf).
  assert (pid ∉ firsts (pids_in key w)) as Hnew by by rewrite (elem_of_pids_in key).
  set (m1 := with_process_count (i64 (process_count m + 1)) m).
  assert (memory_available m1) as Hm1 by done.
  destruct (new_hash_node_ok pid b m1) as (node & E & Hp & Hr); [done..|].
  exists (<[key := chain ++ [node]]> (Table_header m)). split.
  - unfold update_hash_table, insert_into_hash_table, mbind, mon_bind, chain_of.
    rewrite Hkey. simpl. unfold mbind, mon_bind. simpl. rewrite Hchain. simpl.
    rewrite (find_pid_absent _ (process_rep_pid w) _ _ _ Hf Hnew). rewrite Hchain. simpl. fold m1.
    by rewrite E.
  - apply window_rep_put; [done..|].
    rewrite firsts_snoc_new by by rewrite elem_of_firsts in Hnew.
    apply Forall2_app.
    + eapply Forall2_impl_elem; [done|]. intros p n Hpp. apply process_rep_other. by intros ->.
    + constructor; [|done]. split; [done|].
      by rewrite written_by_snoc, decide_True, written_by_absent.
Qed.

(** [update_hash_table] records one write; a process is counted when it first writes. *)
Lemma update_hash_table_spec w m pid b :
  window_rep w (Table_header m) -> memory_available m ->
  0 <= pid -> 0 <= b < BLOCKS_MAX -> Z.of_nat (length w) < 2147483647 ->
  exists table, update_hash_table pid b m =
    Some (1, with_Table_header table
               (if decide (pid ∈ w.*1) then m
                else with_process_count (i64 (process_count m + 1)) m)) /\
    window_rep (w ++ [(pid, b)]) table.
Proof.
  intros. case_decide; [by apply update_hash_table_old | by apply update_hash_table_new].
Qed.

(** ** A window *)

(** The writes of a window, recorded one after the other. *)
Fixpoint record_window (w : list (Z * Z)) : mon unit :=
  match w with
  | [] => mret tt
  | (pid, b) :: w => _ ← update_hash_table pid b; record_window w
  end.

(** The end of a window, in [detect_mode_change]: the number of processes and the mode are
    reset, the nodes of the table stay. *)
Definition end_window : mon unit := modify (fun m => with_process_count 0 (with_detect_mode 0 m)).

(** Windows one after the other. *)
Fixpoint record_windows (ws : list (list (Z * Z))) : mon unit :=
  match ws with
  | [] => mret tt
  | w :: ws => _ ← record_window w; _ ← end_window; record_windows ws
  end.

(** The writes to a block a node has counted. *)
Definition writes_to (node : hash_node) (b : Z) : Z :=
  match detect_table node !! detect_key b with
  | Some t => default 0 (dn_write_count ∘ snd <$>
                list_find (fun n => dn_block_num n = b) (dt_next t))
  | None => 0
  end.

Definition valid_write (x : Z * Z) : Prop := 0 <= x.1 /\ 0 <= x.2 < BLOCKS_MAX.

Lemma init_window_rep : window_rep [] (replicate (Z.to_nat MAX_KEY) []).
Proof.
  split; [by rewrite length_replicate|].
  intros key chain [-> _]%lookup_replicate. constructor.
Qed.

Lemma record_window_spec w0 w m :
  window_rep w0 (Table_header m) -> memory_available m -> Forall valid_write w ->
  Z.of_nat (length (w0 ++ w)) < 2147483648 -> 0 <= process_count m <= Z.of_nat (length (firsts w0.*1)) ->
  exists m', record_window w m = Some (tt, m') /\
    window_rep (w0 ++ w) (Table_header m') /\ memory_available m' /\
    process_count m' = process_count m + (Z.of_nat (length (firsts (w0 ++ w).*1)) - Z.of_nat (length (firsts w0.*1))).
Proof.
  revert w0 m. induction w as [|[pid b] w IH]; intros w0 m Hw Hm Hv Hlen Hpc.
  { exists m. rewrite !app_nil_r, Z.sub_diag, Z.add_0_r. done. }
  inversion_clear Hv as [|?? [Hpid Hb] Hv']. simpl in *.
  rewrite length_app in Hlen. simpl in Hlen.
  destruct (update_hash_table_spec w0 m pid b) as (table & E & Hw'); [done..| lia |].
  mstep E. set (m1 := with_Table_header _ _). pose proof (length_firsts w0.*1) as Hl. rewrite length_fmap in Hl.
  assert (process_count m1 = process_count m +
    (Z.of_nat (length (firsts (w0 ++ [(pid, b)]).*1)) - Z.of_nat (length (firsts w0.*1)))) as Hp1.
  { rewrite fmap_app. csimpl. rewrite firsts_snoc. unfold m1. destruct (decide (pid ∈ w0.*1)) as [Hin|Hin]; simpl.
    - rewrite decide_True by by rewrite elem_of_firsts. lia.
    - rewrite decide_False by by rewrite elem_of_firsts. rewrite length_app, i64_small; simpl; lia. }
  assert (length (firsts w0.*1) <= length (firsts (w0 ++ [(pid, b)]).*1))%nat as Hmono.
  { rewrite fmap_app. csimpl. rewrite firsts_snoc. destruct (decide (pid ∈ firsts w0.*1)); rewrite ?length_app; simpl; lia. }
  destruct (IH (w0 ++ [(pid, b)]) m1 Hw') as (m' & E' & ? & ? & Hp'); try done.
  - unfold m1. by destruct (decide (pid ∈ w0.*1)).
  - rewrite !length_app. simpl. lia.
  - rewrite Hp1. lia.
  - exists m'. rewrite <- app_assoc in *. split_and!; try done. rewrite Hp', Hp1. cbn [app]. lia.
Qed.

Lemma record_windows_spec ws : forall w0 m,
  window_rep w0 (Table_header m) -> memory_available m -> Forall valid_write (concat ws) ->
  Z.of_nat (length (w0 ++ concat ws)) < 2147483648 -> process_count m = 0 ->
  exists m', record_windows ws m = Some (tt, m') /\
    window_rep (w0 ++ concat ws) (Table_header m') /\ memory_available m' /\ process_count m' = 0.
Proof.
  induction ws as [|w ws IH]; intros w0 m Hw Hm Hv Hlen Hpc; cbn [record_windows concat] in *.
  { exists m. by rewrite app_nil_r. }
  apply Forall_app in Hv as [Hv1 Hv2]. rewrite !length_app in Hlen.
  destruct (record_window_spec w0 w m Hw Hm Hv1) as (m1 & E1 & Hw1 & Hm1 & _); [rewrite length_app; lia|lia|].
  mstep E1. unfold end_window. mrun.
  destruct (IH (w0 ++ w) (with_process_count 0 (with_detect_mode 0 m1)) Hw1 Hm1 Hv2) as (m' & E' & Hw' & Hm' & Hp');
    [rewrite !length_app; lia|done|].
  exists m'. rewrite <- app_assoc in Hw'. done.
Qed.

Lemma writes_to_rep bs node b : node_rep bs node -> writes_to node b = occurs b bs.
Proof.
  intros [_ _ _ [Hlen Hts]]. unfold writes_to.
  destruct (lookup_lt_is_Some_2 (detect_table node) (detect_key b)) as [t Ht].
  { rewrite Hlen. apply detect_key_lt. }
  rewrite Ht. destruct (Hts _ _ Ht) as [_ Hn _]. rewrite Hn, <- (occurs_in_chain b bs).
  set (cs := in_chain (detect_key b) bs).
  destruct (decide (b ∈ cs)) as [Hb|Hb].
  - destruct (list_elem_of_lookup_1 (firsts cs) b) as [i Hi]; [by apply elem_of_firsts|].
    assert (list_find (fun n => dn_block_num n = b)
      ((fun b => DetectNode (occurs b cs) b) <$> firsts cs) =
      Some (i, DetectNode (occurs b cs) b)) as ->; [|done].
    apply list_find_Some. rewrite list_lookup_fmap, Hi. split; [done|]. split; [done|].
    intros j n Hj Hlt Hnb. rewrite list_lookup_fmap in Hj.
    destruct (firsts cs !! j) as [x|] eqn:Ej; [|done]. injection Hj as <-.
    simpl in Hnb. subst x.
    pose proof (NoDup_lookup _ _ _ _ (NoDup_firsts cs) Hi Ej). lia.
  - rewrite occurs_not_elem by done.
    rewrite (proj2 (list_find_None _ _)); [done|].
    apply Forall_fmap, Forall_forall. simpl. intros x Hx Hxb.
    apply Hb, elem_of_firsts. by rewrite <- Hxb.
Qed.

(** C19: The table of processes is the histogram of all writes recorded since the module was
    loaded, in the windows [ws] and in the window [w] that is open: a process that did not
    write is not found; one that did is found with its number of writes, its number of
    different blocks, the largest number of writes to one block, and the exact count of every
    block.  The nodes are not cleared at the end of a window (detect.c:79), so
    [process_count], which is, counts the processes of the open window that had not written in
    any window before.  Memory is always available, and there are fewer than 2^31 writes. *)
Theorem hash_window_exact ws w m0 :
  let all := concat ws ++ w in
  memory_available m0 -> Forall valid_write all -> Z.of_nat (length all) < 2147483648 ->
  process_count m0 = 0 ->
  exists m, (_ ← init_hash_table; _ ← record_windows ws; record_window w) m0 = Some (tt, m) /\
    process_count m = Z.of_nat (length (firsts all.*1)) - Z.of_nat (length (firsts (concat ws).*1)) /\
    forall pid, 0 <= pid ->
      if decide (pid ∈ all.*1)
      then exists node, search_from_hash_table pid m = Some (Some node, m) /\
             hn_pid node = pid /\
             total_count node = Z.of_nat (length (written_by pid all)) /\
             page_count node = Z.of_nat (length (firsts (written_by pid all))) /\
             is_peak (max_count node) (written_by pid all) /\
             forall b, writes_to node b = occurs b (written_by pid all)
      else search_from_hash_table pid m = Some (None, m).
Proof.
  intros all Hm Hv Hlen Hpc. pose proof Hv as [Hv1 Hv2]%Forall_app. unfold all in Hlen. rewrite length_app in Hlen.
  destruct (record_windows_spec ws [] (with_Table_header (replicate (Z.to_nat MAX_KEY) []) m0)
    init_window_rep) as (m1 & E1 & Hw1 & Hm1 & Hp1); [done..|cbn [app]; lia|done|]. cbn [app] in Hw1.
  destruct (record_window_spec (concat ws) w m1 Hw1 Hm1 Hv2) as (m & E & Hw & _ & Hpm); [rewrite length_app; lia|lia|].
  fold all in Hw, Hpm. exists m. split; [|split; [lia|]].
  { unfold init_hash_table. erewrite bind_step; [|by mstep (kmalloc_available m0 Hm)]. mstep E1. exact E. }
  intros pid Hpid.
  destruct (window_chain all m pid Hw Hpid) as (key & chain & Hkey & Hrem & Hlt & Hchain & Hf).
  assert (search_from_hash_table pid m = Some (snd <$> find_pid pid chain, m)) as ->.
  { unfold search_from_hash_table. rewrite Hkey. mrun. unfold chain_of.
    erewrite bind_step; [done|]. mrun. by rewrite Hchain. }
  case_decide as Hin.
  - apply (elem_of_pids_in key pid all Hrem), list_elem_of_lookup in Hin as [i Hi].
    destruct (find_pid_present _ (process_rep_pid all) _ _ _ _ Hf (NoDup_firsts _) Hi)
      as (node & -> & _ & Hp & Hr).
    exists node. destruct (Hr) as [? ? ? _]. repeat (split; [done|]).
    intros b. by apply writes_to_rep.
  - rewrite (find_pid_absent _ (process_rep_pid all) _ _ _ Hf); [done|].
    by rewrite (elem_of_pids_in key).
Qed.

(** ** Mean and variance of a window *)

(** The sum of the squared distances of the counts of a node from [average]. *)
Definition square_sum (average : Z) (bs : list Z) : Z :=
  sum_of (fun b => (occurs b bs - average) * (occurs b bs - average)) (firsts bs).

Lemma square_deviation_sum average nodes acc :
  foldl (square_deviation average) (u64 acc) nodes =
  u64 (acc + sum_of (fun n => (dn_write_count n - average) * (dn_write_count n - average))
               nodes).
Proof.
  revert acc. induction nodes as [|n nodes IH]; intros acc; simpl; [by rewrite Z.add_0_r|].
  replace (square_deviation average (u64 acc) n)
    with (u64 (acc + (dn_write_count n - average) * (dn_write_count n - average))).
  - rewrite IH. f_equal. lia.
  - unfold square_deviation, u64. by rewrite <- Zmult_mod, <- Zplus_mod.
Qed.

(** A sum over the chains of a table is the sum over its blocks. *)
Lemma sum_over_keys (g : nat -> Z) x key n :
  (key < n)%nat ->
  sum_of (fun k => g k + if decide (key = k) then x else 0) (seq 0 n) =
  sum_of g (seq 0 n) + x.
Proof.
  induction n as [|n IH]; intros Hlt; [lia|].
  rewrite seq_S, !sum_of_app. simpl.
  destruct (decide (key = n)) as [->|Hne]; [|rewrite IH by lia; lia].
  enough (forall m, (m <= n)%nat ->
    sum_of (fun k => g k + if decide (n = k) then x else 0) (seq 0 m) = sum_of g (seq 0 m))
    as -> by (done || lia).
  induction m as [|m IHm]; intros Hm; [done|].
  rewrite seq_S, !sum_of_app, IHm by lia. simpl. rewrite decide_False by lia. lia.
Qed.

Lemma sum_of_ext {A} (f g : A -> Z) l :
  (forall x, x ∈ l -> f x = g x) -> sum_of f l = sum_of g l.
Proof.
  induction l as [|x l IH]; intros H; simpl; [done|].
  rewrite (H x) by set_solver. rewrite IH; [done|]. intros y Hy. apply H. set_solver.
Qed.

Lemma sum_of_zero {A} (f : A -> Z) l : (forall x, f x = 0) -> sum_of f l = 0.
Proof. intros H. unfold sum_of. induction l as [|x l IH]; simpl; [done|]. rewrite H. lia. Qed.

Lemma sum_of_fmap {A B} (f : B -> Z) (g : A -> B) l :
  sum_of f (g <$> l) = sum_of (fun x => f (g x)) l.
Proof. unfold sum_of. induction l as [|x l IH]; csimpl; [done|]. by rewrite IH. Qed.

Lemma sum_of_chains (f : Z -> Z) bs :
  sum_of (fun key => sum_of f (firsts (in_chain key bs))) (seq 0 (Z.to_nat MAX_DETECT_KEY)) =
  sum_of f (firsts bs).
Proof.
  induction bs as [|b bs IH] using rev_ind.
  { apply (sum_of_zero (fun _ : nat => 0)). done. }
  destruct (decide (b ∈ bs)) as [Hb|Hb].
  - rewrite (firsts_snoc_old bs b Hb), <- IH. apply sum_of_ext. intros key _.
    rewrite in_chain_snoc. case_decide as Hk; [|done].
    by rewrite firsts_snoc_old by by rewrite <- Hk, elem_of_in_chain.
  - rewrite (firsts_snoc_new bs b Hb), sum_of_app, <- IH.
    change (sum_of f [b]) with (f b + 0). rewrite Z.add_0_r, <- (sum_over_keys _ (f b) (detect_key b)) by apply detect_key_lt.
    apply sum_of_ext. intros key _. cbn beta. rewrite in_chain_snoc.
    case_decide as Hk; [|lia].
    rewrite firsts_snoc_new by by rewrite <- Hk, elem_of_in_chain.
    rewrite sum_of_app. simpl. lia.
Qed.

(** The chains of a table that represents [bs], summed from the [k]-th one on. *)
Lemma deviation_chains average bs ts k acc :
  (forall i t, ts !! i = Some t -> chain_rep (in_chain (k + i) bs) t) ->
  Z.of_nat (length bs) < 2147483648 ->
  foldl (fun acc t => acc ≫= fun a =>
      let count := Z.to_nat (i32 (node_count t)) in
      if decide (length (dt_next t) < count)%nat then None
      else Some (foldl (square_deviation average) a (take count (dt_next t))))
    (Some (u64 acc)) ts =
  Some (u64 (acc + sum_of (fun key =>
    sum_of (fun b => (occurs b bs - average) * (occurs b bs - average))
      (firsts (in_chain key bs))) (seq k (length ts)))).
Proof.
  revert k acc. induction ts as [|t ts IH]; intros k acc Hts Hlen; simpl.
  { by rewrite Z.add_0_r. }
  destruct (Hts O t eq_refl) as [Hc Hn _]. rewrite Nat.add_0_r in Hc, Hn.
  pose proof (length_firsts (in_chain k bs)). pose proof (length_in_chain k bs).
  rewrite Hc, Hn, i32_small, Nat2Z.id by lia.
  rewrite decide_False by (rewrite length_fmap; lia).
  rewrite take_ge by (rewrite length_fmap; lia).
  rewrite square_deviation_sum, (IH (S k)); [| |done].
  2: { intros i u Hi. rewrite Nat.add_succ_comm. by apply (Hts (S i)). }
  do 2 f_equal. rewrite Z.add_assoc. f_equal. f_equal.
  rewrite sum_of_fmap. apply sum_of_ext. intros b Hb. cbn -[occurs].
  rewrite elem_of_firsts in Hb. unfold in_chain in Hb.
  apply list_elem_of_filter in Hb as [<- _]. by rewrite occurs_in_chain.
Qed.

(** For a process whose node has recorded the writes [bs], [calculate_average] is the
    mean number of writes per block and [calculate_deviation] the variance of the numbers
    of writes, in integer division. *)
Theorem window_statistics bs node :
  node_rep bs node -> bs <> [] -> Z.of_nat (length bs) < 2147483648 ->
  let average := calculate_average node in
  square_sum average bs < 18446744073709551616 ->
  average = Z.of_nat (length bs) / Z.of_nat (length (firsts bs)) /\
  calculate_deviation average 0 node =
    Some (square_sum average bs / Z.of_nat (length (firsts bs))).
Proof.
  intros [Ht Hp _ [Hl Hts]] Hne Hlen average Hsq.
  assert (page_count node <> 0) as Hnz.
  { rewrite Hp. destruct (firsts bs) eqn:E; [by destruct Hne; apply firsts_nil_iff | simpl; lia]. }
  split.
  - unfold average, calculate_average. rewrite (proj2 (Z.eqb_neq (page_count node) 0) Hnz).
    simpl. by rewrite Ht, Hp.
  - unfold calculate_deviation. rewrite (proj2 (Z.eqb_neq (page_count node) 0) Hnz).
    change (Some 0) with (Some (u64 0)).
    rewrite (deviation_chains average bs _ 0 0) by done.
    rewrite Hl, sum_of_chains, Z.add_0_l, Hp. fold (square_sum average bs).
    rewrite u64_small; [done|]. split; [|done].
    apply sum_of_nonneg, Forall_forall. intros b _. apply Z.square_nonneg.
Qed.

(** ** Releasing the tables of a window *)

Lemma free_nodes_fault node nodes m :
  node ∈ nodes -> delete_detect_chains false (detect_table node) = None ->
  free_nodes nodes m = None.
Proof.
  intros Hin Hnone. induction nodes as [|n nodes IH]; [by apply not_elem_of_nil in Hin|].
  cbn [free_nodes]. unfold delete_from_detect_hash_table, mbind, mon_bind.
  destruct (delete_detect_chains false (detect_table n)) eqn:E; [|done].
  apply elem_of_cons in Hin as [->|Hin]; [congruence|]. by apply IH.
Qed.

(** [free_all_node] frees a pointer that was never set when some process wrote fewer
    than two different blocks of the first chain, those whose number is a multiple of
    [MAX_DETECT_KEY]. *)
Theorem free_all_node_faults w m pid :
  window_rep w (Table_header m) -> 0 <= pid -> pid ∈ w.*1 ->
  (length (firsts (in_chain 0 (written_by pid w))) < 2)%nat ->
  free_all_node m = None.
Proof.
  intros Hw Hpid Hin Hshort.
  destruct (window_chain w m pid Hw Hpid) as (key & chain & _ & Hrem & _ & Hchain & Hf).
  apply (elem_of_pids_in key pid w Hrem), list_elem_of_lookup in Hin as [i Hi].
  destruct (Forall2_lookup_l _ _ _ _ _ Hf Hi) as (node & Hn & _ & [_ _ _ [Hlen Hts]]).
  unfold free_all_node. mrun.
  case_bool_decide as Ht; [done|].
  unfold mbind, mon_bind. erewrite (free_nodes_fault node); [done | |].
  - apply list_elem_of_In, in_concat. exists chain.
    split; apply list_elem_of_In; by eapply list_elem_of_lookup_2.
  - destruct (detect_table node) as [|t ts] eqn:Edt; [done|].
    destruct (Hts O t eq_refl) as [Hc Hnodes _]. cbn [delete_detect_chains].
    unfold delete_detect_chain. rewrite Hc, i32_small by lia.
    replace (Z.to_nat _) with O by lia. rewrite decide_False by lia. done.
Qed.

(** ** Concrete windows *)

Module HashDemo.

(** Processes 7 and 17 share a chain; 7 writes block 1005 in the first window and block 5, of
    the same detect chain, twice in the second; 8 is the only new process of the second. *)
Lemma demo_valid : Forall valid_write (concat [[(17, 9); (7, 1005)]] ++ [(7, 5); (8, 3); (7, 5)]).
Proof. repeat constructor; vm_compute; congruence. Qed.

Lemma hash_window_exact_witness :
  exists m, (_ ← init_hash_table; _ ← record_windows [[(17, 9); (7, 1005)]]; record_window [(7, 5); (8, 3); (7, 5)])
      initial_monitor = Some (tt, m) /\
    process_count m = 1 /\
    exists node, search_from_hash_table 7 m = Some (Some node, m) /\
      total_count node = 3 /\ page_count node = 2 /\ is_peak (max_count node) [1005; 5; 5] /\
      writes_to node 5 = 2 /\ writes_to node 1005 = 1 /\ writes_to node 9 = 0.
Proof.
  destruct (hash_window_exact [[(17, 9); (7, 1005)]] [(7, 5); (8, 3); (7, 5)] initial_monitor eq_refl demo_valid eq_refl eq_refl)
    as (m & E & Hpc & H).
  exists m. split; [exact E|]. split; [exact Hpc|].
  specialize (H 7 ltac:(discriminate)).
  destruct (decide (7 ∈ (concat [[(17, 9); (7, 1005)]] ++ [(7, 5); (8, 3); (7, 5)]).*1)) as [_|n]; [|by destruct n; right; left].
  destruct H as (node & Hs & _ & Ht & Hp & Hk & Hb).
  exists node. split; [exact Hs|]. split; [exact Ht|]. split; [exact Hp|].
  split; [exact Hk|]. split; [exact (Hb 5)|]. split; [exact (Hb 1005) | exact (Hb 9)].
Defined.

(** A node after writes to 5, 5 and 1005. *)
Lemma window_statistics_witness :
  exists node,
    insert_detect_hash_node
      (with_total_count 3 (HashNode 7 2 2 (<[5%nat := DetectTable 1 2 [DetectNode 2 5]]>
         empty_detect_table) 0 1)) 1005 initial_monitor = Some (node, initial_monitor) /\
    calculate_average node = 1 /\
    calculate_deviation (calculate_average node) 0 node =
      Some (square_sum (calculate_average node) [5; 5; 1005] / 2).
Proof.
  destruct (insert_detect_hash_node_ok [5; 5] (with_total_count 3 (HashNode 7 2 2
    (<[5%nat := DetectTable 1 2 [DetectNode 2 5]]> empty_detect_table) 0 1)) 1005
    initial_monitor) as (node & E & _ & Hr).
  - reflexivity.
  - apply (is_peak_snoc 1 [5]), (is_peak_snoc 0 []), is_peak_nil.
  - cbn [with_total_count detect_table].
    split; [by rewrite length_insert; apply empty_table_rep|].
    intros key t [(<- & <- & _)|[Hne Hl]]%list_lookup_insert_Some.
    + split; [done | done |]. apply (is_peak_snoc 1 [5]), (is_peak_snoc 0 []), is_peak_nil.
    + pose proof (proj2 empty_table_rep _ _ Hl) as Ht.
      rewrite (in_chain_snoc _ [5] 5), (in_chain_snoc _ [] 5).
      by repeat rewrite decide_False.
  - reflexivity.
  - reflexivity.
  - reflexivity.
  - by split.
  - exists node. split; [exact E|].
    assert (calculate_average node = 1) as Ha.
    { destruct Hr as [Ht Hp _ _]. unfold calculate_average. by rewrite Ht, Hp. }
    destruct (window_statistics [5; 5; 1005] node Hr ltac:(done) ltac:(done)) as [_ Hd].
    + by rewrite Ha.
    + split; [exact Ha | exact Hd].
Defined.

(** The state after one write of process 41 to block 7. *)
Lemma free_all_node_faults_witness :
  exists m, (_ ← init_hash_table; record_window [(41, 7)]) initial_monitor = Some (tt, m) /\
            free_all_node m = None.
Proof.
  destruct (record_window_spec [] [(41, 7)]
    (with_Table_header (replicate (Z.to_nat MAX_KEY) []) initial_monitor) init_window_rep)
    as (m & E & Hw & _).
  - reflexivity.
  - repeat constructor; vm_compute; congruence.
  - reflexivity.
  - vm_compute. split; discriminate.
  - exists m. split; [exact E|].
    apply (free_all_node_faults [(41, 7)] m 41 Hw); [lia | by left | vm_compute; lia].
Defined.

End HashDemo.
