(* ===== verification/Records.v ===== *)
(** * Records of processes (record.c, occupySpace.c)

    The list of malicious processes, the doubly linked list of suspects, the table of the
    space each process occupies, and the matrix of the knapsack computation. *)

From S2P Require Import Prelude Layout RangeTree Monitor Histogram.

(** ** Malicious processes *)

(** The result of the [kmalloc] is not tested. *)
Definition insert_into_malicious_process (pid : Z) : mon unit :=
  ok ← kmalloc;
  if negb ok then fault
  else modify (fun m => with_malicious_header (malicious_header m ++ [pid]) m).

(** Unlinking the first node of a pid. *)
Fixpoint unlink (pid : Z) (l : list Z) : list Z :=
  match l with
  | [] => []
  | p :: l => if p =? pid then l else p :: unlink pid l
  end.

Definition delete_from_malicious_process (pid : Z) : mon unit :=
  modify (fun m => with_malicious_header (unlink pid (malicious_header m)) m).

Fixpoint on_list (pid : Z) (l : list Z) : bool :=
  match l with
  | [] => false
  | p :: l => if p =? pid then true else on_list pid l
  end.

Definition is_in_malicious_process_list (pid : Z) : mon bool :=
  gets (fun m => on_list pid (malicious_header m)).

Definition free_all_malicious_process_list : mon unit :=
  modify (with_malicious_header []).

(** ** Suspects *)

Definition suspect_at (p : ptr) : mon suspect_process :=
  h ← gets suspects;
  deref (h !! p).

Definition set_suspect (p : ptr) (s : suspect_process) : mon unit :=
  modify (fun m => with_suspects (<[p := s]> (suspects m)) m).

(** The bound on a walk along the list: one step per node. *)
Definition suspect_fuel (m : monitor) : nat := S (size (suspects m)).

(** The last node from [p] on. *)
Fixpoint last_suspect (fuel : nat) (p : ptr) : mon ptr :=
  match fuel with
  | O => fault
  | S fuel =>
    s ← suspect_at p;
    match sp_next s with
    | None => mret p
    | Some q => last_suspect fuel q
    end
  end.

Definition insert_into_suspect_process (pid ac dev pc : Z) : mon unit :=
  ok ← kmalloc;
  if negb ok then fault
  else
    p_node ← gets (fun m => fresh (dom (suspects m)));
    _ ← set_suspect p_node (SuspectProcess pid ac dev pc None None);
    header ← gets suspect_header;
    match header with
    | None => modify (with_suspect_header (Some p_node))
    | Some h =>
      fuel ← gets suspect_fuel;
      p_curr ← last_suspect fuel h;
      curr ← suspect_at p_curr;
      _ ← set_suspect p_curr (with_sp_next (Some p_node) curr);
      node ← suspect_at p_node;
      set_suspect p_node (with_sp_prev (Some p_curr) node)
    end.

Definition kfree_suspect (p : ptr) : mon unit :=
  modify (fun m => with_suspects (delete p (suspects m)) m).

(** The loop of [delete_from_suspect_process]; only the [next] field of the previous
    node is updated. *)
Fixpoint unlink_suspect (fuel : nat) (pid : Z) (p_prev : ptr) (p_curr : option ptr) : mon unit :=
  match p_curr with
  | None => mret tt
  | Some p =>
    match fuel with
    | O => fault
    | S fuel =>
      s ← suspect_at p;
      if sp_pid s =? pid then
        prev ← suspect_at p_prev;
        _ ← set_suspect p_prev (with_sp_next (sp_next s) prev);
        kfree_suspect p
      else unlink_suspect fuel pid p (sp_next s)
    end
  end.

Definition delete_from_suspect_process (pid : Z) : mon unit :=
  header ← gets suspect_header;
  match header with
  | None => mret tt
  | Some h =>
    s ← suspect_at h;
    if sp_pid s =? pid then
      _ ← modify (with_suspect_header (sp_next s));
      kfree_suspect h
    else
      fuel ← gets suspect_fuel;
      unlink_suspect fuel pid h (Some h)
  end.

Fixpoint search_suspect (fuel : nat) (pid : Z) (p_curr : option ptr) : mon bool :=
  match p_curr with
  | None => mret false
  | Some p =>
    match fuel with
    | O => fault
    | S fuel =>
      s ← suspect_at p;
      if sp_pid s =? pid then mret true else search_suspect fuel pid (sp_next s)
    end
  end.

Definition is_in_suspect_process_list (pid : Z) : mon bool :=
  header ← gets suspect_header;
  fuel ← gets suspect_fuel;
  search_suspect fuel pid header.

Fixpoint free_suspects (fuel : nat) (p_curr : option ptr) : mon unit :=
  match p_curr with
  | None => mret tt
  | Some p =>
    match fuel with
    | O => fault
    | S fuel =>
      s ← suspect_at p;
      _ ← kfree_suspect p;
      free_suspects fuel (sp_next s)
    end
  end.

Definition free_all_suspect_process_list : mon unit :=
  header ← gets suspect_header;
  fuel ← gets suspect_fuel;
  _ ← free_suspects fuel header;
  modify (with_suspect_header None).

(** ** The matrix of the knapsack computation *)

Definition in_matrix (i j : Z) : bool :=
  (0 <=? i) && (i <? sizeV) && (0 <=? j) && (j <? sizeV).

Definition read_V (i j : Z) : mon Z :=
  if in_matrix i j then gets (fun m => V m i j) else fault.

Definition write_V (i j x : Z) : mon unit :=
  if in_matrix i j
  then modify (fun m => with_V (fun i' j' => if (i' =? i) && (j' =? j) then x else V m i' j') m)
  else fault.

(** Both loops of [zeroV], on the cells of the matrix. *)
Definition zeroV : mon unit :=
  modify (fun m => with_V (fun i j => if in_matrix i j then 0 else V m i j) m).

(** The results of the [vmalloc] of the rows are not tested. *)
Fixpoint alloc_rows (n : nat) : mon unit :=
  match n with
  | O => mret tt
  | S n => ok ← kmalloc; if negb ok then fault else alloc_rows n
  end.

Definition initV : mon unit :=
  _ ← alloc_rows (S (Z.to_nat sizeV));
  zeroV.

(** ** Occupied space *)

Definition init_spaceTable : mon unit :=
  ok ← kmalloc;
  if negb ok then fault
  else modify (with_spaceTable (replicate (Z.to_nat spaceTableVolume) [])).

Definition space_key (pid : Z) : option nat :=
  let key := Z.rem pid spaceTableVolume in
  if key <? 0 then None else Some (Z.to_nat key).

Definition find_space (pid : Z) (chain : list space) : option (nat * space) :=
  list_find (fun s => space_pid s = pid) chain.

(** [node->size = size] converts an [int] to an [unsigned long]. *)
Definition insert_into_spaceTable (pid sz : Z) : mon unit :=
  key ← deref (space_key pid);
  table ← gets spaceTable;
  chain ← deref (table !! key);
  match find_space pid chain with
  | Some (i, _) =>
    modify (with_spaceTable (<[key := <[i := Space pid (u64 sz)]> chain]> table))
  | None =>
    ok ← kmalloc;
    if negb ok then fault
    else modify (fun m => with_spaceTable
                   (<[key := chain ++ [Space pid (u64 sz)]]> table) m)
  end.

(** In megabytes, an [unsigned int]. *)
Definition get_occupySpace (pid : Z) : mon Z :=
  key ← deref (space_key pid);
  table ← gets spaceTable;
  chain ← deref (table !! key);
  match find_space pid chain with
  | Some (_, s) => mret (u32 (space_size s / byteToM))
  | None => mret 0
  end.

Definition free_spaceNode : mon unit :=
  table ← gets spaceTable;
  if bool_decide (table = []) then fault else modify (with_spaceTable []).

(** ** The list of suspects as a sequence *)

(** What a node says about a process: pid, average, deviation, pages. *)
Definition payload (s : suspect_process) : Z * Z * Z * Z :=
  (sp_pid s, averageCount s, deviation s, pageCount s).

(** [dll h prev p l]: from [p] on, whose predecessor is [prev], the nodes of [h] form a
    doubly linked list that ends in [NULL] and holds [l]. *)
Fixpoint dll (h : gmap ptr suspect_process) (prev p : option ptr)
    (l : list (ptr * (Z * Z * Z * Z))) : Prop :=
  match l with
  | [] => p = None
  | (q, d) :: l =>
    p = Some q /\ exists s, h !! q = Some s /\ payload s = d /\ sp_prev s = prev /\
      dll h (Some q) (sp_next s) l
  end.

(** The suspects of a state. *)
Definition suspect_list (m : monitor) (l : list (ptr * (Z * Z * Z * Z))) : Prop :=
  dll (suspects m) None (suspect_header m) l /\ NoDup l.*1.

Lemma dll_elem h prev p l q : dll h prev p l -> q ∈ l.*1 -> is_Some (h !! q).
Proof.
  revert prev p. induction l as [|[r d] l IH]; intros prev p H Hq; [by apply not_elem_of_nil in Hq|].
  destruct H as (-> & s & Hs & _ & _ & Hl). csimpl in Hq.
  apply elem_of_cons in Hq as [->|Hq]; [by eexists | by eapply IH].
Qed.

Lemma dll_frame h h' prev p l :
  (forall q, q ∈ l.*1 -> h' !! q = h !! q) -> dll h prev p l -> dll h' prev p l.
Proof.
  revert prev p. induction l as [|[r d] l IH]; intros prev p Hh H; [done|].
  destruct H as (-> & s & Hs & Hd & Hp & Hl). split; [done|]. exists s.
  csimpl in Hh. rewrite Hh by set_solver. repeat (split; [done|]).
  apply IH; [|done]. intros q Hq. apply Hh. set_solver.
Qed.

(** A walk along the list makes no more steps than there are nodes. *)
Lemma dll_length h prev p l : dll h prev p l -> NoDup l.*1 -> (length l <= size h)%nat.
Proof.
  intros H Hnd. rewrite <- (length_fmap fst l), <- size_dom, <- (size_list_to_set (C:=gset ptr) l.*1) by done.
  apply subseteq_size. intros q Hq%elem_of_list_to_set. apply elem_of_dom.
  by eapply dll_elem.
Qed.

Lemma suspect_list_fuel m l : suspect_list m l -> (length l < suspect_fuel m)%nat.
Proof. intros [H1 H2]. pose proof (dll_length _ _ _ _ H1 H2). unfold suspect_fuel. lia. Qed.

Lemma suspect_at_ok p s m : suspects m !! p = Some s -> suspect_at p m = Some (s, m).
Proof. intros H. unfold suspect_at. mrun. by rewrite H. Qed.

Lemma search_suspect_ok fuel pid p prev l m :
  dll (suspects m) prev p l -> (length l <= fuel)%nat ->
  search_suspect fuel pid p m = Some (bool_decide (pid ∈ (fun x => x.2.1.1.1) <$> l), m).
Proof.
  revert fuel p prev. induction l as [|[q d] l IH]; intros fuel p prev H Hf.
  { simpl in H. subst p. by destruct fuel. }
  destruct H as (-> & s & Hs & Hd & Hp & Hl). destruct fuel as [|fuel]; [simpl in Hf; lia|].
  simpl. mstep (suspect_at_ok _ _ _ Hs). subst d. csimpl.
  case_cmp.
  - rewrite bool_decide_true; [done|]. set_solver.
  - rewrite (IH fuel _ _ Hl) by (simpl in Hf; lia). do 2 f_equal.
    apply bool_decide_ext. set_solver.
Qed.

(** The last node of a list, and the list extended behind it. *)
Lemma last_suspect_ok fuel p prev l q d m :
  dll (suspects m) prev (Some p) (l ++ [(q, d)]) -> (length l < fuel)%nat ->
  last_suspect fuel p m = Some (q, m).
Proof.
  revert fuel p prev. induction l as [|[r e] l IH]; intros fuel p prev H Hf;
    (destruct fuel as [|fuel]; [simpl in Hf; lia|]);
    destruct H as ([= ->] & s & Hs & Hd & Hp & Hl); simpl; mstep (suspect_at_ok _ _ _ Hs).
  - simpl in Hl. by rewrite Hl.
  - destruct (sp_next s) as [n|] eqn:En; [|by destruct l as [|[??]?]; destruct Hl].
    apply (IH fuel n (Some r)); [done | simpl in Hf; lia].
Qed.

Lemma dll_snoc h prev p l q d s new node :
  dll h prev p (l ++ [(q, d)]) -> NoDup (l ++ [(q, d)]).*1 -> h !! q = Some s ->
  h !! new = None -> sp_next node = None -> sp_prev node = Some q ->
  dll (<[new := node]> (<[q := with_sp_next (Some new) s]> h)) prev p
    (l ++ [(q, d); (new, payload node)]).
Proof.
  intros H Hnd Hq Hnew Hn Hp. revert prev p H.
  induction l as [|[r e] l IH]; intros prev p H; simpl in *.
  - destruct H as (-> & s' & Hs & Hd & Hpr & Hl). assert (s' = s) as -> by congruence.
    split; [done|]. exists (with_sp_next (Some new) s).
    rewrite lookup_insert_ne, lookup_insert_eq by congruence.
    repeat (split; [done|]). exists node. by rewrite lookup_insert_eq.
  - destruct H as (-> & s' & Hs & Hd & Hpr & Hl). split; [done|]. exists s'.
    csimpl in Hnd. apply NoDup_cons in Hnd as [Hr Hnd].
    rewrite lookup_insert_ne by congruence.
    rewrite lookup_insert_ne by (intros ->; apply Hr; rewrite fmap_app; set_solver).
    by repeat (split; [done|]); apply IH.
Qed.

(** The new node goes to the end of the list. *)
Lemma suspect_insert_list m l pid ac dev pc :
  suspect_list m l -> memory_available m ->
  exists m' q, insert_into_suspect_process pid ac dev pc m = Some (tt, m') /\
    suspect_list m' (l ++ [(q, (pid, ac, dev, pc))]).
Proof.
  intros [Hl Hnd] Hm. set (q := fresh (dom (suspects m))).
  set (node := SuspectProcess pid ac dev pc None None).
  assert (suspects m !! q = None) as Hq by (apply not_elem_of_dom, is_fresh).
  assert (NoDup (l ++ [(q, (pid, ac, dev, pc))]).*1) as Hnd'.
  { rewrite fmap_app. apply NoDup_app. split; [done|]. split; [|apply NoDup_singleton].
    intros x Hx ->%list_elem_of_singleton.
    destruct (dll_elem _ _ _ _ _ Hl Hx) as [? ?]. simpl in *. congruence. }
  unfold insert_into_suspect_process. mstep (kmalloc_available m Hm). unfold negb. mrun.
  fold q node. set (m1 := with_suspects (<[q:=node]> (suspects m)) m).
  assert (dll (suspects m1) None (suspect_header m1) l) as Hl1.
  { eapply dll_frame; [|exact Hl]. intros x Hx. simpl. apply lookup_insert_ne. intros <-.
    destruct (dll_elem _ _ _ _ _ Hl Hx) as [? ?]. congruence. }
  destruct l as [|[r d] l0 _] using rev_ind.
  - change (suspect_header m1 = None) in Hl1. rewrite Hl1. eexists _, q. split; [done|].
    split; [|done]. split; [done|]. exists node. simpl. by rewrite lookup_insert_eq.
  - assert (exists h, suspect_header m1 = Some h) as [h Hh].
    { destruct l0 as [|[??]?]; destruct Hl1 as [-> _]; eauto. }
    assert (length l0 < suspect_fuel m1)%nat as Hf.
    { pose proof (suspect_list_fuel m1 _ (conj Hl1 Hnd)) as Hf.
      rewrite length_app in Hf. lia. }
    rewrite Hh in *. mrun. mstep (last_suspect_ok _ _ _ _ _ _ _ Hl1 Hf).
    destruct (dll_elem _ _ _ _ r Hl) as [s Es]; [rewrite fmap_app; set_solver|].
    assert (q <> r) as Hqr by congruence.
    mstep (suspect_at_ok r s m1 ltac:(simpl; by rewrite lookup_insert_ne)). mrun.
    erewrite bind_step by (apply suspect_at_ok; simpl;
      rewrite lookup_insert_ne, lookup_insert_eq by done; reflexivity).
    eexists _, q. split; [done|]. split; [|done]. rewrite <- app_assoc. simpl app.
    eapply dll_frame; [|apply (dll_snoc (suspects m) None _ l0 r d s q
      (with_sp_prev (Some r) node)); try done].
    intros x _. simpl. destruct (decide (x = q)) as [->|]; [by rewrite !lookup_insert_eq|].
    rewrite !(lookup_insert_ne _ q) by done. destruct (decide (x = r)) as [->|];
      [by rewrite !lookup_insert_eq | by rewrite !lookup_insert_ne].
Qed.

(** [insert_into_suspect_process] appends to the list of suspects, keeping both link
    directions, and [is_in_suspect_process_list] then finds exactly the recorded pids. *)
Theorem suspect_insert_ok m l pid ac dev pc :
  suspect_list m l -> memory_available m ->
  exists m' q, insert_into_suspect_process pid ac dev pc m = Some (tt, m') /\
    suspect_list m' (l ++ [(q, (pid, ac, dev, pc))]) /\
    forall p, is_in_suspect_process_list p m' =
      Some (bool_decide (p ∈ ((fun x => x.2.1.1.1) <$> l) ++ [pid]), m').
Proof.
  intros Hl Hm. destruct (suspect_insert_list m l pid ac dev pc Hl Hm) as (m' & q & E & Hs).
  exists m', q. split; [done|]. split; [done|]. intros p.
  unfold is_in_suspect_process_list. mrun.
  rewrite (search_suspect_ok _ _ _ _ _ _ (proj1 Hs)).
  - by rewrite fmap_app.
  - pose proof (suspect_list_fuel _ _ Hs). lia.
Qed.

(** ** The table of occupied space *)

#[local] Arguments find_space : simpl never.

Section find_space.
Context (p pid x : Z) (Hp : p <> pid).

Lemma find_space_cons s chain :
  snd <$> find_space p (s :: chain) =
  if decide (space_pid s = p) then Some s else snd <$> find_space p chain.
Proof.
  unfold find_space. simpl. case_decide; [done|].
  by destruct (list_find _ chain) as [[??]|].
Qed.

Lemma find_space_update chain i s :
  chain !! i = Some s -> space_pid s = pid ->
  snd <$> find_space p (<[i := Space pid x]> chain) = snd <$> find_space p chain.
Proof.
  revert i. induction chain as [|c chain IH]; intros i Hi Hs; [done|].
  destruct i as [|i]; simpl in Hi |- *; rewrite !find_space_cons.
  - injection Hi as ->. simpl. by rewrite !decide_False by congruence.
  - case_decide; [done|]. by apply IH.
Qed.

Lemma find_space_append chain :
  snd <$> find_space p (chain ++ [Space pid x]) = snd <$> find_space p chain.
Proof.
  induction chain as [|c chain IH]; simpl; rewrite find_space_cons.
  - simpl. by rewrite decide_False by congruence.
  - rewrite find_space_cons, IH. done.
Qed.
End find_space.

Lemma find_space_new pid x chain :
  find_space pid chain = None ->
  snd <$> find_space pid (chain ++ [Space pid x]) = Some (Space pid x).
Proof.
  intros H. unfold find_space in *. rewrite list_find_app_r by done. simpl.
  by rewrite decide_True.
Qed.

Lemma find_space_old pid x chain i s :
  find_space pid chain = Some (i, s) ->
  snd <$> find_space pid (<[i := Space pid x]> chain) = Some (Space pid x).
Proof.
  intros (Hi & Hs & Hbefore)%list_find_Some. unfold find_space.
  assert (list_find (fun s => space_pid s = pid) (<[i := Space pid x]> chain) =
    Some (i, Space pid x)) as ->; [|done].
  apply list_find_Some. rewrite list_lookup_insert_eq by by apply lookup_lt_Some in Hi.
  split; [done|]. split; [done|]. intros j n Hj Hlt.
  rewrite list_lookup_insert_ne in Hj by lia. by eapply Hbefore.
Qed.

Lemma space_key_ok pid : 0 <= pid ->
  exists key, space_key pid = Some key /\ (key < Z.to_nat spaceTableVolume)%nat.
Proof.
  intros H. pose proof (Z.rem_bound_pos pid spaceTableVolume H ltac:(done)) as [H1 H2].
  unfold space_key. rewrite (proj2 (Z.ltb_ge (Z.rem pid spaceTableVolume) 0)) by done.
  eexists. split; [done|]. unfold spaceTableVolume in *. lia.
Qed.

(** The entry of a process, in megabytes. *)
Definition space_of (chain : list space) (pid : Z) : Z :=
  match snd <$> find_space pid chain with
  | Some s => u32 (space_size s / byteToM)
  | None => 0
  end.

Lemma get_occupySpace_ok pid key chain m :
  space_key pid = Some key -> spaceTable m !! key = Some chain ->
  get_occupySpace pid m = Some (space_of chain pid, m).
Proof.
  intros Hk Hc. unfold get_occupySpace, space_of. rewrite Hk. mrun. rewrite Hc. mrun.
  by destruct (find_space pid chain) as [[??]|].
Qed.

(** Replacing the chain of [pid] by one with a new entry for it. *)
Lemma space_put m pid sz key chain chain' :
  space_key pid = Some key -> spaceTable m !! key = Some chain ->
  snd <$> find_space pid chain' = Some (Space pid (u64 sz)) ->
  (forall p, p <> pid -> snd <$> find_space p chain' = snd <$> find_space p chain) ->
  let m' := with_spaceTable (<[key := chain']> (spaceTable m)) m in
  get_occupySpace pid m' = Some (u32 (u64 sz / byteToM), m') /\
  forall p x, p <> pid -> get_occupySpace p m = Some (x, m) -> get_occupySpace p m' = Some (x, m').
Proof.
  intros Hk Hc Hnew Hold m'.
  assert (spaceTable m' !! key = Some chain') as Hc'.
  { simpl. by apply list_lookup_insert_eq, lookup_lt_Some with chain. }
  split.
  - rewrite (get_occupySpace_ok pid key chain') by done. unfold space_of. by rewrite Hnew.
  - intros p x Hp. destruct (space_key p) as [kp|] eqn:Hkp; [|by unfold get_occupySpace; rewrite Hkp].
    destruct (decide (kp = key)) as [->|Hne].
    + rewrite (get_occupySpace_ok p key chain), (get_occupySpace_ok p key chain') by done.
      unfold space_of. rewrite Hold by done. by intros [= ->].
    + destruct (spaceTable m !! kp) as [c|] eqn:Hckp.
      * assert (spaceTable m' !! kp = Some c) as Hc2 by (simpl; by rewrite list_lookup_insert_ne).
        rewrite (get_occupySpace_ok p kp c m), (get_occupySpace_ok p kp c m') by done.
        by intros [= ->].
      * unfold get_occupySpace. rewrite Hkp. mrun. by rewrite Hckp.
Qed.

(** The space recorded for a process is what [get_occupySpace] returns, in whole
    megabytes, and the entries of other processes stay; but a file of 2 GB or more, whose
    size has become a negative [int], is recorded as nearly 4 petabytes. *)
Theorem space_table_roundtrip m pid sz :
  length (spaceTable m) = Z.to_nat spaceTableVolume -> memory_available m -> 0 <= pid ->
  -2147483648 <= sz < 2147483648 ->
  exists m', insert_into_spaceTable pid sz m = Some (tt, m') /\
    get_occupySpace pid m' =
      Some ((if sz <? 0 then 4294967296 else 0) + sz / byteToM, m') /\
    forall p x, p <> pid ->
      get_occupySpace p m = Some (x, m) -> get_occupySpace p m' = Some (x, m').
Proof.
  intros Hlen Hm Hpid Hsz. destruct (space_key_ok pid Hpid) as (key & Hk & Hlt).
  rewrite <- Hlen in Hlt. destruct (lookup_lt_is_Some_2 _ _ Hlt) as [chain Hc].
  assert (u32 (u64 sz / byteToM) = (if sz <? 0 then 4294967296 else 0) + sz / byteToM) as <-.
  { unfold u32, u64, byteToM. case_cmp; mlia. }
  unfold insert_into_spaceTable. rewrite Hk. mrun. rewrite Hc. mrun.
  destruct (find_space pid chain) as [[i s]|] eqn:Hf.
  - eexists. split; [done|]. apply (space_put m pid sz key chain); [done..| |].
    + by eapply find_space_old.
    + intros p Hp. apply list_find_Some in Hf as (Hi & Hs & _). by eapply find_space_update.
  - mstep (kmalloc_available m Hm). eexists. split; [done|].
    apply (space_put m pid sz key chain); [done..| |].
    + by apply find_space_new.
    + intros p Hp. by apply find_space_append.
Qed.

(** ** Concrete records *)

Module RecordDemo.

Definition demo_suspect : monitor :=
  with_suspects {[ 1%positive := SuspectProcess 41 3 5 7 None None ]}
    (with_suspect_header (Some 1%positive) initial_monitor).

Lemma suspect_insert_ok_witness :
  exists m' q, insert_into_suspect_process 42 1 2 3 demo_suspect = Some (tt, m') /\
    suspect_list m' [(1%positive, (41, 3, 5, 7)); (q, (42, 1, 2, 3))] /\
    is_in_suspect_process_list 41 m' = Some (true, m') /\
    is_in_suspect_process_list 43 m' = Some (false, m').
Proof.
  destruct (suspect_insert_ok demo_suspect [(1%positive, (41, 3, 5, 7))] 42 1 2 3)
    as (m' & q & E & Hl & Hin).
  - split; [split; [done|]; by eexists | apply NoDup_singleton].
  - reflexivity.
  - exists m', q. split; [exact E|]. split; [exact Hl|]. split; [exact (Hin 41) | exact (Hin 43)].
Defined.

Definition demo_spaces : monitor :=
  with_spaceTable (<[1%nat := [Space 41 3145728]]> (replicate 10 [])) initial_monitor.

(** A file of 3 GB arrives as -1073741824. *)
Lemma space_table_roundtrip_witness :
  exists m', insert_into_spaceTable 51 (-1073741824) demo_spaces = Some (tt, m') /\
    get_occupySpace 51 m' = Some (4294966272, m') /\
    get_occupySpace 41 m' = Some (3, m').
Proof.
  destruct (space_table_roundtrip demo_spaces 51 (-1073741824)) as (m' & E & H1 & H2);
    [reflexivity | reflexivity | lia | lia |].
  exists m'. split; [exact E|]. split; [exact H1|]. apply H2; [lia | reflexivity].
Defined.

End RecordDemo.
