(* ===== verification/KnapSack.v ===== *)
(** * Choice of the processes to migrate (detect.c)

    [knapSack] fills the matrix of the 0-1 knapsack problem, whose items are the suspects
    with the space they occupy as weight and average times deviation as value, and moves
    a best selection to the list of malicious processes; [record_malice_process] chooses
    greedily instead. *)

From S2P Require Import Prelude Layout RangeTree Monitor Histogram.
From S2P Require Import HashTable Records.

(** ** The code *)

(** [int weight = get_occupySpace(pid)] *)
Definition weight_of (pid : Z) : mon Z :=
  w ← get_occupySpace pid;
  mret (i32 w).

Definition value_of (s : suspect_process) : Z := u64 (averageCount s * deviation s).

(** The inner loop: [n] columns from [j] on of row [i]. *)
Fixpoint fill_row (i weight value : Z) (n : nat) (j : Z) : mon unit :=
  match n with
  | O => mret tt
  | S n =>
    _ ← (if j <? weight then
           above ← read_V (i - 1) j;
           write_V i j above
         else
           above ← read_V (i - 1) j;
           rest ← read_V (i - 1) (j - weight);
           write_V i j (maxValue above (i32 (rest + value))));
    fill_row i weight value n (j + 1)
  end.

(** The outer loop, row [i] for the suspect [curr]; gives the last suspect and the
    number of suspects. *)
Fixpoint fill_table (fuel : nat) (capacity i : Z) (curr tail : option ptr)
  : mon (option ptr * Z) :=
  match curr with
  | None => mret (tail, i - 1)
  | Some p =>
    match fuel with
    | O => fault
    | S fuel =>
      s ← suspect_at p;
      weight ← weight_of (sp_pid s);
      _ ← fill_row i weight (value_of s) (Z.to_nat capacity) 1;
      fill_table fuel capacity (i + 1) (sp_next s) (Some p)
    end
  end.

(** The [while (i > 0)] loop, [n] being [i]: back along the list, the row's suspect is
    selected when its row improves on the one above. *)
Fixpoint select_suspects (n : nat) (j : Z) (curr : option ptr) : mon unit :=
  match n with
  | O => mret tt
  | S n' =>
    let i := Z.of_nat n in
    here ← read_V i j;
    above ← read_V (i - 1) j;
    p ← deref curr;
    s ← suspect_at p;
    if here >? above then
      is_in_malicious ← is_in_malicious_process_list (sp_pid s);
      weight ← weight_of (sp_pid s);
      if negb is_in_malicious then
        let j' := i32 (j - weight) in
        if j' <? 0 then mret tt
        else
          _ ← insert_into_malicious_process (sp_pid s);
          _ ← modify (fun m => with_memoryCap (i32 (memoryCap m - weight)) m);
          select_suspects n' j' (sp_prev s)
      else select_suspects n' j (sp_prev s)
    else select_suspects n' j (sp_prev s)
  end.

Definition knapSack (capacity : Z) : mon Z :=
  header ← gets suspect_header;
  match header with
  | None => mret (-1)
  | Some _ =>
    fuel ← gets suspect_fuel;
    '(tail, len) ← fill_table fuel capacity 1 header None;
    _ ← select_suspects (Z.to_nat len) capacity tail;
    read_V len capacity
  end.

(** ** The reference: 0-1 knapsack *)

(** Items are pairs of a weight and a value. *)
Fixpoint best (items : list (Z * Z)) (cap : Z) : Z :=
  match items with
  | [] => 0
  | (w, v) :: items =>
    if cap <? w then best items cap
    else Z.max (best items cap) (best items (cap - w) + v)
  end.

Definition total_weight (items : list (Z * Z)) : Z := sum_of fst items.
Definition total_value (items : list (Z * Z)) : Z := sum_of snd items.

(** [best] is the largest value of a selection that fits. *)
Lemma best_upper items cap sel :
  Forall (fun x => 0 <= x.1) items -> sublist sel items -> total_weight sel <= cap ->
  total_value sel <= best items cap.
Proof.
  unfold total_weight, total_value. intros Hw Hs. revert cap Hw.
  induction Hs as [|[w v] sel items Hs IH|[w v] sel items Hs IH]; intros cap Hw Hc; simpl in *.
  - done.
  - apply Forall_cons in Hw as [Hw0 Hw]. simpl in Hw0.
    assert (0 <= sum_of fst sel).
    { apply sum_of_nonneg. apply Forall_forall. intros x Hx.
      rewrite Forall_forall in Hw. apply Hw. by eapply elem_of_submseteq, sublist_submseteq. }
    rewrite (proj2 (Z.ltb_ge cap w)) by lia.
    specialize (IH (cap - w) Hw ltac:(lia)). lia.
  - apply Forall_cons in Hw as [Hw0 Hw]. specialize (IH cap Hw Hc).
    destruct (cap <? w); lia.
Qed.

Lemma best_nonneg items cap : Forall (fun x => 0 <= x.2) items -> 0 <= best items cap.
Proof.
  revert cap. induction items as [|[w v] items IH]; intros cap H; simpl; [done|].
  apply Forall_cons in H as [Hv H]. specialize (IH cap H). destruct (cap <? w); lia.
Qed.

Lemma best_le_total items cap :
  Forall (fun x => 0 <= x.2) items -> best items cap <= total_value items.
Proof.
  unfold total_value. revert cap.
  induction items as [|[w v] items IH]; intros cap H; simpl; [done|].
  apply Forall_cons in H as [Hv H]. simpl in Hv.
  pose proof (IH cap H). pose proof (IH (cap - w) H). destruct (cap <? w); lia.
Qed.

Lemma best_zero items : Forall (fun x => 1 <= x.1) items -> best items 0 = 0.
Proof.
  induction items as [|[w v] items IH]; intros H; simpl; [done|].
  apply Forall_cons in H as [Hw H]. simpl in Hw.
  rewrite (proj2 (Z.ltb_lt 0 w)) by lia. by apply IH.
Qed.

(** ** Filling the matrix *)

Lemma read_V_ok i j m : 0 <= i < sizeV -> 0 <= j < sizeV -> read_V i j m = Some (V m i j, m).
Proof.
  intros [H1 H2] [H3 H4]. unfold read_V, in_matrix.
  rewrite (proj2 (Z.leb_le 0 i) H1), (proj2 (Z.ltb_lt i sizeV) H2),
    (proj2 (Z.leb_le 0 j) H3), (proj2 (Z.ltb_lt j sizeV) H4). done.
Qed.

Lemma write_V_ok i j x m : 0 <= i < sizeV -> 0 <= j < sizeV ->
  write_V i j x m =
  Some (tt, with_V (fun i' j' => if (i' =? i) && (j' =? j) then x else V m i' j') m).
Proof.
  intros [H1 H2] [H3 H4]. unfold write_V, in_matrix.
  rewrite (proj2 (Z.leb_le 0 i) H1), (proj2 (Z.ltb_lt i sizeV) H2),
    (proj2 (Z.leb_le 0 j) H3), (proj2 (Z.ltb_lt j sizeV) H4). done.
Qed.

(** The value of a cell, from the row above it. *)
Definition cell (above : Z -> Z) (w v j : Z) : Z :=
  if j <? w then above j else Z.max (above j) (above (j - w) + v).

Lemma with_V_twice U W m : with_V U (with_V W m) = with_V U m.
Proof. done. Qed.

Section row.
Context (i w v capacity : Z).
Context (Hi : 1 <= i < sizeV) (Hcap : 0 <= capacity < sizeV) (Hw : 1 <= w) (Hv : 0 <= v).

(** The row above, as [best] bounds it. *)
Definition row_bounded (m : monitor) : Prop :=
  forall j, 0 <= j <= capacity -> 0 <= V m (i - 1) j /\ V m (i - 1) j + v < 2147483648.

Lemma fill_cell m j :
  row_bounded m -> 1 <= j <= capacity ->
  (if j <? w then above ← read_V (i - 1) j; write_V i j above
   else above ← read_V (i - 1) j; rest ← read_V (i - 1) (j - w);
        write_V i j (maxValue above (i32 (rest + v)))) m =
  Some (tt, with_V (fun i' j' => if (i' =? i) && (j' =? j)
                                 then cell (V m (i - 1)) w v j else V m i' j') m).
Proof.
  intros Hrow Hj. unfold cell. case_cmp.
  - mstep (read_V_ok (i - 1) j m ltac:(lia) ltac:(lia)). by rewrite write_V_ok by lia.
  - mstep (read_V_ok (i - 1) j m ltac:(lia) ltac:(lia)).
    mstep (read_V_ok (i - 1) (j - w) m ltac:(lia) ltac:(lia)).
    destruct (Hrow (j - w)) as [? ?]; [lia|]. rewrite write_V_ok, i32_small by lia.
    unfold maxValue. do 3 f_equal. destruct (Z.gtb_spec (V m (i - 1) j) (V m (i - 1) (j - w) + v));
      [rewrite Z.max_l by lia | rewrite Z.max_r by lia]; done.
Qed.

Lemma fill_row_ok n j m :
  row_bounded m -> 1 <= j -> j + Z.of_nat n = capacity + 1 ->
  exists U, fill_row i w v n j m = Some (tt, with_V U m) /\
    (forall i' j', i' <> i -> U i' j' = V m i' j') /\
    (forall j', j' < j -> U i j' = V m i j') /\
    (forall j', j <= j' <= capacity -> U i j' = cell (V m (i - 1)) w v j').
Proof.
  revert j m. induction n as [|n IH]; intros j m Hrow Hj Hn.
  { exists (V m). split; [by destruct m|]. repeat split; intros; try done. lia. }
  simpl. mstep (fill_cell m j Hrow ltac:(lia)).
  set (m1 := with_V _ m).
  assert (forall j', V m1 (i - 1) j' = V m (i - 1) j') as Habove.
  { intros j'. simpl. rewrite (proj2 (Z.eqb_neq (i - 1) i)) by lia. done. }
  destruct (IH (j + 1) m1) as (U & E & Hother & Hleft & Hright); [|lia|lia|].
  { intros j' Hj'. rewrite Habove. by apply Hrow. }
  exists U. split; [by rewrite E|]. repeat split.
  - intros i' j' Hi'. rewrite Hother by done. simpl.
    rewrite (proj2 (Z.eqb_neq i' i)) by done. done.
  - intros j' Hj'. rewrite Hleft by lia. simpl.
    rewrite Z.eqb_refl, (proj2 (Z.eqb_neq j' j)) by lia. done.
  - intros j' Hj'. destruct (decide (j' = j)) as [->|Hne].
    + rewrite Hleft by lia. simpl. by rewrite !Z.eqb_refl.
    + rewrite Hright by lia. unfold cell. by rewrite !Habove.
Qed.
End row.

(** ** Items of the suspects *)

(** The weight [weight_of] reads from the table of spaces. *)
Definition space_weight (table : list (list space)) (pid : Z) : option Z :=
  key ← space_key pid;
  chain ← table !! key;
  Some (i32 (space_of chain pid)).

Lemma weight_of_ok pid w m :
  space_weight (spaceTable m) pid = Some w -> weight_of pid m = Some (w, m).
Proof.
  unfold space_weight. intros H. destruct (space_key pid) as [key|] eqn:Hk; [|done].
  simpl in H. destruct (spaceTable m !! key) as [chain|] eqn:Hc; [|done].
  injection H as <-. unfold weight_of. by mstep (get_occupySpace_ok _ _ _ _ Hk Hc).
Qed.

(** [entry_rep table x e]: suspect [x] has the pid and the item [e]. *)
Definition entry_rep (table : list (list space)) (x : ptr * (Z * Z * Z * Z))
    (e : Z * (Z * Z)) : Prop :=
  let '(pid, ac, dev, _) := x.2 in
  e.1 = pid /\ space_weight table pid = Some e.2.1 /\ e.2.2 = u64 (ac * dev).

(** Row [k] solves the problem of the first [k] items, for every capacity. *)
Definition rows_ok (U : Z -> Z -> Z) (capacity : Z) (items : list (Z * Z)) : Prop :=
  forall k j, (k <= length items)%nat -> 0 <= j <= capacity ->
    U (Z.of_nat k) j = best (rev (take k items)) j.

Lemma rows_ok_snoc U U' capacity items w v :
  rows_ok U capacity items ->
  (forall i j, i <> Z.of_nat (length items) + 1 -> U' i j = U i j) ->
  (forall j, 0 <= j <= capacity ->
     U' (Z.of_nat (length items) + 1) j = cell (U (Z.of_nat (length items))) w v j) ->
  1 <= w ->
  rows_ok U' capacity (items ++ [(w, v)]).
Proof.
  intros HU Hother Hrow Hw k j Hk Hj. rewrite length_app in Hk. simpl in Hk.
  destruct (decide (k = S (length items))) as [->|Hne].
  - rewrite Nat2Z.inj_succ. unfold Z.succ. rewrite Hrow by done.
    rewrite take_ge by (rewrite length_app; simpl; lia).
    rewrite rev_app_distr. simpl. unfold cell.
    rewrite (HU _ j), firstn_all by lia. case_cmp; [done|].
    by rewrite (HU _ (j - w)), firstn_all by lia.
  - rewrite Hother, take_app_le by lia. by apply HU; [lia|].
Qed.

Lemma sum_of_rev {A} (f : A -> Z) l : sum_of f (rev l) = sum_of f l.
Proof.
  induction l as [|x l IH]; [done|]. simpl rev. rewrite sum_of_app, IH. simpl. lia.
Qed.

Lemma sublist_rev_fmap {A B} (f : A -> B) (l k : list A) :
  sublist l k -> sublist (rev (f <$> l)) (rev (f <$> k)).
Proof.
  induction 1; csimpl; [done | by apply sublist_app | by apply sublist_inserts_r].
Qed.

Section table.
Context (capacity : Z) (Hcap : 0 <= capacity < sizeV).

Lemma best_bounds items c :
  Forall (fun x => 0 <= x.2) items -> 0 <= best (rev items) c <= total_value items.
Proof.
  intros Hv. assert (Forall (fun x : Z * Z => 0 <= x.2) (rev items)) as Hr by by apply Forall_rev.
  pose proof (best_nonneg (rev items) c Hr). pose proof (best_le_total (rev items) c Hr) as Hb.
  unfold total_value in *. rewrite sum_of_rev in Hb. lia.
Qed.

(** The last pointer of a list, [d] for the empty one. *)
Definition last_ptr (l : list (ptr * (Z * Z * Z * Z))) (d : option ptr) : option ptr :=
  match last l with Some x => Some x.1 | None => d end.

Lemma last_ptr_cons q d l t : last_ptr ((q, d) :: l) t = last_ptr l (Some q).
Proof.
  unfold last_ptr. destruct l as [|x l]; [done|].
  change (last ((q, d) :: x :: l)) with (last (x :: l)).
  destruct (last (x :: l)) eqn:E; [done|]. by apply last_None in E.
Qed.

Lemma last_ptr_snoc l q d t : last_ptr (l ++ [(q, d)]) t = Some q.
Proof. unfold last_ptr. by rewrite last_snoc. Qed.

Lemma fill_table_ok fuel l es h prev curr tail items m :
  dll h prev curr l -> h = suspects m -> Forall2 (entry_rep (spaceTable m)) l es ->
  Forall (fun e => 1 <= e.2.1 /\ 0 <= e.2.2) es ->
  Forall (fun x => 0 <= x.2) items ->
  total_value items + total_value es.*2 < 2147483648 ->
  Z.of_nat (length items + length es) < sizeV ->
  (length l <= fuel)%nat ->
  rows_ok (V m) capacity items -> (forall i, V m i 0 = 0) ->
  exists U, fill_table fuel capacity (Z.of_nat (length items) + 1) curr tail m =
      Some ((last_ptr l tail, Z.of_nat (length (items ++ es.*2))), with_V U m) /\
    rows_ok U capacity (items ++ es.*2).
Proof.
  intros Hd -> Hes. revert fuel prev curr tail items m Hd Hes.
  induction l as [|[q d] l IH] in es |- *; intros fuel prev curr tail items m Hd Hes Hpos Hval Htot Hlen Hf HU H0;
    inversion Hes as [|? [pid [w v]] ? es' He Hes']; subst; clear Hes.
  { simpl in Hd. subst curr. exists (V m). csimpl. rewrite app_nil_r.
    split; [|done]. destruct fuel; simpl; unfold mret, mon_ret; destruct m; simpl; repeat f_equal; lia. }
  destruct Hd as (-> & s & Hs & Hpay & _ & Hd).
  destruct fuel as [|fuel]; [simpl in Hf; lia|].
  subst d. destruct He as (Hpid & Hw & Hv). csimpl in *. subst pid.
  inversion_clear Hpos as [|?? [Hw1 Hv0] Hpos']. simpl in Hw1, Hv0.
  unfold total_value in Htot. simpl in Htot.
  mstep (suspect_at_ok _ _ _ Hs). mstep (weight_of_ok _ _ _ Hw).
  fold (total_value items) in Htot. fold (total_value es'.*2) in Htot.
  replace (value_of s) with v by done.
  assert (0 <= total_value es'.*2) as Hes0.
  { apply sum_of_nonneg. rewrite Forall_fmap. eapply Forall_impl; [exact Hpos'|]. simpl. tauto. }
  destruct (fill_row_ok (Z.of_nat (length items) + 1) w v capacity ltac:(simpl in Hlen; lia) Hcap Hw1 Hv0
    (Z.to_nat capacity) 1 m) as (U & E & Hother & Hleft & Hright).
  { intros j Hj. rewrite Z.add_simpl_r, HU, firstn_all by lia.
    pose proof (best_bounds items j Hval). lia. }
  { lia. }
  { lia. }
  mstep E.
  destruct (IH es' fuel (Some q) (sp_next s) (Some q) (items ++ [(w, v)]) (with_V U m))
    as (U' & E' & HU'); [done | done | done | | | | | | |].
  - by apply Forall_app; split; [|constructor].
  - unfold total_value in *. rewrite sum_of_app. simpl. lia.
  - rewrite length_app. simpl in Hlen |- *. lia.
  - simpl in Hf. lia.
  - apply (rows_ok_snoc (V m)); [done | by intros; apply Hother | | done].
    intros j Hj. destruct (decide (j = 0)) as [->|Hj0].
    + unfold cell. rewrite (proj2 (Z.ltb_lt 0 w)), H0 by lia. simpl.
      by rewrite Hleft, H0 by lia.
    + rewrite Hright by lia. by rewrite Z.add_simpl_r.
  - intros i. destruct (decide (i = Z.of_nat (length items) + 1)) as [->|Hi]; simpl.
    + by rewrite Hleft, H0 by lia.
    + by rewrite Hother, H0.
  - exists U'. rewrite <- app_assoc in *. split; [|done].
    rewrite last_ptr_cons. rewrite length_app in E'. simpl in E'.
    replace (Z.of_nat (length items) + 1 + 1) with (Z.of_nat (length items + 1) + 1) by lia.
    exact E'.
Qed.
End table.

(** ** Selecting the suspects *)

Lemma on_list_spec pid l : on_list pid l = bool_decide (pid ∈ l).
Proof.
  induction l as [|p l IH]; simpl; [done|]. case_cmp.
  - subst. rewrite bool_decide_true; [done | by left].
  - rewrite IH. apply bool_decide_ext. set_solver.
Qed.

(** The predecessor field of a node inside the list. *)
Lemma dll_prev h prev p l0 q d l1 :
  dll h prev p (l0 ++ (q, d) :: l1) ->
  exists s, h !! q = Some s /\ payload s = d /\ sp_prev s = last_ptr l0 prev.
Proof.
  revert prev p. induction l0 as [|[r e] l0 IH]; intros prev p H.
  - destruct H as (_ & s & Hs & Hd & Hp & _). by exists s.
  - destruct H as (_ & s & _ & _ & _ & H). rewrite last_ptr_cons. by eapply IH.
Qed.

Lemma best_step w v items j :
  (best ((w, v) :: items) j >? best items j) = true ->
  w <= j /\ best ((w, v) :: items) j = best items (j - w) + v.
Proof. simpl. intros H. case_cmp; bool_hyps; lia. Qed.

Lemma best_skip w v items j :
  (best ((w, v) :: items) j >? best items j) = false ->
  best ((w, v) :: items) j = best items j.
Proof. simpl. intros H. case_cmp; bool_hyps; lia. Qed.

(** What a selection of suspects does to the state. *)
Definition selected (m : monitor) (sel : list (Z * (Z * Z))) (m' : monitor) : Prop :=
  m' = with_malicious_header (malicious_header m ++ (rev sel).*1)
         (with_memoryCap (memoryCap m - total_weight sel.*2) m).

Section select.
Context (capacity : Z) (Hcap : 0 <= capacity < sizeV).

(** The state the selection runs on: the matrix is filled, the suspects are not yet
    malicious. *)
Record selectable (m : monitor) (l0 : list (ptr * (Z * Z * Z * Z))) (es : list (Z * (Z * Z)))
    (j : Z) : Prop := {
  sel_list : exists hd l1, dll (suspects m) None hd (l0 ++ l1);
  sel_entries : Forall2 (entry_rep (spaceTable m)) l0 es;
  sel_rows : forall k i, (k <= length es)%nat -> 0 <= i <= capacity ->
    V m (Z.of_nat k) i = best (rev (take k es.*2)) i;
  sel_new : Forall (fun e => e.1 ∉ malicious_header m) es;
  sel_nodup : NoDup es.*1;
  sel_pos : Forall (fun e => 1 <= e.2.1) es;
  sel_room : 0 <= j <= capacity;
  sel_cap : j <= memoryCap m < 2147483648;
  sel_mem : memory_available m;
  sel_len : Z.of_nat (length es) < sizeV;
}.

Lemma selectable_skip m l0 x es e j :
  selectable m (l0 ++ [x]) (es ++ [e]) j -> selectable m l0 es j.
Proof.
  intros [(hd & l1 & Hd) Hes Hrows Hnew Hnd Hpos Hroom Hc Hm Hlen].
  rewrite length_app in Hrows, Hlen. simpl in Hlen.
  rewrite fmap_app in Hnd. apply NoDup_app in Hnd as (Hnd & _ & _).
  apply Forall_app in Hnew as [Hnew _]. apply Forall_app in Hpos as [Hpos _].
  apply Forall2_app_inv in Hes as [Hes _].
  2: { apply Forall2_length in Hes. rewrite !length_app in Hes. simpl in Hes. lia. }
  split; try done; [|  | lia].
  - exists hd, (x :: l1). by rewrite <- app_assoc in Hd.
  - intros k i Hk Hi. rewrite Hrows, fmap_app by (simpl; lia). rewrite take_app_le; [done|]. by rewrite length_fmap.
Qed.

Lemma selectable_take m l0 x es pid w v j :
  selectable m (l0 ++ [x]) (es ++ [(pid, (w, v))]) j -> w <= j ->
  selectable (with_memoryCap (memoryCap m - w)
    (with_malicious_header (malicious_header m ++ [pid]) m)) l0 es (j - w).
Proof.
  intros H Hj. pose proof (selectable_skip _ _ _ _ _ _ H) as [? ? ? Hnew ? ? ? ? ? ?].
  destruct H as [_ _ _ _ Hnd Hpos _ _ _ _].
  apply Forall_app in Hpos as [_ Hpos]. inversion Hpos as [|?? Hw _]; subst. simpl in Hw.
  split; try done; simpl; try lia.
  rewrite Forall_forall in Hnew |- *. intros e He. rewrite not_elem_of_app.
  split; [by apply Hnew|]. intros Heq%list_elem_of_singleton.
  rewrite fmap_app in Hnd. apply NoDup_app in Hnd as (_ & Hnd & _). eapply (Hnd e.1).
  - by apply list_elem_of_fmap_2.
  - rewrite Heq. by left.
Qed.

(** The node the loop looks at, and the two cells it compares. *)
Lemma select_reads m l0 q d es pid w v j :
  selectable m (l0 ++ [(q, d)]) (es ++ [(pid, (w, v))]) j ->
  let n := Z.of_nat (S (length es)) in
  read_V n j m = Some (best ((w, v) :: rev es.*2) j, m) /\
  read_V (n - 1) j m = Some (best (rev es.*2) j, m) /\
  exists s, suspect_at q m = Some (s, m) /\ sp_pid s = pid /\
    sp_prev s = last_ptr l0 None /\ weight_of pid m = Some (w, m) /\
    is_in_malicious_process_list pid m = Some (false, m).
Proof.
  intros [(hd & l1 & Hd) Hes Hrows Hnew _ _ Hroom _ _ Hlen] n.
  rewrite length_app in Hrows, Hlen. simpl in Hlen.
  split; [|split].
  - rewrite read_V_ok by lia. unfold n. rewrite Hrows, fmap_app by (simpl; lia).
    rewrite take_ge by (rewrite length_app, length_fmap; simpl; lia).
    by rewrite rev_app_distr.
  - rewrite read_V_ok by lia. replace (n - 1) with (Z.of_nat (length es)) by lia.
    rewrite Hrows, fmap_app by lia. rewrite take_app_le, take_ge by (rewrite length_fmap; lia). done.
  - rewrite <- app_assoc in Hd. destruct (dll_prev _ _ _ _ _ _ _ Hd) as (s & Hs & Hp & Hprev).
    apply Forall2_app_inv in Hes as [_ He].
    2: { apply Forall2_length in Hes. rewrite !length_app in Hes. simpl in Hes. lia. }
    subst d. inversion He as [|?? ? ? He1 _]; subst. destruct He1 as (Hpid & Hw & Hv).
    simpl in *. subst pid.
    exists s. split; [by apply suspect_at_ok|]. repeat split; try done.
    + by apply weight_of_ok.
    + apply Forall_app in Hnew as [_ Hnew]. inversion Hnew; subst. simpl in *.
      unfold is_in_malicious_process_list, gets. rewrite on_list_spec.
      by rewrite bool_decide_false.
Qed.


(** The selection has the value the matrix promises and fits into the capacity. *)
Lemma select_ok m l0 es j :
  selectable m l0 es j ->
  exists sel m', select_suspects (length es) j (last_ptr l0 None) m = Some (tt, m') /\
    selected m sel m' /\ sublist sel es /\
    total_weight sel.*2 <= j /\ total_value sel.*2 = best (rev es.*2) j.
Proof.
  revert m l0 j. induction es as [|[pid [w v]] es IH] using rev_ind; intros m l0 j H.
  { exists [], m. split; [done|]. destruct (sel_room _ _ _ _ H). unfold selected.
    rewrite app_nil_r, Z.sub_0_r. by destruct m. }
  pose proof (sel_entries _ _ _ _ H) as Hes.
  apply Forall2_app_inv_r in Hes as (l & lx & Hl & Hx & ->).
  inversion Hx as [|[q d] ? ? ? _ Hnil]; subst. inversion Hnil; subst. clear Hx Hnil Hl.
  destruct (select_reads m l q d es pid w v j H) as (R1 & R2 & s & Hs & Hpid & Hprev & Hw & Hin).
  rewrite length_app, Nat.add_1_r, last_ptr_snoc.
  cbn [select_suspects]. mstep R1. mstep R2. mrun. mstep Hs. rewrite Hpid, Hprev.
  rewrite fmap_app, rev_app_distr. change (rev [(pid, (w, v))].*2 ++ rev es.*2)
    with ((w, v) :: rev es.*2).
  destruct (best ((w, v) :: rev es.*2) j >? best (rev es.*2) j) eqn:Hgt.
  - apply best_step in Hgt as [Hwj ->]. mstep Hin. mstep Hw. unfold negb.
    destruct (sel_room _ _ _ _ H) as [? ?]. destruct (sel_cap _ _ _ _ H) as [? ?].
    pose proof (selectable_take _ _ _ _ _ _ _ _ H Hwj) as H'.
    assert (0 <= w) as Hw0.
    { pose proof (sel_pos _ _ _ _ H) as Hp. apply Forall_app in Hp as [_ Hp].
      inversion Hp; subst; simpl in *; lia. }
    rewrite (i32_small (j - w)) by (unfold sizeV in *; lia).
    rewrite (proj2 (Z.ltb_ge (j - w) 0)) by lia.
    unfold insert_into_malicious_process.
    erewrite bind_step; [|by mstep (kmalloc_available m (sel_mem _ _ _ _ H))]. mrun.
    rewrite (i32_small (memoryCap _ - w)) by (simpl; unfold sizeV in *; lia).
    destruct (IH _ l (j - w) H') as (sel & m' & E & Hsel & Hsub & Hwt & Hval).
    exists (sel ++ [(pid, (w, v))]), m'. split; [exact E|].
    unfold selected, total_weight, total_value in *.
    rewrite fmap_app, !sum_of_app, rev_app_distr. csimpl. split; [|split; [|split]].
    + rewrite Hsel, Z.add_0_r, (Z.add_comm (sum_of fst sel.*2) w), Z.sub_add_distr.
      cbn [malicious_header with_memoryCap with_malicious_header]. by rewrite <- app_assoc.
    + by apply sublist_app.
    + lia.
    + lia.
  - rewrite (best_skip _ _ _ _ Hgt).
    destruct (IH m l j (selectable_skip _ _ _ _ _ _ H)) as (sel & m' & E & Hsel & Hsub & Hwt & Hval).
    exists sel, m'. split; [exact E|]. split; [done|]. split; [by apply sublist_inserts_r | done].
Qed.
End select.

(** C21: [knapSack] solves the 0-1 knapsack problem of the suspects: it returns the largest
    value of a selection that fits into the capacity, appends the pids of such a selection
    to the malicious processes and takes its weight from [memoryCap].  Every suspect must
    occupy at least one megabyte and not be malicious already, the values must fit into
    an [int], and the matrix must have been cleared. *)
Theorem knapsack_optimal m l es :
  suspect_list m l -> l <> [] -> Forall2 (entry_rep (spaceTable m)) l es ->
  Forall (fun e => 1 <= e.2.1 /\ 0 <= e.2.2 /\ e.1 ∉ malicious_header m) es ->
  NoDup es.*1 -> total_value es.*2 < 2147483648 -> Z.of_nat (length es) < sizeV ->
  0 <= memoryCap m < sizeV -> memory_available m -> (forall i j, V m i j = 0) ->
  exists sel U, knapSack (memoryCap m) m =
      Some (total_value sel.*2,
            with_malicious_header (malicious_header m ++ (rev sel).*1)
              (with_memoryCap (memoryCap m - total_weight sel.*2) (with_V U m))) /\
    sublist sel es /\ total_weight sel.*2 <= memoryCap m /\
    forall other, sublist other es -> total_weight other.*2 <= memoryCap m ->
      total_value other.*2 <= total_value sel.*2.
Proof.
  intros Hl Hne Hes Hall Hnd Htot Hlen Hcap Hm HV.
  assert (Forall (fun e => 1 <= e.2.1 /\ 0 <= e.2.2) es) as Hpos
    by (eapply Forall_impl; [exact Hall | tauto]).
  destruct (fill_table_ok (memoryCap m) Hcap (suspect_fuel m) l es (suspects m) None
    (suspect_header m) None [] m) as (U & E & HU); try done.
  { apply Hl. }
  { pose proof (suspect_list_fuel _ _ Hl). lia. }
  { intros k j Hk Hj. rewrite HV, take_nil. done. }
  change ([] ++ es.*2) with (es.*2) in *. rewrite length_fmap in E.
  destruct (select_ok (memoryCap m) Hcap (with_V U m) l es (memoryCap m))
    as (sel & m' & Esel & Hsel & Hsub & Hw & Hv).
  { split; try done; simpl; try (unfold sizeV in *; lia).
    - exists (suspect_header m), []. rewrite app_nil_r. apply Hl.
    - intros k i Hk Hi. apply HU; [by rewrite length_fmap | done].
    - eapply Forall_impl; [exact Hall | tauto].
    - eapply Forall_impl; [exact Hpos | tauto]. }
  exists sel, U. split; [|split; [done|split; [done|]]].
  - unfold knapSack. mrun. destruct (suspect_header m) as [h|] eqn:Eh.
    2: { destruct Hl as [Hl _]. rewrite Eh in Hl. destruct l as [|[??]?]; [done | by destruct Hl]. }
    mrun. mstep E. cbv beta iota. rewrite Nat2Z.id. mstep Esel. rewrite Hsel.
    rewrite read_V_ok by lia. cbn [V with_malicious_header with_memoryCap with_V].
    rewrite HU by (rewrite ?length_fmap; lia). rewrite take_ge by (rewrite length_fmap; lia).
    by rewrite Hv.
  - intros other Hother Hwo. rewrite Hv. unfold total_value.
    rewrite <- sum_of_rev. apply best_upper.
    + apply Forall_rev, Forall_fmap. eapply Forall_impl; [exact Hpos|]. simpl. lia.
    + by apply sublist_rev_fmap.
    + unfold total_weight. by rewrite sum_of_rev.
Qed.

(** ** A concrete selection *)

Module KnapDemo.

Definition demo_heap : gmap ptr suspect_process :=
  {[ 1%positive := SuspectProcess 41 3 5 9 (Some 2%positive) None;
     2%positive := SuspectProcess 42 4 5 9 (Some 3%positive) (Some 1%positive);
     3%positive := SuspectProcess 43 2 5 9 None (Some 2%positive) ]}.

(** Three suspects that occupy 100, 200 and 150 MB of the 256 MB there are. *)
Definition demo_suspects : monitor :=
  with_suspects demo_heap (with_suspect_header (Some 1%positive)
    (with_spaceTable ([] :: [Space 41 104857600] :: [Space 42 209715200]
                      :: [Space 43 157286400] :: replicate 6 []) initial_monitor)).

Definition demo_items : list (Z * (Z * Z)) := [(41, (100, 15)); (42, (200, 20)); (43, (150, 10))].

Lemma demo_list : suspect_list demo_suspects
  [(1%positive, (41, 3, 5, 9)); (2%positive, (42, 4, 5, 9)); (3%positive, (43, 2, 5, 9))].
Proof.
  split.
  - repeat (split; [done|]; eexists; do 3 (split; [reflexivity|])). done.
  - apply (bool_decide_unpack _). by vm_compute.
Qed.

Lemma knapsack_optimal_witness :
  exists sel U, knapSack 256 demo_suspects =
      Some (total_value sel.*2, with_malicious_header ((rev sel).*1)
              (with_memoryCap (256 - total_weight sel.*2) (with_V U demo_suspects))) /\
    total_weight sel.*2 <= 256 /\ 25 <= total_value sel.*2.
Proof.
  destruct (knapsack_optimal demo_suspects _ demo_items demo_list) as (sel & U & E & Hs & Hw & Hb).
  - done.
  - repeat constructor.
  - repeat constructor; try done; apply (bool_decide_unpack _); by vm_compute.
  - apply (bool_decide_unpack _). by vm_compute.
  - reflexivity.
  - reflexivity.
  - done.
  - reflexivity.
  - reflexivity.
  - exists sel, U. split; [exact E|]. split; [exact Hw|].
    apply (Hb [(41, (100, 15)); (43, (150, 10))]); [|done].
    unfold demo_items. apply sublist_skip, sublist_cons, sublist_skip, sublist_nil.
Defined.

End KnapDemo.
