(* ===== verification/Detect.v ===== *)
(** * Detection of excessive wear (detect.c, detect_time.c)

    The state machine that samples one-second windows: idle, global detection, which
    counts all writes and compares the write rate with what the device can endure, and
    per-process detection, which fills the hash tables.  The time, the random numbers
    and the conversion of jiffies come from the kernel and are parameters. *)

From S2P Require Import Prelude Layout RangeTree Monitor Histogram.
From S2P Require Import HashTable Records KnapSack.

(** ** Constants *)

Definition MAX_ENDURANCE : Z := 10000000.
Definition D_YEARS : Z := 31536000.
Definition EXPECT_L : Z := 3.
Definition EXPECT_L_S : Z := EXPECT_L * D_YEARS.
Definition SAMPLE_INTERVAL : Z := 1200.
Definition TIME_INTERVAL : Z := 1000.

(** ** Life expectancy

    Each function returns seconds, or the answer 1 or 0 of a test. *)

Definition life_caculate_frequenct_page (times : Z) : Z :=
  if times >=? 1 then MAX_ENDURANCE / times else 0.

Definition life_caculate_and_judge_malicious (times : Z) : Z :=
  if times <? 1 then 0
  else if MAX_ENDURANCE / times <? EXPECT_L_S then 1 else 0.

Definition life_caculate_ideal_leveling (total_times : Z) : Z :=
  if total_times >=? 1 then u64 (BLOCKS_MAX * MAX_ENDURANCE) / total_times else 0.

Definition detect_global (times total_times : Z) : Z :=
  if (times =? 0) || (total_times =? 0) then 0
  else
    let frequent_actual := life_caculate_frequenct_page times in
    let global_actual := life_caculate_ideal_leveling total_times in
    if (frequent_actual =? 0) || (global_actual =? 0) then 0
    else if frequent_actual <? EXPECT_L_S then 1
    else if global_actual <? EXPECT_L_S then 1
    else 0.

Definition detect_global_ideal_wear_leveling (total_times : Z) : Z :=
  if total_times <? 1 then 0
  else
    let global_actual := life_caculate_ideal_leveling total_times in
    if global_actual =? 0 then 0
    else if global_actual <? EXPECT_L_S then 1 else 0.

Definition detect_global_without_wear_leveling (times : Z) : Z :=
  if times <? 1 then 0
  else
    let frequent_actual := life_caculate_frequenct_page times in
    if frequent_actual =? 0 then 0
    else if frequent_actual <? EXPECT_L_S then 1 else 0.

(** The body is that of [detect_global]. *)
Definition detect_process (times total_times : Z) : Z :=
  if (times =? 0) || (total_times =? 0) then 0
  else
    let frequent_actual := life_caculate_frequenct_page times in
    let global_actual := life_caculate_ideal_leveling total_times in
    if (frequent_actual =? 0) || (global_actual =? 0) then 0
    else if frequent_actual <? EXPECT_L_S then 1
    else if global_actual <? EXPECT_L_S then 1
    else 0.

Definition detect_process_ideal_wear_leveling (total_times : Z) : mon Z :=
  if total_times <? 1 then mret 0
  else
    let global_actual := life_caculate_ideal_leveling total_times in
    if global_actual =? 0 then mret 0
    else
      total_process ← gets (fun m => u64 (process_count m));
      if total_process >? 0 then
        mret (if global_actual <? u64 (EXPECT_L_S * total_process) then 1 else 0)
      else mret (if global_actual <? EXPECT_L_S then 1 else 0).

Definition detect_process_without_wear_leveling (times : Z) : Z :=
  if times <? 1 then 0
  else
    let frequent_actual := life_caculate_frequenct_page times in
    if frequent_actual =? 0 then 0
    else if frequent_actual <? EXPECT_L_S then 1 else 0.

(** With the wear there is already. *)
Definition life_caculate_remaining_ideal_leveling (total_times : Z) : mon Z :=
  average ← gets (fun m => u64 (count_average m));
  mret (if total_times >=? 1
        then u64 (BLOCKS_MAX * u64 (MAX_ENDURANCE - average)) / total_times
        else 0).

Definition detect_global_remaining_ideal_wear_leveling (total_times : Z) : mon Z :=
  if total_times <? 1 then mret 0
  else
    global_actual ← life_caculate_remaining_ideal_leveling total_times;
    if global_actual =? 0 then mret 0
    else
      remainning_expect ← gets (fun m => u64 (EXPECT_L_S - pm_use_time m));
      mret (if global_actual <? remainning_expect then 1 else 0).

(** The timer of detect_time.c: once a second. *)
Definition my_function : mon unit :=
  modify (fun m => with_pm_use_time (u64 (pm_use_time m + 1)) m).

(** ** The state machine *)

(** What a write sees of the outside: the running process, two readings of [jiffies]
    and a random number. *)
Record env := Env {
  current_pid : Z;
  jiffies_begin : Z;
  jiffies_end : Z;
  random_bytes : Z;
}.

Definition rand_interval (random_num : Z) : Z := i32 (u64 random_num mod SAMPLE_INTERVAL).

Definition detect_mode_change (random : Z) : mon Z :=
  let random_num := rand_interval random in
  mode ← gets detect_mode;
  if mode =? 1 then
    total_count ← gets (fun m => u64 (write_traffic m));
    is_or_no ← detect_global_remaining_ideal_wear_leveling total_count;
    if negb (is_or_no =? 0) then
      _ ← modify (with_detect_mode 2);
      mret 1
    else
      _ ← modify (fun m => with_detect_mode 0 (with_write_traffic 0 m));
      mret 0
  else if mode =? 2 then
    _ ← end_window;
    mret 0
  else
    _ ← (if random_num <? 20
         then modify (fun m => with_detect_mode 1
                                 (with_last_global_max_update (global_max_update m) m))
         else modify (with_detect_mode 0));
    _ ← modify (with_write_traffic 0);
    mret 0.

Section clock.
Context (jiffies_to_msecs : Z -> Z).

Definition detect_prepare (e : env) : mon unit :=
  flag ← gets change_time_base_flag;
  _ ← (if flag =? 1
       then modify (fun m => with_change_time_base_flag 0 (with_time_base (jiffies_begin e) m))
       else mret tt);
  base ← gets time_base;
  if jiffies_to_msecs (u64 (jiffies_end e - base)) >=? TIME_INTERVAL then
    _ ← detect_mode_change (random_bytes e);
    modify (with_change_time_base_flag 1)
  else mret tt.

Definition record_one_sec_write_info (e : env) (pid block_num : Z) : mon unit :=
  _ ← detect_prepare e;
  mode ← gets detect_mode;
  if mode =? 0 then mret tt
  else if mode =? 1 then
    modify (fun m => with_write_traffic (i64 (write_traffic m + 1)) m)
  else if mode =? 2 then
    _ ← update_hash_table pid block_num;
    mret tt
  else mret tt.
End clock.

(** ** Judging the processes of a window *)

(** One process: it becomes malicious when its space fits, compared as [unsigned int]. *)
Definition judge_process (node : hash_node) : mon unit :=
  _ ← detect_process_ideal_wear_leveling (total_count node);
  is_in_malicious ← is_in_malicious_process_list (hn_pid node);
  occupyspace ← get_occupySpace (hn_pid node);
  cap ← gets memoryCap;
  if negb is_in_malicious && (u32 cap >? occupyspace) then
    _ ← insert_into_malicious_process (hn_pid node);
    modify (fun m => with_memoryCap (i32 (memoryCap m - occupyspace)) m)
  else mret tt.

Fixpoint judge_processes (nodes : list hash_node) : mon unit :=
  match nodes with
  | [] => mret tt
  | node :: nodes => _ ← judge_process node; judge_processes nodes
  end.

Definition record_malice_process : mon unit :=
  table ← gets Table_header;
  _ ← judge_processes (concat table);
  free_all_node.

(** ** What the global detection decides *)

(** The writes the device can still take, and the condition under which [t] writes a
    second use them up before the expected end of life. *)
Definition remaining_writes (m : monitor) : Z := BLOCKS_MAX * (MAX_ENDURANCE - count_average m).

Definition unsustainable (m : monitor) (t : Z) : bool :=
  (1 <=? t) && (remaining_writes m <? (EXPECT_L_S - pm_use_time m) * t).

(** When the alarm is raised: not for a rate that would use up everything within a second. *)
Definition alarmed (m : monitor) (t : Z) : bool := (t <=? remaining_writes m) && unsustainable m t.

(** Neither the endurance nor the expected life is exceeded yet. *)
Definition in_service (m : monitor) : Prop :=
  0 <= count_average m <= MAX_ENDURANCE /\ 0 <= pm_use_time m <= EXPECT_L_S.

Lemma div_ltb_mul a b c : 0 < b -> (a / b <? c) = (a <? c * b).
Proof.
  intros Hb. apply eq_iff_eq_true. rewrite !Z.ltb_lt. split; intros H.
  - pose proof (Z.mul_succ_div_gt a b Hb). nia.
  - apply Z.div_lt_upper_bound; lia.
Qed.

Lemma div_eqb_zero a b : 0 <= a -> 0 < b -> (a / b =? 0) = negb (b <=? a).
Proof.
  intros Ha Hb. apply eq_iff_eq_true. rewrite negb_true_iff, Z.eqb_eq, Z.leb_gt.
  rewrite Z.div_small_iff by lia. lia.
Qed.

Lemma detection_alarm m t :
  in_service m -> 0 <= t < 18446744073709551616 ->
  detect_global_remaining_ideal_wear_leveling t m = Some (if alarmed m t then 1 else 0, m).
Proof.
  intros [[Ha1 Ha2] [Hp1 Hp2]] Ht. unfold alarmed, unsustainable, remaining_writes.
  unfold detect_global_remaining_ideal_wear_leveling, life_caculate_remaining_ideal_leveling.
  destruct (Z.ltb_spec t 1) as [H|H]; [by rewrite (proj2 (Z.leb_gt 1 t)), andb_false_r by lia|].
  rewrite (proj2 (Z.leb_le 1 t)), (proj2 (Z.geb_le t 1)) by lia.
  erewrite bind_step; [|by mrun]. cbv beta.
  unfold BLOCKS_MAX, MAX_ENDURANCE, EXPECT_L_S, EXPECT_L, D_YEARS in *. change (17179869184 / 4096) with 4194304.
  rewrite (u64_small (count_average m)) by lia.
  rewrite (u64_small (10000000 - count_average m)), u64_small by lia.
  rewrite div_eqb_zero by lia. destruct (t <=? _) eqn:Hle; [|done]. cbn [negb]. mrun.
  rewrite (u64_small (3 * 31536000 - pm_use_time m)) by lia. cbv iota.
  by rewrite div_ltb_mul by lia.
Qed.

(** C22: While the endurance and the expected life are not exceeded, the global detection raises
    the alarm exactly when the writes of the window, kept up every second, exceed what the
    blocks can still endure before the end of the expected life: neither wrap-around nor
    rounding changes the answer.  This is for a window with at most as many writes as the
    device has left; one with more writes, or any on a device that is worn out, raises no
    alarm, because the computed life is 0 then (detect.c:725), although its rate is not
    sustainable. *)
Theorem detection_exact m t :
  in_service m -> 0 <= t < 18446744073709551616 ->
  (t <= remaining_writes m ->
     detect_global_remaining_ideal_wear_leveling t m = Some (if unsustainable m t then 1 else 0, m)) /\
  (remaining_writes m < t ->
     detect_global_remaining_ideal_wear_leveling t m = Some (0, m) /\
     (pm_use_time m < EXPECT_L_S -> unsustainable m t = true)).
Proof.
  intros Hs Ht. rewrite (detection_alarm m t Hs Ht). unfold alarmed. split; intros Hle.
  - by rewrite (proj2 (Z.leb_le _ _)).
  - rewrite (proj2 (Z.leb_gt _ _)) by done. split; [done|]. intros Hp. unfold unsustainable.
    assert (0 <= remaining_writes m) by (destruct Hs as [[? ?] _]; apply Z.mul_nonneg_nonneg; [done|lia]).
    rewrite (proj2 (Z.leb_le 1 t)), (proj2 (Z.ltb_lt _ _)) by nia. done.
Qed.

(** Once the device has been in use for longer than the expected life, the remaining
    time wraps around and any traffic at all raises the alarm. *)
Theorem detection_past_life m t :
  0 <= count_average m < MAX_ENDURANCE -> EXPECT_L_S < pm_use_time m < 9223372036854775808 ->
  1 <= t <= remaining_writes m ->
  detect_global_remaining_ideal_wear_leveling t m = Some (1, m).
Proof.
  unfold remaining_writes. intros Ha Hp Ht.
  unfold detect_global_remaining_ideal_wear_leveling, life_caculate_remaining_ideal_leveling.
  rewrite (proj2 (Z.ltb_ge t 1)), (proj2 (Z.geb_le t 1)) by lia.
  erewrite bind_step; [|by mrun]. cbv beta.
  unfold BLOCKS_MAX, MAX_ENDURANCE, EXPECT_L_S, EXPECT_L, D_YEARS in *. change (17179869184 / 4096) with 4194304 in *.
  rewrite (u64_small (count_average m)) by lia.
  rewrite (u64_small (10000000 - count_average m)), u64_small by lia.
  rewrite div_eqb_zero, (proj2 (Z.leb_le t _)) by lia. cbn [negb]. mrun.
  replace (u64 (3 * 31536000 - pm_use_time m))
    with (3 * 31536000 - pm_use_time m + 18446744073709551616) by (unfold u64; mlia).
  rewrite div_ltb_mul by lia.
  rewrite (proj2 (Z.ltb_lt _ _)); [done | nia].
Qed.

(** ** The state machine as a transition relation *)

(** The modes: 0 idle, 1 global detection, 2 detection per process.  [alarm] is what the
    global detection finds, [r] the random number. *)
Inductive mode_step (alarm : bool) (r : Z) : Z -> Z -> Prop :=
  | ms_idle : 20 <= r -> mode_step alarm r 0 0
  | ms_sample : r < 20 -> mode_step alarm r 0 1
  | ms_quiet : alarm = false -> mode_step alarm r 1 0
  | ms_alarm : alarm = true -> mode_step alarm r 1 2
  | ms_done : mode_step alarm r 2 0.

Definition mode_ok (m : monitor) : Prop :=
  detect_mode m = 0 \/ detect_mode m = 1 \/ detect_mode m = 2.

(** What the machine leaves alone: the wear counters, the tables and the lists. *)
Record mode_frame (m m' : monitor) : Prop := {
  mf_counts : block_write_count m' = block_write_count m;
  mf_global : global_blk_write_count m' = global_blk_write_count m;
  mf_max : global_max_update m' = global_max_update m;
  mf_hand : count_hand m' = count_hand m;
  mf_average : count_average m' = count_average m;
  mf_deviation : max_deviation m' = max_deviation m;
  mf_time : pm_use_time m' = pm_use_time m;
  mf_table : Table_header m' = Table_header m;
  mf_malicious : malicious_header m' = malicious_header m;
  mf_memory : kmalloc_results m' = kmalloc_results m;
}.

#[export] Instance mode_frame_preorder : PreOrder mode_frame.
Proof. split; [by intros m | intros ? ? ? [] []; split; congruence]. Qed.

(** The traffic counter of a running file system. *)
Definition traffic_ok (m : monitor) : Prop := 0 <= write_traffic m < 9223372036854775807.

Lemma detect_mode_change_ok r m :
  mode_ok m -> in_service m -> traffic_ok m ->
  exists x m', detect_mode_change r m = Some (x, m') /\
    mode_step (alarmed m (write_traffic m)) (rand_interval r)
      (detect_mode m) (detect_mode m') /\
    (detect_mode m' = 1 -> write_traffic m' = 0) /\
    0 <= write_traffic m' <= write_traffic m /\
    change_time_base_flag m' = change_time_base_flag m /\
    time_base m' = time_base m /\ mode_frame m m'.
Proof.
  intros Hmode Hs Ht. unfold traffic_ok in *. unfold detect_mode_change. mrun.
  destruct Hmode as [E|[E|E]]; rewrite E; cbn [Z.eqb].
  - destruct (Z.ltb_spec (rand_interval r) 20); mrun; do 2 eexists;
      (split; [done|]); simpl; repeat split; try done; try lia; by constructor.
  - change (1 =? 1)%positive with true. cbv iota. mrun.
    rewrite (u64_small (write_traffic m)) by lia.
    mstep (detection_alarm m (write_traffic m) Hs ltac:(lia)).
    destruct (alarmed m (write_traffic m)); cbn [Z.eqb negb]; mrun; do 2 eexists;
      (split; [done|]); simpl; repeat split; try done; try lia; by constructor.
  - change (2 =? 1)%positive with false. change (2 =? 2)%positive with true. cbv iota.
    mrun. do 2 eexists. split; [done|]. simpl; repeat split; try done; try lia; by constructor.
Qed.

Section machine.
Context (jiffies_to_msecs : Z -> Z).

(** The time base of the window a write falls into. *)
Definition base_of (e : env) (m : monitor) : Z :=
  if change_time_base_flag m =? 1 then jiffies_begin e else time_base m.

(** The window has lasted for its second. *)
Definition elapsed (e : env) (base : Z) : bool :=
  jiffies_to_msecs (u64 (jiffies_end e - base)) >=? TIME_INTERVAL.

(** A window begins with the first write after the previous one. *)
Definition rebase (e : env) (m : monitor) : monitor :=
  if change_time_base_flag m =? 1
  then with_change_time_base_flag 0 (with_time_base (jiffies_begin e) m) else m.

Lemma detect_prepare_rebase e m :
  detect_prepare jiffies_to_msecs e m =
  (if elapsed e (base_of e m)
   then _ ← detect_mode_change (random_bytes e); modify (with_change_time_base_flag 1)
   else mret tt) (rebase e m).
Proof.
  unfold detect_prepare, elapsed, base_of, rebase. mrun.
  destruct (change_time_base_flag m =? 1); mrun; done.
Qed.

Lemma rebase_frame e m :
  mode_frame m (rebase e m) /\ detect_mode (rebase e m) = detect_mode m /\
  write_traffic (rebase e m) = write_traffic m /\
  change_time_base_flag (rebase e m) <> 1 /\ time_base (rebase e m) = base_of e m.
Proof.
  unfold rebase, base_of. destruct (Z.eqb_spec (change_time_base_flag m) 1); by repeat split.
Qed.

Lemma mode_step_ok alarm r a b : mode_step alarm r a b -> b = 0 \/ b = 1 \/ b = 2.
Proof. destruct 1; lia. Qed.

Lemma frame_in_service m m' : mode_frame m m' -> in_service m -> in_service m'.
Proof. intros [] []. unfold in_service. split; congruence. Qed.

Lemma frame_alarmed m m' t :
  mode_frame m m' -> alarmed m' t = alarmed m t.
Proof. intros []. unfold alarmed, unsustainable, remaining_writes. congruence. Qed.

(** At each write the machine makes one transition of [mode_step] when the window has
    lasted for a second, with the alarm the traffic of the window asks for, and none
    otherwise; a new global detection starts from zero traffic; the counters, the tables
    and the lists of processes are left alone. *)
Theorem mode_machine e m :
  mode_ok m -> in_service m -> traffic_ok m ->
  exists m', detect_prepare jiffies_to_msecs e m = Some (tt, m') /\
    (if elapsed e (base_of e m)
     then mode_step (alarmed m (write_traffic m)) (rand_interval (random_bytes e))
            (detect_mode m) (detect_mode m') /\
          (detect_mode m' = 1 -> write_traffic m' = 0) /\ change_time_base_flag m' = 1
     else detect_mode m' = detect_mode m /\ write_traffic m' = write_traffic m /\
          (change_time_base_flag m' <> 1 /\ time_base m' = base_of e m)) /\
    mode_ok m' /\ 0 <= write_traffic m' <= write_traffic m /\ in_service m' /\
    mode_frame m m'.
Proof.
  intros Hmode Hs Ht. rewrite detect_prepare_rebase.
  destruct (rebase_frame e m) as (Hf & Hm1 & Ht1 & Hflag & Hb).
  set (m1 := rebase e m) in *. pose proof (frame_in_service _ _ Hf Hs) as Hs1.
  destruct (elapsed e (base_of e m)).
  - destruct (detect_mode_change_ok (random_bytes e) m1) as (x & m' & E & Hstep & Hz & Ht' & _ & _ & Hf');
      [unfold mode_ok; by rewrite Hm1 | done | unfold traffic_ok; by rewrite Ht1 |].
    mstep E. eexists. split; [done|].
    rewrite Hm1, Ht1, (frame_alarmed _ _ _ Hf) in Hstep. rewrite Ht1 in Ht'.
    split; [done|]. split; [by eapply mode_step_ok|]. split; [done|].
    assert (mode_frame m m') as Hmm by by transitivity m1.
    split; [by apply (frame_in_service m m') | destruct Hmm; by split].
  - exists m1. split; [done|]. split; [done|].
    split; [unfold mode_ok; by rewrite Hm1|]. split; [|done].
    rewrite Ht1. unfold traffic_ok in Ht. lia.
Qed.

(** A sequence of writes, each with what it sees of the outside and its block. *)
Fixpoint record_writes (ws : list (env * Z)) : mon unit :=
  match ws with
  | [] => mret tt
  | (e, b) :: ws =>
    _ ← record_one_sec_write_info jiffies_to_msecs e (current_pid e) b;
    record_writes ws
  end.

Lemma count_write e b m :
  detect_mode m = 1 -> traffic_ok m -> elapsed e (base_of e m) = false ->
  record_one_sec_write_info jiffies_to_msecs e (current_pid e) b m =
    Some (tt, with_write_traffic (write_traffic m + 1) (rebase e m)).
Proof.
  intros Hm Ht He. unfold record_one_sec_write_info.
  destruct (rebase_frame e m) as (_ & Hm1 & Ht1 & _ & _).
  erewrite bind_step by (rewrite detect_prepare_rebase, He; reflexivity). mrun.
  rewrite Hm1, Hm. change (1 =? 0) with false. change (1 =? 1) with true.
  cbv beta iota delta [modify].
  rewrite Ht1, i64_small by (unfold traffic_ok in Ht; lia). done.
Qed.

Lemma count_writes ws m :
  detect_mode m = 1 -> change_time_base_flag m <> 1 ->
  Forall (fun w => elapsed w.1 (time_base m) = false) ws ->
  0 <= write_traffic m -> write_traffic m + Z.of_nat (length ws) < 9223372036854775807 ->
  record_writes ws m =
    Some (tt, with_write_traffic (write_traffic m + Z.of_nat (length ws)) m).
Proof.
  revert m. induction ws as [|[e b] ws IH]; intros m Hm Hflag Hws H0 Hlt.
  { simpl. rewrite Z.add_0_r. by destruct m. }
  inversion_clear Hws as [|?? He Hws']. simpl length in *.
  assert (rebase e m = m /\ base_of e m = time_base m) as [Hr Hb].
  { unfold rebase, base_of. by rewrite (proj2 (Z.eqb_neq (change_time_base_flag m) 1)). }
  cbn [record_writes].
  mstep (count_write e b m Hm ltac:(unfold traffic_ok; lia) ltac:(by rewrite Hb)).
  rewrite Hr, IH; [|done|done|done|simpl; lia|simpl; lia]. simpl write_traffic.
  replace (write_traffic m + Z.of_nat (S (length ws)))
    with (write_traffic m + 1 + Z.of_nat (length ws)) by lia. done.
Qed.

(** In a global window every write counts once, and at the first write after the second
    the machine goes to per-process detection exactly when the number of writes counted raises
    the alarm, and back to idle otherwise. *)
Theorem global_window_decision m e0 b0 ws e :
  detect_mode m = 1 -> change_time_base_flag m = 1 -> in_service m ->
  0 <= write_traffic m -> write_traffic m + 1 + Z.of_nat (length ws) < 9223372036854775807 ->
  elapsed e0 (jiffies_begin e0) = false ->
  Forall (fun w => elapsed w.1 (jiffies_begin e0) = false) ws ->
  elapsed e (jiffies_begin e0) = true ->
  exists m', (_ ← record_writes ((e0, b0) :: ws); detect_prepare jiffies_to_msecs e) m =
               Some (tt, m') /\
    detect_mode m' =
      if alarmed m (write_traffic m + 1 + Z.of_nat (length ws)) then 2 else 0.
Proof.
  intros Hm Hflag Hs H0 Hlt He0 Hws He.
  assert (base_of e0 m = jiffies_begin e0) as Hb by (unfold base_of; by rewrite Hflag).
  set (m1 := with_write_traffic (write_traffic m + 1) (rebase e0 m)).
  assert (time_base m1 = jiffies_begin e0 /\ change_time_base_flag m1 = 0 /\ detect_mode m1 = 1 /\
    write_traffic m1 = write_traffic m + 1 /\ mode_frame m m1) as (Ht1 & Hf1 & Hm1 & Hw1 & Hfr).
  { unfold m1, rebase. rewrite Hflag. by repeat split. }
  set (m2 := with_write_traffic (write_traffic m1 + Z.of_nat (length ws)) m1).
  assert (mode_frame m m2) as Hfr2 by (destruct Hfr; by split).
  destruct (mode_machine e m2) as (m' & E & Hstep & _).
  - right. by left.
  - by apply (frame_in_service m).
  - unfold traffic_ok. simpl. lia.
  - exists m'. split.
    + erewrite bind_step; [exact E|]. cbn [record_writes].
      mstep (count_write e0 b0 m Hm ltac:(unfold traffic_ok; lia) ltac:(by rewrite Hb)).
      fold m1. apply count_writes; [done | congruence | by rewrite Ht1 | lia | lia].
    + unfold base_of in Hstep. change (change_time_base_flag m2) with (change_time_base_flag m1) in Hstep.
      rewrite Hf1 in Hstep. change (time_base m2) with (time_base m1) in Hstep.
      cbn [Z.eqb] in Hstep. rewrite Ht1, He in Hstep. destruct Hstep as [Hstep _].
      change (detect_mode m2) with (detect_mode m1) in Hstep. rewrite Hm1 in Hstep.
      rewrite (frame_alarmed m m2 _ Hfr2) in Hstep.
      change (write_traffic m2) with (write_traffic m1 + Z.of_nat (length ws)) in Hstep.
      rewrite Hw1 in Hstep. inversion Hstep as [| |Ha|Ha|]; by rewrite Ha.
Qed.
End machine.

(** ** Judging *)

Lemma weightless_u32 m pid x m' : get_occupySpace pid m = Some (x, m') -> 0 <= x.
Proof.
  unfold get_occupySpace. destruct (space_key pid) as [key|]; [|done]. mrun.
  destruct (spaceTable m !! key) as [chain|]; [|done]. mrun.
  destruct (find_space pid chain) as [[??]|]; intros [= <- <-]; [|done].
  apply Z.mod_pos_bound. done.
Qed.

Definition spaces_ok (m : monitor) : Prop :=
  length (spaceTable m) = Z.to_nat spaceTableVolume.

Lemma get_occupySpace_total m pid :
  spaces_ok m -> 0 <= pid -> exists x, get_occupySpace pid m = Some (x, m).
Proof.
  intros Hl Hp. destruct (space_key_ok pid Hp) as (key & Hk & Hlt). unfold spaces_ok in Hl.
  rewrite <- Hl in Hlt. destruct (lookup_lt_is_Some_2 _ _ Hlt) as [chain Hc].
  eexists. by apply (get_occupySpace_ok pid key chain).
Qed.

(** What judging may do: append processes while there is memory left for them. *)
Record judged (m m' : monitor) : Prop := {
  jd_cap : 0 < memoryCap m -> 0 < memoryCap m' <= memoryCap m;
  jd_list : exists pids, malicious_header m' = malicious_header m ++ pids;
  jd_nodup : NoDup (malicious_header m) -> NoDup (malicious_header m');
  jd_spaces : spaceTable m' = spaceTable m;
  jd_table : Table_header m' = Table_header m;
  jd_memory : memory_available m -> memory_available m';
}.

#[export] Instance judged_preorder : PreOrder judged.
Proof.
  split.
  - intros m. split; try done. exists []. by rewrite app_nil_r.
  - intros m1 m2 m3 [Hc1 [p1 Hl1] Hn1 ? ? ?] [Hc2 [p2 Hl2] Hn2 ? ? ?].
    split; [lia | | auto | congruence | congruence | auto].
    exists (p1 ++ p2). by rewrite Hl2, Hl1, app_assoc.
Qed.

Lemma judge_process_ok node m :
  spaces_ok m -> memory_available m -> 0 <= hn_pid node ->
  0 < memoryCap m < 2147483648 ->
  exists m', judge_process node m = Some (tt, m') /\ judged m m'.
Proof.
  intros Hsp Hm Hp Hcap. destruct (get_occupySpace_total m _ Hsp Hp) as [x Hx].
  pose proof (weightless_u32 _ _ _ _ Hx) as Hx0. unfold judge_process.
  assert (exists r, detect_process_ideal_wear_leveling (total_count node) m = Some (r, m)) as [r Hr].
  { unfold detect_process_ideal_wear_leveling. repeat case_match; mrun; repeat case_match; eauto. }
  mstep Hr. mrun. mstep Hx. mrun. rewrite on_list_spec, u32_small by lia.
  case_bool_decide as Hin; cbn [negb andb]; [exists m; by split|].
  destruct (Z.gtb_spec (memoryCap m) x) as [Hgt|]; [|exists m; by split].
  unfold insert_into_malicious_process.
  erewrite bind_step; [|by mstep (kmalloc_available m Hm)].
  eexists. split; [done|]. split; simpl; try done.
  - intros _. rewrite i32_small; lia.
  - by exists [hn_pid node].
  - intros Hnd. apply NoDup_app. split; [done|]. split; [|apply NoDup_singleton].
    intros p Hpin ->%list_elem_of_singleton. done.
Qed.

(** Judging the processes of a window never spends more memory than [memoryCap] has,
    keeps the processes already marked, and marks no process twice. *)
Theorem judging_within_capacity nodes m :
  spaces_ok m -> memory_available m -> Forall (fun n => 0 <= hn_pid n) nodes ->
  0 < memoryCap m < 2147483648 -> NoDup (malicious_header m) ->
  exists m', judge_processes nodes m = Some (tt, m') /\
    0 < memoryCap m' <= memoryCap m /\ NoDup (malicious_header m') /\
    malicious_header m `prefix_of` malicious_header m'.
Proof.
  intros Hsp Hm Hn Hcap Hnd.
  enough (exists m', judge_processes nodes m = Some (tt, m') /\ judged m m') as (m' & E & []).
  { exists m'. split; [done|]. split; [auto with lia|]. split; [auto|]. done. }
  clear Hnd. revert m Hsp Hm Hcap. induction Hn as [|node nodes Hp Hn IH]; intros m Hsp Hm Hcap.
  { by exists m. }
  destruct (judge_process_ok node m Hsp Hm Hp Hcap) as (m1 & E1 & Hj).
  destruct (IH m1) as (m' & E & Hj').
  - unfold spaces_ok. by rewrite (jd_spaces _ _ Hj).
  - by apply (jd_memory _ _ Hj).
  - pose proof (jd_cap _ _ Hj). lia.
  - exists m'. split; [|by transitivity m1]. cbn [judge_processes]. by mstep E1.
Qed.

(** ** Concrete runs *)

Module DetectDemo.

(** A kernel with 250 ticks a second. *)
Definition msecs_250 (j : Z) : Z := u32 (j * 4).

(** A new device sustains about 443334 writes a second over three years; with more writes in a
    window than it has left in all there is no alarm. *)
Lemma detection_exact_witness :
  detect_global_remaining_ideal_wear_leveling 500000 initial_monitor = Some (1, initial_monitor) /\
  detect_global_remaining_ideal_wear_leveling 443334 initial_monitor = Some (0, initial_monitor) /\
  detect_global_remaining_ideal_wear_leveling 41943040000001 initial_monitor = Some (0, initial_monitor).
Proof.
  assert (in_service initial_monitor) as Hs by (split; vm_compute; intuition congruence).
  split; [|split].
  - apply (proj1 (detection_exact initial_monitor 500000 Hs ltac:(lia))). vm_compute. congruence.
  - apply (proj1 (detection_exact initial_monitor 443334 Hs ltac:(lia))). vm_compute. congruence.
  - apply (proj2 (detection_exact initial_monitor 41943040000001 Hs ltac:(lia))). vm_compute. reflexivity.
Defined.

Lemma detection_past_life_witness :
  detect_global_remaining_ideal_wear_leveling 1 (with_pm_use_time 94608001 initial_monitor) =
    Some (1, with_pm_use_time 94608001 initial_monitor).
Proof.
  apply detection_past_life; vm_compute; intuition congruence.
Defined.

Definition demo_env (t : Z) : env := Env 41 t t 5.

Lemma mode_machine_witness :
  exists m', detect_prepare msecs_250 (demo_env 100) (with_change_time_base_flag 0 initial_monitor) =
      Some (tt, m') /\
    detect_mode m' = 0 /\ change_time_base_flag m' <> 1.
Proof.
  destruct (mode_machine msecs_250 (demo_env 100) (with_change_time_base_flag 0 initial_monitor))
    as (m' & E & H & _).
  - by left.
  - split; vm_compute; intuition congruence.
  - split; vm_compute; congruence.
  - exists m'. split; [exact E|].
    change (elapsed msecs_250 (demo_env 100)
      (base_of (demo_env 100) (with_change_time_base_flag 0 initial_monitor))) with false in H.
    destruct H as (Hm & _ & Hf & _). split; [exact Hm | exact Hf].
Defined.

(** A window with 600000 writes before it and three in it. *)
Definition demo_sampling : monitor := with_write_traffic 600000 (with_detect_mode 1 initial_monitor).

Lemma global_window_decision_witness :
  exists m', (_ ← record_writes msecs_250 [(demo_env 0, 7); (demo_env 100, 8); (demo_env 200, 7)];
              detect_prepare msecs_250 (demo_env 250)) demo_sampling = Some (tt, m') /\
    detect_mode m' = 2.
Proof.
  destruct (global_window_decision msecs_250 demo_sampling (demo_env 0) 7
    [(demo_env 100, 8); (demo_env 200, 7)] (demo_env 250)) as (m' & E & Hm).
  - reflexivity.
  - reflexivity.
  - split; vm_compute; intuition congruence.
  - discriminate.
  - vm_compute. reflexivity.
  - vm_compute. reflexivity.
  - repeat constructor; vm_compute; reflexivity.
  - vm_compute. reflexivity.
  - exists m'. split; [exact E | exact Hm].
Defined.

Definition demo_nodes : list hash_node := [HashNode 41 9 1 [] 0 0; HashNode 42 9 1 [] 0 0].

Lemma judging_within_capacity_witness :
  exists m', judge_processes demo_nodes
      (with_spaceTable ([] :: [Space 41 104857600] :: replicate 8 []) initial_monitor) = Some (tt, m') /\
    0 < memoryCap m' <= 256 /\ NoDup (malicious_header m').
Proof.
  destruct (judging_within_capacity demo_nodes
    (with_spaceTable ([] :: [Space 41 104857600] :: replicate 8 []) initial_monitor))
    as (m' & E & Hc & Hn & _).
  - reflexivity.
  - reflexivity.
  - repeat constructor; discriminate.
  - split; reflexivity.
  - constructor.
  - exists m'. split; [exact E|]. split; [exact Hc | exact Hn].
Defined.

End DetectDemo.
