(* ===== verification/WriteCount.v ===== *)
(** * Write counters (writecount.c, nova.h, average.c, wearleveling.c)

    Every write to a block of the device is counted: per block, with a second counter
    that counts only one of [WB_THRESHOLD] writes of a malicious process; the largest
    count; and the average, by counting a round of [BLOCKS_MAX] writes at a time.
    [should_migrate] decides from them whether a page is to move. *)

From stdpp Require Import functions.
From S2P Require Import Prelude Layout RangeTree State Monitor Histogram.
From S2P Require Import HashTable Records KnapSack Detect.
#[local] Open Scope Z_scope.

Definition DEVIATION_HIGH : Z := 400.

(** ** The code *)

Definition init_block_write_count : mon unit :=
  ok1 ← kmalloc;
  ok2 ← kmalloc;
  if negb (ok1 && ok2) then fault
  else modify (fun m => with_block_write_count (fun _ => 0)
                          (with_global_blk_write_count (fun _ => BlkWriteCount 0 0) m)).

(** [char] arithmetic. *)
Definition i8 (x : Z) : Z := (x + 128) mod 256 - 128.

(** One write in a cell of [global_blk_write_count]. *)
Definition count_cell (malicious : bool) (c : blk_write_count) : blk_write_count :=
  if malicious then
    let c := if write_back_threshold c >=? WB_THRESHOLD
             then BlkWriteCount (u64 (write_count c + 1)) 0 else c in
    BlkWriteCount (write_count c) (i8 (write_back_threshold c + 1))
  else BlkWriteCount (u64 (write_count c + 1)) (write_back_threshold c).

(** The part under [block_write_count_lock], for a block in range. *)
Definition count_block (pid block_num : Z) : mon unit :=
  is_malicious ← is_in_malicious_process_list pid;
  _ ← modify (fun m => with_global_blk_write_count
                (<[block_num := count_cell is_malicious (global_blk_write_count m block_num)]>
                   (global_blk_write_count m)) m);
  _ ← modify (fun m => with_block_write_count
                (<[block_num := u64 (block_write_count m block_num + 1)]>
                   (block_write_count m)) m);
  modify (fun m => if global_max_update m <? block_write_count m block_num
                   then with_global_max_update (block_write_count m block_num) m else m).

(** [count_hand] and [count_average]. *)
Definition count_round : mon unit :=
  _ ← modify (fun m => with_count_hand (i64 (count_hand m + 1)) m);
  hand ← gets count_hand;
  if hand >=? BLOCKS_MAX then
    _ ← modify (fun m => with_count_average (i64 (count_average m + 1)) m);
    modify (with_count_hand 0)
  else mret tt.

Section clock.
Context (jiffies_to_msecs : Z -> Z).

Definition write_count_increase (e : env) (block_num : Z) : mon unit :=
  if block_num >=? BLOCKS_MAX then mret tt
  else
    _ ← count_block (current_pid e) block_num;
    _ ← count_round;
    record_one_sec_write_info jiffies_to_msecs e (current_pid e) block_num.

Definition inode_page_count_increase (sbi : nova_sb_info) (e : env) (viraddr : Z) : mon unit :=
  write_count_increase e (get_block_number_by_virt (virt_addr sbi) viraddr).
End clock.

(** [inode_page_count_increase_by_vir], the device being mapped at [nova_base_address]. *)
Definition inode_page_count_increase_by_vir (nova_base_address : Z) (e : env) (viraddr : Z)
  : mon unit :=
  let block_num := Z.shiftr (u64 (viraddr - nova_base_address)) 12 in
  if block_num >=? BLOCKS_MAX then mret tt
  else
    _ ← count_block (current_pid e) block_num;
    _ ← modify (fun m => with_write_traffic (i64 (write_traffic m + 1)) m);
    count_round.

(** [should_migrate]: both conditions written with a semicolon behind them are without
    effect, so their blocks always run. *)
Definition should_migrate (block_num : Z) : mon bool :=
  if negb ((0 <=? block_num) && (block_num <? BLOCKS_MAX)) then fault
  else
    count ← gets (fun m => write_count (global_blk_write_count m block_num));
    deviation ← gets max_deviation;
    if count <? u64 deviation then
      _ ← modify (with_exceed_average 0);
      mret false
    else
      average ← gets (fun m => u64 (count_average m));
      _ ← modify (with_exceed_average 0);
      _ ← (if u64 (deviation - average) <? DEVIATION_HIGH / 2
           then modify (with_max_deviation (i64 (deviation + DEVIATION_HIGH)))
           else mret tt);
      mret true.

(** ** Counting is exact *)

(** [wear_ok ws m]: the counters after the writes to the blocks [ws], none of them by a
    malicious process. *)
Record wear_ok (ws : list Z) (m : monitor) : Prop := {
  wo_counts : forall b, 0 <= b < BLOCKS_MAX -> block_write_count m b = occurs b ws;
  wo_global : forall b, 0 <= b < BLOCKS_MAX ->
    global_blk_write_count m b = BlkWriteCount (occurs b ws) 0;
  wo_peak : is_peak (global_max_update m) ws;
  wo_round : count_average m * BLOCKS_MAX + count_hand m = Z.of_nat (length ws);
  wo_hand : 0 <= count_hand m < BLOCKS_MAX;
  wo_malicious : malicious_header m = [];
}.

(** The rest of the state: the machine, the tables and the allocator are in order. *)
Record detect_ok (ws : list Z) (m : monitor) : Prop := {
  do_mode : mode_ok m;
  do_traffic : 0 <= write_traffic m <= Z.of_nat (length ws);
  do_time : 0 <= pm_use_time m <= EXPECT_L_S;
  do_table : exists w, window_rep w (Table_header m) /\ (length w <= length ws)%nat;
  do_memory : memory_available m;
}.

Definition monitor_ok (ws : list Z) (m : monitor) : Prop := wear_ok ws m /\ detect_ok ws m.

Lemma BLOCKS_MAX_val : BLOCKS_MAX = 4194304.
Proof. done. Qed.

Lemma wear_in_service ws m :
  wear_ok ws m -> detect_ok ws m -> Z.of_nat (length ws) < 2147483648 -> in_service m.
Proof.
  intros Hw Hd Hlen. pose proof (wo_round _ _ Hw) as Hr. pose proof (wo_hand _ _ Hw) as Hh.
  split; [|apply Hd]. rewrite BLOCKS_MAX_val in *. unfold MAX_ENDURANCE. lia.
Qed.

Lemma count_block_ok ws m pid b :
  wear_ok ws m -> 0 <= b < BLOCKS_MAX -> Z.of_nat (length ws) < 2147483648 ->
  exists m', count_block pid b m = Some (tt, m') /\
    (forall x, 0 <= x < BLOCKS_MAX -> block_write_count m' x = occurs x (ws ++ [b])) /\
    (forall x, 0 <= x < BLOCKS_MAX ->
       global_blk_write_count m' x = BlkWriteCount (occurs x (ws ++ [b])) 0) /\
    is_peak (global_max_update m') (ws ++ [b]) /\
    m' = with_block_write_count (block_write_count m')
           (with_global_blk_write_count (global_blk_write_count m')
              (with_global_max_update (global_max_update m') m)).
Proof.
  intros [Hc Hg Hp _ _ Hmal] Hb Hlen. unfold count_block. mrun. rewrite Hmal. cbn [on_list].
  mrun. rewrite (Hg b Hb). unfold count_cell. cbn [write_count write_back_threshold].
  pose proof (occurs_bounds b ws) as Ho. rewrite (u64_small (occurs b ws + 1)) by lia.
  set (m1 := with_global_blk_write_count _ m).
  change (block_write_count m1) with (block_write_count m). rewrite (Hc b Hb), u64_small by lia.
  set (m2 := with_block_write_count _ m1).
  assert (block_write_count m2 b = occurs b ws + 1) as Hb2 by (simpl; by rewrite fn_lookup_insert).
  assert (forall x, 0 <= x < BLOCKS_MAX -> block_write_count m2 x = occurs x (ws ++ [b])) as H1.
  { intros x Hx. simpl. rewrite occurs_snoc. destruct (decide (x = b)) as [->|Hne].
    - by rewrite fn_lookup_insert.
    - rewrite fn_lookup_insert_ne, Hc by done. lia. }
  assert (forall x, 0 <= x < BLOCKS_MAX ->
    global_blk_write_count m2 x = BlkWriteCount (occurs x (ws ++ [b])) 0) as H2.
  { intros x Hx. simpl. rewrite occurs_snoc. destruct (decide (x = b)) as [->|Hne].
    - by rewrite fn_lookup_insert.
    - rewrite fn_lookup_insert_ne, Hg, Z.add_0_r by done. done. }
  pose proof (is_peak_bump _ _ b Hp) as Hpk. rewrite Z.gtb_ltb in Hpk.
  unfold modify. change (global_max_update m2) with (global_max_update m). rewrite Hb2.
  revert Hpk. destruct (global_max_update m <? occurs b ws + 1); intros Hpk; eexists;
    by do 4 (split; [done|]).
Qed.

Lemma count_round_ok n m :
  count_average m * BLOCKS_MAX + count_hand m = n -> 0 <= count_hand m < BLOCKS_MAX ->
  0 <= n < 2147483648 ->
  exists m', count_round m = Some (tt, m') /\
    count_average m' * BLOCKS_MAX + count_hand m' = n + 1 /\
    0 <= count_hand m' < BLOCKS_MAX /\
    m' = with_count_average (count_average m') (with_count_hand (count_hand m') m).
Proof.
  rewrite BLOCKS_MAX_val. intros Hn Hh Hlt. unfold count_round. mrun.
  change (count_hand (with_count_hand (i64 (count_hand m + 1)) m)) with (i64 (count_hand m + 1)).
  rewrite i64_small, BLOCKS_MAX_val by lia.
  destruct (Z.geb_spec (count_hand m + 1) 4194304) as [Hge|Hltb]; mrun; eexists;
    (split; [done|]); simpl.
  - rewrite i64_small by lia. by repeat split; lia.
  - repeat split; lia.
Qed.

(** The wear counters after one more write. *)
Lemma count_write_ok ws m pid b :
  wear_ok ws m -> 0 <= b < BLOCKS_MAX -> Z.of_nat (length ws) < 2147483647 ->
  exists m', (_ ← count_block pid b; count_round) m = Some (tt, m') /\ wear_ok (ws ++ [b]) m' /\
    (detect_ok ws m -> detect_ok ws m') /\ write_traffic m' = write_traffic m.
Proof.
  intros Hw Hb Hlen.
  destruct (count_block_ok ws m pid b Hw Hb) as (m1 & E1 & Hc & Hg & Hp & Hm1); [lia|].
  destruct (count_round_ok (Z.of_nat (length ws)) m1) as (m' & E2 & Hr & Hh & Hm');
    [rewrite Hm1; apply Hw | rewrite Hm1; apply Hw | lia |].
  exists m'. split; [by mstep E1|].
  assert (Z.of_nat (length (ws ++ [b])) = Z.of_nat (length ws) + 1) as Hl
    by (rewrite length_app; simpl; lia).
  split; [|split].
  - split; [rewrite Hm'; done.. | lia | done | rewrite Hm', Hm1; apply Hw].
  - intros [H1 H2 H3 H4 H5]. rewrite Hm', Hm1. by split.
  - by rewrite Hm', Hm1.
Qed.

Lemma detect_ok_more ws b m : detect_ok ws m -> detect_ok (ws ++ [b]) m.
Proof.
  intros [H1 H2 H3 (w & Hw1 & Hw2) H5].
  split; try done; [|exists w; split; [done|]]; rewrite length_app; simpl; lia.
Qed.

Lemma wear_ok_frame ws m m' : mode_frame m m' -> wear_ok ws m -> wear_ok ws m'.
Proof.
  intros [Hc Hg Hx Hh Ha _ _ _ Hm _] []. split; rewrite ?Hc, ?Hg, ?Hx, ?Hh, ?Ha, ?Hm; done.
Qed.

(** Recording a write for the detection, after it has been counted. *)
Lemma record_ok j2m ws e b m :
  wear_ok (ws ++ [b]) m -> detect_ok ws m -> 0 <= b < BLOCKS_MAX -> 0 <= current_pid e ->
  Z.of_nat (length ws) < 2147483647 ->
  exists m', record_one_sec_write_info j2m e (current_pid e) b m = Some (tt, m') /\
    monitor_ok (ws ++ [b]) m'.
Proof.
  intros Hw Hd Hb Hpid Hlen.
  assert (Z.of_nat (length (ws ++ [b])) = Z.of_nat (length ws) + 1) as Hl
    by (rewrite length_app; simpl; lia).
  pose proof (wear_in_service _ m Hw (detect_ok_more _ _ _ Hd) ltac:(lia)) as Hs.
  destruct Hd as [Hmode Htr Htime (w & Hwin & Hlw) Hmem].
  destruct (mode_machine j2m e m Hmode Hs) as (m1 & E1 & _ & Hmode1 & Htr1 & Hs1 & Hfr);
    [unfold traffic_ok; lia|].
  pose proof (wear_ok_frame _ _ _ Hfr Hw) as Hw1.
  assert (memory_available m1) as Hmem1 by (unfold memory_available; by rewrite (mf_memory _ _ Hfr)).
  rewrite <- (mf_table _ _ Hfr) in Hwin. rewrite <- (mf_time _ _ Hfr) in Htime.
  unfold record_one_sec_write_info. mstep E1. mrun.
  assert (detect_ok (ws ++ [b]) m1) as Hd1.
  { split; try done; [lia|]. exists w. rewrite length_app. simpl. split; [done|lia]. }
  destruct Hmode1 as [E|[E|E]]; rewrite E; cbn [Z.eqb Pos.eqb].
  - exists m1. done.
  - eexists. split; [done|]. split; [by destruct Hw1|].
    destruct Hd1. split; try done; simpl. rewrite i64_small; lia.
  - destruct (update_hash_table_spec w m1 (current_pid e) b Hwin Hmem1 Hpid Hb ltac:(lia))
      as (table & E2 & Hwin2).
    mstep E2. eexists. split; [done|].
    destruct (decide (current_pid e ∈ w.*1)); (split; [by destruct Hw1|]);
      destruct Hd1; (split; try done); exists (w ++ [(current_pid e, b)]);
      (split; [done|]); rewrite !length_app; simpl; lia.
Qed.

(** ** A running monitor *)

(** The tables [init_nova_fs] sets up. *)
Definition init_monitor : mon unit :=
  _ ← init_hash_table;
  _ ← init_global_detect_table;
  _ ← init_block_write_count;
  _ ← init_spaceTable;
  initV.

Section running.
Context (jiffies_to_msecs : Z -> Z) (nova_base_address : Z).

(** [monitored ws m]: a state the calls of the file system lead to, after the writes to
    the blocks [ws]: counted writes, counted updates of an inode through its address, the
    timer, questions whether to migrate, and sizes of files.  The device is within its
    expected life, and the writes are fewer than 2^31. *)
Inductive monitored : list Z -> monitor -> Prop :=
  | mt_init m : init_monitor initial_monitor = Some (tt, m) -> monitored [] m
  | mt_write ws m e b m' :
      monitored ws m -> 0 <= b < BLOCKS_MAX -> 0 <= current_pid e ->
      Z.of_nat (length ws) < 2147483647 ->
      write_count_increase jiffies_to_msecs e b m = Some (tt, m') ->
      monitored (ws ++ [b]) m'
  | mt_page ws m e viraddr m' :
      let b := Z.shiftr (u64 (viraddr - nova_base_address)) 12 in
      monitored ws m -> b < BLOCKS_MAX -> Z.of_nat (length ws) < 2147483647 ->
      inode_page_count_increase_by_vir nova_base_address e viraddr m = Some (tt, m') ->
      monitored (ws ++ [b]) m'
  | mt_second ws m m' :
      monitored ws m -> pm_use_time m < EXPECT_L_S -> my_function m = Some (tt, m') ->
      monitored ws m'
  | mt_judge ws m b r m' :
      monitored ws m -> should_migrate b m = Some (r, m') -> monitored ws m'
  | mt_space ws m pid sz m' :
      monitored ws m -> insert_into_spaceTable pid sz m = Some (tt, m') -> monitored ws m'.

Lemma write_count_increase_ok ws m e b :
  monitor_ok ws m -> 0 <= b < BLOCKS_MAX -> 0 <= current_pid e ->
  Z.of_nat (length ws) < 2147483647 ->
  exists m', write_count_increase jiffies_to_msecs e b m = Some (tt, m') /\
    monitor_ok (ws ++ [b]) m'.
Proof.
  intros [Hw Hd] Hb Hpid Hlen. unfold write_count_increase.
  rewrite Z.geb_leb, (proj2 (Z.leb_gt BLOCKS_MAX b)) by lia.
  destruct (count_write_ok ws m (current_pid e) b Hw Hb Hlen) as (m1 & E1 & Hw1 & Hd1 & _).
  destruct (record_ok jiffies_to_msecs ws e b m1) as (m' & E2 & Hok); auto.
  exists m'. split; [|done].
  unfold mbind, mon_bind in *. destruct (count_block (current_pid e) b m) as [[[] m2]|]; [|done].
  by rewrite E1.
Qed.

Lemma page_count_increase_ok ws m e viraddr :
  let b := Z.shiftr (u64 (viraddr - nova_base_address)) 12 in
  monitor_ok ws m -> b < BLOCKS_MAX -> Z.of_nat (length ws) < 2147483647 ->
  exists m', inode_page_count_increase_by_vir nova_base_address e viraddr m = Some (tt, m') /\
    monitor_ok (ws ++ [b]) m'.
Proof.
  intros b [Hw Hd] Hb Hlen. unfold inode_page_count_increase_by_vir. fold b.
  assert (0 <= b) by (apply Z.shiftr_nonneg, u64_range).
  rewrite Z.geb_leb, (proj2 (Z.leb_gt BLOCKS_MAX b)) by lia.
  destruct (count_block_ok ws m (current_pid e) b Hw ltac:(lia) ltac:(lia))
    as (m1 & E1 & Hc & Hg & Hp & Hm1).
  mstep E1. mrun. set (m2 := with_write_traffic _ m1).
  destruct (count_round_ok (Z.of_nat (length ws)) m2) as (m' & E2 & Hr & Hh & Hm');
    [simpl; rewrite Hm1; apply Hw | simpl; rewrite Hm1; apply Hw | lia |].
  exists m'. split; [done|].
  assert (Z.of_nat (length (ws ++ [b])) = Z.of_nat (length ws) + 1) as Hl
    by (rewrite length_app; simpl; lia).
  split.
  - split; [rewrite Hm'; done.. | lia | done | rewrite Hm'; simpl; rewrite Hm1; apply Hw].
  - destruct (detect_ok_more _ b _ Hd) as [H1 _ H3 H4 H5]. destruct (do_traffic _ _ Hd).
    rewrite Hm'. unfold m2. rewrite Hm1. split; try done. simpl.
    rewrite i64_small; lia.
Qed.

Lemma should_migrate_frame b m r m' :
  should_migrate b m = Some (r, m') ->
  m' = with_max_deviation (max_deviation m') (with_exceed_average (exceed_average m') m).
Proof.
  unfold should_migrate. destruct (negb _); [done|]. mrun.
  destruct (write_count _ <? _); [mrun; intros E; by injection E as <- <-|].
  mrun. destruct (u64 _ <? _); mrun; intros E; by injection E as <- <-.
Qed.

Lemma insert_into_spaceTable_frame pid sz m m' :
  memory_available m -> insert_into_spaceTable pid sz m = Some (tt, m') ->
  m' = with_spaceTable (spaceTable m') m.
Proof.
  intros Hm. unfold insert_into_spaceTable. destruct (space_key pid); [|done]. mrun.
  destruct (spaceTable m !! _); [|done]. mrun.
  destruct (find_space pid _) as [[??]|]; [by intros [= <-]|].
  mstep (kmalloc_available m Hm). by intros [= <-].
Qed.

Lemma alloc_rows_ok n m : memory_available m -> alloc_rows n m = Some (tt, m).
Proof.
  intros Hm. induction n as [|n IH]; [done|]. cbn [alloc_rows].
  by mstep (kmalloc_available m Hm).
Qed.

Lemma init_monitor_ok : exists m, init_monitor initial_monitor = Some (tt, m) /\ monitor_ok [] m.
Proof.
  unfold init_monitor. do 4 (erewrite bind_step by reflexivity).
  unfold initV. mstep (alloc_rows_ok (S (Z.to_nat sizeV)) (with_spaceTable
    (replicate (Z.to_nat spaceTableVolume) []) (with_block_write_count (fun _ => 0)
    (with_global_blk_write_count (fun _ => BlkWriteCount 0 0) (with_global_detect_table
    empty_detect_table (with_Table_header (replicate (Z.to_nat MAX_KEY) []) initial_monitor)))))
    eq_refl).
  eexists. split; [reflexivity|]. split; split; try done.
  - apply is_peak_nil.
  - by left.
  - exists []. split; [apply init_window_rep | done].
Qed.

Lemma monitored_ok ws m :
  monitored ws m -> monitor_ok ws m /\ Z.of_nat (length ws) < 2147483648.
Proof.
  induction 1 as [m E|ws m e b m' _ [IH _] Hb Hp Hlen E|ws m e a m' b _ [IH _] Hb Hlen E
    |ws m m' _ [[Hw Hd] Hl] Ht E|ws m b r m' _ [[Hw Hd] Hl] E|ws m pid sz m' _ [[Hw Hd] Hl] E].
  - destruct init_monitor_ok as (m' & E' & Hok). split; [|done]. by assert (m = m') as -> by congruence.
  - destruct (write_count_increase_ok ws m e b IH Hb Hp Hlen) as (m1 & E1 & Hok).
    assert (m' = m1) as -> by congruence. split; [done|]. rewrite length_app. simpl. lia.
  - destruct (page_count_increase_ok ws m e a IH Hb Hlen) as (m1 & E1 & Hok).
    assert (m' = m1) as -> by congruence. split; [done|]. rewrite length_app. simpl. lia.
  - injection E as <-. split; [|done]. destruct Hw, Hd. split; split; try done.
    simpl. rewrite u64_small; unfold EXPECT_L_S, EXPECT_L, D_YEARS in *; lia.
  - rewrite (should_migrate_frame _ _ _ _ E). split; [|done]. destruct Hw, Hd. by split; split.
  - rewrite (insert_into_spaceTable_frame _ _ _ _ (do_memory _ _ Hd) E). split; [|done].
    destruct Hw, Hd. by split; split.
Qed.

(** C20: In a running monitor the counters are exact: each block has its number of writes, in
    both arrays; [global_max_update] is the largest of them; and [count_average] is the
    average number of writes per block, rounded down. *)
Theorem wear_counters_exact ws m :
  monitored ws m ->
  (forall b, 0 <= b < BLOCKS_MAX ->
     block_write_count m b = occurs b ws /\
     write_count (global_blk_write_count m b) = occurs b ws) /\
  is_peak (global_max_update m) ws /\
  count_average m = Z.of_nat (length ws) / BLOCKS_MAX.
Proof.
  intros [[[Hc Hg Hp Hr Hh _] _] _]%monitored_ok. split; [|split; [done|]].
  - intros b Hb. by rewrite Hc, Hg.
  - rewrite <- Hr, Z.div_add_l, (Z.div_small (count_hand m)) by (rewrite ?BLOCKS_MAX_val in *; lia).
    lia.
Qed.

(** Counting a write never fails: whatever mode the detection is in, the write is
    counted and the state stays one of a running monitor. *)
Theorem counting_never_fails ws m e b :
  monitored ws m -> 0 <= b < BLOCKS_MAX -> 0 <= current_pid e ->
  Z.of_nat (length ws) < 2147483647 ->
  exists m', write_count_increase jiffies_to_msecs e b m = Some (tt, m') /\
    block_write_count m' b = block_write_count m b + 1 /\
    (forall x, 0 <= x < BLOCKS_MAX -> x <> b -> block_write_count m' x = block_write_count m x).
Proof.
  intros Hmon Hb Hp Hlen. destruct (monitored_ok _ _ Hmon) as [Hok _].
  destruct (write_count_increase_ok ws m e b Hok Hb Hp Hlen) as (m' & E & Hw' & _).
  exists m'. split; [done|]. destruct Hok as [Hw _]. split.
  - rewrite (wo_counts _ _ Hw'), (wo_counts _ _ Hw) by done. apply occurs_snoc_same.
  - intros x Hx Hne. rewrite (wo_counts _ _ Hw'), (wo_counts _ _ Hw) by done.
    by apply occurs_snoc_other.
Qed.

(** No process is ever marked malicious: the detection ends a per-process window
    without judging it, and nothing else a running monitor does marks a process. *)
Theorem no_process_marked ws m pid :
  monitored ws m ->
  malicious_header m = [] /\ is_in_malicious_process_list pid m = Some (false, m).
Proof.
  intros [[Hw _] _]%monitored_ok. pose proof (wo_malicious _ _ Hw) as E. split; [done|].
  unfold is_in_malicious_process_list, gets. by rewrite E.
Qed.
End running.

(** ** Writes of a malicious process *)

(** Of the writes of a malicious process to a block, one in [WB_THRESHOLD] is counted as
    a write to the device, beginning with the one after the first [WB_THRESHOLD]. *)
Theorem malicious_writes_batched c k :
  0 <= c -> c + Z.of_nat k < 18446744073709551616 ->
  Nat.iter (S k) (count_cell true) (BlkWriteCount c 0) =
    BlkWriteCount (c + Z.of_nat k / WB_THRESHOLD) (Z.of_nat k mod WB_THRESHOLD + 1).
Proof.
  intros Hc Hlt. unfold WB_THRESHOLD.
  induction k as [|k IH]; [by rewrite Z.add_0_r|].
  rewrite Nat.iter_succ, IH by lia. unfold count_cell. cbn [write_count write_back_threshold].
  unfold WB_THRESHOLD. rewrite Nat2Z.inj_succ. unfold Z.succ.
  destruct (Z.geb_spec (Z.of_nat k mod 5 + 1) 5) as [H|H]; cbn [write_count write_back_threshold].
  - rewrite u64_small by mlia. f_equal; [mlia|]. unfold i8. change ((0 + 1 + 128) mod 256 - 128) with 1. mlia.
  - f_equal; [mlia|]. unfold i8. mlia.
Qed.

(** ** The decision to migrate *)

(** C23: A page is migrated exactly when its count has reached [max_deviation]; the
    threshold then rises by [DEVIATION_HIGH] when it is less than half of that above the
    average, but stays when the average has already overtaken it. *)
Theorem should_migrate_exact b m :
  0 <= b < BLOCKS_MAX -> 0 <= max_deviation m < 4611686018427387904 ->
  0 <= count_average m < 4611686018427387904 ->
  exists m', should_migrate b m =
      Some (max_deviation m <=? write_count (global_blk_write_count m b), m') /\
    max_deviation m' =
      (if (max_deviation m <=? write_count (global_blk_write_count m b)) &&
          (count_average m <=? max_deviation m) &&
          (max_deviation m <? count_average m + 200)
       then max_deviation m + DEVIATION_HIGH else max_deviation m).
Proof.
  intros Hb Hd Ha. unfold should_migrate.
  rewrite (proj2 (Z.leb_le 0 b)), (proj2 (Z.ltb_lt b BLOCKS_MAX)) by lia. cbn [andb negb]. mrun.
  rewrite u64_small by lia.
  destruct (Z.ltb_spec (write_count (global_blk_write_count m b)) (max_deviation m)) as [H|H].
  - rewrite (proj2 (Z.leb_gt _ _)) by lia. mrun. by eexists.
  - rewrite (proj2 (Z.leb_le _ _)) by lia. mrun. rewrite (u64_small (count_average m)) by lia.
    cbn [andb]. change (DEVIATION_HIGH / 2) with 200.
    destruct (Z.leb_spec (count_average m) (max_deviation m)) as [Hle|Hgt]; cbn [andb].
    + rewrite u64_small by lia.
      destruct (Z.ltb_spec (max_deviation m - count_average m) 200) as [H2|H2]; mrun.
      * rewrite (proj2 (Z.ltb_lt (max_deviation m) _)) by lia. eexists. split; [done|]. simpl.
        unfold DEVIATION_HIGH. rewrite i64_small; lia.
      * rewrite (proj2 (Z.ltb_ge (max_deviation m) _)) by lia. by eexists.
    + replace (u64 (max_deviation m - count_average m))
        with (max_deviation m - count_average m + 18446744073709551616) by (unfold u64; mlia).
      rewrite (proj2 (Z.ltb_ge _ 200)) by lia. mrun. by eexists.
Qed.

(** ** Concrete runs *)

Module CountDemo.
Import DetectDemo.

(** Two writes to block 7 and one to block 9, after start-up. *)
Lemma demo_run : exists m, monitored msecs_250 0 [7; 9; 7] m.
Proof.
  destruct init_monitor_ok as (m0 & E0 & H0).
  assert (forall b, b = 7 \/ b = 9 -> 0 <= b < BLOCKS_MAX) as Hr by (rewrite BLOCKS_MAX_val; lia).
  destruct (write_count_increase_ok msecs_250 [] m0 (demo_env 0) 7 H0 ltac:(auto) ltac:(done)
    ltac:(done)) as (m1 & E1 & H1).
  destruct (write_count_increase_ok msecs_250 _ m1 (demo_env 9) 9 H1 ltac:(auto) ltac:(done)
    ltac:(done)) as (m2 & E2 & H2).
  destruct (write_count_increase_ok msecs_250 _ m2 (demo_env 99) 7 H2 ltac:(auto) ltac:(done)
    ltac:(done)) as (m3 & E3 & _).
  exists m3.
  apply (mt_write _ _ [7; 9] m2 (demo_env 99) 7 m3); [|auto|done|done|exact E3].
  apply (mt_write _ _ [7] m1 (demo_env 9) 9 m2); [|auto|done|done|exact E2].
  apply (mt_write _ _ [] m0 (demo_env 0) 7 m1); [|auto|done|done|exact E1].
  by apply mt_init.
Qed.

Lemma wear_counters_exact_witness :
  exists m, monitored msecs_250 0 [7; 9; 7] m /\ block_write_count m 7 = 2 /\
    write_count (global_blk_write_count m 9) = 1 /\ count_average m = 0.
Proof.
  destruct demo_run as [m Hm]. exists m. split; [exact Hm|].
  destruct (wear_counters_exact _ _ _ _ Hm) as (Hc & _ & Ha).
  split; [apply (Hc 7); vm_compute; intuition congruence|].
  split; [apply (Hc 9); vm_compute; intuition congruence | exact Ha].
Defined.

Lemma counting_never_fails_witness :
  exists m m', monitored msecs_250 0 [7; 9; 7] m /\
    write_count_increase msecs_250 (demo_env 500) 7 m = Some (tt, m') /\
    block_write_count m' 7 = block_write_count m 7 + 1.
Proof.
  destruct demo_run as [m Hm].
  destruct (counting_never_fails _ _ _ _ (demo_env 500) 7 Hm) as (m' & E & H & _);
    [vm_compute; intuition congruence | discriminate | reflexivity |].
  exists m, m'. split; [exact Hm|]. split; [exact E | exact H].
Defined.

Lemma no_process_marked_witness :
  exists m, monitored msecs_250 0 [7; 9; 7] m /\
    is_in_malicious_process_list 41 m = Some (false, m).
Proof.
  destruct demo_run as [m Hm]. exists m. split; [exact Hm|].
  apply (no_process_marked _ _ _ _ 41 Hm).
Defined.

(** Twelve writes: five, then one counted, five more, then one counted. *)
Lemma malicious_writes_batched_witness :
  Nat.iter 12 (count_cell true) (BlkWriteCount 3 0) = BlkWriteCount 5 2.
Proof. apply (malicious_writes_batched 3 11); lia. Defined.

(** A count of 500 with the initial threshold of 400, at an average of 300 and at one
    of 450. *)
Definition demo_worn (average : Z) : monitor :=
  with_count_average average
    (with_global_blk_write_count (fun _ => BlkWriteCount 500 0) initial_monitor).

Lemma should_migrate_exact_witness :
  (exists m', should_migrate 7 (demo_worn 300) = Some (true, m') /\ max_deviation m' = 800) /\
  (exists m', should_migrate 7 (demo_worn 450) = Some (true, m') /\ max_deviation m' = 400).
Proof.
  split.
  - apply (should_migrate_exact 7 (demo_worn 300)); vm_compute; intuition congruence.
  - apply (should_migrate_exact 7 (demo_worn 450)); vm_compute; intuition congruence.
Defined.

End CountDemo.
