(* ===== verification/Migrate.v ===== *)
(** * Migration of worn pages (wearleveling.c, writecount.c)

    A page of inodes or of the journal whose block has been written too often is copied
    to a new block, and the pointer to it is changed.  The file system is a pair of its
    state and the wear monitor. *)

From S2P Require Import Prelude Layout RangeTree RbList State Balloc BallocFacts BallocSpec.
From S2P Require Import BallocInit TreeEdits InodeMap LogBlocks InodeTable.
From S2P Require Import Monitor Histogram HashTable Records KnapSack Detect WriteCount.

(** ** The operations *)

Section operations.
Context `{RbTree} (slab_garbage : nova_range_node) (smp : Z) (jiffies_to_msecs : Z -> Z).

(** Running an operation of the monitor. *)
Definition monitored_call {A} (c : mon A) (sbi : nova_sb_info) (m : monitor)
  : option (A * nova_sb_info * monitor) :=
  match c m with
  | Some (x, m') => Some (x, sbi, m')
  | None => None
  end.

(** [migrate_inode_page]; the result is a [char].  The two error returns in the middle
    leave the mutex of the table held. *)
Definition migrate_inode_page (sbi : nova_sb_info) (m : monitor) (e : env) (ino blocknr : Z)
  : option (Z * nova_sb_info * monitor) :=
  match nova_get_inode_by_ino (virt_addr sbi) NOVA_INODETABLE_INO with
  | None => Some (-1, sbi, m)
  | Some pi =>
    data_bits ← blk_type_to_shift (Pi.i_blk_type (nvm sbi) pi);
    let num_inodes_bits := u32 (data_bits - NOVA_INODE_BITS) in
    if cpus sbi =? 0 then None
    else
      let cpuid := ino mod cpus sbi in
      let internal_ino := ino / cpus sbi in
      sbi ← mutex_lock sbi cpuid;
      let superpage_count := u32 (Z.shiftr internal_ino num_inodes_bits) in
      curr ← table_read sbi cpuid superpage_count;
      if curr =? 0 then Some (- EINVAL, sbi, m)
      else
        let curr_addr := nova_get_block (virt_addr sbi) curr in
        res ← nova_new_log_blocks sbi smp pi blocknr 1 1;
        let '(allocated, blocknr, sbi) := (res : Z * Z * nova_sb_info) in
        if negb (allocated =? 1) then Some (i8 allocated, sbi, m)
        else
          let migrate := nova_get_block_off blocknr in
          let migrate_addr := nova_get_block (virt_addr sbi) migrate in
          res ← monitored_call (write_count_increase jiffies_to_msecs e blocknr) sbi m;
          let '(_, sbi, m) := (res : unit * nova_sb_info * monitor) in
          let sbi := with_nvm (memcpy (nvm sbi) migrate_addr curr_addr 4096) sbi in
          sbi ← table_write sbi cpuid superpage_count migrate;
          Some (0, mutex_unlock sbi cpuid, m)
  end.

(** [active_migrate_inode_table_page]: the page of the inode at [viraddr]. *)
Definition active_migrate_inode_table_page (sbi : nova_sb_info) (m : monitor) (e : env)
    (viraddr blocknr : Z) : option (Z * nova_sb_info * monitor) :=
  let ino := Pi.nova_ino (nvm sbi) viraddr in
  let block_num := get_block_number_by_virt (virt_addr sbi) viraddr in
  if ino <? NOVA_NORMAL_INODE_START then Some (0, sbi, m)
  else
    res ← monitored_call (should_migrate block_num) sbi m;
    let '(yes, sbi, m) := (res : bool * nova_sb_info * monitor) in
    if yes then
      res ← migrate_inode_page sbi m e ino blocknr;
      let '(_, sbi, m) := (res : Z * nova_sb_info * monitor) in
      Some (0, sbi, m)
    else Some (0, sbi, m).

(** The inode number is read before the write is counted. *)
Definition inode_page_count_increase_with_migrate (sbi : nova_sb_info) (m : monitor) (e : env)
    (viraddr blocknr : Z) : option (nova_sb_info * monitor) :=
  let block_num := get_block_number_by_virt (virt_addr sbi) viraddr in
  let ino := Pi.nova_ino (nvm sbi) viraddr in
  res ← monitored_call (write_count_increase jiffies_to_msecs e block_num) sbi m;
  let '(_, sbi, m) := (res : unit * nova_sb_info * monitor) in
  if ino <? NOVA_NORMAL_INODE_START then Some (sbi, m)
  else
    res ← monitored_call (should_migrate block_num) sbi m;
    let '(yes, sbi, m) := (res : bool * nova_sb_info * monitor) in
    if yes then
      res ← migrate_inode_page sbi m e ino blocknr;
      let '(_, sbi, m) := (res : Z * nova_sb_info * monitor) in
      Some (sbi, m)
    else Some (sbi, m).

(** [active_migrate_journal_page]: [pair] is the address of the head and tail pointers,
    [viraddr] an offset in the journal page. *)
Definition active_migrate_journal_page (sbi : nova_sb_info) (m : monitor) (e : env)
    (pair viraddr blocknr : Z) : option (Z * nova_sb_info * monitor) :=
  let block_num := Z.shiftr viraddr 12 in
  res ← monitored_call (should_migrate block_num) sbi m;
  let '(yes, sbi, m) := (res : bool * nova_sb_info * monitor) in
  if negb yes then Some (0, sbi, m)
  else
    match nova_get_inode_by_ino (virt_addr sbi) NOVA_INODETABLE_INO with
    | None => None
    | Some pi =>
      let head := load 8 (nvm sbi) pair in
      let tail := load 8 (nvm sbi) (pair + 8) in
      res ← nova_new_log_blocks sbi smp pi blocknr 1 1;
      let '(allocated, blocknr, sbi) := (res : Z * Z * nova_sb_info) in
      if negb (allocated =? 1) then Some (i8 allocated, sbi, m)
      else
        let migrate := nova_get_block_off blocknr in
        let migrate_addr := nova_get_block (virt_addr sbi) migrate in
        let curr_addr := nova_get_block (virt_addr sbi) (nova_get_block_off block_num) in
        res ← monitored_call (write_count_increase jiffies_to_msecs e blocknr) sbi m;
        let '(_, sbi, m) := (res : unit * nova_sb_info * monitor) in
        let mem := memcpy (nvm sbi) migrate_addr curr_addr 4096 in
        let mem := store 8 mem pair (u64 (migrate + Z.land head 4095)) in
        let mem := store 8 mem (pair + 8) (u64 (migrate + Z.land tail 4095)) in
        let sbi := with_nvm mem sbi in
        res ← nova_free_log_blocks slab_garbage sbi pi block_num 1;
        let '(_, sbi) := (res : Z * nova_sb_info) in
        Some (0, sbi, m)
    end.

(** [active_migrate_inode_log_page] returns before it does anything. *)
Definition active_migrate_inode_log_page (sbi : nova_sb_info) (m : monitor)
  : nova_sb_info * monitor := (sbi, m).
End operations.

(** ** Migrating a page of inodes *)

(** Page [j] of CPU [c]'s table becomes [b]. *)
Definition set_page (P : Z -> list Z) (c : Z) (j : nat) (b : Z) : Z -> list Z :=
  fun d => if decide (d = c) then <[j := b]> (P c) else P d.

Lemma table_of_insert pages j b :
  (j < length pages)%nat -> <[j := 4096 * b]> (table_of pages) = table_of (<[j := b]> pages).
Proof.
  intros Hj. unfold table_of. rewrite length_insert, insert_app_l by (by rewrite length_map).
  f_equal. change (map (fun b => 4096 * b)) with (fmap (M:=list) (fun b => 4096 * b)).
  by rewrite list_fmap_insert.
Qed.

Lemma set_page_cases P c j b d i x :
  set_page P c j b d !! i = Some x ->
  (d = c /\ i = j /\ x = b) \/ (P d !! i = Some x /\ (d <> c \/ i <> j)).
Proof.
  unfold set_page. case_decide as Hd; [subst d|by right; auto].
  intros [(-> & -> & _)|[Hne Hi]]%list_lookup_insert_Some; [by left | right; auto].
Qed.

Lemma table_replace_ok sbi P c j b :
  tables_ok sbi P -> 0 <= c < cpus sbi -> (j < length (P c))%nat ->
  0 < b < num_blocks sbi -> (forall d, 0 <= d < cpus sbi -> b ∉ P d) ->
  exists T, table_write sbi c (Z.of_nat j) (4096 * b) =
      Some (with_inode_page_mapping_tables T sbi) /\
    tables_ok (with_inode_page_mapping_tables T sbi) (set_page P c j b).
Proof.
  intros Hok Hc Hj Hb Hnew. destruct (to_table _ _ Hok c Hc) as [E Hlen].
  unfold table_write, nova_get_inode_page_mapping_table.
  rewrite (proj2 (Z.ltb_lt c (cpus sbi))), (proj2 (Z.ltb_ge c 0)), E by lia. simpl.
  rewrite length_table_of by lia.
  rewrite (proj2 (Z.leb_le _ _)), (proj2 (Z.ltb_lt _ _)) by lia. simpl.
  rewrite Nat2Z.id, table_of_insert by done. eexists. split; [done|].
  destruct (to_cpus _ _ Hok) as (Hcp & Ht & Hlk).
  split; simpl; [by rewrite length_insert| | | |apply Hok].
  - intros d Hd. unfold set_page. case_decide as Hdc.
    + subst d. rewrite list_lookup_insert_eq, length_insert by lia. done.
    + rewrite list_lookup_insert_ne by lia. by apply (to_table _ _ Hok).
  - intros d x Hd (i & Hi)%list_elem_of_lookup.
    destruct (set_page_cases _ _ _ _ _ _ _ Hi) as [(_ & _ & ->)|[Hx _]]; [done|].
    by eapply (to_pages _ _ Hok d), list_elem_of_lookup_2.
  - intros d e i k x Hd He Hi Hk.
    destruct (set_page_cases _ _ _ _ _ _ _ Hi) as [(-> & -> & ->)|[Hx _]],
      (set_page_cases _ _ _ _ _ _ _ Hk) as [(-> & -> & Hxb)|[Hy _]]; subst; try done.
    + destruct (Hnew e He). by eapply list_elem_of_lookup_2.
    + destruct (Hnew d Hd). by eapply list_elem_of_lookup_2.
    + by apply (to_distinct _ _ Hok d e i k x).
Qed.

(** The monitor takes one more write, to whatever block. *)
Lemma count_any_block j2m ws m e b :
  monitor_ok ws m -> 0 <= b -> 0 <= current_pid e -> Z.of_nat (length ws) < 2147483647 ->
  exists ws' m', write_count_increase j2m e b m = Some (tt, m') /\ monitor_ok ws' m' /\
    (length ws' <= S (length ws))%nat.
Proof.
  intros Hok Hb Hp Hlen. destruct (Z.ltb_spec b BLOCKS_MAX) as [Hlt|Hge].
  - destruct (write_count_increase_ok j2m ws m e b) as (m' & E & Hok'); [done|lia|done..|].
    exists (ws ++ [b]), m'. rewrite length_app. simpl. split_and!; [done..|lia].
  - exists ws, m. split; [|split; [done|lia]]. unfold write_count_increase.
    by rewrite Z.geb_leb, (proj2 (Z.leb_le BLOCKS_MAX b)) by lia.
Qed.

Section migrate.
Context `{RbTree} {L : LogBlocks} (smp : Z) (jiffies_to_msecs : Z -> Z).
Implicit Types (sbi : nova_sb_info) (F : Z -> Prop) (P : Z -> list Z).

(** Page [j] of CPU [c], which was block [old], has moved to block [nr]: a block that was
    free, with the bytes of the old one; no other byte, table or lock has changed. *)
Record migrated sbi F P (c : Z) (j : nat) (old nr : Z) sbi' : Prop := {
  mg_inv : table_inv smp sbi' (fun b => F b /\ b <> nr) (set_page P c j nr);
  mg_fresh : F nr;
  mg_geometry : virt_addr sbi' = virt_addr sbi /\ cpus sbi' = cpus sbi /\
    num_blocks sbi' = num_blocks sbi;
  mg_locks : inode_page_mapping_table_locks sbi' = inode_page_mapping_table_locks sbi;
  mg_copy o : 0 <= o < 4096 -> nvm sbi' (block_addr sbi nr + o) = nvm sbi (block_addr sbi old + o);
  mg_same a : ~ block_addr sbi nr <= a < block_addr sbi (nr + 1) -> nvm sbi' a = nvm sbi a;
}.

Lemma page_addr sbi b :
  mapped sbi -> 0 < b < num_blocks sbi -> num_blocks sbi < 2147483648 ->
  nova_get_block (virt_addr sbi) (4096 * b) = block_addr sbi b.
Proof.
  intros [Hv Hm] Hb Hs. unfold nova_get_block, block_addr.
  rewrite (proj2 (Z.eqb_neq (4096 * b) 0)) by lia. by wrap.
Qed.

(** Copying to the new block and changing the table. *)
Lemma copy_page_ok sbi F P c j old nr sbi2 :
  table_inv smp sbi F P -> 0 <= c < cpus sbi -> P c !! j = Some old ->
  same_geometry sbi sbi2 -> F nr -> lb_free sbi2 (fun b => F b /\ b <> nr) ->
  zeroed_page sbi nr (nvm sbi) (nvm sbi2) ->
  exists sbi', table_write
      (with_nvm (memcpy (nvm sbi2) (nova_get_block (virt_addr sbi2) (nova_get_block_off nr))
                   (nova_get_block (virt_addr sbi) (4096 * old)) 4096) sbi2)
      c (Z.of_nat j) (nova_get_block_off nr) = Some sbi' /\
    migrated sbi F P c j old nr sbi'.
Proof.
  intros [Hf Ht Hm Hap Hs] Hc Hj Hg HF Hf2 [Hz Hsame].
  pose proof (lb_bounds sbi F nr Hf HF) as Hnr. pose proof (lb_size sbi F Hf) as Hsz.
  pose proof (to_pages _ _ Ht c old Hc (list_elem_of_lookup_2 _ _ _ Hj)) as Hold.
  assert (old <> nr) as Hne.
  { intros ->. by apply (Hap c nr Hc (list_elem_of_lookup_2 _ _ _ Hj)). }
  pose proof Hg as [Ev Ec En _ _ [Et El] _ _ _].
  rewrite nova_get_block_off_alt, Ev, !page_addr by (auto; lia).
  set (sbi3 := with_nvm _ sbi2).
  assert (forall a, ~ block_addr sbi nr <= a < block_addr sbi (nr + 1) ->
    nvm sbi3 a = nvm sbi a) as Hs3.
  { intros a Ha. simpl. unfold memcpy, block_addr in *. rewrite <- Hsame by lia.
    case_cmp; [lia|done]. }
  assert (tables_ok sbi3 P) as Ht3.
  { apply (tables_ok_frame sbi sbi3 P Ht Hm); [by destruct Hg; split | | lia].
    intros a Ha. apply Hs3. unfold block_addr in *. lia. }
  destruct (table_replace_ok sbi3 P c j nr) as (T & E & Ht'); simpl; rewrite ?Ec, ?En; auto.
  { by eapply lookup_lt_Some. }
  { intros d Hd Hin. by apply (Hap d nr Hd Hin). }
  eexists. split; [exact E|]. split; simpl; auto.
  - split; simpl; rewrite ?Ec; auto.
    + eapply lb_local; [exact Hf2|]. by split.
    + destruct Hm. split; simpl; rewrite ?Ev, ?En; auto.
    + intros d b Hd (i & Hi)%list_elem_of_lookup.
      destruct (set_page_cases _ _ _ _ _ _ _ Hi) as [(_ & _ & ->)|[Hb _]]; [tauto|].
      intros [Hb2 _]. by apply (Hap d b Hd (list_elem_of_lookup_2 _ _ _ Hb)).
  - intros o Ho. unfold memcpy. unfold block_addr in *.
    rewrite (proj2 (Z.leb_le _ _)), (proj2 (Z.ltb_lt _ _)) by lia. simpl.
    rewrite Hsame by lia. f_equal. lia.
Qed.

Lemma migrated_unlock sbi F P c j old nr sbi' :
  unlocked sbi -> 0 <= c < cpus sbi -> migrated (with_lock sbi c true) F P c j old nr sbi' ->
  migrated sbi F P c j old nr (mutex_unlock sbi' c) /\ unlocked (mutex_unlock sbi' c).
Proof.
  intros Hu Hc [Hinv HF (Ev & Ec & En) Hl Hcp Hsm]. simpl in Ev, Ec, En, Hl.
  assert (inode_page_mapping_table_locks (mutex_unlock sbi' c) = inode_page_mapping_table_locks sbi) as Eq
    by (simpl; rewrite Hl; by apply unlock_relock).
  split.
  - split; auto. by apply (table_inv_lock smp sbi' _ _ c false).
  - intros d Hd. rewrite Eq. apply Hu. simpl in Hd. lia.
Qed.

Lemma migrate_inode_page_spec sbi F P ws m e ino blocknr old :
  let c := ino mod cpus sbi in
  let j := Z.to_nat (ino / cpus sbi / 32) in
  table_inv smp sbi F P -> unlocked sbi -> monitor_ok ws m ->
  Z.of_nat (length ws) < 2147483647 -> 0 <= current_pid e ->
  0 <= ino -> P c !! j = Some old ->
  exists ret sbi' m' ws',
    migrate_inode_page smp jiffies_to_msecs sbi m e ino blocknr = Some (ret, sbi', m') /\
    monitor_ok ws' m' /\
    ((ret = 0 /\ unlocked sbi' /\ exists nr, migrated sbi F P c j old nr sbi') \/
     (ret = - ENOSPC /\ deadlocked sbi' c /\ nvm sbi' = nvm sbi /\ m' = m)).
Proof.
  intros c j Hinv Hu Hmon Hlen Hpid Hi Hj. pose proof Hinv as [Hf Ht Hm Hap Hs].
  destruct (to_cpus _ _ Ht) as (Hcp & Hlt & Hll).
  assert (0 <= c < cpus sbi) as Hc by (apply Z.mod_pos_bound; lia).
  assert (0 <= ino / cpus sbi) as Hk by (apply Z.div_pos; lia).
  destruct (to_table _ _ Ht c Hc) as [_ Hl]. pose proof (lookup_lt_Some _ _ _ Hj) as Hjl.
  assert (0 <= ino / cpus sbi / 32 < 512) as Hk32.
  { split; [apply Z.div_pos; lia|]. unfold j, TABLE_NUM in *. lia. }
  unfold migrate_inode_page.
  change (nova_get_inode_by_ino (virt_addr sbi) NOVA_INODETABLE_INO) with (Some (table_pi sbi)).
  cbv beta iota. rewrite (to_type _ _ Ht). change (blk_type_to_shift NOVA_BLOCK_TYPE_4K) with (Some 12).
  cbn [mbind option_bind]. rewrite (proj2 (Z.eqb_neq (cpus sbi) 0)) by lia. fold c.
  rewrite (mutex_lock_ok sbi P c Ht Hu Hc). fold (with_lock sbi c true). cbn [mbind option_bind].
  pose proof (table_inv_lock smp sbi F P c true Hinv) as Hinv1.
  set (sbi1 := with_lock sbi c true) in *.
  destruct (table_indices (ino / cpus sbi)) as [-> _]; [mlia|].
  pose proof Hinv1 as [Hf1 Ht1 _ _ _].
  rewrite (table_read_ok sbi1 P c) by (auto; unfold TABLE_NUM; lia).
  fold j. rewrite Hj. cbn [mbind option_bind].
  pose proof (to_pages _ _ Ht c old Hc (list_elem_of_lookup_2 _ _ _ Hj)) as Hold.
  rewrite (proj2 (Z.eqb_neq (4096 * old) 0)) by lia.
  destruct (lb_new sbi1 F smp (table_pi sbi) blocknr Hf1 Hm Hs (to_type _ _ Ht))
    as (ret & nr & sbi2 & E & Hg & _ & [(-> & HF & Hf2 & Hz)|(-> & -> & Hf2 & Hmem)]); rewrite E;
    cbn [mbind option_bind negb Z.eqb Pos.eqb].
  - destruct (count_any_block jiffies_to_msecs ws m e nr Hmon) as (ws' & m' & Ew & Hmon' & _);
      [pose proof (lb_bounds _ _ _ Hf HF); lia | done | done |].
    unfold monitored_call. rewrite Ew. cbn [mbind option_bind].
    destruct (copy_page_ok sbi1 F P c j old nr sbi2 Hinv1 Hc Hj Hg HF Hf2 Hz) as (sbi' & E' & Hmg).
    replace (ino / cpus sbi / 32) with (Z.of_nat j) by (unfold j; lia).
    change (virt_addr sbi1) with (virt_addr sbi) in E'. simpl virt_addr.
    rewrite E'. cbn [mbind option_bind].
    destruct (migrated_unlock sbi F P c j old nr sbi' Hu Hc Hmg) as [Hmg' Hu'].
    exists 0, (mutex_unlock sbi' c), m', ws'. split; [done|]. split; [done|]. left. eauto.
  - exists (- ENOSPC), sbi2, m, ws. split; [done|]. split; [done|]. right.
    split; [done|]. split; [|done]. unfold deadlocked.
    destruct Hg as [_ _ _ _ _ [_ ->] _ _ _]. simpl. apply list_lookup_insert_eq. lia.
Qed.

(** Every inode keeps its bytes: those of the moved page at their new place. *)
Lemma migrated_bytes sbi F P c j old nr sbi' x b :
  tables_ok sbi P -> 0 <= c < cpus sbi -> P c !! j = Some old ->
  (forall d, 0 <= d < cpus sbi -> nr ∉ P d) ->
  migrated sbi F P c j old nr sbi' -> 0 <= x -> inode_slot (cpus sbi) P x = Some b ->
  exists b', inode_slot (cpus sbi) (set_page P c j nr) x = Some b' /\
    forall o, 0 <= o < NOVA_INODE_SIZE ->
      nvm sbi' (virt_addr sbi + b' + o) = nvm sbi (virt_addr sbi + b + o).
Proof.
  intros Ht Hc Hj Hfresh Hmg Hx Hb. destruct (to_cpus _ _ Ht) as (Hcp & _ & _).
  destruct (inode_slot_inv (cpus sbi) P x b ltac:(lia) Hx Hb) as (p & Ep & -> & Hk1 & Hk2).
  assert (0 <= x mod cpus sbi < cpus sbi) as Hd by (apply Z.mod_pos_bound; lia).
  unfold inode_slot, set_page, NOVA_INODE_SIZE. case_decide as Hdc.
  - rewrite Hdc in *. destruct (decide (Z.to_nat (x / cpus sbi / 32) = j)) as [Hjj|Hjj].
    + rewrite Hjj in *. assert (p = old) as -> by congruence.
      rewrite list_lookup_insert_eq by by eapply lookup_lt_Some. eexists. split; [done|].
      intros o Ho. pose proof (mg_copy _ _ _ _ _ _ _ _ Hmg ((x / cpus sbi) mod 32 * 128 + o) ltac:(lia)) as E.
      unfold block_addr in E. rewrite !Z.add_assoc in E |- *. exact E.
    + rewrite list_lookup_insert_ne, Ep by done. eexists. split; [done|]. intros o Ho.
      apply (mg_same _ _ _ _ _ _ _ _ Hmg). unfold block_addr.
      assert (p <> nr) by (intros ->; by eapply (Hfresh c), list_elem_of_lookup_2). lia.
  - rewrite Ep. eexists. split; [done|]. intros o Ho.
    apply (mg_same _ _ _ _ _ _ _ _ Hmg). unfold block_addr.
    assert (p <> nr) by (intros ->; by eapply (Hfresh _ Hd), list_elem_of_lookup_2). lia.
Qed.

(** C25: Migrating the page of an inode is invisible to the inodes: afterwards every inode
    has a slot with the bytes it had, the moved page lies in a block that was free, and
    all locks are free again; the block of the old page is then neither free nor in any
    table.  Without a free block nothing moves, but the mutex of the table stays held. *)
Theorem migration_transparent sbi F P ws m e ino blocknr old :
  let c := ino mod cpus sbi in
  let j := Z.to_nat (ino / cpus sbi / 32) in
  table_inv smp sbi F P -> unlocked sbi -> monitor_ok ws m ->
  Z.of_nat (length ws) < 2147483647 -> 0 <= current_pid e ->
  0 <= ino -> P c !! j = Some old ->
  exists ret sbi' m',
    migrate_inode_page smp jiffies_to_msecs sbi m e ino blocknr = Some (ret, sbi', m') /\
    ((ret = 0 /\ unlocked sbi' /\ exists nr, F nr /\
        table_inv smp sbi' (fun b => F b /\ b <> nr) (set_page P c j nr) /\
        (forall x b, 0 <= x -> inode_slot (cpus sbi) P x = Some b ->
           exists b', inode_slot (cpus sbi) (set_page P c j nr) x = Some b' /\
             forall o, 0 <= o < NOVA_INODE_SIZE ->
               nvm sbi' (virt_addr sbi + b' + o) = nvm sbi (virt_addr sbi + b + o)) /\
        ~ F old /\ forall d, 0 <= d < cpus sbi -> old ∉ set_page P c j nr d) \/
     (ret = - ENOSPC /\ deadlocked sbi' c /\ nvm sbi' = nvm sbi)).
Proof.
  intros c j Hinv Hu Hmon Hlen Hpid Hi Hj. pose proof Hinv as [Hf Ht _ Hap _].
  destruct (migrate_inode_page_spec sbi F P ws m e ino blocknr old Hinv Hu Hmon Hlen Hpid Hi Hj)
    as (ret & sbi' & m' & ws' & E & _ & Hout).
  exists ret, sbi', m'. split; [exact E|].
  destruct Hout as [(-> & Hu' & nr & Hmg)|(-> & Hd & Hn & _)]; [left|by right].
  destruct (to_cpus _ _ Ht) as (Hcp & _ & _).
  assert (0 <= c < cpus sbi) as Hc by (apply Z.mod_pos_bound; lia).
  pose proof (mg_fresh _ _ _ _ _ _ _ _ Hmg) as HF.
  assert (forall d, 0 <= d < cpus sbi -> nr ∉ P d) as Hfresh by (intros d Hd Hin; by apply (Hap d nr)).
  assert (~ F old) as Hold by (by apply (Hap c old Hc (list_elem_of_lookup_2 _ _ _ Hj))).
  split; [done|]. split; [done|]. exists nr. split; [done|].
  split; [apply (mg_inv _ _ _ _ _ _ _ _ Hmg)|].
  split; [intros x b Hx Hb; by apply (migrated_bytes sbi F P c j old nr)|].
  split; [done|]. intros d Hd (i & Hx)%list_elem_of_lookup.
  destruct (set_page_cases _ _ _ _ _ _ _ Hx) as [(_ & _ & ->)|[Hi' Hne]]; [done|].
  destruct (to_distinct _ _ Ht d c i j old Hd Hc Hi' Hj). lia.
Qed.
End migrate.

(** ** A concrete migration *)

Module MigrateDemo.
Import RbList.RbList InodeTable.TableDemo DetectDemo.

(** The file system with two CPUs of the inode tables: inode 16 lies in page 0 of CPU 0,
    block 3. *)
Lemma migration_transparent_witness :
  exists ret sbi' m m',
    migrate_inode_page 0 msecs_250 fs3 m (demo_env 0) 16 0 = Some (ret, sbi', m') /\
    ((ret = 0 /\ unlocked sbi') \/ (ret = - ENOSPC /\ deadlocked sbi' 0)).
Proof.
  destruct fs3_ok as (F & P & [Hinv _ _ _] & Hu & HP & _).
  destruct init_monitor_ok as (m & _ & Hm).
  destruct (migration_transparent 0 msecs_250 fs3 F P [] m (demo_env 0) 16 0 3 Hinv Hu Hm)
    as (ret & sbi' & m' & E & Hout).
  - reflexivity.
  - discriminate.
  - lia.
  - change (16 mod cpus fs3) with 0. rewrite HP. reflexivity.
  - exists ret, sbi', m, m'. split; [exact E|].
    destruct Hout as [(Hr & Hu' & _)|(Hr & Hd & _)]; [left|right]; auto.
Defined.

End MigrateDemo.
