(* ===== verification/Journal.v ===== *)
(** * The lite journal (journal.c, nova.h, namei.c)

    Each CPU has a page for small transactions: up to two entries with the old values of
    at most four fields each are written behind [journal_head], then [journal_tail] is
    moved behind them, then the fields are changed, and the transaction ends when
    [journal_head] catches up.  After a crash the entries between head and tail are
    undone.  The top byte of an address in an entry is the width of the field. *)

From S2P Require Import Prelude Layout RangeTree RbList State Balloc BallocFacts BallocSpec.
From S2P Require Import BallocInit TreeEdits InodeMap LogBlocks InodeTable.
From S2P Require Import Monitor Histogram HashTable Records KnapSack Detect WriteCount Migrate.

(** ** The code *)

(** [struct nova_lite_journal_entry]: four addresses and four values. *)
Record nova_lite_journal_entry := LiteEntry {
  addrs : list Z;
  values : list Z;
}.

Definition ENTRY_SIZE : Z := 64.

Definition next_lite_journal (curr_p : Z) : Z :=
  if Z.land curr_p (PAGE_SIZE - 1) + ENTRY_SIZE >=? PAGE_SIZE
  then Z.land curr_p (Z.lnot (PAGE_SIZE - 1))
  else u64 (curr_p + ENTRY_SIZE).

(** The address of a CPU's [struct ptr_pair]; [None] is the null pointer. *)
Definition nova_get_journal_pointers (sbi : nova_sb_info) (cpu : Z) : option Z :=
  if cpus sbi <=? cpu then None
  else Some (u64 (nova_get_block (virt_addr sbi) NOVA_DEF_BLOCK_SIZE_4K + cpu * CACHELINE_SIZE)).

Definition journal_head (m : memory) (pp : Z) : Z := load 8 m pp.
Definition journal_tail (m : memory) (pp : Z) : Z := load 8 m (pp + 8).
Definition set_journal_head (m : memory) (pp v : Z) : memory := store 8 m pp v.
Definition set_journal_tail (m : memory) (pp v : Z) : memory := store 8 m (pp + 8) v.

(** Words stored one after the other, and an entry copied to the device. *)
Fixpoint write_words (m : memory) (a : Z) (ws : list Z) : memory :=
  match ws with
  | [] => m
  | w :: ws => write_words (store 8 m a w) (a + 8) ws
  end.

Definition write_entry (m : memory) (a : Z) (entry : nova_lite_journal_entry) : memory :=
  write_words (write_words m a (addrs entry)) (a + 32) (values entry).

(** One field of an entry undone; a width that is not 1, 2, 4 or 8 is reported only.  The memory
    of the model is total: an address the machine does not accept (on x86-64 one that is not
    canonical, where the store faults) is stored to like any other outside the device. *)
Definition nova_recover_lite_journal_entry (virt_addr : Z) (m : memory) (addr value type : Z)
  : memory :=
  if (type =? 1) || (type =? 2) || (type =? 4) || (type =? 8)
  then store (Z.to_nat type) m (nova_get_block virt_addr addr) value
  else m.

(** The loop over the fields, [n] of them from [i] on, of the entry at [entry]. *)
Fixpoint undo_fields (virt_addr : Z) (n : nat) (i : Z) (m : memory) (entry : Z) : memory :=
  match n with
  | O => m
  | S n =>
    let addr := load 8 m (entry + 8 * i) in
    let type := u8 (Z.shiftr addr 56) in
    let m := if negb (addr =? 0) && negb (type =? 0)
             then nova_recover_lite_journal_entry virt_addr m addr
                    (load 8 m (entry + 32 + 8 * i)) type
             else m in
    undo_fields virt_addr n (i + 1) m entry
  end.

Definition nova_undo_lite_journal_entry (virt_addr : Z) (m : memory) (entry : Z) : memory :=
  undo_fields virt_addr 4 0 m entry.

Definition nova_recover_lite_journal (virt_addr : Z) (m : memory) (pp recover : Z) : memory :=
  let m := nova_undo_lite_journal_entry virt_addr m
             (nova_get_block virt_addr (journal_head m pp)) in
  let m := if recover =? 2
           then nova_undo_lite_journal_entry virt_addr m
                  (nova_get_block virt_addr (next_lite_journal (journal_head m pp)))
           else m in
  set_journal_tail m pp (journal_head m pp).

(** The loop over the CPUs of [nova_lite_journal_soft_init], [n] of them from [i] on. *)
Fixpoint soft_init_loop (n : nat) (i : Z) (sbi : nova_sb_info) : option (Z * nova_sb_info) :=
  match n with
  | O => Some (0, sbi)
  | S n =>
    pp ← nova_get_journal_pointers sbi i;
    let head := journal_head (nvm sbi) pp in
    let tail := journal_tail (nvm sbi) pp in
    if head =? tail then soft_init_loop n (i + 1) sbi
    else
      let temp := next_lite_journal head in
      if tail =? temp then
        soft_init_loop n (i + 1)
          (with_nvm (nova_recover_lite_journal (virt_addr sbi) (nvm sbi) pp 1) sbi)
      else
        let temp := next_lite_journal temp in
        if tail =? temp then
          soft_init_loop n (i + 1)
            (with_nvm (nova_recover_lite_journal (virt_addr sbi) (nvm sbi) pp 2) sbi)
        else Some (- EINVAL, sbi)
  end.

(** [kzalloc_ok]: there was memory for the locks. *)
Definition nova_lite_journal_soft_init (sbi : nova_sb_info) (kzalloc_ok : bool)
  : option (Z * nova_sb_info) :=
  if negb kzalloc_ok then Some (- ENOMEM, sbi)
  else soft_init_loop (Z.to_nat (cpus sbi)) 0 sbi.

Section operations.
Context `{RbTree} (slab_garbage : nova_range_node) (smp : Z) (jiffies_to_msecs : Z -> Z).

(** The pages of the journals; [fake_pi] is the address of the inode on the stack. *)
Fixpoint hard_init_loop (n : nat) (i : Z) (sbi : nova_sb_info) (fake_pi blocknr : Z)
  : option (Z * nova_sb_info) :=
  match n with
  | O => Some (0, sbi)
  | S n =>
    match nova_get_journal_pointers sbi i with
    | None => Some (- EINVAL, sbi)
    | Some pp =>
      res ← nova_new_log_blocks sbi smp fake_pi blocknr 1 1;
      let '(allocated, blocknr, sbi) := (res : Z * Z * nova_sb_info) in
      if negb (allocated =? 1) || (blocknr =? 0) then Some (- ENOSPC, sbi)
      else
        let block := nova_get_block_off blocknr in
        let mem := set_journal_tail (nvm sbi) pp block in
        hard_init_loop n (i + 1) (with_nvm (set_journal_head mem pp block) sbi) fake_pi blocknr
    end
  end.

Definition nova_lite_journal_hard_init (sbi : nova_sb_info) (fake_pi : Z) (kzalloc_ok : bool)
  : option (Z * nova_sb_info) :=
  let mem := Pi.set_nova_ino (nvm sbi) fake_pi NOVA_LITEJOURNAL_INO in
  let sbi := with_nvm (Pi.set_i_blk_type mem fake_pi NOVA_BLOCK_TYPE_4K) sbi in
  res ← hard_init_loop (Z.to_nat (cpus sbi)) 0 sbi fake_pi 0;
  let '(ret, sbi) := (res : Z * nova_sb_info) in
  if negb (ret =? 0) then Some (ret, sbi)
  else nova_lite_journal_soft_init sbi kzalloc_ok.

(** Returns the new tail; a journal that is not idle is a [BUG]. *)
Definition nova_create_lite_transaction (sbi : nova_sb_info) (m : monitor) (e : env)
    (dram_entry1 dram_entry2 : nova_lite_journal_entry) (entries cpu : Z)
  : option (Z * nova_sb_info * monitor) :=
  pp ← nova_get_journal_pointers sbi cpu;
  let temp := journal_head (nvm sbi) pp in
  if (temp =? 0) || negb (temp =? journal_tail (nvm sbi) pp) then None
  else
    let entry := nova_get_block (virt_addr sbi) temp in
    let mem := write_entry (nvm sbi) entry dram_entry1 in
    res ← monitored_call (write_count_increase jiffies_to_msecs e
                            (get_block_number_by_virt (virt_addr sbi) entry)) sbi m;
    let '(_, sbi, m) := (res : unit * nova_sb_info * monitor) in
    let '(temp, mem) :=
      if entries =? 2
      then let temp := next_lite_journal temp in
           (temp, write_entry mem (nova_get_block (virt_addr sbi) temp) dram_entry2)
      else (temp, mem) in
    let new_tail := next_lite_journal temp in
    Some (new_tail, with_nvm (set_journal_tail mem pp new_tail) sbi, m).

Definition nova_commit_lite_transaction (sbi : nova_sb_info) (m : monitor) (e : env)
    (tail cpu blocknr : Z) : option (nova_sb_info * monitor) :=
  pp ← nova_get_journal_pointers sbi cpu;
  if negb (journal_tail (nvm sbi) pp =? tail) then None
  else
    let sbi := with_nvm (set_journal_head (nvm sbi) pp tail) sbi in
    res ← active_migrate_journal_page slab_garbage smp jiffies_to_msecs sbi m e pp
            (journal_head (nvm sbi) pp) blocknr;
    let '(_, sbi, m) := (res : Z * nova_sb_info * monitor) in
    Some (sbi, m).

(** [nova_lite_transaction_for_time_and_link]: [pi] and [pidir] are addresses of inodes. *)
Definition link_entry (sbi : nova_sb_info) (pi pidir invalidate : Z) : nova_lite_journal_entry :=
  let tag a width := Z.lor (nova_get_addr_off (virt_addr sbi) a) (Z.shiftl width 56) in
  if negb (invalidate =? 0)
  then LiteEntry [tag (pi + 80) 8; tag (pidir + 80) 8; tag (pi + 2) 1; 0]
         [Pi.log_tail (nvm sbi) pi; Pi.log_tail (nvm sbi) pidir; Pi.valid (nvm sbi) pi; 0]
  else LiteEntry [tag (pi + 80) 8; tag (pidir + 80) 8; 0; 0]
         [Pi.log_tail (nvm sbi) pi; Pi.log_tail (nvm sbi) pidir; 0; 0].

Definition nova_lite_transaction_for_time_and_link (sbi : nova_sb_info) (m : monitor) (e : env)
    (pi pidir pi_tail pidir_tail invalidate blocknr : Z) : option (nova_sb_info * monitor) :=
  let entry := link_entry sbi pi pidir invalidate in
  res ← nova_create_lite_transaction sbi m e entry (LiteEntry [] []) 1 smp;
  let '(tail, sbi, m) := (res : Z * nova_sb_info * monitor) in
  let sbi := with_nvm (Pi.set_log_tail (nvm sbi) pi pi_tail) sbi in
  res ← monitored_call (inode_page_count_increase jiffies_to_msecs sbi e pi) sbi m;
  let '(_, sbi, m) := (res : unit * nova_sb_info * monitor) in
  let sbi := with_nvm (Pi.set_log_tail (nvm sbi) pidir pidir_tail) sbi in
  res ← monitored_call (inode_page_count_increase jiffies_to_msecs sbi e pidir) sbi m;
  let '(_, sbi, m) := (res : unit * nova_sb_info * monitor) in
  let sbi := if negb (invalidate =? 0)
             then with_nvm (Pi.set_valid (nvm sbi) pi 0) sbi else sbi in
  nova_commit_lite_transaction sbi m e tail smp blocknr.
End operations.

(** ** Positions in the journal page *)

(** Slot [k] of page [pg]. *)
Definition slot (pg k : Z) : Z := 4096 * pg + 64 * k.

(** The 64 slots of a page are used in turn. *)
Lemma next_lite_journal_slot pg k :
  0 <= pg < 2147483648 -> 0 <= k < 64 ->
  next_lite_journal (slot pg k) = slot pg ((k + 1) mod 64).
Proof.
  intros Hp Hk. unfold next_lite_journal, slot, ENTRY_SIZE, PAGE_SIZE.
  change (4096 - 1) with INVALID_MASK.
  fold (ENTRY_LOC (4096 * pg + 64 * k)). fold (BLOCK_OFF (4096 * pg + 64 * k)).
  rewrite ENTRY_LOC_alt, BLOCK_OFF_alt.
  replace ((4096 * pg + 64 * k) mod 4096) with (64 * k) by mlia.
  destruct (Z.geb_spec (64 * k + 64) 4096) as [H|H].
  - assert (k = 63) as -> by lia. change ((63 + 1) mod 64) with 0. lia.
  - rewrite Z.mod_small by lia. wrap. lia.
Qed.

(** ** Words and entries in memory *)

Lemma write_words_frame ws m a x :
  x < a \/ a + 8 * Z.of_nat (length ws) <= x -> write_words m a ws x = m x.
Proof.
  revert m a. induction ws as [|w ws IH]; intros m a Hx; simpl in *; [done|].
  rewrite IH by lia. apply store_disjoint. lia.
Qed.

Lemma write_words_read ws m a i w :
  ws !! i = Some w -> 0 <= w < 18446744073709551616 ->
  load 8 (write_words m a ws) (a + 8 * Z.of_nat i) = w.
Proof.
  revert m a i. induction ws as [|v ws IH]; intros m a i Hi Hw; [done|].
  destruct i as [|i]; cbn [write_words].
  - injection Hi as ->. change (Z.of_nat 0) with 0. rewrite Z.mul_0_r, Z.add_0_r, (load_ext 8 _ (store 8 m a w)).
    + by apply load8_store8.
    + intros x Hx. apply write_words_frame. lia.
  - replace (a + 8 * Z.of_nat (S i)) with (a + 8 + 8 * Z.of_nat i) by lia. by apply IH.
Qed.

Definition entry_wf (en : nova_lite_journal_entry) : Prop :=
  length (addrs en) = 4%nat /\ length (values en) = 4%nat /\
  Forall (fun w => 0 <= w < 18446744073709551616) (addrs en ++ values en).

(** The entry [en] lies at address [a]. *)
Definition entry_at (m : memory) (a : Z) (en : nova_lite_journal_entry) : Prop :=
  forall i w, (addrs en ++ values en) !! i = Some w -> load 8 m (a + 8 * Z.of_nat i) = w.

Lemma write_entry_frame m a en x :
  entry_wf en -> x < a \/ a + 64 <= x -> write_entry m a en x = m x.
Proof.
  intros (H1 & H2 & _) Hx. unfold write_entry.
  rewrite !write_words_frame; [done| |]; rewrite ?H1, ?H2; lia.
Qed.

Lemma write_entry_at m a en : entry_wf en -> entry_at (write_entry m a en) a en.
Proof.
  intros (H1 & H2 & Hw) i w Hi. rewrite Forall_forall in Hw.
  pose proof (Hw w (list_elem_of_lookup_2 _ _ _ Hi)) as Hr. unfold write_entry.
  apply lookup_app_Some in Hi as [Hi|[Hge Hi]].
  - pose proof (lookup_lt_Some _ _ _ Hi).
    rewrite (load_ext 8 _ (write_words m a (addrs en))); [by apply write_words_read|].
    intros x Hx. apply write_words_frame. lia.
  - rewrite H1 in *. replace (a + 8 * Z.of_nat i) with (a + 32 + 8 * Z.of_nat (i - 4)) by lia.
    by apply write_words_read.
Qed.

Lemma entry_at_frame m m' a en :
  entry_wf en -> (forall x, a <= x < a + 64 -> m' x = m x) -> entry_at m a en -> entry_at m' a en.
Proof.
  intros (H1 & H2 & _) Hm H i w Hi. rewrite <- (H i w Hi). apply load_ext. intros x Hx.
  apply Hm. pose proof (lookup_lt_Some _ _ _ Hi) as Hl. rewrite length_app, H1, H2 in Hl. lia.
Qed.

(** ** A transaction *)

(** The pointers of CPU [cpu] lie in block 1. *)
Definition pair_addr (sbi : nova_sb_info) (cpu : Z) : Z := block_addr sbi 1 + 64 * cpu.

(** The journal of CPU [cpu] is idle, its head being slot [k] of page [pg]. *)
Record journal_idle (sbi : nova_sb_info) (cpu pg k : Z) : Prop := {
  ji_mapped : mapped sbi;
  ji_size : num_blocks sbi < 2147483648;
  ji_cpu : 0 <= cpu < cpus sbi /\ cpus sbi <= 64;
  ji_page : 1 < pg < num_blocks sbi;
  ji_slot : 0 <= k < 64;
  ji_head : journal_head (nvm sbi) (pair_addr sbi cpu) = slot pg k;
  ji_tail : journal_tail (nvm sbi) (pair_addr sbi cpu) = slot pg k;
}.

Lemma journal_pointers_ok sbi cpu :
  mapped sbi -> 1 < num_blocks sbi < 2147483648 -> 0 <= cpu < cpus sbi -> cpus sbi <= 64 ->
  nova_get_journal_pointers sbi cpu = Some (pair_addr sbi cpu).
Proof.
  intros [Hv Hm] Hn Hc Hc64. unfold nova_get_journal_pointers, pair_addr, block_addr.
  rewrite (proj2 (Z.leb_gt (cpus sbi) cpu)) by lia. unfold nova_get_block. simpl.
  unfold NOVA_DEF_BLOCK_SIZE_4K, CACHELINE_SIZE. wrap. f_equal. lia.
Qed.

Lemma slot_addr sbi pg k :
  mapped sbi -> 0 < pg < num_blocks sbi -> 0 <= k < 64 -> num_blocks sbi < 2147483648 ->
  nova_get_block (virt_addr sbi) (slot pg k) = block_addr sbi pg + 64 * k.
Proof.
  intros [Hv Hm] Hp Hk Hs. unfold nova_get_block, slot, block_addr.
  rewrite (proj2 (Z.eqb_neq (4096 * pg + 64 * k) 0)) by lia. wrap. lia.
Qed.

Section transaction.
Context (jiffies_to_msecs : Z -> Z).

(** The state of the journal between creation and commit: the entries lie in their slots,
    the tail is behind them, and no byte outside the used slots and the tail changed. *)
Record journal_open (sbi : nova_sb_info) (cpu pg k : Z) (ens : list nova_lite_journal_entry)
    (m' : memory) : Prop := {
  jo_head : journal_head m' (pair_addr sbi cpu) = slot pg k;
  jo_tail : journal_tail m' (pair_addr sbi cpu) = slot pg ((k + Z.of_nat (length ens)) mod 64);
  jo_entries i en : ens !! i = Some en ->
    entry_at m' (block_addr sbi pg + 64 * ((k + Z.of_nat i) mod 64)) en;
  jo_same x : ~ block_addr sbi pg <= x < block_addr sbi (pg + 1) ->
    ~ pair_addr sbi cpu + 8 <= x < pair_addr sbi cpu + 16 -> m' x = nvm sbi x;
}.

(** Writing the tail, once the entries are in the page. *)
Lemma open_journal sbi cpu pg k ens mem :
  journal_idle sbi cpu pg k -> Forall entry_wf ens ->
  (forall x, ~ block_addr sbi pg <= x < block_addr sbi (pg + 1) -> mem x = nvm sbi x) ->
  (forall i en, ens !! i = Some en ->
    entry_at mem (block_addr sbi pg + 64 * ((k + Z.of_nat i) mod 64)) en) ->
  journal_open sbi cpu pg k ens
    (set_journal_tail mem (pair_addr sbi cpu) (slot pg ((k + Z.of_nat (length ens)) mod 64))).
Proof.
  intros [_ Hsz [Hc Hc64] Hp Hk Hh _] Hwf Hsame Hent.
  pose proof (Z.mod_pos_bound (k + Z.of_nat (length ens)) 64 ltac:(lia)) as Hmod.
  split; unfold journal_head, journal_tail, set_journal_tail, pair_addr, block_addr, slot in *.
  - rewrite <- Hh. rewrite load_store_ne by lia. apply load_ext.
    intros x Hx. apply Hsame. lia.
  - apply load8_store8. lia.
  - intros i en Hi. pose proof (Z.mod_pos_bound (k + Z.of_nat i) 64 ltac:(lia)).
    eapply entry_at_frame; [by eapply Forall_lookup_1 | | by apply Hent].
    intros x Hx. apply store_disjoint. unfold block_addr in *. lia.
  - intros x H1 H2. rewrite store_disjoint by lia. by apply Hsame.
Qed.

(** The monitor afterwards is [m']. *)
Lemma create_transaction_run sbi m m' e en1 en2 entries cpu pg k :
  journal_idle sbi cpu pg k -> entry_wf en1 -> (entries = 1 \/ entries = 2 /\ entry_wf en2) ->
  write_count_increase jiffies_to_msecs e (get_block_number_by_virt (virt_addr sbi) (block_addr sbi pg + 64 * k)) m = Some (tt, m') ->
  exists sbi',
    nova_create_lite_transaction jiffies_to_msecs sbi m e en1 en2 entries cpu =
      Some (slot pg ((k + entries) mod 64), sbi', m') /\
    journal_open sbi cpu pg k (if entries =? 2 then [en1; en2] else [en1]) (nvm sbi') /\
    sbi' = with_nvm (nvm sbi') sbi.
Proof.
  intros Hidle Hw1 Hent E. pose proof Hidle as [Hm Hsz [Hc Hc64] Hp Hk Hh Ht].
  unfold nova_create_lite_transaction. rewrite journal_pointers_ok by (auto; lia).
  cbn [mbind option_bind]. rewrite Hh, Ht, Z.eqb_refl.
  rewrite (proj2 (Z.eqb_neq (slot pg k) 0)) by (unfold slot; lia). cbn [orb negb].
  rewrite slot_addr by (auto; lia). unfold monitored_call. rewrite E. cbn [mbind option_bind].
  set (mem1 := write_entry (nvm sbi) (block_addr sbi pg + 64 * k) en1).
  assert (forall x, ~ block_addr sbi pg + 64 * k <= x < block_addr sbi pg + 64 * k + 64 ->
    mem1 x = nvm sbi x) as Hm1 by (intros x Hx; apply write_entry_frame; [done|lia]).
  assert (entry_at mem1 (block_addr sbi pg + 64 * k) en1) as He1 by by apply write_entry_at.
  destruct Hent as [->|[-> Hw2]]; cbn [Z.eqb Pos.eqb].
  - rewrite next_lite_journal_slot by (auto; lia). eexists. split; [done|]. split; [|done].
    apply (open_journal sbi cpu pg k [en1]); [done | by constructor | |].
    + intros x Hx. apply Hm1. unfold block_addr in *. lia.
    + intros [|[|i]] en Hi; try done. injection Hi as <-.
      by rewrite Z.add_0_r, Z.mod_small by lia.
  - pose proof (Z.mod_pos_bound (k + 1) 64 ltac:(lia)) as Hk1.
    rewrite (next_lite_journal_slot pg k), next_lite_journal_slot, slot_addr by (auto; lia).
    rewrite Zplus_mod_idemp_l, <- Z.add_assoc. change (1 + 1) with 2.
    eexists. split; [done|]. split; [|done].
    apply (open_journal sbi cpu pg k [en1; en2]);
      [done | constructor; [done | by constructor] | |].
    + intros x Hx. rewrite write_entry_frame, Hm1 by (auto; unfold block_addr in *; lia). done.
    + assert (k <> (k + 1) mod 64) by mlia.
      intros [|[|[|i]]] en Hi; try done; injection Hi as <-.
      * rewrite Z.add_0_r, (Z.mod_small k) by lia. eapply entry_at_frame; [done| |exact He1].
        intros x Hx. apply write_entry_frame; [done|lia].
      * by apply write_entry_at.
Qed.

(** Creating a transaction on an idle journal writes its entries into the next slots of
    the page, in the order of the ring of 64, and then moves the tail behind them; the head
    stays and no other byte changes. *)
Theorem create_transaction_ok sbi m ws e en1 en2 entries cpu pg k :
  journal_idle sbi cpu pg k -> monitor_ok ws m -> Z.of_nat (length ws) < 2147483647 ->
  0 <= current_pid e -> entry_wf en1 -> entry_wf en2 -> entries = 1 \/ entries = 2 ->
  exists sbi' m',
    nova_create_lite_transaction jiffies_to_msecs sbi m e en1 en2 entries cpu =
      Some (slot pg ((k + entries) mod 64), sbi', m') /\
    journal_open sbi cpu pg k (if entries =? 2 then [en1; en2] else [en1]) (nvm sbi') /\
    sbi' = with_nvm (nvm sbi') sbi.
Proof.
  intros Hidle Hmon Hlen Hpid Hw1 Hw2 Hent.
  destruct (count_any_block jiffies_to_msecs ws m e
    (get_block_number_by_virt (virt_addr sbi) (block_addr sbi pg + 64 * k)) Hmon) as (ws' & m' & E & _); auto.
  { unfold get_block_number_by_virt. repeat case_match; try lia. apply Z.shiftr_nonneg, u64_range. }
  destruct (create_transaction_run sbi m m' e en1 en2 entries cpu pg k Hidle Hw1 ltac:(tauto) E) as (sbi' & H1 & H2 & H3).
  by exists sbi', m'.
Qed.
End transaction.

(** ** Recovery *)

(** The bytes of the device. *)
Definition on_device (sbi : nova_sb_info) (x : Z) : Prop :=
  virt_addr sbi <= x < virt_addr sbi + 4096 * num_blocks sbi.

(** An address as the transactions enter it: unused, or the offset of a field on the
    device with its width in the top byte. *)
Definition tagged (sbi : nova_sb_info) (addr : Z) : Prop :=
  addr = 0 \/ exists width off, 1 <= width <= 255 /\ 0 <= off /\
    off + 8 <= 4096 * num_blocks sbi /\ addr = Z.shiftl width 56 + off.

Lemma recover_outside sbi m addr value x :
  mapped sbi -> num_blocks sbi < 2147483648 -> tagged sbi addr -> addr <> 0 -> on_device sbi x ->
  nova_recover_lite_journal_entry (virt_addr sbi) m addr value (u8 (Z.shiftr addr 56)) x = m x.
Proof.
  intros [Hv Hm] Hs [->|(w & off & Hw & Ho & Hoff & ->)] Hne Hx; [done|].
  unfold nova_recover_lite_journal_entry, on_device in *.
  destruct (_ || _) eqn:Ht; [|done]. rewrite Z.shiftl_mul_pow2 in * by lia.
  assert (u8 (Z.shiftr (w * 2 ^ 56 + off) 56) = w) as Hty.
  { rewrite Z.shiftr_div_pow2, Z.div_add_l, (Z.div_small off) by (try lia; nia).
    unfold u8. rewrite Z.mod_small; lia. }
  rewrite Hty in *.
  assert (0 < w <= 8) as Hw8.
  { repeat (apply orb_prop in Ht as [Ht|Ht]); apply Z.eqb_eq in Ht; lia. }
  apply store_disjoint. unfold nova_get_block.
  rewrite (proj2 (Z.eqb_neq _ 0)) by lia. rewrite Z2Nat.id by lia.
  change (2 ^ 56) with 72057594037927936. unfold u64. mlia.
Qed.

(** A device after a crash: the journal of CPU [cpu] has the entries [ens] between head and
    tail, their addresses tagged with the width of the field. *)
Record uncommitted (sbi : nova_sb_info) (cpu pg k : Z) (ens : list nova_lite_journal_entry)
  : Prop := {
  un_mapped : mapped sbi;
  un_size : num_blocks sbi < 2147483648;
  un_cpu : 0 <= cpu < cpus sbi /\ cpus sbi <= 64;
  un_page : 1 < pg < num_blocks sbi;
  un_slot : 0 <= k < 64;
  un_head : journal_head (nvm sbi) (pair_addr sbi cpu) = slot pg k;
  un_wf : Forall entry_wf ens;
  un_entries i en : ens !! i = Some en ->
    entry_at (nvm sbi) (block_addr sbi pg + 64 * ((k + Z.of_nat i) mod 64)) en;
  un_tagged : Forall (fun en => Forall (tagged sbi) (addrs en)) ens;
}.

Definition same_device (sbi : nova_sb_info) (m m' : memory) : Prop :=
  forall x, on_device sbi x -> m' x = m x.

Lemma undo_fields_outside sbi n i m a :
  mapped sbi -> num_blocks sbi < 2147483648 ->
  (forall x, a <= x < a + 64 -> on_device sbi x) -> 0 <= i -> i + Z.of_nat n <= 4 ->
  (forall k, i <= k < i + Z.of_nat n -> tagged sbi (load 8 m (a + 8 * k))) ->
  same_device sbi m (undo_fields (virt_addr sbi) n i m a).
Proof.
  intros Hm Hs Ha. revert i m. induction n as [|n IH]; intros i m Hi Hin Ht; [by intros x|].
  cbn [undo_fields]. set (addr := load 8 m (a + 8 * i)).
  match goal with |- context [undo_fields _ n _ ?mm _] => set (m1 := mm) end.
  assert (same_device sbi m m1) as H1.
  { intros x Hx. unfold m1. destruct (Z.eqb_spec addr 0) as [E|E]; cbn [negb andb]; [done|].
    destruct (_ =? 0); cbn [negb]; [done|]. apply recover_outside; try done. apply Ht. lia. }
  intros x Hx. rewrite <- (H1 x Hx). apply (IH (i + 1) m1); try lia; [|done].
  intros k Hk. rewrite (load_ext 8 m1 m); [apply Ht; lia|].
  intros y Hy. apply H1, Ha. lia.
Qed.

(** Undoing the [i]-th entry leaves the device as it is. *)
Lemma undo_entry_outside sbi cpu pg k ens i m :
  uncommitted sbi cpu pg k ens -> (i < length ens)%nat -> same_device sbi (nvm sbi) m ->
  same_device sbi (nvm sbi) (nova_undo_lite_journal_entry (virt_addr sbi) m
    (nova_get_block (virt_addr sbi) (slot pg ((k + Z.of_nat i) mod 64)))).
Proof.
  intros [Hm Hs Hc Hp Hk _ Hwf Hen Htag] Hi Hd.
  destruct (lookup_lt_is_Some_2 ens i Hi) as [en Hl].
  pose proof (Z.mod_pos_bound (k + Z.of_nat i) 64 ltac:(lia)) as Hki.
  rewrite slot_addr by (auto; lia). set (a := block_addr sbi pg + 64 * ((k + Z.of_nat i) mod 64)).
  assert (forall x, a <= x < a + 64 -> on_device sbi x) as Ha
    by (unfold a, on_device, block_addr; lia).
  intros x Hx. rewrite <- (Hd x Hx). apply undo_fields_outside; auto; [lia|lia|].
  intros j Hj. rewrite (load_ext 8 m (nvm sbi)).
  2: { intros y Hy. apply Hd, Ha. lia. }
  pose proof (Forall_lookup_1 _ _ _ _ Hwf Hl) as (Hl4 & _ & _).
  pose proof (Forall_lookup_1 _ _ _ _ Htag Hl) as Ht.
  destruct (lookup_lt_is_Some_2 (addrs en) (Z.to_nat j)) as [w Hw]; [lia|].
  pose proof (Hen i en Hl (Z.to_nat j) w ltac:(by apply lookup_app_l_Some)) as E.
  fold a in E. replace (Z.of_nat (Z.to_nat j)) with j in E by lia. rewrite E.
  exact (Forall_lookup_1 _ _ _ _ Ht Hw).
Qed.

(** C26: Recovery restores nothing: with the widths in the top bytes of the addresses, every
    restoring store falls outside the device, whose bytes stay as the crash left them; only
    the tail is set back, and with it the transaction is forgotten.  (Where the machine faults
    on such an address, the recovery ends at the first of these stores.) *)
Theorem recovery_restores_nothing sbi cpu pg k ens :
  uncommitted sbi cpu pg k ens -> length ens = 1%nat \/ length ens = 2%nat ->
  let pp := pair_addr sbi cpu in
  let m' := nova_recover_lite_journal (virt_addr sbi) (nvm sbi) pp (Z.of_nat (length ens)) in
  journal_head m' pp = slot pg k /\ journal_tail m' pp = slot pg k /\
  forall x, on_device sbi x -> ~ pp + 8 <= x < pp + 16 -> m' x = nvm sbi x.
Proof.
  intros Hun Hlen pp m'. pose proof Hun as [Hm Hs [Hc Hc64] Hp Hk Hh _ _ _].
  fold pp in Hh.
  assert (forall m, same_device sbi (nvm sbi) m -> journal_head m pp = slot pg k) as Hhead.
  { intros m Hd. rewrite <- Hh. apply load_ext. intros x Hx. apply Hd.
    unfold pp, pair_addr, on_device, block_addr in *. lia. }
  enough (exists m2, same_device sbi (nvm sbi) m2 /\ m' = set_journal_tail m2 pp (slot pg k))
    as (m2 & Hd & ->).
  { unfold set_journal_tail. split; [|split].
    - rewrite <- (Hhead m2 Hd). apply load_store_ne. lia.
    - apply load8_store8. unfold slot. lia.
    - intros x Hx Hne. rewrite store_disjoint by lia. by apply Hd. }
  unfold m', nova_recover_lite_journal. rewrite Hh.
  assert (same_device sbi (nvm sbi) (nova_undo_lite_journal_entry (virt_addr sbi) (nvm sbi)
    (nova_get_block (virt_addr sbi) (slot pg k)))) as H1.
  { pose proof (undo_entry_outside sbi cpu pg k ens 0 (nvm sbi) Hun ltac:(lia) ltac:(done)) as H1.
    by rewrite Z.add_0_r, Z.mod_small in H1 by lia. }
  set (m1 := nova_undo_lite_journal_entry _ _ _) in *.
  destruct Hlen as [E|E]; rewrite E;
    [change (Z.of_nat 1 =? 2) with false | change (Z.of_nat 2 =? 2) with true]; cbv iota.
  - exists m1. split; [done|]. by rewrite (Hhead m1 H1).
  - rewrite (Hhead m1 H1), next_lite_journal_slot by lia.
    pose proof (undo_entry_outside sbi cpu pg k ens 1 m1 Hun ltac:(lia) H1) as H2.
    change (Z.of_nat 1) with 1 in H2.
    eexists. split; [exact H2|]. by rewrite (Hhead _ H2).
Qed.

(** ** Concrete journals *)

Module JournalDemo.
Import DetectDemo.

Definition demo_fs (mem : memory) : nova_sb_info :=
  SbInfo 65536 20 0 3 2 [] 0 [] [] [] 0 empty_free_list ∅ mem.

(** The journal of CPU 1 is page 5, with head and tail at its last slot. *)
Definition demo_mem : memory :=
  set_journal_tail (set_journal_head (fun _ => 0) 69696 (slot 5 63)) 69696 (slot 5 63).

(** The tail of a log at offset 12368, whose old value was 77. *)
Definition demo_entry : nova_lite_journal_entry :=
  LiteEntry [Z.shiftl 8 56 + 12368; 0; 0; 0] [77; 0; 0; 0].

Lemma demo_entry_wf : entry_wf demo_entry.
Proof. split; [done|]. split; [done|]. repeat constructor; vm_compute; congruence. Qed.

Lemma demo_idle : journal_idle (demo_fs demo_mem) 1 5 63.
Proof. split; try (vm_compute; intuition congruence). Qed.

Lemma create_transaction_ok_witness :
  exists m sbi' m', nova_create_lite_transaction msecs_250 (demo_fs demo_mem) m (demo_env 0)
      demo_entry demo_entry 2 1 = Some (slot 5 1, sbi', m') /\
    journal_head (nvm sbi') 69696 = slot 5 63 /\ journal_tail (nvm sbi') 69696 = slot 5 1.
Proof.
  destruct init_monitor_ok as (m & _ & Hm).
  destruct (create_transaction_ok msecs_250 (demo_fs demo_mem) m [] (demo_env 0) demo_entry
    demo_entry 2 1 5 63 demo_idle Hm) as (sbi' & m' & E & [Hh Ht _ _] & _);
    [reflexivity | discriminate | apply demo_entry_wf | apply demo_entry_wf | by right |].
  exists m, sbi', m'. split; [exact E|]. split; [exact Hh | exact Ht].
Defined.

(** After the crash the tail of the log is 99. *)
Definition crashed : nova_sb_info :=
  demo_fs (write_entry (store 8 demo_mem (65536 + 12368) 99) (65536 + slot 5 63) demo_entry).

Lemma crashed_uncommitted : uncommitted crashed 1 5 63 [demo_entry].
Proof.
  split.
  - vm_compute. intuition congruence.
  - reflexivity.
  - simpl. lia.
  - simpl. lia.
  - lia.
  - vm_compute. reflexivity.
  - constructor; [apply demo_entry_wf | constructor].
  - intros [|[|i]] en Hi; try done. injection Hi as <-. apply write_entry_at, demo_entry_wf.
  - constructor; [|constructor]. constructor; [|by do 3 (constructor; [by left|])].
    right. exists 8, 12368. simpl num_blocks. split; [lia|]. split; [lia|]. split; [lia | done].
Qed.

Lemma recovery_restores_nothing_witness :
  let m' := nova_recover_lite_journal 65536 (nvm crashed) 69696 1 in
  journal_tail m' 69696 = slot 5 63 /\ load 8 m' (65536 + 12368) = 99.
Proof.
  destruct (recovery_restores_nothing crashed 1 5 63 [demo_entry] crashed_uncommitted)
    as (_ & Ht & Hs); [by left|].
  split; [exact Ht|]. transitivity (load 8 (nvm crashed) (65536 + 12368)); [|vm_compute; reflexivity].
  apply load_ext. intros x Hx. apply Hs; unfold on_device, pair_addr, block_addr; simpl; lia.
Defined.

End JournalDemo.
