(* ===== verification/LogPages.v ===== *)
(** * The pages of an inode log (inode.c, nova.h)

    The log of an inode is a chain of 4K pages: the last eight bytes of a page are the
    offset of the next one, 0 in the last page.  Pages are taken from the allocator in
    runs and linked to a chain; releasing a log follows the chain and gives back runs of
    consecutive blocks. *)

From S2P Require Import Prelude Layout RangeTree RbList State Balloc BallocFacts BallocSpec.
From S2P Require Import BallocInit BallocTheorems TreeEdits InodeMap LogBlocks InodeTable.
From S2P Require Import Monitor Histogram HashTable Records KnapSack Detect WriteCount Migrate.
#[local] Open Scope word_scope.

(** ** The code *)

(** [page_tail.next_page] of the [struct nova_inode_log_page] at an address. *)
Definition page_next (m : memory) (page : Z) : Z := load 8 m (page + LAST_ENTRY + 24).

Definition nova_set_next_page_address (m : memory) (curr_page next_page : Z) : memory :=
  store 8 m (curr_page + LAST_ENTRY + 24) next_page.

Definition next_log_page (sbi : nova_sb_info) (curr_p : Z) : Z :=
  page_next (nvm sbi) (BLOCK_OFF (nova_get_block (virt_addr sbi) curr_p)).

(** The loop of [nova_coalesce_log_pages]: [n] pages from [curr_page] on point to their
    successors.  Returns the page it ends at. *)
Fixpoint link_pages (n : nat) (m : memory) (curr_page next_blocknr : Z) : memory * Z :=
  match n with
  | O => (m, curr_page)
  | S n =>
    link_pages n (nova_set_next_page_address m curr_page (nova_get_block_off next_blocknr))
      (curr_page ⊞ 4096) (next_blocknr ⊞ 1)
  end.

Definition nova_coalesce_log_pages (virt_addr : Z) (m : memory)
    (prev_blocknr first_blocknr num_pages : Z) : memory :=
  let m :=
    if negb (prev_blocknr =? 0) then
      let curr_page := nova_get_block virt_addr (nova_get_block_off prev_blocknr) in
      nova_set_next_page_address m curr_page (nova_get_block_off first_blocknr)
    else m in
  let curr_page := nova_get_block virt_addr (nova_get_block_off first_blocknr) in
  let '(m, curr_page) :=
    link_pages (Z.to_nat (num_pages ⊟ 1)) m curr_page (first_blocknr ⊞ 1) in
  nova_set_next_page_address m curr_page 0.

Section operations.
Context `{RbTree} (slab_garbage : nova_range_node) (smp : Z) (jiffies_to_msecs : Z -> Z).

(** The loop that allocates the remaining pages; [fuel] bounds its turns by their number. *)
Fixpoint alloc_remaining (fuel : nat) (sbi : nova_sb_info)
    (pi num_pages ret_pages prev_blocknr new_inode_blocknr : Z) : option (Z * nova_sb_info) :=
  if num_pages =? 0 then Some (ret_pages, sbi)
  else
    match fuel with
    | O => None
    | S fuel =>
      res ← nova_new_log_blocks sbi smp pi new_inode_blocknr (u32 num_pages) 0;
      let '(allocated, new_inode_blocknr, sbi) := (res : Z * Z * nova_sb_info) in
      if allocated <=? 0 then Some (ret_pages, sbi)
      else
        let mem := nova_coalesce_log_pages (virt_addr sbi) (nvm sbi) prev_blocknr
                     new_inode_blocknr allocated in
        alloc_remaining fuel (with_nvm mem sbi) pi (num_pages ⊟ allocated)
          (i32 (ret_pages + allocated)) (new_inode_blocknr ⊞ allocated ⊟ 1) new_inode_blocknr
    end.

(** [garbage] is what the local [new_inode_blocknr] holds at first, [new_block] the old
    value of [*new_block]. *)
Definition nova_allocate_inode_log_pages (sbi : nova_sb_info)
    (pi num_pages garbage new_block : Z) : option (Z * Z * nova_sb_info) :=
  res ← nova_new_log_blocks sbi smp pi garbage (u32 num_pages) 0;
  let '(allocated, new_inode_blocknr, sbi) := (res : Z * Z * nova_sb_info) in
  if allocated <=? 0 then Some (allocated, new_block, sbi)
  else
    let mem := nova_coalesce_log_pages (virt_addr sbi) (nvm sbi) 0 new_inode_blocknr allocated in
    res ← alloc_remaining (Z.to_nat num_pages) (with_nvm mem sbi) pi (num_pages ⊟ allocated)
            allocated (new_inode_blocknr ⊞ allocated ⊟ 1) new_inode_blocknr;
    let '(ret_pages, sbi) := (res : Z * nova_sb_info) in
    Some (ret_pages, nova_get_block_off new_inode_blocknr, sbi).

(** The end of [nova_free_contiguous_log_blocks]: the last run is released. *)
Definition free_last_run (sbi : nova_sb_info) (pi start_blocknr num_free freed : Z) :
    option (Z * nova_sb_info) :=
  if negb (start_blocknr =? 0) then
    res ← nova_free_log_blocks slab_garbage sbi pi start_blocknr num_free;
    let '(_, sbi) := (res : Z * nova_sb_info) in
    Some (i32 (freed + num_free), sbi)
  else Some (freed, sbi).

(** The loop along the chain; [fuel] bounds its pages by the blocks of the device. *)
Fixpoint free_chain (fuel : nat) (sbi : nova_sb_info)
    (pi curr_block start_blocknr num_free freed : Z) : option (Z * nova_sb_info) :=
  if (curr_block =? 0) || negb (Z.land curr_block INVALID_MASK =? 0)
  then free_last_run sbi pi start_blocknr num_free freed
  else
    match fuel with
    | O => None
    | S fuel =>
      let blocknr := nova_get_blocknr curr_block in
      let curr_block := page_next (nvm sbi) (nova_get_block (virt_addr sbi) curr_block) in
      if start_blocknr =? 0 then free_chain fuel sbi pi curr_block blocknr 1 freed
      else if blocknr =? (start_blocknr ⊞ num_free) then
        free_chain fuel sbi pi curr_block start_blocknr (i32 (num_free + 1)) freed
      else
        (* a new start *)
        res ← nova_free_log_blocks slab_garbage sbi pi start_blocknr num_free;
        let '(_, sbi) := (res : Z * nova_sb_info) in
        free_chain fuel sbi pi curr_block blocknr 1 (i32 (freed + num_free))
    end.

Definition nova_free_contiguous_log_blocks (sbi : nova_sb_info) (pi head : Z) :
    option (Z * nova_sb_info) :=
  free_chain (S (Z.to_nat (num_blocks sbi))) sbi pi head 0 0 0.

(** The mutex of the page of an inode: the rows of the array are as many as CPUs, but the
    index is the number modulo 40. *)
Definition nova_get_specific_inode_page_lock (sbi : nova_sb_info) (ino : Z) : option unit :=
  let cpuid := ino mod 40 in
  let page_count := Z.shiftr (u32 (ino / 40)) 5 in
  if (cpuid <? cpus sbi) && (page_count <? TABLE_NUM) then Some tt else None.

(** [nova_free_inode_log]: the inode is looked up again unless it is the root. *)
Definition nova_free_inode_log (sbi : nova_sb_info) (m : monitor) (e : env) (pi : Z) :
    option (nova_sb_info * monitor) :=
  if (Pi.log_head (nvm sbi) pi =? 0) || (Pi.log_tail (nvm sbi) pi =? 0) then Some (sbi, m)
  else
    _ ← nova_get_specific_inode_page_lock sbi (Pi.nova_ino (nvm sbi) pi);
    res ← (if 1 <? Pi.nova_ino (nvm sbi) pi
           then nova_get_inode_by_ino_or_pi_addr smp sbi (Pi.nova_ino (nvm sbi) pi) 0
           else Some (inr pi, sbi));
    match (res : (unit + Z) * nova_sb_info) with
    | (inl _, _) => None
    | (inr pi, sbi) =>
      let curr_block := Pi.log_head (nvm sbi) pi in
      let mem := Pi.set_log_tail (nvm sbi) pi 0 in
      let sbi := with_nvm (Pi.set_log_head mem pi 0) sbi in
      res ← nova_free_contiguous_log_blocks sbi pi curr_block;
      let '(_, sbi) := (res : Z * nova_sb_info) in
      res ← monitored_call (inode_page_count_increase jiffies_to_msecs sbi e pi) sbi m;
      let '(_, sbi, m) := (res : unit * nova_sb_info * monitor) in
      Some (sbi, m)
    end.

(** For the thorough garbage collection: one more page behind the one of [curr_p]. *)
Definition nova_append_one_log_page (sbi : nova_sb_info) (pi curr_p garbage : Z) :
    option (Z * nova_sb_info) :=
  res ← nova_allocate_inode_log_pages sbi pi 1 garbage garbage;
  let '(allocated, new_block, sbi) := (res : Z * Z * nova_sb_info) in
  if negb (allocated =? 1) then Some (0, sbi)
  else if curr_p =? 0 then Some (new_block, sbi)
  else
    let curr_page := nova_get_block (virt_addr sbi) (BLOCK_OFF curr_p) in
    Some (curr_p, with_nvm (nova_set_next_page_address (nvm sbi) curr_page new_block) sbi).
End operations.

(** ** Chains *)

(** The page after position [i] of a chain, 0 after the last. *)
Definition next_in (bs : list Z) (i : nat) : Z :=
  match bs !! S i with Some c => 4096 * c | None => 0 end.

(** The blocks [bs] are linked in this order; the device is mapped at [va]. *)
Definition log_chain (va : Z) (m : memory) (bs : list Z) : Prop :=
  forall i b, bs !! i = Some b -> page_next m (va + 4096 * b) = next_in bs i.

(** The bytes of block [b] that hold the pointer. *)
Definition tail_word (va b a : Z) : Prop := va + 4096 * b + 4088 <= a < va + 4096 * b + 4096.

Lemma page_next_frame va (m m' : memory) b :
  (forall a, tail_word va b a -> m' a = m a) ->
  page_next m' (va + 4096 * b) = page_next m (va + 4096 * b).
Proof.
  intros Hm. apply load_ext. intros a Ha. apply Hm. unfold tail_word, LAST_ENTRY in *. lia.
Qed.

Lemma set_next_eq m va b v :
  0 <= v < 18446744073709551616 ->
  page_next (nova_set_next_page_address m (va + 4096 * b) v) (va + 4096 * b) = v.
Proof. apply load8_store8. Qed.

Lemma set_next_same m va b v a :
  ~ tail_word va b a -> nova_set_next_page_address m (va + 4096 * b) v a = m a.
Proof. intros Ha. apply store_disjoint. unfold tail_word, LAST_ENTRY in *. lia. Qed.

Lemma tail_word_inj va b c a : tail_word va b a -> tail_word va c a -> b = c.
Proof. unfold tail_word. lia. Qed.

Lemma set_next_ne m va b c v :
  b <> c ->
  page_next (nova_set_next_page_address m (va + 4096 * b) v) (va + 4096 * c)
  = page_next m (va + 4096 * c).
Proof.
  intros Hne. apply page_next_frame. intros a Ha. apply set_next_same. intros Hb.
  by apply Hne, (tail_word_inj va b c a).
Qed.

Lemma link_pages_ok n : forall va m b,
  0 < va -> 0 < b -> b + Z.of_nat n < 2147483648 ->
  va + 4096 * (b + Z.of_nat n) < 18446744073709551616 ->
  exists m', link_pages n m (va + 4096 * b) (b + 1) = (m', va + 4096 * (b + Z.of_nat n)) /\
    (forall x, b <= x < b + Z.of_nat n -> page_next m' (va + 4096 * x) = 4096 * (x + 1)) /\
    (forall a, (forall x, b <= x < b + Z.of_nat n -> ~ tail_word va x a) -> m' a = m a).
Proof.
  induction n as [|n IH]; intros va m b Hv Hb Hn Hw; simpl.
  { exists m. rewrite Z.add_0_r. split_and!; auto. lia. }
  rewrite nova_get_block_off_alt by lia. wrap.
  replace (va + 4096 * b + 4096) with (va + 4096 * (b + 1)) by lia.
  destruct (IH va (nova_set_next_page_address m (va + 4096 * b) (4096 * (b + 1))) (b + 1))
    as (m' & E & Hx & Hs); [lia..|].
  exists m'. split; [rewrite E; f_equal; lia|]. split.
  - intros x Hb'. destruct (decide (x = b)) as [->|]; [|apply Hx; lia].
    rewrite (page_next_frame va (nova_set_next_page_address m (va + 4096 * b) (4096 * (b + 1)))).
    + apply set_next_eq. lia.
    + intros a Ha. apply Hs. intros y Hy Hya. pose proof (tail_word_inj va b y a Ha Hya). lia.
  - intros a Ha. rewrite Hs by (intros x Hb'; apply Ha; lia).
    apply set_next_same, Ha. lia.
Qed.

(** What [nova_coalesce_log_pages] does to the pointers of the pages. *)
Lemma coalesce_ok va m prev first n :
  0 < va -> 0 < first -> 0 < n -> 0 <= prev -> first + n < 2147483648 -> prev < 2147483648 ->
  va + 4096 * (first + n) <= 18446744073709551616 ->
  va + 4096 * (prev + 1) <= 18446744073709551616 -> ~ first <= prev < first + n ->
  let m' := nova_coalesce_log_pages va m prev first n in
  (prev <> 0 -> page_next m' (va + 4096 * prev) = 4096 * first) /\
  (forall x, first <= x < first + n - 1 -> page_next m' (va + 4096 * x) = 4096 * (x + 1)) /\
  page_next m' (va + 4096 * (first + n - 1)) = 0 /\
  (forall a, (prev <> 0 -> ~ tail_word va prev a) ->
             (forall x, first <= x < first + n -> ~ tail_word va x a) -> m' a = m a).
Proof.
  intros Hv Hf Hn Hp Hs Hps Hw Hpw Hnew. unfold nova_coalesce_log_pages.
  rewrite !nova_get_block_off_alt by lia. unfold nova_get_block.
  rewrite (proj2 (Z.eqb_neq (4096 * first) 0)) by lia.
  rewrite (u64_small (va + 4096 * first)), (u64_small (n - 1)), (u64_small (first + 1)) by lia.
  set (m1 := if negb (prev =? 0) then _ else m).
  assert (forall a, (prev <> 0 -> ~ tail_word va prev a) -> m1 a = m a) as H1.
  { intros a Ha. unfold m1. case_cmp; [|done]. rewrite (proj2 (Z.eqb_neq (4096 * prev) 0)) by lia.
    wrap. by apply set_next_same, Ha. }
  destruct (link_pages_ok (Z.to_nat (n - 1)) va m1 first) as (m2 & E & Hx & H2); [lia..|].
  rewrite E. rewrite Z2Nat.id in * by lia. cbv iota zeta.
  set (m' := nova_set_next_page_address m2 _ 0).
  assert (forall a, ~ tail_word va (first + (n - 1)) a -> m' a = m2 a) as H3
    by (intros a Ha; by apply set_next_same).
  assert (forall a, (forall x, first <= x < first + n -> ~ tail_word va x a) -> m' a = m1 a) as H4.
  { intros a Ha. rewrite H3, H2; [done| |]; intros; apply Ha; lia. }
  split_and!.
  - intros Hp0. rewrite (page_next_frame va m1).
    + unfold m1. rewrite (proj2 (Z.eqb_neq prev 0)), (proj2 (Z.eqb_neq (4096 * prev) 0)) by lia.
      cbn [negb]. wrap. apply set_next_eq. lia.
    + intros a Ha. apply H4. intros x Hin Hxa. apply Hnew.
      by rewrite (tail_word_inj va prev x a Ha Hxa).
  - intros x Hin. rewrite <- (Hx x) by lia. apply page_next_frame. intros a Ha. apply H3.
    intros Hl. pose proof (tail_word_inj _ _ _ _ Ha Hl). lia.
  - replace (first + n - 1) with (first + (n - 1)) by lia. apply set_next_eq. lia.
  - intros a Ha Hb. rewrite H4 by done. by apply H1.
Qed.

(** A run of pages linked behind a chain. *)
Lemma log_chain_extend va m m' bs prev first n :
  log_chain va m bs -> default 0 (last bs) = prev -> 0 < first -> 0 < n ->
  Forall (fun b => 0 < b) bs -> NoDup (bs ++ seqZ first n) ->
  (prev <> 0 -> page_next m' (va + 4096 * prev) = 4096 * first) ->
  (forall x, first <= x < first + n - 1 -> page_next m' (va + 4096 * x) = 4096 * (x + 1)) ->
  page_next m' (va + 4096 * (first + n - 1)) = 0 ->
  (forall a, (prev <> 0 -> ~ tail_word va prev a) ->
             (forall x, first <= x < first + n -> ~ tail_word va x a) -> m' a = m a) ->
  log_chain va m' (bs ++ seqZ first n).
Proof.
  intros Hc Hlast Hf Hn Hpos Hnd Hprev Hmid Hend Hsame i b Hi. unfold next_in.
  pose proof Hnd as (Hnd1 & Hdis & _)%NoDup_app.
  apply lookup_app_Some in Hi as [Hi|[Hge Hi]].
  - pose proof (list_elem_of_lookup_2 _ _ _ Hi) as Hin.
    destruct (bs !! S i) as [c|] eqn:ES.
    + rewrite (lookup_app_l_Some _ _ _ _ ES). rewrite (page_next_frame va m).
      { rewrite (Hc i b Hi). unfold next_in. by rewrite ES. }
      intros a Ha. apply Hsame.
      * intros _ Hp. pose proof (tail_word_inj _ _ _ _ Ha Hp) as ->. subst prev.
        destruct bs as [|y bs' _] using rev_ind; [done|]. rewrite last_snoc in Hi. simpl in Hi.
        pose proof (NoDup_lookup _ _ (length bs') _ Hnd1 Hi ltac:(by apply list_lookup_middle)).
        apply lookup_lt_Some in ES. rewrite length_app in ES. simpl in ES. lia.
      * intros x Hx Hxa. apply (Hdis b Hin). pose proof (tail_word_inj _ _ _ _ Ha Hxa).
        apply elem_of_seqZ. lia.
    + pose proof (lookup_lt_Some _ _ _ Hi). apply lookup_ge_None in ES.
      assert (b = prev) as ->.
      { subst prev. rewrite last_lookup. replace (pred (length bs)) with i by lia. by rewrite Hi. }
      rewrite lookup_app_r by lia. replace (S i - length bs)%nat with 0%nat by lia.
      rewrite (proj2 (lookup_seqZ first n 0 first)) by lia. apply Hprev.
      rewrite Forall_forall in Hpos. specialize (Hpos _ Hin). lia.
  - apply lookup_seqZ in Hi as [-> Hlt]. rewrite lookup_app_r by lia.
    destruct (decide (first + Z.of_nat (i - length bs) = first + n - 1)) as [E|Hne].
    + rewrite E, Hend. rewrite (proj2 (lookup_ge_None _ _)); [done|]. rewrite length_seqZ. lia.
    + rewrite Hmid by lia.
      rewrite (proj2 (lookup_seqZ first n _ (first + Z.of_nat (i - length bs) + 1))); [done|]. lia.
Qed.

(** ** Taking pages for a log *)

Section allocate.
Context `{RbTree} {L : LogBlocks} (smp : Z).
Implicit Types (sbi : nova_sb_info) (F : Z -> Prop) (bs : list Z).

(** The pages [bs] were taken out of the free set [F] of [sbi] and linked to a chain; no
    byte but their pointers changed. *)
Record fresh_chain sbi F bs sbi' : Prop := {
  fc_nodup : NoDup bs;
  fc_fresh b : b ∈ bs -> F b;
  fc_free : lb_free sbi' (fun b => F b /\ b ∉ bs);
  fc_chain : log_chain (virt_addr sbi) (nvm sbi') bs;
  fc_same a : (forall b, b ∈ bs -> ~ tail_word (virt_addr sbi) b a) -> nvm sbi' a = nvm sbi a;
  fc_geometry : same_geometry sbi sbi';
  fc_nodes : nodes_frame sbi sbi';
}.

(** What the allocation needs: the inode whose block type is read is not in a free page. *)
Record log_env sbi F (pi : Z) : Prop := {
  le_free : lb_free sbi F;
  le_mapped : mapped sbi;
  le_smp : 0 <= smp < cpus sbi;
  le_type : Pi.i_blk_type (nvm sbi) pi = 0;
  le_owned b : F b -> ~ block_addr sbi b <= pi + 3 < block_addr sbi (b + 1);
}.

Lemma fresh_chain_nil sbi F : lb_free sbi F -> fresh_chain sbi F [] sbi.
Proof.
  intros Hf. split; auto with nova.
  - constructor.
  - by intros b ?%elem_of_nil.
  - eapply lb_ext; [exact Hf|]. intros b. pose proof (not_elem_of_nil b). tauto.
  - done.
  - by constructor.
Qed.

(** One request, whose pages are linked behind the chain. *)
Lemma allocate_run sbi F bs sbi1 pi old num :
  log_env sbi F pi -> fresh_chain sbi F bs sbi1 -> 0 < num < 2147483648 ->
  exists ret nr sbi2, nova_new_log_blocks sbi1 smp pi old (u32 num) 0 = Some (ret, nr, sbi2) /\
    ((0 < ret <= num /\ 0 < nr /\ nr + ret <= num_blocks sbi /\
      fresh_chain sbi F (bs ++ seqZ nr ret)
        (with_nvm (nova_coalesce_log_pages (virt_addr sbi2) (nvm sbi2) (default 0 (last bs)) nr ret)
           sbi2)) \/
     (ret = - ENOSPC /\ nr = old /\ fresh_chain sbi F bs sbi2)).
Proof.
  intros [Hf0 [Hv Hm] Hs Hty Hown] [Hnd Hfr Hf Hch Hsame Hg Hn] Hnum. rewrite u32_small by lia.
  pose proof Hg as [Gv Gc Gb _ _ _ _ _ _].
  assert (Pi.i_blk_type (nvm sbi1) pi = 0) as Hty1.
  { rewrite <- Hty. apply load_ext. intros a Ha. apply Hsame. intros b Hb Hw.
    apply (Hown b (Hfr b Hb)). unfold tail_word, block_addr in *. lia. }
  destruct (lb_extent sbi1 _ smp pi old num Hf ltac:(lia) Hty1 Hnum)
    as (ret & nr & sbi2 & E & Hg2 & Hn2 & Hm2 & Hout).
  exists ret, nr, sbi2. split; [done|].
  pose proof (same_geometry_trans _ _ _ Hg Hg2) as Hg'. pose proof Hg' as [Gv' _ _ _ _ _ _ _ _].
  destruct Hout as [(Hr & Hin & Hf2)|(-> & -> & Hf2)].
  2:{ right. split; [done|]. split; [done|]. split; eauto with nova; by rewrite Hm2. }
  left. pose proof (lb_size sbi F Hf0) as Hsz.
  assert (forall b, F b -> 0 < b < num_blocks sbi) as Hbd by (intros b; by apply lb_bounds).
  pose proof (Hbd nr (proj1 (proj1 (Hin nr ltac:(lia))))) as Hb1.
  pose proof (Hbd _ (proj1 (proj1 (Hin (nr + ret - 1) ltac:(lia))))) as Hb2.
  split; [done|]. split; [lia|]. split; [lia|].
  assert (0 <= default 0 (last bs) < num_blocks sbi) as Hp.
  { destruct (last bs) as [b|] eqn:El; simpl; [|lia]. apply last_Some_elem_of, Hfr, Hbd in El. lia. }
  assert (NoDup (bs ++ seqZ nr ret)) as Hnd'.
  { apply NoDup_app. split; [done|]. split; [|apply NoDup_seqZ].
    intros b Hb Hb'%elem_of_seqZ. by apply (Hin b ltac:(lia)). }
  rewrite Gv', Hm2.
  destruct (coalesce_ok (virt_addr sbi) (nvm sbi1) (default 0 (last bs)) nr ret)
    as (C1 & C2 & C3 & C4); try lia.
  { destruct (last bs) as [b|] eqn:El; simpl; [|lia]. intros Hb.
    apply last_Some_elem_of in El. by destruct (Hin b Hb) as [[_ ?] _]. }
  split; simpl; eauto with nova.
  - intros b [Hb|Hb]%elem_of_app; [by apply Hfr|]. apply elem_of_seqZ in Hb. by apply Hin.
  - eapply lb_ext; [eapply lb_local; [exact Hf2|by split]|]. intros b.
    rewrite not_elem_of_app. simpl. rewrite elem_of_seqZ. tauto.
  - eapply log_chain_extend; eauto; [lia|lia|]. apply Forall_forall. intros b Hb%Hfr%Hbd. lia.
  - intros a Ha. rewrite C4.
    + apply Hsame. intros b Hb. apply Ha. set_solver.
    + destruct (last bs) as [b|] eqn:El; simpl; [|done]. intros _.
      apply Ha, elem_of_app. left. by apply last_Some_elem_of.
    + intros x Hx. apply Ha, elem_of_app. right. apply elem_of_seqZ. lia.
  - destruct Hg'. by split.
Qed.

(** The allocator refused a request of the loop, which left the state [sbi']. *)
Definition refused (pi : Z) sbi' : Prop :=
  exists sbi old num, 0 < num /\
    nova_new_log_blocks sbi smp pi old num 0 = Some (- ENOSPC, old, sbi').

Lemma last_run bs nr ret : 0 < ret -> default 0 (last (bs ++ seqZ nr ret)) = nr + ret - 1.
Proof.
  intros Hr. rewrite last_app.
  assert (last (seqZ nr ret) = Some (nr + ret - 1)) as ->; [|done].
  rewrite last_lookup, length_seqZ. apply lookup_seqZ. lia.
Qed.

Lemma alloc_remaining_ok sbi F pi fuel : forall bs sbi1 num old,
  log_env sbi F pi -> fresh_chain sbi F bs sbi1 -> bs <> [] ->
  0 <= num <= Z.of_nat fuel -> Z.of_nat (length bs) + num < 2147483648 ->
  exists rest sbi',
    alloc_remaining smp fuel sbi1 pi num (Z.of_nat (length bs)) (default 0 (last bs)) old =
      Some (Z.of_nat (length (bs ++ rest)), sbi') /\
    fresh_chain sbi F (bs ++ rest) sbi' /\ Z.of_nat (length rest) <= num /\
    (Z.of_nat (length rest) = num \/ refused pi sbi').
Proof.
  induction fuel as [|fuel IH]; intros bs sbi1 num old Henv Hfc Hne Hnum Hlen; simpl;
    (destruct (Z.eqb_spec num 0) as [->|Hn0];
     [exists [], sbi1; rewrite app_nil_r; simpl; split_and!; auto; lia|]); [lia|].
  destruct (allocate_run sbi F bs sbi1 pi old num Henv Hfc ltac:(lia))
    as (ret & nr & sbi2 & E & Hout). rewrite E. cbn [mbind option_bind].
  destruct Hout as [(Hr & Hnr & Hend & Hfc')|(-> & -> & Hfc')].
  2:{ exists [], sbi2. rewrite app_nil_r. split_and!; auto; [simpl; lia|]. right.
      exists sbi1, old, (u32 num). rewrite u32_small in * by lia. split; [lia|done]. }
  rewrite (proj2 (Z.leb_gt ret 0)) by lia.
  pose proof (lb_size sbi F (le_free _ _ _ Henv)) as Hsz. wrap.
  assert (length (seqZ nr ret) = Z.to_nat ret) as Hl by apply length_seqZ.
  destruct (IH (bs ++ seqZ nr ret) _ (num - ret) nr Henv Hfc') as (rest & sbi' & E' & Hf' & Hle & Hor).
  { by destruct bs. }
  { lia. }
  { rewrite length_app. lia. }
  rewrite last_run, length_app, Hl in E' by lia.
  replace (Z.of_nat (length bs + Z.to_nat ret)) with (Z.of_nat (length bs) + ret) in E' by lia.
  exists (seqZ nr ret ++ rest), sbi'. rewrite app_assoc. split_and!; auto.
  - rewrite length_app. lia.
  - destruct Hor; [left|by right]. rewrite length_app. lia.
Qed.

(** [nova_allocate_inode_log_pages] returns the length of a chain of fresh pages whose
    first one it names: distinct blocks taken from the free set, linked in order, the last
    one pointing nowhere, with no other byte changed.  It gives fewer pages than asked for
    only when the allocator refuses, and none only with -ENOSPC and nothing changed. *)
Theorem allocate_log_pages_ok sbi F pi num garbage old :
  log_env sbi F pi -> 0 < num < 2147483648 ->
  exists ret new_block bs sbi',
    nova_allocate_inode_log_pages smp sbi pi num garbage old = Some (ret, new_block, sbi') /\
    fresh_chain sbi F bs sbi' /\
    ((ret = Z.of_nat (length bs) /\ 0 < ret <= num /\ (ret = num \/ refused pi sbi') /\
      Some new_block = (fun b => 4096 * b) <$> head bs) \/
     (ret = - ENOSPC /\ bs = [] /\ new_block = old /\ nvm sbi' = nvm sbi)).
Proof.
  intros Henv Hnum. unfold nova_allocate_inode_log_pages.
  pose proof (fresh_chain_nil sbi F (le_free _ _ _ Henv)) as Hnil.
  destruct (allocate_run sbi F [] sbi pi garbage num Henv Hnil Hnum)
    as (ret & nr & sbi1 & E & Hout). rewrite E. cbn [mbind option_bind].
  destruct Hout as [(Hr & Hnr & Hend & Hfc)|(-> & -> & Hfc)].
  2:{ exists (- ENOSPC), old, [], sbi1. split_and!; auto. right. split_and!; auto.
      pose proof E as E2. rewrite u32_small in E2 by lia.
      destruct (lb_extent sbi F smp pi garbage num) as (r & n & s & E3 & _ & _ & Hm & _);
        try apply Henv; [lia|]. rewrite E2 in E3. by injection E3 as <- <- <-. }
  rewrite (proj2 (Z.leb_gt ret 0)) by lia. simpl in Hfc.
  pose proof (lb_size sbi F (le_free _ _ _ Henv)) as Hsz.
  rewrite (u64_small (num - ret)), (u64_small (nr + ret)), (u64_small (nr + ret - 1)) by lia.
  assert (length (seqZ nr ret) = Z.to_nat ret) as Hl by apply length_seqZ.
  destruct (alloc_remaining_ok sbi F pi (Z.to_nat num) (seqZ nr ret) _ (num - ret) nr Henv Hfc)
    as (rest & sbi' & E' & Hf' & Hle & Hor); [ | lia | lia | ].
  { intros E0. rewrite E0 in Hl. simpl in Hl. lia. }
  pose proof (last_run [] nr ret ltac:(lia)) as Hlr. simpl in Hlr.
  rewrite Hlr, Hl, Z2Nat.id in E' by lia. rewrite E'. cbn [mbind option_bind].
  rewrite nova_get_block_off_alt by lia. rewrite length_app in *.
  eexists _, _, (seqZ nr ret ++ rest), sbi'. split; [done|]. split; [done|]. left.
  rewrite length_app. split_and!; [done|lia|lia| |].
  - destruct Hor; [left; lia|by right].
  - rewrite (seqZ_cons nr ret) by lia. done.
Qed.
End allocate.

(** ** Releasing the pages of a log *)

Section release.
Context `{RbTree} {L : LogBlocks} (slab_garbage : nova_range_node).
Implicit Types (sbi : nova_sb_info) (F : Z -> Prop) (bs : list Z).

(** The blocks [bs] were given back.  A run for which the slab has no node is lost; when
    the slab always has one, all of them are free. *)
Record released sbi F bs sbi' F' : Prop := {
  rl_free : lb_free sbi' F';
  rl_old b : F b -> F' b;
  rl_new b : F' b -> F b \/ b ∈ bs;
  rl_all : (forall h, kmem_cache_alloc h <> None) -> forall b, b ∈ bs -> F' b;
  rl_geometry : same_geometry sbi sbi';
  rl_nodes : nodes_frame sbi sbi';
  rl_same : nvm sbi' = nvm sbi;
}.

Lemma released_nil sbi F : lb_free sbi F -> released sbi F [] sbi F.
Proof. intros Hf. split; auto with nova; [by intros ? b ?%elem_of_nil|by split]. Qed.

Lemma released_app sbi F bs1 sbi1 F1 bs2 sbi2 F2 :
  released sbi F bs1 sbi1 F1 -> released sbi1 F1 bs2 sbi2 F2 ->
  released sbi F (bs1 ++ bs2) sbi2 F2.
Proof.
  intros [Hf1 Ho1 Hn1 Ha1 Hg1 Hr1 Hm1] [Hf2 Ho2 Hn2 Ha2 Hg2 Hr2 Hm2].
  split; eauto using same_geometry_trans with nova.
  - intros b Hb. rewrite elem_of_app. apply Hn2 in Hb as [Hb|?]; [|auto].
    apply Hn1 in Hb as [?|?]; auto.
  - intros Hslab b [Hb|Hb]%elem_of_app; auto.
  - congruence.
Qed.

(** A run was given back, or the slab had no node for it. *)
Lemma released_outcome sbi F start num ret sbi' (r : option (Z * nova_sb_info)) :
  lb_free sbi F -> r = Some (ret, sbi') -> same_geometry sbi sbi' -> nodes_frame sbi sbi' -> nvm sbi' = nvm sbi ->
  ((ret = 0 /\ lb_free sbi' (fun x => F x \/ start <= x < start + num)) \/
   (ret = - ENOMEM /\ sbi' = sbi /\ kmem_cache_alloc (range_nodes sbi) = None)) ->
  exists ret sbi' F', r = Some (ret, sbi') /\ released sbi F (seqZ start num) sbi' F'.
Proof.
  intros Hf -> Hg Hr Hm [[-> Hf']|(-> & -> & Hnone)].
  - eexists _, sbi', _. split; [done|]. split; [exact Hf'|..]; cbv beta; auto.
    + intros b [?|?]; [by left|]. right. apply elem_of_seqZ. lia.
    + intros _ b Hb%elem_of_seqZ. right. lia.
  - eexists _, sbi, F. split; [done|]. split; auto.
    intros Hslab. by destruct (Hslab _ Hnone).
Qed.

Lemma release_run sbi F pi start num :
  lb_free sbi F -> Pi.i_blk_type (nvm sbi) pi = 0 -> 0 < num -> 0 < start ->
  start + num <= num_blocks sbi ->
  (forall x, start <= x < start + num -> home sbi x = home sbi start /\ ~ F x) ->
  exists ret sbi' F', nova_free_log_blocks slab_garbage sbi pi start num = Some (ret, sbi') /\
    released sbi F (seqZ start num) sbi' F'.
Proof.
  intros Hf Hty Hn Hs Hle Hrun.
  destruct (lb_release slab_garbage sbi F pi start num Hf Hty Hn Hs Hle Hrun)
    as (ret & sbi' & E & Hg & Hr & Hm & Hout). eapply released_outcome; eauto.
Qed.

Lemma release_data_run sbi F pi start num :
  lb_free sbi F -> Pi.i_blk_type (nvm sbi) pi = 0 -> 0 < num -> 0 < start ->
  start + num <= num_blocks sbi ->
  (forall x, start <= x < start + num -> home sbi x = home sbi start /\ ~ F x) ->
  exists ret sbi' F', nova_free_data_blocks slab_garbage sbi pi start num = Some (ret, sbi') /\
    released sbi F (seqZ start num) sbi' F'.
Proof.
  intros Hf Hty Hn Hs Hle Hrun.
  destruct (lb_release_data slab_garbage sbi F pi start num Hf Hty Hn Hs Hle Hrun)
    as (ret & sbi' & E & Hg & Hr & Hm & Hout). eapply released_outcome; eauto.
Qed.

(** Consecutive pages of the chain that are consecutive blocks belong to one free list. *)
Definition runs_ok sbi bs : Prop :=
  forall i b, bs !! i = Some b -> bs !! S i = Some (b + 1) -> home sbi (b + 1) = home sbi b.

(** The offset of the first page. *)
Definition chain_head bs : Z := match head bs with Some b => 4096 * b | None => 0 end.

Lemma log_chain_cons va m b bs :
  log_chain va m (b :: bs) -> page_next m (va + 4096 * b) = chain_head bs /\ log_chain va m bs.
Proof.
  intros Hc. split; [|intros i c Hi; exact (Hc (S i) c Hi)].
  rewrite (Hc O b eq_refl). unfold next_in, chain_head. simpl. by destruct bs.
Qed.

(** What the loop knows: the run [start ..] of [num] blocks, and the pages ahead. *)
Record free_loop sbi F (pi start num : Z) (rest : list Z) : Prop := {
  fl_env : lb_free sbi F /\ mapped sbi /\ Pi.i_blk_type (nvm sbi) pi = 0;
  fl_run : (start = 0 /\ num = 0) \/ (0 < start /\ 0 < num);
  fl_blocks b : b ∈ seqZ start num ++ rest -> 0 < b < num_blocks sbi /\ ~ F b;
  fl_nodup : NoDup (seqZ start num ++ rest);
  fl_home x : start <= x < start + num -> home sbi x = home sbi start;
  fl_link : 0 < num -> head rest = Some (start + num) -> home sbi (start + num) = home sbi start;
  fl_runs : runs_ok sbi rest;
  fl_chain : log_chain (virt_addr sbi) (nvm sbi) rest;
}.

Lemma free_loop_run sbi F pi start num rest :
  free_loop sbi F pi start num rest -> 0 < num ->
  start + num <= num_blocks sbi /\
  (forall x, start <= x < start + num -> home sbi x = home sbi start /\ ~ F x).
Proof.
  intros Hl Hn.
  assert (forall x, start <= x < start + num -> x ∈ seqZ start num ++ rest) as Hin.
  { intros x Hx. apply elem_of_app. left. apply elem_of_seqZ. lia. }
  split.
  - destruct (fl_blocks _ _ _ _ _ _ Hl (start + num - 1)); [apply Hin; lia|lia].
  - intros x Hx. split; [by apply (fl_home _ _ _ _ _ _ Hl)|].
    by apply (fl_blocks _ _ _ _ _ _ Hl), Hin.
Qed.

Lemma runs_ok_cons sbi b rest :
  runs_ok sbi (b :: rest) ->
  runs_ok sbi rest /\ (head rest = Some (b + 1) -> home sbi (b + 1) = home sbi b).
Proof.
  intros Hr. split; [intros i c H1 H2; exact (Hr (S i) c H1 H2)|].
  intros Hh. apply (Hr O b eq_refl). by destruct rest.
Qed.

(** The next page starts a new run. *)
Lemma free_loop_start sbi F pi b rest :
  lb_free sbi F -> mapped sbi -> Pi.i_blk_type (nvm sbi) pi = 0 ->
  (forall c, c ∈ b :: rest -> 0 < c < num_blocks sbi /\ ~ F c) -> NoDup (b :: rest) ->
  runs_ok sbi (b :: rest) -> log_chain (virt_addr sbi) (nvm sbi) (b :: rest) ->
  free_loop sbi F pi b 1 rest.
Proof.
  intros Hf Hm Hty Hb Hnd [Hr Hlink]%runs_ok_cons [_ Hc]%log_chain_cons.
  assert (seqZ b 1 = [b]) as Es by (rewrite seqZ_cons by lia; done).
  split; auto; rewrite ?Es; auto.
  - right. destruct (Hb b); [left|lia].
  - intros x Hx. by replace x with b by lia.
Qed.

(** The next page continues the run. *)
Lemma free_loop_next sbi F pi start num rest :
  free_loop sbi F pi start num ((start + num) :: rest) -> 0 < num ->
  free_loop sbi F pi start (num + 1) rest.
Proof.
  intros [He Hrun Hb Hnd Hh Hl [Hr Hlink]%runs_ok_cons [_ Hc]%log_chain_cons] Hn.
  assert (seqZ start (num + 1) ++ rest = seqZ start num ++ (start + num) :: rest) as Es.
  { rewrite seqZ_app, <- app_assoc by lia. done. }
  specialize (Hl Hn eq_refl).
  split; auto; rewrite ?Es; auto.
  - right. lia.
  - intros x Hx. destruct (decide (x = start + num)) as [->|]; [done|]. apply Hh. lia.
  - intros _ Hhd. rewrite Z.add_assoc in *. by rewrite Hlink.
Qed.

(** The end of the chain. *)
Lemma free_last_run_ok fuel sbi F pi start num freed :
  free_loop sbi F pi start num [] -> 0 <= freed -> freed + num < 2147483648 ->
  exists sbi' F', free_chain slab_garbage fuel sbi pi (chain_head []) start num freed =
      Some (freed + num, sbi') /\ released sbi F (seqZ start num) sbi' F'.
Proof.
  intros Hl Hfr Hlen. pose proof Hl as [(Hfree & _ & Hty) Hrun _ _ _ _ _ _].
  replace (free_chain _ _ _ _ _ _ _ _) with (free_last_run slab_garbage sbi pi start num freed)
    by (by destruct fuel).
  unfold free_last_run. destruct Hrun as [[-> ->]|[Hs Hn]].
  { rewrite Z.add_0_r. exists sbi, F. split; [done|by apply released_nil]. }
  rewrite (proj2 (Z.eqb_neq start 0)) by lia.
  destruct (free_loop_run _ _ _ _ _ _ Hl Hn) as [He Hh].
  destruct (release_run sbi F pi start num Hfree Hty Hn Hs He Hh) as (ret & sbi' & F' & -> & Hrl).
  exists sbi', F'. cbn [negb mbind option_bind]. by rewrite i32_small by lia.
Qed.

Lemma free_chain_ok rest : forall fuel sbi F pi start num freed,
  free_loop sbi F pi start num rest -> (length rest <= fuel)%nat -> 0 <= freed ->
  freed + num + Z.of_nat (length rest) < 2147483648 ->
  exists sbi' F', free_chain slab_garbage fuel sbi pi (chain_head rest) start num freed =
      Some (freed + num + Z.of_nat (length rest), sbi') /\
    released sbi F (seqZ start num ++ rest) sbi' F'.
Proof.
  induction rest as [|b rest IH]; intros fuel sbi F pi start num freed Hl Hf Hfr Hlen;
    pose proof Hl as [(Hfree & Hm & Hty) Hrun Hb Hnd _ _ Hr Hc].
  { destruct (free_last_run_ok fuel sbi F pi start num freed Hl Hfr ltac:(simpl in Hlen; lia))
      as (sbi' & F' & E & Hrl).
    exists sbi', F'. by rewrite app_nil_r, Z.add_0_r. }
  destruct fuel as [|fuel]; [simpl in Hf; lia|]. simpl in Hf, Hlen.
  pose proof (proj1 (Hb b ltac:(set_solver))) as Hbb. pose proof (lb_size sbi F Hfree) as Hsz.
  destruct (log_chain_cons _ _ _ _ Hc) as [Hnext Hc'].
  cbn [free_chain chain_head head]. rewrite (proj2 (Z.eqb_neq (4096 * b) 0)) by lia.
  fold (ENTRY_LOC (4096 * b)). rewrite ENTRY_LOC_alt.
  replace ((4096 * b) mod 4096) with 0 by mlia. cbn [orb negb Z.eqb].
  rewrite page_addr by (auto; lia). unfold block_addr. rewrite Hnext.
  replace (nova_get_blocknr (4096 * b)) with b
    by (rewrite <- (nova_get_block_off_alt b) by lia; symmetry; apply nova_get_blocknr_off; lia).
  destruct Hrun as [[-> ->]|[Hs Hn]].
  { simpl. assert (free_loop sbi F pi b 1 rest) as Hl1.
    { apply free_loop_start; auto. }
    destruct (IH fuel sbi F pi b 1 freed Hl1 ltac:(lia) Hfr ltac:(lia)) as (sbi' & F' & E & Hrl).
    exists sbi', F'. rewrite E. rewrite seqZ_cons in Hrl by lia. split; [f_equal; f_equal; cbn [length]; lia|done]. }
  rewrite (proj2 (Z.eqb_neq start 0)) by lia.
  destruct (free_loop_run _ _ _ _ _ _ Hl Hn) as [He Hh]. wrap.
  destruct (Z.eqb_spec b (start + num)) as [->|Hne].
  { pose proof (free_loop_next _ _ _ _ _ _ Hl Hn) as Hl1.
    destruct (IH fuel sbi F pi start (num + 1) freed Hl1 ltac:(lia) Hfr ltac:(lia))
      as (sbi' & F' & E & Hrl).
    exists sbi', F'. rewrite E. split; [f_equal; f_equal; cbn [length]; lia|].
    rewrite seqZ_app, <- app_assoc in Hrl by lia. done. }
  destruct (release_run sbi F pi start num Hfree Hty Hn Hs He Hh) as (ret & sbi1 & F1 & E1 & Hrl1).
  rewrite E1. cbn [mbind option_bind].
  pose proof Hrl1 as [Hf1 _ Hn1 _ Hg1 _ Hm1]. pose proof Hg1 as [Gv Gc Gb Gp _ _ _ _ _].
  assert (free_loop sbi1 F1 pi b 1 rest) as Hl1.
  { apply NoDup_app in Hnd as (_ & Hdis & Hnd). apply free_loop_start; auto; rewrite ?Hm1, ?Gv, ?Gb; auto.
    - destruct Hm. split; rewrite ?Gv, ?Gb; auto.
    - intros c Hin. destruct (Hb c) as [Hcb Hcf]; [set_solver|]. split; [done|].
      intros [?|?]%Hn1; [done|]. by apply (Hdis c).
    - intros i c H1 H2. unfold home. rewrite Gc, Gp. by apply (Hr i c). }
  destruct (IH fuel sbi1 F1 pi b 1 (freed + num) Hl1 ltac:(lia) ltac:(lia) ltac:(lia))
    as (sbi' & F' & E & Hrl).
  exists sbi', F'. rewrite E. split; [f_equal; f_equal; cbn [length]; lia|].
  rewrite seqZ_cons in Hrl by lia. by eapply released_app.
Qed.
(** Distinct blocks of the device are at most as many as the device has. *)
Lemma nodup_blocks bs n :
  NoDup bs -> (forall b, b ∈ bs -> 0 < b < n) -> (length bs <= Z.to_nat n)%nat.
Proof.
  intros Hnd Hb. replace (Z.to_nat n) with (length (seqZ 0 n)) by apply length_seqZ.
  apply submseteq_length, NoDup_submseteq; [done|].
  intros b Hin%Hb. apply elem_of_seqZ. lia.
Qed.

Lemma free_chain_run sbi F pi bs :
  lb_free sbi F -> mapped sbi -> Pi.i_blk_type (nvm sbi) pi = 0 ->
  (forall b, b ∈ bs -> 0 < b < num_blocks sbi /\ ~ F b) -> NoDup bs -> runs_ok sbi bs ->
  log_chain (virt_addr sbi) (nvm sbi) bs ->
  exists sbi' F', nova_free_contiguous_log_blocks slab_garbage sbi pi (chain_head bs) =
      Some (Z.of_nat (length bs), sbi') /\ released sbi F bs sbi' F'.
Proof.
  intros Hf Hm Hty Hb Hnd Hr Hc. pose proof (lb_size sbi F Hf) as Hsz.
  pose proof (nodup_blocks bs (num_blocks sbi) Hnd (fun b Hin => proj1 (Hb b Hin))) as Hlen.
  apply (free_chain_ok bs (S (Z.to_nat (num_blocks sbi))) sbi F pi 0 0 0); [|lia|lia|].
  - split; auto; simpl; lia.
  - destruct bs as [|b bs]; [simpl; lia|]. pose proof (proj1 (Hb b ltac:(set_solver))). lia.
Qed.

(** C24: [nova_free_contiguous_log_blocks] walks a chain to its end and gives back exactly
    its pages: it reports their number, and afterwards the free blocks are the old ones and
    the pages (all of them, when the slab has nodes).  The loop ends within the fuel. *)
Theorem free_log_pages_ok sbi F pi bs :
  lb_free sbi F -> mapped sbi -> Pi.i_blk_type (nvm sbi) pi = 0 ->
  (forall b, b ∈ bs -> 0 < b < num_blocks sbi /\ ~ F b) -> NoDup bs -> runs_ok sbi bs ->
  log_chain (virt_addr sbi) (nvm sbi) bs ->
  exists sbi' F', nova_free_contiguous_log_blocks slab_garbage sbi pi (chain_head bs) =
      Some (Z.of_nat (length bs), sbi') /\ released sbi F bs sbi' F'.
Proof. apply free_chain_run. Qed.
End release.

(** ** Examples *)

Module LogDemo.
Import RbList.RbList InodeTable.TableDemo.

(** The reserved inode whose log is extended lies in block 0. *)
Definition demo_pi : Z := 65536 + 1024.

(** Twenty blocks for two CPUs: seven are free for CPU 0 and ten for CPU 1, so
    five pages come from the list of CPU 0 and eight from the other. *)
Definition fs_log : nova_sb_info :=
  run_state (nova_allocate_inode_log_pages 0 fs1 demo_pi 5 0 0) raw.

Lemma fs_log_ret : fst <$> nova_allocate_inode_log_pages 0 fs1 demo_pi 5 0 0 = Some (5, 4096 * 3).
Proof. vm_compute. reflexivity. Qed.

Lemma fs_log_pointers :
  let next b := page_next (nvm fs_log) (65536 + 4096 * b) in
  next 3 = 4096 * 4 /\ next 4 = 4096 * 5 /\ next 5 = 4096 * 6 /\ next 6 = 4096 * 7 /\ next 7 = 0.
Proof. split_and!; vm_compute; reflexivity. Qed.

Lemma fs_log_eight :
  fst <$> nova_allocate_inode_log_pages 0 fs1 demo_pi 8 0 0 = Some (8, 4096 * 10).
Proof. vm_compute. reflexivity. Qed.

Lemma fs1_mapped : mapped fs1 /\ virt_addr fs1 = 65536 /\ cpus fs1 = 2.
Proof. unfold mapped. vm_compute. split_and!; done. Qed.

Lemma fs1_env : exists F, log_env 0 fs1 F demo_pi.
Proof.
  destruct fs1_free as [F HF]. exists F. destruct fs1_mapped as (Hm & Hv & Hc).
  split; [done|done|rewrite Hc; lia|vm_compute; done|].
  intros b Hb Hin. apply (lb_bounds fs1 F b HF) in Hb.
  unfold block_addr, demo_pi in Hin. rewrite Hv in Hin. lia.
Qed.

Lemma allocate_log_pages_ok_witness :
  exists F ret new_block bs sbi',
    nova_allocate_inode_log_pages 0 fs1 demo_pi 8 0 0 = Some (ret, new_block, sbi') /\
    fresh_chain fs1 F bs sbi' /\ (ret = Z.of_nat (length bs) \/ ret = - ENOSPC).
Proof.
  destruct fs1_env as [F HF]. exists F.
  destruct (allocate_log_pages_ok 0 fs1 F demo_pi 8 0 0 HF ltac:(lia))
    as (ret & nb & bs & sbi' & E & Hfc & Hout).
  exists ret, nb, bs, sbi'. split; [exact E|]. split; [exact Hfc|].
  destruct Hout as [(Hr & _)|(Hr & _)]; [left|right]; exact Hr.
Defined.

(** The chain of the five pages. *)
Lemma fs_log_chain : exists F, log_env 0 fs1 F demo_pi /\ fresh_chain fs1 F [3; 4; 5; 6; 7] fs_log.
Proof.
  destruct fs1_env as [F HF]. exists F. split; [done|].
  destruct (allocate_log_pages_ok 0 fs1 F demo_pi 5 0 0 HF ltac:(lia))
    as (ret & nb & bs & sbi' & E & Hfc & Hout).
  assert (sbi' = fs_log) as -> by (unfold fs_log; by rewrite E).
  pose proof fs_log_ret as Er. rewrite E in Er. simpl in Er. injection Er as -> ->.
  destruct Hout as [(Hr & _ & _ & Hh)|(Hr & _)]; [|discriminate Hr].
  pose proof (fc_chain _ _ _ _ Hfc) as Hc. pose proof fs_log_pointers as Hp.
  destruct fs1_mapped as (_ & Hv & _). rewrite Hv in Hc.
  destruct bs as [|b1 [|b2 [|b3 [|b4 [|b5 [|b6 bs]]]]]]; try (simpl in Hr; lia).
  simpl in Hh. assert (b1 = 3) as -> by (injection Hh; lia).
  destruct Hp as (P1 & P2 & P3 & P4 & P5).
  pose proof (Hc 0%nat _ eq_refl) as C1. rewrite P1 in C1. assert (b2 = 4) as -> by (cbn in C1; lia).
  pose proof (Hc 1%nat _ eq_refl) as C2. rewrite P2 in C2. assert (b3 = 5) as -> by (cbn in C2; lia).
  pose proof (Hc 2%nat _ eq_refl) as C3. rewrite P3 in C3. assert (b4 = 6) as -> by (cbn in C3; lia).
  pose proof (Hc 3%nat _ eq_refl) as C4. rewrite P4 in C4. assert (b5 = 7) as -> by (cbn in C4; lia).
  done.
Qed.

Lemma free_log_pages_ok_witness :
  exists F sbi' F', nova_free_contiguous_log_blocks garbage fs_log demo_pi (4096 * 3) =
      Some (5, sbi') /\ released fs_log F [3; 4; 5; 6; 7] sbi' F'.
Proof.
  destruct fs_log_chain as (F & [HF [Hv Hm] Hs Hty Hown] & [Hnd Hfr Hf Hc Hsame Hg _]).
  pose proof Hg as [Gv Gc Gb Gp _ _ _ _ _]. eexists.
  apply (free_log_pages_ok garbage fs_log _ demo_pi [3; 4; 5; 6; 7] Hf).
  - split; rewrite ?Gv, ?Gb; done.
  - vm_compute. reflexivity.
  - intros b Hb. rewrite Gb. split; [apply (lb_bounds fs1 F b HF), Hfr, Hb|].
    intros [_ Hn]. exact (Hn Hb).
  - exact Hnd.
  - intros i b H1 H2. do 5 (destruct i as [|i]; [try discriminate H2; injection H1 as <-; reflexivity|]).
    discriminate H1.
  - rewrite Gv. exact Hc.
Defined.
End LogDemo.
