(* ===== verification/World.v ===== *)
(** * The file system as seen by an operation on one inode (nova.h)

    An operation on a file or directory works on the state of the file system, the wear
    monitor, and the DRAM header of the inode.  The world is the three together; the
    operations are a state monad over it, in which [None] is a fault.  A radix tree is a
    finite map from page offsets or name hashes to the addresses of log entries. *)

From S2P Require Import Prelude Layout RangeTree State Monitor.

(** [struct nova_inode_info_header] *)
Record nova_inode_info_header := InodeHeader {
  tree : gmap Z Z;  (* pages of a file or names of a directory *)
  cache_tree : gmap Z Z;  (* mmap cache *)
  sih_mode : Z;  (* i_mode *)
  log_pages : Z;
  sih_size : Z;  (* i_size *)
  sih_ino : Z;  (* ino *)
  sih_pi_addr : Z;  (* pi_addr *)
  mmap_pages : Z;
  low_dirty : Z;
  high_dirty : Z;
  valid_bytes : Z;  (* for thorough GC *)
  last_setattr : Z;
  last_link_change : Z;
}.

Definition with_tree (v : gmap Z Z) (r : nova_inode_info_header) : nova_inode_info_header :=
  InodeHeader v (cache_tree r) (sih_mode r) (log_pages r) (sih_size r)
    (sih_ino r) (sih_pi_addr r) (mmap_pages r) (low_dirty r) (high_dirty r)
    (valid_bytes r) (last_setattr r) (last_link_change r).
Definition with_cache_tree (v : gmap Z Z) (r : nova_inode_info_header) : nova_inode_info_header :=
  InodeHeader (tree r) v (sih_mode r) (log_pages r) (sih_size r) (sih_ino r)
    (sih_pi_addr r) (mmap_pages r) (low_dirty r) (high_dirty r) (valid_bytes
    r) (last_setattr r) (last_link_change r).
Definition with_sih_mode (v : Z) (r : nova_inode_info_header) : nova_inode_info_header :=
  InodeHeader (tree r) (cache_tree r) v (log_pages r) (sih_size r) (sih_ino
    r) (sih_pi_addr r) (mmap_pages r) (low_dirty r) (high_dirty r)
    (valid_bytes r) (last_setattr r) (last_link_change r).
Definition with_log_pages (v : Z) (r : nova_inode_info_header) : nova_inode_info_header :=
  InodeHeader (tree r) (cache_tree r) (sih_mode r) v (sih_size r) (sih_ino
    r) (sih_pi_addr r) (mmap_pages r) (low_dirty r) (high_dirty r)
    (valid_bytes r) (last_setattr r) (last_link_change r).
Definition with_sih_size (v : Z) (r : nova_inode_info_header) : nova_inode_info_header :=
  InodeHeader (tree r) (cache_tree r) (sih_mode r) (log_pages r) v (sih_ino
    r) (sih_pi_addr r) (mmap_pages r) (low_dirty r) (high_dirty r)
    (valid_bytes r) (last_setattr r) (last_link_change r).
Definition with_sih_ino (v : Z) (r : nova_inode_info_header) : nova_inode_info_header :=
  InodeHeader (tree r) (cache_tree r) (sih_mode r) (log_pages r) (sih_size
    r) v (sih_pi_addr r) (mmap_pages r) (low_dirty r) (high_dirty r)
    (valid_bytes r) (last_setattr r) (last_link_change r).
Definition with_sih_pi_addr (v : Z) (r : nova_inode_info_header) : nova_inode_info_header :=
  InodeHeader (tree r) (cache_tree r) (sih_mode r) (log_pages r) (sih_size
    r) (sih_ino r) v (mmap_pages r) (low_dirty r) (high_dirty r)
    (valid_bytes r) (last_setattr r) (last_link_change r).
Definition with_mmap_pages (v : Z) (r : nova_inode_info_header) : nova_inode_info_header :=
  InodeHeader (tree r) (cache_tree r) (sih_mode r) (log_pages r) (sih_size
    r) (sih_ino r) (sih_pi_addr r) v (low_dirty r) (high_dirty r)
    (valid_bytes r) (last_setattr r) (last_link_change r).
Definition with_low_dirty (v : Z) (r : nova_inode_info_header) : nova_inode_info_header :=
  InodeHeader (tree r) (cache_tree r) (sih_mode r) (log_pages r) (sih_size
    r) (sih_ino r) (sih_pi_addr r) (mmap_pages r) v (high_dirty r)
    (valid_bytes r) (last_setattr r) (last_link_change r).
Definition with_high_dirty (v : Z) (r : nova_inode_info_header) : nova_inode_info_header :=
  InodeHeader (tree r) (cache_tree r) (sih_mode r) (log_pages r) (sih_size
    r) (sih_ino r) (sih_pi_addr r) (mmap_pages r) (low_dirty r) v
    (valid_bytes r) (last_setattr r) (last_link_change r).
Definition with_valid_bytes (v : Z) (r : nova_inode_info_header) : nova_inode_info_header :=
  InodeHeader (tree r) (cache_tree r) (sih_mode r) (log_pages r) (sih_size
    r) (sih_ino r) (sih_pi_addr r) (mmap_pages r) (low_dirty r) (high_dirty
    r) v (last_setattr r) (last_link_change r).
Definition with_last_setattr (v : Z) (r : nova_inode_info_header) : nova_inode_info_header :=
  InodeHeader (tree r) (cache_tree r) (sih_mode r) (log_pages r) (sih_size
    r) (sih_ino r) (sih_pi_addr r) (mmap_pages r) (low_dirty r) (high_dirty
    r) (valid_bytes r) v (last_link_change r).
Definition with_last_link_change (v : Z) (r : nova_inode_info_header) : nova_inode_info_header :=
  InodeHeader (tree r) (cache_tree r) (sih_mode r) (log_pages r) (sih_size
    r) (sih_ino r) (sih_pi_addr r) (mmap_pages r) (low_dirty r) (high_dirty
    r) (valid_bytes r) (last_setattr r) v.

Record world := World {
  w_sbi : nova_sb_info;
  w_mon : monitor;
  w_sih : nova_inode_info_header;
}.

(** ** The monad *)

Definition fs (A : Type) : Type := world -> option (A * world).

#[export] Instance fs_ret : MRet fs := fun _ x w => Some (x, w).
#[export] Instance fs_bind : MBind fs := fun _ _ k c w =>
  match c w with
  | Some (x, w') => k x w'
  | None => None
  end.

Definition fs_fault {A} : fs A := fun _ => None.

(** An operation of the file system state, and one of the monitor. *)
Definition on_sbi {A} (f : nova_sb_info -> option (A * nova_sb_info)) : fs A := fun w =>
  match f (w_sbi w) with
  | Some (x, sbi) => Some (x, World sbi (w_mon w) (w_sih w))
  | None => None
  end.

Definition on_mon {A} (c : mon A) : fs A := fun w =>
  match c (w_mon w) with
  | Some (x, m) => Some (x, World (w_sbi w) m (w_sih w))
  | None => None
  end.

(** Reading the state, the device and the header. *)
Definition get_sbi : fs nova_sb_info := fun w => Some (w_sbi w, w).
Definition get_sih : fs nova_inode_info_header := fun w => Some (w_sih w, w).
Definition get_nvm : fs memory := fun w => Some (nvm (w_sbi w), w).

(** Changing the device and the header. *)
Definition put_nvm (f : memory -> memory) : fs unit := fun w =>
  Some (tt, World (with_nvm (f (nvm (w_sbi w))) (w_sbi w)) (w_mon w) (w_sih w)).
Definition put_sih (f : nova_inode_info_header -> nova_inode_info_header) : fs unit := fun w =>
  Some (tt, World (w_sbi w) (w_mon w) (f (w_sih w))).

(** The address of an offset: offset 0 is the null pointer, and every caller follows the
    pointer. *)
Definition get_block (block : Z) : fs Z := fun w =>
  if block =? 0 then None else Some (nova_get_block (virt_addr (w_sbi w)) block, w).

(** A pointer that may be null. *)
Definition fs_deref {A} (o : option A) : fs A :=
  match o with Some x => mret x | None => fs_fault end.

Lemma fs_step {A B} (c : fs A) (k : A -> fs B) w x w' :
  c w = Some (x, w') -> (c ≫= k) w = k x w'.
Proof. unfold mbind, fs_bind. by intros ->. Qed.

Lemma fs_step_seq {A B C} (c : fs A) (d : fs B) (k : B -> fs C) w x w' :
  (c ≫= fun _ => d) w = Some (x, w') -> (c ≫= fun _ => d ≫= k) w = k x w'.
Proof. unfold mbind, fs_bind. destruct (c w) as [[y w1]|]; [|done]. by intros ->. Qed.

Lemma fs_assoc {A B C} (c : fs A) (k : A -> fs B) (h : B -> fs C) w :
  ((c ≫= k) ≫= h) w = (c ≫= fun x => k x ≫= h) w.
Proof. unfold mbind, fs_bind. by destruct (c w) as [[x w']|]. Qed.

Lemma on_sbi_run {A} (f : nova_sb_info -> option (A * nova_sb_info)) w x sbi :
  f (w_sbi w) = Some (x, sbi) -> on_sbi f w = Some (x, World sbi (w_mon w) (w_sih w)).
Proof. unfold on_sbi. by intros ->. Qed.

Lemma on_mon_run {A} (c : mon A) w x m :
  c (w_mon w) = Some (x, m) -> on_mon c w = Some (x, World (w_sbi w) m (w_sih w)).
Proof. unfold on_mon. by intros ->. Qed.

(** [fstep H] runs the first operation of a sequence, whose result [H] gives; [frun] runs
    the ones that only read or write the world. *)
Ltac fstep H := rewrite (fs_step _ _ _ _ _ H).
Ltac frun := repeat (erewrite fs_step by reflexivity); cbv beta; cbn [w_sbi w_mon w_sih].
