(* ===== verification/InodeLog.v ===== *)
(** * Inode logs (inode.c, nova.h)

    The entries of a log, where the next one goes, and the two garbage collections: the
    fast one unlinks pages without a live entry, the thorough one copies the live entries
    to a new chain.  A position in a log is an offset in the device. *)

From S2P Require Import Prelude Layout RangeTree RbList State Balloc BallocFacts BallocSpec.
From S2P Require Import BallocInit BallocTheorems TreeEdits InodeMap LogBlocks InodeTable.
From S2P Require Import Monitor Histogram HashTable Records KnapSack Detect WriteCount Migrate.
From S2P Require Import LogPages World.
#[local] Open Scope word_scope.

(** ** Log entries *)

Definition FILE_WRITE : Z := 1.
Definition DIR_LOG : Z := 2.
Definition SET_ATTR : Z := 3.
Definition LINK_CHANGE : Z := 4.
Definition NEXT_PAGE : Z := 5.

Definition nova_get_entry_type (m : memory) (p : Z) : Z := load 1 m p.
Definition nova_set_entry_type (m : memory) (p type : Z) : memory := store 1 m p type.

(** [struct nova_file_write_entry], 40 bytes *)
Module We.
Definition block (m : memory) (p : Z) : Z := load 8 m p.
Definition pgoff (m : memory) (p : Z) : Z := load 8 m (p + 8).
Definition num_pages (m : memory) (p : Z) : Z := load 4 m (p + 16).
Definition invalid_pages (m : memory) (p : Z) : Z := load 4 m (p + 20).
Definition mtime (m : memory) (p : Z) : Z := load 4 m (p + 24).
Definition size (m : memory) (p : Z) : Z := load 8 m (p + 32).
Definition set_invalid_pages (m : memory) (p v : Z) : memory := store 4 m (p + 20) v.
Definition length : Z := 40.
End We.

(** [struct nova_setattr_logentry], 32 bytes *)
Module Sa.
Definition attr (m : memory) (p : Z) : Z := load 1 m (p + 1).
Definition mode (m : memory) (p : Z) : Z := load 2 m (p + 2).
Definition uid (m : memory) (p : Z) : Z := load 4 m (p + 4).
Definition gid (m : memory) (p : Z) : Z := load 4 m (p + 8).
Definition atime (m : memory) (p : Z) : Z := load 4 m (p + 12).
Definition mtime (m : memory) (p : Z) : Z := load 4 m (p + 16).
Definition ctime (m : memory) (p : Z) : Z := load 4 m (p + 20).
Definition size (m : memory) (p : Z) : Z := load 8 m (p + 24).
Definition length : Z := 32.
End Sa.

(** [struct nova_link_change_entry], 32 bytes *)
Module Lc.
Definition links (m : memory) (p : Z) : Z := load 2 m (p + 2).
Definition ctime (m : memory) (p : Z) : Z := load 4 m (p + 4).
Definition flags (m : memory) (p : Z) : Z := load 4 m (p + 8).
Definition generation (m : memory) (p : Z) : Z := load 4 m (p + 12).
Definition length : Z := 32.
End Lc.

(** [struct nova_dentry]: 28 bytes and the name *)
Module De.
Definition name_len (m : memory) (p : Z) : Z := load 1 m (p + 1).
Definition file_type (m : memory) (p : Z) : Z := load 1 m (p + 2).
Definition invalid (m : memory) (p : Z) : Z := load 1 m (p + 3).
Definition de_len (m : memory) (p : Z) : Z := load 2 m (p + 4).
Definition links_count (m : memory) (p : Z) : Z := load 2 m (p + 6).
Definition mtime (m : memory) (p : Z) : Z := load 4 m (p + 8).
Definition ino (m : memory) (p : Z) : Z := load 8 m (p + 12).
Definition size (m : memory) (p : Z) : Z := load 8 m (p + 20).
Definition name (m : memory) (p : Z) : Z := p + 28.
End De.

(** The bit of [struct iattr] that announces a new size (include/linux/fs.h). *)
Definition ATTR_SIZE : Z := 8.

(** Plain [char]s are signed. *)
Definition i8_of (c : Z) : Z := if c mod 256 <? 128 then c mod 256 else c mod 256 - 256.

(** [BKDRHash] of [length] bytes at [str]. *)
Fixpoint bkdr_loop (n : nat) (m : memory) (str hash : Z) : Z :=
  match n with
  | O => hash
  | S n => bkdr_loop n m (str + 1) (u64 (u64 (hash * 131) + i8_of (m str)))
  end.

Definition BKDRHash (m : memory) (str length : Z) : Z := bkdr_loop (Z.to_nat length) m str 0.

(** Does an entry of [size] bytes not fit behind [curr_p]? *)
Definition is_last_entry (curr_p size : Z) : bool :=
  LAST_ENTRY <? u32 (ENTRY_LOC curr_p + size).

(** Is the next entry in the next page?  Each entry takes at least 32 bytes. *)
Definition goto_next_page (sbi : nova_sb_info) (curr_p : Z) : bool :=
  if LAST_ENTRY <? ENTRY_LOC curr_p + 32 then true
  else nova_get_entry_type (nvm sbi) (nova_get_block (virt_addr sbi) curr_p) =? NEXT_PAGE.

(** The [switch] of [curr_log_entry_invalid] for the entry at address [addr]. *)
Definition entry_status (mem : memory) (last_setattr last_link_change addr curr_p : Z) : bool * Z :=
  let type := nova_get_entry_type mem addr in
  if type =? SET_ATTR then
    (negb ((last_setattr =? curr_p) || negb (Z.land (Sa.attr mem addr) ATTR_SIZE =? 0)),
     Sa.length)
  else if type =? LINK_CHANGE then (negb (last_link_change =? curr_p), Lc.length)
  else if type =? FILE_WRITE then
    (We.num_pages mem addr =? We.invalid_pages mem addr, We.length)
  else if type =? DIR_LOG then
    (negb (negb (De.ino mem addr =? 0) && (De.invalid mem addr =? 0)), De.de_len mem addr)
  else (true, PAGE_SIZE - ENTRY_LOC curr_p).

(** ** Operations on a log *)

Section operations.
Context `{RbTree} (slab_garbage : nova_range_node) (smp : Z) (jiffies_to_msecs : Z -> Z) (e : env).
(** What uninitialised local variables hold. *)
Context (garbage : Z).

(** [mutex_lock] of the page of an inode, and the inode looked up again unless it is the
    root.  A lookup without result is followed by an access through the null pointer. *)
Definition reget_inode (pi : Z) : fs Z :=
  mem ← get_nvm;
  sbi ← get_sbi;
  let ino := Pi.nova_ino mem pi in
  _ ← fs_deref (nova_get_specific_inode_page_lock sbi ino);
  if 1 <? ino then
    r ← on_sbi (fun sbi => nova_get_inode_by_ino_or_pi_addr smp sbi ino 0);
    match r with inr pi => mret pi | inl _ => fs_fault end
  else mret pi.

(** [inode_page_count_increase] and [log_block_write_count_increase] *)
Definition count_inode (pi : Z) : fs unit :=
  sbi ← get_sbi;
  on_mon (inode_page_count_increase jiffies_to_msecs sbi e pi).

(** [inode_page_count_increase_with_migrate] *)
Definition count_migrate (pi : Z) : fs unit := fun w =>
  match inode_page_count_increase_with_migrate smp jiffies_to_msecs (w_sbi w) (w_mon w) e pi garbage with
  | Some (sbi, m) => Some (tt, World sbi m (w_sih w))
  | None => None
  end.

Definition log_block_write_count_increase (block_num : Z) : fs unit :=
  on_mon (write_count_increase jiffies_to_msecs e block_num).

Definition nova_set_next_page_flag (curr_p : Z) : fs unit :=
  if LAST_ENTRY <=? ENTRY_LOC curr_p then mret tt
  else
    p ← get_block curr_p;
    put_nvm (fun mem => nova_set_entry_type mem p NEXT_PAGE).

(** [curr_log_entry_invalid]: whether the entry at [curr_p] is dead, and its length. *)
Definition curr_log_entry_invalid (curr_p : Z) : fs (bool * Z) :=
  addr ← get_block curr_p;
  mem ← get_nvm;
  sih ← get_sih;
  mret (entry_status mem (last_setattr sih) (last_link_change sih) addr curr_p).

(** The loop over the entries of a page; [fuel] bounds it by its bytes. *)
Fixpoint page_invalid_loop (fuel : nat) (page_head curr_p : Z) (ret : bool) : fs bool :=
  if curr_p <? page_head ⊞ LAST_ENTRY then
    match fuel with
    | O => fs_fault
    | S fuel =>
      if curr_p =? 0 then fs_fault
      else
        r ← curr_log_entry_invalid curr_p;
        let '(invalid, length) := (r : bool * Z) in
        if negb invalid then
          _ ← put_sih (fun sih => with_valid_bytes (valid_bytes sih ⊞ length) sih);
          page_invalid_loop fuel page_head (curr_p ⊞ length) false
        else page_invalid_loop fuel page_head (curr_p ⊞ length) ret
    end
  else mret ret.

Definition curr_page_invalid (page_head : Z) : fs bool :=
  page_invalid_loop (Z.to_nat PAGE_SIZE) page_head page_head true.

(** A page is taken out of the chain and released. *)
Definition free_curr_page (pi curr_page : Z) (last_page : option Z) (curr_head : Z) : fs unit :=
  last_page ← fs_deref last_page;
  _ ← put_nvm (fun mem => nova_set_next_page_address mem last_page (page_next mem curr_page));
  _ ← on_sbi (fun sbi => nova_free_log_blocks slab_garbage sbi pi (nova_get_blocknr curr_head) 1);
  mret tt.

(** The entries of a file in the radix tree that point to [old_entry] point to
    [new_entry]. *)
Fixpoint gc_assign_loop (n : nat) (curr_pgoff old_entry new_entry : Z) (t : gmap Z Z) : gmap Z Z :=
  match n with
  | O => t
  | S n =>
    let t := if decide (t !! curr_pgoff = Some old_entry)
             then <[curr_pgoff := new_entry]> t else t in
    gc_assign_loop n (curr_pgoff ⊞ 1) old_entry new_entry t
  end.

Definition nova_gc_assign_file_entry (old_entry new_entry : Z) : fs unit :=
  mem ← get_nvm;
  put_sih (fun sih => with_tree
    (gc_assign_loop (Z.to_nat (We.num_pages mem old_entry)) (We.pgoff mem old_entry)
       old_entry new_entry (tree sih)) sih).

Definition nova_gc_assign_dentry (old_dentry new_dentry : Z) : fs unit :=
  mem ← get_nvm;
  let hash := BKDRHash mem (De.name mem old_dentry) (De.name_len mem old_dentry) in
  put_sih (fun sih =>
    if decide (tree sih !! hash = Some old_dentry)
    then with_tree (<[hash := new_dentry]> (tree sih)) sih else sih).

Definition nova_gc_assign_new_entry (curr_p new_curr : Z) : fs unit :=
  addr ← get_block curr_p;
  mem ← get_nvm;
  let type := nova_get_entry_type mem addr in
  if type =? SET_ATTR then put_sih (with_last_setattr new_curr)
  else if type =? LINK_CHANGE then put_sih (with_last_link_change new_curr)
  else if type =? FILE_WRITE then
    new_addr ← get_block new_curr; nova_gc_assign_file_entry addr new_addr
  else if type =? DIR_LOG then
    new_addr ← get_block new_curr; nova_gc_assign_dentry addr new_addr
  else mret tt.

(** [nova_get_append_head] without a header, for the thorough collection: the position
    and whether a page was added. *)
Definition gc_append_head (pi tail size : Z) : fs (Z * bool) :=
  mem ← get_nvm;
  sbi ← get_sbi;
  let curr_p := if negb (tail =? 0) then tail else Pi.log_tail mem pi in
  r ← (if (curr_p =? 0) || (is_last_entry curr_p size && (next_log_page sbi curr_p =? 0)) then
         _ ← (if is_last_entry curr_p size then nova_set_next_page_flag curr_p else mret tt);
         curr_p ← on_sbi (fun sbi => nova_append_one_log_page smp sbi pi curr_p garbage);
         mret (curr_p, true)
       else mret (curr_p, false));
  let '(curr_p, extended) := (r : Z * bool) in
  if extended && (curr_p =? 0) then mret (0, extended)
  else if is_last_entry curr_p size then
    _ ← nova_set_next_page_flag curr_p;
    sbi ← get_sbi;
    mret (next_log_page sbi curr_p, extended)
  else mret (curr_p, extended).

(** The writes counted for a copied entry: one per whole page. *)
Fixpoint count_copied (n : nat) (block_num : Z) : fs unit :=
  match n with
  | O => mret tt
  | S n => _ ← log_block_write_count_increase block_num; count_copied n (block_num ⊞ 1)
  end.

(** One live entry is copied to the new log; the results are the position behind the copy
    and whether a page was added. *)
Definition copy_entry (pi curr_p new_curr length : Z) : fs (Z * bool) :=
  r ← gc_append_head pi new_curr length;
  let '(new_curr, extended) := (r : Z * bool) in
  if new_curr =? 0 then fs_fault
  else
    dst ← get_block new_curr;
    src ← get_block curr_p;
    _ ← put_nvm (fun mem => memcpy mem dst src length);
    sbi ← get_sbi;
    _ ← count_copied (Z.to_nat (length / 4096)) (get_block_number_by_virt (virt_addr sbi) dst);
    _ ← nova_gc_assign_new_entry curr_p new_curr;
    mret (new_curr ⊞ length, extended).

(** The loop of the thorough collection: the position where it stopped before the tail
    page, the end of the new log and its number of pages. *)
Fixpoint thorough_loop (fuel : nat) (pi curr_p old_curr_p new_curr blocks : Z) : fs (Z * Z * Z) :=
  mem ← get_nvm;
  let log_tail := Pi.log_tail mem pi in
  if curr_p =? log_tail then mret (old_curr_p, new_curr, blocks)
  else
    match fuel with
    | O => fs_fault
    | S fuel =>
      sbi ← get_sbi;
      let old_curr_p := curr_p in
      let curr_p := if goto_next_page sbi curr_p then next_log_page sbi curr_p else curr_p in
      if Z.shiftr curr_p PAGE_SHIFT =? Z.shiftr log_tail PAGE_SHIFT then
        mret (old_curr_p, new_curr, blocks)
      else if curr_p =? 0 then fs_fault
      else
        r ← curr_log_entry_invalid curr_p;
        let '(invalid, length) := (r : bool * Z) in
        if negb invalid then
          r ← copy_entry pi curr_p new_curr length;
          let '(new_curr, extended) := (r : Z * bool) in
          thorough_loop fuel pi (curr_p ⊞ length) old_curr_p new_curr
            (if (extended : bool) then blocks ⊞ 1 else blocks)
        else thorough_loop fuel pi (curr_p ⊞ length) old_curr_p new_curr blocks
    end.

(** The four steps that switch from the old log to the new one. *)
Definition switch_log (pi old_head new_head old_curr_p new_curr : Z) : fs Z :=
  (* step 1: link the new log to the tail block *)
  mem ← get_nvm;
  let tail_block := BLOCK_OFF (Pi.log_tail mem pi) in
  curr_page ← get_block (BLOCK_OFF new_curr);
  let next := page_next mem curr_page in
  _ ← (if negb (next =? 0)
       then _ ← on_sbi (fun sbi => nova_free_contiguous_log_blocks slab_garbage sbi pi next); mret tt
       else mret tt);
  _ ← nova_set_next_page_flag new_curr;
  _ ← put_nvm (fun mem => nova_set_next_page_address mem curr_page tail_block);
  (* step 2: switch to the new log *)
  pi ← reget_inode pi;
  _ ← put_nvm (fun mem => Pi.set_log_head mem pi new_head);
  _ ← count_inode pi;
  (* step 3: unlink the old log *)
  curr_page ← get_block (BLOCK_OFF old_curr_p);
  mem ← get_nvm;
  if negb (page_next mem curr_page =? tail_block) then fs_fault
  else
    _ ← put_nvm (fun mem => nova_set_next_page_address mem curr_page 0);
    (* step 4: free the old log *)
    on_sbi (fun sbi => nova_free_contiguous_log_blocks slab_garbage sbi pi old_head).

Definition nova_inode_log_thorough_gc (pi blocks checked_pages : Z) : fs unit :=
  mem ← get_nvm;
  let curr_p := Pi.log_head mem pi in
  let log_tail := Pi.log_tail mem pi in
  if (curr_p =? 0) && (log_tail =? 0) then mret tt
  else if Z.shiftr curr_p PAGE_SHIFT =? Z.shiftr log_tail PAGE_SHIFT then mret tt
  else
    r ← on_sbi (fun sbi => nova_allocate_inode_log_pages smp sbi pi blocks garbage 0);
    let '(allocated, new_head) := (r : Z * Z) in
    if negb (u64 allocated =? blocks) then mret tt
    else
      sbi ← get_sbi;
      r ← thorough_loop (Z.to_nat (4096 * num_blocks sbi)) pi curr_p curr_p new_head blocks;
      let '(old_curr_p, new_curr, blocks) := (r : Z * Z * Z) in
      _ ← switch_log pi curr_p new_head old_curr_p new_curr;
      put_sih (fun sih => with_log_pages (u64 (log_pages sih + blocks - checked_pages)) sih).

Definition need_thorough_gc (blocks checked_pages : Z) : bool :=
  negb (blocks =? 0) && (u64 (blocks * 2) <? checked_pages).

(** The local variables of the fast collection. *)
Record gc_locals := GcLocals {
  possible_head : Z;
  found_head : bool;
  last_page : option Z;
  first_need_free : bool;
  freed_pages : Z;
  checked_pages : Z;
}.

(** One page of the loop that is not the tail page. *)
Definition fast_gc_page (pi curr : Z) (l : gc_locals) : fs gc_locals :=
  curr_page ← get_block curr;
  invalid ← curr_page_invalid curr;
  mem ← get_nvm;
  if (invalid : bool) then
    if curr =? Pi.log_head mem pi then
      (* free the first page later *)
      mret (GcLocals (possible_head l) (found_head l) (Some curr_page) true
              (i32 (freed_pages l + 1)) (checked_pages l ⊞ 1))
    else
      _ ← free_curr_page pi curr_page (last_page l) curr;
      mret (GcLocals (possible_head l) (found_head l) (last_page l) (first_need_free l)
              (i32 (freed_pages l + 1)) (checked_pages l ⊞ 1))
  else
    mret (GcLocals (if found_head l then possible_head l else curr) true (Some curr_page)
            (first_need_free l) (freed_pages l) (checked_pages l ⊞ 1)).

(** The loop along the chain up to the tail page; [fuel] bounds it by the device. *)
Fixpoint fast_gc_loop (fuel : nat) (pi curr : Z) (l : gc_locals) : fs gc_locals :=
  mem ← get_nvm;
  if Z.shiftr curr PAGE_SHIFT =? Z.shiftr (Pi.log_tail mem pi) PAGE_SHIFT then
    mret (if found_head l then l
          else GcLocals curr false (last_page l) (first_need_free l) (freed_pages l)
                 (checked_pages l))
  else
    match fuel with
    | O => fs_fault
    | S fuel =>
      curr_page ← get_block curr;
      let next := page_next mem curr_page in
      l ← fast_gc_page pi curr l;
      if next =? 0 then mret l else fast_gc_loop fuel pi next l
    end.

(** Behind the loop: the new pages are linked to the tail, the head is moved, and the
    first page is released when it was dead. *)
Definition fast_gc_finish (pi curr_tail new_block num_pages : Z) (l : gc_locals) : fs Z :=
  curr_page ← get_block (BLOCK_OFF curr_tail);
  _ ← put_nvm (fun mem => nova_set_next_page_address mem curr_page new_block);
  pi ← reget_inode pi;
  mem ← get_nvm;
  let curr := Pi.log_head mem pi in
  let grown := num_pages - freed_pages l in
  _ ← put_nvm (fun mem => Pi.set_log_head mem pi (possible_head l));
  _ ← put_sih (fun sih => with_log_pages (log_pages sih ⊞ grown) sih);
  _ ← put_nvm (fun mem => Pi.set_i_blocks mem pi (Pi.i_blocks mem pi ⊞ grown));
  if first_need_free l then
    _ ← on_sbi (fun sbi => nova_free_log_blocks slab_garbage sbi pi (nova_get_blocknr curr) 1);
    mret pi
  else mret pi.

Definition nova_inode_log_fast_gc (pi curr_tail new_block num_pages : Z) : fs unit :=
  mem ← get_nvm;
  sbi ← get_sbi;
  _ ← put_sih (with_valid_bytes 0);
  l ← fast_gc_loop (Z.to_nat (num_blocks sbi)) pi (Pi.log_head mem pi)
        (GcLocals 0 false None false 0 0);
  pi ← fast_gc_finish pi curr_tail new_block num_pages l;
  sih ← get_sih;
  let blocks := valid_bytes sih / LAST_ENTRY in
  let blocks := if negb (valid_bytes sih mod LAST_ENTRY =? 0) then blocks ⊞ 1 else blocks in
  let checked := checked_pages l ⊟ freed_pages l in
  _ ← (if need_thorough_gc blocks checked
       then nova_inode_log_thorough_gc pi blocks checked else mret tt);
  count_inode pi.

Definition EXTEND_THRESHOLD : Z := 256.

(** Returns the first new page, 0 when there is none. *)
Definition nova_extend_inode_log (pi curr_p : Z) : fs Z :=
  if curr_p =? 0 then
    r ← on_sbi (fun sbi => nova_allocate_inode_log_pages smp sbi pi 1 garbage garbage);
    let '(allocated, new_block) := (r : Z * Z) in
    if negb (allocated =? 1) then mret 0
    else
      pi ← reget_inode pi;
      _ ← put_nvm (fun mem => Pi.set_log_tail mem pi new_block);
      _ ← put_nvm (fun mem => Pi.set_log_head mem pi new_block);
      _ ← put_sih (with_log_pages 1);
      _ ← put_nvm (fun mem => Pi.set_i_blocks mem pi (Pi.i_blocks mem pi ⊞ 1));
      _ ← count_inode pi;
      mret new_block
  else
    sih ← get_sih;
    let num_pages := if EXTEND_THRESHOLD <=? log_pages sih then EXTEND_THRESHOLD
                     else log_pages sih in
    r ← on_sbi (fun sbi => nova_allocate_inode_log_pages smp sbi pi num_pages garbage garbage);
    let '(allocated, new_block) := (r : Z * Z) in
    if allocated <=? 0 then mret 0
    else
      _ ← nova_inode_log_fast_gc pi curr_p new_block allocated;
      _ ← count_inode pi;
      mret new_block.

(** [nova_get_append_head] with the header of the inode. *)
Definition nova_get_append_head (pi tail size : Z) : fs Z :=
  mem ← get_nvm;
  sih ← get_sih;
  pi ← (if NOVA_NORMAL_INODE_START <? Pi.nova_ino mem pi then
          r ← on_sbi (fun sbi => nova_get_inode_by_ino_or_pi_addr smp sbi (Pi.nova_ino mem pi)
                                   (sih_pi_addr sih));
          match r with inr pi => mret pi | inl _ => fs_fault end
        else mret pi);
  mem ← get_nvm;
  let curr_p := if negb (tail =? 0) then tail else Pi.log_tail mem pi in
  sbi ← get_sbi;
  curr_p ← (if (curr_p =? 0) || (is_last_entry curr_p size && (next_log_page sbi curr_p =? 0)) then
              _ ← (if is_last_entry curr_p size then nova_set_next_page_flag curr_p else mret tt);
              nova_extend_inode_log pi curr_p
            else mret curr_p);
  if curr_p =? 0 then mret 0
  else if is_last_entry curr_p size then
    _ ← nova_set_next_page_flag curr_p;
    sbi ← get_sbi;
    mret (next_log_page sbi curr_p)
  else mret curr_p.

(** [struct nova_file_write_entry] in DRAM, and its copy to the device. *)
Record nova_file_write_entry := WriteEntry {
  we_block : Z;
  we_pgoff : Z;
  we_num_pages : Z;
  we_invalid_pages : Z;
  we_mtime : Z;
  we_padding : Z;
  we_size : Z;
}.

Definition copy_write_entry (m : memory) (p : Z) (d : nova_file_write_entry) : memory :=
  let m := store 8 m p (we_block d) in
  let m := store 8 m (p + 8) (we_pgoff d) in
  let m := store 4 m (p + 16) (we_num_pages d) in
  let m := store 4 m (p + 20) (we_invalid_pages d) in
  let m := store 4 m (p + 24) (we_mtime d) in
  let m := store 4 m (p + 28) (we_padding d) in
  store 8 m (p + 32) (we_size d).

(** Returns the position of the entry, 0 when the log cannot grow. *)
Definition nova_append_file_write_entry (pi : Z) (data : nova_file_write_entry) (tail : Z) : fs Z :=
  curr_p ← nova_get_append_head pi tail We.length;
  if curr_p =? 0 then mret 0
  else
    entry ← get_block curr_p;
    _ ← put_nvm (fun mem => copy_write_entry mem entry data);
    sbi ← get_sbi;
    _ ← log_block_write_count_increase (get_block_number_by_virt (virt_addr sbi) entry);
    mret curr_p.

(** [nova_update_tail_wwb]; the device is mapped at [nova_base_address]. *)
Definition nova_update_tail_wwb (nova_base_address pi new_tail : Z) : fs unit :=
  mem ← get_nvm;
  sbi ← get_sbi;
  let ino := Pi.nova_ino mem pi in
  _ ← fs_deref (nova_get_specific_inode_page_lock sbi ino);
  pi ← (if NOVA_NORMAL_INODE_START <? ino then
          r ← on_sbi (fun sbi => nova_get_inode_by_ino_or_pi_addr smp sbi ino 0);
          match r with inr pi => mret pi | inl _ => fs_fault end
        else mret pi);
  _ ← put_nvm (fun mem => Pi.set_log_tail mem pi new_tail);
  on_mon (inode_page_count_increase_by_vir nova_base_address e pi).
End operations.
