(* ===== verification/FastGc.v ===== *)
(** * The fast garbage collection of inode logs (inode.c)

    The collection walks the chain up to the page of the tail, takes the pages without a
    live entry out of the chain and gives them back, and links the new pages behind the
    old ones.  What it has to achieve is stated on lists of pages: the chain from the
    new head consists of the old pages that have a live entry, the pages from the tail
    on, and the new pages. *)

From S2P Require Import Prelude Layout RangeTree RbList State Balloc BallocFacts BallocSpec.
From S2P Require Import BallocInit BallocTheorems TreeEdits InodeMap LogBlocks InodeTable.
From S2P Require Import Monitor Histogram HashTable Records KnapSack Detect WriteCount Migrate.
From S2P Require Import LogPages World InodeLog.
#[local] Open Scope word_scope.

(** ** The entries of a page *)

(** The live entries from [curr_p] on, as positions and lengths; [None] when the walk does
    not get behind the last entry. *)
Fixpoint live_from (fuel : nat) (m : memory) (last_setattr last_link_change va page_head curr_p : Z) :
    option (list (Z * Z)) :=
  if curr_p <? page_head ⊞ LAST_ENTRY then
    match fuel with
    | O => None
    | S fuel =>
      if curr_p =? 0 then None
      else
        let '(invalid, length) :=
          entry_status m last_setattr last_link_change (nova_get_block va curr_p) curr_p in
        es ← live_from fuel m last_setattr last_link_change va page_head (curr_p ⊞ length);
        Some (if (invalid : bool) then es else (curr_p, length) :: es)
    end
  else Some [].

(** The live entries of page [b]. *)
Definition live_entries (m : memory) (last_setattr last_link_change va b : Z) :
    option (list (Z * Z)) :=
  live_from (Z.to_nat PAGE_SIZE) m last_setattr last_link_change va (4096 * b) (4096 * b).

Definition bytes_of (es : list (Z * Z)) : Z := sum_of snd es.

Definition is_nil {A} (l : list A) : bool := match l with [] => true | _ => false end.

(** [curr_page_invalid] answers whether the page has no live entry, and adds the bytes of
    the live entries. *)
Lemma page_invalid_loop_ok fuel : forall sbi mon sih s head p ret es,
  live_from fuel (nvm sbi) (last_setattr sih) (last_link_change sih) (virt_addr sbi) head p
    = Some es ->
  page_invalid_loop fuel head p ret (World sbi mon (with_valid_bytes (u64 s) sih)) =
    Some (ret && is_nil es, World sbi mon (with_valid_bytes (u64 (s + bytes_of es)) sih)).
Proof.
  induction fuel as [|fuel IH]; intros sbi mon sih s head p ret es; simpl;
    (destruct (p <? _); [|intros [= <-]; by rewrite andb_true_r, Z.add_0_r]); [done|].
  destruct (p =? 0) eqn:Ep; [done|].
  destruct (entry_status _ _ _ _ _) as [inv len] eqn:Es.
  destruct (live_from fuel _ _ _ _ _ _) as [es'|] eqn:El; [|done]. intros [= <-].
  erewrite fs_step by (unfold curr_log_entry_invalid, get_block; erewrite fs_step by
    (cbn [w_sbi]; rewrite Ep; reflexivity); frun; cbn [last_setattr last_link_change with_valid_bytes];
    rewrite Es; reflexivity).
  destruct inv; simpl.
  - by apply IH.
  - frun. cbn [valid_bytes with_valid_bytes]. rewrite u64_u64_add.
    rewrite andb_false_r, Z.add_assoc.
    exact (IH sbi mon sih (s + len) head _ false es' El).
Qed.

Lemma curr_page_invalid_ok sbi mon sih s b es :
  live_entries (nvm sbi) (last_setattr sih) (last_link_change sih) (virt_addr sbi) b = Some es ->
  curr_page_invalid (4096 * b) (World sbi mon (with_valid_bytes (u64 s) sih)) =
    Some (is_nil es, World sbi mon (with_valid_bytes (u64 (s + bytes_of es)) sih)).
Proof. apply (page_invalid_loop_ok (Z.to_nat PAGE_SIZE) sbi mon sih s _ _ true). Qed.

(** Reading the entries of a page does not touch its pointer. *)
Lemma entry_status_local m m' ls ll a p :
  agree m m' a 24 -> entry_status m ls ll a p = entry_status m' ls ll a p.
Proof.
  intros Hag. unfold entry_status, nova_get_entry_type, Sa.attr, We.num_pages, We.invalid_pages,
    De.ino, De.invalid, De.de_len.
  rewrite !(load_ext _ m m') by (intros x Hx; apply Hag; lia). done.
Qed.

Lemma entry_length_bound m ls ll a p : 0 <= snd (entry_status m ls ll a p) < 65536.
Proof.
  unfold entry_status. repeat case_cmp; unfold Sa.length, Lc.length, We.length, PAGE_SIZE; simpl; try lia.
  - apply (load_range 2).
  - rewrite ENTRY_LOC_alt. pose proof (Z.mod_pos_bound p 4096). lia.
Qed.

Lemma live_from_local fuel : forall m m' ls ll va b p,
  0 < va -> 0 < b < 2147483648 -> va + 4096 * (b + 1) <= 18446744073709551616 -> 4096 * b <= p < 2^60 ->
  agree m m' (va + 4096 * b) 4088 ->
  live_from fuel m ls ll va (4096 * b) p = live_from fuel m' ls ll va (4096 * b) p.
Proof.
  induction fuel as [|fuel IH]; intros m m' ls ll va b p Hv Hb Hw Hp Hag; simpl; [done|].
  unfold LAST_ENTRY. wrap. destruct (Z.ltb_spec p (4096 * b + 4064)) as [Hlt|]; [|done].
  destruct (p =? 0) eqn:Ep; [done|]. unfold nova_get_block. rewrite Ep. wrap.
  rewrite (entry_status_local m m') by (intros x Hx; apply Hag; lia).
  pose proof (entry_length_bound m' ls ll (va + p) p) as Hl.
  destruct (entry_status m' ls ll (va + p) p) as [inv len]. simpl in Hl. wrap.
  by rewrite (IH m m') by (auto; lia).
Qed.

Lemma live_entries_local m m' ls ll va b :
  0 < va -> 0 < b < 2147483648 -> va + 4096 * (b + 1) <= 18446744073709551616 ->
  agree m m' (va + 4096 * b) 4088 ->
  live_entries m ls ll va b = live_entries m' ls ll va b.
Proof. intros. apply live_from_local; auto. lia. Qed.

#[local] Strategy opaque [live_entries].

(** ** Changing chains *)

Lemma log_chain_cons_iff va m b bs :
  log_chain va m (b :: bs) <-> page_next m (va + 4096 * b) = chain_head bs /\ log_chain va m bs.
Proof.
  split; [apply log_chain_cons|]. intros [Hn Hc] [|i] c Hi; [|exact (Hc i c Hi)].
  injection Hi as ->. rewrite Hn. unfold next_in, chain_head. simpl. by destruct bs.
Qed.

Lemma log_chain_frame va (m m' : memory) bs :
  log_chain va m bs -> (forall b a, b ∈ bs -> tail_word va b a -> m' a = m a) ->
  log_chain va m' bs.
Proof.
  intros Hc Hm i b Hi. rewrite (page_next_frame va m); [by apply Hc|].
  intros a. by apply Hm, (list_elem_of_lookup_2 _ i).
Qed.

(** The last page of a chain gets a new successor: what followed it is cut off and another
    chain is put there. *)
Lemma log_chain_relink va m bs x mid rest :
  log_chain va m (bs ++ x :: mid) -> log_chain va m rest -> NoDup (bs ++ x :: rest) ->
  (forall b, b ∈ rest -> 0 < b < 4503599627370496) ->
  log_chain va (nova_set_next_page_address m (va + 4096 * x) (chain_head rest)) (bs ++ x :: rest).
Proof.
  intros Hc Hr Hnd Hb. induction bs as [|y bs IH]; simpl in *.
  - apply NoDup_cons in Hnd as [Hx _]. apply log_chain_cons_iff. split.
    + apply set_next_eq. unfold chain_head. destruct rest as [|c rest]; simpl; [lia|].
      specialize (Hb c ltac:(set_solver)). lia.
    + eapply log_chain_frame; [exact Hr|]. intros b a Hin Ha. apply set_next_same. intros Hxa.
      apply Hx. by rewrite (tail_word_inj _ _ _ _ Hxa Ha).
  - apply NoDup_cons in Hnd as [Hy Hnd]. apply log_chain_cons_iff in Hc as [Hn Hc].
    apply log_chain_cons_iff. split; [|by apply IH].
    rewrite set_next_ne by set_solver. rewrite Hn. by destruct bs.
Qed.

Lemma chain_head_app bs rest : bs <> [] -> chain_head (bs ++ rest) = chain_head bs.
Proof. by destruct bs. Qed.

Lemma log_chain_app_r va m bs rest : log_chain va m (bs ++ rest) -> log_chain va m rest.
Proof. induction bs as [|b bs IH]; [done|]. intros [_ Hc]%log_chain_cons. by apply IH. Qed.

(** ** Changes of the memory alone *)

Lemma same_geometry_nvm sbi sbi' m : same_geometry sbi sbi' -> same_geometry sbi (with_nvm m sbi').
Proof. intros []. by split. Qed.

Lemma lb_free_nvm `{RbTree} {L : LogBlocks} sbi m F : lb_free sbi F -> lb_free (with_nvm m sbi) F.
Proof. intros Hf. eapply lb_local; [exact Hf|by split]. Qed.

(** ** The inode *)

(** An inode of a table, whose page has a mutex. *)
Record homed (sbi : nova_sb_info) (P : Z -> list Z) (pi : Z) : Prop := {
  hm_tables : tables_ok sbi P;
  hm_unlocked : unlocked sbi;
  hm_lock : nova_get_specific_inode_page_lock sbi (Pi.nova_ino (nvm sbi) pi) = Some tt;
  hm_slot : 1 < Pi.nova_ino (nvm sbi) pi /\ exists a,
    inode_slot (cpus sbi) P (Pi.nova_ino (nvm sbi) pi) = Some a /\
    nova_get_block (virt_addr sbi) a = pi;
}.

Lemma homed_frame sbi sbi' P pi :
  homed sbi P pi -> mapped sbi -> 0 < num_blocks sbi -> same_geometry sbi sbi' ->
  (forall a, a < block_addr sbi 1 -> nvm sbi' a = nvm sbi a) ->
  Pi.nova_ino (nvm sbi') pi = Pi.nova_ino (nvm sbi) pi -> homed sbi' P pi.
Proof.
  intros [T1 T2 T3 T4] Hm Hn Hg H0 Hi. pose proof Hg as [Gv Gc Gb _ _ [_ Gl] _ _ _].
  split; rewrite ?Hi, ?Gc, ?Gv; auto.
  - by eapply tables_ok_frame.
  - intros c Hc. rewrite Gl. apply T2. by rewrite <- Gc.
  - unfold nova_get_specific_inode_page_lock in *. by rewrite Gc.
Qed.

Lemma wwb_get_present `{RbTree} smp sbi P ino a n :
  tables_ok sbi P -> unlocked sbi -> num_blocks sbi < 2147483648 -> 0 <= ino ->
  inode_slot (cpus sbi) P ino = Some a ->
  wwb_get smp n sbi ino = Some (inr (nova_get_block (virt_addr sbi) a), sbi).
Proof.
  intros. destruct n; simpl; rewrite (get_inode_address_present smp sbi P ino 0 0 0 a) by done; by apply (inode_at_slot sbi P ino).
Qed.

(** The lookup gives the place of the inode number in the tables. *)
Lemma reget_inode_slot `{RbTree} smp P pi w a :
  let ino := Pi.nova_ino (nvm (w_sbi w)) pi in
  tables_ok (w_sbi w) P -> unlocked (w_sbi w) -> num_blocks (w_sbi w) < 2147483648 ->
  nova_get_specific_inode_page_lock (w_sbi w) ino = Some tt -> 1 < ino ->
  inode_slot (cpus (w_sbi w)) P ino = Some a ->
  reget_inode smp pi w = Some (nova_get_block (virt_addr (w_sbi w)) a, w).
Proof.
  intros ino T1 T2 Hs T3 Hi Ha. unfold reget_inode. frun. fold ino. rewrite T3. cbn [fs_deref].
  frun. rewrite (proj2 (Z.ltb_lt _ _) Hi).
  assert (nova_get_inode_by_ino_or_pi_addr smp (w_sbi w) ino 0 =
          Some (inr (nova_get_block (virt_addr (w_sbi w)) a), w_sbi w)) as E.
  { unfold nova_get_inode_by_ino_or_pi_addr. cbn [Z.eqb].
    destruct (ino <? _); apply (wwb_get_present smp (w_sbi w) P ino a); auto; lia. }
  erewrite fs_step by (apply on_sbi_run; exact E). by destruct w.
Qed.

(** An inode is found where it is. *)
Lemma reget_inode_ok `{RbTree} smp P pi w :
  homed (w_sbi w) P pi -> num_blocks (w_sbi w) < 2147483648 ->
  reget_inode smp pi w = Some (pi, w).
Proof.
  intros [T1 T2 T3 (Hi & a & Ha & E)] Hs. rewrite <- E at 2. by apply (reget_inode_slot smp P).
Qed.

(** ** The loop *)

Section collect.
Context `{RbTree} {L : LogBlocks} (slab_garbage : nova_range_node).
(** The state, the free blocks and the header of the inode at [pi] before the collection;
    the pages before the one of the tail, and the others. *)
Context (sbi0 : nova_sb_info) (F0 : Z -> Prop) (mon0 : monitor) (sih0 : nova_inode_info_header).
Context (pi : Z) (pre tl : list Z).

Definition entries_of (b : Z) : option (list (Z * Z)) :=
  live_entries (nvm sbi0) (last_setattr sih0) (last_link_change sih0) (virt_addr sbi0) b.

(** Does a page have a live entry, and how many bytes are live? *)
Definition live (b : Z) : bool :=
  match entries_of b with Some es => negb (is_nil es) | None => false end.
Definition live_bytes (b : Z) : Z :=
  match entries_of b with Some es => bytes_of es | None => 0 end.
Definition dead (b : Z) : bool := negb (live b).

Record collectable : Prop := {
  cl_free : lb_free sbi0 F0;
  cl_mapped : mapped sbi0;
  cl_type : Pi.i_blk_type (nvm sbi0) pi = 0;
  cl_blocks b : b ∈ pre ++ tl -> 0 < b < num_blocks sbi0 /\ ~ F0 b;
  cl_apart b : b ∈ pre ++ tl -> pi + 128 <= block_addr sbi0 b \/ block_addr sbi0 (b + 1) <= pi;
  cl_nodup : NoDup (pre ++ tl);
  cl_chain : log_chain (virt_addr sbi0) (nvm sbi0) (pre ++ tl);
  cl_head : Pi.log_head (nvm sbi0) pi = chain_head (pre ++ tl);
  cl_tail : head tl = Some (Pi.log_tail (nvm sbi0) pi / 4096);
  cl_scan b : b ∈ pre -> entries_of b <> None;
}.

(** The pages that are linked when [done] has been walked: the first one stays until the
    end. *)
Definition kept (done : list Z) : list Z :=
  match done with [] => [] | h :: r => h :: filter (fun b => live b) r end.

Definition locals_of (done : list Z) : gc_locals :=
  let lives := filter (fun b => live b) done in
  GcLocals (chain_head lives) (negb (is_nil lives))
    ((fun b => virt_addr sbi0 + 4096 * b) <$> last (kept done))
    (match done with h :: _ => dead h | [] => false end)
    (Z.of_nat (length (filter (fun b => dead b) done))) (Z.of_nat (length done)).

(** The blocks [ds] were given back, as far as the slab has nodes. *)
Record freed (F : Z -> Prop) (ds : list Z) (F' : Z -> Prop) : Prop := {
  fd_old b : F b -> F' b;
  fd_new b : F' b -> F b \/ b ∈ ds;
  fd_all : (forall h, kmem_cache_alloc h <> None) -> forall b, b ∈ ds -> F' b;
}.

Lemma freed_nil F : freed F [] F.
Proof. split; auto. by intros _ b ?%elem_of_nil. Qed.

Lemma freed_snoc F ds F1 b F2 sbi sbi' :
  freed F ds F1 -> released sbi F1 [b] sbi' F2 -> freed F (ds ++ [b]) F2.
Proof.
  intros [O1 N1 A1] [_ O2 N2 A2 _ _ _]. split; [by auto|..].
  - intros x [Hx|Hx]%N2; [|set_solver]. apply N1 in Hx. set_solver.
  - intros Hs x [Hx|Hx]%elem_of_app; auto.
Qed.

(** What holds when [done] has been walked and [todo] is ahead. *)
Record walked (done todo : list Z) (sbi : nova_sb_info) : Prop := {
  wk_split : pre = done ++ todo;
  wk_geometry : same_geometry sbi0 sbi;
  wk_nodes : nodes_frame sbi0 sbi;
  wk_free : exists F, lb_free sbi F /\ freed F0 (filter (fun b => dead b) (tail done)) F;
  wk_chain : log_chain (virt_addr sbi0) (nvm sbi) (kept done ++ todo ++ tl);
  wk_same a : (forall b, b ∈ done -> ~ tail_word (virt_addr sbi0) b a) -> nvm sbi a = nvm sbi0 a;
}.

Lemma dead_snoc l b :
  filter (fun b => dead b) (l ++ [b]) = filter (fun b => dead b) l ++ (if live b then [] else [b]).
Proof.
  rewrite filter_app, filter_cons, filter_nil. unfold dead. by destruct (live b).
Qed.

Lemma live_snoc l b :
  filter (fun b => live b) (l ++ [b]) = filter (fun b => live b) l ++ (if live b then [b] else []).
Proof. rewrite filter_app, filter_cons, filter_nil. by destruct (live b). Qed.

Lemma kept_snoc done b :
  kept (done ++ [b]) = kept done ++ (if is_nil done || live b then [b] else []).
Proof.
  destruct done as [|h r]; simpl; [done|]. by rewrite live_snoc.
Qed.

Lemma kept_incl done b : b ∈ kept done -> b ∈ done.
Proof.
  destruct done as [|h r]; simpl; [done|]. rewrite !elem_of_cons, list_elem_of_filter. tauto.
Qed.

Lemma kept_sublist done : kept done `sublist_of` done.
Proof. destruct done as [|h r]; simpl; [done|]. apply sublist_skip, sublist_filter. Qed.

Lemma walked_start : collectable -> walked [] pre sbi0.
Proof.
  intros Hc. split; auto with nova; [by split| |apply Hc].
  exists F0. split; [apply Hc|apply freed_nil].
Qed.

(** The inode and the entries of a page are not changed by the walk. *)
Lemma walked_inode done todo sbi a :
  collectable -> walked done todo sbi -> pi <= a < pi + 128 -> nvm sbi a = nvm sbi0 a.
Proof.
  intros Hc Hw Ha. apply (wk_same _ _ _ Hw). intros b Hb Ht.
  assert (b ∈ pre ++ tl) as Hin by (rewrite (wk_split _ _ _ Hw); set_solver).
  pose proof (cl_apart Hc b Hin). unfold tail_word, block_addr in *. lia.
Qed.

Lemma walked_field done todo sbi n o :
  collectable -> walked done todo sbi -> 0 <= o -> o + Z.of_nat n <= 128 ->
  load n (nvm sbi) (pi + o) = load n (nvm sbi0) (pi + o).
Proof. intros Hc Hw H0 H1. apply load_ext. intros a Ha. eapply walked_inode; eauto. lia. Qed.

Lemma walked_entries done todo sbi b :
  collectable -> walked done todo sbi -> b ∈ todo ->
  live_entries (nvm sbi) (last_setattr sih0) (last_link_change sih0) (virt_addr sbi0) b = entries_of b.
Proof.
  intros Hc Hw Hb. destruct (cl_mapped Hc) as [Hv Hm].
  destruct (cl_blocks Hc b) as [Hbb _]; [rewrite (wk_split _ _ _ Hw); set_solver|].
  pose proof (lb_size _ _ (cl_free Hc)). apply live_entries_local; try lia.
  intros a Ha. apply (wk_same _ _ _ Hw). intros c Hcd Ht.
  pose proof (cl_nodup Hc) as Hnd. rewrite (wk_split _ _ _ Hw), <- app_assoc in Hnd.
  apply NoDup_app in Hnd as (_ & Hdis & _). destruct (decide (c = b)) as [->|Hne].
  - apply (Hdis b Hcd). set_solver.
  - unfold tail_word in Ht. lia.
Qed.

(** A page with a live entry, or the first one, stays where it is. *)
Lemma walked_keep done b todo sbi :
  walked done (b :: todo) sbi -> is_nil done || live b = true -> walked (done ++ [b]) todo sbi.
Proof.
  intros [Hs Hg Hn (F & Hf & Hfr) Hch Hsame] Hk. split; auto.
  - by rewrite Hs, <- app_assoc.
  - exists F. split; [done|]. destruct done as [|h r]; [exact Hfr|]. cbn [is_nil orb tail app] in *.
    by rewrite dead_snoc, Hk, app_nil_r.
  - by rewrite kept_snoc, Hk, <- app_assoc.
  - intros a Ha. apply Hsame. set_solver.
Qed.

(** Another dead page is taken out of the chain and released. *)
Lemma walked_drop done b todo sbi :
  collectable -> walked done (b :: todo) sbi -> is_nil done || live b = false ->
  exists x ret sbi', last (kept done) = Some x /\
    nova_free_log_blocks slab_garbage
      (with_nvm (nova_set_next_page_address (nvm sbi) (virt_addr sbi0 + 4096 * x)
         (page_next (nvm sbi) (virt_addr sbi0 + 4096 * b))) sbi) pi b 1 = Some (ret, sbi') /\
    walked (done ++ [b]) todo sbi'.
Proof.
  intros Hc Hw Hk. pose proof Hw as [Hs Hg Hn (F & Hf & Hfr) Hch Hsame].
  destruct done as [|h r]; [done|]. simpl in Hk. set (done := h :: r) in *.
  destruct (last (kept done)) as [x|] eqn:El; [|by apply last_None in El].
  exists x. destruct (proj1 (last_Some _ _) El) as [K EK]. rewrite EK in Hch.
  rewrite <- app_assoc in Hch. simpl in Hch.
  assert (x ∈ done) as Hxd by (apply kept_incl; rewrite EK; set_solver).
  assert (log_chain (virt_addr sbi0) (nvm sbi) (b :: todo ++ tl)) as [Enext Hrest]%log_chain_cons
    by (apply (log_chain_app_r _ _ (K ++ [x])); by rewrite <- app_assoc).
  set (m1 := nova_set_next_page_address _ _ _). set (sbi1 := with_nvm m1 sbi).
  pose proof (cl_nodup Hc) as Hnd. rewrite Hs, <- app_assoc in Hnd.
  change ((b :: todo) ++ tl) with (b :: todo ++ tl) in Hnd.
  assert (forall c, c ∈ b :: todo ++ tl -> 0 < c < num_blocks sbi0 /\ ~ F0 c) as Hbl.
  { intros c Hin. apply (cl_blocks Hc). rewrite Hs, <- app_assoc. set_solver. }
  pose proof (lb_size _ _ (cl_free Hc)) as Hsz. pose proof Hg as [Gv Gc Gb Gp _ _ _ _ _].
  assert (~ F b) as HbF.
  { intros [Hb|Hb]%(fd_new _ _ _ Hfr); [by apply (Hbl b); [left|]|].
    apply NoDup_mid in Hnd as (_ & Hb1 & _). apply list_elem_of_filter in Hb as [_ Hb]. apply Hb1. by right. }
  destruct (release_run slab_garbage sbi1 F pi b 1) as (ret & sbi' & F' & E & Hrl); try lia.
  { by apply lb_free_nvm. }
  { rewrite <- (cl_type Hc). unfold Pi.i_blk_type.
    rewrite <- (walked_field _ _ _ 1 3 Hc Hw) by lia. apply load_ext. intros a Ha.
    apply set_next_same. intros Ht. pose proof (cl_apart Hc x) as Hap.
    rewrite Hs in Hap. unfold tail_word, block_addr in *. destruct Hap; [set_solver|lia|lia]. }
  { destruct (Hbl b); [by left|lia]. }
  { simpl. rewrite Gb. destruct (Hbl b); [by left|lia]. }
  { intros y Hy. by replace y with b by lia. }
  exists ret, sbi'. split; [done|]. split; [done|].
  pose proof Hrl as [Hf' _ _ _ Hg' Hn' Hm']. split.
  - by rewrite Hs, <- app_assoc.
  - eapply same_geometry_trans; [exact Hg|]. destruct Hg'; by split.
  - eauto with nova.
  - exists F'. split; [done|]. simpl. rewrite dead_snoc, Hk. by eapply freed_snoc.
  - rewrite Hm', kept_snoc. change (is_nil done || live b) with (live b).
    rewrite Hk, app_nil_r, EK, <- app_assoc. change ([x] ++ todo ++ tl) with (x :: todo ++ tl).
    change (nvm sbi1) with m1. unfold m1. rewrite Enext. eapply log_chain_relink; [exact Hch|exact Hrest|..].
    + eapply sublist_NoDup; [exact Hnd|].
      replace (K ++ x :: todo ++ tl) with ((K ++ [x]) ++ todo ++ tl) by (by rewrite <- app_assoc).
      rewrite <- EK. apply sublist_app; [apply kept_sublist|by apply sublist_cons].
    + intros c Hin. destruct (Hbl c); [by right|lia].
  - intros a Ha. rewrite Hm'. simpl. unfold m1. rewrite set_next_same by (apply Ha; set_solver).
    apply Hsame. set_solver.
Qed.

(** The world when [done] has been walked. *)
Definition at_page (done : list Z) (sbi : nova_sb_info) : world :=
  World sbi mon0 (with_valid_bytes (u64 (sum_of live_bytes done)) sih0).

Lemma locals_live done b :
  live b = true ->
  locals_of (done ++ [b]) =
    let l := locals_of done in
    GcLocals (if found_head l then possible_head l else 4096 * b) true
      (Some (virt_addr sbi0 + 4096 * b)) (first_need_free l) (freed_pages l) (checked_pages l + 1).
Proof.
  intros Hb. unfold locals_of. rewrite live_snoc, dead_snoc, kept_snoc, Hb, orb_true_r, app_nil_r.
  rewrite last_snoc, length_app. cbn. f_equal; [..|lia].
  - by destruct (filter _ done).
  - by destruct (filter _ done).
  - destruct done; simpl; [|done]. unfold dead. by rewrite Hb.
Qed.

Lemma locals_dead done b :
  live b = false ->
  locals_of (done ++ [b]) =
    let l := locals_of done in
    GcLocals (possible_head l) (found_head l)
      (if is_nil done then Some (virt_addr sbi0 + 4096 * b) else last_page l)
      (is_nil done || first_need_free l) (freed_pages l + 1) (checked_pages l + 1).
Proof.
  intros Hb. unfold locals_of. rewrite live_snoc, dead_snoc, kept_snoc, Hb, orb_false_r, app_nil_r.
  rewrite !length_app. cbn. f_equal; [..|lia|lia].
  - destruct done; simpl; [done|]. by rewrite app_nil_r.
  - destruct done; simpl; [|done]. unfold dead. by rewrite Hb.
Qed.

Lemma locals_bound done todo sbi :
  collectable -> walked done todo sbi ->
  0 <= freed_pages (locals_of done) <= checked_pages (locals_of done) /\
  checked_pages (locals_of done) + Z.of_nat (length todo) < 2147483648.
Proof.
  intros Hc Hw. pose proof (lb_size _ _ (cl_free Hc)).
  assert (length pre <= Z.to_nat (num_blocks sbi0))%nat as Hl.
  { apply nodup_blocks; [apply (NoDup_app pre tl), (cl_nodup Hc)|].
    intros b Hb. apply (cl_blocks Hc). set_solver. }
  rewrite (wk_split _ _ _ Hw), length_app in Hl. simpl.
  pose proof (length_filter (fun b => dead b) done). lia.
Qed.

(** One page: [walked] moves on, and the local variables and the bytes count it. *)
Lemma fast_gc_page_ok done b todo sbi :
  collectable -> walked done (b :: todo) sbi ->
  exists sbi', fast_gc_page slab_garbage pi (4096 * b) (locals_of done) (at_page done sbi) =
      Some (locals_of (done ++ [b]), at_page (done ++ [b]) sbi') /\ walked (done ++ [b]) todo sbi'.
Proof.
  intros Hc Hw. pose proof Hw as [Hs Hg _ _ _ _]. pose proof (locals_bound _ _ _ Hc Hw) as Hbd.
  assert (b ∈ pre) as Hin by (rewrite Hs; set_solver).
  destruct (cl_blocks Hc b) as [Hb _]; [set_solver|]. pose proof (lb_size _ _ (cl_free Hc)) as Hsz.
  pose proof Hg as [Gv _ _ _ _ _ _ _ _].
  assert (nova_get_block (virt_addr sbi) (4096 * b) = virt_addr sbi0 + 4096 * b) as Ea.
  { rewrite Gv. apply page_addr; auto. apply (cl_mapped Hc). }
  assert (u64 (4096 * b) = 4096 * b) as Eu by (apply u64_small; lia).
  destruct (entries_of b) as [es|] eqn:Ee; [|by apply (cl_scan Hc) in Hin].
  pose proof (curr_page_invalid_ok sbi mon0 sih0 (sum_of live_bytes done) b es) as Hpage.
  rewrite Gv, (walked_entries _ _ _ b Hc Hw) in Hpage by (by left). specialize (Hpage Ee).
  unfold fast_gc_page, at_page.
  erewrite fs_step by (unfold get_block; cbn [w_sbi]; rewrite (proj2 (Z.eqb_neq (4096 * b) 0)) by lia;
    rewrite Ea; reflexivity).
  fstep Hpage. frun.
  assert (sum_of live_bytes (done ++ [b]) = sum_of live_bytes done + bytes_of es) as ->.
  { rewrite sum_of_app. cbn. unfold live_bytes at 2. rewrite Ee. lia. }
  assert (live b = negb (is_nil es)) as Hl by (unfold live; by rewrite Ee).
  destruct (is_nil es); cbn [andb negb] in *.
  2:{ exists sbi. rewrite locals_live by done. cbn zeta. rewrite (u64_small (_ + 1)) by lia.
      split; [done|]. apply walked_keep; [done|]. by rewrite Hl, orb_true_r. }
  rewrite locals_dead by done. cbn zeta. cbn [length] in Hbd.
  rewrite (i32_small (freed_pages (locals_of done) + 1)),
    (u64_small (checked_pages (locals_of done) + 1)) by lia.
  unfold Pi.log_head. rewrite (walked_field _ _ _ 8 72 Hc Hw) by lia.
  change (load 8 (nvm sbi0) (pi + 72)) with (Pi.log_head (nvm sbi0) pi). rewrite (cl_head Hc), Hs.
  destruct done as [|h r] eqn:Ed; cbn [is_nil orb app chain_head head].
  { rewrite Z.eqb_refl. exists sbi. split; [done|]. by apply (walked_keep [] b). }
  rewrite (proj2 (Z.eqb_neq (4096 * b) (4096 * h))).
  2:{ intros ?. assert (b = h) as -> by lia. pose proof (cl_nodup Hc) as Hnd. rewrite Hs in Hnd.
      apply NoDup_cons in Hnd as [Hn _]. set_solver. }
  destruct (walked_drop _ _ _ _ Hc Hw) as (x & ret & sbi' & El & Ef & Hw'); [by rewrite Hl|].
  exists sbi'. split; [|done]. unfold free_curr_page.
  assert (last_page (locals_of (h :: r)) = Some (virt_addr sbi0 + 4096 * x)) as ->
    by (unfold locals_of; cbn [last_page]; by rewrite El).
  erewrite fs_step; [reflexivity|]. cbn [fs_deref]. frun.
  replace (nova_get_blocknr (4096 * b)) with b
    by (rewrite <- (nova_get_block_off_alt b) by lia; symmetry; apply nova_get_blocknr_off; lia).
  erewrite fs_step by (unfold on_sbi; cbn [w_sbi]; rewrite Ef; reflexivity). reflexivity.
Qed.

(** The local variables behind the loop: without a live page the head is the page of the
    tail. *)
Definition locals_end : gc_locals :=
  let l := locals_of pre in
  GcLocals (chain_head (filter (fun b => live b) pre ++ tl)) (found_head l) (last_page l)
    (first_need_free l) (freed_pages l) (checked_pages l).

Lemma shiftr_page b : Z.shiftr (4096 * b) PAGE_SHIFT = b.
Proof. unfold PAGE_SHIFT. rewrite Z.shiftr_div_pow2 by lia. change (2 ^ 12) with 4096. mlia. Qed.

Lemma chain_head_pos rest :
  collectable -> (forall b, b ∈ rest -> b ∈ pre ++ tl) -> rest <> [] ->
  exists b, head rest = Some b /\ chain_head rest = 4096 * b /\ 0 < b < num_blocks sbi0.
Proof.
  intros Hc Hin Hne. destruct rest as [|b rest]; [done|]. exists b. split; [done|].
  split; [done|]. apply (cl_blocks Hc), Hin. by left.
Qed.

Lemma fast_gc_loop_ok todo : forall fuel done sbi,
  collectable -> walked done todo sbi -> (length todo <= fuel)%nat ->
  exists sbi', fast_gc_loop slab_garbage fuel pi (chain_head (todo ++ tl)) (locals_of done)
                 (at_page done sbi) = Some (locals_end, at_page pre sbi') /\ walked pre [] sbi'.
Proof.
  induction todo as [|b todo IH]; intros fuel done sbi Hc Hw Hf.
  - pose proof (wk_split _ _ _ Hw) as Hs. rewrite app_nil_r in Hs. subst done. exists sbi.
    split; [|done]. pose proof (cl_tail Hc) as Ht.
    assert (Pi.log_tail (nvm sbi) pi = Pi.log_tail (nvm sbi0) pi) as El
      by (apply (walked_field _ _ _ 8 80 Hc Hw); lia).
    assert (chain_head tl = 4096 * (Pi.log_tail (nvm sbi0) pi / 4096)) as Eh
      by (unfold chain_head; by rewrite Ht).
    assert (locals_end = if found_head (locals_of pre) then locals_of pre else
              GcLocals (chain_head tl) false (last_page (locals_of pre))
                (first_need_free (locals_of pre)) (freed_pages (locals_of pre))
                (checked_pages (locals_of pre))) as ->
      by (unfold locals_end, locals_of; cbn; by destruct (filter _ pre)).
    destruct fuel; cbn [fast_gc_loop app]; frun; cbn [w_sbi at_page]; rewrite Eh, El, shiftr_page;
      unfold PAGE_SHIFT; rewrite Z.shiftr_div_pow2, Z.eqb_refl by lia; done.
  - destruct fuel as [|fuel]; [simpl in Hf; lia|]. simpl in Hf.
    pose proof Hw as [Hs Hg _ _ Hch _]. pose proof Hg as [Gv _ _ _ _ _ _ _ _].
    assert (forall c, c ∈ todo ++ tl -> c ∈ pre ++ tl) as Hincl by (rewrite Hs; set_solver).
    destruct (cl_blocks Hc b) as [Hb _]; [rewrite Hs; set_solver|].
    pose proof (lb_size _ _ (cl_free Hc)) as Hsz. pose proof (cl_tail Hc) as Ht.
    destruct (chain_head_pos (todo ++ tl) Hc Hincl) as (c & _ & Ec & Hcb).
    { intros [_ E0]%app_eq_nil. by rewrite E0 in Ht. }
    cbn [fast_gc_loop app]. change (chain_head (b :: todo ++ tl)) with (4096 * b). frun.
    cbn [w_sbi at_page]. unfold Pi.log_tail. rewrite (walked_field _ _ _ 8 80 Hc Hw) by lia.
    rewrite shiftr_page. unfold PAGE_SHIFT. rewrite Z.shiftr_div_pow2 by lia.
    rewrite (proj2 (Z.eqb_neq _ _)).
    2:{ intros Eb. pose proof (cl_nodup Hc) as Hnd. rewrite Hs in Hnd.
        apply NoDup_app in Hnd as (_ & Hdis & _). apply (Hdis b); [set_solver|].
        apply head_Some_elem_of. by rewrite Ht, Eb. }
    erewrite fs_step by (unfold get_block; cbn [w_sbi at_page];
      rewrite (proj2 (Z.eqb_neq (4096 * b) 0)) by lia; rewrite Gv, page_addr by (auto; apply (cl_mapped Hc));
      reflexivity).
    destruct (fast_gc_page_ok done b todo sbi Hc Hw) as (sbi1 & E1 & Hw1). fstep E1.
    change (block_addr sbi0 b) with (virt_addr sbi0 + 4096 * b).
    assert (page_next (nvm sbi) (virt_addr sbi0 + 4096 * b) = chain_head (todo ++ tl)) as ->
      by (by destruct (log_chain_cons _ _ _ _ (log_chain_app_r _ _ _ _ Hch))).
    rewrite (proj2 (Z.eqb_neq (chain_head _) 0)) by lia.
    apply IH; auto. lia.
Qed.

(** ** Behind the loop *)

Context (smp : Z) (jiffies_to_msecs : Z -> Z) (e : env) (garbage : Z).

(** The pages [ns] are ready to be linked behind the log. *)
Record new_pages (ns : list Z) : Prop := {
  np_blocks b : b ∈ ns -> 0 < b < num_blocks sbi0 /\ ~ F0 b;
  np_apart b : b ∈ ns -> pi + 128 <= block_addr sbi0 b \/ block_addr sbi0 (b + 1) <= pi;
  np_nodup : NoDup (pre ++ tl ++ ns);
  np_chain : log_chain (virt_addr sbi0) (nvm sbi0) ns;
}.

(** The state in which the collection ends: the chain, the inode, the free blocks; no other
    byte has changed. *)
Record collected (ns : list Z) (sbi : nova_sb_info) : Prop := {
  cd_chain : log_chain (virt_addr sbi0) (nvm sbi) (filter (fun b => live b) pre ++ tl ++ ns);
  cd_head : Pi.log_head (nvm sbi) pi = chain_head (filter (fun b => live b) pre ++ tl ++ ns);
  cd_blocks : Pi.i_blocks (nvm sbi) pi =
    Pi.i_blocks (nvm sbi0) pi ⊞
      (Z.of_nat (length ns) - Z.of_nat (length (filter (fun b => dead b) pre)));
  cd_free : exists F, lb_free sbi F /\ freed F0 (filter (fun b => dead b) pre) F;
  cd_same a : (forall b, b ∈ pre ++ tl -> ~ tail_word (virt_addr sbi0) b a) ->
    ~ pi + 32 <= a < pi + 40 -> ~ pi + 72 <= a < pi + 80 -> nvm sbi a = nvm sbi0 a;
  cd_geometry : same_geometry sbi0 sbi;
  cd_nodes : nodes_frame sbi0 sbi;
}.

(** The new pages are linked behind the last page of the log. *)
Lemma walked_link ns sbi y :
  collectable -> new_pages ns -> walked pre [] sbi -> last tl = Some y ->
  let m := nova_set_next_page_address (nvm sbi) (virt_addr sbi0 + 4096 * y) (chain_head ns) in
  log_chain (virt_addr sbi0) m (kept pre ++ tl ++ ns) /\
  (forall a, (forall b, b ∈ pre ++ tl -> ~ tail_word (virt_addr sbi0) b a) -> m a = nvm sbi0 a).
Proof.
  intros Hc Hn Hw Hy. pose proof Hw as [_ _ _ _ Hch Hsame]. simpl in Hch.
  destruct (proj1 (last_Some _ _) Hy) as [K EK]. pose proof (lb_size _ _ (cl_free Hc)) as Hsz.
  assert (NoDup (kept pre ++ tl ++ ns)) as Hnd.
  { eapply sublist_NoDup; [apply (np_nodup _ Hn)|]. apply sublist_app; [apply kept_sublist|done]. }
  split.
  - rewrite EK in Hch, Hnd |- *. rewrite <- app_assoc in Hnd |- *. rewrite app_assoc in Hch, Hnd |- *.
    simpl in *. eapply log_chain_relink; [exact Hch| |done|].
    + eapply log_chain_frame; [apply (np_chain _ Hn)|]. intros b a Hb Ha. apply Hsame.
      intros c Hcp Hca. rewrite (tail_word_inj _ _ _ _ Hca Ha) in Hcp.
      pose proof (np_nodup _ Hn) as (_ & Hdis & _)%NoDup_app. apply (Hdis b Hcp). set_solver.
    + intros b Hb. pose proof (proj1 (np_blocks _ Hn b Hb)). lia.
  - intros a Ha. rewrite set_next_same.
    + apply Hsame. intros b Hb. apply Ha. set_solver.
    + apply Ha, elem_of_app. right. by apply last_Some_elem_of.
Qed.

(** The head and the number of blocks are set in the inode. *)
Definition inode_update (m : memory) (new_head grown : Z) : memory :=
  let m := Pi.set_log_head m pi new_head in
  Pi.set_i_blocks m pi (Pi.i_blocks m pi ⊞ grown).

Lemma inode_update_ok m new_head grown :
  0 <= new_head < 18446744073709551616 ->
  let m' := inode_update m new_head grown in
  Pi.log_head m' pi = new_head /\ Pi.i_blocks m' pi = Pi.i_blocks m pi ⊞ grown /\
  (forall a, ~ pi + 32 <= a < pi + 40 -> ~ pi + 72 <= a < pi + 80 -> m' a = m a).
Proof.
  intros Hh. unfold inode_update, Pi.log_head, Pi.i_blocks, Pi.set_log_head, Pi.set_i_blocks.
  rewrite (load_store_ne 8 8 _ (pi + 32) (pi + 72)) by lia.
  rewrite (load_store_ne 8 8 _ (pi + 72) (pi + 32)) by lia.
  split_and!; [by apply load8_store8|apply load8_store8, u64_range|].
  intros a H1 H2. rewrite !store_disjoint by lia. done.
Qed.

Lemma freed_proper F ds ds' F' : (forall b, b ∈ ds <-> b ∈ ds') -> freed F ds F' -> freed F ds' F'.
Proof. intros Hd [O N A]. split; [done| |]; setoid_rewrite <- Hd; auto. Qed.

(** The memory when the new pages are linked and the inode is updated. *)
Record relinked (ns : list Z) (m : memory) : Prop := {
  rk_chain : log_chain (virt_addr sbi0) m (kept pre ++ tl ++ ns);
  rk_head : Pi.log_head m pi = chain_head (filter (fun b => live b) pre ++ tl ++ ns);
  rk_blocks : Pi.i_blocks m pi = Pi.i_blocks (nvm sbi0) pi ⊞
    (Z.of_nat (length ns) - Z.of_nat (length (filter (fun b => dead b) pre)));
  rk_type : Pi.i_blk_type m pi = 0;
  rk_same a : (forall b, b ∈ pre ++ tl -> ~ tail_word (virt_addr sbi0) b a) ->
    ~ pi + 32 <= a < pi + 40 -> ~ pi + 72 <= a < pi + 80 -> m a = nvm sbi0 a;
}.

Lemma walked_relink ns sbi y :
  collectable -> new_pages ns -> walked pre [] sbi -> last tl = Some y ->
  relinked ns (inode_update
    (nova_set_next_page_address (nvm sbi) (virt_addr sbi0 + 4096 * y) (chain_head ns))
    (chain_head (filter (fun b => live b) pre ++ tl))
    (Z.of_nat (length ns) - Z.of_nat (length (filter (fun b => dead b) pre)))).
Proof.
  intros Hc Hn Hw Hy. destruct (walked_link ns sbi y Hc Hn Hw Hy) as [Hch Hm].
  set (m := nova_set_next_page_address _ _ _) in *. pose proof (lb_size _ _ (cl_free Hc)) as Hsz.
  set (lives := filter (fun b => live b) pre).
  assert (lives ++ tl <> []) as Hne by (intros [_ E0]%app_eq_nil; by rewrite E0 in Hy).
  destruct (chain_head_pos (lives ++ tl) Hc) as (c & _ & Ec & Hcb).
  { intros b. unfold lives. rewrite !elem_of_app, list_elem_of_filter. tauto. }
  { exact Hne. }
  destruct (inode_update_ok m (chain_head (lives ++ tl)) (Z.of_nat (length ns) -
    Z.of_nat (length (filter (fun b => dead b) pre)))) as (U1 & U2 & U3); [lia|].
  assert (forall b a, b ∈ pre ++ tl ++ ns -> tail_word (virt_addr sbi0) b a -> ~ pi <= a < pi + 128) as Hap.
  { intros b a Hb Ha. assert (pi + 128 <= block_addr sbi0 b \/ block_addr sbi0 (b + 1) <= pi).
    - rewrite app_assoc in Hb. apply elem_of_app in Hb as [Hb|Hb];
        [by apply (cl_apart Hc)|by apply (np_apart _ Hn)].
    - unfold tail_word, block_addr in *. lia. }
  assert (forall n o, 0 <= o -> o + Z.of_nat n <= 128 -> load n m (pi + o) = load n (nvm sbi0) (pi + o)) as Hpi.
  { intros n o H0 H1. apply load_ext. intros a Ha. apply Hm. intros b Hb Hw1.
    apply (Hap b a); [set_solver|done|lia]. }
  split.
  - eapply log_chain_frame; [exact Hch|]. intros b a Hb Ha.
    apply Hap in Ha; [apply U3; lia|]. apply elem_of_app in Hb as [?%kept_incl|?]; set_solver.
  - rewrite U1, app_assoc. symmetry. by apply chain_head_app.
  - rewrite U2. unfold Pi.i_blocks. by rewrite Hpi by lia.
  - rewrite <- (cl_type Hc). unfold Pi.i_blk_type. rewrite <- Hpi by lia.
    apply load_ext. intros a Ha. apply U3; lia.
  - intros a H1 H2 H3. rewrite U3 by done. by apply Hm.
Qed.

(** The first page is given back when it was dead; then the collection is complete. *)
Lemma free_first ns sbi m :
  collectable -> walked pre [] sbi -> relinked ns m ->
  exists ret sbi', (if first_need_free locals_end then
      nova_free_log_blocks slab_garbage (with_nvm m sbi) pi (nova_get_blocknr (chain_head (pre ++ tl))) 1
    else Some (0, with_nvm m sbi)) = Some (ret, sbi') /\ collected ns sbi'.
Proof.
  intros Hc Hw [Hch Hhead Hbl Hty Hsame]. pose proof Hw as [_ Hg Hn (F & Hf & Hfr) _ _].
  pose proof Hg as [Gv Gc Gb Gp _ _ _ _ _].
  assert (lb_free (with_nvm m sbi) F) as Hf1 by (by apply lb_free_nvm).
  assert (same_geometry sbi0 (with_nvm m sbi)) as Hg1 by (by apply same_geometry_nvm).
  unfold locals_end, locals_of. cbn [first_need_free].
  assert ((exists h r, pre = h :: r /\ dead h = true) \/
          (match pre with h :: _ => dead h | [] => false end = false /\
           kept pre = filter (fun b => live b) pre /\
           filter (fun b => dead b) (tail pre) = filter (fun b => dead b) pre))
    as [(h & r & Ep & Ed)|(-> & Ek & Et)].
  { destruct pre as [|h r]; [by right|]. destruct (dead h) eqn:Ed; [left; by exists h, r|right].
    split; [done|]. simpl. rewrite !filter_cons, Ed. unfold dead in Ed.
    apply negb_false_iff in Ed. by rewrite Ed. }
  2:{ exists 0, (with_nvm m sbi). split; [done|]. rewrite Ek in Hch. split; auto.
      exists F. by rewrite <- Et. }
  rewrite Ep in Hfr, Hch. simpl in Hfr, Hch. rewrite Ep, Ed.
  assert (h ∈ pre ++ tl) as Hin by (rewrite Ep; set_solver).
  destruct (cl_blocks Hc h Hin) as [Hhb HhF]. pose proof (lb_size _ _ (cl_free Hc)) as Hsz.
  change (chain_head ((h :: r) ++ tl)) with (4096 * h). unfold nova_get_blocknr. rewrite shiftr_page.
  destruct (release_run slab_garbage (with_nvm m sbi) F pi h 1) as (ret & sbi' & F' & E & Hrl);
    try done; try lia.
  { simpl. lia. }
  { intros x Hx. replace x with h by lia. split; [done|]. intros [?|Hd]%(fd_new _ _ _ Hfr); [done|].
    pose proof (cl_nodup Hc) as Hnd. rewrite Ep in Hnd. apply NoDup_cons in Hnd as [Hnd _].
    apply list_elem_of_filter in Hd as [_ ?]. set_solver. }
  exists ret, sbi'. split; [done|]. pose proof Hrl as [Hf' _ _ _ Hg' Hn' Hm']. simpl in Hm'.
  assert (filter (fun b => live b) pre = filter (fun b => live b) r) as El.
  { rewrite Ep, filter_cons. unfold dead in Ed. apply negb_true_iff in Ed. by rewrite Ed. }
  split; rewrite ?Hm'; auto; [..|by eapply same_geometry_trans|eauto with nova].
  - rewrite El. by apply log_chain_cons in Hch as [_ ?].
  - exists F'. split; [done|]. rewrite Ep, filter_cons, Ed. 
    apply (freed_proper _ (filter (fun b => dead b) r ++ [h])); [|by eapply freed_snoc].
    simpl. set_solver.
Qed.

Definition pages_grown (ns : list Z) : Z :=
  Z.of_nat (length ns) - Z.of_nat (length (filter (fun b => dead b) pre)).

(** The header behind the collection. *)
Definition sih_end (ns : list Z) : nova_inode_info_header :=
  with_log_pages (log_pages sih0 ⊞ pages_grown ns)
    (with_valid_bytes (u64 (sum_of live_bytes pre)) sih0).

Lemma tail_page p : 0 <= p -> BLOCK_OFF p = 4096 * (p / 4096).
Proof. intros. rewrite BLOCK_OFF_alt. mlia. Qed.

Lemma fast_gc_finish_ok P ns curr_tail sbi :
  collectable -> new_pages ns -> homed sbi0 P pi -> walked pre [] sbi -> 0 <= curr_tail ->
  last tl = Some (curr_tail / 4096) ->
  exists sbi', fast_gc_finish slab_garbage smp pi curr_tail (chain_head ns) (Z.of_nat (length ns))
      locals_end (at_page pre sbi) = Some (pi, World sbi' mon0 (sih_end ns)) /\ collected ns sbi'.
Proof.
  intros Hc Hn Hh Hw Hct Hy. pose proof (lb_size _ _ (cl_free Hc)) as Hsz.
  pose proof (wk_geometry _ _ _ Hw) as Hg. pose proof Hg as [Gv _ Gb _ _ _ _ _ _].
  set (y := curr_tail / 4096) in *. assert (y ∈ pre ++ tl) as Hin.
  { apply elem_of_app. right. by apply last_Some_elem_of. }
  destruct (cl_blocks Hc y Hin) as [Hyb _]. destruct (cl_mapped Hc) as [Hv Hmm].
  destruct (walked_link ns sbi y Hc Hn Hw Hy) as [_ Hm].
  pose proof (walked_relink ns sbi y Hc Hn Hw Hy) as Hrk.
  destruct (free_first ns sbi _ Hc Hw Hrk) as (ret & sbi' & E & Hcd).
  exists sbi'. split; [|done]. clear Hrk Hcd. unfold fast_gc_finish. rewrite tail_page by done. fold y.
  erewrite fs_step by (unfold get_block; cbn [w_sbi at_page];
    rewrite (proj2 (Z.eqb_neq (4096 * y) 0)) by lia; rewrite Gv, page_addr by (auto; by split);
    reflexivity).
  frun. cbn [w_sbi w_mon w_sih at_page]. change (block_addr sbi0 y) with (virt_addr sbi0 + 4096 * y).
  set (m := nova_set_next_page_address _ _ _) in *.
  assert (forall n o, 0 <= o -> o + Z.of_nat n <= 128 -> load n m (pi + o) = load n (nvm sbi0) (pi + o)) as Hpi.
  { intros n o H0 H1. apply load_ext. intros a Ha. apply Hm. intros b Hb Hwd.
    pose proof (cl_apart Hc b Hb). unfold tail_word, block_addr in *. lia. }
  assert (homed (with_nvm m sbi) P pi) as Hh1.
  { eapply homed_frame; [exact Hh|by split|lia|by apply same_geometry_nvm| |apply Hpi; lia].
    intros a Ha. apply Hm. intros b Hb Hwd. pose proof (proj1 (cl_blocks Hc b Hb)).
    unfold tail_word, block_addr in *. lia. }
  erewrite fs_step by (apply (reget_inode_ok smp P); [exact Hh1|cbn; lia]).
  frun. change (nvm (with_nvm m sbi)) with m.
  assert (Pi.log_head m pi = chain_head (pre ++ tl)) as Ehead
    by (rewrite <- (cl_head Hc); apply Hpi; lia).
  rewrite Ehead. destruct (first_need_free locals_end).
  - erewrite fs_step by (apply on_sbi_run; exact E). done.
  - injection E as _ <-. done.
Qed.

(** The number of pages the live entries need. *)
Definition live_blocks : Z := (u64 (sum_of live_bytes pre) + (LAST_ENTRY - 1)) / LAST_ENTRY.

Lemma live_blocks_code (v := u64 (sum_of live_bytes pre)) :
  (if negb (v mod LAST_ENTRY =? 0) then v / LAST_ENTRY ⊞ 1 else v / LAST_ENTRY) = live_blocks.
Proof.
  unfold live_blocks. fold v. pose proof (u64_range (sum_of live_bytes pre)) as Hv. fold v in Hv.
  unfold LAST_ENTRY. destruct (Z.eqb_spec (v mod 4064) 0); cbn [negb]; [mlia|].
  rewrite u64_small; mlia.
Qed.

Lemma live_count l :
  Z.of_nat (length l) - Z.of_nat (length (filter (fun b => dead b) l)) =
  Z.of_nat (length (filter (fun b => live b) l)).
Proof.
  induction l as [|b l IH]; [done|]. rewrite !filter_cons. unfold dead in *.
  destruct (live b); simpl; lia.
Qed.

(** C27: The fast collection of a log leaves, in their order, exactly the pages that have a
    live entry, the pages from the tail on and the new pages: they form the chain from the
    new [log_head].  All other pages, the first one included, become free, the counters of
    the inode and its header change by the pages added minus those released, and nothing
    else in memory changes, so every live entry keeps its place and its bytes. *)
Theorem fast_gc_ok P ws ns curr_tail :
  collectable -> new_pages ns -> homed sbi0 P pi -> 0 <= curr_tail ->
  last tl = Some (curr_tail / 4096) ->
  monitor_ok ws mon0 -> 0 <= current_pid e -> Z.of_nat (length ws) < 2147483647 ->
  need_thorough_gc live_blocks (Z.of_nat (length (filter (fun b => live b) pre))) = false ->
  exists sbi' mon',
    nova_inode_log_fast_gc slab_garbage smp jiffies_to_msecs e garbage pi curr_tail
      (chain_head ns) (Z.of_nat (length ns)) (World sbi0 mon0 sih0) =
      Some (tt, World sbi' mon' (sih_end ns)) /\ collected ns sbi'.
Proof.
  intros Hc Hn Hh Hct Hy Hmon Hpid Hws Hneed. unfold nova_inode_log_fast_gc. frun.
  pose proof (walked_start Hc) as Hw0. rewrite (cl_head Hc).
  destruct (fast_gc_loop_ok pre (Z.to_nat (num_blocks sbi0)) [] sbi0 Hc Hw0) as (sbi1 & E1 & Hw1).
  { apply nodup_blocks; [apply (NoDup_app pre tl), (cl_nodup Hc)|].
    intros b Hb. apply (cl_blocks Hc). set_solver. }
  pose proof (locals_bound _ _ _ Hc Hw1) as Hbd. fstep E1.
  destruct (fast_gc_finish_ok P ns curr_tail sbi1 Hc Hn Hh Hw1 Hct Hy) as (sbi2 & E2 & Hcd). fstep E2.
  frun. change (valid_bytes (sih_end ns)) with (u64 (sum_of live_bytes pre)). rewrite live_blocks_code.
  change (checked_pages locals_end ⊟ freed_pages locals_end) with
    (Z.of_nat (length pre) ⊟ Z.of_nat (length (filter (fun b => dead b) pre))).
  rewrite live_count, u64_small, Hneed by (pose proof (live_count pre); simpl in Hbd; lia). frun.
  destruct (count_any_block jiffies_to_msecs ws mon0 e
    (get_block_number_by_virt (virt_addr sbi2) pi)) as (ws' & mon' & E3 & _); try done.
  { unfold get_block_number_by_virt. repeat case_cmp; try lia; apply Z.shiftr_nonneg, u64_range. }
  exists sbi2, mon'. split; [|done]. unfold count_inode. frun. by apply on_mon_run.
Qed.
End collect.

(** ** Examples *)

Module GcDemo.
Import RbList.RbList InodeTable.TableDemo Detect.DetectDemo.

(** Inode 40, in the first page of the table of CPU 0, with five pages. *)
Definition gc_pi : Z := 65536 + 4096 * 3 + 20 * 128.
Definition gc_alloc : nova_sb_info := run_state (nova_allocate_inode_log_pages 0 fs3 gc_pi 5 0 0) raw.

Lemma gc_alloc_ret :
  fst <$> nova_allocate_inode_log_pages 0 fs3 gc_pi 5 0 0 = Some (5, 4096 * 5) /\
  let next b := page_next (nvm gc_alloc) (65536 + 4096 * b) in
  next 5 = 4096 * 6 /\ next 6 = 4096 * 7 /\ next 7 = 4096 * 8 /\ next 8 = 4096 * 9.
Proof. vm_compute. split_and!; reflexivity. Qed.

(** Four of them are the log.  Pages 5 and 7 hold a write entry that is invalid, page 6 one
    that is not, each followed by the mark of the next page; the tail is in page 8. *)
Definition page_with (b invalid : Z) (m : memory) : memory :=
  let p := 65536 + 4096 * b in
  store 1 (store 4 (store 4 (store 1 m p FILE_WRITE) (p + 16) 2) (p + 20) invalid) (p + 40) NEXT_PAGE.

Definition gc_memory (m : memory) : memory :=
  let m := nova_set_next_page_address m (65536 + 4096 * 8) 0 in
  let m := page_with 5 2 (page_with 6 1 (page_with 7 2 m)) in
  let m := Pi.set_nova_ino m gc_pi 40 in
  Pi.set_log_tail (Pi.set_log_head m gc_pi (4096 * 5)) gc_pi (4096 * 8 + 40).

Definition gc_sbi : nova_sb_info := with_nvm (gc_memory (nvm gc_alloc)) gc_alloc.
Definition gc_sih : nova_inode_info_header := InodeHeader ∅ ∅ 0 4 0 40 0 0 0 0 0 0 0.

Lemma gc_live :
  entries_of gc_sbi gc_sih 5 = Some [] /\ entries_of gc_sbi gc_sih 6 = Some [(4096 * 6, 40)] /\
  entries_of gc_sbi gc_sih 7 = Some [].
Proof. vm_compute. split_and!; reflexivity. Qed.

Lemma gc_next (next := fun b => page_next (nvm gc_sbi) (65536 + 4096 * b)) :
  next 5 = 4096 * 6 /\ next 6 = 4096 * 7 /\ next 7 = 4096 * 8 /\ next 8 = 0 /\ next 9 = 0.
Proof. vm_compute. split_and!; reflexivity. Qed.

Lemma gc_fields : Pi.nova_ino (nvm gc_sbi) gc_pi = 40 /\ Pi.log_head (nvm gc_sbi) gc_pi = 4096 * 5 /\
  Pi.log_tail (nvm gc_sbi) gc_pi = 4096 * 8 + 40 /\ Pi.i_blk_type (nvm gc_sbi) gc_pi = 0.
Proof. vm_compute. done. Qed.

(** Pages 5 to 9 are taken from the free blocks of [fs3]. *)
Lemma gc_tables : exists F P, create_inv 0 fs3 F P R /\ unlocked fs3 /\ P 0 = [3] /\ P 1 = [4] /\
  fresh_chain fs3 F [5; 6; 7; 8; 9] gc_alloc.
Proof.
  destruct fs3_ok as (F & P & Hci & Hu & P0 & P1). exists F, P. split_and!; auto.
  destruct Hci as [[Hf Ht Hm Ha Hs] _ _ _]. destruct fs_geometry as (_ & _ & _ & G4 & G5 & _).
  assert (virt_addr fs3 = 65536) as Gv by (vm_compute; reflexivity).
  assert (log_env 0 fs3 F gc_pi) as Henv.
  { split; auto. intros b Hb Hin. unfold block_addr, gc_pi in Hin.
    rewrite Gv in Hin. assert (b = 3) as -> by lia. refine (Ha 0 3 _ _ Hb); [rewrite G4; lia|rewrite P0; by left]. }
  destruct (allocate_log_pages_ok 0 fs3 F gc_pi 5 0 0 Henv ltac:(lia))
    as (ret & nb & bs & sbi' & E & Hfc & Hout).
  assert (sbi' = gc_alloc) as -> by (unfold gc_alloc; by rewrite E).
  destruct gc_alloc_ret as (Er & N1 & N2 & N3 & N4). rewrite E in Er. simpl in Er. injection Er as -> ->.
  destruct Hout as [(Hr & _ & _ & Hh)|(Hr & _)]; [|discriminate Hr].
  pose proof (fc_chain _ _ _ _ Hfc) as Hc. rewrite Gv in Hc.
  destruct bs as [|b1 [|b2 [|b3 [|b4 [|b5 [|b6 bs]]]]]]; try (simpl in Hr; lia).
  simpl in Hh. assert (b1 = 5) as -> by (injection Hh; lia).
  pose proof (Hc 0%nat _ eq_refl) as C1. rewrite N1 in C1. assert (b2 = 6) as -> by (cbn in C1; lia).
  pose proof (Hc 1%nat _ eq_refl) as C2. rewrite N2 in C2. assert (b3 = 7) as -> by (cbn in C2; lia).
  pose proof (Hc 2%nat _ eq_refl) as C3. rewrite N3 in C3. assert (b4 = 8) as -> by (cbn in C3; lia).
  pose proof (Hc 3%nat _ eq_refl) as C4. rewrite N4 in C4. assert (b5 = 9) as -> by (cbn in C4; lia).
  done.
Qed.

Lemma gc_fresh : exists F P, create_inv 0 fs3 F P R /\ unlocked fs3 /\ P 0 = [3] /\
  fresh_chain fs3 F [5; 6; 7; 8; 9] gc_alloc.
Proof. destruct gc_tables as (F & P & H1 & H2 & H3 & _ & H4). by exists F, P. Qed.

Lemma gc_memory_same m a : a < 65536 + 4096 -> gc_memory m a = m a.
Proof.
  intros Ha. unfold gc_memory, page_with, Pi.set_nova_ino, Pi.set_log_tail, Pi.set_log_head,
    nova_set_next_page_address, LAST_ENTRY, gc_pi. cbv zeta. by rewrite !store_disjoint by lia.
Qed.

Lemma gc_homed P : tables_ok fs3 P -> unlocked fs3 -> mapped fs3 -> P 0 = [3] ->
  same_geometry fs3 gc_alloc ->
  (forall a, a < 65536 + 4096 -> nvm gc_alloc a = nvm fs3 a) -> homed gc_sbi P gc_pi.
Proof.
  intros Ht Hu Hm P0 Hg Hsame. destruct gc_fields as (Ei & _). destruct fs_geometry as (_ & _ & _ & G4 & G5 & _).
  assert (virt_addr fs3 = 65536) as Gv by (vm_compute; reflexivity).
  pose proof (same_geometry_nvm _ _ (gc_memory (nvm gc_alloc)) Hg : same_geometry fs3 gc_sbi) as Hg1.
  pose proof Hg1 as [Hv Hcp _ _ _ [_ El] _ _ _].
  split; rewrite ?Ei, ?Hcp, ?Hv, ?G4, ?Gv.
  - eapply tables_ok_frame; [exact Ht|done|done| |lia]. intros a Ha. unfold block_addr in Ha.
    rewrite Gv in Ha. change (nvm gc_sbi) with (gc_memory (nvm gc_alloc)).
    rewrite gc_memory_same by lia. apply Hsame. lia.
  - intros c Hc. rewrite El. apply Hu. by rewrite <- Hcp.
  - unfold nova_get_specific_inode_page_lock. rewrite Hcp, G4. reflexivity.
  - split; [lia|]. exists (4096 * 3 + 20 * 128). split; [|reflexivity].
    unfold inode_slot. change (40 mod 2) with 0. rewrite P0. reflexivity.
Qed.

Lemma gc_pages b : b ∈ [5; 6; 7] ++ [8] \/ b ∈ [9] -> b ∈ [5; 6; 7; 8; 9].
Proof. set_solver. Qed.

Lemma gc_distinct : NoDup [5; 6; 7; 8; 9].
Proof. repeat constructor; set_solver. Qed.

Lemma gc_collectable F :
  lb_free gc_sbi F -> mapped fs3 -> same_geometry fs3 gc_sbi ->
  (forall b, b ∈ [5; 6; 7; 8; 9] -> 0 < b < num_blocks fs3 /\ ~ F b) ->
  collectable gc_sbi F gc_sih gc_pi [5; 6; 7] [8] /\ new_pages gc_sbi F gc_pi [5; 6; 7] [8] [9].
Proof.
  intros Hf Hm Hg Hb. pose proof Hg as [Gv _ Gb _ _ _ _ _ _]. rewrite <- Gb in Hb.
  destruct gc_fields as (_ & F2 & F3 & F4). pose proof gc_next as (N1 & N2 & N3 & N4 & N5).
  assert (virt_addr gc_sbi = 65536) as Ev by (rewrite Gv; vm_compute; reflexivity).
  assert (forall b, b ∈ [5; 6; 7; 8; 9] ->
    gc_pi + 128 <= block_addr gc_sbi b \/ block_addr gc_sbi (b + 1) <= gc_pi) as Hap.
  { intros b Hin. unfold block_addr, gc_pi. rewrite Ev. set_unfold in Hin. lia. }
  split; split; rewrite ?Ev.
  - exact Hf.
  - destruct Hm as [H1 H2]. split; rewrite ?Gv, ?Gb; [exact H1|exact H2].
  - exact F4.
  - intros b Hin. apply Hb, gc_pages. by left.
  - intros b Hin. apply Hap, gc_pages. by left.
  - apply (NoDup_app [5; 6; 7; 8] [9]), gc_distinct.
  - repeat (apply log_chain_cons_iff; split; [assumption|]). intros i c Hi. discriminate Hi.
  - exact F2.
  - rewrite F3. reflexivity.
  - intros b Hin. pose proof gc_live as (L1 & L2 & L3).
    rewrite !elem_of_cons in Hin. destruct Hin as [->|[->|[->|Hin]]];
      [rewrite L1|rewrite L2|rewrite L3|exfalso; exact (not_elem_of_nil _ Hin)];
      intros Hx; discriminate Hx.
  - intros b Hin. apply Hb, gc_pages. by right.
  - intros b Hin. apply Hap, gc_pages. by right.
  - exact gc_distinct.
  - apply log_chain_cons_iff. split; [exact N5|]. intros i c Hi. discriminate Hi.
Qed.

Lemma gc_demo : exists F P, homed gc_sbi P gc_pi /\
  collectable gc_sbi F gc_sih gc_pi [5; 6; 7] [8] /\ new_pages gc_sbi F gc_pi [5; 6; 7] [8] [9] /\
  ~ F 3 /\ P 0 = [3].
Proof.
  destruct gc_fresh as (F & P & [[Hf Ht Hm Ha Hs] _ _ _] & Hu & P0 & [_ Hfr Hfree _ Hsame Hg _]).
  assert (virt_addr fs3 = 65536) as Gv by (vm_compute; reflexivity).
  assert (~ F 3) as H3.
  { destruct fs_geometry as (_ & _ & _ & G4 & _). intros Hf3. refine (Ha 0 3 _ _ Hf3); [rewrite G4; lia|rewrite P0; by left]. }
  exists (fun b => F b /\ b ∉ [5; 6; 7; 8; 9]), P. split.
  - apply gc_homed; auto. intros a Ha'. apply Hsame. intros b Hb. unfold tail_word.
    rewrite Gv. set_unfold in Hb. lia.
  - apply and_assoc. split; [|split; [intros [Hf3 _]; exact (H3 Hf3)|exact P0]]. apply (gc_collectable _ (lb_free_nvm _ _ _ Hfree) Hm (same_geometry_nvm _ _ _ Hg)).
    intros b Hb. split; [apply (lb_bounds fs3 F b Hf), Hfr, Hb|].
    intros [_ Hno]. exact (Hno Hb).
Qed.

(** The pages 5 and 7 are collected: 6, 8 and the new page 9 remain. *)
Lemma fast_gc_ok_witness :
  exists F mon sbi' mon',
    nova_inode_log_fast_gc garbage 0 msecs_250 (demo_env 0) 0 gc_pi (4096 * 8 + 4000)
      (4096 * 9) 1 (World gc_sbi mon gc_sih) =
      Some (tt, World sbi' mon' (sih_end gc_sbi gc_sih [5; 6; 7] [9])) /\
    collected gc_sbi F gc_sih gc_pi [5; 6; 7] [8] [9] sbi'.
Proof.
  destruct gc_demo as (F & P & Hh & Hc & Hn & _). destruct init_monitor_ok as (mon & _ & Hmon).
  exists F, mon.
  apply (fast_gc_ok garbage gc_sbi F mon gc_sih gc_pi [5; 6; 7] [8] 0 msecs_250 (demo_env 0) 0
           P [] [9] (4096 * 8 + 4000) Hc Hn Hh).
  - lia.
  - reflexivity.
  - exact Hmon.
  - vm_compute. discriminate.
  - reflexivity.
  - vm_compute. reflexivity.
Defined.
End GcDemo.
