(* ===== verification/LogAppend.v ===== *)
(** * Appending an entry to the log of a file (inode.c)

    An entry goes behind the tail when it fits into the page, and to the start of the next
    page otherwise; then the place where it does not fit is marked.  The log grows only
    when there is no next page. *)

From S2P Require Import Prelude Layout RangeTree RbList State Balloc BallocFacts BallocSpec.
From S2P Require Import BallocInit BallocTheorems TreeEdits InodeMap LogBlocks InodeTable.
From S2P Require Import Monitor Histogram HashTable Records KnapSack Detect WriteCount Migrate.
From S2P Require Import LogPages World InodeLog FastGc.
#[local] Open Scope word_scope.

(** The entry at an address of the device. *)
Definition write_entry_at (m : memory) (p : Z) : nova_file_write_entry :=
  WriteEntry (We.block m p) (We.pgoff m p) (We.num_pages m p) (We.invalid_pages m p)
    (We.mtime m p) (load 4 m (p + 28)) (We.size m p).

(** The fields fit their widths. *)
Definition entry_wf (d : nova_file_write_entry) : Prop :=
  0 <= we_block d < 2 ^ 64 /\ 0 <= we_pgoff d < 2 ^ 64 /\ 0 <= we_num_pages d < 2 ^ 32 /\
  0 <= we_invalid_pages d < 2 ^ 32 /\ 0 <= we_mtime d < 2 ^ 32 /\ 0 <= we_padding d < 2 ^ 32 /\
  0 <= we_size d < 2 ^ 64.

(** [field n]: reads a field of [n] bytes out of a sequence of stores. *)
Ltac field n :=
  repeat first [rewrite (load_store_ne n 8) by lia|rewrite (load_store_ne n 4) by lia];
  rewrite load_store_eq; apply Z.mod_small; done.

Lemma copy_write_entry_read m p d : entry_wf d -> write_entry_at (copy_write_entry m p d) p = d.
Proof.
  destruct d as [a b c i t x s]. intros (Ha & Hb & Hc & Hi & Ht & Hx & Hs). simpl in *.
  unfold write_entry_at, copy_write_entry, We.block, We.pgoff, We.num_pages, We.invalid_pages,
    We.mtime, We.size.
  cbn [we_block we_pgoff we_num_pages we_invalid_pages we_mtime we_padding we_size]. f_equal; [field 8%nat|field 8%nat|field 4%nat..|field 8%nat].
Qed.

Lemma copy_write_entry_same m p d a : ~ p <= a < p + We.length -> copy_write_entry m p d a = m a.
Proof. unfold We.length, copy_write_entry. cbv zeta. intros Ha. by rewrite !store_disjoint by lia. Qed.

Section append.
Context `{RbTree} (slab_garbage : nova_range_node) (smp : Z) (jiffies_to_msecs : Z -> Z) (e : env).
Context (garbage : Z).
Implicit Types (sbi : nova_sb_info) (P : Z -> list Z).

(** Where the entry of [size] bytes goes when the log ends at [curr_p]. *)
Definition append_position sbi (curr_p size : Z) : Z :=
  if is_last_entry curr_p size then next_log_page sbi curr_p else curr_p.

(** An offset behind block 0, and the bytes after it, in the device. *)
Definition in_device sbi (p size : Z) : Prop := 4096 <= p /\ p + size <= 4096 * num_blocks sbi.

Lemma get_block_ok sbi mon sih p size :
  mapped sbi -> in_device sbi p size -> 0 < size ->
  get_block p (World sbi mon sih) = Some (virt_addr sbi + p, World sbi mon sih).
Proof.
  intros [Hv Hm] [H1 H2] Hs. unfold get_block. rewrite (proj2 (Z.eqb_neq p 0)) by lia.
  unfold nova_get_block. cbn [w_sbi]. rewrite (proj2 (Z.eqb_neq p 0)) by lia. by wrap.
Qed.

(** The memory when the end of the page is marked. *)
Definition marked sbi (curr_p size : Z) : memory :=
  if is_last_entry curr_p size && (ENTRY_LOC curr_p <? LAST_ENTRY)
  then nova_set_entry_type (nvm sbi) (virt_addr sbi + curr_p) NEXT_PAGE else nvm sbi.

Lemma append_head_ok sbi mon sih P pi tail size curr_p :
  homed sbi P pi -> mapped sbi -> num_blocks sbi < 2147483648 ->
  NOVA_NORMAL_INODE_START < Pi.nova_ino (nvm sbi) pi -> 0 < size ->
  curr_p = (if negb (tail =? 0) then tail else Pi.log_tail (nvm sbi) pi) ->
  in_device sbi curr_p 1 -> next_log_page (with_nvm (marked sbi curr_p size) sbi) curr_p = next_log_page sbi curr_p ->
  0 < append_position sbi curr_p size ->
  nova_get_append_head slab_garbage smp jiffies_to_msecs e garbage pi tail size (World sbi mon sih) =
    Some (append_position sbi curr_p size, World (with_nvm (marked sbi curr_p size) sbi) mon sih).
Proof.
  intros Hh Hm Hnb Hino Hsize Ecurr Hdev Hnext Hpos. pose proof Hh as [T1 T2 T3 (_ & a & Ha & Epi)].
  unfold nova_get_append_head. frun. rewrite (proj2 (Z.ltb_lt _ _) Hino).
  assert (nova_get_inode_by_ino_or_pi_addr smp sbi (Pi.nova_ino (nvm sbi) pi) (sih_pi_addr sih) =
          Some (inr pi, sbi)) as Eget.
  { unfold nova_get_inode_by_ino_or_pi_addr. rewrite (proj2 (Z.ltb_ge _ _)) by lia.
    rewrite <- Epi at 2. apply (wwb_get_present smp sbi P); auto.
    unfold NOVA_NORMAL_INODE_START in Hino. lia. }
  erewrite fs_step by (erewrite fs_step by (apply on_sbi_run; exact Eget); reflexivity).
  frun. rewrite <- Ecurr. destruct Hdev as [Hd1 Hd2].
  rewrite (proj2 (Z.eqb_neq curr_p 0)) by lia. cbn [orb].
  unfold append_position, marked in *. destruct (is_last_entry curr_p size) eqn:El; cbn [andb] in *.
  2:{ frun. rewrite (proj2 (Z.eqb_neq curr_p 0)), El by lia. by destruct sbi. }
  rewrite (proj2 (Z.eqb_neq (next_log_page sbi curr_p) 0)) by lia. frun.
  rewrite (proj2 (Z.eqb_neq curr_p 0)), El by lia. unfold nova_set_next_page_flag.
  rewrite Z.leb_antisym. destruct (ENTRY_LOC curr_p <? LAST_ENTRY); cbn [negb].
  - erewrite fs_step; [|erewrite fs_step by (by apply (get_block_ok sbi mon sih curr_p 1)); reflexivity].
    frun. by rewrite Hnext.
  - frun. by destruct sbi.
Qed.

(** An entry that fits into the page of the tail goes there. *)
Lemma append_head_fits sbi mon sih P pi tail size curr_p :
  homed sbi P pi -> mapped sbi -> num_blocks sbi < 2147483648 ->
  NOVA_NORMAL_INODE_START < Pi.nova_ino (nvm sbi) pi -> 0 < size ->
  curr_p = (if negb (tail =? 0) then tail else Pi.log_tail (nvm sbi) pi) ->
  4096 <= curr_p -> curr_p mod 4096 + size <= LAST_ENTRY -> curr_p < 4096 * num_blocks sbi ->
  nova_get_append_head slab_garbage smp jiffies_to_msecs e garbage pi tail size (World sbi mon sih) =
    Some (curr_p, World sbi mon sih).
Proof.
  intros Hh Hm Hnb Hino Hsize Ec H1 H2 H3.
  assert (is_last_entry curr_p size = false) as El.
  { unfold is_last_entry. rewrite ENTRY_LOC_alt. apply Z.ltb_ge. unfold LAST_ENTRY in *. rewrite u32_small by mlia. mlia. }
  assert (append_position sbi curr_p size = curr_p) as Ep by (unfold append_position; by rewrite El).
  assert (with_nvm (marked sbi curr_p size) sbi = sbi) as Emk by (unfold marked; rewrite El; by destruct sbi).
  rewrite (append_head_ok sbi mon sih P pi tail size curr_p), Ep, Emk; auto; [split; lia|by rewrite Emk|lia].
Qed.

(** The mark lies before the pointer of the page. *)
Lemma marked_next sbi curr_p size :
  mapped sbi -> virt_addr sbi mod 4096 = 0 -> in_device sbi curr_p 1 ->
  next_log_page (with_nvm (marked sbi curr_p size) sbi) curr_p = next_log_page sbi curr_p.
Proof.
  intros [Hv Hm] Hal [H1 H2]. unfold marked. case_cmp; [|by destruct sbi].
  rewrite ENTRY_LOC_alt in *. unfold LAST_ENTRY in *. unfold next_log_page, page_next. cbn [nvm with_nvm virt_addr].
  unfold nova_get_block. rewrite (proj2 (Z.eqb_neq curr_p 0)) by lia. rewrite u64_small by lia.
  apply load_store_ne. rewrite BLOCK_OFF_alt. unfold LAST_ENTRY. simpl Z.of_nat. mlia.
Qed.

(** [nova_append_file_write_entry] writes an entry that fits behind the tail there, and
    otherwise marks the place and writes to the start of the next page: it returns the
    position, reading the position gives the entry back, and except for the mark no other
    byte and nothing in the header of the inode changes. *)
Theorem append_write_entry_ok sbi mon sih P ws pi data tail curr_p pos :
  homed sbi P pi -> mapped sbi -> num_blocks sbi < 2147483648 -> virt_addr sbi mod 4096 = 0 ->
  NOVA_NORMAL_INODE_START < Pi.nova_ino (nvm sbi) pi ->
  curr_p = (if negb (tail =? 0) then tail else Pi.log_tail (nvm sbi) pi) ->
  in_device sbi curr_p 1 -> pos = append_position sbi curr_p We.length ->
  in_device sbi pos We.length -> entry_wf data ->
  monitor_ok ws mon -> 0 <= current_pid e -> Z.of_nat (length ws) < 2147483647 ->
  exists sbi' mon',
    nova_append_file_write_entry slab_garbage smp jiffies_to_msecs e garbage pi data tail
      (World sbi mon sih) = Some (pos, World sbi' mon' sih) /\
    write_entry_at (nvm sbi') (virt_addr sbi + pos) = data /\
    (forall a, ~ virt_addr sbi + pos <= a < virt_addr sbi + pos + We.length ->
       pos = curr_p \/ a <> virt_addr sbi + curr_p -> nvm sbi' a = nvm sbi a).
Proof.
  intros Hh Hm Hnb Hal Hino Ec Hd1 Ep Hd2 Hwf Hmon Hpid Hws. pose proof Hd2 as [Hp1 Hp2].
  unfold nova_append_file_write_entry.
  erewrite fs_step by (eapply append_head_ok; eauto; [done|by apply marked_next|rewrite <- Ep; lia]).
  rewrite <- Ep, (proj2 (Z.eqb_neq pos 0)) by lia.
  set (sbi1 := with_nvm (marked sbi curr_p We.length) sbi).
  erewrite fs_step by (by apply (get_block_ok sbi1 mon sih pos We.length)). frun.
  change (virt_addr sbi1) with (virt_addr sbi).
  destruct (count_any_block jiffies_to_msecs ws mon e
    (get_block_number_by_virt (virt_addr sbi) (virt_addr sbi + pos))) as (ws' & mon' & E3 & _); try done.
  { unfold get_block_number_by_virt. repeat case_cmp; try lia; apply Z.shiftr_nonneg, u64_range. }
  erewrite fs_step by (unfold log_block_write_count_increase; apply on_mon_run; exact E3).
  eexists _, mon'. split; [reflexivity|]. cbn [nvm with_nvm]. split; [by apply copy_write_entry_read|].
  intros a Ha Hc. etransitivity; [by apply copy_write_entry_same|]. cbn [sbi1 nvm with_nvm].
  unfold marked. case_cmp; [|done]. apply store_disjoint. unfold We.length in *.
  destruct Hc; lia.
Qed.
End append.

(** ** Examples *)

Module AppendDemo.
Import RbList.RbList InodeTable.TableDemo Detect.DetectDemo FastGc.GcDemo.

Definition demo_entry : nova_file_write_entry := WriteEntry (4096 * 12 + FILE_WRITE) 7 1 0 1000 0 4096.

(** The entry is appended to the log of inode 40, whose tail is behind the first entry of
    page 8. *)
Lemma append_write_entry_ok_witness :
  exists mon sbi' mon',
    nova_append_file_write_entry garbage 0 msecs_250 (demo_env 0) 0 gc_pi demo_entry 0
      (World gc_sbi mon gc_sih) = Some (4096 * 8 + 40, World sbi' mon' gc_sih) /\
    write_entry_at (nvm sbi') (virt_addr gc_sbi + (4096 * 8 + 40)) = demo_entry.
Proof.
  destruct gc_demo as (F & P & Hh & Hc & _). destruct init_monitor_ok as (mon & _ & Hmon).
  destruct gc_fields as (Ei & _ & Et & _). exists mon.
  destruct (append_write_entry_ok garbage 0 msecs_250 (demo_env 0) 0 gc_sbi mon gc_sih P [] gc_pi
    demo_entry 0 (4096 * 8 + 40) (4096 * 8 + 40) Hh (cl_mapped _ _ _ _ _ _ Hc))
    as (sbi' & mon' & E & Hr & _).
  - vm_compute. reflexivity.
  - vm_compute. reflexivity.
  - rewrite Ei. reflexivity.
  - rewrite Et. reflexivity.
  - split; vm_compute; discriminate.
  - vm_compute. reflexivity.
  - split; vm_compute; discriminate.
  - repeat split; vm_compute; try discriminate; reflexivity.
  - exact Hmon.
  - vm_compute. discriminate.
  - reflexivity.
  - exists sbi', mon'. split; [exact E|exact Hr].
Defined.
End AppendDemo.
