(* ===== verification/BlockMap.v ===== *)
(** * Rebuilding the free lists from bitmaps (bbuild.c)

    After a crash the allocator starts from empty lists: the recovery marks every block in
    use in bitmaps, one set per CPU, merges them, and inserts each run of clear bits into
    the list it belongs to.  A bitmap is the list of its bits; an access behind its end is
    a fault. *)

From S2P Require Import Prelude Layout RangeTree RbList State Balloc BallocFacts BallocSpec.
From S2P Require Import BallocInit TreeEdits.

(** ** Bitmaps *)

(** [struct single_scan_bm]: [bitmap_size] bytes. *)
Record single_scan_bm := ScanBm {
  bitmap_size : Z;
  bitmap : list bool;
}.

Record scan_bitmap := ScanBitmap {
  scan_bm_4K : single_scan_bm;
  scan_bm_2M : single_scan_bm;
  scan_bm_1G : single_scan_bm;
}.

Inductive bm_type := BM_4K | BM_2M | BM_1G.

Definition read_bit (bits : list bool) (i : Z) : option bool :=
  if i <? 0 then None else bits !! Z.to_nat i.

Definition set_bit (bit : Z) (bits : list bool) : option (list bool) :=
  _ ← read_bit bits bit; Some (<[Z.to_nat bit := true]> bits).

Definition set_scan_bm (bit : Z) (scan_bm : single_scan_bm) : option single_scan_bm :=
  bits ← set_bit bit (bitmap scan_bm); Some (ScanBm (bitmap_size scan_bm) bits).

Definition set_bm (bit : Z) (bm : scan_bitmap) (type : bm_type) : option scan_bitmap :=
  match type with
  | BM_4K => s ← set_scan_bm bit (scan_bm_4K bm); Some (ScanBitmap s (scan_bm_2M bm) (scan_bm_1G bm))
  | BM_2M => s ← set_scan_bm bit (scan_bm_2M bm); Some (ScanBitmap (scan_bm_4K bm) s (scan_bm_1G bm))
  | BM_1G => s ← set_scan_bm bit (scan_bm_1G bm); Some (ScanBitmap (scan_bm_4K bm) (scan_bm_2M bm) s)
  end.

(** [for (i = ...; i < ...; i++) set_bm(i, bm, BM_4K)]: [n] bits from [i] on. *)
Fixpoint set_bits_4K (n : nat) (i : Z) (bm : scan_bitmap) : option scan_bitmap :=
  match n with
  | O => Some bm
  | S n => bm ← set_bm i bm BM_4K; set_bits_4K n (i + 1) bm
  end.

(** [find_next_bit] and [find_next_zero_bit] (lib/find_bit.c): the first bit of value [v]
    from [i] on and below [size], [size] when there is none; [n] bounds the search. *)
Fixpoint find_next (n : nat) (v : bool) (bits : list bool) (size i : Z) : option Z :=
  if size <=? i then Some size
  else
    match n with
    | O => None
    | S n =>
      b ← read_bit bits i;
      if eqb b v then Some i else find_next n v bits size (i + 1)
    end.

Definition find_next_bit (bits : list bool) (size offset : Z) : option Z :=
  find_next (S (length bits)) true bits size offset.
Definition find_next_zero_bit (bits : list bool) (size offset : Z) : option Z :=
  find_next (S (length bits)) false bits size offset.

(** ** The code *)

Section operations.
Context `{RbTree} (slab_garbage : nova_range_node).

Definition nova_insert_blocknode_map (sbi : nova_sb_info) (cpuid low high : Z) :
    option (Z * nova_sb_info) :=
  let num_blocks := u64 (high - low + 1) in
  fl ← nova_get_free_list sbi cpuid;
  match nova_alloc_range_node (range_nodes sbi) slab_garbage with
  | None => Some (- ENOMEM, sbi)
  | Some (blknode, h) =>
    let h := <[blknode := RangeNode low high]> h in
    ins ← nova_insert_blocktree h (block_free_tree fl) blknode;
    let '(ret, tree) := (ins : Z * rb_tree) in
    if negb (ret =? 0) then Some (ret, with_range_nodes (nova_free_range_node blknode h) sbi)
    else
      let fl := with_block_free_tree tree fl in
      let fl := match first_node fl with
                | None => with_first_node (Some blknode) fl
                | Some _ => fl
                end in
      let fl := with_num_blocknode (u64 (num_blocknode fl + 1)) fl in
      let fl := with_num_free_blocks (u64 (num_free_blocks fl + num_blocks)) fl in
      Some (ret, with_range_nodes h (put_free_list sbi cpuid fl))
  end.

(** The list after [cpuid]. *)
Definition next_list (sbi : nova_sb_info) (cpuid : Z) : Z :=
  if cpuid =? cpus sbi - 1 then SHARED_CPU else i32 (cpuid + 1).

(** The loop of [__nova_build_blocknode_map]; [fuel] bounds its turns. *)
Fixpoint build_loop (fuel : nat) (sbi : nova_sb_info) (bits : list bool)
    (bsize scale cpuid start fin : Z) : option nova_sb_info :=
  match fuel with
  | O => None
  | S fuel =>
    next ← find_next_zero_bit bits fin start;
    if next =? bsize then Some sbi
    else if next =? fin then
      let cpuid := next_list sbi cpuid in
      fl ← nova_get_free_list sbi cpuid;
      build_loop fuel sbi bits bsize scale cpuid (block_start fl) (u64 (block_end fl + 1))
    else
      let low := next in
      next ← find_next_bit bits fin next;
      res ← nova_insert_blocknode_map sbi cpuid (u64 (Z.shiftl low scale))
              (u64 (u64 (Z.shiftl next scale) - 1));
      let '(_, sbi) := (res : Z * nova_sb_info) in
      if next =? bsize then Some sbi
      else if next =? fin then
        let cpuid := next_list sbi cpuid in
        fl ← nova_get_free_list sbi cpuid;
        build_loop fuel sbi bits bsize scale cpuid (block_start fl) (u64 (block_end fl + 1))
      else build_loop fuel sbi bits bsize scale cpuid next fin
  end.

(** [__nova_build_blocknode_map]; every turn passes a bit or a list, and there are at most
    66 lists. *)
Definition __nova_build_blocknode_map (sbi : nova_sb_info) (bits : list bool) (bsize scale : Z) :
    option nova_sb_info :=
  fl ← nova_get_free_list sbi 0;
  build_loop (length bits + 66) sbi bits bsize scale 0 (block_start fl) (u64 (block_end fl + 1)).

(** The bits of a map of larger pages are set for each of their blocks. *)
Fixpoint update_4K_loop (fuel : nat) (bm : scan_bitmap) (bits : list bool) (bsize scale next : Z) :
    option scan_bitmap :=
  match fuel with
  | O => None
  | S fuel =>
    next ← find_next_bit bits bsize next;
    if next =? bsize then Some bm
    else
      let low := next in
      next ← find_next_zero_bit bits bsize next;
      bm ← set_bits_4K (Z.to_nat (Z.shiftl next scale - Z.shiftl low scale)) (Z.shiftl low scale) bm;
      if next =? bsize then Some bm else update_4K_loop fuel bm bits bsize scale next
  end.

Definition nova_update_4K_map (bm : scan_bitmap) (bits : list bool) (bsize scale : Z) :
    option scan_bitmap :=
  update_4K_loop (S (length bits)) bm bits bsize scale 0.

Definition PAGE_SHIFT_2M : Z := 21.
Definition PAGE_SHIFT_1G : Z := 30.

(** The 2M and 1G maps of each CPU are set in its 4K map. *)
Fixpoint update_4K_maps (bms : list scan_bitmap) : option (list scan_bitmap) :=
  match bms with
  | [] => Some []
  | bm :: bms =>
    bm ← nova_update_4K_map bm (bitmap (scan_bm_2M bm)) (bitmap_size (scan_bm_2M bm) * 8)
           (PAGE_SHIFT_2M - 12);
    bm ← nova_update_4K_map bm (bitmap (scan_bm_1G bm)) (bitmap_size (scan_bm_1G bm) * 8)
           (PAGE_SHIFT_1G - 12);
    bms ← update_4K_maps bms;
    Some (bm :: bms)
  end.

(** [dst[j] |= src[j]] for all words. *)
Definition merge_bits (dst src : list bool) : list bool := zip_with orb dst src.

(** A zeroed bitmap of [kzalloc]. *)
Definition new_scan_bm (size : Z) : single_scan_bm :=
  ScanBm size (replicate (Z.to_nat (size * 8)) false).

(** [nova_build_blocknode_map]; [kzalloc_ok] tells whether its two allocations succeed, and
    [global_bm] holds one map for each CPU. *)
Definition nova_build_blocknode_map (sbi : nova_sb_info) (kzalloc_ok : bool)
    (global_bm : list scan_bitmap) (initsize : Z) : option (Z * nova_sb_info) :=
  if negb kzalloc_ok then Some (- ENOMEM, sbi)
  else
    let size := Z.shiftr initsize (PAGE_SHIFT + 3) in
    let final := new_scan_bm size in
    bms ← update_4K_maps global_bm;
    let bits := fold_left (fun dst bm => merge_bits dst (bitmap (scan_bm_4K bm))) bms (bitmap final) in
    let final_bm := ScanBitmap (ScanBm size bits) (ScanBm 0 []) (ScanBm 0 []) in
    final_bm ← set_bits_4K (Z.to_nat (reserved_blocks sbi)) 0 final_bm;
    sbi ← __nova_build_blocknode_map sbi (bitmap (scan_bm_4K final_bm)) (size * 8) (PAGE_SHIFT - 12);
    Some (0, sbi).

(** [alloc_bm]: the maps of the CPUs; [kzalloc_ok i] tells whether the allocations for CPU
    [i] succeed. *)
Fixpoint alloc_bm_loop (n : nat) (i initsize : Z) (kzalloc_ok : Z -> bool) : Z * list scan_bitmap :=
  match n with
  | O => (0, [])
  | S n =>
    if kzalloc_ok i then
      let bm := ScanBitmap (new_scan_bm (Z.shiftr initsize (PAGE_SHIFT + 3)))
                  (new_scan_bm (Z.shiftr initsize (PAGE_SHIFT_2M + 3)))
                  (new_scan_bm (Z.shiftr initsize (PAGE_SHIFT_1G + 3))) in
      let '(ret, bms) := alloc_bm_loop n (i + 1) initsize kzalloc_ok in (ret, bm :: bms)
    else (- ENOMEM, [])
  end.

Definition alloc_bm (sbi : nova_sb_info) (initsize : Z) (kzalloc_ok : Z -> bool) :
    Z * list scan_bitmap :=
  alloc_bm_loop (Z.to_nat (cpus sbi)) 0 initsize kzalloc_ok.
End operations.

(** ** Searching bits *)

(** [x] is the first bit of value [v] from [i] on, or [size]. *)
Definition first_bit (v : bool) (bits : list bool) (size i x : Z) : Prop :=
  i <= x <= size /\ (forall j, i <= j < x -> read_bit bits j = Some (negb v)) /\
  (x < size -> read_bit bits x = Some v).

Lemma read_bit_some bits i : 0 <= i < Z.of_nat (length bits) -> exists b, read_bit bits i = Some b.
Proof.
  intros Hi. unfold read_bit. rewrite (proj2 (Z.ltb_ge i 0)) by lia. apply lookup_lt_is_Some. lia.
Qed.

Lemma find_next_ok n : forall v bits size i,
  0 <= i <= size -> size <= Z.of_nat (length bits) -> size - i <= Z.of_nat n ->
  exists x, find_next n v bits size i = Some x /\ first_bit v bits size i x.
Proof.
  induction n as [|n IH]; intros v bits size i Hi Hs Hn; simpl;
    (destruct (Z.leb_spec size i); [exists size; split; [done|];
       split; [lia|split; intros; lia]|]); [lia|].
  destruct (read_bit_some bits i) as [b Eb]; [lia|]. rewrite Eb. simpl.
  destruct (eqb b v) eqn:Ev.
  - apply eqb_prop in Ev as ->. exists i. split; [done|]. split; [lia|]. split; [intros; lia|done].
  - destruct (IH v bits size (i + 1)) as (x & Ex & H1 & H2 & H3); [lia..|].
    exists x. split; [done|]. split; [lia|]. split; [|done].
    intros j Hj. destruct (decide (j = i)) as [->|]; [|apply H2; lia].
    rewrite Eb. f_equal. by destruct b, v.
Qed.

Lemma find_next_bit_ok bits size i :
  0 <= i <= size -> size <= Z.of_nat (length bits) ->
  exists x, find_next_bit bits size i = Some x /\ first_bit true bits size i x.
Proof. intros. apply find_next_ok; lia. Qed.

Lemma find_next_zero_bit_ok bits size i :
  0 <= i <= size -> size <= Z.of_nat (length bits) ->
  exists x, find_next_zero_bit bits size i = Some x /\ first_bit false bits size i x.
Proof. intros. apply find_next_ok; lia. Qed.

(** ** Setting and merging bits *)

Section bits.
Implicit Types (bm : scan_bitmap) (bits : list bool).

(** The 4K map of a CPU gets new bits. *)
Definition with_4K bits bm : scan_bitmap :=
  ScanBitmap (ScanBm (bitmap_size (scan_bm_4K bm)) bits) (scan_bm_2M bm) (scan_bm_1G bm).

(** Is a bit set? *)
Definition bit_set bits (b : Z) : bool := default false (read_bit bits b).

Lemma read_bit_set bits b : 0 <= b < Z.of_nat (length bits) -> read_bit bits b = Some (bit_set bits b).
Proof. intros Hb. unfold bit_set. by destruct (read_bit_some bits b Hb) as [v ->]. Qed.

Lemma bit_set_range bits b : bit_set bits b = true -> 0 <= b < Z.of_nat (length bits).
Proof.
  unfold bit_set, read_bit. case_cmp; [done|]. destruct (bits !! Z.to_nat b) eqn:E; [|done].
  apply lookup_lt_Some in E. lia.
Qed.

Lemma set_bm_4K_ok i bm :
  0 <= i < Z.of_nat (length (bitmap (scan_bm_4K bm))) ->
  exists bits, set_bm i bm BM_4K =
      Some (with_4K bits bm) /\
    length bits = length (bitmap (scan_bm_4K bm)) /\
    forall b, bit_set bits b = (b =? i) || bit_set (bitmap (scan_bm_4K bm)) b.
Proof.
  intros Hi. destruct (read_bit_some _ _ Hi) as [v Ev]. unfold set_bm, set_scan_bm, set_bit. rewrite Ev. simpl.
  eexists. split; [done|]. rewrite length_insert. split; [done|]. intros b. unfold bit_set, read_bit.
  destruct (Z.eqb_spec b i) as [->|Hne]; simpl.
  - rewrite (proj2 (Z.ltb_ge i 0)) by lia. rewrite list_lookup_insert_eq by lia. done.
  - case_cmp; [done|]. by rewrite list_lookup_insert_ne by lia.
Qed.

Lemma set_bits_4K_ok n : forall i bm,
  0 <= i -> i + Z.of_nat n <= Z.of_nat (length (bitmap (scan_bm_4K bm))) ->
  exists bits, set_bits_4K n i bm =
      Some (with_4K bits bm) /\
    length bits = length (bitmap (scan_bm_4K bm)) /\
    forall b, bit_set bits b = ((i <=? b) && (b <? i + Z.of_nat n)) || bit_set (bitmap (scan_bm_4K bm)) b.
Proof.
  induction n as [|n IH]; intros i bm Hi Hn; cbn [set_bits_4K].
  - exists (bitmap (scan_bm_4K bm)). split; [by destruct bm as [[] ? ?]|]. split; [done|].
    intros b. destruct (i <=? b) eqn:E1, (b <? i + Z.of_nat 0) eqn:E2; bool_hyps; simpl; try done. lia.
  - destruct (set_bm_4K_ok i bm) as (bits & E & Hl & Hb); [lia|]. rewrite E. cbn [mbind option_bind].
    destruct (IH (i + 1) (with_4K bits bm)) as (bits' & E' & Hl' & Hb'); [lia|simpl; rewrite Hl; lia|]. simpl in *.
    exists bits'. split; [done|]. split; [congruence|]. intros b. rewrite Hb', Hb, orb_assoc. f_equal.
    destruct (Z.eqb_spec b i), (Z.leb_spec (i + 1) b), (Z.leb_spec i b), (Z.ltb_spec b (i + 1 + Z.of_nat n)),
      (Z.ltb_spec b (i + Z.of_nat (S n))); simpl; try done; lia.
Qed.

(** The pages of [2 ^ scale] blocks that are marked from [next] on. *)
Definition covered bits (scale next b : Z) : bool :=
  (next <=? b / 2 ^ scale) && bit_set bits (b / 2 ^ scale).

(** Skipping clear pages, and marking set ones. *)
Lemma covered_skip bits scale next x b :
  (forall j, next <= j < x -> read_bit bits j = Some false) -> next <= x ->
  covered bits scale next b = covered bits scale x b.
Proof.
  intros Hj Hx. unfold covered. set (q := b / 2 ^ scale).
  destruct (Z.leb_spec next q), (Z.leb_spec x q); simpl; try done; [|lia].
  unfold bit_set. by rewrite Hj by lia.
Qed.

Lemma covered_run bits scale x y b :
  0 <= scale -> (forall j, x <= j < y -> read_bit bits j = Some true) -> x <= y ->
  covered bits scale x b = ((2 ^ scale * x <=? b) && (b <? 2 ^ scale * y)) || covered bits scale y b.
Proof.
  intros Hs Hj Hx. unfold covered. set (q := b / 2 ^ scale). assert (0 < 2 ^ scale) as Hp by (by apply Z.pow_pos_nonneg).
  pose proof (Z.mul_div_le b (2 ^ scale) Hp) as D1. pose proof (Z.mul_succ_div_gt b (2 ^ scale) Hp) as D2. fold q in D1, D2.
  assert ((2 ^ scale * x <=? b) = (x <=? q)) as ->.
  { destruct (Z.leb_spec x q); [apply Z.leb_le|apply Z.leb_gt]; nia. }
  assert ((b <? 2 ^ scale * y) = (q <? y)) as ->.
  { destruct (Z.ltb_spec q y); [apply Z.ltb_lt|apply Z.ltb_ge]; nia. }
  destruct (Z.leb_spec x q), (Z.ltb_spec q y), (Z.leb_spec y q); simpl; try done; try lia.
  unfold bit_set. by rewrite Hj by lia.
Qed.

Lemma update_4K_loop_ok bits scale : 0 <= scale ->
  forall fuel bm next, let bsize := Z.of_nat (length bits) in
  0 <= next <= bsize -> bsize - next < Z.of_nat fuel ->
  2 ^ scale * bsize <= Z.of_nat (length (bitmap (scan_bm_4K bm))) ->
  exists bits', update_4K_loop fuel bm bits bsize scale next =
      Some (with_4K bits' bm) /\
    length bits' = length (bitmap (scan_bm_4K bm)) /\
    forall b, bit_set bits' b = bit_set (bitmap (scan_bm_4K bm)) b || covered bits scale next b.
Proof.
  intros Hs. assert (0 < 2 ^ scale) as Hp by (by apply Z.pow_pos_nonneg).
  induction fuel as [|fuel IH]; intros bm next bsize Hn Hf Hl; [lia|]. cbn [update_4K_loop].
  assert (forall bm, bm = with_4K (bitmap (scan_bm_4K bm)) bm) as Heta by (by intros [[] ? ?]).
  assert (forall b, covered bits scale bsize b = false) as Hend.
  { intros b. unfold covered. destruct (Z.leb_spec bsize (b / 2 ^ scale)); [|done]. simpl.
    destruct (bit_set bits (b / 2 ^ scale)) eqn:E; [|done]. apply bit_set_range in E. unfold bsize in *. lia. }
  destruct (find_next_bit_ok bits bsize next) as (x & -> & X1 & X2 & X3); [lia|lia|]. cbn [mbind option_bind].
  destruct (Z.eqb_spec x bsize) as [->|Hx].
  { exists (bitmap (scan_bm_4K bm)). split; [f_equal; apply Heta|]. split; [done|].
    intros b. by rewrite (covered_skip bits scale next bsize), Hend, orb_false_r by (auto; lia). }
  destruct (find_next_zero_bit_ok bits bsize x) as (y & -> & Y1 & Y2 & Y3); [lia|lia|]. cbn [mbind option_bind].
  assert (x < y) as Hxy.
  { destruct (decide (x = y)) as [->|]; [|lia]. rewrite X3 in Y3 by lia. specialize (Y3 ltac:(lia)). done. }
  rewrite !Z.shiftl_mul_pow2 by done.
  destruct (set_bits_4K_ok (Z.to_nat (y * 2 ^ scale - x * 2 ^ scale)) (x * 2 ^ scale) bm)
    as (bits1 & -> & L1 & B1); [nia|nia|]. cbn [mbind option_bind].
  assert (forall b, bit_set bits1 b || covered bits scale y b =
                    bit_set (bitmap (scan_bm_4K bm)) b || covered bits scale next b) as Hb.
  { intros b. rewrite B1, (covered_skip bits scale next x), (covered_run bits scale x y) by (auto; lia).
    rewrite Z2Nat.id by nia. rewrite !(Z.mul_comm (2 ^ scale)).
    replace (x * 2 ^ scale + (y * 2 ^ scale - x * 2 ^ scale)) with (y * 2 ^ scale) by lia.
    rewrite (orb_comm (_ && _)), <- orb_assoc. done. }
  destruct (Z.eqb_spec y bsize) as [->|Hy].
  { exists bits1. split; [done|]. split; [done|]. intros b. by rewrite <- Hb, Hend, orb_false_r. }
  destruct (IH (with_4K bits1 bm) y)
    as (bits' & E & L' & B'); [lia|lia|simpl; by rewrite L1|]. simpl in *.
  exists bits'. split; [done|]. split; [congruence|]. intros b. by rewrite B', Hb.
Qed.

(** The maps of a CPU have the sizes [alloc_bm] gives them. *)
Record bm_shape (initsize : Z) bm : Prop := {
  sh_4K : bitmap_size (scan_bm_4K bm) = Z.shiftr initsize 15 /\
    Z.of_nat (length (bitmap (scan_bm_4K bm))) = Z.shiftr initsize 15 * 8;
  sh_2M : bitmap_size (scan_bm_2M bm) = Z.shiftr initsize 24 /\
    Z.of_nat (length (bitmap (scan_bm_2M bm))) = Z.shiftr initsize 24 * 8;
  sh_1G : bitmap_size (scan_bm_1G bm) = Z.shiftr initsize 33 /\
    Z.of_nat (length (bitmap (scan_bm_1G bm))) = Z.shiftr initsize 33 * 8;
}.

(** Is block [b] marked, alone or with a larger page? *)
Definition used bm (b : Z) : bool :=
  bit_set (bitmap (scan_bm_4K bm)) b || bit_set (bitmap (scan_bm_2M bm)) (b / 512)
  || bit_set (bitmap (scan_bm_1G bm)) (b / 262144).

Lemma covered_all bits scale b : covered bits scale 0 b = bit_set bits (b / 2 ^ scale).
Proof.
  unfold covered. destruct (Z.leb_spec 0 (b / 2 ^ scale)); [done|]. simpl.
  destruct (bit_set bits (b / 2 ^ scale)) eqn:E; [|done]. apply bit_set_range in E. lia.
Qed.

Lemma update_4K_maps_ok initsize bms :
  0 <= initsize -> Forall (bm_shape initsize) bms ->
  exists bms', update_4K_maps bms = Some bms' /\
    Forall2 (fun bm bm' => length (bitmap (scan_bm_4K bm')) = length (bitmap (scan_bm_4K bm)) /\
      forall b, bit_set (bitmap (scan_bm_4K bm')) b = used bm b) bms bms'.
Proof.
  intros Hi. induction 1 as [|bm bms [[_ H4] [S2 H2] [S1 H1]] _ (bms' & E & Hf)];
    [by exists []|]. rewrite !Z.shiftr_div_pow2 in * by lia.
  change (2 ^ 15) with 32768 in *. change (2 ^ 24) with 16777216 in *. change (2 ^ 33) with 8589934592 in *.
  cbn [update_4K_maps]. unfold nova_update_4K_map, PAGE_SHIFT_2M, PAGE_SHIFT_1G.
  rewrite S2, <- H2.
  destruct (update_4K_loop_ok (bitmap (scan_bm_2M bm)) (21 - 12) ltac:(lia)
    (S (length (bitmap (scan_bm_2M bm)))) bm 0) as (bits1 & -> & L1 & B1); [lia|lia|mlia|].
  cbn [mbind option_bind]. cbn [scan_bm_1G with_4K]. rewrite S1, <- H1.
  destruct (update_4K_loop_ok (bitmap (scan_bm_1G bm)) (30 - 12) ltac:(lia)
    (S (length (bitmap (scan_bm_1G bm)))) (with_4K bits1 bm) 0) as (bits2 & -> & L2 & B2);
    [lia|lia|simpl; rewrite L1; mlia|].
  cbn [mbind option_bind]. rewrite E. cbn [mbind option_bind]. eexists. split; [done|].
  constructor; [|done]. cbn [scan_bm_4K with_4K bitmap] in *. split; [congruence|].
  intros b. rewrite B2, B1, !covered_all. done.
Qed.

Lemma merge_bits_ok dst src :
  length src = length dst -> length (merge_bits dst src) = length dst /\
  forall b, bit_set (merge_bits dst src) b = bit_set dst b || bit_set src b.
Proof.
  intros Hl. unfold merge_bits. split; [rewrite length_zip_with; lia|]. intros b.
  unfold bit_set, read_bit. case_cmp; [done|]. rewrite lookup_zip_with.
  destruct (dst !! Z.to_nat b) as [v|] eqn:E; simpl.
  - destruct (lookup_lt_is_Some_2 src (Z.to_nat b)) as [u Eu];
      [rewrite Hl; by eapply lookup_lt_Some|]. by rewrite Eu.
  - apply lookup_ge_None in E. rewrite (proj2 (lookup_ge_None src _)) by lia. done.
Qed.

(** The map of all CPUs. *)
Lemma merge_all bms : forall bms' dst,
  Forall2 (fun bm bm' => length (bitmap (scan_bm_4K bm')) = length (bitmap (scan_bm_4K bm)) /\
    forall b, bit_set (bitmap (scan_bm_4K bm')) b = used bm b) bms bms' ->
  Forall (fun bm => length (bitmap (scan_bm_4K bm)) = length dst) bms ->
  let bits := fold_left (fun dst bm => merge_bits dst (bitmap (scan_bm_4K bm))) bms' dst in
  length bits = length dst /\ forall b, bit_set bits b = bit_set dst b || existsb (fun bm => used bm b) bms.
Proof.
  induction bms as [|bm bms IH]; intros bms' dst Hf Hl; inversion Hf as [|? bm' ? bms1 [Hlen Hb] Hf']; subst; simpl.
  - split; [done|]. intros b. by rewrite orb_false_r.
  - apply Forall_cons in Hl as [Hl1 Hl].
    destruct (merge_bits_ok dst (bitmap (scan_bm_4K bm'))) as [M1 M2]; [congruence|].
    destruct (IH bms1 (merge_bits dst (bitmap (scan_bm_4K bm'))) Hf') as [I1 I2].
    { eapply Forall_impl; [exact Hl|]. simpl. congruence. }
    split; [congruence|]. intros b. rewrite I2, M2, Hb, orb_assoc. done.
Qed.

(** The merged map with the reserved blocks. *)
Lemma final_bits_ok initsize bms n reserved :
  0 <= initsize -> Forall (bm_shape initsize) bms -> Z.shiftr initsize 15 * 8 = n ->
  0 <= reserved <= n ->
  exists bms' final, update_4K_maps bms = Some bms' /\
    set_bits_4K (Z.to_nat reserved) 0
      (ScanBitmap (ScanBm (Z.shiftr initsize 15)
         (fold_left (fun dst bm => merge_bits dst (bitmap (scan_bm_4K bm))) bms'
            (replicate (Z.to_nat n) false))) (ScanBm 0 []) (ScanBm 0 [])) = Some final /\
    Z.of_nat (length (bitmap (scan_bm_4K final))) = n /\
    forall b, bit_set (bitmap (scan_bm_4K final)) b =
      (0 <=? b) && (b <? reserved) || existsb (fun bm => used bm b) bms.
Proof.
  intros Hi Hsh Hn Hres. destruct (update_4K_maps_ok initsize bms Hi Hsh) as (bms' & E & Hf). exists bms'.
  destruct (merge_all bms bms' (replicate (Z.to_nat n) false) Hf) as [M1 M2].
  { eapply Forall_impl; [exact Hsh|]. intros bm [[_ Hl] _ _]. rewrite length_replicate. lia. }
  rewrite length_replicate in M1. set (bits := fold_left _ _ _) in *.
  destruct (set_bits_4K_ok (Z.to_nat reserved) 0
    (ScanBitmap (ScanBm (Z.shiftr initsize 15) bits) (ScanBm 0 []) (ScanBm 0 []))) as (bits' & -> & L' & B');
    [lia|simpl; lia|]. cbn [scan_bm_4K bitmap with_4K] in *. rewrite Z2Nat.id in B' by lia.
  eexists. split; [done|]. split; [done|]. cbn [scan_bm_4K bitmap with_4K]. split; [lia|].
  intros b. rewrite B', M2. f_equal.
  assert (bit_set (replicate (Z.to_nat n) false) b = false) as ->; [|done].
  unfold bit_set, read_bit. case_cmp; [done|]. destruct (_ !! _) eqn:E'; [|done].
  by apply lookup_replicate in E' as [-> _].
Qed.
End bits.

(** ** Rebuilding the lists *)

Section rebuild.
Context `{RbTreeLaws} (slab_garbage : nova_range_node).
(** The slab serves every node; the code only reports a range for which it does not. *)
Hypothesis slab_serves : forall h, kmem_cache_alloc h <> None.
Implicit Types (sbi : nova_sb_info) (R : Z -> list nova_range_node) (bits : list bool).

(** The first block of a list, and the one behind its last. *)
Definition list_start sbi (c : Z) : Z :=
  if c =? SHARED_CPU then per_list_blocks sbi * cpus sbi else per_list_blocks sbi * c.
Definition list_end sbi (c : Z) : Z :=
  if c =? SHARED_CPU then num_blocks sbi else per_list_blocks sbi * (c + 1).

(** The lists the blocks are distributed to: the shared one holds what is left over. *)
Definition has_blocks sbi (c : Z) : Prop :=
  0 <= c < cpus sbi \/ (c = SHARED_CPU /\ per_list_blocks sbi * cpus sbi < num_blocks sbi).

(** The bounds [nova_init_blockmap] has stored. *)
Definition bounded sbi : Prop :=
  forall c fl, has_blocks sbi c -> nova_get_free_list sbi c = Some fl ->
    block_start fl = list_start sbi c /\ block_end fl + 1 = list_end sbi c.

Lemma has_blocks_valid sbi c : has_blocks sbi c -> valid_cpu sbi c.
Proof. unfold has_blocks, valid_cpu. tauto. Qed.

Lemma list_range sbi R c :
  balloc_ok sbi R -> has_blocks sbi c -> per_list_blocks sbi * cpus sbi <= num_blocks sbi ->
  0 <= list_start sbi c < list_end sbi c /\ list_end sbi c <= num_blocks sbi /\
  forall b, list_start sbi c <= b < list_end sbi c <-> 0 <= b < num_blocks sbi /\ home sbi b = c.
Proof.
  intros Hok Hc Ht. destruct (bo_size _ _ Hok) as (Hp & Hn & _). destruct (bo_cpus _ _ Hok) as [_ Hcp].
  unfold list_start, list_end, home, has_blocks, SHARED_CPU in *.
  destruct (Z.eqb_spec c 65536) as [->|Hne].
  - destruct Hc as [?|[_ Hlt]]; [lia|]. split; [nia|]. split; [lia|]. intros b. split.
    + intros Hb. split; [nia|]. rewrite (proj2 (Z.leb_le _ _)); [done|]. apply Z.div_le_lower_bound; lia.
    + intros [Hb Hh]. split; [|lia]. destruct (Z.leb_spec (cpus sbi) (b / per_list_blocks sbi)) as [Hl|Hl].
      * pose proof (Z.mul_div_le b (per_list_blocks sbi)). nia.
      * lia.
  - destruct Hc as [Hc|[? _]]; [|lia]. split; [nia|]. split; [nia|]. intros b. split.
    + intros Hb. assert (b / per_list_blocks sbi = c) as ->
        by (symmetry; apply (Z.div_unique _ _ _ (b - per_list_blocks sbi * c)); [left|]; lia).
      split; [nia|]. by rewrite (proj2 (Z.leb_gt _ _)) by lia.
    + intros [Hb Hh]. destruct (Z.leb_spec (cpus sbi) (b / per_list_blocks sbi)); [lia|]. subst c.
      pose proof (Z.mul_div_le b (per_list_blocks sbi) ltac:(lia)).
      pose proof (Z.mul_succ_div_gt b (per_list_blocks sbi) ltac:(lia)). lia.
Qed.

(** The list with one more node behind its last. *)
Definition append_node (fl : free_list) (n : ptr) (t : rb_tree) (num : Z) : free_list :=
  let fl := with_block_free_tree t fl in
  let fl := match first_node fl with
            | None => with_first_node (Some n) fl
            | Some _ => fl
            end in
  let fl := with_num_blocknode (u64 (num_blocknode fl + 1)) fl in
  with_num_free_blocks (u64 (num_free_blocks fl + num)) fl.

Lemma append_node_fields fl n t num :
  let fl' := append_node fl n t num in
  block_free_tree fl' = t /\ block_start fl' = block_start fl /\ block_end fl' = block_end fl /\
  p_node fl' = p_node fl /\ num_free_blocks fl' = u64 (num_free_blocks fl + num) /\
  num_blocknode fl' = u64 (num_blocknode fl + 1) /\
  first_node fl' = match first_node fl with None => Some n | Some m => Some m end.
Proof. unfold append_node. destruct fl as [t0 [m|]]; done. Qed.

Lemma append_node_ok h h' fl rs n r t :
  free_list_ok h fl rs -> tree_ok h' t (rs ++ [r]) ->
  inorder t = inorder (block_free_tree fl) ++ [n] ->
  0 <= num_free_blocks fl < 2147483648 -> 0 <= range_size r < 2147483648 ->
  free_list_ok h' (append_node fl n t (range_size r)) (rs ++ [r]).
Proof.
  intros [Ht Hfirst Hcur Hcnt Hnod] Ht' Ein Hnf Hr. pose proof (tree_ok_ranges _ _ _ Ht) as Hrs.
  pose proof (sum_ranges_limit _ Hrs). pose proof (sum_ranges_nonneg _ Hrs).
  destruct (append_node_fields fl n t (range_size r)) as (E1 & _ & _ & E4 & E5 & E6 & E7).
  unfold RANGE_LIMIT in *. split; rewrite ?E1, ?E4, ?E5, ?E6, ?E7; auto.
  - rewrite Hfirst, Ein. by destruct (inorder (block_free_tree fl)).
  - intros m Hm%Hcur. rewrite Ein. set_solver.
  - rewrite sum_of_app, <- Hcnt. simpl. wrap. lia.
  - rewrite Hnod, length_app. simpl. wrap. lia.
Qed.

(** A fresh node with a range behind all others of its list is inserted. *)
Lemma append_range_ok sbi R c fl n low high :
  balloc_ok sbi R -> valid_cpu sbi c -> nova_get_free_list sbi c = Some fl ->
  kmem_cache_alloc (range_nodes sbi) = Some n -> low <= high ->
  (forall b, low <= b <= high -> 0 < b < num_blocks sbi /\ home sbi b = c) ->
  Forall (fun r => before r (RangeNode low high)) (R c) ->
  let h' := <[n := RangeNode low high]> (range_nodes sbi) in
  exists t, nova_insert_blocktree h' (block_free_tree fl) n = Some (0, t) /\
    let sbi' := updated sbi c (append_node fl n t (high - low + 1)) h' in
    balloc_ok sbi' (set_ranges c (R c ++ [RangeNode low high]) R) /\ nodes_frame sbi sbi'.
Proof.
  intros Hok Hc Hget Ea Hle Hhome Hbef h'. set (r := RangeNode low high) in *.
  pose proof (bo_list _ _ Hok c fl Hc Hget) as Hfl. pose proof Hfl as [Ht _ _ _ _].
  pose proof (tree_ok_ranges _ _ _ Ht) as Hrs. pose proof (num_free_bound sbi R c fl Hok Hc Hget) as Hnf.
  destruct (bo_size _ _ Hok) as (_ & _ & Hsz). pose proof (kmem_cache_alloc_fresh _ _ Ea) as Hf.
  destruct (Hhome low ltac:(lia)) as [Hlo _]. destruct (Hhome high ltac:(lia)) as [Hhi _].
  assert (holds h' (inorder (block_free_tree fl)) (R c)) as Hh.
  { eapply holds_frame; [apply Ht|]. intros m Hm. apply lookup_insert_ne. intros ->.
    destruct (holds_in _ _ _ _ (tree_holds _ _ _ Ht) Hm) as (x & Hx & _). congruence. }
  assert (ranges_ok (R c ++ [r])) as Hrs'.
  { apply ranges_ok_mid. split_and!; auto; [by repeat constructor|]. unfold wf_range, RANGE_LIMIT. simpl. lia. }
  destruct (tree_ok_insert h' (block_free_tree fl) (inorder (block_free_tree fl)) [] (R c) [] n r)
    as (t & Ei & Ein & Ht'); auto; rewrite ?app_nil_r; auto.
  { by apply ranges_tree_ok. }
  { by constructor. }
  { apply lookup_insert_eq. }
  exists t. split; [exact Ei|]. set (fl' := append_node _ _ _ _).
  pose proof (append_node_ok _ h' fl (R c) n r t Hfl Ht' Ein Hnf
    ltac:(unfold range_size; simpl; lia)) as Hfl'. change (append_node _ _ _ _) with fl' in Hfl'.
  destruct (append_node_fields fl n t (high - low + 1)) as (Et & _). fold fl' in Et.
  assert (changes_only (range_nodes sbi) h' (option_list (Some n) ++ inorder (block_free_tree fl))) as Hco.
  { intros m Hm. apply lookup_insert_ne. simpl in Hm. set_solver. }
  assert (forall m, m ∈ inorder (block_free_tree fl') -> Some n = Some m \/ m ∈ inorder (block_free_tree fl)) as Hsub.
  { intros m. rewrite Et, Ein. intros [?|?]%elem_of_app; [by right|left; f_equal; set_solver]. }
  split.
  - eapply (updated_ok sbi R c fl fl' h' _ (Some n)); eauto; [by intros m [= <-]|].
    intros b [Hb'|Hb']%Exists_app; [by apply (bo_home _ _ Hok)|].
    apply Exists_cons in Hb' as [Hb'|Hb'%Exists_nil]; [|done]. by apply Hhome.
  - eapply (updated_nodes_frame sbi R c fl fl' h' (Some n)); eauto. by intros m [= <-].
Qed.

Lemma insert_blocknode_ok sbi R c low high :
  balloc_ok sbi R -> valid_cpu sbi c -> low <= high ->
  (forall b, low <= b <= high -> 0 < b < num_blocks sbi /\ home sbi b = c) ->
  Forall (fun r => before r (RangeNode low high)) (R c) ->
  exists fl fl' h', nova_get_free_list sbi c = Some fl /\
    nova_insert_blocknode_map slab_garbage sbi c low high = Some (0, updated sbi c fl' h') /\
    balloc_ok (updated sbi c fl' h') (set_ranges c (R c ++ [RangeNode low high]) R) /\
    nodes_frame sbi (updated sbi c fl' h') /\
    block_start fl' = block_start fl /\ block_end fl' = block_end fl.
Proof.
  intros Hok Hc Hle Hhome Hbef. destruct (valid_cpu_get sbi R c Hok Hc) as [fl Hget].
  destruct (kmem_cache_alloc (range_nodes sbi)) as [n|] eqn:Ea; [|by destruct (slab_serves (range_nodes sbi))].
  destruct (append_range_ok sbi R c fl n low high) as (t & Ei & Hok' & Hnf); auto.
  destruct (bo_size _ _ Hok) as (_ & _ & Hsz).
  destruct (Hhome low ltac:(lia)) as [Hlo _]. destruct (Hhome high ltac:(lia)) as [Hhi _].
  unfold nova_insert_blocknode_map. rewrite Hget. simpl. unfold nova_alloc_range_node. rewrite Ea.
  rewrite insert_insert_eq, Ei, (u64_small (high - low + 1)) by lia. simpl.
  destruct (append_node_fields fl n t (high - low + 1)) as (_ & Hb1 & Hb2 & _).
  eexists fl, (append_node fl n t (high - low + 1)), _. split_and!; try done.
Qed.

(** The blocks below [s] are distributed: list [c] is being filled. *)
Record rebuilt sbi R bits (c s : Z) : Prop := {
  rb_ok : balloc_ok sbi R;
  rb_bounds : bounded sbi;
  rb_total : per_list_blocks sbi * cpus sbi <= num_blocks sbi;
  rb_list : has_blocks sbi c;
  rb_pos : list_start sbi c <= s <= list_end sbi c;
  rb_set d b : valid_cpu sbi d -> in_ranges b (R d) <->
    home sbi b = d /\ 0 <= b < s /\ read_bit bits b = Some false;
  rb_gap : s = list_start sbi c \/ s = list_end sbi c \/ read_bit bits s = Some true;
}.

Lemma rebuilt_skip sbi R bits c s s' :
  rebuilt sbi R bits c s -> s <= s' <= list_end sbi c ->
  (forall j, s <= j < s' -> read_bit bits j = Some true) ->
  s' = list_end sbi c \/ s' = s -> rebuilt sbi R bits c s'.
Proof.
  intros [K1 K2 K3 K4 K5 K6 K7] Hs Hbits Hend. split; auto; [lia| |].
  - intros d b Hd. rewrite K6 by done. split; intros (E & Hb & Hz); (split; [done|]); (split; [|done]); [lia|].
    destruct (decide (b < s)); [lia|]. rewrite Hbits in Hz by lia. done.
  - destruct Hend as [->| ->]; auto.
Qed.

Lemma bounded_updated sbi R c fl fl' h' :
  balloc_ok sbi R -> valid_cpu sbi c -> bounded sbi -> nova_get_free_list sbi c = Some fl ->
  block_start fl' = block_start fl -> block_end fl' = block_end fl -> bounded (updated sbi c fl' h').
Proof.
  intros Hok Hc Hb Hget E1 E2 d gl Hd Hg. pose proof (updated_geometry sbi c fl' h') as [_ Ec En Ep _ _ _ _ _].
  unfold has_blocks in Hd. rewrite Ec, En, Ep in Hd. unfold list_start, list_end. rewrite Ec, En, Ep.
  rewrite (updated_get sbi R) in Hg by (auto; by apply has_blocks_valid). case_decide as Hdc.
  - subst d. injection Hg as <-. rewrite E1, E2. by apply Hb.
  - by apply Hb.
Qed.

(** A run of clear bits is inserted. *)
Lemma rebuilt_insert sbi R bits c s low next :
  rebuilt sbi R bits c s -> read_bit bits 0 = Some true -> s <= low < next -> next <= list_end sbi c ->
  (forall j, s <= j < low -> read_bit bits j = Some true) ->
  (forall j, low <= j < next -> read_bit bits j = Some false) ->
  next = list_end sbi c \/ read_bit bits next = Some true ->
  exists sbi' R', nova_insert_blocknode_map slab_garbage sbi c low (next - 1) = Some (0, sbi') /\
    rebuilt sbi' R' bits c next /\ same_geometry sbi sbi' /\ nodes_frame sbi sbi' /\ nvm sbi' = nvm sbi.
Proof.
  intros [K1 K2 K3 K4 K5 K6 K7] Hz0 Hl Hn Hset Hclear Hgap.
  destruct (list_range sbi R c K1 K4 K3) as (L1 & L2 & L3). pose proof (has_blocks_valid _ _ K4) as Hv.
  assert (forall b, low <= b < next -> 0 < b < num_blocks sbi /\ home sbi b = c) as Hhome.
  { intros b Hb. destruct (proj1 (L3 b) ltac:(lia)). split; [|done].
    destruct (decide (b = 0)) as [->|]; [|lia]. rewrite Hclear in Hz0 by lia. done. }
  destruct (insert_blocknode_ok sbi R c low (next - 1)) as (fl & fl' & h' & Hget & E & Hok' & Hnf & B1 & B2);
    auto; [lia|intros b Hb; apply Hhome; lia| |].
  { apply Forall_forall. intros r Hr. unfold before. simpl.
    destruct (valid_cpu_get sbi R c K1 Hv) as [gl Hgl].
    pose proof (bo_list _ _ K1 c gl Hv Hgl) as [[_ _ Hw] _ _ _ _]. rewrite Forall_forall in Hw.
    destruct (Hw r Hr) as [Hwr _].
    assert (in_ranges (range_high r) (R c)) as (_ & Hb & Hz)%K6; auto.
    { apply Exists_exists. exists r. split; [done|]. unfold in_range. lia. }
    destruct (decide (range_high r + 1 = s)) as [Es|]; [|lia].
    destruct K7 as [K7|[K7|K7]]; [|lia|].
    - assert (in_ranges (range_high r) (R c)) as (Hh & _)%K6; auto.
      { apply Exists_exists. exists r. split; [done|]. unfold in_range. lia. }
      pose proof (proj2 (L3 (range_high r)) ltac:(split; [lia|done])). lia.
    - destruct (decide (s = low)); [|lia]. subst. rewrite Hclear in K7 by lia. done. }
  exists (updated sbi c fl' h'), (set_ranges c (R c ++ [RangeNode low (next - 1)]) R).
  split; [done|]. pose proof (updated_geometry sbi c fl' h') as Hg. pose proof Hg as [_ Gc Gn Gp _ _ _ _ _].
  split; [|split_and!; auto; unfold updated; simpl; apply put_free_list_fields].
  unfold list_start, list_end, home in *.
  split; auto; unfold has_blocks, list_start, list_end, valid_cpu, home; rewrite ?Gc, ?Gn, ?Gp; auto.
  - by eapply bounded_updated.
  - lia.
  - intros d b Hd. unfold set_ranges. case_decide as Hdc.
    + subst d. unfold in_ranges. rewrite Exists_app, Exists_cons, Exists_nil.
      fold (in_ranges b (R c)). rewrite (K6 c b Hv). unfold in_range. simpl. split.
      * intros [(Hh & Hb & Hz)|[Hb|[]]]; [split_and!; auto; lia|].
        destruct (Hhome b ltac:(lia)). split_and!; auto; [lia|lia|]. apply Hclear. lia.
      * intros (Hh & Hb & Hz). destruct (decide (b < s)); [left; split_and!; auto; lia|].
        right. left. destruct (decide (b < low)); [|lia]. rewrite Hset in Hz by lia. done.
    + rewrite (K6 d b Hd). split; intros (Hh & Hb & Hz); split_and!; auto; try lia.
      destruct (decide (b < s)); [lia|]. exfalso. apply Hdc. rewrite <- Hh.
      apply (proj1 (L3 b)). lia.
Qed.

(** The lists that are still ahead. *)
Definition lists_left sbi (c : Z) : Z := if c =? SHARED_CPU then 0 else cpus sbi - c.

(** Behind the last block of a list the next one begins. *)
Lemma rebuilt_next sbi R bits c :
  rebuilt sbi R bits c (list_end sbi c) -> list_end sbi c <> num_blocks sbi ->
  exists fl, nova_get_free_list sbi (next_list sbi c) = Some fl /\
    block_start fl = list_end sbi c /\ u64 (block_end fl + 1) = list_end sbi (next_list sbi c) /\
    lists_left sbi (next_list sbi c) = lists_left sbi c - 1 /\
    rebuilt sbi R bits (next_list sbi c) (list_end sbi c).
Proof.
  intros [K1 K2 K3 K4 K5 K6 K7] Hne. destruct (bo_cpus _ _ K1) as [_ Hcp].
  destruct (bo_size _ _ K1) as (_ & _ & Hsz).
  assert (0 <= c < cpus sbi) as Hc by (destruct K4 as [?|[-> _]]; [done|];
    unfold list_end, SHARED_CPU in Hne; simpl in Hne; lia).
  assert (c <> SHARED_CPU) as Hcs by (unfold SHARED_CPU; lia).
  assert (has_blocks sbi (next_list sbi c) /\ list_start sbi (next_list sbi c) = list_end sbi c /\
          lists_left sbi (next_list sbi c) = lists_left sbi c - 1) as (Hb & Hs & Hl).
  { unfold next_list, list_start, list_end, lists_left, has_blocks in *.
    rewrite (proj2 (Z.eqb_neq c SHARED_CPU)) in * by done. destruct (Z.eqb_spec c (cpus sbi - 1)) as [E|E].
    - rewrite Z.eqb_refl. split; [right; split; [done|nia]|]. split; [f_equal; lia|lia].
    - wrap. rewrite (proj2 (Z.eqb_neq (c + 1) SHARED_CPU)) by (unfold SHARED_CPU; lia).
      split; [left; lia|]. split; [done|lia]. }
  destruct (valid_cpu_get sbi R _ K1 (has_blocks_valid _ _ Hb)) as [fl Hget].
  destruct (K2 _ _ Hb Hget) as [B1 B2]. destruct (list_range sbi R _ K1 Hb K3) as (L1 & L2 & _).
  exists fl. split; [done|]. split; [congruence|]. split; [rewrite B2; apply u64_small; lia|].
  split; [done|]. split; auto. lia.
Qed.

Lemma build_loop_ok bits : read_bit bits 0 = Some true ->
  forall fuel sbi R c s,
  rebuilt sbi R bits c s -> Z.of_nat (length bits) = num_blocks sbi ->
  num_blocks sbi - s + lists_left sbi c < Z.of_nat fuel ->
  exists sbi' R' d, build_loop slab_garbage fuel sbi bits (num_blocks sbi) 0 c s (list_end sbi c) =
      Some sbi' /\ rebuilt sbi' R' bits d (num_blocks sbi) /\
    same_geometry sbi sbi' /\ nodes_frame sbi sbi' /\ nvm sbi' = nvm sbi.
Proof.
  intros Hz0. induction fuel as [|fuel IH]; intros sbi R c s Hr Hlen Hf; pose proof Hr as [K1 K2 K3 K4 K5 _ _];
    destruct (list_range sbi R c K1 K4 K3) as (L1 & L2 & _); destruct (bo_size _ _ K1) as (_ & _ & Hsz).
  { unfold lists_left in Hf. destruct K4 as [?|[-> _]]; [|simpl in Hf; lia].
    revert Hf. case_cmp; lia. }
  destruct (find_next_zero_bit_ok bits (list_end sbi c) s) as (x & Ex & X1 & X2 & X3); [lia..|].
  cbn [build_loop]. rewrite Ex. cbn [mbind option_bind].
  destruct (Z.eqb_spec x (num_blocks sbi)) as [->|Hx].
  { exists sbi, R, c. split; [done|]. split; [|split_and!; auto with nova; by constructor].
    eapply rebuilt_skip; [exact Hr|lia|exact X2|left; lia]. }
  destruct (Z.eqb_spec x (list_end sbi c)) as [->|Hxe].
  { assert (rebuilt sbi R bits c (list_end sbi c)) as Hr'
      by (eapply rebuilt_skip; [exact Hr|lia|exact X2|by left]).
    destruct (rebuilt_next _ _ _ _ Hr' Hx) as (fl & -> & E1 & E2 & E3 & Hr2). cbn [mbind option_bind].
    rewrite E1, E2. apply (IH sbi R); auto. lia. }
  destruct (find_next_bit_ok bits (list_end sbi c) x) as (y & Ey & Y1 & Y2 & Y3); [lia..|].
  rewrite Ey. cbn [mbind option_bind].
  assert (x < y) as Hxy.
  { destruct (decide (x = y)) as [->|]; [|lia]. rewrite X3 in Y3 by lia. specialize (Y3 ltac:(lia)). done. }
  rewrite !Z.shiftl_0_r, (u64_small x), (u64_small y), (u64_small (y - 1)) by lia.
  destruct (rebuilt_insert sbi R bits c s x y Hr Hz0) as (sbi1 & R1 & -> & Hr1 & Hg1 & Hn1 & Hm1); auto; [lia|lia| |].
  { destruct (decide (y = list_end sbi c)); [by left|right]. apply Y3. lia. }
  cbn [mbind option_bind]. pose proof Hg1 as [_ Gc Gn Gp _ _ _ _ _].
  assert (forall d, list_end sbi1 d = list_end sbi d /\ lists_left sbi1 d = lists_left sbi d) as Hle
    by (intros d; unfold list_end, lists_left; by rewrite Gc, Gn, Gp).
  assert (forall sbi' : nova_sb_info, same_geometry sbi1 sbi' /\ nodes_frame sbi1 sbi' /\ nvm sbi' = nvm sbi1 ->
    same_geometry sbi sbi' /\ nodes_frame sbi sbi' /\ nvm sbi' = nvm sbi) as Htrans.
  { intros sbi' (? & ? & ?). split_and!; eauto using same_geometry_trans with nova. congruence. }
  destruct (Z.eqb_spec y (num_blocks sbi)) as [->|Hy].
  { exists sbi1, R1, c. split_and!; auto. }
  destruct (Z.eqb_spec y (list_end sbi c)) as [->|Hye].
  - rewrite <- (proj1 (Hle c)) in Hr1, Hy. rewrite <- Gn in Hy.
    destruct (rebuilt_next _ _ _ _ Hr1 Hy) as (fl & -> & E1 & E2 & E3 & Hr2). cbn [mbind option_bind].
    rewrite E1, E2, <- Gn. destruct (IH sbi1 R1 _ _ Hr2) as (sbi' & R' & d & E & Hr' & Hrest).
    { congruence. }
    { rewrite Gn, E3, (proj1 (Hle c)), (proj2 (Hle c)). lia. }
    exists sbi', R', d. split; [done|]. split; [done|]. by apply Htrans.
  - rewrite <- (proj1 (Hle c)), <- Gn. destruct (IH sbi1 R1 c y Hr1) as (sbi' & R' & d & E & Hr' & Hrest).
    { congruence. }
    { rewrite Gn, (proj2 (Hle c)). lia. }
    exists sbi', R', d. split; [done|]. split; [done|]. by apply Htrans.
Qed.

(** ** The whole *)

(** The state [nova_init_blockmap] leaves before a recovery: bounds, but no nodes. *)
Record blank sbi (i : Z) : Prop := {
  bk_cpus : cpus sbi = Z.of_nat (length (free_lists sbi)) /\ 0 < cpus sbi <= 64;
  bk_zero : Forall zeroed (free_lists sbi) /\ zeroed (shared_free_list sbi);
  bk_bounds c fl : 0 <= c < i -> nova_get_free_list sbi c = Some fl ->
    block_start fl = per_list_blocks sbi * c /\ block_end fl = per_list_blocks sbi * (c + 1) - 1;
  bk_size : 0 < per_list_blocks sbi /\ num_blocks sbi < cpus sbi * (per_list_blocks sbi + 1) /\
    num_blocks sbi < 2147483648;
  bk_total : per_list_blocks sbi * cpus sbi <= num_blocks sbi;
}.

Lemma cpu_list sbi i :
  cpus sbi = Z.of_nat (length (free_lists sbi)) -> 0 <= i < cpus sbi ->
  exists fl, nova_get_free_list sbi i = Some fl /\ free_lists sbi !! Z.to_nat i = Some fl.
Proof.
  intros Hl Hi. destruct (lookup_lt_is_Some_2 (free_lists sbi) (Z.to_nat i)) as [fl Hfl]; [lia|].
  exists fl. unfold nova_get_free_list. rewrite (proj2 (Z.ltb_lt _ _)), (proj2 (Z.ltb_ge _ _)) by lia. done.
Qed.

Lemma init_lists_blank n : forall i sbi,
  blank sbi i -> 0 <= i -> i + Z.of_nat n = cpus sbi ->
  exists sbi', init_lists slab_garbage n i sbi 1 = Some (inr sbi') /\ blank sbi' (cpus sbi) /\
    same_geometry sbi sbi' /\ range_nodes sbi' = range_nodes sbi /\ nvm sbi' = nvm sbi.
Proof.
  induction n as [|n IH]; intros i sbi Hb Hi Hn; cbn [init_lists].
  { exists sbi. replace (cpus sbi) with i by lia. split_and!; auto. by constructor. }
  pose proof Hb as [[K1 Kc] [K2 K2'] K3 K4 K5].
  destruct (cpu_list sbi i K1 ltac:(lia)) as (fl & Hget & Hlk).
  unfold init_one_list. rewrite Hget. cbn [mbind option_bind Z.eqb].
  assert (0 <= per_list_blocks sbi * i /\ per_list_blocks sbi * i + per_list_blocks sbi <= num_blocks sbi) as Hr by nia.
  rewrite (u64_small (per_list_blocks sbi * i)) by lia. rewrite u64_small by lia.
  set (fl' := with_block_end _ _). set (sbi1 := put_free_list sbi i fl').
  destruct (put_free_list_fields sbi i fl') as (Hg & Hrn & Hm & Hlen). fold sbi1 in Hg, Hrn, Hm, Hlen.
  pose proof Hg as [_ Gc Gn Gp _ _ _ _ _].
  assert (sbi1 = with_free_lists (<[Z.to_nat i := fl']> (free_lists sbi)) sbi) as E1.
  { unfold sbi1, put_free_list. by rewrite (proj2 (Z.ltb_lt _ _)) by lia. }
  assert (blank sbi1 (i + 1)) as Hb1.
  { split; rewrite ?Gc, ?Gn, ?Gp, ?Hlen; auto.
    - rewrite E1. simpl. split; [|done]. rewrite Forall_forall in K2. apply Forall_insert; [by apply Forall_forall|].
      destruct (K2 fl ltac:(by eapply list_elem_of_lookup_2)). by split.
    - intros c gl Hc. unfold nova_get_free_list. rewrite E1. simpl.
      rewrite (proj2 (Z.ltb_lt _ _)), (proj2 (Z.ltb_ge _ _)) by lia.
      destruct (decide (c = i)) as [->|Hne].
      + rewrite list_lookup_insert_eq by lia. intros [= <-]. simpl. split; [done|lia].
      + rewrite list_lookup_insert_ne by lia. intros Hgl. apply K3; [lia|].
        unfold nova_get_free_list. rewrite (proj2 (Z.ltb_lt _ _)), (proj2 (Z.ltb_ge _ _)) by lia. done. }
  destruct (IH (i + 1) sbi1 Hb1 ltac:(lia) ltac:(lia)) as (sbi' & E & Hb' & Hg' & Hrn' & Hm').
  exists sbi'. rewrite E, <- Gc. split_and!; auto; [by eapply same_geometry_trans|congruence|congruence].
Qed.

Lemma blank_rebuilt sbi bits :
  blank sbi (cpus sbi) ->
  (per_list_blocks sbi * cpus sbi < num_blocks sbi ->
   block_start (shared_free_list sbi) = per_list_blocks sbi * cpus sbi /\
   block_end (shared_free_list sbi) = num_blocks sbi - 1) ->
  rebuilt sbi (fun _ => []) bits 0 0.
Proof.
  intros [[K1 Kc] [K2 K2'] K3 K4 K5] Hsh.
  assert (forall c fl, nova_get_free_list sbi c = Some fl -> zeroed fl) as Hz.
  { intros c fl. unfold nova_get_free_list. repeat case_cmp; [done| |by intros [= <-]].
    rewrite Forall_forall in K2. intros Hlk. apply K2. by eapply list_elem_of_lookup_2. }
  split; auto.
  - split; auto; intros.
    + apply zeroed_ok. by eapply Hz.
    + match goal with Hg : nova_get_free_list _ c = Some ?f, Hn : n ∈ inorder (block_free_tree ?f) |- _ =>
        apply Hz in Hg as [E _ _ _ _]; rewrite E in Hn; by apply not_elem_of_nil in Hn end.
    + by match goal with Hx : in_ranges _ [] |- _ => apply Exists_nil in Hx end.
  - intros c fl Hc Hget. unfold list_start, list_end, SHARED_CPU. destruct Hc as [Hc|[-> Hlt]].
    + rewrite (proj2 (Z.eqb_neq c 65536)) by lia. destruct (K3 c fl Hc Hget). split; lia.
    + simpl. unfold nova_get_free_list, SHARED_CPU in Hget. rewrite (proj2 (Z.ltb_ge _ _)) in Hget by lia.
      injection Hget as <-. destruct (Hsh Hlt). lia.
  - left. lia.
  - unfold list_start, list_end. simpl. nia.
  - intros d b _. split; [by intros ?%Exists_nil|lia].
  - left. unfold list_start. simpl. lia.
Qed.

Lemma init_blockmap_recovery sbi :
  fresh_blockmap sbi ->
  exists sbi', nova_init_blockmap slab_garbage sbi 1 = Some sbi' /\
    (forall bits, rebuilt sbi' (fun _ => []) bits 0 0) /\
    num_blocks sbi' = num_blocks sbi /\ reserved_blocks sbi' = reserved_blocks sbi /\
    cpus sbi' = cpus sbi /\ nvm sbi' = nvm sbi /\ range_nodes sbi' = range_nodes sbi.
Proof.
  intros [[Hl Hc] Hz Hs Hr Hsz]. unfold nova_init_blockmap. rewrite (proj2 (Z.eqb_neq _ _)) by lia.
  set (sbi0 := with_per_list_blocks _ _). pose proof (Z.mul_div_le (num_blocks sbi) (cpus sbi) ltac:(lia)).
  pose proof (Z.mul_succ_div_gt (num_blocks sbi) (cpus sbi) ltac:(lia)).
  assert (blank sbi0 0) as Hb by (split; simpl; auto; lia).
  destruct (init_lists_blank (Z.to_nat (cpus sbi0)) 0 sbi0 Hb) as (sbi1 & -> & Hb1 & Hg & Hrn & Hm); [lia|simpl; lia|].
  cbn [mbind option_bind]. pose proof Hg as [_ Gc Gn Gp _ _ _ _ Gr]. simpl in Gc, Gn, Gp, Gr, Hrn, Hm.
  rewrite <- (Gc : _ = cpus sbi0) in Hb1. pose proof Hb1 as [[B1 _] _ B3 _ B5].
  destruct (cpu_list sbi1 (cpus sbi1 - 1) B1 ltac:(lia)) as (fl & Hget & _). rewrite Hget. cbn [mbind option_bind].
  destruct (B3 (cpus sbi1 - 1) fl ltac:(lia) Hget) as [_ E2].
  assert (u64 (block_end fl + 1) = per_list_blocks sbi1 * cpus sbi1) as Eu by (rewrite E2; rewrite u64_small; nia).
  rewrite Eu. destruct (Z.ltb_spec (per_list_blocks sbi1 * cpus sbi1) (num_blocks sbi1)) as [Hlt|Hge].
  - eexists. split; [done|]. split_and!; auto. intros bits. apply blank_rebuilt; [|simpl; intros _; rewrite u64_small by nia; lia].
    destruct Hb1 as [K1 [K2 K2'] K3 K4 K5]. split; auto.
    + split; [done|]. destruct K2'. by split.
    + intros c gl Hcc. specialize (K3 c gl Hcc). simpl in *. unfold nova_get_free_list in *. simpl.
      rewrite (proj2 (Z.ltb_lt _ _)) in K3 |- * by lia. done.
  - eexists. split; [done|]. split_and!; auto. intros bits. apply blank_rebuilt; [done|lia].
Qed.

(** The free blocks once all bits are distributed. *)
Lemma rebuilt_free sbi R bits d b :
  rebuilt sbi R bits d (num_blocks sbi) ->
  free_block sbi R b <-> 0 <= b < num_blocks sbi /\ read_bit bits b = Some false.
Proof.
  intros [K1 _ _ _ _ K6 _]. destruct (bo_cpus _ _ K1) as [_ Hcp]. destruct (bo_size _ _ K1) as (Hp & _).
  unfold free_block. split.
  - intros (c & Hc & (_ & Hb & Hz)%K6); auto.
  - intros [Hb Hz]. exists (home sbi b). assert (valid_cpu sbi (home sbi b)) as Hv.
    { unfold valid_cpu, home. destruct (Z.leb_spec (cpus sbi) (b / per_list_blocks sbi)); [by right|left].
      split; [apply Z.div_pos; lia|done]. }
    split; [done|]. by apply K6.
Qed.

(** C28: The recovery gives the allocator back exactly the blocks nobody uses: after
    [nova_init_blockmap] and [nova_build_blocknode_map] the allocator's invariant holds, and a
    block is free iff it is behind the reserved ones and in no CPU's bitmap, be it by its own
    bit or by the one of its 2M or 1G page.  The device has a multiple of 8 blocks. *)
Theorem build_blocknode_map_exact sbi bms initsize :
  fresh_blockmap sbi -> initsize = 4096 * num_blocks sbi -> num_blocks sbi mod 8 = 0 ->
  Forall (bm_shape initsize) bms ->
  exists sbi1 sbi2 R, nova_init_blockmap slab_garbage sbi 1 = Some sbi1 /\
    nova_build_blocknode_map slab_garbage sbi1 true bms initsize = Some (0, sbi2) /\
    balloc_ok sbi2 R /\ nvm sbi2 = nvm sbi /\
    forall b, free_block sbi2 R b <->
      reserved_blocks sbi <= b < num_blocks sbi /\ existsb (fun bm => used bm b) bms = false.
Proof.
  intros Hfresh Hsize H8 Hsh. destruct (fb_cpus _ Hfresh) as [_ Hcp]. pose proof (fb_reserved _ Hfresh) as Hres.
  assert (num_blocks sbi / cpus sbi <= num_blocks sbi) as Hdiv
    by (pose proof (Z.mul_div_le (num_blocks sbi) (cpus sbi) ltac:(lia)); nia).
  destruct (init_blockmap_recovery sbi Hfresh) as (sbi1 & E1 & Hr & Gn & Gr & Gc & Gm & _).
  exists sbi1. assert (Z.shiftr initsize 15 * 8 = num_blocks sbi) as Hbits.
  { rewrite Z.shiftr_div_pow2 by lia. change (2 ^ 15) with 32768. mlia. }
  destruct (final_bits_ok initsize bms (num_blocks sbi) (reserved_blocks sbi1))
    as (bms' & final & E2 & E3 & Hlen & Hb); [lia|done|done|lia|].
  unfold nova_build_blocknode_map. cbn [negb]. change (PAGE_SHIFT + 3) with 15. rewrite E2. cbn [mbind option_bind].
  unfold new_scan_bm. cbn [bitmap]. rewrite Hbits, E3. cbn [mbind option_bind].
  set (bits' := bitmap (scan_bm_4K final)) in *. rewrite Gr in Hb.
  unfold __nova_build_blocknode_map. specialize (Hr bits'). pose proof Hr as [K1 K2 K3 K4 K5 _ _].
  destruct (valid_cpu_get sbi1 _ 0 K1 (has_blocks_valid _ _ K4)) as [fl Hget]. rewrite Hget. cbn [mbind option_bind].
  destruct (K2 0 fl K4 Hget) as [S1 S2]. destruct (list_range sbi1 _ 0 K1 K4 K3) as (L1 & L2 & _).
  rewrite S1, S2, (u64_small (list_end sbi1 0)) by (destruct (bo_size _ _ K1); lia).
  change (list_start sbi1 0) with (per_list_blocks sbi1 * 0). rewrite Z.mul_0_r, <- Gn.
  destruct (build_loop_ok bits') with (fuel := (length bits' + 66)%nat) (sbi := sbi1) (R := fun _ : Z => @nil nova_range_node) (c := 0) (s := 0)
    as (sbi2 & R & d & E4 & Hr2 & Hg & _ & Hm2); auto.
  { rewrite read_bit_set by lia. rewrite Hb. rewrite (proj2 (Z.ltb_lt 0 _)) by lia. done. }
  { by rewrite Gn. }
  { unfold lists_left. simpl. lia. }
  change (PAGE_SHIFT - 12) with 0. rewrite E4. exists sbi2, R. split; [done|]. split; [done|]. split; [apply Hr2|].
  split; [congruence|]. intros b. rewrite <- (sg_blocks _ _ Hg) in Hr2. rewrite (rebuilt_free _ _ _ _ _ Hr2).
  rewrite (sg_blocks _ _ Hg), Gn. split.
  - intros [Hbb Hz]. rewrite read_bit_set in Hz by lia. injection Hz as Hz. rewrite Hb in Hz.
    apply orb_false_iff in Hz as [Hz ->]. split; [|done].
    apply andb_false_iff in Hz as [?|?]; bool_hyps; lia.
  - intros [Hbb Hu]. split; [lia|]. rewrite read_bit_set by lia. rewrite Hb, Hu, orb_false_r. f_equal.
    apply andb_false_iff. right. apply Z.ltb_ge. lia.
Qed.
End rebuild.

(** ** Examples *)

Module BlockMapDemo.
Import RbList.RbList.

Definition garbage : nova_range_node := RangeNode 0 0.

(** A device of [n] blocks for two CPUs, with three reserved blocks. *)
Definition raw (n : Z) : nova_sb_info :=
  SbInfo 65536 n 0 3 2 [empty_inode_map; empty_inode_map] 0 [empty_free_list; empty_free_list]
    [] [] 0 empty_free_list ∅ (fun _ => 0).

Definition bm_of (initsize : Z) (marked : list nat) : scan_bitmap :=
  ScanBitmap
    (ScanBm (Z.shiftr initsize 15) (foldr (fun i bits => <[i := true]> bits)
       (replicate (Z.to_nat (Z.shiftr initsize 15 * 8)) false) marked))
    (new_scan_bm (Z.shiftr initsize 24)) (new_scan_bm (Z.shiftr initsize 33)).

(** CPU 0 has found blocks 5 and 6 in use, CPU 1 block 14. *)
Definition bms24 : list scan_bitmap := [bm_of (4096 * 24) [5; 6]%nat; bm_of (4096 * 24) [14]%nat].

Definition lows (sbi : nova_sb_info) : list (list nova_range_node) :=
  map (fun fl => omap (fun n => range_nodes sbi !! n) (inorder (block_free_tree fl))) (free_lists sbi).

Lemma demo_lists :
  lows <$> (sbi ← nova_init_blockmap garbage (raw 24) 1;
            snd <$> nova_build_blocknode_map garbage sbi true bms24 (4096 * 24)) =
  Some [[RangeNode 3 4; RangeNode 7 11]; [RangeNode 12 13; RangeNode 15 23]].
Proof. vm_compute. reflexivity. Qed.

(** With 20 blocks the map has only 16 bits, and the search goes on behind them. *)
Lemma odd_device_faults :
  (sbi ← nova_init_blockmap garbage (raw 20) 1;
   nova_build_blocknode_map garbage sbi true [bm_of (4096 * 20) []; bm_of (4096 * 20) []] (4096 * 20))
  = None.
Proof. vm_compute. reflexivity. Qed.

Lemma build_blocknode_map_exact_witness :
  exists sbi1 sbi2 R, nova_init_blockmap garbage (raw 24) 1 = Some sbi1 /\
    nova_build_blocknode_map garbage sbi1 true bms24 (4096 * 24) = Some (0, sbi2) /\
    balloc_ok sbi2 R /\ nvm sbi2 = nvm (raw 24) /\
    forall b, free_block sbi2 R b <->
      3 <= b < 24 /\ existsb (fun bm => used bm b) bms24 = false.
Proof.
  apply (build_blocknode_map_exact garbage rb_list_alloc (raw 24) bms24 (4096 * 24)).
  - split; simpl; try lia; repeat constructor; vm_compute; done.
  - reflexivity.
  - reflexivity.
  - repeat constructor; vm_compute; done.
Defined.
End BlockMapDemo.
