(* ===== verification/Shutdown.v ===== *)
(** * Saving the allocator at unmount and reading it back (bbuild.c)

    At unmount the ranges of the free lists and of the inode numbers in use are written to
    the logs of two reserved inodes; a mount that finds such a log reads the ranges back
    instead of crawling the device.  An entry of such a log is a pair of bounds of 16
    bytes, 254 in a page. *)

From S2P Require Import Prelude Layout RangeTree RbList State Balloc BallocFacts BallocSpec.
From S2P Require Import BallocInit BallocTheorems TreeEdits InodeMap LogBlocks InodeTable.
From S2P Require Import Monitor Histogram HashTable Records KnapSack Detect WriteCount Migrate.
From S2P Require Import LogPages World InodeLog FastGc BlockMap.
#[local] Open Scope word_scope.

(** ** The code *)

(** [struct nova_range_node_lowhigh] *)
Module Lh.
Definition range_low (m : memory) (p : Z) : Z := load 8 m p.
Definition range_high (m : memory) (p : Z) : Z := load 8 m (p + 8).
Definition set_range_low (m : memory) (p v : Z) : memory := store 8 m p v.
Definition set_range_high (m : memory) (p v : Z) : memory := store 8 m (p + 8) v.
Definition size : Z := 16.
End Lh.

Definition RANGENODE_PER_PAGE : Z := 254.
Definition NOVA_INODELIST1_INO : Z := 6.
Definition CPUID_MASK : Z := 18374686479671623680.

Definition get_cpuid (sbi : nova_sb_info) (blocknr : Z) : option Z :=
  if per_list_blocks sbi =? 0 then None
  else
    let cpuid := i32 (blocknr / per_list_blocks sbi) in
    Some (if cpus sbi <=? cpuid then SHARED_CPU else cpuid).

(** [nova_append_range_node_entry]: the position of the entry.  When the log is at its end
    nothing is written. *)
Definition nova_append_range_node_entry (sbi : nova_sb_info) (curr : nova_range_node) (tail cpuid : Z) :
    option (Z * nova_sb_info) :=
  let curr_p := tail in
  if (curr_p =? 0) || (is_last_entry curr_p Lh.size && (next_log_page sbi curr_p =? 0))
  then Some (curr_p, sbi)
  else
    let curr_p := if is_last_entry curr_p Lh.size then next_log_page sbi curr_p else curr_p in
    let entry := nova_get_block (virt_addr sbi) curr_p in
    let mem := Lh.set_range_low (nvm sbi) entry (RangeTree.range_low curr) in
    let mem := if negb (cpuid =? 0)
               then Lh.set_range_low mem entry (Z.lor (Lh.range_low mem entry) (u64 (Z.shiftl cpuid 56)))
               else mem in
    let mem := Lh.set_range_high mem entry (RangeTree.range_high curr) in
    Some (curr_p, with_nvm mem sbi).

Section operations.
Context `{RbTree} (slab_garbage : nova_range_node) (smp : Z) (jiffies_to_msecs : Z -> Z) (e : env).
(** What uninitialised local variables hold. *)
Context (garbage : Z).

(** The loop of [nova_save_range_nodes_to_log]: the node [temp] and its successors are
    written, erased and released; [fuel] bounds it by the nodes of the tree. *)
Fixpoint save_loop (fuel : nat) (sbi : nova_sb_info) (tree : rb_tree) (temp : option ptr)
    (temp_tail cpuid : Z) : option (Z * rb_tree * nova_sb_info) :=
  match temp, fuel with
  | None, _ => Some (temp_tail, tree, sbi)
  | Some _, O => None
  | Some n, S fuel =>
    curr ← range_nodes sbi !! n;
    res ← nova_append_range_node_entry sbi curr temp_tail cpuid;
    let '(curr_entry, sbi) := (res : Z * nova_sb_info) in
    let temp := rb_next tree n in
    let tree := rb_erase n tree in
    let sbi := with_range_nodes (nova_free_range_node n (range_nodes sbi)) sbi in
    save_loop fuel sbi tree temp (curr_entry ⊞ Lh.size) cpuid
  end.

Definition nova_save_range_nodes_to_log (sbi : nova_sb_info) (tree : rb_tree) (temp_tail cpuid : Z) :
    option (Z * rb_tree * nova_sb_info) :=
  save_loop (length (inorder tree)) sbi tree (rb_first tree) temp_tail cpuid.

Definition nova_save_free_list_blocknodes (sbi : nova_sb_info) (cpu temp_tail : Z) :
    option (Z * nova_sb_info) :=
  fl ← nova_get_free_list sbi cpu;
  res ← nova_save_range_nodes_to_log sbi (block_free_tree fl) temp_tail 0;
  let '(temp_tail, tree, sbi) := (res : Z * rb_tree * nova_sb_info) in
  Some (temp_tail, put_free_list sbi cpu (with_block_free_tree tree fl)).

(** The lists of the CPUs [i], [i+1], ... and the shared one. *)
Fixpoint save_lists (n : nat) (i : Z) (sbi : nova_sb_info) (temp_tail : Z) : option (Z * nova_sb_info) :=
  match n with
  | O => nova_save_free_list_blocknodes sbi SHARED_CPU temp_tail
  | S n =>
    res ← nova_save_free_list_blocknodes sbi i temp_tail;
    let '(temp_tail, sbi) := (res : Z * nova_sb_info) in
    save_lists n (i + 1) sbi temp_tail
  end.

(** The trees of the inode numbers. *)
Fixpoint save_maps (n : nat) (i : Z) (sbi : nova_sb_info) (temp_tail : Z) : option (Z * nova_sb_info) :=
  match n with
  | O => Some (temp_tail, sbi)
  | S n =>
    im ← nova_get_inode_map sbi i;
    res ← nova_save_range_nodes_to_log sbi (inode_inuse_tree im) temp_tail i;
    let '(temp_tail, tree, sbi) := (res : Z * rb_tree * nova_sb_info) in
    save_maps n (i + 1) (put_inode_map sbi i (with_inode_inuse_tree tree im)) temp_tail
  end.

(** The numbers of range nodes of all free lists and of all inode maps. *)
Fixpoint count_blocknodes (n : nat) (i : Z) (sbi : nova_sb_info) (num : Z) : option Z :=
  match n with
  | O => fl ← nova_get_free_list sbi SHARED_CPU; Some (num ⊞ num_blocknode fl)
  | S n => fl ← nova_get_free_list sbi i; count_blocknodes n (i + 1) sbi (num ⊞ num_blocknode fl)
  end.

Definition count_inodenodes (sbi : nova_sb_info) : Z :=
  fold_left (fun num im => num ⊞ num_range_node_inode im) (inode_maps sbi) 0.

(** The pages a number of entries needs. *)
Definition rangenode_pages (num : Z) : Z :=
  let num_pages := num / RANGENODE_PER_PAGE in
  if negb (num mod RANGENODE_PER_PAGE =? 0) then num_pages ⊞ 1 else num_pages.

(** [super->s_wtime = get_seconds()], at offset 52 of the super block. *)
Definition set_s_wtime (m : memory) (virt_addr seconds : Z) : memory := store 4 m (virt_addr + 52) seconds.

(** The end of [nova_save_blocknode_mappings_to_log], when the pages from [new_block] on are
    taken: the head of the log, the lists, the tail.  The device is mapped at
    [nova_base_address]. *)
Definition record_blocknodes (nova_base_address pi new_block : Z) : fs unit :=
  pi ← reget_inode smp pi;
  _ ← put_nvm (fun mem => Pi.set_log_head mem pi new_block);
  _ ← count_inode jiffies_to_msecs e pi;
  sbi ← get_sbi;
  temp_tail ← on_sbi (fun sbi' => save_lists (Z.to_nat (cpus sbi)) 0 sbi' new_block);
  _ ← nova_update_tail_wwb smp e nova_base_address pi temp_tail;
  count_inode jiffies_to_msecs e pi.

(** [seconds] is the time. *)
Definition nova_save_blocknode_mappings_to_log (nova_base_address seconds : Z) : fs unit :=
  sbi ← get_sbi;
  pi ← fs_deref (nova_get_inode_by_ino (virt_addr sbi) NOVA_BLOCKNODE_INO);
  num_blocknode ← fs_deref (count_blocknodes (Z.to_nat (cpus sbi)) 0 sbi 0);
  let num_pages := rangenode_pages num_blocknode in
  r ← on_sbi (fun sbi => nova_allocate_inode_log_pages smp sbi pi num_pages garbage 0);
  let '(allocated, new_block) := (r : Z * Z) in
  if negb (u64 allocated =? num_pages) then mret tt
  else
    _ ← put_nvm (fun mem => set_s_wtime mem (virt_addr sbi) seconds);
    record_blocknodes nova_base_address pi new_block.

Definition nova_save_inode_list_to_log (nova_base_address : Z) : fs unit :=
  sbi ← get_sbi;
  pi ← fs_deref (nova_get_inode_by_ino (virt_addr sbi) NOVA_INODELIST1_INO);
  let num_nodes := count_inodenodes sbi in
  let num_blocks := rangenode_pages num_nodes in
  r ← on_sbi (fun sbi => nova_allocate_inode_log_pages smp sbi pi num_blocks garbage garbage);
  let '(allocated, new_block) := (r : Z * Z) in
  if negb (u64 allocated =? num_blocks) then mret tt
  else
    pi ← reget_inode smp pi;
    _ ← put_nvm (fun mem => Pi.set_log_head mem pi new_block);
    temp_tail ← on_sbi (fun sbi => save_maps (Z.to_nat (cpus sbi)) 0 sbi new_block);
    _ ← nova_update_tail_wwb smp e nova_base_address pi temp_tail;
    count_migrate smp jiffies_to_msecs e garbage pi.

(** ** Reading back *)

(** [nova_destroy_range_node_tree] *)
Fixpoint destroy_loop (fuel : nat) (h : node_heap) (tree : rb_tree) (temp : option ptr) :
    option (node_heap * rb_tree) :=
  match temp, fuel with
  | None, _ => Some (h, tree)
  | Some _, O => None
  | Some n, S fuel =>
    destroy_loop fuel (nova_free_range_node n h) (rb_erase n tree) (rb_next tree n)
  end.

Definition nova_destroy_range_node_tree (h : node_heap) (tree : rb_tree) : option (node_heap * rb_tree) :=
  destroy_loop (length (inorder tree)) h tree (rb_first tree).

Definition nova_destroy_blocknode_tree (sbi : nova_sb_info) (cpu : Z) : option nova_sb_info :=
  fl ← nova_get_free_list sbi cpu;
  res ← nova_destroy_range_node_tree (range_nodes sbi) (block_free_tree fl);
  let '(h, tree) := (res : node_heap * rb_tree) in
  Some (with_range_nodes h (put_free_list sbi cpu (with_block_free_tree tree fl))).

Fixpoint destroy_lists (n : nat) (i : Z) (sbi : nova_sb_info) : option nova_sb_info :=
  match n with
  | O => nova_destroy_blocknode_tree sbi SHARED_CPU
  | S n => sbi ← nova_destroy_blocknode_tree sbi i; destroy_lists n (i + 1) sbi
  end.

Definition nova_destroy_blocknode_trees (sbi : nova_sb_info) : option nova_sb_info :=
  destroy_lists (Z.to_nat (cpus sbi)) 0 sbi.

Fixpoint destroy_maps (n : nat) (i : Z) (sbi : nova_sb_info) : option nova_sb_info :=
  match n with
  | O => Some sbi
  | S n =>
    im ← nova_get_inode_map sbi i;
    res ← nova_destroy_range_node_tree (range_nodes sbi) (inode_inuse_tree im);
    let '(h, tree) := (res : node_heap * rb_tree) in
    destroy_maps n (i + 1) (with_range_nodes h (put_inode_map sbi i (with_inode_inuse_tree tree im)))
  end.

Definition nova_destroy_inode_trees (sbi : nova_sb_info) : option nova_sb_info :=
  destroy_maps (Z.to_nat (cpus sbi)) 0 sbi.

(** One entry of the log becomes a node of a free list: the insertion's result, which ends
    the loop unless it is 0. *)
Definition restore_entry (sbi : nova_sb_info) (entry : Z) : option (Z * nova_sb_info) :=
  match nova_alloc_range_node (range_nodes sbi) slab_garbage with
  | None => None (* NOVA_ASSERT only warns; the next store faults *)
  | Some (blknode, h) =>
    let low := Lh.range_low (nvm sbi) entry in
    let high := Lh.range_high (nvm sbi) entry in
    let h := <[blknode := RangeNode low high]> h in
    cpuid ← get_cpuid sbi low;
    fl ← nova_get_free_list sbi cpuid;
    ins ← nova_insert_blocktree h (block_free_tree fl) blknode;
    let '(ret, tree) := (ins : Z * rb_tree) in
    if negb (ret =? 0) then
      sbi ← nova_destroy_blocknode_trees (with_range_nodes (nova_free_range_node blknode h) sbi);
      Some (ret, sbi)
    else
      let fl := with_block_free_tree tree fl in
      let fl := with_num_blocknode (num_blocknode fl ⊞ 1) fl in
      let fl := if num_blocknode fl =? 1 then with_first_node (Some blknode) fl else fl in
      let fl := with_num_free_blocks (num_free_blocks fl ⊞ u64 (high - low + 1)) fl in
      Some (0, with_range_nodes h (put_free_list sbi cpuid fl))
  end.

(** The loop of [nova_init_blockmap_from_inode] from [curr_p] to the tail of the log of
    [pi]; [fuel] bounds it by the entries. *)
Fixpoint restore_loop (fuel : nat) (sbi : nova_sb_info) (pi curr_p ret : Z) : option (Z * nova_sb_info) :=
  if curr_p =? Pi.log_tail (nvm sbi) pi then Some (ret, sbi)
  else
    match fuel with
    | O => None
    | S fuel =>
      let curr_p := if is_last_entry curr_p Lh.size then next_log_page sbi curr_p else curr_p in
      if curr_p =? 0 then Some (- EINVAL, sbi)
      else
        res ← restore_entry sbi (nova_get_block (virt_addr sbi) curr_p);
        let '(ret, sbi) := (res : Z * nova_sb_info) in
        if negb (ret =? 0) then Some (ret, sbi)
        else restore_loop fuel sbi pi (curr_p ⊞ Lh.size) ret
    end.

(** [nova_free_inode_log] *)
Definition free_inode_log (pi : Z) : fs unit := fun w =>
  match nova_free_inode_log slab_garbage smp jiffies_to_msecs (w_sbi w) (w_mon w) e pi with
  | Some (sbi, m) => Some (tt, World sbi m (w_sih w))
  | None => None
  end.

Definition nova_init_blockmap_from_inode : fs Z :=
  sbi ← get_sbi;
  pi ← fs_deref (nova_get_inode_by_ino (virt_addr sbi) NOVA_BLOCKNODE_INO);
  let curr_p := Pi.log_head (nvm sbi) pi in
  if curr_p =? 0 then mret (- EINVAL)
  else
    ret ← on_sbi (fun sbi => restore_loop (Z.to_nat (256 * num_blocks sbi)) sbi pi curr_p 0);
    _ ← free_inode_log pi;
    mret ret.

(** One entry of the log of the inode numbers: whether the loop goes on, the value of [ret],
    which an invalid CPU leaves as it was, and the state. *)
Definition restore_inode_entry (sbi : nova_sb_info) (entry ret : Z) :
    option (bool * Z * nova_sb_info) :=
  match nova_alloc_range_node (range_nodes sbi) slab_garbage with
  | None => None (* NOVA_ASSERT only warns; the next store faults *)
  | Some (range_node, h) =>
    let low := Lh.range_low (nvm sbi) entry in
    let high := Lh.range_high (nvm sbi) entry in
    let cpuid := Z.shiftr (Z.land low CPUID_MASK) 56 in
    if cpus sbi <=? cpuid then
      sbi ← nova_destroy_inode_trees (with_range_nodes (nova_free_range_node range_node h) sbi);
      Some (false, ret, sbi)
    else
      let low := Z.land low (u64 (Z.lnot CPUID_MASK)) in
      let h := <[range_node := RangeNode low high]> h in
      res ← nova_insert_inodetree (with_range_nodes h sbi) range_node cpuid;
      let '(ret, sbi) := (res : Z * nova_sb_info) in
      if negb (ret =? 0) then
        sbi ← nova_destroy_inode_trees
                (with_range_nodes (nova_free_range_node range_node (range_nodes sbi)) sbi);
        Some (false, ret, sbi)
      else
        let sbi := with_s_inodes_used_count (s_inodes_used_count sbi ⊞ u64 (high - low + 1)) sbi in
        im ← nova_get_inode_map sbi cpuid;
        let im := with_num_range_node_inode (num_range_node_inode im ⊞ 1) im in
        let im := match first_inode_range im with
                  | None => with_first_inode_range (Some range_node) im
                  | Some _ => im
                  end in
        Some (true, ret, put_inode_map sbi cpuid im)
  end.

(** The loop of [nova_init_inode_list_from_inode]. *)
Fixpoint restore_inodes_loop (fuel : nat) (sbi : nova_sb_info) (pi curr_p ret : Z) :
    option (Z * nova_sb_info) :=
  if curr_p =? Pi.log_tail (nvm sbi) pi then Some (ret, sbi)
  else
    match fuel with
    | O => None
    | S fuel =>
      let curr_p := if is_last_entry curr_p Lh.size then next_log_page sbi curr_p else curr_p in
      if curr_p =? 0 then None (* NOVA_ASSERT only warns; the entry is read through NULL *)
      else
        res ← restore_inode_entry sbi (nova_get_block (virt_addr sbi) curr_p) ret;
        let '(continue, ret, sbi) := (res : bool * Z * nova_sb_info) in
        if (continue : bool) then restore_inodes_loop fuel sbi pi (curr_p ⊞ Lh.size) ret
        else Some (ret, sbi)
    end.

Definition nova_init_inode_list_from_inode : fs Z :=
  sbi ← get_sbi;
  pi ← fs_deref (nova_get_inode_by_ino (virt_addr sbi) NOVA_INODELIST1_INO);
  _ ← on_sbi (fun sbi => Some (tt, with_s_inodes_used_count 0 sbi));
  let curr_p := Pi.log_head (nvm sbi) pi in
  if curr_p =? 0 then mret (- EINVAL)
  else
    ret ← on_sbi (fun sbi => restore_inodes_loop (Z.to_nat (256 * num_blocks sbi)) sbi pi curr_p garbage);
    _ ← free_inode_log pi;
    mret ret.

Definition nova_can_skip_full_scan : fs bool :=
  sbi ← get_sbi;
  pi ← fs_deref (nova_get_inode_by_ino (virt_addr sbi) NOVA_BLOCKNODE_INO);
  if (Pi.log_head (nvm sbi) pi =? 0) || (Pi.log_tail (nvm sbi) pi =? 0) then mret false
  else
    ret ← nova_init_blockmap_from_inode;
    if negb (ret =? 0) then mret false
    else
      ret ← nova_init_inode_list_from_inode;
      if negb (ret =? 0) then
        _ ← on_sbi (fun sbi => sbi ← nova_destroy_blocknode_trees sbi; Some (tt, sbi));
        mret false
      else mret true.
End operations.

(** ** The layout of a log of ranges *)

(** The position of entry [k] in the pages [bs], and the tail of a log of [k] entries. *)
Definition slot (bs : list Z) (k : nat) : option Z :=
  b ← bs !! (k / 254)%nat; Some (4096 * b + 16 * Z.of_nat (k mod 254)).

Definition tail_slot (bs : list Z) (k : nat) : Z :=
  match k with
  | O => chain_head bs
  | S k => match slot bs k with Some p => p + 16 | None => 0 end
  end.

(** The pages of a log in the device, linked. *)
Record log_pages_ok (sbi : nova_sb_info) (bs : list Z) : Prop := {
  lp_mapped : mapped sbi /\ virt_addr sbi mod 4096 = 0;
  lp_size : num_blocks sbi < 2147483648;
  lp_blocks b : b ∈ bs -> 0 < b < num_blocks sbi;
  lp_nodup : NoDup bs;
  lp_chain : log_chain (virt_addr sbi) (nvm sbi) bs;
}.

(** The bytes of the entries of the pages. *)
Definition entry_area (va : Z) (bs : list Z) (a : Z) : Prop :=
  exists b, b ∈ bs /\ va + 4096 * b <= a < va + 4096 * b + LAST_ENTRY.

Lemma log_pages_frame sbi sbi' bs :
  log_pages_ok sbi bs -> virt_addr sbi' = virt_addr sbi -> num_blocks sbi' = num_blocks sbi ->
  (forall a, (exists b, b ∈ bs /\ tail_word (virt_addr sbi) b a) -> nvm sbi' a = nvm sbi a) ->
  log_pages_ok sbi' bs.
Proof.
  intros [Hm Hs Hb Hn Hc] Ev En Hsame. unfold mapped in Hm.
  split; unfold mapped; rewrite ?Ev, ?En; auto.
  eapply log_chain_frame; [exact Hc|]. intros b a Hin Ha. apply Hsame. by exists b.
Qed.

Lemma slot_inv bs k p :
  slot bs k = Some p ->
  exists b r, bs !! (k / 254)%nat = Some b /\ p = 4096 * b + 16 * r /\ r = Z.of_nat (k mod 254) /\ 0 <= r < 254.
Proof.
  unfold slot. destruct (bs !! (k / 254)%nat) as [b|]; [|done]. simpl. intros [= <-].
  exists b, (Z.of_nat (k mod 254)). pose proof (Nat.mod_upper_bound k 254). split_and!; auto; lia.
Qed.

Lemma slot_some bs k : (k < 254 * length bs)%nat -> is_Some (slot bs k).
Proof.
  intros Hk. unfold slot. destruct (lookup_lt_is_Some_2 bs (k / 254)) as [b Hb].
  { apply Nat.Div0.div_lt_upper_bound. lia. }
  rewrite Hb. simpl. eauto.
Qed.

(** Which of the two cases of the code applies to a tail, and the position it gives. *)
Lemma next_slot sbi bs k p :
  log_pages_ok sbi bs -> slot bs k = Some p ->
  let t := tail_slot bs k in
  0 < t /\ (is_last_entry t Lh.size = true -> next_log_page sbi t <> 0) /\
  (if is_last_entry t Lh.size then next_log_page sbi t else t) = p.
Proof.
  intros [[[Hv Hm] Hal] Hs Hb _ Hc] Hp. destruct (slot_inv _ _ _ Hp) as (b & r & Eb & -> & Er & Hr).
  pose proof (Hb b ltac:(by eapply list_elem_of_lookup_2)) as Hbb.
  unfold is_last_entry, Lh.size, LAST_ENTRY. destruct k as [|k]; cbn [tail_slot].
  { change ((0 / 254)%nat) with 0%nat in Eb. change (0 mod 254)%nat with 0%nat in Er.
    destruct bs as [|b0 bs]; [done|]. injection Eb as ->. cbn [chain_head head].
    rewrite ENTRY_LOC_alt, (u32_small ((4096 * b) mod 4096 + 16)) by mlia.
    replace ((4096 * b) mod 4096) with 0 by mlia. change (4064 <? 0 + 16) with false. split_and!; [lia|done|lia]. }
  destruct (slot bs k) as [q|] eqn:Eq.
  2:{ exfalso. unfold slot in Eq. destruct (bs !! (k / 254)%nat) eqn:E; [done|]. apply lookup_ge_None in E.
      apply lookup_lt_Some in Eb. pose proof (Nat.Div0.div_le_mono k (S k) 254). lia. }
  destruct (slot_inv _ _ _ Eq) as (c & s & Ec & -> & Es & Hsr).
  pose proof (Hb c ltac:(by eapply list_elem_of_lookup_2)) as Hcb.
  pose proof (Nat.div_mod k 254 ltac:(lia)) as Dk. pose proof (Nat.div_mod (S k) 254 ltac:(lia)) as Dk'.
  pose proof (Nat.mod_upper_bound (S k) 254 ltac:(lia)) as Bk.
  rewrite ENTRY_LOC_alt. replace ((4096 * c + 16 * s + 16) mod 4096) with (16 * s + 16) by mlia.
  rewrite u32_small by lia. destruct (decide (s = 253)) as [->|Hne].
  - assert ((S k / 254 = S (k / 254))%nat /\ (S k mod 254 = 0)%nat) as [Ed Em] by lia.
    rewrite Ed in Eb. rewrite Em in Er. subst r. rewrite (proj2 (Z.ltb_lt 4064 _)) by lia.
    assert (next_log_page sbi (4096 * c + 16 * 253 + 16) = 4096 * b) as En.
    { unfold next_log_page, nova_get_block. rewrite (proj2 (Z.eqb_neq _ 0)), u64_small by lia.
      rewrite BLOCK_OFF_alt. replace (virt_addr sbi + (4096 * c + 16 * 253 + 16) -
        (virt_addr sbi + (4096 * c + 16 * 253 + 16)) mod 4096) with (virt_addr sbi + 4096 * c) by mlia.
      rewrite (Hc _ _ Ec). unfold next_in. by rewrite Eb. }
    rewrite En. split_and!; lia.
  - assert ((S k / 254 = k / 254)%nat /\ (S k mod 254 = S (k mod 254))%nat) as [Ed Em] by lia.
    rewrite Ed in Eb. assert (b = c) as -> by congruence. rewrite (proj2 (Z.ltb_ge 4064 _)) by lia.
    split_and!; [lia|done|lia].
Qed.

Lemma slot_disjoint bs i j p q :
  NoDup bs -> slot bs i = Some p -> slot bs j = Some q -> i <> j -> p + 16 <= q \/ q + 16 <= p.
Proof.
  intros Hnd Hp Hq Hne. destruct (slot_inv _ _ _ Hp) as (b & r & Eb & -> & Er & Hr).
  destruct (slot_inv _ _ _ Hq) as (c & s & Ec & -> & Es & Hs).
  destruct (decide (b = c)) as [->|]; [|lia].
  pose proof (NoDup_lookup _ _ _ _ Hnd Eb Ec) as Ed.
  pose proof (Nat.div_mod i 254 ltac:(lia)). pose proof (Nat.div_mod j 254 ltac:(lia)).
  assert (r <> s); [|lia]. intros ->. apply Hne. lia.
Qed.

(** The entry at an address. *)
Definition range_at (m : memory) (p : Z) : nova_range_node :=
  RangeNode (Lh.range_low m p) (Lh.range_high m p).

Definition range_fits (r : nova_range_node) : Prop :=
  0 <= RangeTree.range_low r < 18446744073709551616 /\ 0 <= RangeTree.range_high r < 18446744073709551616.

(** The entries from number [k] on hold the ranges [rs]. *)
Definition logged (va : Z) (m : memory) (bs : list Z) (k : nat) (rs : list nova_range_node) : Prop :=
  forall i r, rs !! i = Some r -> exists p, slot bs (k + i)%nat = Some p /\ range_at m (va + p) = r.

(** The bytes of the entries [k] to [k + n - 1]. *)
Definition slot_bytes (va : Z) (bs : list Z) (k n : nat) (a : Z) : Prop :=
  exists i p, (k <= i < k + n)%nat /\ slot bs i = Some p /\ va + p <= a < va + p + 16.

Lemma slot_bytes_area va bs k n a : slot_bytes va bs k n a -> entry_area va bs a.
Proof.
  intros (i & p & _ & Hp & Ha). destruct (slot_inv _ _ _ Hp) as (b & r & Eb & -> & _ & Hr).
  exists b. split; [by eapply list_elem_of_lookup_2|]. unfold LAST_ENTRY. lia.
Qed.

Lemma logged_frame va m m' bs k rs :
  logged va m bs k rs -> (forall a, slot_bytes va bs k (length rs) a -> m' a = m a) ->
  logged va m' bs k rs.
Proof.
  intros Hl Hm i r Hi. destruct (Hl i r Hi) as (p & Hp & Hr). exists p. split; [done|].
  rewrite <- Hr. unfold range_at, Lh.range_low, Lh.range_high.
  apply lookup_lt_Some in Hi.
  f_equal; apply load_ext; intros a Ha; apply Hm; exists (k + i)%nat, p; (split_and!; [lia|lia|done|lia|lia]).
Qed.

Lemma logged_app va m bs k rs1 rs2 :
  logged va m bs k rs1 -> logged va m bs (k + length rs1) rs2 -> logged va m bs k (rs1 ++ rs2).
Proof.
  intros H1 H2 i r Hi. apply lookup_app_Some in Hi as [Hi|[Hge Hi]]; [by apply H1|].
  destruct (H2 _ _ Hi) as (p & Hp & Hr). exists p. split; [|done]. rewrite <- Hp. f_equal. lia.
Qed.

Lemma append_entry_ok sbi bs k p r :
  log_pages_ok sbi bs -> slot bs k = Some p -> range_fits r ->
  exists m, nova_append_range_node_entry sbi r (tail_slot bs k) 0 = Some (p, with_nvm m sbi) /\
    range_at m (virt_addr sbi + p) = r /\ tail_slot bs (S k) = p ⊞ Lh.size /\
    (forall a, ~ slot_bytes (virt_addr sbi) bs k 1 a -> m a = nvm sbi a).
Proof.
  intros Hok Hp [H1 H2]. pose proof (next_slot sbi bs k p Hok Hp) as (Ht & Hnext & Hpos).
  destruct (slot_inv _ _ _ Hp) as (b & q & Eb & Ep & _ & Hq).
  pose proof (lp_blocks _ _ Hok b ltac:(by eapply list_elem_of_lookup_2)) as Hb.
  destruct (lp_mapped _ _ Hok) as [[Hv Hm] _]. pose proof (lp_size _ _ Hok) as Hs.
  unfold nova_append_range_node_entry. rewrite (proj2 (Z.eqb_neq (tail_slot bs k) 0)) by lia. cbn [orb].
  assert (is_last_entry (tail_slot bs k) Lh.size && (next_log_page sbi (tail_slot bs k) =? 0) = false) as ->.
  { destruct (is_last_entry _ _); [|done]. apply Z.eqb_neq. by apply Hnext. }
  rewrite Hpos. unfold nova_get_block. rewrite (proj2 (Z.eqb_neq p 0)), (u64_small (virt_addr sbi + p)) by lia.
  cbn [Z.eqb negb]. eexists. split; [done|]. split; [|split].
  - unfold range_at, Lh.range_low, Lh.range_high, Lh.set_range_low, Lh.set_range_high.
    rewrite load_store_ne by lia. rewrite !load8_store8 by done. by destruct r.
  - cbn [tail_slot]. rewrite Hp. unfold Lh.size. by rewrite u64_small by lia.
  - intros a Ha. unfold Lh.set_range_low, Lh.set_range_high. rewrite !store_disjoint; [done|..];
      destruct (decide (virt_addr sbi + p <= a < virt_addr sbi + p + 16)); try lia;
      exfalso; apply Ha; exists k, p; (split_and!; [lia|lia|done|lia|lia]).
Qed.

Lemma entry_area_chain va bs (m m' : memory) sbi :
  log_pages_ok sbi bs -> va = virt_addr sbi -> m = nvm sbi ->
  (forall a, ~ entry_area va bs a -> m' a = m a) -> log_pages_ok (with_nvm m' sbi) bs.
Proof.
  intros Hok -> -> Hm. eapply log_pages_frame; [exact Hok|done|done|]. simpl. intros a (b & Hb & Ha).
  apply Hm. intros (c & Hc & Hac). unfold tail_word, LAST_ENTRY in *.
  destruct (decide (b = c)) as [->|]; lia.
Qed.

(** ** Saving *)

Section save.
Context `{RbTreeLaws}.
Implicit Types (sbi : nova_sb_info) (bs : list Z) (rs : list nova_range_node).

(** The entries [k], [k+1], ... of the log hold [rs], and the nodes [ns] are released;
    nothing else changed. *)
Record saved sbi bs (k : nat) (ns : list ptr) rs (h : node_heap) (m : memory) : Prop := {
  sv_logged : logged (virt_addr sbi) m bs k rs;
  sv_same a : ~ slot_bytes (virt_addr sbi) bs k (length rs) a -> m a = nvm sbi a;
  sv_heap n : h !! n = if decide (n ∈ ns) then None else range_nodes sbi !! n;
}.

Lemma slot_bytes_weaken va bs k n k' n' a :
  slot_bytes va bs k' n' a -> (k <= k')%nat -> (k' + n' <= k + n)%nat -> slot_bytes va bs k n a.
Proof. intros (i & p & Hi & Hp & Ha) H1 H2. exists i, p. split_and!; auto; lia. Qed.

Lemma slot_bytes_disjoint va bs k n k' n' a :
  NoDup bs -> slot_bytes va bs k n a -> (k + n <= k' \/ k' + n' <= k)%nat -> ~ slot_bytes va bs k' n' a.
Proof.
  intros Hnd (i & p & Hi & Hp & Ha) Hd (j & q & Hj & Hq & Ha').
  destruct (slot_disjoint bs i j p q Hnd Hp Hq ltac:(lia)); lia.
Qed.

Lemma save_loop_ok rs : forall fuel sbi bs tree ns k,
  log_pages_ok sbi bs -> inorder tree = ns -> NoDup ns -> holds (range_nodes sbi) ns rs ->
  Forall range_fits rs -> (k + length rs <= 254 * length bs)%nat -> (length ns <= fuel)%nat ->
  exists tree' h m, save_loop fuel sbi tree (head ns) (tail_slot bs k) 0 =
      Some (tail_slot bs (k + length rs), tree', with_range_nodes h (with_nvm m sbi)) /\
    inorder tree' = [] /\ saved sbi bs k ns rs h m.
Proof.
  induction rs as [|r rs IH]; intros fuel sbi bs tree ns k Hok E1 Hnd Hh Hfit Hk Hf.
  { apply Forall2_nil_inv_r in Hh as ->. exists tree, (range_nodes sbi), (nvm sbi). rewrite Nat.add_0_r.
    split; [by destruct fuel, sbi|]. split; [done|]. split; [|done|].
    - intros i r Hi. done.
    - intros n. by rewrite decide_False by (by intros ?%elem_of_nil). }
  apply Forall2_cons_inv_r in Hh as (n & ns' & Hn & Hh' & ->).
  simpl in Hf. destruct fuel as [|fuel]; [lia|].
  apply Forall_cons in Hfit as [Hr Hfit]. simpl in Hk.
  destruct (slot_some bs k ltac:(lia)) as [p Hp].
  destruct (append_entry_ok sbi bs k p r Hok Hp Hr) as (m1 & Ea & Hat & Htail & Hm1).
  cbn [save_loop head]. rewrite Hn. cbn [mbind option_bind]. rewrite Ea. cbn [mbind option_bind].
  rewrite <- Htail.
  assert (rb_next tree n = head ns') as ->.
  { apply (rb_next_inorder tree [] n ns'); [by rewrite E1|done]. }
  assert (inorder (rb_erase n tree) = ns') as Er.
  { apply (rb_erase_inorder tree [] n ns'); [by rewrite E1|done]. }
  apply NoDup_cons in Hnd as [Hnin Hnd].
  set (sbi1 := with_range_nodes _ _).
  assert (log_pages_ok sbi1 bs) as Hok1.
  { assert (log_pages_ok (with_nvm m1 sbi) bs) as [P1 P2 P3 P4 P5]; [|by split].
    eapply entry_area_chain; [exact Hok|done|done|]. intros a Ha. apply Hm1.
    intros Hb. by apply Ha, (slot_bytes_area _ _ _ _ _ Hb). }
  destruct (IH fuel sbi1 bs (rb_erase n tree) ns' (S k)) as (tree' & h & m & E & Hin & [V1 V2 V3]); auto; [|lia|lia|].
  { eapply holds_frame; [exact Hh'|]. intros x Hx. simpl. unfold nova_free_range_node.
    apply lookup_delete_ne. by intros ->. }
  exists tree', h, m. replace (k + length (r :: rs))%nat with (S k + length rs)%nat by (simpl; lia).
  split; [exact E|]. split; [done|]. cbn [virt_addr nvm range_nodes sbi1 with_range_nodes with_nvm] in V1, V2, V3.
  split.
  - change (r :: rs) with ([r] ++ rs). apply logged_app.
    + apply (logged_frame _ m1).
      * intros [|i] r' Hi; [|done]. injection Hi as <-. exists p. by rewrite Nat.add_0_r.
      * intros a Ha. apply V2. eapply slot_bytes_disjoint; [apply Hok|exact Ha|simpl; lia].
    + replace (k + length [r])%nat with (S k) by (simpl; lia). exact V1.
  - intros a Ha. rewrite V2, Hm1; [done| |]; intros Hb; apply Ha; eapply slot_bytes_weaken; eauto; simpl; lia.
  - intros x. rewrite V3. unfold nova_free_range_node.
    destruct (decide (x ∈ ns')), (decide (x ∈ n :: ns')) as [Hin'|Hin']; try done; [set_solver| |].
    + apply elem_of_cons in Hin' as [->|?]; [|done]. apply lookup_delete_eq.
    + apply lookup_delete_ne. set_solver.
Qed.

(** The ranges in the order in which the lists [i], [i+1], ... and the shared one are
    saved. *)
Fixpoint all_ranges (R : Z -> list nova_range_node) (n : nat) (i : Z) : list nova_range_node :=
  match n with
  | O => R SHARED_CPU
  | S n => R i ++ all_ranges R n (i + 1)
  end.

Lemma all_ranges_length R k n : forall i,
  (forall c, i <= c < i + Z.of_nat n \/ c = SHARED_CPU -> (length (R c) <= k)%nat) ->
  (length (all_ranges R n i) <= k * S n)%nat.
Proof.
  induction n as [|n IH]; intros i Hk; cbn [all_ranges].
  { pose proof (Hk SHARED_CPU ltac:(by right)). lia. }
  rewrite length_app. pose proof (Hk i ltac:(left; lia)).
  assert (length (all_ranges R n (i + 1)) <= k * S n)%nat by (apply IH; intros c Hc; apply Hk; lia). lia.
Qed.

(** The ranges of an allocator whose lists have at most [k] nodes each. *)
Lemma few_ranges sbi R k :
  balloc_ok sbi R ->
  forallb (fun fl => num_blocknode fl <=? Z.of_nat k) (shared_free_list sbi :: free_lists sbi) = true ->
  (length (all_ranges R (Z.to_nat (cpus sbi)) 0) <= k * S (Z.to_nat (cpus sbi)))%nat.
Proof.
  intros Hok Hall. apply all_ranges_length. intros c Hc.
  assert (valid_cpu sbi c) as Hv by (unfold valid_cpu; lia).
  destruct (valid_cpu_get sbi R c Hok Hv) as [fl Hfl].
  pose proof (fl_nodes _ _ _ (bo_list _ _ Hok c fl Hv Hfl)) as Hn.
  assert (fl ∈ shared_free_list sbi :: free_lists sbi) as Hin.
  { unfold nova_get_free_list in Hfl. destruct (c <? cpus sbi); [destruct (c <? 0); [done|]|].
    - right. by eapply list_elem_of_lookup_2.
    - injection Hfl as <-. by left. }
  rewrite forallb_forall in Hall. apply list_elem_of_In in Hin. apply Hall, Z.leb_le in Hin. lia.
Qed.

(** The lists from [i] on still hold their ranges. *)
Record pending sbi (R : Z -> list nova_range_node) (i : Z) : Prop := {
  pd_lists : cpus sbi = Z.of_nat (length (free_lists sbi)) /\ cpus sbi <= 64;
  pd_list c : i <= c < cpus sbi \/ c = SHARED_CPU -> exists fl, nova_get_free_list sbi c = Some fl /\
    holds (range_nodes sbi) (inorder (block_free_tree fl)) (R c) /\ NoDup (inorder (block_free_tree fl));
  pd_apart c d fl fl' n : i <= c < cpus sbi \/ c = SHARED_CPU -> i <= d < cpus sbi \/ d = SHARED_CPU ->
    c <> d -> nova_get_free_list sbi c = Some fl -> nova_get_free_list sbi d = Some fl' ->
    n ∈ inorder (block_free_tree fl) -> n ∉ inorder (block_free_tree fl');
}.

Lemma balloc_pending sbi R : balloc_ok sbi R -> pending sbi R 0.
Proof.
  intros Hok. destruct (bo_cpus _ _ Hok) as [Hl Hc]. split; [lia|..].
  - intros c Hcc. assert (valid_cpu sbi c) as Hv by (destruct Hcc; [left; lia|by right]).
    destruct (valid_cpu_get sbi R c Hok Hv) as [fl Hfl]. exists fl.
    pose proof (fl_tree _ _ _ (bo_list _ _ Hok c fl Hv Hfl)) as Ht.
    split_and!; [done|apply Ht|by eapply tree_ok_NoDup].
  - intros c d fl fl' n Hcc Hd. apply (bo_apart _ _ Hok); unfold valid_cpu; tauto.
Qed.

Lemma save_list_ok sbi bs R i c k :
  log_pages_ok sbi bs -> pending sbi R i -> 0 <= i -> i <= c < cpus sbi \/ c = SHARED_CPU ->
  Forall range_fits (R c) -> (k + length (R c) <= 254 * length bs)%nat ->
  exists sbi', nova_save_free_list_blocknodes sbi c (tail_slot bs k) =
      Some (tail_slot bs (k + length (R c)), sbi') /\
    logged (virt_addr sbi) (nvm sbi') bs k (R c) /\
    (forall a, ~ slot_bytes (virt_addr sbi) bs k (length (R c)) a -> nvm sbi' a = nvm sbi a) /\
    same_geometry sbi sbi' /\ (c = i -> i < cpus sbi -> pending sbi' R (i + 1)).
Proof.
  intros Hok Hp Hi Hc Hfit Hk. destruct (pd_list _ _ _ Hp c Hc) as (fl & Hget & Hh & Hnd).
  unfold nova_save_free_list_blocknodes, nova_save_range_nodes_to_log. rewrite Hget. cbn [mbind option_bind].
  rewrite rb_first_inorder.
  destruct (save_loop_ok (R c) (length (inorder (block_free_tree fl))) sbi bs (block_free_tree fl)
    (inorder (block_free_tree fl)) k) as (tree' & h & m & -> & Hin & [V1 V2 V3]); auto.
  cbn [mbind option_bind]. set (fl' := with_block_free_tree tree' fl). set (sbi1 := with_range_nodes h (with_nvm m sbi)).
  destruct (put_free_list_fields sbi1 c fl') as (Hg & Hrn & Hm & Hlen).
  exists (put_free_list sbi1 c fl'). split; [done|]. rewrite Hm.
  assert (same_geometry sbi (put_free_list sbi1 c fl')) as Hg' by (destruct Hg; by split).
  split; [done|]. split; [done|]. split; [done|]. intros -> Hlt. destruct (pd_lists _ _ _ Hp) as [Hl H64].
  pose proof Hg' as [_ Gc _ _ _ _ _ _ _].
  assert (forall d, i + 1 <= d < cpus sbi \/ d = SHARED_CPU ->
    nova_get_free_list (put_free_list sbi1 i fl') d = nova_get_free_list sbi d) as Hother.
  { intros d Hd. unfold put_free_list, nova_get_free_list, SHARED_CPU in *. simpl.
    rewrite (proj2 (Z.ltb_lt i _)) by lia. simpl. repeat case_cmp; try done.
    apply list_lookup_insert_ne. lia. }
  split; rewrite ?Gc.
  - rewrite Hlen. simpl. lia.
  - intros d Hd. destruct (pd_list _ _ _ Hp d ltac:(lia)) as (gl & Hgl & Hhl & Hndl).
    exists gl. rewrite Hother by done. split_and!; auto. rewrite Hrn. simpl.
    eapply holds_frame; [exact Hhl|]. intros x Hx. rewrite V3, decide_False; [done|].
    eapply (pd_apart _ _ _ Hp d i gl fl x); eauto; [lia|unfold SHARED_CPU in *; lia].
  - intros d d' gl gl' x Hd Hd' Hne. rewrite !Hother by done. apply (pd_apart _ _ _ Hp); auto; lia.
Qed.

Lemma save_lists_ok n : forall sbi bs R i k,
  log_pages_ok sbi bs -> pending sbi R i -> 0 <= i -> i + Z.of_nat n = cpus sbi ->
  Forall range_fits (all_ranges R n i) -> (k + length (all_ranges R n i) <= 254 * length bs)%nat ->
  exists sbi', save_lists n i sbi (tail_slot bs k) =
      Some (tail_slot bs (k + length (all_ranges R n i)), sbi') /\
    logged (virt_addr sbi) (nvm sbi') bs k (all_ranges R n i) /\
    (forall a, ~ slot_bytes (virt_addr sbi) bs k (length (all_ranges R n i)) a -> nvm sbi' a = nvm sbi a) /\
    same_geometry sbi sbi'.
Proof.
  induction n as [|n IH]; intros sbi bs R i k Hok Hp Hi Hn Hfit Hk; cbn [all_ranges save_lists] in *.
  { destruct (save_list_ok sbi bs R i SHARED_CPU k Hok Hp Hi ltac:(by right) Hfit Hk)
      as (sbi' & E & Hl & Hs & Hg & _). by exists sbi'. }
  apply Forall_app in Hfit as [Hf1 Hf2]. rewrite length_app in *.
  destruct (save_list_ok sbi bs R i i k Hok Hp Hi ltac:(left; lia) Hf1 ltac:(lia))
    as (sbi1 & E1 & Hl1 & Hs1 & Hg1 & Hp1). rewrite E1. cbn [mbind option_bind].
  pose proof Hg1 as [Gv Gc Gn _ _ _ _ _ _].
  assert (log_pages_ok sbi1 bs) as Hok1.
  { eapply log_pages_frame; [exact Hok|done|done|]. intros a (b & Hb & Ha). apply Hs1. intros Hsb.
    destruct (slot_bytes_area _ _ _ _ _ Hsb) as (c & Hcb & Hac). unfold tail_word, LAST_ENTRY in *.
    destruct (decide (b = c)) as [->|]; lia. }
  destruct (IH sbi1 bs R (i + 1) (k + length (R i))%nat Hok1 (Hp1 eq_refl ltac:(lia)))
    as (sbi2 & E2 & Hl2 & Hs2 & Hg2); [lia|lia|done|lia|]. rewrite Gv in *.
  exists sbi2. rewrite E2, Nat.add_assoc. split; [done|]. split; [|split; [|by eapply same_geometry_trans]].
  - apply logged_app; [|done]. eapply logged_frame; [exact Hl1|]. intros a Ha. apply Hs2.
    eapply slot_bytes_disjoint; [apply Hok|exact Ha|lia].
  - intros a Ha. rewrite Hs2, Hs1; [done|..]; intros Hb; apply Ha; eapply slot_bytes_weaken; eauto; lia.
Qed.
End save.

(** ** Reading back *)

Lemma tail_slot_ne bs k n :
  NoDup bs -> (forall b, b ∈ bs -> 0 < b) -> (k < n)%nat -> (n <= 254 * length bs)%nat ->
  tail_slot bs k <> tail_slot bs n.
Proof.
  intros Hnd Hb Hk Hn. destruct n as [|n]; [lia|]. cbn [tail_slot].
  destruct (slot_some bs n ltac:(lia)) as [q Hq]. rewrite Hq.
  destruct (slot_inv _ _ _ Hq) as (c & s & Ec & -> & _ & Hs). destruct k as [|k]; cbn [tail_slot].
  - destruct bs as [|b bs]; [done|]. unfold chain_head. simpl. lia.
  - destruct (slot_some bs k ltac:(lia)) as [p Hp]. rewrite Hp.
    pose proof (slot_disjoint bs k n p _ Hnd Hp Hq ltac:(lia)). lia.
Qed.

Lemma balloc_ok_ext sbi R R' :
  balloc_ok sbi R -> (forall c, valid_cpu sbi c -> R' c = R c) -> balloc_ok sbi R'.
Proof.
  intros [K1 K2 K3 K4 K5] HE. split; auto.
  - intros c fl Hc. rewrite HE by done. by apply K3.
  - intros c b Hc. rewrite HE by done. by apply K5.
Qed.

Section restore.
Context `{RbTreeLaws} (slab_garbage : nova_range_node).
Hypothesis slab_serves : forall h, kmem_cache_alloc h <> None.
Implicit Types (sbi : nova_sb_info) (bs : list Z) (rs : list nova_range_node).

Lemma get_cpuid_home sbi R b :
  balloc_ok sbi R -> 0 < b < num_blocks sbi -> get_cpuid sbi b = Some (home sbi b).
Proof.
  intros Hok Hb. destruct (bo_size _ _ Hok) as (Hp & _ & Hs). unfold get_cpuid, home.
  rewrite (proj2 (Z.eqb_neq _ 0)) by lia. rewrite i32_small; [done|].
  split; [pose proof (Z.div_pos b (per_list_blocks sbi)); lia|].
  apply Z.div_lt_upper_bound; nia.
Qed.

(** The list was empty iff it has no first node. *)
Lemma first_node_new h fl rs :
  free_list_ok h fl rs ->
  (num_blocknode fl ⊞ 1 =? 1) = match first_node fl with None => true | Some _ => false end.
Proof.
  intros [[Hh Hs Hw] Hfi _ _ Hno]. pose proof (Forall2_length _ _ _ Hh) as Hlen.
  pose proof (sum_ranges_limit rs ltac:(by split)) as Hlim.
  pose proof (sum_ranges_nonneg rs ltac:(by split)). unfold RANGE_LIMIT in Hlim.
  rewrite Hno, u64_small by lia. rewrite Hfi.
  destruct (inorder (block_free_tree fl)); simpl in *; [apply Z.eqb_eq|apply Z.eqb_neq]; lia.
Qed.

(** One entry goes to the end of its list. *)
Lemma restore_entry_ok sbi R entry r c :
  balloc_ok sbi R -> range_at (nvm sbi) entry = r -> home sbi (range_low r) = c ->
  range_low r <= range_high r ->
  (forall b, in_range b r -> 0 < b < num_blocks sbi /\ home sbi b = c) ->
  Forall (fun q => before q r) (R c) ->
  exists sbi', restore_entry slab_garbage sbi entry = Some (0, sbi') /\
    balloc_ok sbi' (set_ranges c (R c ++ [r]) R) /\ same_geometry sbi sbi' /\ nvm sbi' = nvm sbi.
Proof.
  intros Hok Hat Hhome Hle Hbl Hbef. destruct r as [low high]. simpl in *. injection Hat as El Eh.
  destruct (Hbl low) as [Hlo _]; [unfold in_range; simpl; lia|].
  destruct (Hbl high) as [Hhi _]; [unfold in_range; simpl; lia|].
  destruct (bo_size _ _ Hok) as (Hper & _ & Hsz).
  assert (valid_cpu sbi c) as Hc.
  { subst c. unfold valid_cpu, home. destruct (Z.leb_spec (cpus sbi) (low / per_list_blocks sbi)); [by right|left].
    split; [apply Z.div_pos; lia|done]. }
  destruct (valid_cpu_get sbi R c Hok Hc) as [fl Hget].
  destruct (kmem_cache_alloc (range_nodes sbi)) as [n|] eqn:Ea; [|by destruct (slab_serves (range_nodes sbi))].
  destruct (append_range_ok slab_serves sbi R c fl n low high) as (t & Ei & Hok' & _); auto.
  unfold restore_entry, nova_alloc_range_node. rewrite Ea, El, Eh, insert_insert_eq.
  rewrite (get_cpuid_home sbi R) by done. cbn [mbind option_bind]. rewrite Hhome, Hget. cbn [mbind option_bind].
  rewrite Ei. cbn [mbind option_bind]. change (negb (0 =? 0)) with false. cbv iota.
  eexists. split; [reflexivity|].
  match goal with |- balloc_ok ?x _ /\ _ => assert (x = updated sbi c (append_node fl n t (high - low + 1))
    (<[n:=RangeNode low high]> (range_nodes sbi))) as -> end.
  { unfold updated, append_node. f_equal. f_equal.
    cbn [with_block_free_tree with_num_blocknode num_blocknode first_node].
    rewrite (first_node_new _ _ _ (bo_list _ _ Hok c fl Hc Hget)), (u64_small (high - low + 1)) by lia.
    by destruct fl as [? []]. }
  split; [done|]. split; [apply updated_geometry|]. unfold updated. simpl. apply put_free_list_fields.
Qed.

(** The ranges of list [c] among those read so far. *)
Definition sorted_in (hm : Z -> Z) rs (c : Z) : list nova_range_node :=
  filter (fun r => hm (range_low r) = c) rs.

(** What is known of the whole sequence of ranges: each lies in one list, and those of a
    list are in order. *)
Record sequence_ok sbi (all : list nova_range_node) : Prop := {
  sq_range r : r ∈ all -> range_low r <= range_high r /\
    forall b, in_range b r -> 0 < b < num_blocks sbi /\ home sbi b = home sbi (range_low r);
  sq_sorted c : StronglySorted before (sorted_in (home sbi) all c);
}.

Lemma sorted_in_before hm pre r post c :
  StronglySorted before (sorted_in hm (pre ++ r :: post) c) -> hm (range_low r) = c ->
  Forall (fun q => before q r) (sorted_in hm pre c).
Proof.
  unfold sorted_in. intros Hs Hc. rewrite filter_app, filter_cons_True in Hs by done.
  apply StronglySorted_app_iff in Hs as (_ & _ & Hf). eapply Forall_impl; [exact Hf|].
  intros q Hq. by apply Forall_cons in Hq as [? _].
Qed.

Lemma sequence_geometry sbi sbi' all :
  same_geometry sbi sbi' -> sequence_ok sbi all -> sequence_ok sbi' all.
Proof.
  intros [_ Gc Gn Gp _ _ _ _ _] [S1 S2]. assert (home sbi' = home sbi) as Hh
    by (unfold home; by rewrite Gc, Gp).
  split; [intros r Hr; rewrite Hh, Gn; by apply S1|intros c; rewrite Hh; apply S2].
Qed.

Lemma restore_loop_ok all bs pi post : forall pre fuel sbi,
  all = pre ++ post -> sequence_ok sbi all -> balloc_ok sbi (sorted_in (home sbi) pre) ->
  log_pages_ok sbi bs -> logged (virt_addr sbi) (nvm sbi) bs 0 all ->
  (length all <= 254 * length bs)%nat -> Pi.log_tail (nvm sbi) pi = tail_slot bs (length all) ->
  (length post <= fuel)%nat ->
  exists sbi', restore_loop slab_garbage fuel sbi pi (tail_slot bs (length pre)) 0 = Some (0, sbi') /\
    balloc_ok sbi' (sorted_in (home sbi) all) /\ same_geometry sbi sbi' /\ nvm sbi' = nvm sbi.
Proof.
  induction post as [|r post IH]; intros pre fuel sbi Eall Hseq Hok Hlog Hlg Hlen Htail Hf.
  { rewrite app_nil_r in Eall. subst pre. exists sbi.
    split; [|split_and!; [done|by constructor|done]].
    destruct fuel; cbn [restore_loop]; by rewrite Htail, Z.eqb_refl. }
  destruct fuel as [|fuel]; [simpl in Hf; lia|]. simpl in Hf. cbn [restore_loop].
  assert (length pre < length all)%nat as Hlt by (rewrite Eall, length_app; simpl; lia).
  assert (all !! length pre = Some r) as Hr by (rewrite Eall; by apply list_lookup_middle).
  rewrite Htail, (proj2 (Z.eqb_neq _ _)).
  2:{ apply tail_slot_ne; [apply Hlog| |done|done]. intros b Hb. apply (lp_blocks _ _ Hlog b Hb). }
  destruct (Hlg _ _ Hr) as (p & Hp & Hat). rewrite Nat.add_0_l in Hp.
  destruct (next_slot sbi bs _ p Hlog Hp) as (_ & _ & ->).
  destruct (slot_inv _ _ _ Hp) as (b & q & Eb & Ep & _ & Hq).
  pose proof (lp_blocks _ _ Hlog b ltac:(by eapply list_elem_of_lookup_2)) as Hb.
  destruct (lp_mapped _ _ Hlog) as [[Hv Hm] _]. pose proof (lp_size _ _ Hlog) as Hs.
  unfold nova_get_block. rewrite !(proj2 (Z.eqb_neq p 0)), (u64_small (virt_addr sbi + p)) by lia.
  destruct (sq_range _ _ Hseq r ltac:(by eapply list_elem_of_lookup_2)) as [Hle Hbl].
  destruct (restore_entry_ok sbi _ _ r _ Hok Hat eq_refl Hle Hbl) as (sbi1 & E & Hok1 & Hg1 & Hm1).
  { eapply sorted_in_before; [|done]. rewrite <- Eall. apply Hseq. }
  rewrite E. cbn [mbind option_bind Z.eqb negb].
  assert (p ⊞ Lh.size = tail_slot bs (length (pre ++ [r]))) as ->.
  { rewrite length_app, Nat.add_1_r. cbn [tail_slot]. rewrite Hp. unfold Lh.size. by rewrite u64_small by lia. }
  pose proof Hg1 as [Gv Gc Gn Gp _ _ _ _ _]. assert (home sbi1 = home sbi) as Hh by (unfold home; by rewrite Gc, Gp).
  destruct (IH (pre ++ [r]) fuel sbi1) as (sbi' & E' & Hok' & Hg' & Hm');
    rewrite ?Hm1, ?Gv, ?Hh; auto; [by rewrite <- app_assoc|by eapply sequence_geometry| | |lia|].
  - eapply balloc_ok_ext; [exact Hok1|]. intros c _. unfold set_ranges, sorted_in.
    rewrite filter_app. case_decide as Hd.
    + by rewrite Hd, filter_cons_True, filter_nil.
    + rewrite filter_cons_False by congruence. by rewrite filter_nil, app_nil_r.
  - eapply log_pages_frame; [exact Hlog|done|done|]. intros a _. by rewrite Hm1.
  - exists sbi'. split; [done|]. split; [by rewrite <- Hh|]. split; [by eapply same_geometry_trans|congruence].
Qed.

(** The ranges of an allocator, in the order of the lists. *)
Section sequence.
Context (sbi : nova_sb_info) (R : Z -> list nova_range_node) (Hok : balloc_ok sbi R).

Lemma list_range_home c r :
  valid_cpu sbi c -> r ∈ R c -> wf_range r /\
  forall b, in_range b r -> 0 < b < num_blocks sbi /\ home sbi b = c.
Proof.
  intros Hc Hr. destruct (valid_cpu_get sbi R c Hok Hc) as [fl Hfl].
  pose proof (fl_tree _ _ _ (bo_list _ _ Hok c fl Hc Hfl)) as [_ _ Hw]. rewrite Forall_forall in Hw.
  split; [by apply Hw|]. intros b Hb. apply (bo_home _ _ Hok c b Hc). apply Exists_exists. by exists r.
Qed.

Lemma list_range_low c r : valid_cpu sbi c -> r ∈ R c -> home sbi (range_low r) = c.
Proof.
  intros Hc Hr. destruct (list_range_home c r Hc Hr) as [[Hw _] Hb].
  apply (Hb (range_low r)). unfold in_range. lia.
Qed.

Lemma sorted_in_list d c :
  valid_cpu sbi d -> sorted_in (home sbi) (R d) c = if decide (d = c) then R d else [].
Proof.
  intros Hd. assert (forall r, r ∈ R d -> home sbi (range_low r) = d) as Hh
    by (intros r Hr; by apply list_range_low).
  unfold sorted_in. case_decide as Hdc.
  - induction (R d) as [|r rs IH]; [done|]. rewrite filter_cons_True by (rewrite Hh; [done|by left]).
    f_equal. apply IH. intros; apply Hh. by right.
  - induction (R d) as [|r rs IH]; [done|]. rewrite filter_cons_False by (rewrite Hh; [done|by left]).
    apply IH. intros; apply Hh. by right.
Qed.

Lemma elem_of_all_ranges r n : forall i, 0 <= i -> i + Z.of_nat n = cpus sbi ->
  r ∈ all_ranges R n i -> exists c, valid_cpu sbi c /\ r ∈ R c.
Proof.
  induction n as [|n IH]; intros i Hi Hn; cbn [all_ranges].
  - intros Hr. exists SHARED_CPU. split; [by right|done].
  - intros [Hr|Hr]%elem_of_app; [exists i; split; [left; lia|done]|]. apply (IH (i + 1)); auto; lia.
Qed.

Lemma sorted_in_all c n : forall i, 0 <= i -> i + Z.of_nat n = cpus sbi ->
  (i <= c < cpus sbi \/ c = SHARED_CPU) -> sorted_in (home sbi) (all_ranges R n i) c = R c.
Proof.
  destruct (bo_cpus _ _ Hok) as [_ H64].
  assert (forall m i, 0 <= i -> i + Z.of_nat m = cpus sbi -> 0 <= c < i ->
    sorted_in (home sbi) (all_ranges R m i) c = []) as Hnil.
  { induction m as [|m IHm]; intros i Hi Hm Hc; cbn [all_ranges].
    - rewrite sorted_in_list by (by right). rewrite decide_False; [done|]. unfold SHARED_CPU. lia.
    - unfold sorted_in. rewrite filter_app. fold (sorted_in (home sbi) (R i) c).
      fold (sorted_in (home sbi) (all_ranges R m (i + 1)) c).
      rewrite sorted_in_list, decide_False, IHm by (lia || (left; lia)). done. }
  induction n as [|n IH]; intros i Hi Hn Hc; cbn [all_ranges].
  - rewrite sorted_in_list by (by right). rewrite decide_True; [|lia]. destruct Hc as [?| ->]; [lia|done].
  - unfold sorted_in. rewrite filter_app. fold (sorted_in (home sbi) (R i) c).
    fold (sorted_in (home sbi) (all_ranges R n (i + 1)) c).
    rewrite sorted_in_list by (left; lia). case_decide as Hd.
    + subst. rewrite Hnil by lia. by rewrite app_nil_r.
    + rewrite IH by lia. done.
Qed.

Lemma all_ranges_ok : let all := all_ranges R (Z.to_nat (cpus sbi)) 0 in
  sequence_ok sbi all /\ Forall range_fits all /\
  forall c, valid_cpu sbi c -> sorted_in (home sbi) all c = R c.
Proof.
  destruct (bo_cpus _ _ Hok) as [_ H64]. set (all := all_ranges R _ 0).
  assert (forall r, r ∈ all -> exists c, valid_cpu sbi c /\ r ∈ R c) as Hin
    by (intros r; apply elem_of_all_ranges; lia).
  assert (forall c, valid_cpu sbi c -> sorted_in (home sbi) all c = R c) as Hs
    by (intros c Hc; apply sorted_in_all; [lia|lia|]; exact Hc).
  split; [split|split; [|done]].
  - intros r Hr. destruct (Hin r Hr) as (c & Hc & Hrc). destruct (list_range_home c r Hc Hrc) as [[Hw _] Hb].
    rewrite (list_range_low c r Hc Hrc). split; [lia|done].
  - intros c. destruct (decide (valid_cpu sbi c)) as [Hc|Hc].
    + rewrite Hs by done. destruct (valid_cpu_get sbi R c Hok Hc) as [fl Hfl].
      apply (fl_tree _ _ _ (bo_list _ _ Hok c fl Hc Hfl)).
    + assert (sorted_in (home sbi) all c = []) as ->; [|constructor].
      destruct (sorted_in (home sbi) all c) as [|r rs] eqn:Er; [done|].
      assert (r ∈ sorted_in (home sbi) all c) as [Hh Hr]%list_elem_of_filter by (rewrite Er; by left).
      exfalso. apply Hc.
      destruct (Hin r Hr) as (d & Hd & Hrd). by rewrite <- Hh, (list_range_low d r Hd Hrd).
  - apply Forall_forall. intros r Hr. destruct (Hin r Hr) as (c & Hc & Hrc).
    destruct (list_range_home c r Hc Hrc) as [[Hw Hw'] _]. unfold range_fits, RANGE_LIMIT in *. lia.
Qed.
End sequence.

(** C29: Saving the free lists to a log and reading the log into empty lists gives the same
    free blocks back: if the pages of the log suffice, [save_lists] writes all ranges, and
    the loop of [nova_init_blockmap_from_inode] on any state with empty lists, the same
    geometry and the pages of the log ends with result 0 in an allocator whose free blocks
    are the old ones. *)
Theorem shutdown_roundtrip sbi R bs :
  balloc_ok sbi R -> log_pages_ok sbi bs ->
  (length (all_ranges R (Z.to_nat (cpus sbi)) 0%Z) <= 254 * length bs)%nat ->
  exists tail sbi1, save_lists (Z.to_nat (cpus sbi)) 0 sbi (chain_head bs) = Some (tail, sbi1) /\
    forall sbi2 pi, balloc_ok sbi2 (fun _ => []) -> same_geometry sbi sbi2 ->
      (forall a b, b ∈ bs -> block_addr sbi b <= a < block_addr sbi (b + 1) -> nvm sbi2 a = nvm sbi1 a) ->
      Pi.log_tail (nvm sbi2) pi = tail ->
      exists sbi3 R3, restore_loop slab_garbage (Z.to_nat (256 * num_blocks sbi2)) sbi2 pi (chain_head bs) 0 =
          Some (0, sbi3) /\ balloc_ok sbi3 R3 /\
        forall b, free_block sbi3 R3 b <-> free_block sbi R b.
Proof.
  intros Hok Hlog Hlen. destruct (bo_cpus _ _ Hok) as [_ H64].
  destruct (all_ranges_ok sbi R Hok) as (Hseq & Hfit & Hall). set (all := all_ranges R _ _) in *.
  destruct (save_lists_ok (Z.to_nat (cpus sbi)) sbi bs R 0 0 Hlog (balloc_pending _ _ Hok))
    as (sbi1 & E1 & Hl1 & Hs1 & Hg1); [lia|lia|done|done|]. fold all in E1, Hl1, Hs1.
  eexists _, sbi1. split; [exact E1|]. intros sbi2 pi Hok2 Hg Hmem Htail. pose proof Hg as [Gv Gc Gn Gp _ _ _ _ _].
  assert (home sbi2 = home sbi) as Hh by (unfold home; by rewrite Gc, Gp).
  assert (forall b a, b ∈ bs -> virt_addr sbi + 4096 * b <= a < virt_addr sbi + 4096 * b + 4096 ->
    nvm sbi2 a = nvm sbi1 a) as Hmem' by (intros b a Hb Ha; apply (Hmem a b Hb); unfold block_addr; lia).
  destruct (restore_loop_ok all bs pi all [] (Z.to_nat (256 * num_blocks sbi2)) sbi2) as (sbi3 & E3 & Hok3 & Hg3 & _); auto.
  - by eapply sequence_geometry.
  - eapply log_pages_frame; [exact Hlog|done|done|]. intros a (b & Hb & Ha).
    rewrite (Hmem' b) by (unfold tail_word in Ha; (done || lia)). apply Hs1. intros Hsb.
    destruct (slot_bytes_area _ _ _ _ _ Hsb) as (c & Hcb & Hac). unfold tail_word, LAST_ENTRY in *.
    destruct (decide (b = c)) as [->|]; lia.
  - rewrite Gv. eapply logged_frame; [exact Hl1|]. intros a Ha.
    destruct (slot_bytes_area _ _ _ _ _ Ha) as (b & Hb & Hab). unfold LAST_ENTRY in Hab. apply (Hmem' b); [done|lia].
  - pose proof (nodup_blocks bs (num_blocks sbi) (lp_nodup _ _ Hlog) (lp_blocks _ _ Hlog)). rewrite Gn. lia.
  - cbn [length tail_slot] in E3. exists sbi3, (sorted_in (home sbi2) all). split; [exact E3|]. split; [done|].
    intros b. rewrite Hh. unfold free_block, valid_cpu. rewrite (sg_cpus _ _ Hg3), Gc.
    split; intros (c & Hc & Hb); exists c; (split; [done|]); rewrite (Hall c Hc) in *; done.
Qed.
End restore.

(** ** Where the record of a shutdown goes *)

Section record.
Context `{RbTreeLaws} (slab_garbage : nova_range_node) (smp : Z) (jiffies_to_msecs : Z -> Z) (e : env).
Context (garbage : Z).
Hypothesis pid_nonneg : 0 <= current_pid e.

(** The reserved inode 3 of a file system whose tables are set up. *)
Record reserved_inode (sbi : nova_sb_info) (P : Z -> list Z) (pi a : Z) : Prop := {
  ri_tables : tables_ok sbi P;
  ri_unlocked : unlocked sbi;
  ri_mapped : mapped sbi /\ num_blocks sbi < 2147483648;
  ri_cpus : 3 < cpus sbi;
  ri_addr : nova_get_inode_by_ino (virt_addr sbi) NOVA_BLOCKNODE_INO = Some pi;
  ri_ino : Pi.nova_ino (nvm sbi) pi = NOVA_BLOCKNODE_INO;
  ri_slot : inode_slot (cpus sbi) P NOVA_BLOCKNODE_INO = Some a;
  ri_unused : Pi.nova_ino (nvm sbi) (virt_addr sbi + a) = 0;
}.

(** The slot lies in a page of a table, the reserved inode in block 0. *)
Lemma reserved_apart sbi P pi a :
  reserved_inode sbi P pi a -> pi + 128 <= virt_addr sbi + a /\
  nova_get_block (virt_addr sbi) a = virt_addr sbi + a /\
  (a mod 128 = 0 /\ virt_addr sbi <= pi /\ pi + 128 <= virt_addr sbi + 4096).
Proof.
  intros [T1 _ [[Hv Hm] Hs] Hc Hpi _ Ha _]. destruct (to_cpus _ _ T1) as (Hcp & _).
  destruct (inode_slot_inv (cpus sbi) P NOVA_BLOCKNODE_INO a) as (p & Ep & -> & Hp1 & Hp2); auto; [lia|unfold NOVA_BLOCKNODE_INO; lia|].
  assert (0 <= NOVA_BLOCKNODE_INO mod cpus sbi < cpus sbi) as Hcx by (apply Z.mod_pos_bound; lia).
  pose proof (to_pages _ _ T1 _ _ Hcx (list_elem_of_lookup_2 _ _ _ Ep)) as Hp.
  unfold nova_get_inode_by_ino, NOVA_BLOCKNODE_INO, NOVA_NORMAL_INODE_START in Hpi. simpl in Hpi.
  injection Hpi as <-. unfold nova_get_basic_inode, NOVA_SB_SIZE, NOVA_ROOT_INO, NOVA_INODE_SIZE in *.
  rewrite u64_small by lia. split; [lia|]. unfold nova_get_block.
  rewrite (proj2 (Z.eqb_neq _ 0)), u64_small by lia. split; [done|]. split; [mlia|lia].
Qed.

(** A slot of a page that is not in a log, and the pages of the log. *)
Lemma page_apart a (bs : list Z) b :
  a mod 128 = 0 -> a / 4096 ∉ bs -> b ∈ bs -> a + 128 <= 4096 * b \/ 4096 * b + 4096 <= a.
Proof. intros Ha Hn Hb. assert (a / 4096 <> b) by (by intros <-). mlia. Qed.

Lemma slot_bytes_page va bs k n x : slot_bytes va bs k n x ->
  exists b, b ∈ bs /\ va + 4096 * b <= x < va + 4096 * b + 4096.
Proof.
  intros Hsb. destruct (slot_bytes_area _ _ _ _ _ Hsb) as (b & Hb & Hx). exists b.
  unfold LAST_ENTRY in Hx. split; [done|lia].
Qed.

(** Counting a write to the page of an inode. *)
Lemma count_inode_ok ws sbi mon sih p :
  monitor_ok ws mon -> Z.of_nat (length ws) < 2147483647 ->
  exists ws' mon', count_inode jiffies_to_msecs e p (World sbi mon sih) = Some (tt, World sbi mon' sih) /\
    monitor_ok ws' mon' /\ (length ws' <= S (length ws))%nat.
Proof.
  intros Hmon Hws. destruct (count_any_block jiffies_to_msecs ws mon e
    (get_block_number_by_virt (virt_addr sbi) p)) as (ws' & mon' & E & Hok & Hl); try done.
  { unfold get_block_number_by_virt. repeat case_cmp; try lia; apply Z.shiftr_nonneg, u64_range. }
  exists ws', mon'. split; [|done]. unfold count_inode. frun. by apply on_mon_run.
Qed.

(** Setting the tail of an inode whose number reads 0 does not look it up again. *)
Lemma update_tail_unused ws sbi mon sih q nova_base_address tail :
  monitor_ok ws mon -> Z.of_nat (length ws) < 2147483647 -> 0 < cpus sbi ->
  Z.shiftr (u64 (q - nova_base_address)) 12 < BLOCKS_MAX -> Pi.nova_ino (nvm sbi) q = 0 ->
  exists ws' mon', nova_update_tail_wwb smp e nova_base_address q tail (World sbi mon sih) =
      Some (tt, World (with_nvm (Pi.set_log_tail (nvm sbi) q tail) sbi) mon' sih) /\
    monitor_ok ws' mon' /\ (length ws' <= S (length ws))%nat.
Proof.
  intros Hmon Hws Hc Hb Hz. unfold nova_update_tail_wwb. frun. rewrite Hz.
  assert (nova_get_specific_inode_page_lock sbi 0 = Some tt) as ->.
  { unfold nova_get_specific_inode_page_lock. change (0 mod 40) with 0.
    by rewrite (proj2 (Z.ltb_lt 0 _)) by lia. }
  cbn [fs_deref]. frun. destruct (page_count_increase_ok nova_base_address ws mon e q Hmon Hb Hws)
    as (mon' & Em & Hok).
  exists (ws ++ [Z.shiftr (u64 (q - nova_base_address)) 12]), mon'. rewrite length_app. simpl.
  split; [by apply on_mon_run|]. split; [done|lia].
Qed.

(** C30: The record of an unmount is lost: with the pages [bs] of the log at hand,
    [nova_save_blocknode_mappings_to_log] looks the reserved inode up again and stores the
    head and the tail of the log at the place of its number in the inode tables, so the
    reserved inode keeps its old pointers.  If the head was 0, the next mount does not find
    the log and crawls the device, although the lists were saved. *)
Theorem shutdown_record_lost w P pi a ws nova_base_address R bs :
  reserved_inode (w_sbi w) P pi a -> balloc_ok (w_sbi w) R -> log_pages_ok (w_sbi w) bs ->
  (length (all_ranges R (Z.to_nat (cpus (w_sbi w))) 0) <= 254 * length bs)%nat ->
  a / 4096 ∉ bs -> monitor_ok ws (w_mon w) -> Z.of_nat (length ws) < 2147483640 ->
  Z.shiftr (u64 (virt_addr (w_sbi w) + a - nova_base_address)) 12 < BLOCKS_MAX ->
  Pi.log_head (nvm (w_sbi w)) pi = 0 ->
  exists w', record_blocknodes smp jiffies_to_msecs e nova_base_address pi (chain_head bs) w = Some (tt, w') /\
    logged (virt_addr (w_sbi w)) (nvm (w_sbi w')) bs 0 (all_ranges R (Z.to_nat (cpus (w_sbi w))) 0) /\
    Pi.log_head (nvm (w_sbi w')) pi = 0 /\
    Pi.log_tail (nvm (w_sbi w')) pi = Pi.log_tail (nvm (w_sbi w)) pi /\
    nova_can_skip_full_scan slab_garbage smp jiffies_to_msecs e garbage w' = Some (false, w').
Proof.
  intros Hri Hok Hlog Hlen Hbs Hmon Hws Hbm Hh. destruct w as [sbi mon sih]. cbn [w_sbi w_mon] in *.
  destruct (reserved_apart _ _ _ _ Hri) as (Hap & Hblk & Ha128 & Hpa).
  pose proof Hri as [T1 T2 [Hm Hs] Hc Hpi Hi Ha Hz]. unfold record_blocknodes.
  erewrite fs_step by (apply (reget_inode_slot smp P pi (World sbi mon sih) a); cbn [w_sbi]; rewrite ?Hi; auto;
    [unfold nova_get_specific_inode_page_lock; change (NOVA_BLOCKNODE_INO mod 40) with 3;
     rewrite (proj2 (Z.ltb_lt 3 _)) by lia; reflexivity|unfold NOVA_BLOCKNODE_INO; lia]).
  cbn [w_sbi]. rewrite Hblk. set (q := virt_addr sbi + a) in *. frun.
  set (m1 := Pi.set_log_head (nvm sbi) q (chain_head bs)).
  assert (forall x, ~ (q <= x < q + 128) -> m1 x = nvm sbi x) as Hm1
    by (intros x Hx; apply store_disjoint; simpl; lia).
  destruct (count_inode_ok ws (with_nvm m1 sbi) mon sih q Hmon ltac:(lia)) as (ws1 & mon1 & E1 & Hmon1 & Hl1).
  fstep E1. frun.
  assert (log_pages_ok (with_nvm m1 sbi) bs) as Hlog1.
  { eapply log_pages_frame; [exact Hlog|done|done|]. intros x (b & Hb & Hx). apply Hm1.
    pose proof (page_apart a bs b Ha128 Hbs Hb). unfold tail_word in Hx. lia. }
  destruct (all_ranges_ok sbi R Hok) as (_ & Hfit & _). destruct (bo_cpus _ _ Hok) as [_ H64].
  destruct (save_lists_ok (Z.to_nat (cpus sbi)) (with_nvm m1 sbi) bs R 0 0 Hlog1)
    as (sbi2 & E2 & Hl2 & Hs2 & Hg2); [by destruct (balloc_pending _ _ Hok)|lia|cbn [cpus with_nvm]; lia|done|done|].
  fstep (on_sbi_run (fun s => save_lists (Z.to_nat (cpus sbi)) 0 s (chain_head bs))
    (World (with_nvm m1 sbi) mon1 sih) _ _ E2). cbn [w_sbi w_mon w_sih].
  pose proof Hg2 as [Gv Gc _ _ _ _ _ _ _]. cbn [virt_addr cpus with_nvm nvm] in *.
  assert (forall x, (q <= x < q + 128) \/ (virt_addr sbi <= x < virt_addr sbi + 4096) -> nvm sbi2 x = m1 x) as Hfr.
  { intros x Hx. apply Hs2. intros (b & Hb & Hxb)%slot_bytes_page.
    pose proof (page_apart a bs b Ha128 Hbs Hb). pose proof (lp_blocks _ _ Hlog b Hb). lia. }
  destruct (update_tail_unused ws1 sbi2 mon1 sih q nova_base_address
    (tail_slot bs (0 + length (all_ranges R (Z.to_nat (cpus sbi)) 0)))) as (ws3 & mon3 & E3 & Hmon3 & Hl3);
    [done|lia|lia|done| |].
  { rewrite <- Hz. etransitivity; [apply load_ext; intros x Hx; apply Hfr; simpl in Hx; lia|].
    apply load_store_ne. lia. }
  fstep E3. set (sbi3 := with_nvm _ sbi2).
  destruct (count_inode_ok ws3 sbi3 mon3 sih q Hmon3 ltac:(lia)) as (ws4 & mon4 & E4 & _).
  exists (World sbi3 mon4 sih). split; [exact E4|]. cbn [w_sbi].
  assert (forall o, 0 <= o -> o + 8 <= 128 -> load 8 (nvm sbi3) (pi + o) = load 8 (nvm sbi) (pi + o)) as Hsame.
  { intros o H1 H2. etransitivity; [apply load_store_ne; lia|].
    etransitivity; [apply load_ext; intros x Hx; apply Hfr; simpl in Hx; lia|].
    apply load_store_ne; lia. }
  assert (Pi.log_head (nvm sbi3) pi = 0) as Hh' by (rewrite <- Hh; apply Hsame; lia).
  split; [|split; [done|split; [apply Hsame; lia|]]].
  - eapply logged_frame; [exact Hl2|]. intros x (b & Hb & Hxb)%slot_bytes_page. apply store_disjoint.
    pose proof (page_apart a bs b Ha128 Hbs Hb). simpl. lia.
  - unfold nova_can_skip_full_scan. frun. change (virt_addr sbi3) with (virt_addr sbi2).
    rewrite Gv. injection Hpi as ->. by rewrite Hh'.
Qed.
End record.

(** ** Examples *)

Module ShutdownDemo.
Import RbList.RbList InodeTable.TableDemo LogPages.LogDemo.

(** The file system is mounted again with memory [m] and the end of the saved log at
    [tail]. *)
Definition remount (m : memory) (tail : Z) : nova_sb_info :=
  match nova_init_blockmap garbage (with_nvm (Pi.set_log_tail m demo_pi tail) raw) 1 with
  | Some s => s
  | None => raw
  end.

Lemma remount_ok m tail :
  balloc_ok (remount m tail) (fun _ => []) /\ nvm (remount m tail) = Pi.set_log_tail m demo_pi tail.
Proof.
  assert (fresh_blockmap (with_nvm (Pi.set_log_tail m demo_pi tail) raw)) as Hf
    by (destruct table_raw_fresh; by split).
  destruct (init_blockmap_recovery garbage _ Hf) as (s & E & Hr & _ & _ & _ & Hm & _).
  unfold remount. rewrite E. split; [apply (rb_ok _ _ _ _ _ (Hr []))|exact Hm].
Qed.

Lemma remount_geometry m tail : same_geometry fs_log (remount m tail).
Proof. split; vm_compute; try split; reflexivity. Qed.

Lemma fs_log_tail : fst <$> save_lists 2 0 fs_log (4096 * 3) = Some (4096 * 3 + 32).
Proof. vm_compute. reflexivity. Qed.

Lemma fs_log_length R : balloc_ok fs_log R -> (length (all_ranges R 2 0) <= 254 * 5)%nat.
Proof.
  intros Hok. pose proof (few_ranges fs_log R 2 Hok ltac:(vm_compute; reflexivity)) as Hl.
  change (Z.to_nat (cpus fs_log)) with 2%nat in Hl. lia.
Qed.

(** The free blocks behind the five pages of [fs_log] are saved in them. *)
Lemma shutdown_roundtrip_witness :
  exists R tail sbi1 sbi3 R3, save_lists 2 0 fs_log (4096 * 3) = Some (tail, sbi1) /\
    restore_loop garbage (Z.to_nat (256 * 20)) (remount (nvm sbi1) tail) demo_pi (4096 * 3) 0 =
      Some (0, sbi3) /\ balloc_ok sbi3 R3 /\ forall b, free_block sbi3 R3 b <-> free_block fs_log R b.
Proof.
  destruct fs_log_chain as (F & [HF [Hv Hm] _ _ _] & [Hnd Hfr (R & Hok & HR) Hc _ Hg _]).
  destruct fs1_mapped as (_ & Ev & _). pose proof Hg as [Gv Gc Gn _ _ _ _ _ _].
  exists R.
  destruct (shutdown_roundtrip garbage rb_list_alloc fs_log R [3; 4; 5; 6; 7] Hok) as (tail & sbi1 & E & Hback).
  - split.
    + unfold mapped. rewrite Gv, Gn. split; [by split|]. rewrite Ev. reflexivity.
    + rewrite Gn. apply (lb_size _ _ HF).
    + intros b Hb. rewrite Gn. apply (lb_bounds fs1 F b HF), Hfr, Hb.
    + exact Hnd.
    + rewrite Gv. exact Hc.
  - exact (fs_log_length R Hok).
  - change (Z.to_nat (cpus fs_log)) with 2%nat in E. change (chain_head [3; 4; 5; 6; 7]) with (4096 * 3) in E.
    pose proof fs_log_tail as Et. rewrite E in Et. injection Et as ->.
    destruct (remount_ok (nvm sbi1) (4096 * 3 + 32)) as [Hok2 Hm2].
    destruct (Hback (remount (nvm sbi1) (4096 * 3 + 32)) demo_pi Hok2 (remount_geometry _ _))
      as (sbi3 & R3 & E3 & Hok3 & Hfb).
    + intros a b Hb Ha. rewrite Hm2. unfold Pi.set_log_tail. apply store_disjoint.
      unfold block_addr in Ha. rewrite Gv, Ev in Ha. unfold demo_pi.
      pose proof (lb_bounds fs1 F b HF (Hfr b Hb)). simpl Z.of_nat. lia.
    + rewrite Hm2. apply load8_store8. lia.
    + exists (4096 * 3 + 32), sbi1, sbi3, R3. split; [exact E|]. split; [exact E3|]. split; [exact Hok3|exact Hfb].
Defined.
End ShutdownDemo.

(** A device of 40 blocks for 4 CPUs, whose reserved inode 3 has its number. *)
Module RecordDemo.
Import RbList.RbList Detect.DetectDemo.

Definition pi3 : Z := nova_get_basic_inode 65536 NOVA_BLOCKNODE_INO.

Definition raw4 : nova_sb_info :=
  SbInfo 65536 40 0 3 4 (replicate 4 empty_inode_map) 0 (replicate 4 empty_free_list)
    [] [] 0 empty_free_list ∅ (Pi.set_nova_ino (fun _ => 0) pi3 NOVA_BLOCKNODE_INO).

Definition garbage4 : nova_range_node := RangeNode 0 0.

Definition map4 : nova_sb_info :=
  match nova_init_blockmap garbage4 raw4 0 with Some s => s | None => raw4 end.
Definition table4 : nova_sb_info :=
  match nova_init_inode_table 0 map4 (Some (fun _ => true)) 0 with Some (_, s) => s | None => raw4 end.

Lemma raw4_fresh : fresh_blockmap raw4.
Proof. split; simpl; try lia; repeat constructor; vm_compute; done. Qed.
Lemma table4_ret : fst <$> nova_init_inode_table 0 map4 (Some (fun _ => true)) 0 = Some 0.
Proof. vm_compute. reflexivity. Qed.
Lemma table4_page : take 2 <$> inode_page_mapping_tables table4 !! 3%nat = Some [4096 * 6; 0].
Proof. vm_compute. reflexivity. Qed.
Lemma map4_geometry : cpus map4 = 4 /\ virt_addr map4 = 65536 /\ num_blocks map4 = 40 /\
  cpus table4 = 4 /\ virt_addr table4 = 65536 /\ num_blocks table4 = 40.
Proof. vm_compute. done. Qed.
Lemma table4_memory : Pi.nova_ino (nvm table4) pi3 = NOVA_BLOCKNODE_INO /\
  Pi.log_head (nvm table4) pi3 = 0 /\ Pi.nova_ino (nvm table4) (65536 + 4096 * 6) = 0.
Proof. vm_compute. done. Qed.

Lemma table4_reserved : exists P F, reserved_inode table4 P pi3 (4096 * 6) /\ lb_free table4 F /\ ~ F 6.
Proof.
  destruct (nova_init_blockmap_spec garbage4 TableDemo.table_slab raw4 raw4_fresh) as (s & E & Hok & _).
  assert (s = map4) as -> by (unfold map4; by rewrite E).
  destruct map4_geometry as (G1 & G2 & G3 & G4 & G5 & G6).
  assert (exists F, lb_free map4 F) as [F0 HF] by (eexists; eexists; split; [exact Hok|done]). clear E.
  destruct (nova_init_inode_table_spec 0 map4 F0 0 HF) as (ret & s & E & Hout);
    [unfold mapped; rewrite G2, G3; lia|rewrite G3; lia|rewrite G1; lia|rewrite G1; lia|].
  assert (s = table4) as -> by (unfold table4; by rewrite E).
  pose proof table4_ret as Er. rewrite E in Er. simpl in Er. injection Er as ->.
  destruct Hout as [?|(_ & _ & F & P & Hti & Hu & _ & Hone)]; [done|]. exists P, F.
  destruct (Hone 3 ltac:(lia)) as [b Hb].
  destruct (to_table _ _ (ti_tables _ _ _ _ Hti) 3 ltac:(lia)) as [Et _].
  pose proof table4_page as Hp. change 3%nat with (Z.to_nat 3) in Hp. rewrite Et, Hb in Hp.
  assert (b = 6) as -> by (injection Hp; lia). destruct table4_memory as (M1 & _ & M3).
  split; [|split; [exact (ti_free _ _ _ _ Hti)|apply (ti_apart _ _ _ _ Hti 3); [lia|rewrite Hb; by left]]].
  split.
  - exact (ti_tables _ _ _ _ Hti).
  - exact Hu.
  - unfold mapped. rewrite G5, G6. lia.
  - rewrite G4. reflexivity.
  - rewrite G5. reflexivity.
  - exact M1.
  - rewrite G4. unfold inode_slot. change (NOVA_BLOCKNODE_INO mod 4) with 3. rewrite Hb. reflexivity.
  - rewrite G5. exact M3.
Qed.

(** One page is taken for the log. *)
Definition log4 : nova_sb_info := run_state (nova_allocate_inode_log_pages 0 table4 pi3 1 0 0) raw4.

Lemma log4_ret : fst <$> nova_allocate_inode_log_pages 0 table4 pi3 1 0 0 = Some (1, 4096 * 7).
Proof. vm_compute. reflexivity. Qed.
Lemma pi3_low : pi3 + 128 <= 65536 + 4096.
Proof. vm_compute. discriminate. Qed.
Lemma table4_type : Pi.i_blk_type (nvm table4) pi3 = 0.
Proof. vm_compute. reflexivity. Qed.

Lemma log4_chain : exists P F, reserved_inode table4 P pi3 (4096 * 6) /\ lb_free table4 F /\ ~ F 6 /\
  fresh_chain table4 F [7] log4.
Proof.
  destruct table4_reserved as (P & F & HP & HF & H6). exists P, F. split; [exact HP|].
  split; [exact HF|]. split; [exact H6|]. destruct map4_geometry as (_ & _ & _ & G4 & G5 & _).
  assert (log_env 0 table4 F pi3) as Henv.
  { split; [exact HF|exact (proj1 (ri_mapped _ _ _ _ HP))|rewrite G4; lia|exact table4_type|].
    intros b Hb Hin. apply (lb_bounds table4 F b HF) in Hb. unfold block_addr in Hin. rewrite G5 in Hin.
    pose proof pi3_low. lia. }
  destruct (allocate_log_pages_ok 0 table4 F pi3 1 0 0 Henv ltac:(lia))
    as (ret & nb & bs & sbi' & E & Hfc & Hout).
  assert (sbi' = log4) as -> by (unfold log4; by rewrite E).
  pose proof log4_ret as Er. rewrite E in Er. simpl in Er. injection Er as -> ->.
  destruct Hout as [(Hr & _ & _ & Hh)|(Hr & _)]; [|discriminate Hr].
  destruct bs as [|b1 [|b2 bs]]; try (simpl in Hr; lia).
  simpl in Hh. assert (b1 = 7) as -> by (injection Hh; lia). exact Hfc.
Qed.

(** The page is behind the tables, so the reserved inode and its slot are as before. *)
Lemma log4_reserved : exists P R, reserved_inode log4 P pi3 (4096 * 6) /\ balloc_ok log4 R /\
  log_pages_ok log4 [7] /\ Pi.log_head (nvm log4) pi3 = 0.
Proof.
  destruct log4_chain as (P & F & [T1 T2 [Hm Hs] Hc Hpi Hi Ha Hz] & HF & H6 & Hfc).
  destruct Hfc as [Hnd Hfr (R & Hok & HR) Hch Hsame Hg _].
  pose proof Hg as [Gv Gc Gn _ _ [_ Gl] _ _ _]. destruct map4_geometry as (_ & _ & _ & G4 & G5 & G6).
  assert (forall x, x < 65536 + 4096 * 7 -> nvm log4 x = nvm table4 x) as Hlow.
  { intros x Hx. apply Hsame. intros b Hb. apply list_elem_of_singleton in Hb as ->.
    unfold tail_word. rewrite G5. lia. }
  assert (forall o, o + 8 <= 65536 + 4096 * 7 -> load 8 (nvm log4) o = load 8 (nvm table4) o) as Hl8
    by (intros o Ho; apply load_ext; intros x Hx; apply Hlow; simpl in Hx; lia).
  exists P, R. split; [|split; [exact Hok|split]].
  - split.
    + eapply tables_ok_frame; [exact T1|exact Hm|exact Hg| |rewrite G6; lia].
      intros x Hx. apply Hlow. unfold block_addr in Hx. rewrite G5 in Hx. lia.
    + intros c Hcc. rewrite Gl. apply T2. rewrite <- Gc. exact Hcc.
    + unfold mapped. rewrite Gv, Gn, G5, G6. lia.
    + rewrite Gc. exact Hc.
    + rewrite Gv. exact Hpi.
    + rewrite <- Hi. apply Hl8. pose proof pi3_low. lia.
    + rewrite Gc. exact Ha.
    + rewrite Gv, <- Hz. apply Hl8. rewrite G5. lia.
  - split.
    + unfold mapped. rewrite Gv, Gn, G5, G6. split; [lia|reflexivity].
    + rewrite Gn, G6. lia.
    + intros b Hb. rewrite Gn. apply (lb_bounds table4 F b HF), Hfr, Hb.
    + exact Hnd.
    + rewrite Gv. exact Hch.
  - destruct table4_memory as (_ & Hh & _). rewrite <- Hh. apply Hl8. pose proof pi3_low. lia.
Qed.

Lemma shutdown_record_lost_witness :
  exists w w', record_blocknodes 0 msecs_250 (demo_env 0) 0 pi3 (4096 * 7) w = Some (tt, w') /\
    nova_can_skip_full_scan garbage4 0 msecs_250 (demo_env 0) 0 w' = Some (false, w').
Proof.
  destruct log4_reserved as (P & R & HP & Hok & Hlog & Hh). destruct init_monitor_ok as (mon & _ & Hmon).
  assert (virt_addr log4 = 65536) as Gv by (vm_compute; reflexivity).
  exists (World log4 mon (InodeHeader ∅ ∅ 0 0 0 0 0 0 0 0 0 0 0)).
  destruct (shutdown_record_lost garbage4 0 msecs_250 (demo_env 0) 0 ltac:(vm_compute; discriminate)
    (World log4 mon (InodeHeader ∅ ∅ 0 0 0 0 0 0 0 0 0 0 0))
    P pi3 (4096 * 6) [] 0 R [7]) as (w' & E & _ & _ & _ & Hs).
  - exact HP.
  - exact Hok.
  - exact Hlog.
  - cbn [w_sbi]. pose proof (few_ranges log4 R 2 Hok ltac:(vm_compute; reflexivity)) as Hl.
    assert (Z.to_nat (cpus log4) = 4%nat) as E4 by (vm_compute; reflexivity). rewrite E4 in *. change (length [7]) with 1%nat. lia.
  - change (4096 * 6 / 4096) with 6. intros Hin. apply list_elem_of_singleton in Hin. discriminate Hin.
  - exact Hmon.
  - reflexivity.
  - cbn [w_sbi]. rewrite Gv. reflexivity.
  - exact Hh.
  - exists w'. split; [exact E|exact Hs].
Defined.
End RecordDemo.
