(* ===== verification/Crawl.v ===== *)
(** * Marking the blocks of a log (bbuild.c)

    After a crash the recovery walks the log of every inode and marks in a bitmap the pages
    of the log and the data blocks its entries refer to.  A file is replayed in windows of
    [MAX_PGOFF] pages: the array of a [task_ring] holds the block of each page of the
    window, and the log is walked once per window. *)

From S2P Require Import Prelude Layout RangeTree RbList State Balloc BallocFacts BallocSpec.
From S2P Require Import BallocInit BallocTheorems TreeEdits InodeMap LogBlocks InodeTable.
From S2P Require Import Monitor Histogram HashTable Records KnapSack Detect WriteCount Migrate.
From S2P Require Import LogPages World InodeLog BlockMap.
#[local] Open Scope word_scope.

Definition MAX_PGOFF : Z := 262144.

(** [struct task_ring]: the pages of inodes to scan, the number of inodes found, and the
    array of [MAX_PGOFF] block numbers, of which those that are not 0 are kept. *)
Record task_ring := TaskRing {
  addr : list Z;
  inodes_used_count : Z;
  array : gmap Z Z;
}.

Definition read_array (ring : task_ring) (i : Z) : option Z :=
  if (0 <=? i) && (i <? MAX_PGOFF) then Some (default 0 (array ring !! i)) else None.

Definition write_array (i v : Z) (ring : task_ring) : option task_ring :=
  if (0 <=? i) && (i <? MAX_PGOFF) then
    Some (TaskRing (addr ring) (inodes_used_count ring)
            (if v =? 0 then delete i (array ring) else <[i := v]> (array ring)))
  else None.

(** ** The code *)

(** The loop of [nova_set_ring_array] over [n] pages from [pgoff] on. *)
Fixpoint ring_array_loop (n : nat) (m : memory) (entry base pgoff : Z) (ring : task_ring) :
    option task_ring :=
  match n with
  | O => Some ring
  | S n =>
    ring ← write_array (pgoff ⊟ base)
      (u64 (Z.shiftr (We.block m entry) PAGE_SHIFT + pgoff - We.pgoff m entry)) ring;
    ring_array_loop n m entry base (pgoff ⊞ 1) ring
  end.

Definition nova_set_ring_array (m : memory) (entry : Z) (ring : task_ring) (base : Z) :
    option task_ring :=
  let start := We.pgoff m entry in
  let start := if start <? base then base else start in
  let end_ := We.pgoff m entry ⊞ We.num_pages m entry in
  let end_ := if base ⊞ MAX_PGOFF <? end_ then base ⊞ MAX_PGOFF else end_ in
  ring_array_loop (Z.to_nat (end_ - start)) m entry base start ring.

(** The loop of [nova_set_file_bm] over [n] pages of the window. *)
Fixpoint file_bm_loop (n : nat) (pgoff : Z) (ring : task_ring) (bm : scan_bitmap) :
    option (task_ring * scan_bitmap) :=
  match n with
  | O => Some (ring, bm)
  | S n =>
    nvmm ← read_array ring pgoff;
    if negb (nvmm =? 0) then
      bm ← set_bm nvmm bm BM_4K;
      ring ← write_array pgoff 0 ring;
      file_bm_loop n (pgoff + 1) ring bm
    else file_bm_loop n (pgoff + 1) ring bm
  end.

Definition nova_set_file_bm (ring : task_ring) (bm : scan_bitmap) (base last_blocknr : Z) :
    option (task_ring * scan_bitmap) :=
  let last_blocknr := if base ⊞ MAX_PGOFF <=? last_blocknr then MAX_PGOFF - 1
                      else last_blocknr ⊟ base in
  file_bm_loop (Z.to_nat (last_blocknr + 1)) 0 ring bm.

(** The pages [pgoff], ... of the window become holes. *)
Fixpoint clear_array_loop (n : nat) (base pgoff : Z) (ring : task_ring) : option task_ring :=
  match n with
  | O => Some ring
  | S n => ring ← write_array (pgoff ⊟ base) 0 ring; clear_array_loop n base (pgoff ⊞ 1) ring
  end.

(** The first and the last page a truncation from [i_size] to [size] removes. *)
Definition truncated_pages (i_size size data_bits : Z) : Z * Z :=
  let start := i64 size in
  let end_ := i64 i_size in
  (Z.shiftr (u64 (start + Z.shiftl 1 data_bits - 1)) data_bits,
   if 0 <? end_ then Z.shiftr (end_ - 1) data_bits else 0).

(** [nova_ring_setattr_entry]: the ring and the new size. *)
Definition nova_ring_setattr_entry (m : memory) (entry : Z) (ring : task_ring)
    (base data_bits i_size : Z) : option (task_ring * Z) :=
  if Sa.size m entry <? i_size then
    let '(first_blocknr, last_blocknr) := truncated_pages i_size (Sa.size m entry) data_bits in
    if last_blocknr <? first_blocknr then Some (ring, Sa.size m entry)
    else
      let first_blocknr := if first_blocknr <? base then base else first_blocknr in
      let last_blocknr := if u64 (base + MAX_PGOFF - 1) <? last_blocknr
                          then u64 (base + MAX_PGOFF - 1) else last_blocknr in
      ring ← clear_array_loop (Z.to_nat (last_blocknr + 1 - first_blocknr)) base first_blocknr ring;
      Some (ring, Sa.size m entry)
  else Some (ring, Sa.size m entry).

(** The state of the walk over a log: the ring, the bitmap and [sih->i_size]. *)
Record crawl := Crawl {
  c_ring : task_ring;
  c_bm : scan_bitmap;
  c_size : Z;
}.

(** [BUG_ON(curr_p & (PAGE_SIZE - 1)); set_bm(curr_p >> PAGE_SHIFT, bm, BM_4K)] *)
Definition mark_log_page (curr_p : Z) (bm : scan_bitmap) : option scan_bitmap :=
  if Z.land curr_p (PAGE_SIZE - 1) =? 0 then set_bm (Z.shiftr curr_p PAGE_SHIFT) bm BM_4K else None.

(** One entry at address [p] of [nova_traverse_file_inode_log]: its length and the new
    state.  An unknown type is taken for a write entry. *)
Definition traverse_entry (m : memory) (p base data_bits : Z) (c : crawl) : option (Z * crawl) :=
  let type := nova_get_entry_type m p in
  if type =? SET_ATTR then
    r ← nova_ring_setattr_entry m p (c_ring c) base data_bits (c_size c);
    let '(ring, size) := (r : task_ring * Z) in
    Some (Sa.length, Crawl ring (c_bm c) size)
  else if type =? LINK_CHANGE then Some (Lc.length, c)
  else
    ring ← (if negb (We.num_pages m p =? We.invalid_pages m p) &&
               (We.pgoff m p <? base ⊞ MAX_PGOFF) && (base <? We.pgoff m p ⊞ We.num_pages m p)
            then nova_set_ring_array m p (c_ring c) base else Some (c_ring c));
    Some (We.length, Crawl ring (c_bm c) (We.size m p)).

(** The loop up to the tail of the log; [fuel] bounds it by the bytes of the device.  The
    pages are marked in the first window only. *)
Fixpoint traverse_loop (fuel : nat) (sbi : nova_sb_info) (log_tail base data_bits curr_p : Z)
    (c : crawl) : option (Z * crawl) :=
  if curr_p =? log_tail then Some (curr_p, c)
  else
    match fuel with
    | O => None
    | S fuel =>
      if curr_p =? 0 then None
      else
        r ← (if goto_next_page sbi curr_p then
               let curr_p := next_log_page sbi curr_p in
               bm ← (if base =? 0 then mark_log_page curr_p (c_bm c) else Some (c_bm c));
               Some (curr_p, Crawl (c_ring c) bm (c_size c))
             else Some (curr_p, c));
        let '(curr_p, c) := (r : Z * crawl) in
        if curr_p =? 0 then None
        else
          r ← traverse_entry (nvm sbi) (nova_get_block (virt_addr sbi) curr_p) base data_bits c;
          let '(len, c) := (r : Z * crawl) in
          traverse_loop fuel sbi log_tail base data_bits (curr_p ⊞ len) c
    end.

(** The pages behind [curr_p] are marked; [fuel] bounds the chain. *)
Fixpoint mark_chain (fuel : nat) (sbi : nova_sb_info) (curr_p : Z) (bm : scan_bitmap) :
    option scan_bitmap :=
  if curr_p =? 0 then None
  else
    let next := page_next (nvm sbi) (nova_get_block (virt_addr sbi) curr_p) in
    if next =? 0 then Some bm
    else
      match fuel with
      | O => None
      | S fuel => bm ← mark_log_page next bm; mark_chain fuel sbi next bm
      end.

(** One walk over the log, for the window from [base] on: the state and, unless the file is
    empty, its last page. *)
Definition traverse_pass (sbi : nova_sb_info) (pi base data_bits : Z) (c : crawl) :
    option (option Z * crawl) :=
  let curr_p := Pi.log_head (nvm sbi) pi in
  let log_tail := Pi.log_tail (nvm sbi) pi in
  let c := Crawl (c_ring c) (c_bm c) 0 in
  if (curr_p =? 0) && (log_tail =? 0) then Some (None, c)
  else
    bm ← (if base =? 0 then mark_log_page curr_p (c_bm c) else Some (c_bm c));
    r ← traverse_loop (Z.to_nat (4096 * num_blocks sbi)) sbi log_tail base data_bits curr_p
          (Crawl (c_ring c) bm (c_size c));
    let '(curr_p, c) := (r : Z * crawl) in
    bm ← (if base =? 0
          then mark_chain (Z.to_nat (num_blocks sbi)) sbi (BLOCK_OFF curr_p) (c_bm c)
          else Some (c_bm c));
    if c_size c =? 0 then Some (None, Crawl (c_ring c) bm (c_size c))
    else
      let last_blocknr := Z.shiftr (u64 (c_size c - 1)) data_bits in
      r ← nova_set_file_bm (c_ring c) bm base last_blocknr;
      let '(ring, bm) := (r : task_ring * scan_bitmap) in
      Some (Some last_blocknr, Crawl ring bm (c_size c)).

(** The windows behind the first one ([goto again]); [n] is their number. *)
Fixpoint traverse_windows (n : nat) (sbi : nova_sb_info) (pi base data_bits : Z) (c : crawl) :
    option crawl :=
  r ← traverse_pass sbi pi base data_bits c;
  let '(last, c) := (r : option Z * crawl) in
  match last with
  | None => Some c
  | Some last_blocknr =>
    if base ⊞ MAX_PGOFF <=? last_blocknr then
      match n with
      | O => None
      | S n => traverse_windows n sbi pi (base ⊞ MAX_PGOFF) data_bits c
      end
    else Some c
  end.

(** [nova_traverse_file_inode_log] of the inode at [pi]. *)
Definition nova_traverse_file_inode_log (sbi : nova_sb_info) (pi : Z) (ring : task_ring)
    (bm : scan_bitmap) : option crawl :=
  data_bits ← blk_type_to_shift (Pi.i_blk_type (nvm sbi) pi);
  r ← traverse_pass sbi pi 0 data_bits (Crawl ring bm 0);
  let '(last, c) := (r : option Z * crawl) in
  match last with
  | None => Some c
  | Some last_blocknr =>
    if MAX_PGOFF <=? last_blocknr
    then traverse_windows (Z.to_nat (last_blocknr / MAX_PGOFF)) sbi pi MAX_PGOFF data_bits c
    else Some c
  end.

Definition nova_traverse_dir_inode_log (sbi : nova_sb_info) (pi : Z) (bm : scan_bitmap) :
    option scan_bitmap :=
  let curr_p := Pi.log_head (nvm sbi) pi in
  if curr_p =? 0 then None
  else
    bm ← mark_log_page curr_p bm;
    mark_chain (Z.to_nat (num_blocks sbi)) sbi curr_p bm.

(** ** What a log says *)

(** The entries of the log of a file. *)
Inductive log_item :=
  | Write (type pgoff num block : Z) (live : bool) (size : Z)
  | Attr (mode size : Z)
  | Link.

Definition item_at (m : memory) (p : Z) : log_item :=
  let type := nova_get_entry_type m p in
  if type =? SET_ATTR then Attr (Sa.mode m p) (Sa.size m p)
  else if type =? LINK_CHANGE then Link
  else Write type (We.pgoff m p) (We.num_pages m p) (Z.shiftr (We.block m p) PAGE_SHIFT)
         (negb (We.num_pages m p =? We.invalid_pages m p)) (We.size m p).

Definition item_len (it : log_item) : Z :=
  match it with Write _ _ _ _ _ _ => We.length | Attr _ _ => Sa.length | Link => Lc.length end.

(** The entries between [curr_p] and the tail, and the pages that are entered on the way. *)
Fixpoint log_items (fuel : nat) (sbi : nova_sb_info) (log_tail curr_p : Z) :
    option (list Z * list log_item) :=
  if curr_p =? log_tail then Some ([], [])
  else
    match fuel with
    | O => None
    | S fuel =>
      if curr_p =? 0 then None
      else
        let next := goto_next_page sbi curr_p in
        let q := if next then next_log_page sbi curr_p else curr_p in
        if q =? 0 then None
        else
          let it := item_at (nvm sbi) (nova_get_block (virt_addr sbi) q) in
          r ← log_items fuel sbi log_tail (q ⊞ item_len it);
          let '(pages, items) := (r : list Z * list log_item) in
          Some ((if next then [q] else []) ++ pages, it :: items)
    end.

(** The size of the file and the block of its page [p] (0 for a hole) after an entry: a
    write with a valid page maps its pages, a truncation unmaps those behind the new size. *)
Definition replay_item (data_bits p : Z) (st : Z * Z) (it : log_item) : Z * Z :=
  let '(size, b) := st in
  match it with
  | Write _ pgoff num block live size' =>
    (size', if live && (pgoff <=? p) && (p <? pgoff + num) then block + (p - pgoff) else b)
  | Attr _ size' =>
    (size', if (size' <=? p * 2 ^ data_bits) && (p * 2 ^ data_bits <? size) then 0 else b)
  | Link => (size, b)
  end.

Definition replay (data_bits p : Z) (items : list log_item) : Z * Z :=
  fold_left (replay_item data_bits p) items (0, 0).

(** The size of the file after its entries. *)
Definition item_size (size : Z) (it : log_item) : Z :=
  match it with Write _ _ _ _ _ size' => size' | Attr _ size' => size' | Link => size end.

Definition final_size (items : list log_item) : Z := fold_left item_size items 0.

(** The pages [pages] follow [q] in the chain of the log, and none follows them. *)
Fixpoint linked (sbi : nova_sb_info) (q : Z) (pages : list Z) : Prop :=
  let next := page_next (nvm sbi) (nova_get_block (virt_addr sbi) q) in
  match pages with
  | [] => next = 0
  | r :: rest => next = r /\ r <> 0 /\ linked sbi r rest
  end.

(** Entries whose numbers do not wrap around. *)
Definition item_wf (it : log_item) : Prop :=
  match it with
  | Write _ pgoff num block _ size =>
    0 <= pgoff /\ 0 <= num /\ pgoff + num < 2 ^ 63 /\ 0 <= block /\ block + num < 2 ^ 63 /\ 0 <= size < 2 ^ 63
  | Attr _ size => 0 <= size < 2 ^ 63
  | Link => True
  end.

(** ** The array *)

Definition slot_of (ring : task_ring) (i : Z) : Z := default 0 (array ring !! i).

Definition same_ring (ring ring' : task_ring) : Prop :=
  addr ring' = addr ring /\ inodes_used_count ring' = inodes_used_count ring.

Lemma same_ring_trans r1 r2 r3 : same_ring r1 r2 -> same_ring r2 r3 -> same_ring r1 r3.
Proof. unfold same_ring. intuition congruence. Qed.

Lemma write_array_ok i v ring :
  0 <= i < MAX_PGOFF -> exists ring', write_array i v ring = Some ring' /\ same_ring ring ring' /\
    forall j, slot_of ring' j = if j =? i then v else slot_of ring j.
Proof.
  intros Hi. unfold write_array. rewrite (proj2 (Z.leb_le 0 i)), (proj2 (Z.ltb_lt i _)) by lia. simpl.
  eexists. split; [done|]. split; [done|]. intros j. unfold slot_of. simpl.
  destruct (Z.eqb_spec j i) as [->|Hne], (Z.eqb_spec v 0) as [->|Hv].
  - by rewrite lookup_delete_eq.
  - by rewrite lookup_insert_eq.
  - by rewrite lookup_delete_ne.
  - by rewrite lookup_insert_ne.
Qed.

(** Writing a run of slots. *)
Lemma ring_array_loop_ok m entry base n : forall pgoff ring,
  0 <= base <= pgoff -> We.pgoff m entry <= pgoff -> pgoff + Z.of_nat n <= base + MAX_PGOFF ->
  base + MAX_PGOFF < 2 ^ 63 ->
  exists ring', ring_array_loop n m entry base pgoff ring = Some ring' /\ same_ring ring ring' /\
    forall i, slot_of ring' i =
      if (pgoff <=? i + base) && (i + base <? pgoff + Z.of_nat n)
      then Z.shiftr (We.block m entry) PAGE_SHIFT + (i + base - We.pgoff m entry) else slot_of ring i.
Proof.
  induction n as [|n IH]; intros pgoff ring Hb He Hn Hm; cbn [ring_array_loop].
  { exists ring. split; [done|]. split; [done|]. intros i.
    destruct (Z.leb_spec pgoff (i + base)), (Z.ltb_spec (i + base) (pgoff + Z.of_nat 0)); simpl; (done || lia). }
  unfold MAX_PGOFF in *. rewrite (u64_small (pgoff - base)), (u64_small (pgoff + 1)) by lia.
  assert (0 <= Z.shiftr (We.block m entry) PAGE_SHIFT < 2 ^ 52) as Hs.
  { pose proof (load_range 8 m entry) as Hr. rewrite Z.shiftr_div_pow2 by (unfold PAGE_SHIFT; lia).
    unfold We.block, PAGE_SHIFT. simpl Z.of_nat in Hr. mlia. }
  pose proof (load_range 8 m (entry + 8)). change (load 8 m (entry + 8)) with (We.pgoff m entry) in *.
  rewrite u64_small by lia.
  destruct (write_array_ok (pgoff - base) (Z.shiftr (We.block m entry) PAGE_SHIFT + pgoff - We.pgoff m entry) ring)
    as (ring1 & E1 & S1 & V1); [unfold MAX_PGOFF; lia|].
  rewrite E1. cbn [mbind option_bind]. destruct (IH (pgoff + 1) ring1) as (ring2 & E2 & S2 & V2); [lia..|].
  exists ring2. split; [done|]. split; [by eapply same_ring_trans|]. intros i. rewrite V2, V1.
  destruct (Z.eqb_spec i (pgoff - base)), (Z.leb_spec (pgoff + 1) (i + base)), (Z.leb_spec pgoff (i + base)),
    (Z.ltb_spec (i + base) (pgoff + 1 + Z.of_nat n)), (Z.ltb_spec (i + base) (pgoff + Z.of_nat (S n))); simpl;
    (done || lia).
Qed.

Lemma clear_array_loop_ok base n : forall pgoff ring,
  0 <= base <= pgoff -> pgoff + Z.of_nat n <= base + MAX_PGOFF -> base + MAX_PGOFF < 2 ^ 63 ->
  exists ring', clear_array_loop n base pgoff ring = Some ring' /\ same_ring ring ring' /\
    forall i, slot_of ring' i =
      if (pgoff <=? i + base) && (i + base <? pgoff + Z.of_nat n) then 0 else slot_of ring i.
Proof.
  induction n as [|n IH]; intros pgoff ring Hb Hn Hm; cbn [clear_array_loop].
  { exists ring. split; [done|]. split; [done|]. intros i.
    destruct (Z.leb_spec pgoff (i + base)), (Z.ltb_spec (i + base) (pgoff + Z.of_nat 0)); simpl; (done || lia). }
  unfold MAX_PGOFF in *. rewrite (u64_small (pgoff - base)), (u64_small (pgoff + 1)) by lia.
  destruct (write_array_ok (pgoff - base) 0 ring) as (ring1 & E1 & S1 & V1); [unfold MAX_PGOFF; lia|].
  rewrite E1. cbn [mbind option_bind]. destruct (IH (pgoff + 1) ring1) as (ring2 & E2 & S2 & V2); [lia..|].
  exists ring2. split; [done|]. split; [by eapply same_ring_trans|]. intros i. rewrite V2, V1.
  destruct (Z.eqb_spec i (pgoff - base)), (Z.leb_spec (pgoff + 1) (i + base)), (Z.leb_spec pgoff (i + base)),
    (Z.ltb_spec (i + base) (pgoff + 1 + Z.of_nat n)), (Z.ltb_spec (i + base) (pgoff + Z.of_nat (S n))); simpl;
    (done || lia).
Qed.

(** The slots of the window are marked and cleared. *)
Lemma file_bm_loop_ok n : forall pgoff ring bm,
  0 <= pgoff -> pgoff + Z.of_nat n <= MAX_PGOFF ->
  (forall i, pgoff <= i < pgoff + Z.of_nat n -> 0 <= slot_of ring i < Z.of_nat (length (bitmap (scan_bm_4K bm)))) ->
  exists ring' bits, file_bm_loop n pgoff ring bm = Some (ring', with_4K bits bm) /\ same_ring ring ring' /\
    length bits = length (bitmap (scan_bm_4K bm)) /\
    (forall i, slot_of ring' i = if (pgoff <=? i) && (i <? pgoff + Z.of_nat n) then 0 else slot_of ring i) /\
    (forall b, bit_set bits b = true <-> bit_set (bitmap (scan_bm_4K bm)) b = true \/
       (b <> 0 /\ exists i, pgoff <= i < pgoff + Z.of_nat n /\ slot_of ring i = b)).
Proof.
  induction n as [|n IH]; intros pgoff ring bm Hp Hn Hv; cbn [file_bm_loop].
  { exists ring, (bitmap (scan_bm_4K bm)). split; [by destruct bm as [[] ? ?]|]. split; [done|]. split; [done|]. split.
    - intros i. destruct (Z.leb_spec pgoff i), (Z.ltb_spec i (pgoff + Z.of_nat 0)); simpl; (done || lia).
    - intros b. split; [tauto|]. intros [?|(_ & i & Hi & _)]; [done|lia]. }
  assert (read_array ring pgoff = Some (slot_of ring pgoff)) as ->.
  { unfold read_array. by rewrite (proj2 (Z.leb_le 0 _)), (proj2 (Z.ltb_lt _ _)) by lia. }
  cbn [mbind option_bind]. destruct (Z.eqb_spec (slot_of ring pgoff) 0) as [E0|Hne]; cbn [negb].
  - destruct (IH (pgoff + 1) ring bm) as (ring2 & bits2 & E2 & S2 & L2 & V2 & B2); [lia|lia|intros; apply Hv; lia|].
    exists ring2, bits2. split; [done|]. split; [done|]. split; [done|]. split.
    + intros i. rewrite V2. destruct (decide (i = pgoff)) as [->|].
      * rewrite E0. destruct (Z.leb_spec (pgoff + 1) pgoff), (Z.leb_spec pgoff pgoff),
          (Z.ltb_spec pgoff (pgoff + Z.of_nat (S n))); simpl; (done || lia).
      * destruct (Z.leb_spec (pgoff + 1) i), (Z.leb_spec pgoff i), (Z.ltb_spec i (pgoff + 1 + Z.of_nat n)),
          (Z.ltb_spec i (pgoff + Z.of_nat (S n))); simpl; (done || lia).
    + intros b. rewrite B2. split; (intros [?|(Hb & i & Hi & Hib)]; [by left|right; split; [done|]]).
      * exists i. split; [lia|done].
      * exists i. split; [|done]. destruct (decide (i = pgoff)) as [->|]; [congruence|lia].
  - destruct (set_bm_4K_ok (slot_of ring pgoff) bm) as (bits1 & E1 & L1 & B1); [apply Hv; lia|].
    rewrite E1. cbn [mbind option_bind].
    destruct (write_array_ok pgoff 0 ring) as (ring1 & E3 & S1 & V1); [lia|]. rewrite E3. cbn [mbind option_bind].
    destruct (IH (pgoff + 1) ring1 (with_4K bits1 bm)) as (ring2 & bits2 & E2 & S2 & L2 & V2 & B2); [lia|lia| |].
    { intros i Hi. simpl. rewrite V1, L1. destruct (Z.eqb_spec i pgoff); [lia|]. apply Hv. lia. }
    simpl in *. exists ring2, bits2. split; [done|]. split; [by eapply same_ring_trans|]. split; [congruence|]. split.
    + intros i. rewrite V2, V1. destruct (Z.eqb_spec i pgoff), (Z.leb_spec (pgoff + 1) i), (Z.leb_spec pgoff i),
        (Z.ltb_spec i (pgoff + 1 + Z.of_nat n)), (Z.ltb_spec i (pgoff + Z.of_nat (S n))); simpl; (done || lia).
    + intros b. rewrite B2, B1, orb_true_iff, Z.eqb_eq. split.
      * intros [[->|?]|(Hb & i & Hi & Hib)]; [right; split; [done|exists pgoff; split; [lia|done]]|by left|right].
        rewrite V1 in Hib. destruct (Z.eqb_spec i pgoff); [lia|]. split; [done|]. exists i. split; [lia|done].
      * intros [?|(Hb & i & Hi & Hib)]; [tauto|]. destruct (decide (i = pgoff)) as [->|]; [left; left; done|].
        right. split; [done|]. exists i. split; [lia|]. rewrite V1. by destruct (Z.eqb_spec i pgoff).
Qed.

(** ** One window *)

Lemma replay_item_eq data_bits p size b it :
  replay_item data_bits p (size, b) it = (item_size size it, snd (replay_item data_bits p (size, b) it)).
Proof. by destruct it. Qed.

(** The pages a truncation removes are those that lie behind the new size. *)
Lemma truncated_pages_ok i_size size data_bits :
  0 <= size < 2 ^ 63 -> 0 <= i_size < 2 ^ 63 -> size < i_size -> 0 <= data_bits <= 30 ->
  exists first last, truncated_pages i_size size data_bits = (first, last) /\ 0 <= first /\
    (0 <= last < 2 ^ 63 /\ last * 2 ^ data_bits < i_size) /\
    forall p, first <= p <= last <-> size <= p * 2 ^ data_bits /\ p * 2 ^ data_bits < i_size.
Proof.
  intros Hs Hi Hlt Hb. unfold truncated_pages. rewrite !i64_small by lia.
  rewrite (proj2 (Z.ltb_lt 0 i_size)) by lia. rewrite Z.shiftl_mul_pow2, Z.mul_1_l, !Z.shiftr_div_pow2 by lia.
  assert (0 < 2 ^ data_bits <= 2 ^ 30) as Hp by (split; [lia|apply Z.pow_le_mono_r; lia]).
  set (k := 2 ^ data_bits) in *. rewrite u64_small by lia.
  eexists _, _. split; [done|]. split; [apply Z.div_pos; lia|]. split.
  { split; [split; [apply Z.div_pos; lia|]; apply Z.div_lt_upper_bound; nia|].
    pose proof (Z.mul_div_le (i_size - 1) k). lia. }
  intros p. split.
  - intros [H1 H2]. pose proof (Z.div_mod (size + k - 1) k). pose proof (Z.mod_pos_bound (size + k - 1) k).
    pose proof (Z.div_mod (i_size - 1) k). pose proof (Z.mod_pos_bound (i_size - 1) k). nia.
  - intros [H1 H2]. split.
    + apply Z.lt_succ_r, Z.div_lt_upper_bound; nia.
    + apply Z.div_le_lower_bound; nia.
Qed.

Lemma ring_setattr_ok m entry ring base data_bits i_size :
  0 <= base -> base + MAX_PGOFF < 2 ^ 62 -> 0 <= data_bits <= 30 ->
  0 <= Sa.size m entry < 2 ^ 63 -> 0 <= i_size < 2 ^ 63 ->
  exists ring', nova_ring_setattr_entry m entry ring base data_bits i_size = Some (ring', Sa.size m entry) /\
    same_ring ring ring' /\ (forall i, ~ 0 <= i < MAX_PGOFF -> slot_of ring' i = slot_of ring i) /\
    (forall i, 0 <= i < MAX_PGOFF -> slot_of ring' i =
       snd (replay_item data_bits (i + base) (i_size, slot_of ring i) (Attr (Sa.mode m entry) (Sa.size m entry)))).
Proof.
  intros Hb Hbm Hd Hs Hi. unfold nova_ring_setattr_entry. set (size := Sa.size m entry) in *.
  destruct (Z.ltb_spec size i_size) as [Hlt|Hge].
  2:{ exists ring. split_and!; auto; [done|]. intros i Hir. simpl.
      destruct (Z.leb_spec size ((i + base) * 2 ^ data_bits)), (Z.ltb_spec ((i + base) * 2 ^ data_bits) i_size);
        simpl; (done || lia). }
  destruct (truncated_pages_ok i_size size data_bits Hs Hi Hlt Hd) as (first & last & -> & Hf & Hl & Hp).
  destruct (Z.ltb_spec last first) as [Hlf|Hlf].
  { exists ring. split_and!; auto; [done|]. intros i Hir. simpl. pose proof (Hp (i + base)).
    destruct (Z.leb_spec size ((i + base) * 2 ^ data_bits)), (Z.ltb_spec ((i + base) * 2 ^ data_bits) i_size);
      simpl; (done || lia). }
  unfold MAX_PGOFF in *. rewrite u64_small by lia.
  set (f := if first <? base then base else first). set (l := if base + 262144 - 1 <? last then base + 262144 - 1 else last).
  assert (f = Z.max first base /\ l = Z.min last (base + 262144 - 1)) as [Ef El]
    by (unfold f, l; destruct (Z.ltb_spec first base), (Z.ltb_spec (base + 262144 - 1) last); lia).
  destruct (Z.leb_spec f l) as [Hfl|Hfl].
  - destruct (clear_array_loop_ok base (Z.to_nat (l + 1 - f)) f ring) as (ring' & -> & Hsr & V);
      [lia|unfold MAX_PGOFF; lia|unfold MAX_PGOFF; lia|]. cbn [mbind option_bind].
    exists ring'. split; [done|]. split; [done|]. split; intros i Hir; rewrite V; pose proof (Hp (i + base)); simpl;
      destruct (Z.leb_spec f (i + base)), (Z.ltb_spec (i + base) (f + Z.of_nat (Z.to_nat (l + 1 - f)))),
        (Z.leb_spec size ((i + base) * 2 ^ data_bits)), (Z.ltb_spec ((i + base) * 2 ^ data_bits) i_size);
        simpl; (done || lia).
  - replace (Z.to_nat (l + 1 - f)) with 0%nat by lia. cbn [clear_array_loop mbind option_bind].
    exists ring. split_and!; auto; [done|]. intros i Hir. simpl. pose proof (Hp (i + base)).
    destruct (Z.leb_spec size ((i + base) * 2 ^ data_bits)), (Z.ltb_spec ((i + base) * 2 ^ data_bits) i_size);
      simpl; (done || lia).
Qed.

Lemma set_ring_array_ok m entry ring base :
  0 <= base -> base + MAX_PGOFF < 2 ^ 62 -> 0 <= We.pgoff m entry -> 0 <= We.num_pages m entry ->
  We.pgoff m entry + We.num_pages m entry < 2 ^ 63 ->
  We.pgoff m entry < base + MAX_PGOFF -> base < We.pgoff m entry + We.num_pages m entry ->
  exists ring', nova_set_ring_array m entry ring base = Some ring' /\ same_ring ring ring' /\
    (forall i, ~ 0 <= i < MAX_PGOFF -> slot_of ring' i = slot_of ring i) /\
    (forall i, 0 <= i < MAX_PGOFF -> slot_of ring' i =
       if (We.pgoff m entry <=? i + base) && (i + base <? We.pgoff m entry + We.num_pages m entry)
       then Z.shiftr (We.block m entry) PAGE_SHIFT + (i + base - We.pgoff m entry) else slot_of ring i).
Proof.
  intros Hb Hbm Hp Hn Hs H1 H2. unfold nova_set_ring_array. unfold MAX_PGOFF in *.
  rewrite (u64_small (We.pgoff m entry + _)), (u64_small (base + _)) by lia.
  set (s := if We.pgoff m entry <? base then base else We.pgoff m entry).
  set (f := if base + 262144 <? _ then _ else _).
  assert (s = Z.max (We.pgoff m entry) base /\ f = Z.min (We.pgoff m entry + We.num_pages m entry) (base + 262144))
    as [Es Ef] by (unfold s, f; destruct (Z.ltb_spec (We.pgoff m entry) base),
      (Z.ltb_spec (base + 262144) (We.pgoff m entry + We.num_pages m entry)); lia).
  destruct (ring_array_loop_ok m entry base (Z.to_nat (f - s)) s ring) as (ring' & -> & Hsr & V);
    [lia|lia|unfold MAX_PGOFF; lia|unfold MAX_PGOFF; lia|].
  exists ring'. split; [done|]. split; [done|]. split; intros i Hi; rewrite V;
    destruct (Z.leb_spec s (i + base)), (Z.ltb_spec (i + base) (s + Z.of_nat (Z.to_nat (f - s)))),
      (Z.leb_spec (We.pgoff m entry) (i + base)), (Z.ltb_spec (i + base) (We.pgoff m entry + We.num_pages m entry));
      simpl; (done || lia).
Qed.

(** A page of a log that the bitmap [bits] has a bit for. *)
Definition markable (bits : list bool) (q : Z) : Prop :=
  q mod 4096 = 0 /\ 0 <= q / 4096 < Z.of_nat (length bits).

Lemma mark_log_page_ok q bm :
  markable (bitmap (scan_bm_4K bm)) q ->
  exists bits, mark_log_page q bm = Some (with_4K bits bm) /\
    length bits = length (bitmap (scan_bm_4K bm)) /\
    forall b, bit_set bits b = true <-> bit_set (bitmap (scan_bm_4K bm)) b = true \/ b = q / 4096.
Proof.
  intros [Ha Hr]. unfold mark_log_page. change (PAGE_SIZE - 1) with (Z.ones 12).
  rewrite Z.land_ones by lia. change (2 ^ 12) with 4096. rewrite Ha. cbn [Z.eqb].
  rewrite Z.shiftr_div_pow2 by (unfold PAGE_SHIFT; lia). change (2 ^ PAGE_SHIFT) with 4096.
  destruct (set_bm_4K_ok (q / 4096) bm Hr) as (bits & E & Hl & Hb). exists bits. split; [done|].
  split; [done|]. intros b. rewrite Hb, orb_true_iff, Z.eqb_eq. tauto.
Qed.

Lemma with_4K_twice bits bits' bm : with_4K bits (with_4K bits' bm) = with_4K bits bm.
Proof. done. Qed.

Lemma with_4K_same bm : with_4K (bitmap (scan_bm_4K bm)) bm = bm.
Proof. by destruct bm as [[] ? ?]. Qed.

Section window.
Context (sbi : nova_sb_info) (base data_bits : Z).
Hypothesis base_range : 0 <= base /\ base + MAX_PGOFF < 2 ^ 62.
Hypothesis data_bits_range : 0 <= data_bits <= 30.

(** The slots of the window follow the entries [items] of a file of [size] bytes. *)
Record follows (size : Z) (items : list log_item) (ring ring' : task_ring) : Prop := {
  fo_same : same_ring ring ring';
  fo_outside i : ~ 0 <= i < MAX_PGOFF -> slot_of ring' i = slot_of ring i;
  fo_slot i : 0 <= i < MAX_PGOFF ->
    slot_of ring' i = snd (fold_left (replay_item data_bits (i + base)) items (size, slot_of ring i));
}.

Lemma follows_nil size ring : follows size [] ring ring.
Proof. by split. Qed.

Lemma follows_cons size it items ring ring1 ring2 :
  follows size [it] ring ring1 -> follows (item_size size it) items ring1 ring2 ->
  follows size (it :: items) ring ring2.
Proof.
  intros [S1 O1 V1] [S2 O2 V2]. split.
  - by eapply same_ring_trans.
  - intros i Hi. by rewrite O2, O1.
  - intros i Hi. rewrite V2, V1 by done. cbn [fold_left]. by rewrite replay_item_eq.
Qed.

(** An entry. *)
Lemma traverse_entry_ok p c :
  item_wf (item_at (nvm sbi) p) -> 0 <= c_size c < 2 ^ 63 ->
  exists ring', traverse_entry (nvm sbi) p base data_bits c =
      Some (item_len (item_at (nvm sbi) p),
            Crawl ring' (c_bm c) (item_size (c_size c) (item_at (nvm sbi) p))) /\
    follows (c_size c) [item_at (nvm sbi) p] (c_ring c) ring'.
Proof.
  destruct base_range as [Hb Hbm]. unfold traverse_entry, item_at. set (m := nvm sbi).
  destruct (nova_get_entry_type m p =? SET_ATTR) eqn:T1; [|destruct (nova_get_entry_type m p =? LINK_CHANGE)];
    intros Hwf Hs; cbn [item_wf item_len item_size] in *.
  - destruct (ring_setattr_ok m p (c_ring c) base data_bits (c_size c) Hb Hbm data_bits_range Hwf Hs)
      as (ring' & -> & Hsr & Ho & Hv). cbn [mbind option_bind]. exists ring'. split; [done|]. by split.
  - exists (c_ring c). split; [by destruct c|]. by split.
  - destruct Hwf as (W1 & W2 & W3 & W4 & W5 & W6). unfold MAX_PGOFF in Hbm.
    rewrite (u64_small (base + MAX_PGOFF)), (u64_small (We.pgoff m p + _)) by (unfold MAX_PGOFF; lia).
    destruct (We.num_pages m p =? We.invalid_pages m p); cbn [negb andb].
    { cbn [mbind option_bind]. exists (c_ring c). split; [done|]. by split. }
    destruct (Z.ltb_spec (We.pgoff m p) (base + MAX_PGOFF)) as [L1|L1],
      (Z.ltb_spec base (We.pgoff m p + We.num_pages m p)) as [L2|L2]; cbn [andb].
    1: { destruct (set_ring_array_ok m p (c_ring c) base) as (ring' & -> & Hsr & Ho & Hv); auto.
         cbn [mbind option_bind]. exists ring'. split; [done|]. by split. }
    all: cbn [mbind option_bind]; exists (c_ring c); split; [done|]; split; [done|done|]; intros i Hi; simpl;
      unfold MAX_PGOFF in *;
      destruct (Z.leb_spec (We.pgoff m p) (i + base)), (Z.ltb_spec (i + base) (We.pgoff m p + We.num_pages m p));
      simpl; (done || lia).
Qed.

(** The walk to the tail. *)
Lemma traverse_loop_ok log_tail fuel : forall curr_p c pages items,
  log_items fuel sbi log_tail curr_p = Some (pages, items) -> Forall item_wf items ->
  0 <= c_size c < 2 ^ 63 -> (base = 0 -> Forall (markable (bitmap (scan_bm_4K (c_bm c)))) pages) ->
  exists ring' bits, traverse_loop fuel sbi log_tail base data_bits curr_p c =
      Some (log_tail, Crawl ring' (with_4K bits (c_bm c)) (fold_left item_size items (c_size c))) /\
    follows (c_size c) items (c_ring c) ring' /\ 0 <= fold_left item_size items (c_size c) < 2 ^ 63 /\
    length bits = length (bitmap (scan_bm_4K (c_bm c))) /\
    forall b, bit_set bits b = true <-> bit_set (bitmap (scan_bm_4K (c_bm c))) b = true \/
      (base = 0 /\ exists q, q ∈ pages /\ b = q / 4096).
Proof.
  induction fuel as [|fuel IH]; intros curr_p c pages items El Hwf Hs Hpg; cbn [log_items traverse_loop] in *;
    (destruct (Z.eqb_spec curr_p log_tail) as [->|Hne];
     [injection El as <- <-; exists (c_ring c), (bitmap (scan_bm_4K (c_bm c))); rewrite with_4K_same;
      split; [by destruct c|]; split; [apply follows_nil|]; split; [done|]; split; [done|];
      intros b; split; [tauto|]; intros [?|(_ & q & Hq & _)]; [done|by apply elem_of_nil in Hq]|]); [done|].
  destruct (curr_p =? 0); [done|]. set (q := if goto_next_page sbi curr_p then _ else curr_p) in *.
  destruct (q =? 0) eqn:Eq0; [done|]. set (it := item_at _ _) in *.
  destruct (log_items fuel sbi log_tail (u64 (q + item_len it))) as [[pages' items']|] eqn:Er; [|done].
  cbn [mbind option_bind] in El. injection El as <- <-. apply Forall_cons_1 in Hwf as [Hwi Hwf].
  (* the page *)
  assert (exists bits1, (if goto_next_page sbi curr_p then
      bm ← (if base =? 0 then mark_log_page (next_log_page sbi curr_p) (c_bm c) else Some (c_bm c));
      Some (next_log_page sbi curr_p, Crawl (c_ring c) bm (c_size c)) else Some (curr_p, c)) =
      Some (q, Crawl (c_ring c) (with_4K bits1 (c_bm c)) (c_size c)) /\
    length bits1 = length (bitmap (scan_bm_4K (c_bm c))) /\
    forall b, bit_set bits1 b = true <-> bit_set (bitmap (scan_bm_4K (c_bm c))) b = true \/
      (base = 0 /\ exists x, x ∈ (if goto_next_page sbi curr_p then [q] else []) /\ b = x / 4096))
    as (bits1 & -> & L1 & B1).
  { unfold q in *. destruct (goto_next_page sbi curr_p); [destruct (Z.eqb_spec base 0) as [E0|E0]|].
    - specialize (Hpg E0). apply Forall_cons_1 in Hpg as [Hq _].
      destruct (mark_log_page_ok _ _ Hq) as (bits1 & -> & L1 & B1). exists bits1. split; [done|]. split; [done|].
      intros b. rewrite B1. setoid_rewrite list_elem_of_singleton. split; [|by intros [?|(_ & x & -> & ->)]; [left|right]].
      intros [?| ->]; [by left|right; eauto].
    - exists (bitmap (scan_bm_4K (c_bm c))). rewrite with_4K_same. split; [by destruct c|]. split; [done|].
      intros b. split; [by left|]. by intros [?|[? _]].
    - exists (bitmap (scan_bm_4K (c_bm c))). rewrite with_4K_same. split; [by destruct c|]. split; [done|].
      intros b. split; [by left|]. intros [?|(_ & x & Hx & _)]; [done|by apply elem_of_nil in Hx]. }
  cbn [mbind option_bind]. rewrite Eq0.
  destruct (traverse_entry_ok (nova_get_block (virt_addr sbi) q) (Crawl (c_ring c) (with_4K bits1 (c_bm c)) (c_size c)))
    as (ring1 & -> & Hf1); [done|done|]. cbn [mbind option_bind c_size c_bm c_ring] in *. fold it in Hf1 |- *.
  assert (0 <= item_size (c_size c) it < 2 ^ 63) as Hs1
    by (destruct it; cbn [item_wf item_size] in *; (done || lia)).
  destruct (IH (u64 (q + item_len it)) (Crawl ring1 (with_4K bits1 (c_bm c)) (item_size (c_size c) it)) pages' items')
    as (ring2 & bits2 & E2 & Hf2 & Hs2 & L2 & B2); auto.
  { intros E0. specialize (Hpg E0). apply Forall_app in Hpg as [_ Hpg]. simpl. unfold markable. by rewrite L1. }
  simpl in *. exists ring2, bits2. split; [done|]. split; [by eapply follows_cons|]. split; [done|].
  split; [congruence|]. intros b. rewrite B2, B1. split.
  - intros [[?|(E0 & x & Hx & ->)]|(E0 & x & Hx & ->)]; [by left|right; split; [done|]; exists x..];
      rewrite elem_of_app; tauto.
  - intros [?|(E0 & x & [Hx|Hx]%elem_of_app & ->)]; [by left; left|left; right; eauto|right; eauto].
Qed.
End window.

(** ** The rest of the chain *)

Lemma mark_chain_ok sbi rest : forall fuel q bm,
  q <> 0 -> linked sbi q rest -> (length rest <= fuel)%nat -> Forall (markable (bitmap (scan_bm_4K bm))) rest ->
  exists bits, mark_chain fuel sbi q bm = Some (with_4K bits bm) /\
    length bits = length (bitmap (scan_bm_4K bm)) /\
    forall b, bit_set bits b = true <-> bit_set (bitmap (scan_bm_4K bm)) b = true \/
      exists x, x ∈ rest /\ b = x / 4096.
Proof.
  induction rest as [|r rest IH]; intros fuel q bm Hq Hl Hf Hm; cbn [linked length] in *.
  - exists (bitmap (scan_bm_4K bm)). rewrite with_4K_same.
    destruct fuel; cbn [mark_chain]; rewrite (proj2 (Z.eqb_neq q 0) Hq), Hl; (split; [done|]; split; [done|];
      intros b; split; [by left|]; intros [?|(x & Hx & _)]; [done|by apply elem_of_nil in Hx]).
  - destruct Hl as (En & Hr & Hl). destruct fuel as [|fuel]; [lia|]. cbn [mark_chain].
    rewrite (proj2 (Z.eqb_neq q 0) Hq), En, (proj2 (Z.eqb_neq r 0) Hr). apply Forall_cons_1 in Hm as [Hm1 Hm].
    destruct (mark_log_page_ok r bm Hm1) as (bits1 & -> & L1 & B1). cbn [mbind option_bind].
    destruct (IH fuel r (with_4K bits1 bm)) as (bits2 & E2 & L2 & B2); auto; [lia| |].
    { simpl. unfold markable. by rewrite L1. }
    simpl in *. exists bits2. split; [done|]. split; [congruence|]. intros b. rewrite B2, B1. split.
    + intros [[?| ->]|(x & Hx & ->)]; [by left|right; exists r; split; [by left|done]|right; exists x; split; [by right|done]].
    + intros [?|(x & [->|Hx]%elem_of_cons & ->)]; [tauto|tauto|eauto].
Qed.

(** ** The whole file *)

Section file.
Context (sbi : nova_sb_info) (pi data_bits : Z) (pages : list Z) (items : list log_item) (rest : list Z).
#[local] Notation head := (Pi.log_head (nvm sbi) pi).
#[local] Notation log_tail := (Pi.log_tail (nvm sbi) pi).

(** The block of page [p] when the file is opened again. *)
Definition mapped_block (p : Z) : Z := snd (replay data_bits p items).

(** The log of the inode has the entries [items]: the walk from the head to the tail enters
    the [pages], and [rest] follow the page of the tail.  A bitmap of [n] bits has one for
    each of its pages and blocks. *)
Record file_log (n : nat) : Prop := {
  fg_items : log_items (Z.to_nat (4096 * num_blocks sbi)) sbi log_tail head = Some (pages, items);
  fg_wf : Forall item_wf items;
  fg_pointers : head <> 0 /\ BLOCK_OFF log_tail <> 0;
  fg_rest : linked sbi (BLOCK_OFF log_tail) rest /\ (length rest <= Z.to_nat (num_blocks sbi))%nat;
  fg_pages : Forall (markable (replicate n false)) (head :: pages ++ rest);
  fg_blocks p : 0 <= p -> 0 <= mapped_block p < Z.of_nat n;
  fg_bits : 12 <= data_bits <= 30;
}.

(** The blocks of the pages of the window that are marked. *)
Definition marks (base b : Z) : Prop :=
  b <> 0 /\ exists p, base <= p < base + MAX_PGOFF /\ p * 2 ^ data_bits < final_size items /\ mapped_block p = b.

Definition page_marks (b : Z) : Prop := exists q, q ∈ head :: pages ++ rest /\ b = q / 4096.

Definition empty_ring (ring : task_ring) : Prop := forall i, slot_of ring i = 0.

(** What a walk for the window from [base] on leaves behind: unless the file ends behind
    the window, only the slots behind its end may be set. *)
Definition left_over (base i : Z) : Z :=
  if (0 <=? i) && (i <? MAX_PGOFF) && (final_size items <=? (i + base) * 2 ^ data_bits)
  then mapped_block (i + base) else 0.

Lemma markable_length bits bits' q : length bits = length bits' -> markable bits q -> markable bits' q.
Proof. unfold markable. by intros ->. Qed.

Lemma last_page_le size p : 0 < size -> 0 <= data_bits -> p <= (size - 1) / 2 ^ data_bits <-> p * 2 ^ data_bits < size.
Proof.
  intros Hs Hd. assert (0 < 2 ^ data_bits) by lia. split.
  - intros Hp. pose proof (Z.div_mod (size - 1) (2 ^ data_bits)). pose proof (Z.mod_pos_bound (size - 1) (2 ^ data_bits)). nia.
  - intros Hp. apply Z.div_le_lower_bound; nia.
Qed.

Lemma traverse_pass_ok base c :
  file_log (length (bitmap (scan_bm_4K (c_bm c)))) -> 0 <= base -> base + MAX_PGOFF < 2 ^ 62 ->
  (base = 0 \/ base * 2 ^ data_bits < final_size items) -> empty_ring (c_ring c) ->
  exists ring' bits, traverse_pass sbi pi base data_bits c =
      Some (if final_size items =? 0 then None else Some ((final_size items - 1) / 2 ^ data_bits),
            Crawl ring' (with_4K bits (c_bm c)) (final_size items)) /\
    same_ring (c_ring c) ring' /\ (forall i, slot_of ring' i = left_over base i) /\
    length bits = length (bitmap (scan_bm_4K (c_bm c))) /\ 0 <= final_size items < 2 ^ 63 /\
    forall b, bit_set bits b = true <-> bit_set (bitmap (scan_bm_4K (c_bm c))) b = true \/
      (base = 0 /\ page_marks b) \/ marks base b.
Proof.
  intros [El Hwf [Hh Ht] [Hr Hlen] Hpg Hbl Hd] Hb Hbm Hbs Hemp. unfold traverse_pass.
  rewrite (proj2 (Z.eqb_neq head 0) Hh). cbn [andb c_ring c_bm c_size].
  apply Forall_cons_1 in Hpg as [Hp0 Hpg]. apply Forall_app in Hpg as [Hp1 Hp2].
  set (n := length (bitmap (scan_bm_4K (c_bm c)))) in *.
  assert (forall bits, length bits = n -> forall q, markable (replicate n false) q -> markable bits q) as Hmk.
  { intros bits Hl q. apply markable_length. by rewrite length_replicate. }
  (* the first page *)
  assert (exists bits1, (if base =? 0 then mark_log_page head (c_bm c) else Some (c_bm c)) = Some (with_4K bits1 (c_bm c)) /\
    length bits1 = n /\ forall b, bit_set bits1 b = true <-> bit_set (bitmap (scan_bm_4K (c_bm c))) b = true \/
      (base = 0 /\ b = head / 4096)) as (bits1 & -> & L1 & B1).
  { destruct (Z.eqb_spec base 0) as [E0|E0].
    - destruct (mark_log_page_ok head (c_bm c)) as (bits1 & -> & L1 & B1); [by apply Hmk|].
      exists bits1. split; [done|]. split; [done|]. intros b. rewrite B1. tauto.
    - exists (bitmap (scan_bm_4K (c_bm c))). rewrite with_4K_same. split; [done|]. split; [done|]. intros b. tauto. }
  cbn [mbind option_bind].
  destruct (traverse_loop_ok sbi base data_bits (conj Hb Hbm) ltac:(lia) log_tail _ head
    (Crawl (c_ring c) (with_4K bits1 (c_bm c)) 0) pages items El Hwf) as (ring2 & bits2 & E2 & [S2 O2 V2] & Hs2 & L2 & B2);
    [simpl; lia|intros _; simpl; eapply Forall_impl; [exact Hp1|]; by apply Hmk|].
  rewrite E2. cbn [mbind option_bind c_ring c_bm c_size scan_bm_4K bitmap with_4K] in *.
  change (fold_left item_size items 0) with (final_size items) in *. clear E2.
  (* the rest of the chain *)
  assert (exists bits3, (if base =? 0 then mark_chain (Z.to_nat (num_blocks sbi)) sbi (BLOCK_OFF log_tail)
      (with_4K bits2 (with_4K bits1 (c_bm c))) else Some (with_4K bits2 (with_4K bits1 (c_bm c)))) =
      Some (with_4K bits3 (c_bm c)) /\
    length bits3 = n /\ forall b, bit_set bits3 b = true <-> bit_set bits2 b = true \/
      (base = 0 /\ exists x, x ∈ rest /\ b = x / 4096)) as (bits3 & -> & L3 & B3).
  { destruct (Z.eqb_spec base 0) as [E0|E0].
    - destruct (mark_chain_ok sbi rest (Z.to_nat (num_blocks sbi)) (BLOCK_OFF log_tail) (with_4K bits2 (c_bm c)))
        as (bits3 & E3 & L3 & B3); auto; [eapply Forall_impl; [exact Hp2|]; apply Hmk; simpl; congruence|].
      rewrite with_4K_twice, E3. exists bits3. rewrite with_4K_twice. split; [done|]. split; [simpl in L3; congruence|].
      intros b. rewrite B3. simpl. tauto.
    - exists bits2. rewrite with_4K_twice. split; [done|]. split; [congruence|]. intros b. tauto. }
  cbn [mbind option_bind]. clear El Hp0 Hp1 Hp2 Hmk.
  assert (forall i, slot_of ring2 i = if (0 <=? i) && (i <? MAX_PGOFF) then mapped_block (i + base) else 0) as Hslot.
  { intros i. destruct (Z.leb_spec 0 i), (Z.ltb_spec i MAX_PGOFF); cbn [andb].
    2-4: by rewrite O2, Hemp by lia. rewrite V2, Hemp by lia. done. }
  assert (forall b, bit_set bits3 b = true <-> bit_set (bitmap (scan_bm_4K (c_bm c))) b = true \/ (base = 0 /\ page_marks b))
    as HB.
  { intros b. rewrite B3, B2, B1. unfold page_marks. setoid_rewrite elem_of_cons. setoid_rewrite elem_of_app.
    split.
    - intros [[[?|[E0 ->]]|(E0 & q & Hq & ->)]|(E0 & q & Hq & ->)]; [by left|right; split; [done|]; eexists; split; [|done]; tauto..].
    - intros [?|(E0 & q & [->|[Hq|Hq]] & ->)]; [tauto|tauto|left; right; eauto|right; eauto]. }
  clear B1 B2 B3 V2 O2. pose proof (Z.pow_pos_nonneg 2 data_bits ltac:(lia) ltac:(lia)) as Hk.
  destruct (Z.eqb_spec (final_size items) 0) as [Ez|Ez].
  { exists ring2, bits3. split; [done|]. split; [done|]. split; [|split; [done|split; [lia|]]].
    - intros i. rewrite Hslot. unfold left_over. rewrite Ez.
      destruct (Z.leb_spec 0 i), (Z.ltb_spec i MAX_PGOFF); cbn [andb]; try done.
      by rewrite (proj2 (Z.leb_le 0 _)) by nia.
    - intros b. rewrite HB. unfold marks. split; [tauto|]. intros [?|[?|(_ & p & Hp & Hlt & _)]]; [tauto|tauto|nia]. }
  set (last := (final_size items - 1) / 2 ^ data_bits).
  assert (Z.shiftr (u64 (final_size items - 1)) data_bits = last) as ->
    by (rewrite u64_small, Z.shiftr_div_pow2 by lia; done).
  assert (base <= last) as Hbl2.
  { destruct Hbs as [->|Hbs]; [apply Z.div_pos; lia|]. by apply last_page_le; lia. }
  assert (last < 2 ^ 51) as Hlast.
  { apply Z.div_lt_upper_bound; [lia|]. assert (2 ^ 12 <= 2 ^ data_bits) by (apply Z.pow_le_mono_r; lia). nia. }
  assert (exists k, (if base ⊞ MAX_PGOFF <=? last then MAX_PGOFF - 1 else last ⊟ base) + 1 = k /\
    k = Z.min (last + 1 - base) MAX_PGOFF) as (k & Ek & Hkv).
  { eexists. split; [done|]. unfold MAX_PGOFF in *. rewrite !u64_small by lia. case_cmp; lia. }
  unfold nova_set_file_bm. rewrite Ek. unfold MAX_PGOFF in Hbm, Hkv.
  destruct (file_bm_loop_ok (Z.to_nat k) 0 ring2 (with_4K bits3 (c_bm c))) as (ring4 & bits4 & E4 & S4 & L4 & V4 & B4);
    [lia|unfold MAX_PGOFF; lia| |].
  { intros i Hi. rewrite Hslot. simpl. rewrite L3. destruct ((0 <=? i) && (i <? MAX_PGOFF)); [apply Hbl; lia|].
    pose proof (Hbl 0 ltac:(lia)). lia. }
  rewrite E4. cbn [mbind option_bind]. simpl in L4, B4. exists ring4, bits4.
  split; [done|]. split; [by eapply same_ring_trans|]. split; [|split; [congruence|split; [lia|]]].
  - intros i. rewrite V4, Hslot. unfold left_over. pose proof (last_page_le (final_size items) (i + base) ltac:(lia) ltac:(lia)) as Hlp.
    fold last in Hlp. unfold MAX_PGOFF. destruct (Z.leb_spec 0 i), (Z.ltb_spec i (0 + Z.of_nat (Z.to_nat k))),
      (Z.ltb_spec i 262144), (Z.leb_spec (final_size items) ((i + base) * 2 ^ data_bits)); cbn [andb]; (done || lia).
  - intros b. rewrite B4, HB. match goal with |- _ \/ ?A <-> _ => enough (A <-> marks base b) by tauto end.
    unfold marks. split.
    + intros (Hb0 & i & Hi & Ei). split; [done|]. exists (i + base). rewrite Hslot in Ei.
      unfold MAX_PGOFF in *. rewrite (proj2 (Z.leb_le 0 i)), (proj2 (Z.ltb_lt i _)) in Ei by lia.
      split; [lia|]. split; [|done]. apply last_page_le; [lia|lia|]. fold last. lia.
    + intros (Hb0 & p & Hp & Hlt & Ep). split; [done|]. exists (p - base). apply last_page_le in Hlt; [|lia|lia].
      fold last in Hlt. unfold MAX_PGOFF in *. split; [lia|]. rewrite Hslot. unfold MAX_PGOFF.
      rewrite (proj2 (Z.leb_le 0 _)), (proj2 (Z.ltb_lt _ _)) by lia. cbn [andb].
      by replace (p - base + base) with p by lia.
Qed.

Lemma final_size_range : Forall item_wf items -> 0 <= final_size items < 2 ^ 63.
Proof.
  assert (forall its s, 0 <= s < 2 ^ 63 -> Forall item_wf its -> 0 <= fold_left item_size its s < 2 ^ 63) as Hgen.
  { induction its as [|it its IH]; intros s Hs Hwf; [done|]. apply Forall_cons_1 in Hwf as [Hi Hwf].
    apply IH; [|done]. destruct it; cbn [item_wf item_size] in *; (done || lia). }
  apply Hgen. lia.
Qed.

Lemma left_over_none base i :
  0 <= base -> (forall p, 0 <= p -> final_size items <= p * 2 ^ data_bits -> mapped_block p = 0) -> left_over base i = 0.
Proof.
  intros Hb Hp. unfold left_over. destruct (Z.leb_spec 0 i), (Z.ltb_spec i MAX_PGOFF),
    (Z.leb_spec (final_size items) ((i + base) * 2 ^ data_bits)); cbn [andb]; try done. apply Hp; lia.
Qed.

Lemma left_over_full base i :
  12 <= data_bits <= 30 -> 0 < final_size items -> base + MAX_PGOFF <= (final_size items - 1) / 2 ^ data_bits ->
  left_over base i = 0.
Proof.
  intros Hd Hs Hl. unfold left_over. destruct (Z.leb_spec 0 i), (Z.ltb_spec i MAX_PGOFF); cbn [andb]; try done.
  pose proof (proj1 (last_page_le (final_size items) (i + base) Hs ltac:(lia)) ltac:(lia)).
  by rewrite (proj2 (Z.leb_gt _ _)).
Qed.

(** The number of windows is bounded. *)
Lemma last_window base :
  Forall item_wf items -> 12 <= data_bits <= 30 -> 0 <= base -> base * 2 ^ data_bits < final_size items ->
  base <= (final_size items - 1) / 2 ^ data_bits < 2 ^ 51 /\ base + MAX_PGOFF < 2 ^ 62.
Proof.
  intros Hwf Hd Hb Hlt. pose proof (final_size_range Hwf) as Hs.
  assert (2 ^ 12 <= 2 ^ data_bits) by (apply Z.pow_le_mono_r; lia).
  assert ((final_size items - 1) / 2 ^ data_bits < 2 ^ 51) by (apply Z.div_lt_upper_bound; nia).
  assert (base <= (final_size items - 1) / 2 ^ data_bits) by (apply last_page_le; nia).
  unfold MAX_PGOFF. lia.
Qed.

(** The windows from [base] on; none of the slots is left over when the file reaches into
    the next window. *)
Lemma traverse_windows_ok n : forall base c,
  file_log (length (bitmap (scan_bm_4K (c_bm c)))) -> 0 < base -> base * 2 ^ data_bits < final_size items ->
  (final_size items - 1) / 2 ^ data_bits < base + MAX_PGOFF * Z.of_nat (S n) -> empty_ring (c_ring c) ->
  exists ring' bits, traverse_windows n sbi pi base data_bits c =
      Some (Crawl ring' (with_4K bits (c_bm c)) (final_size items)) /\
    same_ring (c_ring c) ring' /\
    ((forall p, 0 <= p -> final_size items <= p * 2 ^ data_bits -> mapped_block p = 0) -> empty_ring ring') /\
    length bits = length (bitmap (scan_bm_4K (c_bm c))) /\
    forall b, bit_set bits b = true <-> bit_set (bitmap (scan_bm_4K (c_bm c))) b = true \/
      (b <> 0 /\ exists p, base <= p /\ p * 2 ^ data_bits < final_size items /\ mapped_block p = b).
Proof.
  induction n as [|n IH]; intros base c Hfl Hb Hbs Hn Hemp; cbn [traverse_windows];
    pose proof (last_window base (fg_wf _ Hfl) (fg_bits _ Hfl) ltac:(lia) Hbs) as [Hl Hbm];
    destruct (traverse_pass_ok base c Hfl ltac:(lia) Hbm ltac:(by right) Hemp) as (ring1 & bits1 & -> & S1 & V1 & L1 & Hs & B1);
    pose proof (fg_bits _ Hfl) as Hd; assert (0 < final_size items) as Hpos by nia;
    cbn [mbind option_bind]; rewrite (proj2 (Z.eqb_neq (final_size items) 0)) by lia;
    set (last := (final_size items - 1) / 2 ^ data_bits) in *;
    rewrite u64_small by (unfold MAX_PGOFF in *; lia);
    pose proof (fun p => last_page_le (final_size items) p Hpos ltac:(lia)) as Hlp; fold last in Hlp;
    destruct (Z.leb_spec (base + MAX_PGOFF) last) as [Hle|Hgt]; try lia.
  2:{ destruct (IH (base + MAX_PGOFF) (Crawl ring1 (with_4K bits1 (c_bm c)) (final_size items)))
        as (ring2 & bits2 & E2 & S2 & V2 & L2 & B2).
      - simpl. by rewrite L1.
      - unfold MAX_PGOFF. lia.
      - by apply Hlp.
      - fold last. lia.
      - intros i. simpl. rewrite V1. by apply left_over_full.
      - rewrite E2. simpl in *. exists ring2, bits2. split; [done|]. split; [by eapply same_ring_trans|]. split; [done|].
        split; [congruence|]. intros b. rewrite B2, B1. unfold marks. split.
        + intros [[?|[[? _]|(Hb0 & p & Hp & Hlt & Ep)]]|(Hb0 & p & Hp & Hlt & Ep)]; [by left|lia|right..];
            (split; [done|]); exists p; (split_and!; [unfold MAX_PGOFF in *; lia|done|done]).
        + intros [?|(Hb0 & p & Hp & Hlt & Ep)]; [tauto|]. destruct (Z.ltb_spec p (base + MAX_PGOFF)) as [Hc|Hc].
          * left; right; right. split; [done|]. exists p. by split_and!.
          * right. split; [done|]. exists p. by split_and!. }
  all: exists ring1, bits1; (split; [done|]); (split; [done|]); (split; [intros Hp i; rewrite V1; by apply left_over_none; [lia|]|]);
    (split; [done|]); intros b; rewrite B1; unfold marks; split;
    [intros [?|[?|(Hb0 & p & Hp & Hlt & Ep)]]; [by left|lia|right; split; [done|]; exists p; split_and!; [lia|done|done]]
    |intros [?|(Hb0 & p & Hp & Hlt & Ep)]; [by left|]; right; right; split; [done|]; exists p;
     apply Hlp in Hlt as Hlt'; split_and!; (done || lia)].
Qed.

(** C31: [nova_traverse_file_inode_log] marks exactly the blocks of a file: for a log with the
    entries [items], walked once per window of [MAX_PGOFF] pages with an empty array, the bits
    that are set afterwards are those set before, the pages of the log from its head to its
    last page, and the blocks that replaying the entries maps the pages below the end of the
    file to.  When no page behind the end is mapped, the array is empty again. *)
Theorem traverse_file_exact ring bm :
  blk_type_to_shift (Pi.i_blk_type (nvm sbi) pi) = Some data_bits ->
  file_log (length (bitmap (scan_bm_4K bm))) -> empty_ring ring ->
  exists ring' bits, nova_traverse_file_inode_log sbi pi ring bm =
      Some (Crawl ring' (with_4K bits bm) (final_size items)) /\
    same_ring ring ring' /\
    ((forall p, 0 <= p -> final_size items <= p * 2 ^ data_bits -> mapped_block p = 0) -> empty_ring ring') /\
    forall b, bit_set bits b = true <-> bit_set (bitmap (scan_bm_4K bm)) b = true \/
      (exists q, q ∈ head :: pages ++ rest /\ b = q / 4096) \/
      (b <> 0 /\ exists p, 0 <= p /\ p * 2 ^ data_bits < final_size items /\ mapped_block p = b).
Proof.
  intros Hbt Hfl Hemp. unfold nova_traverse_file_inode_log. rewrite Hbt. cbn [mbind option_bind].
  pose proof (fg_bits _ Hfl) as Hd. pose proof (Z.pow_pos_nonneg 2 data_bits ltac:(lia) ltac:(lia)) as Hk.
  destruct (traverse_pass_ok 0 (Crawl ring bm 0) Hfl ltac:(lia) ltac:(unfold MAX_PGOFF; lia) ltac:(by left) Hemp)
    as (ring1 & bits1 & -> & S1 & V1 & L1 & Hs & B1).
  simpl c_bm in *. simpl c_ring in *. cbn [mbind option_bind]. destruct (Z.eqb_spec (final_size items) 0) as [E0|E0].
  { exists ring1, bits1. split; [by rewrite E0|]. split; [done|]. split.
    - intros Hp i. rewrite V1. by apply left_over_none.
    - intros b. rewrite B1, E0. unfold marks, page_marks. rewrite E0. split.
      + intros [?|[[_ ?]|(_ & p & ? & ? & _)]]; [by left|tauto|nia].
      + intros [?|[?|(_ & p & ? & ? & _)]]; [by left|tauto|nia]. }
  set (last := (final_size items - 1) / 2 ^ data_bits) in *.
  pose proof (fun p => last_page_le (final_size items) p ltac:(lia) ltac:(lia)) as Hlp. fold last in Hlp.
  destruct (Z.leb_spec MAX_PGOFF last) as [Hle|Hgt].
  - destruct (traverse_windows_ok (Z.to_nat (last / MAX_PGOFF)) MAX_PGOFF (Crawl ring1 (with_4K bits1 bm) (final_size items)))
      as (ring2 & bits2 & -> & S2 & V2 & L2 & B2).
    + simpl. by rewrite L1.
    + unfold MAX_PGOFF. lia.
    + by apply Hlp.
    + fold last. unfold MAX_PGOFF. pose proof (Z.div_mod last 262144). pose proof (Z.mod_pos_bound last 262144).
      assert (0 <= last / 262144) by (apply Z.div_pos; unfold MAX_PGOFF in *; lia). lia.
    + intros i. simpl. rewrite V1. by apply left_over_full; [|lia|].
    + simpl in *. exists ring2, bits2. split; [done|]. split; [by eapply same_ring_trans|]. split; [done|].
      intros b. rewrite B2, B1. unfold marks, page_marks. split.
      * intros [[?|[[_ ?]|(Hb0 & p & Hp & Hlt & Ep)]]|(Hb0 & p & Hp & Hlt & Ep)]; [by left|tauto|right; right..];
          (split; [done|]); exists p; (split_and!; [unfold MAX_PGOFF in *; lia|done|done]).
      * intros [?|[?|(Hb0 & p & Hp & Hlt & Ep)]]; [tauto|tauto|]. destruct (Z.ltb_spec p MAX_PGOFF) as [Hc|Hc].
        -- left; right; right. split; [done|]. exists p. by split_and!.
        -- right. split; [done|]. exists p. by split_and!.
  - exists ring1, bits1. split; [done|]. split; [done|]. split.
    + intros Hp i. rewrite V1. by apply left_over_none.
    + intros b. rewrite B1. unfold marks, page_marks. split.
      * intros [?|[[_ ?]|(Hb0 & p & Hp & Hlt & Ep)]]; [by left|tauto|right; right]. split; [done|]. exists p. split_and!; [lia|done|done].
      * intros [?|[?|(Hb0 & p & Hp & Hlt & Ep)]]; [by left|tauto|right; right]. split; [done|]. exists p.
        apply Hlp in Hlt as Hlt'. split_and!; (done || lia).
Qed.
End file.

(** ** Examples *)

Module CrawlDemo.

Definition crawl_pi : Z := 65536 + 1024.

(** Three writes in the page 3: blocks 10 and 11 for pages 0 and 1, block 12 for page 1
    again, and block 13 for page 300000, in the second window. *)
Definition crawl_memory : memory :=
  let p := 65536 + 4096 * 3 in
  let m := copy_write_entry (fun _ => 0) p (WriteEntry (4096 * 10 + FILE_WRITE) 0 2 1 0 0 8192) in
  let m := copy_write_entry m (p + 40) (WriteEntry (4096 * 12 + FILE_WRITE) 1 1 0 0 0 8192) in
  let m := copy_write_entry m (p + 80) (WriteEntry (4096 * 13 + FILE_WRITE) 300000 1 0 0 0 (4096 * 300001)) in
  Pi.set_log_tail (Pi.set_log_head m crawl_pi (4096 * 3)) crawl_pi (4096 * 3 + 120).

Definition crawl_sbi : nova_sb_info :=
  SbInfo 65536 20 0 3 1 [empty_inode_map] 0 [empty_free_list] [] [] 0 empty_free_list ∅ crawl_memory.

Definition crawl_items : list log_item :=
  [Write 1 0 2 10 true 8192; Write 1 1 1 12 true 8192; Write 1 300000 1 13 true (4096 * 300001)].

Definition crawl_bm : scan_bitmap := ScanBitmap (ScanBm 3 (replicate 24 false)) (ScanBm 0 []) (ScanBm 0 []).
Definition crawl_ring : task_ring := TaskRing [] 0 ∅.

Lemma crawl_file_log : file_log crawl_sbi crawl_pi 12 [] crawl_items [] 24.
Proof.
  split.
  - vm_compute. reflexivity.
  - repeat constructor; vm_compute; discriminate.
  - split; vm_compute; discriminate.
  - split; vm_compute; [reflexivity|lia].
  - apply Forall_singleton. split; vm_compute; [reflexivity|]. split; [discriminate|reflexivity].
  - intros p Hp. unfold mapped_block, replay, crawl_items. cbn [fold_left replay_item andb snd].
    repeat case_cmp; cbn [andb]; lia.
  - lia.
Qed.

Lemma traverse_file_exact_witness :
  exists ring' bits, nova_traverse_file_inode_log crawl_sbi crawl_pi crawl_ring crawl_bm =
      Some (Crawl ring' (with_4K bits crawl_bm) (4096 * 300001)) /\
    bit_set bits 3 = true /\ bit_set bits 10 = true /\ bit_set bits 12 = true /\ bit_set bits 13 = true /\
    bit_set bits 11 <> true.
Proof.
  destruct (traverse_file_exact crawl_sbi crawl_pi 12 [] crawl_items [] crawl_ring crawl_bm)
    as (ring' & bits & E & _ & _ & Hb).
  - vm_compute. reflexivity.
  - exact crawl_file_log.
  - intros i. reflexivity.
  - exists ring', bits. split; [exact E|]. split; [|split; [|split; [|split]]].
    + apply Hb. right; left. exists (4096 * 3). split; [left|reflexivity].
    + apply Hb. right; right. split; [discriminate|]. exists 0. split; [lia|]. split; reflexivity.
    + apply Hb. right; right. split; [discriminate|]. exists 1. split; [lia|]. split; reflexivity.
    + apply Hb. right; right. split; [discriminate|]. exists 300000. split; [lia|]. split; reflexivity.
    + rewrite Hb. intros [H0|[(q & Hq & Hd)|(_ & p & Hp & _ & Hm)]].
      * vm_compute in H0. discriminate H0.
      * apply list_elem_of_singleton in Hq. subst q. vm_compute in Hd. discriminate Hd.
      * unfold mapped_block, replay, crawl_items in Hm. cbn [fold_left replay_item andb snd] in Hm.
        revert Hm. repeat case_cmp; cbn [andb]; lia.
Defined.
End CrawlDemo.
