(* ===== verification/FileTree.v ===== *)
(** * The pages of a file (inode.c, nova.h)

    The radix tree [tree] of an inode's header maps the pages of a file to the write entries
    of its log.  Deleting pages gives their blocks back in runs of consecutive blocks,
    overwriting a page gives back the old block, and after a mount the tree is rebuilt from
    the log.  A pointer to an entry is its address. *)

From S2P Require Import Prelude Layout RangeTree RbList State Balloc BallocFacts BallocSpec.
From S2P Require Import BallocInit BallocTheorems TreeEdits InodeMap LogBlocks InodeTable.
From S2P Require Import Monitor Histogram HashTable Records KnapSack Detect WriteCount Migrate.
From S2P Require Import LogPages World InodeLog BlockMap Crawl.
#[local] Open Scope word_scope.

Definition ULONG_MAX : Z := 18446744073709551615.

(** [radix_tree_gang_lookup] for one entry: the one with the least index from [index] on. *)
Definition least (x : Z * Z) (best : option (Z * Z)) : option (Z * Z) :=
  match best with
  | Some y => if fst x <? fst y then Some x else Some y
  | None => Some x
  end.

Definition radix_tree_next (t : gmap Z Z) (index : Z) : option (Z * Z) :=
  foldr least None (filter (fun x => index <= fst x) (map_to_list t)).

Section operations.
Context `{RbTree} (slab_garbage : nova_range_node) (smp : Z) (jiffies_to_msecs : Z -> Z) (e : env).
Context (garbage : Z).
(** The indices for which [radix_tree_insert] finds no memory. *)
Context (radix_nomem : Z -> bool).

(** [nova_get_inode_by_ino_or_pi_addr] for a caller that follows the pointer. *)
Definition lookup_inode (ino pi_addr : Z) : fs Z :=
  r ← on_sbi (fun sbi => nova_get_inode_by_ino_or_pi_addr smp sbi ino pi_addr);
  match r with inr pi => mret pi | inl _ => fs_fault end.

(** [mutex_lock] of the page of an inode. *)
Definition lock_inode_page (ino : Z) : fs unit :=
  sbi ← get_sbi;
  fs_deref (nova_get_specific_inode_page_lock sbi ino).

(** The block of page [pgoff] of an entry.  For a page that is not of the entry the inode is
    looked up to print its log. *)
Definition get_nvmm (data pgoff : Z) : fs Z :=
  mem ← get_nvm;
  _ ← (if (pgoff <? We.pgoff mem data) || (We.pgoff mem data ⊞ We.num_pages mem data <=? pgoff) then
         sih ← get_sih;
         _ ← lookup_inode (sih_ino sih) (sih_pi_addr sih); mret tt
       else mret tt);
  mret (u64 (Z.shiftr (We.block mem data) PAGE_SHIFT + pgoff - We.pgoff mem data)).

Definition nova_get_write_entry (blocknr : Z) : fs (option Z) :=
  sih ← get_sih; mret (tree sih !! blocknr).

Definition nova_find_nvmm_block (entry : option Z) (blocknr : Z) : fs Z :=
  entry ← (match entry with Some _ => mret entry | None => nova_get_write_entry blocknr end);
  match entry with
  | None => mret 0
  | Some entry => nvmm ← get_nvmm entry blocknr; mret (u64 (Z.shiftl nvmm PAGE_SHIFT))
  end.

(** [nova_free_contiguous_data_blocks]: the number of blocks freed, and the run
    [start_blocknr], [num_free] that is pending. *)
Definition nova_free_contiguous_data_blocks (pi entry pgoff num_pages start_blocknr num_free : Z) :
    fs (Z * Z * Z) :=
  mem ← get_nvm;
  if We.num_pages mem entry <? We.invalid_pages mem entry ⊞ num_pages then
    mret (0, start_blocknr, num_free)
  else
    _ ← put_nvm (fun mem => We.set_invalid_pages mem entry (We.invalid_pages mem entry + num_pages));
    nvmm ← get_nvmm entry pgoff;
    if start_blocknr =? 0 then mret (0, nvmm, num_pages)
    else if nvmm =? start_blocknr ⊞ num_free then mret (0, start_blocknr, num_free ⊞ num_pages)
    else
      _ ← on_sbi (fun sbi => nova_free_data_blocks slab_garbage sbi pi start_blocknr (i32 num_free));
      mret (i32 num_free, nvmm, num_pages).

(** The loop of [nova_delete_cache_tree] over the pages [i], ... *)
Fixpoint delete_cache_loop (n : nat) (pi i : Z) : fs unit :=
  match n with
  | O => mret tt
  | S n =>
    sih ← get_sih;
    _ ← match cache_tree sih !! i with
        | None => mret tt
        | Some addr =>
          _ ← put_sih (fun sih => with_cache_tree (delete i (cache_tree sih)) sih);
          _ ← on_sbi (fun sbi => nova_free_data_blocks slab_garbage sbi pi (Z.shiftr addr PAGE_SHIFT) 1);
          put_sih (fun sih => with_mmap_pages (mmap_pages sih ⊟ 1) sih)
        end;
    delete_cache_loop n pi (i ⊞ 1)
  end.

Definition nova_delete_cache_tree (pi start_blocknr last_blocknr : Z) : fs unit :=
  _ ← delete_cache_loop (Z.to_nat (last_blocknr + 1 - start_blocknr)) pi start_blocknr;
  put_sih (fun sih =>
    if mmap_pages sih =? 0 then with_high_dirty 0 (with_low_dirty ULONG_MAX sih) else sih).

(** The pages of the mmap cache from [i] on are cleared. *)
Fixpoint zero_cache_loop (n : nat) (i : Z) : fs unit :=
  match n with
  | O => mret tt
  | S n =>
    sih ← get_sih;
    _ ← match cache_tree sih !! i with
        | None => mret tt
        | Some block => addr ← get_block block; put_nvm (fun mem => memset0 mem addr PAGE_SIZE)
        end;
    zero_cache_loop n (i ⊞ 1)
  end.

Definition nova_zero_cache_tree (start_blocknr : Z) : fs unit :=
  sih ← get_sih;
  zero_cache_loop (Z.to_nat (high_dirty sih + 1 - start_blocknr)) start_blocknr.

Definition nova_find_next_entry (t : gmap Z Z) (pgoff : Z) : option Z := snd <$> radix_tree_next t pgoff.

(** The loop of [nova_delete_file_tree]: the blocks freed and the pending run.  Each turn
    goes on by at least one page. *)
Fixpoint delete_tree_loop (n : nat) (pi pgoff last_blocknr : Z) (delete_nvmm : bool)
    (freed free_blocknr num_free : Z) : fs (Z * Z * Z) :=
  if last_blocknr <? pgoff then mret (freed, free_blocknr, num_free)
  else
    match n with
    | O => fs_fault
    | S n =>
      sih ← get_sih;
      match tree sih !! pgoff with
      | Some entry =>
        _ ← put_sih (fun sih => with_tree (delete pgoff (tree sih)) sih);
        r ← (if delete_nvmm
             then nova_free_contiguous_data_blocks pi entry pgoff 1 free_blocknr num_free
             else mret (0, free_blocknr, num_free));
        let '(f, free_blocknr, num_free) := (r : Z * Z * Z) in
        delete_tree_loop n pi (pgoff ⊞ 1) last_blocknr delete_nvmm (i32 (freed + f)) free_blocknr num_free
      | None =>
        match nova_find_next_entry (tree sih) pgoff with
        | None => mret (freed, free_blocknr, num_free)
        | Some entry =>
          mem ← get_nvm;
          let pgoff := pgoff ⊞ 1 in
          let pgoff := if We.pgoff mem entry <? pgoff then pgoff else We.pgoff mem entry in
          delete_tree_loop n pi pgoff last_blocknr delete_nvmm freed free_blocknr num_free
        end
      end
    end.

Definition nova_delete_file_tree (start_blocknr last_blocknr : Z) (delete_nvmm delete_mmap : bool) : fs Z :=
  sih ← get_sih;
  pi ← lookup_inode (sih_ino sih) (sih_pi_addr sih);
  _ ← (if delete_mmap && negb (mmap_pages sih =? 0)
       then nova_delete_cache_tree pi start_blocknr last_blocknr else mret tt);
  sih ← get_sih;
  _ ← (if negb (mmap_pages sih =? 0) && (start_blocknr <=? high_dirty sih)
       then nova_zero_cache_tree start_blocknr else mret tt);
  r ← delete_tree_loop (Z.to_nat (last_blocknr + 1 - start_blocknr)) pi start_blocknr last_blocknr
        delete_nvmm 0 0 0;
  let '(freed, free_blocknr, num_free) := (r : Z * Z * Z) in
  if negb (free_blocknr =? 0) then
    _ ← on_sbi (fun sbi => nova_free_data_blocks slab_garbage sbi pi free_blocknr (i32 num_free));
    mret (i32 (freed + num_free))
  else mret freed.

(** The pages of the write entry at [entry] from [curr_pgoff] on, [n] of them: the result and
    whether an insertion failed. *)
Fixpoint assign_loop (n : nat) (pi entry curr_pgoff ret : Z) (free : bool) : fs Z :=
  match n with
  | O => mret ret
  | S n =>
    sih ← get_sih;
    match tree sih !! curr_pgoff with
    | Some old_entry =>
      old_nvmm ← get_nvmm old_entry curr_pgoff;
      pi ← (if free then
              _ ← put_nvm (fun mem => We.set_invalid_pages mem old_entry (We.invalid_pages mem old_entry + 1));
              _ ← on_sbi (fun sbi => nova_free_data_blocks slab_garbage sbi pi old_nvmm 1);
              pi ← reget_inode smp pi;
              _ ← put_nvm (fun mem => Pi.set_i_blocks mem pi (Pi.i_blocks mem pi ⊟ 1));
              _ ← count_migrate smp jiffies_to_msecs e garbage pi;
              mret pi
            else mret pi);
      _ ← put_sih (fun sih => with_tree (<[curr_pgoff := entry]> (tree sih)) sih);
      assign_loop n pi entry (curr_pgoff ⊞ 1) ret free
    | None =>
      if radix_nomem curr_pgoff then mret (- ENOMEM)
      else
        _ ← put_sih (fun sih => with_tree (<[curr_pgoff := entry]> (tree sih)) sih);
        assign_loop n pi entry (curr_pgoff ⊞ 1) 0 free
    end
  end.

(** The result is only set by an insertion. *)
Definition nova_assign_write_entry (pi entry : Z) (free : bool) : fs Z :=
  mem ← get_nvm;
  sih ← get_sih;
  pi ← lookup_inode (Pi.nova_ino mem pi) (sih_pi_addr sih);
  assign_loop (Z.to_nat (We.num_pages mem entry)) pi entry (We.pgoff mem entry) garbage free.

(** ** Attributes and size *)

(** [nova_apply_setattr_entry], without the logging of the truncation: the blocks are free
    already. *)
Definition nova_apply_setattr_entry (pi entry : Z) : fs unit :=
  mem ← get_nvm;
  data_bits ← fs_deref (blk_type_to_shift (Pi.i_blk_type mem pi));
  if negb (nova_get_entry_type mem entry =? SET_ATTR) then fs_fault
  else
    pi ← reget_inode smp pi;
    _ ← put_nvm (fun m =>
          let m := Pi.set_i_mode m pi (Sa.mode m entry) in
          let m := Pi.set_i_uid m pi (Sa.uid m entry) in
          let m := Pi.set_i_gid m pi (Sa.gid m entry) in
          let m := Pi.set_i_atime m pi (Sa.atime m entry) in
          let m := Pi.set_i_ctime m pi (Sa.ctime m entry) in
          Pi.set_i_mtime m pi (Sa.mtime m entry));
    mem ← get_nvm;
    _ ← (if (Sa.size mem entry <? Pi.i_size mem pi) && S_ISREG (Pi.i_mode mem pi) then
           let '(first_blocknr, last_blocknr) :=
             truncated_pages (Pi.i_size mem pi) (Sa.size mem entry) data_bits in
           if last_blocknr <? first_blocknr then mret tt
           else _ ← nova_delete_file_tree first_blocknr last_blocknr false false; mret tt
         else mret tt);
    mem ← get_nvm;
    _ ← lock_inode_page (Pi.nova_ino mem pi);
    _ ← put_nvm (fun m => Pi.set_i_size m pi (Sa.size m entry));
    mem ← get_nvm;
    _ ← put_sih (with_sih_size (Pi.i_size mem pi));
    count_inode jiffies_to_msecs e pi.

Definition nova_apply_link_change_entry (pi entry : Z) : fs unit :=
  mem ← get_nvm;
  if negb (nova_get_entry_type mem entry =? LINK_CHANGE) then fs_fault
  else
    put_nvm (fun m =>
      let m := Pi.set_i_links_count m pi (Lc.links m entry) in
      let m := Pi.set_i_ctime m pi (Lc.ctime m entry) in
      let m := Pi.set_i_flags m pi (Lc.flags m entry) in
      Pi.set_i_generation m pi (Lc.generation m entry)).

Definition nova_rebuild_file_time_and_size (pi entry : Z) : fs unit :=
  pi ← reget_inode smp pi;
  _ ← put_nvm (fun m =>
        let m := Pi.set_i_ctime m pi (We.mtime m entry) in
        let m := Pi.set_i_mtime m pi (We.mtime m entry) in
        Pi.set_i_size m pi (We.size m entry));
  count_inode jiffies_to_msecs e pi.

(** ** Rebuilding the tree after a mount *)

(** One entry at [curr_p] of [nova_rebuild_file_inode_tree]: its length. *)
Definition rebuild_entry (pi curr_p : Z) : fs Z :=
  p ← get_block curr_p;
  mem ← get_nvm;
  let type := nova_get_entry_type mem p in
  if type =? SET_ATTR then
    _ ← nova_apply_setattr_entry pi p;
    _ ← put_sih (with_last_setattr curr_p);
    mret Sa.length
  else if type =? LINK_CHANGE then
    _ ← nova_apply_link_change_entry pi p;
    _ ← put_sih (with_last_link_change curr_p);
    mret Lc.length
  else if type =? FILE_WRITE then
    _ ← (if negb (We.num_pages mem p =? We.invalid_pages mem p)
         then _ ← nova_assign_write_entry pi p false; mret tt else mret tt);
    _ ← nova_rebuild_file_time_and_size pi p;
    mem ← get_nvm;
    _ ← put_sih (with_sih_size (Pi.i_size mem pi));
    mret We.length
  else mret We.length.

Fixpoint rebuild_loop (fuel : nat) (pi curr_p : Z) : fs Z :=
  mem ← get_nvm;
  if curr_p =? Pi.log_tail mem pi then mret curr_p
  else
    match fuel with
    | O => fs_fault
    | S fuel =>
      if curr_p =? 0 then fs_fault
      else
        sbi ← get_sbi;
        curr_p ← (if goto_next_page sbi curr_p then
                    _ ← put_sih (fun sih => with_log_pages (log_pages sih ⊞ 1) sih);
                    mret (next_log_page sbi curr_p)
                  else mret curr_p);
        len ← rebuild_entry pi curr_p;
        rebuild_loop fuel pi (curr_p ⊞ len)
    end.

(** The pages behind [curr_p] are counted. *)
Fixpoint count_chain (fuel : nat) (curr_p : Z) : fs unit :=
  p ← get_block curr_p;
  mem ← get_nvm;
  let next := page_next mem p in
  if next =? 0 then mret tt
  else
    match fuel with
    | O => fs_fault
    | S fuel => _ ← put_sih (fun sih => with_log_pages (log_pages sih ⊞ 1) sih); count_chain fuel next
    end.

Definition nova_rebuild_file_inode_tree (pi pi_addr : Z) : fs unit :=
  mem ← get_nvm;
  sbi ← get_sbi;
  data_bits ← fs_deref (blk_type_to_shift (Pi.i_blk_type mem pi));
  _ ← put_sih (with_sih_pi_addr pi_addr);
  let curr_p := Pi.log_head mem pi in
  if (curr_p =? 0) && (Pi.log_tail mem pi =? 0) then mret tt
  else
    _ ← put_sih (with_log_pages 1);
    curr_p ← rebuild_loop (Z.to_nat (4096 * num_blocks sbi)) pi curr_p;
    mem ← get_nvm;
    _ ← put_sih (fun sih => with_sih_mode (Pi.i_mode mem pi) (with_sih_size (Pi.i_size mem pi) sih));
    _ ← count_chain (Z.to_nat (num_blocks sbi)) (BLOCK_OFF curr_p);
    pi ← reget_inode smp pi;
    sih ← get_sih;
    _ ← put_nvm (fun m => Pi.set_i_blocks m pi (log_pages sih ⊞ Z.shiftr (sih_size sih) data_bits));
    count_inode jiffies_to_msecs e pi.
End operations.

(** ** The tree *)

Lemma radix_tree_next_some t i k v :
  radix_tree_next t i = Some (k, v) ->
  t !! k = Some v /\ i <= k /\ (forall j, i <= j < k -> t !! j = None).
Proof.
  unfold radix_tree_next.
  assert (forall l k v, foldr least None l = Some (k, v) ->
    (k, v) ∈ l /\ forall j w, (j, w) ∈ l -> k <= j) as Hgen.
  { induction l as [|[k0 v0] l IH]; intros k' v' E; [done|]. cbn [foldr] in E.
    destruct (foldr least None l) as [[k1 v1]|] eqn:El; unfold least in E.
    - destruct (IH _ _ eq_refl) as [Hin Hmin]. cbn [fst] in E. destruct (Z.ltb_spec k0 k1); injection E as <- <-.
      + split; [by left|]. intros j w [[= -> ->]|Hj]%elem_of_cons; [lia|]. specialize (Hmin _ _ Hj). lia.
      + split; [by right|]. intros j w [[= -> ->]|Hj]%elem_of_cons; [lia|by eapply Hmin].
    - injection E as <- <-. split; [by left|]. intros j w [[= -> ->]|Hj]%elem_of_cons; [lia|].
      exfalso. clear -El Hj. destruct l as [|[a b] l]; [by apply elem_of_nil in Hj|]. cbn [foldr] in El.
      destruct (foldr least None l) as [[]|]; unfold least in El; [|done]. by destruct (_ <? _). }
  intros [Hin Hmin]%Hgen. apply list_elem_of_filter in Hin as [Hi Hin]. apply elem_of_map_to_list in Hin.
  split; [done|]. split; [done|]. intros j Hj. destruct (t !! j) as [w|] eqn:Ew; [|done].
  assert (k <= j); [|lia]. apply (Hmin j w). apply list_elem_of_filter. split; [simpl; lia|].
  by apply elem_of_map_to_list.
Qed.

Lemma radix_tree_next_none t i : radix_tree_next t i = None -> forall j, i <= j -> t !! j = None.
Proof.
  unfold radix_tree_next. intros E j Hj. destruct (t !! j) as [w|] eqn:Ew; [|done].
  assert ((j, w) ∈ filter (fun x => i <= fst x) (map_to_list t)) as Hin
    by (apply list_elem_of_filter; split; [simpl; lia|by apply elem_of_map_to_list]).
  destruct (filter _ _) as [|x l]; [by apply elem_of_nil in Hin|]. cbn [foldr] in E.
  destruct (foldr least None l) as [y|]; unfold least in E; [by destruct (_ <? _)|done].
Qed.

(** The block of page [p], 0 for a hole. *)
Definition entry_block (m : memory) (a p : Z) : Z := Z.shiftr (We.block m a) PAGE_SHIFT + (p - We.pgoff m a).
Definition tree_block (m : memory) (t : gmap Z Z) (p : Z) : Z :=
  match t !! p with Some a => entry_block m a p | None => 0 end.

(** The entries of the tree cover the pages they are entered for. *)
Definition covering (m : memory) (t : gmap Z Z) : Prop :=
  forall p a, t !! p = Some a -> 0 <= We.pgoff m a <= p /\ p < We.pgoff m a + We.num_pages m a /\
    We.pgoff m a + We.num_pages m a < 2 ^ 63.

(** The pages from [first] to [last] are taken out. *)
Definition cut (first last : Z) (t : gmap Z Z) : gmap Z Z :=
  filter (fun x => ~ first <= fst x <= last) t.

Lemma cut_lookup first last t p :
  cut first last t !! p = if (first <=? p) && (p <=? last) then None else t !! p.
Proof.
  unfold cut. destruct (Z.leb_spec first p), (Z.leb_spec p last); cbn [andb].
  1: apply map_lookup_filter_None; right; intros v _ Hn; apply Hn; simpl; lia.
  all: destruct (t !! p) as [v|] eqn:E;
    [apply map_lookup_filter_Some; split; [done|simpl; lia]|apply map_lookup_filter_None; by left].
Qed.

Lemma cut_hole first first' last t :
  first <= first' -> (forall p, first <= p < first' -> t !! p = None) -> cut first last t = cut first' last t.
Proof.
  intros Hf Hh. apply map_eq. intros p. rewrite !cut_lookup.
  destruct (Z.leb_spec first p), (Z.leb_spec first' p), (Z.leb_spec p last); cbn [andb]; try done; try lia.
  symmetry. apply Hh. lia.
Qed.

Lemma cut_delete p last t : p <= last -> cut p last t = cut (p + 1) last (delete p t).
Proof.
  intros Hp. apply map_eq. intros q. rewrite !cut_lookup. destruct (decide (q = p)) as [->|Hne].
  - rewrite lookup_delete_eq. destruct (Z.leb_spec p p), (Z.leb_spec (p + 1) p), (Z.leb_spec p last); cbn [andb]; (done || lia).
  - rewrite lookup_delete_ne by done.
    destruct (Z.leb_spec p q), (Z.leb_spec (p + 1) q), (Z.leb_spec q last); cbn [andb]; (done || lia).
Qed.

Lemma cut_empty first last t : last < first -> cut first last t = t.
Proof.
  intros Hl. apply map_eq. intros p. rewrite cut_lookup.
  destruct (Z.leb_spec first p), (Z.leb_spec p last); cbn [andb]; (done || lia).
Qed.

Lemma covering_delete m t p : covering m t -> covering m (delete p t).
Proof. intros Hc q a Hq. apply Hc. apply lookup_delete_Some in Hq. tauto. Qed.

(** Where the search for the next entry goes on. *)
Lemma next_page_ok m t pgoff a :
  covering m t -> t !! pgoff = None -> nova_find_next_entry t pgoff = Some a -> pgoff < 2 ^ 63 ->
  let pgoff' := if We.pgoff m a <? u64 (pgoff + 1) then u64 (pgoff + 1) else We.pgoff m a in
  0 <= pgoff -> pgoff < pgoff' < 2 ^ 63 /\ (forall p, pgoff <= p < pgoff' -> t !! p = None).
Proof.
  intros Hc Hn Hf Hp pgoff' H0. unfold nova_find_next_entry in Hf.
  destruct (radix_tree_next t pgoff) as [[k v]|] eqn:E; [|done]. injection Hf as ->.
  destruct (radix_tree_next_some _ _ _ _ E) as (Hk & Hle & Hmin).
  assert (k <> pgoff) by congruence. pose proof (Hc k a Hk) as (H1 & H2 & H3).
  unfold pgoff'. rewrite u64_small by lia.
  destruct (Z.ltb_spec (We.pgoff m a) (pgoff + 1)); (split; [lia|]); intros p Hpr; apply Hmin; lia.
Qed.

Lemma with_tree_same sih : with_tree (tree sih) sih = sih.
Proof. by destruct sih. Qed.

Section keep.
Context `{RbTree} (slab_garbage : nova_range_node) (smp : Z).

(** Taking pages out without freeing their blocks. *)
Lemma delete_tree_keep n : forall sbi mon sih pi pgoff last,
  covering (nvm sbi) (tree sih) -> 0 <= pgoff < 2 ^ 63 -> last < 2 ^ 62 -> last + 1 - pgoff <= Z.of_nat n ->
  delete_tree_loop slab_garbage smp n pi pgoff last false 0 0 0 (World sbi mon sih) =
    Some ((0, 0, 0), World sbi mon (with_tree (cut pgoff last (tree sih)) sih)).
Proof.
  induction n as [|n IH]; intros sbi mon sih pi pgoff last Hc Hp Hl Hn; cbn [delete_tree_loop].
  { rewrite (proj2 (Z.ltb_lt last pgoff)) by lia. by rewrite cut_empty, with_tree_same by lia. }
  destruct (Z.ltb_spec last pgoff) as [Hlt|Hle]; [by rewrite cut_empty, with_tree_same by lia|].
  frun. destruct (tree sih !! pgoff) as [a|] eqn:Et.
  - frun. rewrite u64_small, i32_small by lia.
    rewrite IH; [|by apply covering_delete|lia|lia|lia].
    cbn [tree with_tree]. by rewrite (cut_delete pgoff) by lia.
  - destruct (nova_find_next_entry (tree sih) pgoff) as [a|] eqn:Ef.
    + frun. destruct (next_page_ok (nvm sbi) (tree sih) pgoff a Hc Et Ef) as [Hgt Hhole]; [lia|lia|].
      cbv zeta in *. set (pgoff' := if _ <? _ then _ else _) in *.
      rewrite IH by (done || lia). by rewrite (cut_hole pgoff pgoff') by (done || lia).
    + assert (cut pgoff last (tree sih) = tree sih) as ->; [|by rewrite with_tree_same].
      apply map_eq. intros p. rewrite cut_lookup. unfold nova_find_next_entry in Ef.
      destruct (radix_tree_next (tree sih) pgoff) eqn:E; [done|].
      destruct (Z.leb_spec pgoff p), (Z.leb_spec p last); cbn [andb]; try done.
      symmetry. by eapply radix_tree_next_none.
Qed.
End keep.
