(* ===== verification/Truncate.v ===== *)
(** * Deleting the pages of a file (inode.c)

    [nova_delete_file_tree] takes a range of pages out of the tree of a file and gives their
    blocks back in runs, counting in each write entry the pages that are no longer valid.
    The theorem is proved against the interface of the block allocator. *)

From S2P Require Import Prelude Layout RangeTree RbList State Balloc BallocFacts BallocSpec.
From S2P Require Import BallocInit BallocTheorems TreeEdits InodeMap LogBlocks InodeTable.
From S2P Require Import Monitor Histogram HashTable Records KnapSack Detect WriteCount Migrate.
From S2P Require Import LogPages World InodeLog FastGc BlockMap Crawl FileTree.
#[local] Open Scope word_scope.

(** ** Counting the pages of an entry *)

Definition slots (t : gmap Z Z) (a : Z) : nat := size (filter (fun x => snd x = a) t).

Lemma slots_delete t p a : t !! p = Some a -> slots t a = S (slots (delete p t) a).
Proof.
  intros Hp. unfold slots. rewrite map_filter_delete.
  assert (filter (fun x => snd x = a) t !! p = Some a) as Hf by (by apply map_lookup_filter_Some).
  rewrite map_size_delete, Hf. assert (size (filter (fun x : Z * Z => snd x = a) t) <> 0%nat); [|lia].
  intros H0%map_size_empty_inv. by rewrite H0, lookup_empty in Hf.
Qed.

Lemma slots_delete_ne t p a b : t !! p = Some a -> a <> b -> slots (delete p t) b = slots t b.
Proof.
  intros Hp Hne. unfold slots. rewrite map_filter_delete, map_size_delete.
  assert (filter (fun x => snd x = b) t !! p = None) as ->; [|done].
  apply map_lookup_filter_None. right. intros v Hv. simpl. congruence.
Qed.

Lemma slots_cases t a : (exists p, t !! p = Some a) \/ ((forall p, t !! p <> Some a) /\ slots t a = 0%nat).
Proof.
  destruct (decide (filter (fun x => snd x = a) t = ∅)) as [E|E].
  - right. split; [|unfold slots; by rewrite E]. intros p Hp.
    assert (filter (fun x => snd x = a) t !! p = Some a) as Hf by (by apply map_lookup_filter_Some).
    by rewrite E, lookup_empty in Hf.
  - left. destruct (map_choose _ E) as (p & v & [Hp Hv]%map_lookup_filter_Some). simpl in Hv. subst v. eauto.
Qed.

Lemma slots_none t a : (forall p, t !! p <> Some a) -> slots t a = 0%nat.
Proof. intros Hn. destruct (slots_cases t a) as [[p Hp]|[_ ?]]; [by destruct (Hn p)|done]. Qed.

Lemma size_delete_some (t : gmap Z Z) p a : t !! p = Some a -> size t = S (size (delete p t)).
Proof.
  intros Hp. rewrite map_size_delete, Hp. assert (size t <> 0%nat); [|lia].
  intros H0%map_size_empty_inv. by rewrite H0, lookup_empty in Hp.
Qed.

(** The blocks of the pages from [first] to [last]. *)
Definition page_block (m : memory) (t : gmap Z Z) (first last b : Z) : Prop :=
  exists p a, first <= p <= last /\ t !! p = Some a /\ entry_block m a p = b.

(** The fields of an entry that a page is invalidated in. *)
Lemma invalidate_entry m a v :
  let m' := We.set_invalid_pages m a v in
  We.block m' a = We.block m a /\ We.pgoff m' a = We.pgoff m a /\ We.num_pages m' a = We.num_pages m a /\
  We.invalid_pages m' a = v mod 2 ^ 32.
Proof.
  cbv zeta. unfold We.set_invalid_pages, We.block, We.pgoff, We.num_pages, We.invalid_pages.
  rewrite !load_store_ne by lia. by rewrite load_store_eq.
Qed.

Lemma invalidate_other m a v b :
  a + 40 <= b \/ b + 40 <= a -> let m' := We.set_invalid_pages m a v in
  We.block m' b = We.block m b /\ We.pgoff m' b = We.pgoff m b /\ We.num_pages m' b = We.num_pages m b /\
  We.invalid_pages m' b = We.invalid_pages m b.
Proof.
  intros Hab. cbv zeta. unfold We.set_invalid_pages, We.block, We.pgoff, We.num_pages, We.invalid_pages.
  by rewrite !load_store_ne by lia.
Qed.

Section delete.
Context `{RbTree} {L : LogBlocks} (slab_garbage : nova_range_node) (smp pi : Z).
Implicit Types (sbi : nova_sb_info) (F : Z -> Prop) (t : gmap Z Z).

(** The file: its entries cover the pages they are entered for, the blocks are in use by one
    page each, an entry counts its pages that are not in the tree, and consecutive blocks of
    the file belong to one free list. *)
Record file_ok sbi F t : Prop := {
  fk_free : lb_free sbi F;
  fk_type : Pi.i_blk_type (nvm sbi) pi = 0;
  fk_cover : covering (nvm sbi) t;
  fk_block p a : t !! p = Some a -> 0 < entry_block (nvm sbi) a p < num_blocks sbi /\ ~ F (entry_block (nvm sbi) a p);
  fk_inj p q a b : t !! p = Some a -> t !! q = Some b ->
    entry_block (nvm sbi) a p = entry_block (nvm sbi) b q -> p = q;
  fk_home p q a b : t !! p = Some a -> t !! q = Some b ->
    entry_block (nvm sbi) b q = entry_block (nvm sbi) a p + 1 ->
    home sbi (entry_block (nvm sbi) b q) = home sbi (entry_block (nvm sbi) a p);
  fk_room p a : t !! p = Some a -> We.invalid_pages (nvm sbi) a + Z.of_nat (slots t a) <= We.num_pages (nvm sbi) a;
  fk_apart p q a b : t !! p = Some a -> t !! q = Some b -> a <> b -> a + 40 <= b \/ b + 40 <= a;
  fk_pi p a : t !! p = Some a -> a + 40 <= pi \/ pi + 128 <= a;
}.

(** The run of blocks that is still to be given back. *)
Record run_ok sbi F t (start num : Z) : Prop := {
  ru_empty : (start = 0 /\ num = 0) \/ (0 < start /\ 0 < num);
  ru_block x : start <= x < start + num -> 0 < x < num_blocks sbi /\ ~ F x /\ home sbi x = home sbi start;
  ru_apart p a : t !! p = Some a -> ~ start <= entry_block (nvm sbi) a p < start + num;
  ru_link p a : t !! p = Some a -> 0 < num -> entry_block (nvm sbi) a p = start + num ->
    home sbi (start + num) = home sbi start;
}.

(** One page is taken out and counted in its entry. *)
Definition invalidate sbi (a : Z) : nova_sb_info :=
  with_nvm (We.set_invalid_pages (nvm sbi) a (We.invalid_pages (nvm sbi) a + 1)) sbi.

Lemma invalidate_block sbi F t p a q b :
  file_ok sbi F t -> t !! p = Some a -> t !! q = Some b ->
  (forall x, entry_block (nvm (invalidate sbi a)) b x = entry_block (nvm sbi) b x) /\
  We.pgoff (nvm (invalidate sbi a)) b = We.pgoff (nvm sbi) b /\
  We.num_pages (nvm (invalidate sbi a)) b = We.num_pages (nvm sbi) b /\
  We.invalid_pages (nvm (invalidate sbi a)) b = We.invalid_pages (nvm sbi) b + (if decide (a = b) then 1 else 0).
Proof.
  intros Hok Hp Hq. unfold invalidate, entry_block. cbn [nvm with_nvm].
  destruct (decide (a = b)) as [<-|Hne].
  - destruct (invalidate_entry (nvm sbi) a (We.invalid_pages (nvm sbi) a + 1)) as (E1 & E2 & E3 & E4).
    cbv zeta in *. rewrite E1, E2, E3, E4. split_and!; try done.
    pose proof (fk_room _ _ _ Hok p a Hp). pose proof (slots_delete t p a Hp).
    pose proof (load_range 4 (nvm sbi) (a + 16)). pose proof (load_range 4 (nvm sbi) (a + 20)).
    unfold We.num_pages, We.invalid_pages in *. simpl Z.of_nat in *. apply Z.mod_small. lia.
  - destruct (invalidate_other (nvm sbi) a (We.invalid_pages (nvm sbi) a + 1) b) as (E1 & E2 & E3 & E4).
    { eapply fk_apart; eauto. }
    cbv zeta in *. rewrite E1, E2, E3, E4. split_and!; try done. lia.
Qed.

Lemma invalidate_ok sbi F t p a :
  file_ok sbi F t -> t !! p = Some a -> file_ok (invalidate sbi a) F (delete p t).
Proof.
  intros Hok Hp. pose proof Hok as [K1 K2 K3 K4 K5 K6 K7 K8 K9].
  assert (forall q b, delete p t !! q = Some b -> t !! q = Some b /\ q <> p) as Hd
    by (intros q b Hq; apply lookup_delete_Some in Hq as [? ?]; done).
  pose proof (fun q b Hq => invalidate_block sbi F t p a q b Hok Hp Hq) as HB.
  split.
  - by apply lb_free_nvm.
  - rewrite <- K2. unfold invalidate. cbn [nvm with_nvm]. apply load_store_ne. destruct (K9 p a Hp); lia.
  - intros q b [Hq _]%Hd. destruct (HB q b Hq) as (_ & -> & -> & _). by apply K3.
  - intros q b [Hq _]%Hd. destruct (HB q b Hq) as (E & _). rewrite E. by apply K4.
  - intros q r b c [Hq _]%Hd [Hr _]%Hd. destruct (HB q b Hq) as (E & _), (HB r c Hr) as (E' & _).
    rewrite E, E'. by eapply K5.
  - intros q r b c [Hq _]%Hd [Hr _]%Hd. destruct (HB q b Hq) as (E & _), (HB r c Hr) as (E' & _).
    rewrite E, E'. by eapply K6.
  - intros q b [Hq Hne]%Hd. destruct (HB q b Hq) as (_ & _ & -> & ->). specialize (K7 q b Hq).
    destruct (decide (a = b)) as [<-|Hab].
    + rewrite (slots_delete t p a Hp) in K7. lia.
    + rewrite (slots_delete_ne t p a b Hp Hab). lia.
  - intros q r b c [Hq _]%Hd [Hr _]%Hd. by eapply K8.
  - intros q b [Hq _]%Hd. by eapply K9.
Qed.

(** A run was given back. *)
Lemma file_ok_released sbi F t start num sbi' F' :
  file_ok sbi F t -> (forall p a, t !! p = Some a -> ~ start <= entry_block (nvm sbi) a p < start + num) ->
  released sbi F (seqZ start num) sbi' F' -> file_ok sbi' F' t.
Proof.
  intros [K1 K2 K3 K4 K5 K6 K7 K8 K9] Hap [Hf _ Hn _ [Gv Gc Gb Gp _ _ _ _ _] _ Hm].
  split; rewrite ?Hm, ?Gb; auto.
  - intros p a Hp. split; [by apply K4|]. intros [Hx|Hx]%Hn; [by apply (K4 p a)|].
    apply elem_of_seqZ in Hx. by apply (Hap p a).
  - intros p q a b Hp Hq Hpq. unfold home. rewrite Gc, Gp. by apply (K6 p q).
Qed.

Lemma get_nvmm_ok sbi mon sih p a :
  We.pgoff (nvm sbi) a <= p < We.pgoff (nvm sbi) a + We.num_pages (nvm sbi) a ->
  0 <= We.pgoff (nvm sbi) a -> We.pgoff (nvm sbi) a + We.num_pages (nvm sbi) a < 2 ^ 63 ->
  0 <= entry_block (nvm sbi) a p < 2 ^ 63 ->
  get_nvmm smp a p (World sbi mon sih) = Some (entry_block (nvm sbi) a p, World sbi mon sih).
Proof.
  intros H1 H0 H2 Hb. unfold get_nvmm. frun. rewrite (u64_small (We.pgoff _ _ + _)) by lia.
  rewrite (proj2 (Z.ltb_ge p _)), (proj2 (Z.leb_gt _ p)) by lia. cbn [orb]. frun.
  unfold entry_block in *. rewrite Z.add_sub_assoc in *. by rewrite u64_small by lia.
Qed.

(** What has happened to the free blocks when the run [start], [num] and the block [b] went
    into the free set or into the run [start'], [num']. *)
Record run_step F (start num b : Z) F' (start' num' : Z) : Prop := {
  rs_old x : F x -> F' x;
  rs_new x : F' x -> F x \/ start <= x < start + num;
  rs_run x : start' <= x < start' + num' -> start <= x < start + num \/ x = b;
  rs_all x : (forall h, kmem_cache_alloc h <> None) -> start <= x < start + num \/ x = b ->
    F' x \/ start' <= x < start' + num';
}.

(** The block of a page joins the run, or the run is given back and the block starts a new
    one. *)
Lemma free_contiguous_ok sbi mon sih F t start num p a :
  file_ok sbi F t -> run_ok sbi F t start num -> t !! p = Some a -> num < 2147483648 ->
  exists f sbi' F' start' num',
    nova_free_contiguous_data_blocks slab_garbage smp pi a p 1 start num (World sbi mon sih) =
      Some ((f, start', num'), World sbi' mon sih) /\
    file_ok sbi' F' (delete p t) /\ run_ok sbi' F' (delete p t) start' num' /\
    0 <= f /\ f + num' = num + 1 /\ run_step F start num (entry_block (nvm sbi) a p) F' start' num' /\
    same_geometry sbi sbi' /\ nvm sbi' = nvm (invalidate sbi a) /\ nodes_frame sbi sbi'.
Proof.
  intros Hok Hrun Hp Hnum. pose proof (invalidate_ok sbi F t p a Hok Hp) as Hok1.
  destruct (fk_block _ _ _ Hok p a Hp) as [Hb HFb]. pose proof (lb_size _ _ (fk_free _ _ _ Hok)) as Hsz.
  pose proof (fk_room _ _ _ Hok p a Hp) as Hroom. pose proof (slots_delete t p a Hp) as Hsl.
  destruct (invalidate_block sbi F t p a p a Hok Hp Hp) as (EB & EO & EN & _).
  destruct (fk_cover _ _ _ Hok p a Hp) as (C1 & C2 & C3).
  assert (forall q c, delete p t !! q = Some c -> t !! q = Some c /\ q <> p /\
    entry_block (nvm (invalidate sbi a)) c q = entry_block (nvm sbi) c q) as Hd.
  { intros q c Hq. apply lookup_delete_Some in Hq as [Hne Hq]. split_and!; [done|by intros ->|].
    apply (invalidate_block sbi F t p a q c Hok Hp Hq). }
  unfold nova_free_contiguous_data_blocks. frun.
  pose proof (load_range 4 (nvm sbi) (a + 20)) as Hr20. change (load 4 (nvm sbi) (a + 20)) with (We.invalid_pages (nvm sbi) a) in Hr20.
  simpl Z.of_nat in Hr20. rewrite (u64_small (We.invalid_pages _ _ + 1)), (proj2 (Z.ltb_ge _ _)) by lia. frun.
  fold (invalidate sbi a).
  assert (get_nvmm smp a p (World (invalidate sbi a) mon sih) =
    Some (entry_block (nvm sbi) a p, World (invalidate sbi a) mon sih)) as Eg.
  { rewrite <- (EB p). apply get_nvmm_ok; rewrite ?EO, ?EN, ?EB; lia. }
  fstep Eg. clear Eg. set (b := entry_block (nvm sbi) a p) in *.
  assert (forall q c, delete p t !! q = Some c -> entry_block (nvm (invalidate sbi a)) c q <> b) as Hnb.
  { intros q c (Hq & Hne & ->)%Hd Ebq. apply Hne. by eapply (fk_inj _ _ _ Hok q p). }
  assert (forall q c, delete p t !! q = Some c -> entry_block (nvm (invalidate sbi a)) c q = b + 1 ->
    home sbi (b + 1) = home sbi b) as Hlink.
  { intros q c (Hq & Hne & ->)%Hd Ebq. rewrite <- Ebq. by eapply (fk_home _ _ _ Hok p q). }
  destruct Hrun as [[[-> ->]|[Hs Hn]] Hrb Hra Hrl].
  { exists 0, (invalidate sbi a), F, b, 1. rewrite Z.eqb_refl. split; [done|]. split; [done|]. split.
    - split; [right; lia| | |].
      + intros x Hx. assert (x = b) as -> by lia. done.
      + intros q c Hq Hx. apply (Hnb q c Hq). lia.
      + intros q c Hq _ Ebq. by eapply Hlink.
    - split; [lia|]. split; [lia|]. split; [|split; [by split|split; [done|by intros n r]]].
      split; [done|tauto|intros x Hx; right; lia|]. intros x _ [?| ->]; [lia|right; lia]. }
  rewrite (proj2 (Z.eqb_neq start 0)) by lia.
  assert (start + num <= num_blocks sbi) as Hend by (destruct (Hrb (start + num - 1)); lia).
  rewrite (u64_small (start + num)) by lia. destruct (Z.eqb_spec b (start + num)) as [Eb|Hne].
  { exists 0, (invalidate sbi a), F, start, (num + 1). rewrite u64_small by lia. split; [done|]. split; [done|].
    assert (home sbi (start + num) = home sbi start) as Hh by (by apply (Hrl p a)). split.
    - split; [right; lia| | |].
      + intros x Hx. destruct (decide (x = start + num)) as [->|]; [|apply Hrb; lia]. by rewrite <- Eb at 1 2 3.
      + intros q c Hq Hx. destruct (decide (entry_block (nvm (invalidate sbi a)) c q = b)); [by apply (Hnb q c Hq)|].
        destruct (Hd q c Hq) as (Hq' & _ & Hqe). apply (Hra q c Hq'). rewrite <- Hqe. lia.
      + intros q c Hq _ Ebq. change (home (invalidate sbi a)) with (home sbi).
        rewrite <- Hh, Z.add_assoc, <- Eb. apply (Hlink q c Hq). lia.
    - split; [lia|]. split; [lia|]. split; [|split; [by split|split; [done|by intros n r]]].
      split; [done|tauto| |]; intros x; [intros Hx|intros _ Hx]; [|right]; lia. }
  destruct (release_data_run slab_garbage (invalidate sbi a) F pi start num) as (ret & sbi1 & F1 & E1 & Hrl1);
    [apply Hok1|apply Hok1|lia|lia|done|intros x Hx; split; apply Hrb; lia|].
  rewrite (i32_small num) by lia.
  fstep (on_sbi_run (fun s => nova_free_data_blocks slab_garbage s pi start num) (World (invalidate sbi a) mon sih) _ _ E1).
  cbn [w_sbi w_mon w_sih]. pose proof Hrl1 as [Rf Ro Rn Ra Rg Rk Rm]. pose proof Rg as [Gv Gc Gb Gp _ _ _ _ _].
  exists num, sbi1, F1, b, 1. split; [done|]. split.
  { eapply (file_ok_released (invalidate sbi a)); [done| |exact Hrl1]. intros q c Hq Hx.
    destruct (Hd q c Hq) as (Hq' & _ & Hqe). apply (Hra q c Hq'). by rewrite <- Hqe. }
  split; [split|].
  - right. lia.
  - intros x Hx. assert (x = b) as -> by lia. rewrite Gb. split; [done|]. split; [|done].
    intros [Hx'|Hx']%Rn; [done|]. apply elem_of_seqZ in Hx'. by apply (Hra p a Hp).
  - intros q c Hq Hx. apply (Hnb q c Hq). rewrite Rm in Hx. lia.
  - intros q c Hq _ Ebq. unfold home. rewrite Gc, Gp. rewrite Rm in Ebq. by eapply Hlink.
  - split; [lia|]. split; [lia|]. split; [|split; [|split; [done|exact Rk]]].
    + split; [done| |intros x Hx; right; lia|].
      * intros x [Hx|Hx]%Rn; [by left|]. apply elem_of_seqZ in Hx. by right.
      * intros x Hslab [Hx| ->]; [left; apply Ra; [done|]; by apply elem_of_seqZ|right; lia].
    + by destruct Rg.
Qed.

(** The pages from [first] to [last] were taken out of [t]: their blocks and the run went
    into the free set, all of them when the slab has nodes, or into the run that is left;
    each entry counts its pages that are gone, and no other byte changed. *)
Record deleted sbi F t (first last start num : Z) sbi' F' (start' num' : Z) : Prop := {
  de_old x : F x -> F' x;
  de_new x : F' x -> F x \/ start <= x < start + num \/ page_block (nvm sbi) t first last x;
  de_run x : start' <= x < start' + num' -> start <= x < start + num \/ page_block (nvm sbi) t first last x;
  de_all x : (forall h, kmem_cache_alloc h <> None) ->
    start <= x < start + num \/ page_block (nvm sbi) t first last x -> F' x \/ start' <= x < start' + num';
  de_geometry : same_geometry sbi sbi';
  de_nodes : nodes_frame sbi sbi';
  de_same x : (forall p a, t !! p = Some a -> ~ a + 20 <= x < a + 24) -> nvm sbi' x = nvm sbi x;
  de_count p a : t !! p = Some a ->
    We.invalid_pages (nvm sbi') a + Z.of_nat (slots (cut first last t) a) =
    We.invalid_pages (nvm sbi) a + Z.of_nat (slots t a);
}.

Lemma deleted_none sbi F t first last start num :
  (forall p, first <= p <= last -> t !! p = None) -> deleted sbi F t first last start num sbi F start num.
Proof.
  intros Hn. assert (cut first last t = t) as Ec.
  { apply map_eq. intros p. rewrite cut_lookup. destruct (Z.leb_spec first p), (Z.leb_spec p last); cbn [andb]; try done.
    symmetry. by apply Hn. }
  split; rewrite ?Ec; auto using nodes_frame_refl.
  - intros x _ [?|(p & a & Hp & Hpa & _)]; [by right|]. rewrite Hn in Hpa by lia. done.
  - by split.
Qed.

Lemma page_block_hole m t first first' last x :
  (forall p, first <= p < first' -> t !! p = None) -> first <= first' ->
  page_block m t first last x <-> page_block m t first' last x.
Proof.
  intros Hh Hf. split; intros (p & a & Hp & Hpa & Hx); exists p, a; (split; [|by split]); [|lia].
  destruct (Z.ltb_spec p first'); [|lia]. rewrite Hh in Hpa by lia. done.
Qed.

Lemma deleted_hole sbi F t first first' last start num sbi' F' start' num' :
  (forall p, first <= p < first' -> t !! p = None) -> first <= first' ->
  deleted sbi F t first' last start num sbi' F' start' num' -> deleted sbi F t first last start num sbi' F' start' num'.
Proof.
  intros Hh Hf [D1 D2 D3 D4 D5 D5' D6 D7]. pose proof (fun x => page_block_hole (nvm sbi) t first first' last x Hh Hf) as Hpb.
  split; auto; try (intros x; rewrite Hpb; auto). intros p a. rewrite (cut_hole first first') by done. apply D7.
Qed.

(** One page, and the rest. *)
Lemma deleted_step sbi F t p a last start num sbi1 F1 start1 num1 sbi2 F2 start2 num2 :
  file_ok sbi F t -> t !! p = Some a -> p <= last ->
  run_step F start num (entry_block (nvm sbi) a p) F1 start1 num1 ->
  same_geometry sbi sbi1 -> nvm sbi1 = nvm (invalidate sbi a) -> nodes_frame sbi sbi1 ->
  deleted sbi1 F1 (delete p t) (p + 1) last start1 num1 sbi2 F2 start2 num2 ->
  deleted sbi F t p last start num sbi2 F2 start2 num2.
Proof.
  intros Hok Hp Hl [R1 R2 R3 R4] Hg Hm Hnf [D1 D2 D3 D4 D5 D5' D6 D7].
  pose proof (fun q b Hq => invalidate_block sbi F t p a q b Hok Hp Hq) as HB.
  assert (forall x, page_block (nvm sbi1) (delete p t) (p + 1) last x -> page_block (nvm sbi) t p last x) as Hsub.
  { intros x (q & b & Hq & Hqb & Hx). apply lookup_delete_Some in Hqb as [_ Hqb]. exists q, b.
    split; [lia|]. split; [done|]. rewrite <- Hx, Hm. symmetry. by apply HB with q. }
  assert (forall x, page_block (nvm sbi) t p last x ->
    x = entry_block (nvm sbi) a p \/ page_block (nvm sbi1) (delete p t) (p + 1) last x) as Hsup.
  { intros x (q & b & Hq & Hqb & Hx). destruct (decide (q = p)) as [->|Hne]; [left; congruence|right].
    exists q, b. split; [lia|]. rewrite lookup_delete_ne by done. split; [done|].
    rewrite <- Hx, Hm. by apply HB with q. }
  assert (page_block (nvm sbi) t p last (entry_block (nvm sbi) a p)) as Hself by (exists p, a; split; [lia|done]).
  split.
  - auto.
  - intros x [Hx|[Hx|Hx]]%D2; [apply R2 in Hx; tauto|apply R3 in Hx as [?| ->]; auto|right; right; auto].
  - intros x [Hx|Hx]%D3; [apply R3 in Hx as [?| ->]; auto|auto].
  - intros x Hslab Hx. assert (start <= x < start + num \/ x = entry_block (nvm sbi) a p \/
      page_block (nvm sbi1) (delete p t) (p + 1) last x) as [Hx'|[Hx'|Hx']].
    { destruct Hx as [?|[?|?]%Hsup]; tauto. }
    + destruct (R4 x Hslab ltac:(tauto)); [left; auto|apply D4; tauto].
    + destruct (R4 x Hslab ltac:(tauto)); [left; auto|apply D4; tauto].
    + apply D4; tauto.
  - by eapply same_geometry_trans.
  - by eapply nodes_frame_trans.
  - intros x Hx. rewrite D6, Hm; [|intros q b Hq; apply lookup_delete_Some in Hq as [_ Hq]; by eapply Hx].
    unfold invalidate, We.set_invalid_pages. cbn [nvm with_nvm]. apply store_disjoint. simpl.
    specialize (Hx p a Hp). lia.
  - intros q b Hq. rewrite (cut_delete p) by lia. destruct (HB q b Hq) as (_ & _ & _ & HI). rewrite <- Hm in HI.
    destruct (slots_cases (delete p t) b) as [[r Hr]|[Hno Hz]].
    + rewrite (D7 r b Hr), HI. destruct (decide (a = b)) as [<-|Hab].
      * rewrite (slots_delete t p a Hp). lia.
      * rewrite (slots_delete_ne t p a b Hp Hab). lia.
    + assert (q = p) as -> by (destruct (decide (q = p)); [done|]; destruct (Hno q); by rewrite lookup_delete_ne).
      assert (b = a) as -> by congruence. rewrite decide_True in HI by done.
      assert (We.invalid_pages (nvm sbi2) a = We.invalid_pages (nvm sbi1) a) as ->.
      { apply load_ext. intros x Hx. apply D6. intros r c Hr. apply lookup_delete_Some in Hr as [Hne Hr].
        assert (c <> a) as Hca by (intros ->; destruct (Hno r); by rewrite lookup_delete_ne).
        pose proof (fk_apart _ _ _ Hok r p c a Hr Hp Hca). simpl in Hx. lia. }
      rewrite HI, (slots_delete t p a Hp), Hz, slots_none; [lia|]. intros r Hr. rewrite cut_lookup in Hr.
      destruct (_ && _); [done|]. by destruct (Hno r).
Qed.

Lemma size_cut t first last : (size (cut first last t) <= size t)%nat.
Proof. apply map_size_filter. Qed.

(** The loop over the pages. *)
Lemma delete_tree_free last n : forall sbi mon sih F pgoff freed start num,
  file_ok sbi F (tree sih) -> run_ok sbi F (tree sih) start num -> 0 <= pgoff < 2 ^ 63 -> last < 2 ^ 62 ->
  last + 1 - pgoff <= Z.of_nat n -> 0 <= freed -> 0 <= num ->
  freed + num + Z.of_nat (size (tree sih)) < 2147483648 ->
  exists sbi' F' start' num' freed',
    delete_tree_loop slab_garbage smp n pi pgoff last true freed start num (World sbi mon sih) =
      Some ((freed', start', num'), World sbi' mon (with_tree (cut pgoff last (tree sih)) sih)) /\
    file_ok sbi' F' (cut pgoff last (tree sih)) /\ run_ok sbi' F' (cut pgoff last (tree sih)) start' num' /\
    0 <= freed' /\ 0 <= num' /\
    freed' + num' + Z.of_nat (size (cut pgoff last (tree sih))) = freed + num + Z.of_nat (size (tree sih)) /\
    deleted sbi F (tree sih) pgoff last start num sbi' F' start' num'.
Proof.
  assert (forall sbi (mon : monitor) sih F pgoff freed start num, file_ok sbi F (tree sih) -> run_ok sbi F (tree sih) start num ->
    0 <= freed -> 0 <= num -> (forall p, pgoff <= p <= last -> tree sih !! p = None) ->
    exists sbi' F' start' num' freed', Some ((freed, start, num), World sbi mon sih) =
      Some ((freed', start', num'), World sbi' mon (with_tree (cut pgoff last (tree sih)) sih)) /\
    file_ok sbi' F' (cut pgoff last (tree sih)) /\ run_ok sbi' F' (cut pgoff last (tree sih)) start' num' /\
    0 <= freed' /\ 0 <= num' /\
    freed' + num' + Z.of_nat (size (cut pgoff last (tree sih))) = freed + num + Z.of_nat (size (tree sih)) /\
    deleted sbi F (tree sih) pgoff last start num sbi' F' start' num') as Hend.
  { intros sbi mon sih F pgoff freed start num Hok Hrun Hf Hn Hnone.
    assert (cut pgoff last (tree sih) = tree sih) as ->.
    { apply map_eq. intros p. rewrite cut_lookup.
      destruct (Z.leb_spec pgoff p), (Z.leb_spec p last); cbn [andb]; try done. symmetry. by apply Hnone. }
    exists sbi, F, start, num, freed. rewrite with_tree_same. split_and!; try done. by apply deleted_none. }
  induction n as [|n IH]; intros sbi mon sih F pgoff freed start num Hok Hrun Hp Hl Hn Hf Hnum Hsz; cbn [delete_tree_loop].
  { rewrite (proj2 (Z.ltb_lt last pgoff)) by lia. apply Hend; auto. intros; lia. }
  destruct (Z.ltb_spec last pgoff) as [Hlt|Hle]; [apply Hend; auto; intros; lia|].
  frun. destruct (tree sih !! pgoff) as [a|] eqn:Et.
  - frun. destruct (free_contiguous_ok sbi mon (with_tree (delete pgoff (tree sih)) sih) F (tree sih) start num pgoff a
      Hok Hrun Et ltac:(lia)) as (f & sbi1 & F1 & start1 & num1 & E1 & Hok1 & Hrun1 & Hf1 & Hfn & Hst & Hg1 & Hm1 & Hnf1).
    fstep E1. cbv beta iota. pose proof (size_delete_some (tree sih) pgoff a Et) as Hsd.
    destruct Hrun1 as [Hre Hrb Hra Hrl] eqn:Er; clear Er.
    assert (0 <= num1) by lia. rewrite u64_small, i32_small by lia.
    destruct (IH sbi1 mon (with_tree (delete pgoff (tree sih)) sih) F1 (pgoff + 1) (freed + f) start1 num1)
      as (sbi2 & F2 & start2 & num2 & freed2 & E2 & Hok2 & Hrun2 & Hf2 & Hn2 & Hsum & Hd); cbn [tree with_tree]; try (done || lia).
    cbn [tree with_tree] in *. exists sbi2, F2, start2, num2, freed2.
    rewrite <- (cut_delete pgoff) in * by lia. split; [exact E2|]. split_and!; try done; [lia|].
    by eapply deleted_step.
  - destruct (nova_find_next_entry (tree sih) pgoff) as [a|] eqn:Ef.
    + frun. destruct (next_page_ok (nvm sbi) (tree sih) pgoff a (fk_cover _ _ _ Hok) Et Ef) as [Hgt Hhole]; [lia|lia|].
      cbv zeta in *. set (pgoff' := if _ <? _ then _ else _) in *.
      destruct (IH sbi mon sih F pgoff' freed start num)
        as (sbi2 & F2 & start2 & num2 & freed2 & E2 & Hok2 & Hrun2 & Hf2 & Hn2 & Hsum & Hd); try (done || lia).
      exists sbi2, F2, start2, num2, freed2. rewrite (cut_hole pgoff pgoff') by (done || lia).
      split; [exact E2|]. split_and!; try done. eapply deleted_hole; [exact Hhole|lia|done].
    + apply Hend; auto. intros p Hpr. unfold nova_find_next_entry in Ef.
      destruct (radix_tree_next (tree sih) pgoff) eqn:E; [done|]. eapply radix_tree_next_none; [done|lia].
Qed.

(** A file has no more pages than the device has blocks. *)
Lemma file_size sbi F t : file_ok sbi F t -> Z.of_nat (size t) < 2147483648.
Proof.
  intros Hok. pose proof (lb_size _ _ (fk_free _ _ _ Hok)) as Hsz.
  set (bs := (fun x : Z * Z => entry_block (nvm sbi) (snd x) (fst x)) <$> map_to_list t).
  assert (length bs = size t) as Hl by (unfold bs; by rewrite length_fmap, length_map_to_list).
  assert (forall b, b ∈ bs -> 0 < b < num_blocks sbi) as Hb.
  { intros b ([p a] & -> & Hin%elem_of_map_to_list)%list_elem_of_fmap. by apply (fk_block _ _ _ Hok p a). }
  assert (NoDup bs) as Hnd.
  { apply NoDup_fmap_2_strong; [|apply NoDup_map_to_list]. intros [p a] [q b] Hp%elem_of_map_to_list Hq%elem_of_map_to_list Hpq.
    simpl in *. assert (p = q) as -> by (by eapply (fk_inj _ _ _ Hok)). congruence. }
  pose proof (nodup_blocks bs (num_blocks sbi) Hnd Hb). destruct (Z.ltb_spec 0 (num_blocks sbi)); lia.
Qed.

(** The inode of the header is the one at [pi]. *)
Record header_of (sbi : nova_sb_info) (P : Z -> list Z) (sih : nova_inode_info_header) : Prop := {
  ho_tables : tables_ok sbi P;
  ho_unlocked : unlocked sbi;
  ho_blocks : num_blocks sbi < 2147483648;
  ho_ino : NOVA_NORMAL_INODE_START <= sih_ino sih;
  ho_slot : exists s, inode_slot (cpus sbi) P (sih_ino sih) = Some s /\ nova_get_block (virt_addr sbi) s = pi;
}.

Lemma lookup_inode_ok sbi mon sih P addr :
  header_of sbi P sih -> lookup_inode smp (sih_ino sih) addr (World sbi mon sih) = Some (pi, World sbi mon sih).
Proof.
  intros [T1 T2 Hs Hi (s & Hsl & <-)]. unfold lookup_inode. erewrite fs_step; [|apply on_sbi_run].
  2:{ unfold nova_get_inode_by_ino_or_pi_addr. cbn [w_sbi]. rewrite (proj2 (Z.ltb_ge _ _)) by lia.
      apply (wwb_get_present smp sbi P _ s); auto. unfold NOVA_NORMAL_INODE_START in Hi. lia. }
  done.
Qed.

Lemma delete_file_tree_run sbi mon sih P F first last dm :
  header_of sbi P sih -> file_ok sbi F (tree sih) -> mmap_pages sih = 0 -> 0 <= first < 2 ^ 63 -> last < 2 ^ 62 ->
  let t' := cut first last (tree sih) in
  exists sbi' F',
    nova_delete_file_tree slab_garbage smp first last true dm (World sbi mon sih) =
      Some (Z.of_nat (size (tree sih) - size t'), World sbi' mon (with_tree t' sih)) /\
    file_ok sbi' F' t' /\
    (forall b, F b -> F' b) /\ (forall b, F' b -> F b \/ page_block (nvm sbi) (tree sih) first last b) /\
    ((forall h, kmem_cache_alloc h <> None) -> forall b, page_block (nvm sbi) (tree sih) first last b -> F' b) /\
    (forall p a, tree sih !! p = Some a ->
       We.invalid_pages (nvm sbi') a + Z.of_nat (slots t' a) =
       We.invalid_pages (nvm sbi) a + Z.of_nat (slots (tree sih) a)) /\
    (forall x, (forall p a, tree sih !! p = Some a -> ~ a + 20 <= x < a + 24) -> nvm sbi' x = nvm sbi x) /\
    same_geometry sbi sbi' /\ nodes_frame sbi sbi'.
Proof.
  intros Hho Hok Hmm Hfi Hla t'. unfold nova_delete_file_tree. frun. fstep (lookup_inode_ok sbi mon sih P (sih_pi_addr sih) Hho).
  rewrite Hmm. cbn [negb andb Z.eqb]. rewrite andb_false_r. frun. rewrite Hmm. cbn [negb andb Z.eqb]. frun.
  pose proof (file_size _ _ _ Hok) as Hsz. pose proof (size_cut (tree sih) first last) as Hcut. fold t' in Hcut.
  destruct (delete_tree_free last (Z.to_nat (last + 1 - first)) sbi mon sih F first 0 0 0)
    as (sbi1 & F1 & start & num & freed & E1 & Hok1 & [Hre Hrb Hra _] & Hf1 & Hn1 & Hsum & [D1 D2 D3 D4 D5 D5' D6 D7]);
    [done|split; [by left|intros; lia..]|lia|lia|lia|lia|lia|lia|]. fstep E1. cbv beta iota. fold t' in Hok1, Hra, Hsum, D7 |- *.
  destruct Hre as [[-> ->]|[Hs Hn]].
  { exists sbi1, F1. cbn [negb Z.eqb]. split; [|split; [done|split; [done|split; [|split; [|split; [done|split; [done|split; [done|done]]]]]]]].
    - unfold mret, fs_ret. do 2 f_equal. lia.
    - intros b [?|[?|?]]%D2; [tauto|lia|tauto].
    - intros Hslab b Hb. destruct (D4 b Hslab ltac:(tauto)); [done|lia]. }
  rewrite (proj2 (Z.eqb_neq start 0)) by lia. cbn [negb].
  assert (start + num <= num_blocks sbi1) as Hend by (destruct (Hrb (start + num - 1)); lia).
  destruct (release_data_run slab_garbage sbi1 F1 pi start num) as (ret & sbi2 & F2 & E2 & Hrl2);
    [apply Hok1|apply Hok1|lia|lia|done|intros x Hx; split; apply Hrb; lia|].
  rewrite (i32_small num) by lia.
  fstep (on_sbi_run (fun s => nova_free_data_blocks slab_garbage s pi start num)
    (World sbi1 mon (with_tree t' sih)) _ _ E2). cbn [w_sbi w_mon w_sih].
  pose proof Hrl2 as [Rf Ro Rn Ra Rg Rk Rm]. exists sbi2, F2. rewrite Rm.
  split; [|split; [by eapply file_ok_released|split; [by auto|split; [|split; [|split; [done|split; [done|split; [by eapply same_geometry_trans|by eapply nodes_frame_trans]]]]]]]].
  - unfold mret, fs_ret. rewrite i32_small by lia. do 2 f_equal. lia.
  - intros b [Hb|Hb%elem_of_seqZ]%Rn; [apply D2 in Hb as [?|[?|?]]; [tauto|lia|tauto]|].
    apply D3 in Hb as [?|?]; [lia|tauto].
  - intros Hslab b Hb. destruct (D4 b Hslab ltac:(tauto)); [by apply Ro|]. apply Ra; [done|]. by apply elem_of_seqZ.
Qed.

(** [nova_delete_file_tree] with [delete_nvmm] takes exactly the pages from [first] to
    [last] out of the tree and gives exactly their blocks back: the result is their number,
    afterwards the free blocks are the old ones and those of the pages (all of them, when the
    slab has nodes), every write entry counts the pages it lost, and no other byte of the
    device changes. *)
Theorem delete_file_tree_ok sbi mon sih P F first last :
  header_of sbi P sih -> file_ok sbi F (tree sih) -> mmap_pages sih = 0 -> 0 <= first < 2 ^ 63 -> last < 2 ^ 62 ->
  let t' := cut first last (tree sih) in
  exists sbi' F',
    nova_delete_file_tree slab_garbage smp first last true false (World sbi mon sih) =
      Some (Z.of_nat (size (tree sih) - size t'), World sbi' mon (with_tree t' sih)) /\
    file_ok sbi' F' t' /\
    (forall b, F b -> F' b) /\ (forall b, F' b -> F b \/ page_block (nvm sbi) (tree sih) first last b) /\
    ((forall h, kmem_cache_alloc h <> None) -> forall b, page_block (nvm sbi) (tree sih) first last b -> F' b) /\
    (forall p a, tree sih !! p = Some a ->
       We.invalid_pages (nvm sbi') a + Z.of_nat (slots t' a) =
       We.invalid_pages (nvm sbi) a + Z.of_nat (slots (tree sih) a)) /\
    (forall x, (forall p a, tree sih !! p = Some a -> ~ a + 20 <= x < a + 24) -> nvm sbi' x = nvm sbi x).
Proof.
  intros Hho Hok Hmm Hfi Hla t'.
  destruct (delete_file_tree_run sbi mon sih P F first last false Hho Hok Hmm Hfi Hla)
    as (sbi' & F' & E & Hok' & Hold & Hnew & Hall & Hcnt & Hsame & _ & _).
  exists sbi', F'. split_and!; done.
Qed.
End delete.

(** ** Examples *)

Lemma with_nvm_geometry m sbi : same_geometry sbi (with_nvm m sbi).
Proof. by split. Qed.

Module TruncateDemo.
Import RbList.RbList InodeTable.TableDemo FastGc.GcDemo.

(** A write entry of inode 40 for pages 0 to 2 in blocks 6 to 8; page 1 was overwritten. *)
Definition cut_entry : Z := 65536 + 4096 * 5 + 80.
Definition cut_sbi : nova_sb_info :=
  with_nvm (copy_write_entry (nvm gc_sbi) cut_entry (WriteEntry (4096 * 6 + FILE_WRITE) 0 3 1 0 0 12288)) gc_sbi.
Definition cut_tree : gmap Z Z := <[0 := cut_entry]> (<[2 := cut_entry]> ∅).
Definition cut_sih : nova_inode_info_header := with_tree cut_tree gc_sih.

Lemma cut_tree_lookup p a : cut_tree !! p = Some a -> a = cut_entry /\ (p = 0 \/ p = 2).
Proof.
  unfold cut_tree. intros [[<- <-]|[_ Hp]]%lookup_insert_Some; [auto|].
  apply lookup_insert_Some in Hp as [[<- <-]|[_ Hp]]; [auto|]. by rewrite lookup_empty in Hp.
Qed.

Lemma cut_fields : We.pgoff (nvm cut_sbi) cut_entry = 0 /\ We.num_pages (nvm cut_sbi) cut_entry = 3 /\
  We.invalid_pages (nvm cut_sbi) cut_entry = 1 /\ Z.shiftr (We.block (nvm cut_sbi) cut_entry) PAGE_SHIFT = 6 /\
  Pi.i_blk_type (nvm cut_sbi) gc_pi = 0 /\ slots cut_tree cut_entry = 2%nat.
Proof. vm_compute. done. Qed.

Lemma cut_file : exists F P, header_of gc_pi cut_sbi P cut_sih /\ file_ok gc_pi cut_sbi F cut_tree.
Proof.
  destruct gc_demo as (F & P & Hh & Hc & _). destruct gc_fields as (Ei & _). exists F, P.
  destruct cut_fields as (F1 & F2 & F3 & F4 & F5 & F6). pose proof (lb_size _ _ (cl_free _ _ _ _ _ _ Hc)) as Hsz.
  assert (virt_addr gc_sbi = 65536) as Ev by (vm_compute; reflexivity).
  assert (num_blocks gc_sbi = 20) as En by (vm_compute; reflexivity).
  assert (forall x, x < 65536 + 4096 * 5 -> nvm cut_sbi x = nvm gc_sbi x) as Hlow.
  { intros x Hx. unfold cut_sbi, copy_write_entry, cut_entry. cbn [nvm with_nvm]. cbv zeta.
    rewrite !store_disjoint by (simpl; lia). reflexivity. }
  assert (homed cut_sbi P gc_pi) as [T1 T2 T3 T4].
  { apply (homed_frame gc_sbi); [exact Hh|exact (cl_mapped _ _ _ _ _ _ Hc)|rewrite En; lia|exact (with_nvm_geometry _ gc_sbi)| |].
    - intros x Hx. apply Hlow. unfold block_addr in Hx. rewrite Ev in Hx. lia.
    - apply load_ext. intros x Hx. apply Hlow. unfold gc_pi in Hx. simpl in Hx. lia. }
  assert (Pi.nova_ino (nvm cut_sbi) gc_pi = 40) as Ei'.
  { rewrite <- Ei. apply load_ext. intros x Hx. apply Hlow. unfold gc_pi in Hx. simpl in Hx. lia. }
  rewrite Ei' in T4. destruct T4 as (_ & s & Hs1 & Hs2).
  assert (forall p, entry_block (nvm cut_sbi) cut_entry p = 6 + p) as Hbk
    by (intros p; unfold entry_block; rewrite F4, F1; lia).
  split; split.
  - exact T1.
  - exact T2.
  - exact Hsz.
  - vm_compute. discriminate.
  - exists s. split; [exact Hs1|exact Hs2].
  - apply lb_free_nvm. exact (cl_free _ _ _ _ _ _ Hc).
  - exact F5.
  - intros p a [-> Hp]%cut_tree_lookup. rewrite F1, F2. lia.
  - intros p a [-> Hp]%cut_tree_lookup. rewrite Hbk. change (num_blocks cut_sbi) with (num_blocks gc_sbi).
    apply (cl_blocks _ _ _ _ _ _ Hc). destruct Hp as [-> | ->]; [right; left|right; right; right; left].
  - intros p q a b [-> Hp]%cut_tree_lookup [-> Hq]%cut_tree_lookup. rewrite !Hbk. lia.
  - intros p q a b [-> Hp]%cut_tree_lookup [-> Hq]%cut_tree_lookup. rewrite !Hbk. lia.
  - intros p a [-> Hp]%cut_tree_lookup. rewrite F6, F3, F2. lia.
  - intros p q a b [-> Hp]%cut_tree_lookup [-> Hq]%cut_tree_lookup Hne. by destruct Hne.
  - intros p a [-> Hp]%cut_tree_lookup. unfold gc_pi, cut_entry. lia.
Qed.

Lemma delete_file_tree_ok_witness : exists mon sbi' F',
  nova_delete_file_tree garbage 0 1 5 true false (World cut_sbi mon cut_sih) =
    Some (1, World sbi' mon (with_tree (cut 1 5 cut_tree) cut_sih)) /\ lb_free sbi' F' /\ F' 8 /\ ~ F' 6 /\
  We.invalid_pages (nvm sbi') cut_entry = 2.
Proof.
  destruct cut_file as (F & P & Hh & Hf). destruct cut_fields as (F1 & F2 & F3 & F4 & _ & F6).
  destruct (delete_file_tree_ok garbage 0 gc_pi cut_sbi initial_monitor cut_sih P F 1 5 Hh Hf) as
    (sbi' & F' & E & Hok & _ & Hnew & Hall & Hcnt & _); [reflexivity|lia|lia|].
  assert (forall p, entry_block (nvm cut_sbi) cut_entry p = 6 + p) as Hbk
    by (intros p; unfold entry_block; rewrite F4, F1; lia).
  exists initial_monitor, sbi', F'. split; [exact E|]. split; [exact (fk_free _ _ _ _ Hok)|]. split; [|split].
  - apply (Hall table_slab). exists 2, cut_entry. split; [lia|]. split; [reflexivity|]. rewrite Hbk. reflexivity.
  - intros [Hx|(p & a & Hp & Ha & Hx)]%Hnew.
    + refine (proj2 (fk_block _ _ _ _ Hf 0 cut_entry _) _); [reflexivity|]. rewrite Hbk. exact Hx.
    + apply cut_tree_lookup in Ha as [-> _]. rewrite Hbk in Hx. lia.
  - pose proof (Hcnt 0 cut_entry eq_refl) as Hc. change (tree cut_sih) with cut_tree in Hc. rewrite F3, F6 in Hc.
    assert (slots (cut 1 5 cut_tree) cut_entry = 1%nat) as E1 by (vm_compute; reflexivity). rewrite E1 in Hc. lia.
Defined.
End TruncateDemo.
