(* ===== verification/Rebuild.v ===== *)
(** * Rebuilding the tree of a file (inode.c)

    When an inode is read after a mount, [nova_rebuild_file_inode_tree] walks its log and
    enters the pages of its write entries into the tree.  The theorem relates the tree to the
    replay of the log that the crash recovery uses to mark the blocks in use. *)

From S2P Require Import Prelude Layout RangeTree RbList State Balloc BallocFacts BallocSpec.
From S2P Require Import BallocInit BallocTheorems TreeEdits InodeMap LogBlocks InodeTable.
From S2P Require Import Monitor Histogram HashTable Records KnapSack Detect WriteCount Migrate.
From S2P Require Import LogPages World InodeLog FastGc LogAppend BlockMap Shutdown Crawl FileTree Truncate.
#[local] Open Scope word_scope.

(** The entries of the log of a regular file. *)
Definition item_known (it : log_item) : Prop :=
  match it with
  | Write type _ _ _ _ _ => type = FILE_WRITE
  | Attr mode _ => S_ISREG mode = true
  | Link => True
  end.

(** Does the entry set the size? *)
Definition item_sized (it : log_item) : bool := match it with Link => false | _ => true end.

Lemma replay_fst data_bits p items : replay data_bits p items = (final_size items, snd (replay data_bits p items)).
Proof.
  unfold replay, final_size. assert (forall its s b, fold_left (replay_item data_bits p) its (s, b) =
    (fold_left item_size its s, snd (fold_left (replay_item data_bits p) its (s, b)))) as Hg; [|by apply Hg].
  induction its as [|it its IH]; intros sz b; [done|]. cbn [fold_left]. by rewrite replay_item_eq, IH.
Qed.

Lemma replay_snoc data_bits p items it :
  snd (replay data_bits p (items ++ [it])) =
  snd (replay_item data_bits p (final_size items, snd (replay data_bits p items)) it).
Proof. unfold replay at 1. by rewrite fold_left_app, <- replay_fst. Qed.

Lemma final_size_snoc items it : final_size (items ++ [it]) = item_size (final_size items) it.
Proof. unfold final_size. by rewrite fold_left_app. Qed.

(** ** Entering the pages of an entry *)

Section assign.
Context `{RbTree} (slab_garbage : nova_range_node) (smp : Z) (jiffies_to_msecs : Z -> Z) (e : env).
Context (garbage : Z) (radix_nomem : Z -> bool).
Hypothesis radix_serves : forall i, radix_nomem i = false.

Lemma get_nvmm_total sbi mon sih p a :
  We.pgoff (nvm sbi) a <= p < We.pgoff (nvm sbi) a + We.num_pages (nvm sbi) a ->
  0 <= We.pgoff (nvm sbi) a -> We.pgoff (nvm sbi) a + We.num_pages (nvm sbi) a < 2 ^ 63 ->
  exists v, get_nvmm smp a p (World sbi mon sih) = Some (v, World sbi mon sih).
Proof.
  intros H1 H0 H2. unfold get_nvmm. frun. rewrite (u64_small (We.pgoff _ _ + _)) by lia.
  rewrite (proj2 (Z.ltb_ge p _)), (proj2 (Z.leb_gt _ p)) by lia. cbn [orb]. frun. by eexists.
Qed.

Lemma assign_keep pi entry n : forall sbi mon sih pgoff ret,
  covering (nvm sbi) (tree sih) -> 0 <= pgoff -> pgoff + Z.of_nat n < 2 ^ 63 ->
  We.pgoff (nvm sbi) entry <= pgoff -> pgoff + Z.of_nat n <= We.pgoff (nvm sbi) entry + We.num_pages (nvm sbi) entry ->
  0 <= We.pgoff (nvm sbi) entry -> We.pgoff (nvm sbi) entry + We.num_pages (nvm sbi) entry < 2 ^ 63 ->
  exists ret' t', assign_loop slab_garbage smp jiffies_to_msecs e garbage radix_nomem n pi entry pgoff ret false
      (World sbi mon sih) = Some (ret', World sbi mon (with_tree t' sih)) /\ covering (nvm sbi) t' /\
    forall p, t' !! p = if (pgoff <=? p) && (p <? pgoff + Z.of_nat n) then Some entry else tree sih !! p.
Proof.
  induction n as [|n IH]; intros sbi mon sih pgoff ret Hc H0 H1 H2 H3 H4 H5; cbn [assign_loop].
  { exists ret, (tree sih). rewrite with_tree_same. split; [done|]. split; [done|]. intros p.
    destruct (Z.leb_spec pgoff p), (Z.ltb_spec p (pgoff + Z.of_nat 0)); cbn [andb]; (done || lia). }
  assert (covering (nvm sbi) (<[pgoff := entry]> (tree sih))) as Hc1.
  { intros p a [[<- <-]|[_ Hp]]%lookup_insert_Some; [lia|by apply Hc]. }
  assert (forall ret, exists ret' t',
    assign_loop slab_garbage smp jiffies_to_msecs e garbage radix_nomem n pi entry (u64 (pgoff + 1)) ret false
      (World sbi mon (with_tree (<[pgoff := entry]> (tree sih)) sih)) =
      Some (ret', World sbi mon (with_tree t' sih)) /\ covering (nvm sbi) t' /\
    forall p, t' !! p = if (pgoff <=? p) && (p <? pgoff + Z.of_nat (S n)) then Some entry else tree sih !! p) as Hnext.
  { intros r. rewrite u64_small by lia.
    destruct (IH sbi mon (with_tree (<[pgoff := entry]> (tree sih)) sih) (pgoff + 1) r) as (ret' & t' & E & Hct & Ht);
      [done|lia..|]. exists ret', t'. split; [exact E|]. split; [done|]. intros p. rewrite Ht. cbn [tree with_tree].
    destruct (decide (p = pgoff)) as [->|Hne].
    - rewrite lookup_insert_eq. destruct (Z.leb_spec (pgoff + 1) pgoff), (Z.leb_spec pgoff pgoff),
        (Z.ltb_spec pgoff (pgoff + Z.of_nat (S n))); cbn [andb]; (done || lia).
    - rewrite lookup_insert_ne by done. destruct (Z.leb_spec (pgoff + 1) p), (Z.leb_spec pgoff p),
        (Z.ltb_spec p (pgoff + 1 + Z.of_nat n)), (Z.ltb_spec p (pgoff + Z.of_nat (S n))); cbn [andb]; (done || lia). }
  frun. destruct (tree sih !! pgoff) as [a|] eqn:Et.
  - destruct (Hc pgoff a Et) as (C1 & C2 & C3).
    destruct (get_nvmm_total sbi mon sih pgoff a) as [v Ev]; [lia..|]. fstep Ev. frun. apply Hnext.
  - rewrite radix_serves. frun. apply Hnext.
Qed.
End assign.

Section rebuild.
Context `{RbTree} (slab_garbage : nova_range_node) (smp : Z) (jiffies_to_msecs : Z -> Z) (e : env).
Context (garbage : Z) (radix_nomem : Z -> bool).
Hypothesis pid_nonneg : 0 <= current_pid e.
Hypothesis radix_serves : forall i, radix_nomem i = false.

(** The file system and the inode at [pi] before the walk; [P] are the pages of the inode
    tables and [bs] those of the log. *)
Context (sbi : nova_sb_info) (P : Z -> list Z) (pi data_bits : Z) (bs : list Z).
#[local] Notation va := (virt_addr sbi).
#[local] Notation m0 := (nvm sbi).

Record rebuild_env : Prop := {
  re_homed : homed sbi P pi;
  re_mapped : mapped sbi /\ va mod 4096 = 0 /\ num_blocks sbi < 2147483648;
  re_ino : NOVA_NORMAL_INODE_START <= Pi.nova_ino m0 pi;
  re_pi : block_addr sbi 1 <= pi;
  re_bits : blk_type_to_shift (Pi.i_blk_type m0 pi) = Some data_bits;
  re_size : Pi.i_size m0 pi < 2 ^ 63;
  re_blocks b : b ∈ bs -> 0 < b < num_blocks sbi;
  re_apart b : b ∈ bs -> pi + 128 <= block_addr sbi b \/ block_addr sbi (b + 1) <= pi;
}.

(** Only fields of the inode between its number and its type change. *)
Definition same_log (m : memory) : Prop := forall x, ~ pi + 4 <= x < pi + 64 -> m x = m0 x.

(** [q] is a position in a page of the log. *)
Definition in_log (q : Z) : Prop := q / 4096 ∈ bs.

(** An entry in a page of the log. *)
Definition log_entry (a : Z) : Prop := exists b, b ∈ bs /\ va + 4096 * b <= a /\ a + 40 <= va + 4096 * b + 4096.

Section memory.
Hypothesis renv : rebuild_env.

Lemma same_log_load n m a b :
  same_log m -> b ∈ bs -> va + 4096 * b <= a -> a + Z.of_nat n <= va + 4096 * b + 4096 -> load n m a = load n m0 a.
Proof.
  intros Hm Hb H1 H2. apply load_ext. intros x Hx. apply Hm.
  destruct (re_apart renv b Hb) as [?|?]; unfold block_addr in *; lia.
Qed.

Lemma same_log_entry m a : same_log m -> log_entry a ->
  We.block m a = We.block m0 a /\ We.pgoff m a = We.pgoff m0 a /\ We.num_pages m a = We.num_pages m0 a /\
  We.invalid_pages m a = We.invalid_pages m0 a /\ We.mtime m a = We.mtime m0 a /\ We.size m a = We.size m0 a /\
  nova_get_entry_type m a = nova_get_entry_type m0 a /\ Sa.size m a = Sa.size m0 a /\ Sa.mode m a = Sa.mode m0 a.
Proof.
  intros Hm (b & Hb & H1 & H2).
  split_and!; apply (same_log_load _ m _ b); auto; simpl; lia.
Qed.

Lemma position q : in_log q -> nova_get_block va q = va + q /\ q <> 0.
Proof.
  intros Hq. pose proof (re_blocks renv _ Hq) as Hb. destruct (re_mapped renv) as ([Hv Hm] & _ & _).
  assert (4096 <= q) by mlia. assert (q < 4096 * num_blocks sbi) by mlia.
  split; [|lia]. unfold nova_get_block. rewrite (proj2 (Z.eqb_neq q 0)), u64_small by lia. done.
Qed.

Lemma same_log_next m q : same_log m -> in_log q ->
  goto_next_page (with_nvm m sbi) q = goto_next_page sbi q /\ next_log_page (with_nvm m sbi) q = next_log_page sbi q.
Proof.
  intros Hm Hq. destruct (position q Hq) as [Ep Hne]. destruct (re_mapped renv) as ([Hv _] & Hal & _).
  unfold goto_next_page, next_log_page, nova_get_entry_type, page_next. cbn [virt_addr with_nvm nvm].
  rewrite Ep, ENTRY_LOC_alt, BLOCK_OFF_alt. split.
  - destruct (Z.ltb_spec LAST_ENTRY (q mod 4096 + 32)) as [?|Hle]; [done|]. f_equal. unfold LAST_ENTRY in Hle.
    apply (same_log_load 1 m _ (q / 4096)); auto; simpl; mlia.
  - apply (same_log_load 8 m _ (q / 4096)); auto; unfold LAST_ENTRY; simpl; mlia.
Qed.

Lemma item_entry q : in_log q -> q mod 4096 + 32 <= LAST_ENTRY -> log_entry (va + q).
Proof. intros Hq Hm. exists (q / 4096). unfold LAST_ENTRY in Hm. split; [done|]. mlia. Qed.

Lemma same_log_homed m : same_log m -> homed (with_nvm m sbi) P pi.
Proof.
  intros Hm. destruct (re_mapped renv) as (Hmap & _ & Hsz). pose proof (re_pi renv) as Hpi.
  apply (homed_frame sbi); auto using re_homed.
  - destruct (re_homed renv) as [T1 _ _ (Hi & a & Ha & _)]. destruct (to_cpus _ _ T1) as (Hc & _).
    destruct (inode_slot_inv (cpus sbi) P (Pi.nova_ino m0 pi) a) as (p & Ep & _); [lia| |exact Ha|].
    { pose proof (load_range 8 m0 (pi + 64)). unfold Pi.nova_ino. lia. }
    pose proof (to_pages _ _ T1 _ p (Z.mod_pos_bound (Pi.nova_ino m0 pi) _ (proj1 Hc)) (list_elem_of_lookup_2 _ _ _ Ep)). lia.
  - apply with_nvm_geometry.
  - intros x Hx. apply Hm. unfold block_addr in *. cbn [nvm with_nvm]. lia.
  - apply load_ext. intros x Hx. apply Hm. simpl in Hx. lia.
Qed.

Lemma same_log_fields m : same_log m ->
  Pi.nova_ino m pi = Pi.nova_ino m0 pi /\ Pi.log_tail m pi = Pi.log_tail m0 pi /\
  Pi.log_head m pi = Pi.log_head m0 pi /\ Pi.i_blk_type m pi = Pi.i_blk_type m0 pi.
Proof. intros Hm. split_and!; apply load_ext; intros x Hx; apply Hm; simpl in Hx; lia. Qed.

(** Looking the inode up gives [pi]. *)
Lemma reget_rebuild m mon sih : same_log m ->
  reget_inode smp pi (World (with_nvm m sbi) mon sih) = Some (pi, World (with_nvm m sbi) mon sih).
Proof. intros Hm. apply (reget_inode_ok smp P); [by apply same_log_homed|]. by destruct (re_mapped renv) as (_ & _ & ?). Qed.

Lemma lookup_rebuild m mon sih addr : same_log m ->
  lookup_inode smp (Pi.nova_ino m0 pi) addr (World (with_nvm m sbi) mon sih) =
  Some (pi, World (with_nvm m sbi) mon sih).
Proof.
  intros Hm. pose proof (same_log_homed m Hm) as [T1 T2 _ T4]. destruct (same_log_fields m Hm) as (Ei & _).
  cbn [nvm with_nvm] in T4. rewrite Ei in T4. destruct T4 as (_ & s & Hs & Es). cbn [cpus virt_addr with_nvm] in *.
  pose proof (re_ino renv) as Hi. unfold lookup_inode. erewrite fs_step; [|apply on_sbi_run].
  2:{ unfold nova_get_inode_by_ino_or_pi_addr. cbn [w_sbi]. rewrite (proj2 (Z.ltb_ge _ _)) by lia.
      apply (wwb_get_present smp _ P _ s); auto; [by destruct (re_mapped renv) as (_ & _ & ?)|].
      unfold NOVA_NORMAL_INODE_START in Hi. lia. }
  cbn [w_mon w_sih virt_addr with_nvm]. by rewrite Es.
Qed.

(** ** The state of the walk *)

(** The entries [seen] of the log are replayed. *)
Record replayed (seen : list log_item) (m : memory) (sih : nova_inode_info_header) : Prop := {
  rp_same : same_log m;
  rp_header : sih_ino sih = Pi.nova_ino m0 pi /\ mmap_pages sih = 0;
  rp_entries p a : tree sih !! p = Some a -> log_entry a;
  rp_cover : covering m0 (tree sih);
  rp_block p : 0 <= p -> tree_block m0 (tree sih) p = snd (replay data_bits p seen);
  rp_range : 0 <= Pi.i_size m pi < 2 ^ 63 /\ 0 <= final_size seen < 2 ^ 63;
  rp_size : if existsb item_sized seen then Pi.i_size m pi = final_size seen
            else tree sih = ∅ /\ final_size seen = 0;
}.

Lemma covering_same m t : same_log m -> (forall p a, t !! p = Some a -> log_entry a) -> covering m0 t <-> covering m t.
Proof.
  intros Hm He. split; intros Hc p a Hp; destruct (same_log_entry m a Hm (He p a Hp)) as (_ & E1 & E2 & _);
    specialize (Hc p a Hp); rewrite E1, E2 in *; done.
Qed.

(** Storing a field of the inode. *)
Lemma same_log_store m n o v : same_log m -> 4 <= o -> o + Z.of_nat n <= 64 -> same_log (store n m (pi + o) v).
Proof. intros Hm H1 H2 x Hx. rewrite store_disjoint by lia. by apply Hm. Qed.

Lemma time_and_size_ok m mon sih ws a :
  same_log m -> log_entry a -> monitor_ok ws mon -> Z.of_nat (length ws) < 2147483647 ->
  exists m' mon' ws', nova_rebuild_file_time_and_size smp jiffies_to_msecs e pi a (World (with_nvm m sbi) mon sih) =
      Some (tt, World (with_nvm m' sbi) mon' sih) /\
    same_log m' /\ Pi.i_size m' pi = We.size m0 a /\ monitor_ok ws' mon' /\ (length ws' <= S (length ws))%nat.
Proof.
  intros Hm Ha Hmon Hws. unfold nova_rebuild_file_time_and_size. fstep (reget_rebuild m mon sih Hm). frun.
  cbn [nvm with_nvm]. set (m1 := Pi.set_i_ctime _ _ _). set (m2 := Pi.set_i_mtime _ _ _). set (m3 := Pi.set_i_size _ _ _).
  assert (same_log m1) as H1 by (by apply same_log_store).
  assert (same_log m2) as H2 by (by apply same_log_store).
  assert (same_log m3) as H3 by (by apply same_log_store).
  destruct (count_inode_ok jiffies_to_msecs e pid_nonneg ws (with_nvm m3 sbi) mon sih pi Hmon Hws)
    as (ws' & mon' & E & Hok & Hl).
  exists m3, mon', ws'. split; [exact E|]. split; [done|]. split; [|done].
  unfold m3, Pi.i_size, Pi.set_i_size. rewrite load_store_eq. destruct (same_log_entry m2 a H2 Ha) as (_ & _ & _ & _ & _ & -> & _).
  apply Z.mod_small, load_range.
Qed.

(** The entry at [q] is applied. *)
Definition stepped (seen : list log_item) (m : memory) (sih : nova_inode_info_header) (mon : monitor)
    (ws : list Z) (q : Z) : Prop :=
  exists m' sih' mon' ws', rebuild_entry slab_garbage smp jiffies_to_msecs e garbage radix_nomem pi q
      (World (with_nvm m sbi) mon sih) =
      Some (item_len (item_at m0 (va + q)), World (with_nvm m' sbi) mon' sih') /\
    replayed (seen ++ [item_at m0 (va + q)]) m' sih' /\ log_pages sih' = log_pages sih /\
    monitor_ok ws' mon' /\ (length ws' <= S (length ws))%nat.

(** A write entry. *)
Lemma rebuild_write seen m sih mon ws q :
  replayed seen m sih -> in_log q -> q mod 4096 + 32 <= LAST_ENTRY ->
  item_wf (item_at m0 (va + q)) -> nova_get_entry_type m0 (va + q) = FILE_WRITE ->
  monitor_ok ws mon -> Z.of_nat (length ws) < 2147483640 -> stepped seen m sih mon ws q.
Proof.
  unfold stepped.
  intros [R1 [R2 R3] R4 R5 R6 R7 R8] Hq Hqm Hwf Hty Hmon Hws.
  destruct (position q Hq) as [Ep Hne]. pose proof (item_entry q Hq Hqm) as Hen.
  destruct (same_log_entry m _ R1 Hen) as (B1 & B2 & B3 & B4 & B5 & B6 & B7 & _).
  unfold rebuild_entry, get_block. erewrite fs_step by (cbn [w_sbi virt_addr with_nvm];
    rewrite (proj2 (Z.eqb_neq q 0) Hne), Ep; reflexivity).
  frun. cbn [nvm with_nvm]. rewrite B7, Hty. change (FILE_WRITE =? SET_ATTR) with false.
  change (FILE_WRITE =? LINK_CHANGE) with false. change (FILE_WRITE =? FILE_WRITE) with true. cbv iota.
  set (a := va + q) in *. set (live := negb (We.num_pages m0 a =? We.invalid_pages m0 a)).
  assert (item_at m0 a = Write FILE_WRITE (We.pgoff m0 a) (We.num_pages m0 a) (Z.shiftr (We.block m0 a) PAGE_SHIFT)
    live (We.size m0 a)) as Ei by (unfold item_at; by rewrite Hty).
  rewrite Ei in *. destruct Hwf as (W1 & W2 & W3 & W4 & W5 & W6).
  (* the pages *)
  assert (exists t', (if negb (We.num_pages m a =? We.invalid_pages m a)
      then nova_assign_write_entry slab_garbage smp jiffies_to_msecs e garbage radix_nomem pi a false ≫= (fun _ => mret tt)
      else mret tt) (World (with_nvm m sbi) mon sih) = Some (tt, World (with_nvm m sbi) mon (with_tree t' sih)) /\
    covering m0 t' /\ (forall p c, t' !! p = Some c -> log_entry c) /\
    forall p, t' !! p = if live && (We.pgoff m0 a <=? p) && (p <? We.pgoff m0 a + We.num_pages m0 a)
                        then Some a else tree sih !! p) as (t' & Et & Hct & Hle & Ht).
  { rewrite B3, B4. fold live. destruct live; cbn [andb].
    2:{ exists (tree sih). rewrite with_tree_same. by split_and!. }
    destruct (assign_keep slab_garbage smp jiffies_to_msecs e garbage radix_nomem radix_serves pi a
      (Z.to_nat (We.num_pages m0 a)) (with_nvm m sbi) mon sih (We.pgoff m0 a) garbage) as (ret & t' & E & Hc & Ht);
      cbn [nvm with_nvm]; rewrite ?B2, ?B3; try lia; [by apply covering_same|].
    exists t'. rewrite Z2Nat.id in Ht by lia. split; [|split; [|split; [|exact Ht]]].
    - destruct (same_log_fields m R1) as (En & _).
      assert (forall k : Z -> fs unit, (nova_assign_write_entry slab_garbage smp jiffies_to_msecs e garbage radix_nomem pi a false ≫= k)
        (World (with_nvm m sbi) mon sih) = k ret (World (with_nvm m sbi) mon (with_tree t' sih))) as Ek; [|by rewrite Ek].
      intros k. apply fs_step. unfold nova_assign_write_entry. frun. cbn [nvm with_nvm]. rewrite En.
      fstep (lookup_rebuild m mon sih (sih_pi_addr sih) R1). rewrite B2, B3. exact E.
    - apply (covering_same m); auto. intros p c Hp. rewrite Ht in Hp. destruct (_ && _); [by injection Hp as <-|eauto].
    - intros p c Hp. rewrite Ht in Hp. destruct (_ && _); [by injection Hp as <-|eauto]. }
  fstep Et.
  destruct (time_and_size_ok m mon (with_tree t' sih) ws a R1 Hen Hmon ltac:(lia)) as (m' & mon' & ws' & E2 & Hm' & Hsz & Hmon' & Hl').
  fstep E2. frun. cbn [nvm with_nvm]. rewrite Hsz.
  exists m', (with_sih_size (We.size m0 a) (with_tree t' sih)), mon', ws'.
  split; [done|]. split; [|done]. split; cbn [sih_ino mmap_pages tree with_sih_size with_tree]; auto.
  - intros p Hp. rewrite replay_snoc, <- R6 by done. unfold tree_block at 1. rewrite Ht. cbn [replay_item snd].
    unfold tree_block. destruct live; cbn [andb]; [|done].
    destruct (Z.leb_spec (We.pgoff m0 a) p), (Z.ltb_spec p (We.pgoff m0 a + We.num_pages m0 a)); cbn [andb]; try done.
  - rewrite final_size_snoc, Hsz. by cbn [item_size].
  - rewrite existsb_app, final_size_snoc, Hsz. cbn [existsb item_sized]. by rewrite orb_true_r.
Qed.

(** A truncation, in the tree. *)
Lemma truncate_tree m mon sih size data_bits' :
  same_log m -> sih_ino sih = Pi.nova_ino m0 pi -> mmap_pages sih = 0 -> covering m (tree sih) ->
  0 <= size < 2 ^ 63 -> 0 <= Pi.i_size m pi < 2 ^ 63 -> 12 <= data_bits' <= 30 ->
  exists t', (if size <? Pi.i_size m pi then
      let '(first_blocknr, last_blocknr) := truncated_pages (Pi.i_size m pi) size data_bits' in
      if last_blocknr <? first_blocknr then mret tt
      else nova_delete_file_tree slab_garbage smp first_blocknr last_blocknr false false ≫= (fun _ => mret tt)
    else mret tt) (World (with_nvm m sbi) mon sih) = Some (tt, World (with_nvm m sbi) mon (with_tree t' sih)) /\
    forall p, t' !! p = if (size <=? p * 2 ^ data_bits') && (p * 2 ^ data_bits' <? Pi.i_size m pi)
                        then None else tree sih !! p.
Proof.
  intros Hm Hi Hmm Hc Hs Hp Hd. destruct (Z.ltb_spec size (Pi.i_size m pi)) as [Hlt|Hge].
  2:{ exists (tree sih). rewrite with_tree_same. split; [done|]. intros p.
      destruct (Z.leb_spec size (p * 2 ^ data_bits')), (Z.ltb_spec (p * 2 ^ data_bits') (Pi.i_size m pi)); cbn [andb]; (done || lia). }
  destruct (truncated_pages_ok (Pi.i_size m pi) size data_bits' Hs Hp Hlt ltac:(lia)) as (first & last & -> & Hf & Hl & Hpp).
  assert (last < 2 ^ 62) as Hl2.
  { assert (4096 <= 2 ^ data_bits') by (change 4096 with (2 ^ 12); apply Z.pow_le_mono_r; lia). nia. }
  exists (cut first last (tree sih)). split.
  2:{ intros p. rewrite cut_lookup. specialize (Hpp p).
      destruct (Z.leb_spec first p), (Z.leb_spec p last), (Z.leb_spec size (p * 2 ^ data_bits')),
        (Z.ltb_spec (p * 2 ^ data_bits') (Pi.i_size m pi)); cbn [andb]; (done || lia). }
  destruct (Z.ltb_spec last first) as [Hlf|Hlf]; [by rewrite cut_empty, with_tree_same by lia|].
  assert (nova_delete_file_tree slab_garbage smp first last false false (World (with_nvm m sbi) mon sih) =
    Some (0, World (with_nvm m sbi) mon (with_tree (cut first last (tree sih)) sih))) as Ed; [|by fstep Ed].
  unfold nova_delete_file_tree. frun. rewrite Hi. fstep (lookup_rebuild m mon sih (sih_pi_addr sih) Hm).
  rewrite Hmm. cbn [negb andb Z.eqb]. frun. rewrite Hmm. cbn [negb andb Z.eqb]. frun.
  fstep (delete_tree_keep slab_garbage smp (Z.to_nat (last + 1 - first)) (with_nvm m sbi) mon sih pi first last
    Hc ltac:(lia) Hl2 ltac:(lia)). done.
Qed.
(** The fields a truncation copies before the size. *)
Definition attr_fields (m : memory) (a : Z) : memory :=
  let m := Pi.set_i_mode m pi (Sa.mode m a) in
  let m := Pi.set_i_uid m pi (Sa.uid m a) in
  let m := Pi.set_i_gid m pi (Sa.gid m a) in
  let m := Pi.set_i_atime m pi (Sa.atime m a) in
  let m := Pi.set_i_ctime m pi (Sa.ctime m a) in
  Pi.set_i_mtime m pi (Sa.mtime m a).

Lemma attr_fields_ok m a : same_log m -> log_entry a ->
  same_log (attr_fields m a) /\ Pi.i_size (attr_fields m a) pi = Pi.i_size m pi /\
  Pi.i_mode (attr_fields m a) pi = Sa.mode m0 a.
Proof.
  intros Hm Ha. unfold attr_fields. split; [by repeat (apply same_log_store; [|lia|simpl; lia])|].
  unfold Pi.i_size, Pi.i_mode, Pi.set_i_mtime, Pi.set_i_ctime, Pi.set_i_atime, Pi.set_i_gid, Pi.set_i_uid, Pi.set_i_mode.
  rewrite !load_store_ne by (simpl; lia). split; [done|]. rewrite load_store_eq.
  destruct (same_log_entry m a Hm Ha) as (_ & _ & _ & _ & _ & _ & _ & _ & ->). apply Z.mod_small, load_range.
Qed.

(** A change of the attributes. *)
Lemma rebuild_attr seen m sih mon ws q :
  replayed seen m sih -> in_log q -> q mod 4096 + 32 <= LAST_ENTRY ->
  item_wf (item_at m0 (va + q)) -> item_known (item_at m0 (va + q)) ->
  nova_get_entry_type m0 (va + q) = SET_ATTR -> 12 <= data_bits <= 30 ->
  monitor_ok ws mon -> Z.of_nat (length ws) < 2147483640 -> stepped seen m sih mon ws q.
Proof.
  unfold stepped.
  intros [R1 [R2 R3] R4 R5 R6 [R7 R7'] R8] Hq Hqm Hwf Hk Hty Hd Hmon Hws.
  destruct (position q Hq) as [Ep Hne]. pose proof (item_entry q Hq Hqm) as Hen.
  destruct (same_log_entry m _ R1 Hen) as (_ & _ & _ & _ & _ & _ & B7 & _).
  unfold rebuild_entry, get_block. erewrite fs_step by (cbn [w_sbi virt_addr with_nvm];
    rewrite (proj2 (Z.eqb_neq q 0) Hne), Ep; reflexivity).
  frun. cbn [nvm with_nvm]. rewrite B7, Hty. change (SET_ATTR =? SET_ATTR) with true. cbv iota.
  set (a := va + q) in *.
  assert (item_at m0 a = Attr (Sa.mode m0 a) (Sa.size m0 a)) as Ei by (unfold item_at; by rewrite Hty).
  rewrite Ei in *. cbn [item_wf item_known] in Hwf, Hk.
  destruct (attr_fields_ok m a R1 Hen) as (M1 & Esz & Emd). set (m1 := attr_fields m a) in *.
  destruct (same_log_entry m1 a M1 Hen) as (_ & _ & _ & _ & _ & _ & _ & Es1 & _).
  assert (covering m1 (tree sih)) as Hc1 by (by apply covering_same).
  destruct (truncate_tree m1 mon sih (Sa.size m0 a) data_bits M1 R2 R3 Hc1 Hwf ltac:(by rewrite Esz) Hd) as (t' & Et & Ht).
  pose proof (hm_lock _ _ _ (same_log_homed m1 M1)) as Hlock.
  set (m2 := Pi.set_i_size m1 pi (Sa.size m1 a)).
  assert (same_log m2) as M2 by (by apply same_log_store; [|lia|simpl; lia]).
  assert (Pi.i_size m2 pi = Sa.size m0 a) as Esz2.
  { unfold m2, Pi.i_size, Pi.set_i_size. rewrite load_store_eq, Es1. apply Z.mod_small, load_range. }
  destruct (count_inode_ok jiffies_to_msecs e pid_nonneg ws (with_nvm m2 sbi) mon
    (with_sih_size (Sa.size m0 a) (with_tree t' sih)) pi Hmon ltac:(lia)) as (ws' & mon' & Ec & Hok & Hl).
  exists m2, (with_last_setattr q (with_sih_size (Sa.size m0 a) (with_tree t' sih))), mon', ws'.
  split.
  { assert (nova_apply_setattr_entry slab_garbage smp jiffies_to_msecs e pi a (World (with_nvm m sbi) mon sih) =
      Some (tt, World (with_nvm m2 sbi) mon' (with_sih_size (Sa.size m0 a) (with_tree t' sih)))) as Ea; [|by fstep Ea].
    unfold nova_apply_setattr_entry. frun. cbn [nvm with_nvm].
    destruct (same_log_fields m R1) as (_ & _ & _ & ->). rewrite (re_bits renv). erewrite fs_step by reflexivity.
    rewrite B7, Hty. change (negb (SET_ATTR =? SET_ATTR)) with false. cbv iota.
    fstep (reget_rebuild m mon sih R1). rewrite (fs_step _ _ _ tt (World (with_nvm m1 sbi) mon sih)) by reflexivity.
    frun. cbn [nvm with_nvm]. rewrite Es1, Emd, Hk, andb_true_r. fstep Et. frun. cbn [nvm with_nvm].
    erewrite fs_step by (unfold lock_inode_page; frun; cbn [nvm with_nvm] in Hlock; rewrite Hlock; reflexivity).
    rewrite (fs_step _ _ _ tt (World (with_nvm m2 sbi) mon (with_tree t' sih))) by reflexivity.
    frun. cbn [nvm with_nvm]. rewrite Esz2. exact Ec. }
  split; [|done]. split; cbn [sih_ino mmap_pages tree with_sih_size with_tree with_last_setattr]; auto.
  - intros p c Hp. rewrite Ht in Hp. destruct (_ && _); [done|eauto].
  - intros p c Hp. rewrite Ht in Hp. destruct (_ && _); [done|eauto].
  - intros p Hp. rewrite replay_snoc, <- R6 by done. unfold tree_block at 1. rewrite Ht, Esz. cbn [replay_item snd].
    destruct (existsb item_sized seen).
    + rewrite R8. unfold tree_block. by destruct (_ && _).
    + destruct R8 as [R8 ->]. unfold tree_block. rewrite R8, lookup_empty. by destruct (_ && _), (_ && _).
  - rewrite final_size_snoc, Esz2. by cbn [item_size].
  - rewrite existsb_app, final_size_snoc, Esz2. cbn [existsb item_sized]. by rewrite orb_true_r.
Qed.

(** A change of the link count. *)
Lemma rebuild_link seen m sih mon ws q :
  replayed seen m sih -> in_log q -> q mod 4096 + 32 <= LAST_ENTRY ->
  nova_get_entry_type m0 (va + q) = LINK_CHANGE -> monitor_ok ws mon -> stepped seen m sih mon ws q.
Proof.
  unfold stepped.
  intros [R1 [R2 R3] R4 R5 R6 R7 R8] Hq Hqm Hty Hmon.
  destruct (position q Hq) as [Ep Hne]. pose proof (item_entry q Hq Hqm) as Hen.
  destruct (same_log_entry m _ R1 Hen) as (_ & _ & _ & _ & _ & _ & B7 & _).
  unfold rebuild_entry, get_block. erewrite fs_step by (cbn [w_sbi virt_addr with_nvm];
    rewrite (proj2 (Z.eqb_neq q 0) Hne), Ep; reflexivity).
  frun. cbn [nvm with_nvm]. rewrite B7, Hty. change (LINK_CHANGE =? SET_ATTR) with false.
  change (LINK_CHANGE =? LINK_CHANGE) with true. cbv iota. set (a := va + q) in *.
  assert (item_at m0 a = Link) as -> by (unfold item_at; by rewrite Hty).
  set (m1 := Pi.set_i_generation (Pi.set_i_flags (Pi.set_i_ctime (Pi.set_i_links_count m pi (Lc.links m a)) pi
    (Lc.ctime (Pi.set_i_links_count m pi (Lc.links m a)) a)) pi
    (Lc.flags (Pi.set_i_ctime (Pi.set_i_links_count m pi (Lc.links m a)) pi
      (Lc.ctime (Pi.set_i_links_count m pi (Lc.links m a)) a)) a)) pi
    (Lc.generation (Pi.set_i_flags (Pi.set_i_ctime (Pi.set_i_links_count m pi (Lc.links m a)) pi
      (Lc.ctime (Pi.set_i_links_count m pi (Lc.links m a)) a)) pi
      (Lc.flags (Pi.set_i_ctime (Pi.set_i_links_count m pi (Lc.links m a)) pi
        (Lc.ctime (Pi.set_i_links_count m pi (Lc.links m a)) a)) a)) a)).
  assert (same_log m1 /\ Pi.i_size m1 pi = Pi.i_size m pi) as [M1 Esz].
  { split; [by repeat (apply same_log_store; [|lia|simpl; lia])|].
    unfold m1, Pi.i_size, Pi.set_i_generation, Pi.set_i_flags, Pi.set_i_ctime, Pi.set_i_links_count.
    by rewrite !load_store_ne by (simpl; lia). }
  exists m1, (with_last_link_change q sih), mon, ws. split.
  { assert (nova_apply_link_change_entry pi a (World (with_nvm m sbi) mon sih) =
      Some (tt, World (with_nvm m1 sbi) mon sih)) as Ea; [|by fstep Ea].
    unfold nova_apply_link_change_entry. frun. cbn [nvm with_nvm]. rewrite B7, Hty.
    change (negb (LINK_CHANGE =? LINK_CHANGE)) with false. cbv iota. reflexivity. }
  split; [|split; [done|split; [done|lia]]]. split; cbn [sih_ino mmap_pages tree with_last_link_change]; auto.
  - intros p Hp. rewrite replay_snoc, <- R6 by done. done.
  - by rewrite final_size_snoc, Esz.
  - rewrite existsb_app, final_size_snoc, Esz. cbn [existsb item_sized item_size orb]. by rewrite orb_false_r.
Qed.
(** An entry of the log. *)
Lemma rebuild_step seen m sih mon ws q :
  replayed seen m sih -> in_log q -> q mod 4096 + 32 <= LAST_ENTRY ->
  item_wf (item_at m0 (va + q)) -> item_known (item_at m0 (va + q)) -> 12 <= data_bits <= 30 ->
  monitor_ok ws mon -> Z.of_nat (length ws) < 2147483640 -> stepped seen m sih mon ws q.
Proof.
  intros HR Hq Hqm Hwf Hk Hd Hmon Hws. pose proof Hk as Ht. unfold item_at in Ht.
  destruct (Z.eqb_spec (nova_get_entry_type m0 (va + q)) SET_ATTR) as [T1|T1]; [by apply rebuild_attr|].
  destruct (Z.eqb_spec (nova_get_entry_type m0 (va + q)) LINK_CHANGE) as [T2|T2]; [by apply rebuild_link|].
  by apply rebuild_write.
Qed.

(** A page of the log, by the offset of its first byte. *)
Definition log_page_at (q : Z) : Prop := q mod 4096 = 0 /\ in_log q.

Lemma item_len_range it : 0 < item_len it <= 40.
Proof. destruct it; cbn [item_len]; unfold We.length, Sa.length, Lc.length; lia. Qed.

(** The walk to the tail. *)
Lemma rebuild_loop_ok fuel : forall curr_p seen m sih mon ws pages items,
  log_items fuel sbi (Pi.log_tail m0 pi) curr_p = Some (pages, items) ->
  Forall item_wf items -> Forall item_known items -> 12 <= data_bits <= 30 ->
  replayed seen m sih -> in_log curr_p -> Forall log_page_at pages ->
  monitor_ok ws mon -> Z.of_nat (length ws + length items) < 2147483640 ->
  0 <= log_pages sih -> log_pages sih + Z.of_nat (length pages) < 2 ^ 63 ->
  exists m' sih' mon' ws', rebuild_loop slab_garbage smp jiffies_to_msecs e garbage radix_nomem fuel pi curr_p
      (World (with_nvm m sbi) mon sih) = Some (Pi.log_tail m0 pi, World (with_nvm m' sbi) mon' sih') /\
    replayed (seen ++ items) m' sih' /\ log_pages sih' = log_pages sih + Z.of_nat (length pages) /\
    in_log (Pi.log_tail m0 pi) /\ monitor_ok ws' mon' /\ (length ws' <= length ws + length items)%nat.
Proof.
  induction fuel as [|fuel IH]; intros curr_p seen m sih mon ws pages items El Hwf Hk Hd HR Hin Hpg Hmon Hws Hl0 Hl1;
    cbn [log_items rebuild_loop] in *; frun; cbn [nvm with_nvm];
    destruct (same_log_fields m (rp_same _ _ _ HR)) as (_ & Etl & _); rewrite Etl;
    (destruct (Z.eqb_spec curr_p (Pi.log_tail m0 pi)) as [->|Hne];
     [injection El as <- <-; exists m, sih, mon, ws; rewrite app_nil_r; split_and!; (done || (simpl; lia))|]); [done|].
  destruct (curr_p =? 0); [done|]. frun. cbv zeta in El.
  destruct (same_log_next m curr_p (rp_same _ _ _ HR) Hin) as [-> ->].
  set (q := if goto_next_page sbi curr_p then _ else curr_p) in *.
  destruct (q =? 0) eqn:Eq0; [done|]. set (it := item_at _ _) in *.
  destruct (log_items fuel sbi _ (u64 (q + item_len it))) as [[pages' items']|] eqn:Er; [|done].
  cbn [mbind option_bind] in El. injection El as <- <-.
  apply Forall_cons_1 in Hwf as [Hwi Hwf]. apply Forall_cons_1 in Hk as [Hki Hk]. apply Forall_app in Hpg as [Hpq Hpg].
  rewrite length_app, Nat2Z.inj_add in Hl1. cbn [length] in Hws.
  (* the page *)
  set (sih1 := with_log_pages (log_pages sih + Z.of_nat (length (if goto_next_page sbi curr_p then [q] else []))) sih).
  assert ((if goto_next_page sbi curr_p
      then put_sih (fun sih => with_log_pages (u64 (log_pages sih + 1)) sih) ≫= (fun _ => mret (next_log_page sbi curr_p))
      else mret curr_p) (World (with_nvm m sbi) mon sih) = Some (q, World (with_nvm m sbi) mon sih1) /\
    in_log q /\ q mod 4096 + 32 <= LAST_ENTRY) as (E1 & Hq & Hqm).
  { unfold q, sih1 in *. destruct (goto_next_page sbi curr_p) eqn:Eg.
    - frun. apply Forall_singleton in Hpq as [Hq0 Hq1]. cbn [length] in *.
      rewrite u64_small by lia. rewrite Hq0. by split_and!.
    - split; [|split; [done|]].
      + cbn [length]. rewrite Z.add_0_r. by destruct sih.
      + unfold goto_next_page in Eg. rewrite ENTRY_LOC_alt in Eg.
        destruct (Z.ltb_spec LAST_ENTRY (curr_p mod 4096 + 32)); [done|lia]. }
  fstep E1. assert (replayed seen m sih1) as HR1 by (by destruct HR; split).
  destruct (position q Hq) as [Ep Hq0].
  assert (item_at m0 (va + q) = it) as Eit by (unfold it; by rewrite Ep). rewrite <- Eit in Hwi, Hki.
  destruct (rebuild_step seen m sih1 mon ws q HR1 Hq Hqm Hwi Hki Hd Hmon ltac:(lia))
    as (m2 & sih2 & mon2 & ws2 & E2 & HR2 & Hlp2 & Hmon2 & Hws2).
  fstep E2. rewrite Eit in HR2 |- *. pose proof (item_len_range it) as Hil.
  assert (in_log (u64 (q + item_len it))) as Hin'.
  { pose proof (re_blocks renv _ Hq) as Hb. destruct (re_mapped renv) as (_ & _ & Hnb).
    rewrite u64_small by mlia. unfold in_log in *. unfold LAST_ENTRY in Hqm.
    replace ((q + item_len it) / 4096) with (q / 4096); [done|]. mlia. }
  destruct (IH (u64 (q + item_len it)) (seen ++ [it]) m2 sih2 mon2 ws2 pages' items')
    as (m3 & sih3 & mon3 & ws3 & E3 & HR3 & Hlp3 & Htl & Hmon3 & Hws3); auto; try lia.
  { rewrite Hlp2. unfold sih1. cbn [log_pages with_log_pages]. lia. }
  { rewrite Hlp2. unfold sih1. cbn [log_pages with_log_pages]. lia. }
  rewrite <- app_assoc in HR3.
  exists m3, sih3, mon3, ws3. split; [exact E3|]. split; [exact HR3|]. split; [|split; [done|split; [done|simpl; lia]]].
  rewrite Hlp3, Hlp2, length_app, Nat2Z.inj_add. unfold sih1. cbn [log_pages with_log_pages]. lia.
Qed.

(** The pages behind the tail. *)
Lemma count_chain_ok rest : forall fuel q m mon sih,
  same_log m -> log_page_at q -> linked sbi q rest -> Forall log_page_at rest -> (length rest <= fuel)%nat ->
  0 <= log_pages sih -> log_pages sih + Z.of_nat (length rest) < 2 ^ 63 ->
  count_chain fuel q (World (with_nvm m sbi) mon sih) =
    Some (tt, World (with_nvm m sbi) mon (with_log_pages (log_pages sih + Z.of_nat (length rest)) sih)).
Proof.
  induction rest as [|r rest IH]; intros fuel q m mon sih Hm Hq Hl Hr Hf H0 H1.
  all: destruct Hq as [Ha Hq]; destruct (position q Hq) as [Ep Hne];
    assert (page_next m (va + q) = page_next m0 (va + q)) as En
      by (unfold page_next, LAST_ENTRY; apply (same_log_load 8 m _ (q / 4096)); [done|done|simpl; mlia..]).
  - cbn [linked] in Hl. rewrite Ep in Hl. cbn [length]. rewrite Z.add_0_r.
    assert (with_log_pages (log_pages sih) sih = sih) as -> by (by destruct sih).
    destruct fuel; cbn [count_chain]; unfold get_block;
      (erewrite fs_step by (cbn [w_sbi virt_addr with_nvm]; rewrite (proj2 (Z.eqb_neq q 0) Hne), Ep; reflexivity));
      frun; cbn [nvm with_nvm]; by rewrite En, Hl.
  - cbn [linked] in Hl. rewrite Ep in Hl. destruct Hl as (Hn & Hr0 & Hl). cbn [length] in *.
    apply Forall_cons_1 in Hr as [Hr1 Hr]. destruct fuel as [|fuel]; [lia|]. cbn [count_chain]. unfold get_block.
    erewrite fs_step by (cbn [w_sbi virt_addr with_nvm]; rewrite (proj2 (Z.eqb_neq q 0) Hne), Ep; reflexivity).
    frun. cbn [nvm with_nvm]. rewrite En, Hn, (proj2 (Z.eqb_neq r 0) Hr0). frun.
    rewrite u64_small by lia. rewrite IH; cbn [log_pages with_log_pages]; try done; try lia.
    do 3 f_equal. unfold with_log_pages. cbn. f_equal. lia.
Qed.
End memory.
End rebuild.

Lemma log_items_length fuel : forall sbi tail curr_p pages items,
  log_items fuel sbi tail curr_p = Some (pages, items) -> (length pages <= fuel)%nat.
Proof.
  induction fuel as [|fuel IH]; intros sbi tail curr_p pages items; cbn [log_items];
    (destruct (curr_p =? tail); [intros [= <- <-]; simpl; lia|]); [done|].
  destruct (curr_p =? 0); [done|]. cbv zeta. destruct (_ =? 0); [done|].
  destruct (log_items fuel _ _ _) as [[pages' items']|] eqn:E; [|done]. cbn [mbind option_bind].
  intros [= <- <-]. apply IH in E. rewrite length_app. destruct (goto_next_page _ _); simpl; lia.
Qed.

Lemma with_nvm_same sbi : with_nvm (nvm sbi) sbi = sbi.
Proof. by destruct sbi. Qed.

Section file.
Context `{RbTree} (slab_garbage : nova_range_node) (smp : Z) (jiffies_to_msecs : Z -> Z) (e : env).
Context (garbage : Z) (radix_nomem : Z -> bool).
Hypothesis pid_nonneg : 0 <= current_pid e.
Hypothesis radix_serves : forall i, radix_nomem i = false.
Context (sbi : nova_sb_info) (P : Z -> list Z) (pi data_bits : Z).
Context (pages : list Z) (items : list log_item) (rest : list Z).

(** The numbers of the pages of the log. *)
Definition log_blocks : list Z := (fun q => q / 4096) <$> (Pi.log_head (nvm sbi) pi :: pages ++ rest).

Lemma log_blocks_pages n : file_log sbi pi data_bits pages items rest n ->
  Forall (log_page_at log_blocks) (Pi.log_head (nvm sbi) pi :: pages ++ rest).
Proof.
  intros Hfl. apply Forall_forall. intros q Hq. split.
  - by destruct (proj1 (Forall_forall _ _) (fg_pages _ _ _ _ _ _ _ Hfl) q Hq).
  - unfold in_log, log_blocks. by apply (list_elem_of_fmap_2 (fun q => q / 4096)).
Qed.

(** C32: [nova_rebuild_file_inode_tree] restores a file from its log: for a new header and a
    log of write, attribute and link entries, the tree it builds maps every page of the file to
    the block that replaying the entries gives it (and leaves the holes unmapped), the size is
    that of the last entry that sets one, [log_pages] is the length of the chain, and on the
    device nothing changes but fields of the inode. *)
Theorem rebuild_tree_exact n sih mon ws pi_addr :
  rebuild_env sbi P pi data_bits log_blocks -> file_log sbi pi data_bits pages items rest n ->
  Forall item_known items ->
  sih_ino sih = Pi.nova_ino (nvm sbi) pi -> mmap_pages sih = 0 -> tree sih = ∅ ->
  monitor_ok ws mon -> Z.of_nat (length ws + length items) < 2147483640 ->
  exists m' sih' mon', nova_rebuild_file_inode_tree slab_garbage smp jiffies_to_msecs e garbage radix_nomem pi pi_addr
      (World sbi mon sih) = Some (tt, World (with_nvm m' sbi) mon' sih') /\
    (forall p, 0 <= p -> tree_block (nvm sbi) (tree sih') p = mapped_block data_bits items p) /\
    (existsb item_sized items = true -> sih_size sih' = final_size items /\ Pi.i_size m' pi = final_size items) /\
    log_pages sih' = Z.of_nat (length (Pi.log_head (nvm sbi) pi :: pages ++ rest)) /\
    (forall x, ~ pi + 4 <= x < pi + 64 -> m' x = nvm sbi x).
Proof.
  intros Henv Hfl Hk Hi Hmm Ht Hmon Hws. pose proof (log_blocks_pages n Hfl) as Hpg.
  apply Forall_cons_1 in Hpg as [[_ Hh] Hpg]. apply Forall_app in Hpg as [Hpg Hrest].
  pose proof (log_items_length _ _ _ _ _ _ (fg_items _ _ _ _ _ _ _ Hfl)) as Hlen.
  destruct (fg_rest _ _ _ _ _ _ _ Hfl) as [Hlk Hlr]. destruct (fg_pointers _ _ _ _ _ _ _ Hfl) as [Hhd _].
  destruct (re_mapped _ _ _ _ _ Henv) as (_ & _ & Hnb).
  unfold nova_rebuild_file_inode_tree. frun. rewrite (re_bits _ _ _ _ _ Henv).
  erewrite fs_step by reflexivity. frun. rewrite (proj2 (Z.eqb_neq _ _) Hhd). cbn [andb]. frun.
  set (sih1 := with_log_pages 1 (with_sih_pi_addr pi_addr sih)).
  assert (replayed sbi pi data_bits log_blocks [] (nvm sbi) sih1) as HR0.
  { split; cbn [sih1 with_log_pages with_sih_pi_addr tree sih_ino mmap_pages existsb]; rewrite ?Ht; try done.
    split; [|by unfold final_size; simpl]. split; [|by apply (re_size _ _ _ _ _ Henv)]. apply load_range. }
  destruct (rebuild_loop_ok slab_garbage smp jiffies_to_msecs e garbage radix_nomem pid_nonneg radix_serves sbi P pi
    data_bits log_blocks Henv (Z.to_nat (4096 * num_blocks sbi)) (Pi.log_head (nvm sbi) pi) [] (nvm sbi) sih1 mon ws pages items
    (fg_items _ _ _ _ _ _ _ Hfl) (fg_wf _ _ _ _ _ _ _ Hfl) Hk (fg_bits _ _ _ _ _ _ _ Hfl) HR0 Hh Hpg Hmon ltac:(lia))
    as (m1 & sih2 & mon1 & ws1 & E1 & HR1 & Hlp & Htl & Hmon1 & Hws1);
    [cbn; lia|cbn [log_pages sih1 with_log_pages]; lia|]. rewrite with_nvm_same in E1. fstep E1. frun. cbn [nvm with_nvm].
  pose proof (rp_same _ _ _ _ _ _ _ HR1) as Hm1. cbn [app log_pages sih1 with_log_pages] in HR1, Hlp.
  set (sih3 := with_sih_mode _ _).
  assert (log_page_at log_blocks (BLOCK_OFF (Pi.log_tail (nvm sbi) pi))) as Htp.
  { rewrite BLOCK_OFF_alt. unfold log_page_at, in_log in *.
    replace ((_ - _) / 4096) with (Pi.log_tail (nvm sbi) pi / 4096) by mlia. split; [mlia|done]. }
  fstep (count_chain_ok jiffies_to_msecs sbi P pi data_bits log_blocks Henv rest (Z.to_nat (num_blocks sbi))
    (BLOCK_OFF (Pi.log_tail (nvm sbi) pi)) m1 mon1 sih3 Hm1 Htp Hlk Hrest Hlr
    ltac:(cbn [log_pages sih3 with_sih_mode with_sih_size]; lia) ltac:(cbn [log_pages sih3 with_sih_mode with_sih_size]; lia)).
  set (sih4 := with_log_pages _ sih3).
  fstep (reget_rebuild smp sbi P pi data_bits log_blocks Henv m1 mon1 sih4 Hm1). frun. cbn [nvm with_nvm].
  set (m2 := Pi.set_i_blocks _ _ _).
  destruct (count_inode_ok jiffies_to_msecs e pid_nonneg ws1 (with_nvm m2 sbi) mon1 sih4 pi Hmon1 ltac:(lia))
    as (ws2 & mon2 & E2 & _). exists m2, sih4, mon2. split; [exact E2|].
  assert (Pi.i_size m2 pi = Pi.i_size m1 pi) as Esz by (apply load_store_ne; simpl; lia).
  split; [|split; [|split]].
  - intros p Hp. by apply (rp_block _ _ _ _ _ _ _ HR1).
  - intros Hs. pose proof (rp_size _ _ _ _ _ _ _ HR1) as Hr. rewrite Hs in Hr.
    cbn [sih4 sih3 sih_size with_log_pages with_sih_mode with_sih_size]. by rewrite Esz.
  - cbn [sih4 sih3 log_pages with_log_pages with_sih_mode with_sih_size]. rewrite Hlp. cbn [length]. rewrite length_app. lia.
  - intros x Hx. unfold m2, Pi.set_i_blocks. rewrite store_disjoint by (simpl; lia). by apply Hm1.
Qed.
End file.

(** ** An example *)

Module RebuildDemo.
Import RbList.RbList InodeTable.TableDemo Detect.DetectDemo FastGc.GcDemo.

(** The log of inode 40: a write of three pages in blocks 10 to 12 and a truncation to one
    page in the page 5 of the log, a change of the links and a write of page 1 in block 14 in
    the page 6. *)
Definition rb_memory (m : memory) : memory :=
  let p := 65536 + 4096 * 5 in
  let q := 65536 + 4096 * 6 in
  let m := copy_write_entry m p (WriteEntry (4096 * 10 + FILE_WRITE) 0 3 2 0 0 12288) in
  let m := store 8 (store 2 (store 1 m (p + 40) SET_ATTR) (p + 42) S_IFREG) (p + 64) 4096 in
  let m := store 1 m (p + 72) NEXT_PAGE in
  let m := store 2 (store 1 m q LINK_CHANGE) (q + 2) 1 in
  let m := copy_write_entry m (q + 32) (WriteEntry (4096 * 14 + FILE_WRITE) 1 1 0 0 0 8192) in
  Pi.set_log_tail m gc_pi (4096 * 6 + 72).

Definition rb_sbi : nova_sb_info := with_nvm (rb_memory (nvm gc_sbi)) gc_sbi.

Definition rb_items : list log_item :=
  [Write 1 0 3 10 true 12288; Attr S_IFREG 4096; Link; Write 1 1 1 14 true 8192].

Lemma rb_fields (m := nvm rb_sbi) :
  Pi.nova_ino m gc_pi = 40 /\ Pi.log_head m gc_pi = 4096 * 5 /\ Pi.log_tail m gc_pi = 4096 * 6 + 72 /\
  Pi.i_blk_type m gc_pi = 0 /\ Pi.i_size m gc_pi = 0 /\ page_next m (65536 + 4096 * 6) = 4096 * 7 /\
  page_next m (65536 + 4096 * 7) = 4096 * 8 /\ page_next m (65536 + 4096 * 8) = 0.
Proof. vm_compute. split_and!; reflexivity. Qed.

Lemma rb_log : log_items (Z.to_nat (4096 * num_blocks rb_sbi)) rb_sbi (4096 * 6 + 72) (4096 * 5) =
  Some ([4096 * 6], rb_items).
Proof. vm_compute. reflexivity. Qed.

Lemma rb_geometry : virt_addr rb_sbi = 65536 /\ num_blocks rb_sbi = 20.
Proof. vm_compute. split; reflexivity. Qed.

Lemma rb_file_log : file_log rb_sbi gc_pi 12 [4096 * 6] rb_items [4096 * 7; 4096 * 8] 24.
Proof.
  destruct rb_fields as (_ & F2 & F3 & _ & _ & N1 & N2 & N3). destruct rb_geometry as [Ev En].
  split; rewrite ?F2, ?F3.
  - exact rb_log.
  - repeat constructor; vm_compute; discriminate.
  - split; vm_compute; discriminate.
  - split; [|rewrite En; vm_compute; lia]. change (BLOCK_OFF (4096 * 6 + 72)) with (4096 * 6). cbn [linked].
    rewrite Ev. change (nova_get_block 65536 (4096 * 6)) with (65536 + 4096 * 6).
    change (nova_get_block 65536 (4096 * 7)) with (65536 + 4096 * 7).
    change (nova_get_block 65536 (4096 * 8)) with (65536 + 4096 * 8). rewrite N1, N2, N3.
    split; [reflexivity|]. split; [discriminate|]. split; [reflexivity|]. split; [discriminate|reflexivity].
  - repeat constructor; vm_compute; (reflexivity || discriminate).
  - intros p Hp. unfold mapped_block, replay, rb_items. cbn [fold_left replay_item andb snd].
    repeat case_cmp; cbn [andb]; lia.
  - lia.
Qed.

Lemma rb_env : exists P, rebuild_env rb_sbi P gc_pi 12 (log_blocks rb_sbi gc_pi [4096 * 6] [4096 * 7; 4096 * 8]).
Proof.
  destruct gc_demo as (F & P & Hh & Hc & _). destruct gc_fields as (Ei & _). exists P.
  destruct rb_fields as (F1 & F2 & _ & F4 & F5 & _). destruct rb_geometry as [Ev En].
  assert (forall x, x < 65536 + 4096 -> nvm rb_sbi x = nvm gc_sbi x) as Hlow.
  { intros x Hx. unfold rb_sbi, rb_memory, copy_write_entry, Pi.set_log_tail, gc_pi. cbn [nvm with_nvm]. cbv zeta.
    rewrite !store_disjoint by (simpl; lia). reflexivity. }
  assert (log_blocks rb_sbi gc_pi [4096 * 6] [4096 * 7; 4096 * 8] = [5; 6; 7; 8]) as Hb
    by (unfold log_blocks; rewrite F2; reflexivity).
  pose proof (cl_mapped _ _ _ _ _ _ Hc) as Hmp.
  split; rewrite ?Hb, ?Ev, ?En.
  - apply (homed_frame gc_sbi); [exact Hh|exact Hmp| |exact (with_nvm_geometry _ gc_sbi)| |].
    + change (num_blocks gc_sbi) with (num_blocks rb_sbi). rewrite En. lia.
    + intros x Hx. apply Hlow. unfold block_addr in Hx. change (virt_addr gc_sbi) with (virt_addr rb_sbi) in Hx.
      rewrite Ev in Hx. lia.
    + rewrite F1. symmetry. exact Ei.
  - split; [split; rewrite ?Ev, ?En; lia|]. split; [reflexivity|lia].
  - rewrite F1. vm_compute. discriminate.
  - unfold block_addr, gc_pi. rewrite Ev. lia.
  - rewrite F4. reflexivity.
  - rewrite F5. lia.
  - intros b Hin. rewrite !elem_of_cons in Hin. destruct Hin as [->|[->|[->|[->|Hin]]]]; try lia.
    exfalso. exact (not_elem_of_nil _ Hin).
  - intros b Hin. unfold block_addr, gc_pi. rewrite Ev. rewrite !elem_of_cons in Hin.
    destruct Hin as [->|[->|[->|[->|Hin]]]]; try lia. exfalso. exact (not_elem_of_nil _ Hin).
Qed.

(** Page 0 stays in block 10, page 1 is in block 14 and page 2 is a hole. *)
Lemma rebuild_tree_exact_witness : exists mon m' sih' mon',
  nova_rebuild_file_inode_tree garbage 0 msecs_250 (demo_env 0) 0 (fun _ => false) gc_pi gc_pi (World rb_sbi mon gc_sih) =
    Some (tt, World (with_nvm m' rb_sbi) mon' sih') /\
  tree_block (nvm rb_sbi) (tree sih') 0 = 10 /\ tree_block (nvm rb_sbi) (tree sih') 1 = 14 /\
  tree_block (nvm rb_sbi) (tree sih') 2 = 0 /\ sih_size sih' = 8192 /\ log_pages sih' = 4.
Proof.
  destruct rb_env as (P & Henv). destruct init_monitor_ok as (mon & _ & Hmon).
  destruct rb_fields as (F1 & _).
  destruct (rebuild_tree_exact garbage 0 msecs_250 (demo_env 0) 0 (fun _ => false) ltac:(vm_compute; discriminate)
    (fun _ => eq_refl) rb_sbi P gc_pi 12 [4096 * 6] rb_items [4096 * 7; 4096 * 8] 24 gc_sih mon [] gc_pi
    Henv rb_file_log) as (m' & sih' & mon' & E & Ht & Hs & Hl & _).
  - repeat constructor.
  - rewrite F1. reflexivity.
  - reflexivity.
  - reflexivity.
  - exact Hmon.
  - reflexivity.
  - exists mon, m', sih', mon'. split; [exact E|].
    rewrite !Ht by lia. split; [reflexivity|]. split; [reflexivity|]. split; [reflexivity|].
    split; [exact (proj1 (Hs eq_refl))|exact Hl].
Defined.
End RebuildDemo.
