(* ===== verification/WearBudget.v ===== *)
(** * A file operation under the wear monitor

    Every operation that writes to the device counts its writes.  [counting k] says that [k]
    more writes can be counted without a counter wrapping.  Some operations also judge whether
    the page they wrote is to be migrated, which happens when that block has been written
    [max_deviation] times; [ready k] says that every block is more than [k] writes below that
    threshold, whatever the number of writes to the device.  Both are a [Budget]: each counted
    write uses one of it up. *)

From S2P Require Import Prelude Layout RangeTree RbList State Balloc BallocFacts BallocSpec.
From S2P Require Import BallocInit BallocTheorems TreeEdits InodeMap LogBlocks InodeTable.
From S2P Require Import Monitor Histogram HashTable Records KnapSack Detect WriteCount Migrate.
From S2P Require Import LogPages World InodeLog.
#[local] Open Scope word_scope.

(** ** What counting leaves alone *)

(** A part of the monitor that an operation does not change. *)
Definition keeps {A B} (f : monitor -> B) (c : mon A) : Prop :=
  forall m x m', c m = Some (x, m') -> f m' = f m.

Section keeps.
Context {B : Type} (f : monitor -> B).

Lemma keeps_ret {A} (x : A) : keeps f (mret x).
Proof. by intros m y m' [= _ <-]. Qed.

Lemma keeps_fault {A} : keeps f (fault (A := A)).
Proof. by intros m y m' E. Qed.

Lemma keeps_bind {A C} (c : mon A) (k : A -> mon C) : keeps f c -> (forall x, keeps f (k x)) -> keeps f (c ≫= k).
Proof.
  intros Hc Hk m y m' E. unfold mbind, mon_bind in E. destruct (c m) as [[x m1]|] eqn:Ec; [|done].
  rewrite (Hk x m1 y m' E). by apply (Hc m x).
Qed.

Lemma keeps_gets {A} (g : monitor -> A) : keeps f (gets g).
Proof. by intros m y m' [= _ <-]. Qed.

Lemma keeps_modify g : (forall m, f (g m) = f m) -> keeps f (modify g).
Proof. intros Hg m y m' [= _ <-]. apply Hg. Qed.

Lemma keeps_deref {A} (o : option A) : keeps f (deref o).
Proof. destruct o; [apply keeps_ret|apply keeps_fault]. Qed.
End keeps.

Create HintDb keep.
#[local] Hint Resolve keeps_ret keeps_fault keeps_gets keeps_deref : keep.

(** The threshold of the migration and the space table. *)
Definition settings (m : monitor) : Z * list (list space) := (max_deviation m, spaceTable m).

Ltac keep := repeat first
  [ progress cbv zeta | apply keeps_ret | apply keeps_fault | apply keeps_gets | apply keeps_deref
  | apply keeps_modify; intros; try reflexivity; repeat case_match; reflexivity
  | apply keeps_bind; [|intros ?] | case_match ].

Lemma keeps_kmalloc : keeps settings kmalloc.
Proof. intros m x m' E. unfold kmalloc in E. destruct (kmalloc_results m); by injection E as _ <-. Qed.

Lemma keeps_count e j2m b : keeps settings (write_count_increase j2m e b).
Proof.
  unfold write_count_increase, count_block, count_round, is_in_malicious_process_list,
    record_one_sec_write_info, detect_prepare, detect_mode_change, detect_global_remaining_ideal_wear_leveling,
    life_caculate_remaining_ideal_leveling, update_hash_table, insert_into_hash_table, new_hash_node,
    insert_detect_hash_node, detect_chain_insert, chain_of, set_chain, read_block_write_count.
  repeat first [apply keeps_kmalloc|keep].
Qed.

(** ** The budget *)

(** [k] more writes can be counted: the counters, which are [int]s, do not wrap. *)
Record counting (k : nat) (m : monitor) : Prop := {
  cnt_ok : exists ws, monitor_ok ws m /\ Z.of_nat (length ws + k) < 2147483640;
  cnt_space : length (spaceTable m) = Z.to_nat spaceTableVolume;
}.

(** And no block comes to the threshold of the migration with them: every block has been
    written fewer than [max_deviation - k] times. *)
Record ready (k : nat) (m : monitor) : Prop := {
  rdy_ok : exists ws, monitor_ok ws m /\ Z.of_nat (length ws + k) < 2147483640 /\
    (forall b, 0 <= b < BLOCKS_MAX -> occurs b ws + Z.of_nat k < max_deviation m);
  rdy_deviation : max_deviation m < 4611686018427387904;
  rdy_space : length (spaceTable m) = Z.to_nat spaceTableVolume;
}.

(** What a file operation needs of a budget: it may be cut down, every counted write takes one
    from it, and recording the size of a file takes nothing. *)
Class Budget (rd : nat -> monitor -> Prop) : Prop := {
  ready_less k k' m : rd k m -> (k' <= k)%nat -> rd k' m;
  ready_count j2m e b k m : rd (S k) m -> 0 <= b -> 0 <= current_pid e ->
    exists m', write_count_increase j2m e b m = Some (tt, m') /\ rd k m';
  ready_vir base e a k m : rd (S k) m ->
    exists m', inode_page_count_increase_by_vir base e a m = Some (tt, m') /\ rd k m';
  ready_record e sz k m : rd k m -> 0 <= current_pid e ->
    exists m', insert_into_spaceTable (current_pid e) sz m = Some (tt, m') /\ rd k m';
}.

(** The writes after one more counted write. *)
Definition one_more (ws ws' : list Z) : Prop :=
  (length ws' <= S (length ws))%nat /\ forall x, occurs x ws' <= occurs x ws + 1.

Lemma one_more_snoc ws b : one_more ws (ws ++ [b]).
Proof.
  split; [rewrite length_app; simpl; lia|]. intros x.
  destruct (decide (x = b)) as [->|Hx]; [rewrite occurs_snoc_same|rewrite occurs_snoc_other by done]; lia.
Qed.

Lemma one_more_same ws : one_more ws ws.
Proof. split; [|intros x]; lia. Qed.

#[local] Hint Resolve one_more_snoc one_more_same : core.

Lemma count_one_more j2m ws m e b :
  monitor_ok ws m -> 0 <= b -> 0 <= current_pid e -> Z.of_nat (length ws) < 2147483647 ->
  exists ws' m', write_count_increase j2m e b m = Some (tt, m') /\ monitor_ok ws' m' /\ one_more ws ws' /\ settings m' = settings m.
Proof.
  intros Hok Hb Hp Hlen. destruct (Z.ltb_spec b BLOCKS_MAX) as [Hlt|Hge].
  - destruct (write_count_increase_ok j2m ws m e b) as (m' & E & Hok'); [done|lia|done..|].
    exists (ws ++ [b]), m'. split_and!; auto. by apply (keeps_count e j2m b m tt).
  - exists ws, m. split; [|by auto]. unfold write_count_increase.
    by rewrite Z.geb_leb, (proj2 (Z.leb_le BLOCKS_MAX b)) by lia.
Qed.

Lemma keeps_by_vir base e pi : keeps settings (inode_page_count_increase_by_vir base e pi).
Proof.
  unfold inode_page_count_increase_by_vir, count_block, count_round, is_in_malicious_process_list.
  repeat first [apply keeps_kmalloc|keep].
Qed.

Lemma by_vir_one_more base ws m e a :
  monitor_ok ws m -> Z.of_nat (length ws) < 2147483647 ->
  exists ws' m', inode_page_count_increase_by_vir base e a m = Some (tt, m') /\ monitor_ok ws' m' /\ one_more ws ws' /\ settings m' = settings m.
Proof.
  intros Hok Hlen. destruct (Z.ltb_spec (Z.shiftr (u64 (a - base)) 12) BLOCKS_MAX) as [Hb|Hb].
  - destruct (page_count_increase_ok base ws m e a Hok Hb Hlen) as (m' & E & Hok').
    eexists _, m'. split_and!; eauto. by apply (keeps_by_vir base e a m tt).
  - exists ws, m. split; [|by auto]. unfold inode_page_count_increase_by_vir.
    by rewrite Z.geb_leb, (proj2 (Z.leb_le BLOCKS_MAX _)) by lia.
Qed.

Lemma record_same ws m e sz :
  monitor_ok ws m -> length (spaceTable m) = Z.to_nat spaceTableVolume -> 0 <= current_pid e ->
  exists m', insert_into_spaceTable (current_pid e) sz m = Some (tt, m') /\ monitor_ok ws m' /\
    length (spaceTable m') = Z.to_nat spaceTableVolume /\ max_deviation m' = max_deviation m.
Proof.
  intros [Hw Hdt] Hsp Hp. unfold insert_into_spaceTable, space_key.
  pose proof (Z.rem_bound_pos (current_pid e) spaceTableVolume Hp ltac:(done)) as Hk.
  rewrite (proj2 (Z.ltb_ge _ 0)) by lia. mrun.
  destruct (lookup_lt_is_Some_2 (spaceTable m) (Z.to_nat (Z.rem (current_pid e) spaceTableVolume))) as [c Ec]; [lia|].
  rewrite Ec. mrun.
  assert (forall t, length t = Z.to_nat spaceTableVolume -> monitor_ok ws (with_spaceTable t m) /\
    length (spaceTable (with_spaceTable t m)) = Z.to_nat spaceTableVolume /\ max_deviation (with_spaceTable t m) = max_deviation m) as Hr.
  { intros t Ht. split_and!; [|done..]. destruct Hw, Hdt. by split; split. }
  destruct (find_space (current_pid e) c) as [[i s]|].
  - eexists. split; [reflexivity|]. apply Hr. by rewrite length_insert.
  - mstep (kmalloc_available m (do_memory _ _ Hdt)). cbn [negb]. eexists. split; [reflexivity|]. apply Hr.
    by rewrite length_insert.
Qed.

#[export] Instance counting_budget : Budget counting.
Proof.
  split.
  - intros k k' m [(ws & H1 & H2) H3] Hk. split; [|done]. exists ws. split; [done|lia].
  - intros j2m e b k m [(ws & Hok & Hl) Hsp] Hb Hp.
    destruct (count_one_more j2m ws m e b Hok Hb Hp ltac:(lia)) as (ws' & m' & E & Hok' & [Hm _] & [= _ Hs]).
    exists m'. split; [done|]. split; [exists ws'; split; [done|lia]|by rewrite Hs].
  - intros base e a k m [(ws & Hok & Hl) Hsp].
    destruct (by_vir_one_more base ws m e a Hok ltac:(lia)) as (ws' & m' & E & Hok' & [Hm _] & [= _ Hs]).
    exists m'. split; [done|]. split; [exists ws'; split; [done|lia]|by rewrite Hs].
  - intros e sz k m [(ws & Hok & Hl) Hsp] Hp. destruct (record_same ws m e sz Hok Hsp Hp) as (m' & E & Hok' & Hs & _).
    exists m'. split; [done|]. split; [by exists ws|done].
Qed.

Lemma ready_after k m ws ws' m' :
  Z.of_nat (length ws + S k) < 2147483640 -> (forall b, 0 <= b < BLOCKS_MAX -> occurs b ws + Z.of_nat (S k) < max_deviation m) ->
  max_deviation m < 4611686018427387904 -> length (spaceTable m) = Z.to_nat spaceTableVolume ->
  monitor_ok ws' m' -> one_more ws ws' -> settings m' = settings m -> ready k m'.
Proof.
  intros Hl Hb Hd Hsp Hok [Hm Ho] [= E1 E2]. split; rewrite ?E1, ?E2; [|done..]. exists ws'. split_and!; [done|lia|].
  intros b Hbb. specialize (Hb b Hbb). specialize (Ho b). lia.
Qed.

#[export] Instance ready_budget : Budget ready.
Proof.
  split.
  - intros k k' m [(ws & H1 & H2 & H3) H4 H5] Hk. split; [|done..]. exists ws. split_and!; [done|lia|].
    intros b Hb. specialize (H3 b Hb). lia.
  - intros j2m e b k m [(ws & Hok & Hl & Hw) Hd Hsp] Hb Hp.
    destruct (count_one_more j2m ws m e b Hok Hb Hp ltac:(lia)) as (ws' & m' & E & Hok' & Hm & Hs).
    exists m'. split; [done|]. by eapply ready_after.
  - intros base e a k m [(ws & Hok & Hl & Hw) Hd Hsp].
    destruct (by_vir_one_more base ws m e a Hok ltac:(lia)) as (ws' & m' & E & Hok' & Hm & Hs).
    exists m'. split; [done|]. by eapply ready_after.
  - intros e sz k m [(ws & Hok & Hl & Hw) Hd Hsp] Hp. destruct (record_same ws m e sz Hok Hsp Hp) as (m' & E & Hok' & Hs & Hm).
    exists m'. split; [done|]. split; rewrite ?Hm; [by exists ws|done..].
Qed.

(** No page is migrated. *)
Lemma ready_judge b k m :
  ready k m -> 0 <= b < BLOCKS_MAX -> exists m', should_migrate b m = Some (false, m') /\ ready k m'.
Proof.
  intros [(ws & [Hw Hdt] & Hl1 & Hl2) Hd Hsp] Hb. unfold should_migrate.
  rewrite (proj2 (Z.leb_le 0 b)), (proj2 (Z.ltb_lt b _)) by lia. cbn [andb negb]. mrun.
  rewrite (wo_global _ _ Hw b Hb). cbn [write_count]. pose proof (Hl2 b Hb) as Hlt.
  assert (0 <= occurs b ws <= Z.of_nat (length ws)) as Ho by apply occurs_bounds.
  rewrite u64_small, (proj2 (Z.ltb_lt _ _)) by lia. mrun. eexists. split; [reflexivity|].
  split; cbn [max_deviation spaceTable with_exceed_average]; auto. exists ws. split; [|done].
  destruct Hw, Hdt. by split; split.
Qed.

(** The counting functions of the file operations. *)
Section counting.
Context `{RbTree} (smp : Z) (jiffies_to_msecs : Z -> Z) (e : env) (garbage : Z).
Hypothesis pid_nonneg : 0 <= current_pid e.
Context {rd : nat -> monitor -> Prop} {bud : Budget rd}.

Lemma block_number_nonneg va a : 0 <= get_block_number_by_virt va a.
Proof. unfold get_block_number_by_virt. repeat case_cmp; try lia; apply Z.shiftr_nonneg, u64_range. Qed.

Lemma ready_count_block sbi m sih b k : rd (S k) m -> 0 <= b -> exists m',
  on_mon (write_count_increase jiffies_to_msecs e b) (World sbi m sih) = Some (tt, World sbi m' sih) /\ rd k m'.
Proof.
  intros Hr Hb. destruct (ready_count jiffies_to_msecs e b k m Hr Hb pid_nonneg) as (m' & E & Hr').
  exists m'. split; [by apply on_mon_run|done].
Qed.

Lemma ready_count_inode sbi m sih pi k : rd (S k) m -> exists m',
  count_inode jiffies_to_msecs e pi (World sbi m sih) = Some (tt, World sbi m' sih) /\ rd k m'.
Proof. intros Hr. by apply (ready_count_block sbi m sih _ k Hr), block_number_nonneg. Qed.

Lemma ready_count_migrate sbi m sih pi k :
  ready (S k) m -> get_block_number_by_virt (virt_addr sbi) pi < BLOCKS_MAX -> exists m',
  count_migrate smp jiffies_to_msecs e garbage pi (World sbi m sih) = Some (tt, World sbi m' sih) /\ ready k m'.
Proof.
  intros Hr Hb. pose proof (block_number_nonneg (virt_addr sbi) pi) as H0. set (b := get_block_number_by_virt _ _) in *.
  destruct (ready_count jiffies_to_msecs e b k m Hr H0 pid_nonneg) as (m1 & E1 & Hr1).
  unfold count_migrate, inode_page_count_increase_with_migrate, monitored_call. cbn [w_sbi w_mon w_sih]. fold b.
  rewrite E1. cbn [mbind option_bind]. destruct (_ <? NOVA_NORMAL_INODE_START); [exists m1; by split|].
  destruct (ready_judge b k m1 Hr1 ltac:(lia)) as (m2 & E2 & Hr2). rewrite E2. cbn [mbind option_bind]. exists m2. by split.
Qed.

Lemma ready_by_vir sbi m sih base pi k :
  rd (S k) m -> exists m', on_mon (inode_page_count_increase_by_vir base e pi) (World sbi m sih) =
    Some (tt, World sbi m' sih) /\ rd k m'.
Proof.
  intros Hr. destruct (ready_vir base e pi k m Hr) as (m' & E & Hr'). exists m'. split; [by apply on_mon_run|done].
Qed.
End counting.

(** The monitor of a fresh mount. *)
Lemma settings_init m : init_monitor initial_monitor = Some (tt, m) -> settings m = (400, replicate 10 []).
Proof.
  intros E. assert (settings <$> (snd <$> init_monitor initial_monitor) = Some (400, replicate 10 [])) as Es
    by (vm_compute; reflexivity).
  rewrite E in Es. cbn in Es. injection Es as E1 E2. unfold settings. by rewrite E1, E2.
Qed.

Lemma ready_init k : (k < 400)%nat -> exists m, init_monitor initial_monitor = Some (tt, m) /\ ready k m.
Proof.
  intros Hk. destruct init_monitor_ok as (m & E & Hok). exists m. split; [done|].
  injection (settings_init m E) as E1 E2. split; rewrite ?E1, ?E2; [|done|reflexivity]. exists [].
  split; [done|]. split; [simpl length; lia|]. intros b _. rewrite occurs_not_elem by apply not_elem_of_nil. lia.
Qed.

Lemma counting_init k : Z.of_nat k < 2147483640 -> exists m, init_monitor initial_monitor = Some (tt, m) /\ counting k m.
Proof.
  intros Hk. destruct init_monitor_ok as (m & E & Hok). exists m. split; [done|].
  injection (settings_init m E) as E1 E2. split; rewrite ?E2; [|reflexivity]. exists []. split; [done|]. simpl length. lia.
Qed.
