(* ===== verification/FileData.v ===== *)
(** * Reading and writing files (dax.c)

    A read copies the blocks of the pages of a file to the buffer of the caller, and zeros
    for its holes.  A write never changes a block in place: it fills new blocks, appends a
    write entry for them to the log, and then enters the pages into the tree, which gives the
    blocks they replace back.  The memory of the caller is [um]; the file system is
    [World.world]. *)

From S2P Require Import Prelude Layout RangeTree RbList State Balloc BallocFacts BallocSpec.
From S2P Require Import BallocInit BallocTheorems TreeEdits InodeMap LogBlocks InodeTable.
From S2P Require Import Monitor Histogram HashTable Records KnapSack Detect WriteCount Migrate.
From S2P Require Import LogPages World InodeLog FastGc LogAppend BlockMap Shutdown Crawl FileTree.
#[local] Open Scope word_scope.

Definition EFAULT : Z := 14.
Definition EACCES : Z := 13.

(** [sb->s_blocksize] and its logarithm: a file system is made with blocks of 4 KB. *)
Definition s_blocksize : Z := NOVA_DEF_BLOCK_SIZE_4K.
Definition s_blocksize_bits : Z := 12.

(** [struct inode]: the fields that the file system uses. *)
Record vfs_inode := VfsInode {
  i_ino : Z;
  vfs_size : Z;
  vfs_blocks : Z;
  vfs_mtime : Z;
  vfs_nlink : Z;
  vfs_ctime : Z;
  vfs_atime : Z;
  vfs_mode : Z;
  vfs_uid : Z;
  vfs_gid : Z;
  vfs_flags : Z;
  vfs_generation : Z;
  vfs_rdev : Z;
}.

Definition with_vfs_size (v : Z) (i : vfs_inode) : vfs_inode :=
  VfsInode (i_ino i) v (vfs_blocks i) (vfs_mtime i) (vfs_nlink i) (vfs_ctime i) (vfs_atime
    i) (vfs_mode i) (vfs_uid i) (vfs_gid i) (vfs_flags i) (vfs_generation i) (vfs_rdev i).
Definition with_vfs_blocks (v : Z) (i : vfs_inode) : vfs_inode :=
  VfsInode (i_ino i) (vfs_size i) v (vfs_mtime i) (vfs_nlink i) (vfs_ctime i) (vfs_atime i)
    (vfs_mode i) (vfs_uid i) (vfs_gid i) (vfs_flags i) (vfs_generation i) (vfs_rdev i).
(** [i_mtime] and [i_ctime] together. *)
Definition with_vfs_time (v : Z) (i : vfs_inode) : vfs_inode :=
  VfsInode (i_ino i) (vfs_size i) (vfs_blocks i) v (vfs_nlink i) v (vfs_atime i) (vfs_mode
    i) (vfs_uid i) (vfs_gid i) (vfs_flags i) (vfs_generation i) (vfs_rdev i).
Definition with_vfs_nlink (v : Z) (i : vfs_inode) : vfs_inode :=
  VfsInode (i_ino i) (vfs_size i) (vfs_blocks i) (vfs_mtime i) v (vfs_ctime i) (vfs_atime i)
    (vfs_mode i) (vfs_uid i) (vfs_gid i) (vfs_flags i) (vfs_generation i) (vfs_rdev i).
Definition with_vfs_ctime (v : Z) (i : vfs_inode) : vfs_inode :=
  VfsInode (i_ino i) (vfs_size i) (vfs_blocks i) (vfs_mtime i) (vfs_nlink i) v (vfs_atime i)
    (vfs_mode i) (vfs_uid i) (vfs_gid i) (vfs_flags i) (vfs_generation i) (vfs_rdev i).
Definition with_vfs_mode (v : Z) (i : vfs_inode) : vfs_inode :=
  VfsInode (i_ino i) (vfs_size i) (vfs_blocks i) (vfs_mtime i) (vfs_nlink i) (vfs_ctime i)
    (vfs_atime i) v (vfs_uid i) (vfs_gid i) (vfs_flags i) (vfs_generation i) (vfs_rdev i).
Definition with_vfs_flags (v : Z) (i : vfs_inode) : vfs_inode :=
  VfsInode (i_ino i) (vfs_size i) (vfs_blocks i) (vfs_mtime i) (vfs_nlink i) (vfs_ctime i)
    (vfs_atime i) (vfs_mode i) (vfs_uid i) (vfs_gid i) v (vfs_generation i) (vfs_rdev i).

(** [len] bytes from [src] on in [from], at [dst] in [to]. *)
Definition copy_between (to : memory) (dst : Z) (from : memory) (src len : Z) : memory :=
  fun x => if (dst <=? x) && (x <? dst + len) then from (src + (x - dst)) else to x.

Section operations.
Context `{RbTree} (slab_garbage : nova_range_node) (smp : Z) (jiffies_to_msecs : Z -> Z) (e : env).
Context (garbage : Z).
(** The indices for which [radix_tree_insert] finds no memory. *)
Context (radix_nomem : Z -> bool).
(** The number of bytes that a copy of [n] bytes to or from the user address [a] leaves. *)
Context (uncopied : Z -> Z -> Z).
(** The address the device is mapped at, for the counters. *)
Context (nova_base_address : Z).

(** ** Reading *)

(** Where page [index] is: the bytes of its entry from the page on, or of the page when some
    page of the entry is invalid, and their address, [None] for a hole.  An entry that does
    not cover the page is an error. *)
Definition read_page (index : Z) : fs (option (Z * option Z)) :=
  entry ← nova_get_write_entry index;
  mem ← get_nvm;
  match entry with
  | None => mret (Some (PAGE_SIZE, None))
  | Some entry =>
    if (index <? We.pgoff mem entry) || (We.num_pages mem entry <=? index ⊟ We.pgoff mem entry)
    then mret None
    else
      let nr := if We.invalid_pages mem entry =? 0
                then u64 ((We.num_pages mem entry - (index - We.pgoff mem entry)) * PAGE_SIZE)
                else PAGE_SIZE in
      nvmm ← get_nvmm smp entry index;
      p ← get_block (u64 (Z.shiftl nvmm PAGE_SHIFT));
      mret (Some (nr, Some p))
  end.

(** One turn of the loop of [do_dax_mapping_read] copies [nr] bytes of page [index] from
    [offset] on, or zeros for a hole. *)
Definition read_copy (um : memory) (dst : Z) (dax_mem : option Z) (offset nr : Z) : fs (Z * memory) :=
  mem ← get_nvm;
  let rem := uncopied dst nr in
  let from := match dax_mem with Some p => (fun x => mem (p + offset + x)) | None => fun _ => 0 end in
  mret (rem, copy_between um dst from 0 (nr - rem)).

(** The loop: [inl] is an immediate return, [inr] the error and the bytes copied.  Each turn
    copies a byte at least. *)
Fixpoint read_loop (fuel : nat) (um : memory) (buf len isize end_index index offset copied : Z) :
    fs (memory * (Z + Z * Z)) :=
  match fuel with
  | O => fs_fault
  | S fuel =>
    if (end_index <? index) || ((end_index =? index) && (Z.land (isize - 1) 4095 + 1 <=? offset))
    then mret (um, inr (0, copied))
    else
      r ← read_page index;
      match (r : option (Z * option Z)) with
      | None => mret (um, inl (- EINVAL))
      | Some (nr, dax_mem) =>
        let nr := nr ⊟ offset in
        let nr := if len ⊟ copied <? nr then len ⊟ copied else nr in
        c ← read_copy um (buf ⊞ copied) dax_mem offset nr;
        let '(rem, um) := (c : Z * memory) in
        if negb (rem =? 0) then mret (um, inr (- EFAULT, copied))
        else
          let copied := copied ⊞ nr in
          let offset := offset ⊞ nr in
          let index := index ⊞ Z.shiftr offset PAGE_SHIFT in
          let offset := Z.land offset 4095 in
          if copied <? len then read_loop fuel um buf len isize end_index index offset copied
          else mret (um, inr (0, copied))
      end
  end.

(** [do_dax_mapping_read]: the result, the new position and the memory of the caller. *)
Definition do_dax_mapping_read (access_ok : bool) (um : memory) (isize buf len pos : Z) :
    fs (Z * Z * memory) :=
  let index := u64 (Z.shiftr pos PAGE_SHIFT) in
  let offset := Z.land pos 4095 in
  if negb access_ok then mret (- EFAULT, pos, um)
  else if isize =? 0 then mret (0, pos, um)
  else
    let len := if u64 (isize - pos) <? len then u64 (isize - pos) else len in
    if len =? 0 then mret (0, pos, um)
    else
      let end_index := Z.shiftr (isize - 1) PAGE_SHIFT in
      r ← read_loop (Z.to_nat len) um buf len isize end_index index offset 0;
      match (r : memory * (Z + Z * Z)) with
      | (um, inl ret) => mret (ret, pos, um)
      | (um, inr (error, copied)) =>
        mret (if negb (copied =? 0) then i64 copied else error, i64 (pos + copied), um)
      end.

Definition nova_dax_file_read := do_dax_mapping_read.

(** ** Writing *)

(** The old contents around a write of part of a block. *)
Definition nova_copy_partial_block (entry index offset kmem : Z) (is_end_blk : bool) : fs unit :=
  nvmm ← get_nvmm smp entry index;
  sbi ← get_sbi;
  let ptr := nova_get_block (virt_addr sbi) (u64 (Z.shiftl nvmm PAGE_SHIFT)) in
  if ptr =? 0 then mret tt
  else if is_end_blk
  then put_nvm (fun mem => memcpy mem (kmem + offset) (ptr + offset) (s_blocksize ⊟ offset))
  else put_nvm (fun mem => memcpy mem kmem ptr offset).

Definition blk_type_to_size (btype : Z) : option Z := (fun s => Z.shiftl 1 s) <$> blk_type_to_shift btype.

Definition nova_inode_blk_size (mem : memory) (pi : Z) : option Z := blk_type_to_size (Pi.i_blk_type mem pi).

Definition nova_handle_head_tail_blocks (pi pos count kmem : Z) : fs unit :=
  let offset := Z.land pos (s_blocksize - 1) in
  let num_blocks := Z.shiftr (u64 (count + offset - 1)) s_blocksize_bits ⊞ 1 in
  mem ← get_nvm;
  blk_size ← fs_deref (nova_inode_blk_size mem pi);
  let offset := Z.land pos (blk_size - 1) in
  let start_blk := u64 (Z.shiftr pos s_blocksize_bits) in
  let end_blk := u64 (start_blk + num_blocks - 1) in
  _ ← (if negb (offset =? 0) then
         entry ← nova_get_write_entry start_blk;
         match entry with
         | None => put_nvm (fun mem => memset0 mem kmem offset)
         | Some entry => nova_copy_partial_block entry start_blk offset kmem false
         end
       else mret tt);
  let kmem := kmem ⊞ Z.shiftl (num_blocks - 1) s_blocksize_bits in
  let eblk_offset := Z.land (u64 (pos + count)) (blk_size - 1) in
  if negb (eblk_offset =? 0) then
    entry ← nova_get_write_entry end_blk;
    match entry with
    | None => put_nvm (fun mem => memset0 mem (kmem + eblk_offset) (s_blocksize ⊟ eblk_offset))
    | Some entry => nova_copy_partial_block entry end_blk eblk_offset kmem true
    end
  else mret tt.

(** The loop of [nova_reassign_file_tree] over the entries from [curr_p] to the tail; [fuel]
    bounds it by the bytes of the device. *)
Fixpoint reassign_loop (fuel : nat) (pi curr_p : Z) : fs Z :=
  mem ← get_nvm;
  if curr_p =? Pi.log_tail mem pi then mret 0
  else
    match fuel with
    | O => fs_fault
    | S fuel =>
      sbi ← get_sbi;
      let curr_p := if is_last_entry curr_p We.length then next_log_page sbi curr_p else curr_p in
      if curr_p =? 0 then mret (- EINVAL)
      else
        let entry_data := nova_get_block (virt_addr sbi) curr_p in
        if negb (nova_get_entry_type mem entry_data =? FILE_WRITE)
        then reassign_loop fuel pi (curr_p ⊞ We.length)
        else
          _ ← nova_assign_write_entry slab_garbage smp jiffies_to_msecs e garbage radix_nomem pi entry_data true;
          reassign_loop fuel pi (curr_p ⊞ We.length)
    end.

Definition nova_reassign_file_tree (pi begin_tail : Z) : fs Z :=
  mem ← get_nvm;
  sbi ← get_sbi;
  pi ← (if 1 <? Pi.nova_ino mem pi then
          r ← on_sbi (fun sbi => nova_get_inode_by_ino_or_pi_addr smp sbi (Pi.nova_ino mem pi) 0);
          match r with inr pi => mret pi | inl _ => fs_fault end
        else mret pi);
  reassign_loop (Z.to_nat (4096 * num_blocks sbi)) pi begin_tail.

(** The loop of [nova_cleanup_incomplete_write] gives the blocks of the entries back. *)
Fixpoint cleanup_loop (fuel : nat) (pi curr_p end_tail : Z) : fs Z :=
  if curr_p =? end_tail then mret 0
  else
    match fuel with
    | O => fs_fault
    | S fuel =>
      sbi ← get_sbi;
      mem ← get_nvm;
      let curr_p := if is_last_entry curr_p We.length then next_log_page sbi curr_p else curr_p in
      if curr_p =? 0 then mret (- EINVAL)
      else
        let entry := nova_get_block (virt_addr sbi) curr_p in
        _ ← (if nova_get_entry_type mem entry =? FILE_WRITE then
               _ ← on_sbi (fun sbi => nova_free_data_blocks slab_garbage sbi pi
                             (Z.shiftr (We.block mem entry) PAGE_SHIFT) (i32 (We.num_pages mem entry)));
               mret tt
             else mret tt);
        cleanup_loop fuel pi (curr_p ⊞ We.length) end_tail
    end.

Definition nova_cleanup_incomplete_write (pi blocknr allocated begin_tail end_tail : Z) : fs Z :=
  _ ← (if (0 <? blocknr) && (0 <? allocated)
       then _ ← on_sbi (fun sbi => nova_free_data_blocks slab_garbage sbi pi blocknr allocated); mret tt
       else mret tt);
  if (begin_tail =? 0) || (end_tail =? 0) then mret 0
  else
    sbi ← get_sbi;
    cleanup_loop (Z.to_nat (4096 * num_blocks sbi)) pi begin_tail end_tail.
(** The locals of [nova_cow_file_write] that its loop changes. *)
Record write_locals := WriteLocals {
  wl_pos : Z;
  wl_count : Z;
  wl_num_blocks : Z;
  wl_buf : Z;
  wl_tail : Z;  (* temp_tail *)
  wl_begin : Z;  (* begin_tail *)
  wl_written : Z;
  wl_blocknr : Z;
  wl_allocated : Z;
}.

(** The writes to the new blocks are counted, each at the block before it. *)
Fixpoint count_data_blocks (n : nat) (w_i blocknr : Z) : fs unit :=
  match n with
  | O => mret tt
  | S n =>
    _ ← on_mon (write_count_increase jiffies_to_msecs e (u64 (i32 (blocknr + w_i - 1))));
    count_data_blocks n (w_i + 1) blocknr
  end.

(** [memcpy_to_pmem_nocache]: the bytes left. *)
Definition memcpy_to_pmem_nocache (um : memory) (dst src size : Z) : fs Z :=
  let size := u32 size in
  let rem := uncopied src size in
  _ ← put_nvm (fun mem => copy_between mem dst um src (size - rem));
  mret rem.

(** One turn of the loop: [Some ret] goes to [out] with [ret], and the flag says whether the
    loop goes on. *)
Definition write_turn (um : memory) (inode : vfs_inode) (pi time : Z) (l : write_locals) :
    fs (write_locals * option Z * bool) :=
  mem ← get_nvm;
  blk_size ← fs_deref (nova_inode_blk_size mem pi);
  let pos := wl_pos l in
  let offset := Z.land pos (blk_size - 1) in
  let start_blk := u64 (Z.shiftr pos s_blocksize_bits) in
  r ← on_sbi (fun sbi => nova_new_data_blocks sbi smp pi (wl_blocknr l) (u32 (wl_num_blocks l)) 0);
  let '(allocated, blocknr) := (r : Z * Z) in
  _ ← count_data_blocks (Z.to_nat allocated) 0 blocknr;
  let l := WriteLocals pos (wl_count l) (wl_num_blocks l) (wl_buf l) (wl_tail l) (wl_begin l) (wl_written l)
             blocknr allocated in
  if allocated <=? 0 then mret (l, Some allocated, false)
  else
    let bytes := u64 (s_blocksize * allocated - offset) in
    let bytes := if wl_count l <? bytes then wl_count l else bytes in
    sbi ← get_sbi;
    let kmem := nova_get_block (virt_addr sbi) (nova_get_block_off blocknr) in
    _ ← (if negb (offset =? 0) || negb (Z.land (offset ⊞ bytes) (PAGE_SIZE - 1) =? 0)
         then nova_handle_head_tail_blocks pi pos bytes kmem else mret tt);
    rem ← memcpy_to_pmem_nocache um (kmem + offset) (wl_buf l) bytes;
    let copied := bytes ⊟ rem in
    let block := nova_get_block_off blocknr in
    let size := if u64 (vfs_size inode) <? u64 (pos + copied) then u64 (pos + copied) else u64 (vfs_size inode) in
    let entry_data := WriteEntry (block - block mod 256 + FILE_WRITE) start_blk (u32 allocated) 0 (u32 time)
                        garbage size in
    curr_entry ← nova_append_file_write_entry slab_garbage smp jiffies_to_msecs e garbage pi entry_data (wl_tail l);
    if curr_entry =? 0 then mret (l, Some (- ENOSPC), false)
    else
      let l := if 0 <? copied
               then WriteLocals (i64 (pos + copied)) (wl_count l ⊟ copied) (wl_num_blocks l ⊟ allocated)
                      (wl_buf l ⊞ copied) (wl_tail l) (wl_begin l) (wl_written l + copied) blocknr allocated
               else l in
      if negb (copied =? bytes) then mret (l, None, false)
      else
        mret (WriteLocals (wl_pos l) (wl_count l) (wl_num_blocks l) (wl_buf l) (curr_entry ⊞ We.length)
                (if wl_begin l =? 0 then curr_entry else wl_begin l) (wl_written l) blocknr allocated, None, true).

(** The loop; each turn takes a block at least. *)
Fixpoint write_loop (fuel : nat) (um : memory) (inode : vfs_inode) (pi time : Z) (l : write_locals) :
    fs (write_locals * option Z) :=
  if negb (0 <? wl_num_blocks l) then mret (l, None)
  else
    match fuel with
    | O => fs_fault
    | S fuel =>
      r ← write_turn um inode pi time l;
      let '(l, ret, more) := (r : write_locals * option Z * bool) in
      if more then write_loop fuel um inode pi time l else mret (l, ret)
    end.

(** After the loop the entries are committed and the tree follows them: the result, the
    position and the inode. *)
Definition write_commit (inode : vfs_inode) (pi total_blocks ppos : Z) (l : write_locals) :
    fs (Z * Z * vfs_inode) :=
  mem ← get_nvm;
  data_bits ← fs_deref (blk_type_to_shift (Pi.i_blk_type mem pi));
  _ ← put_nvm (fun mem => Pi.set_i_blocks mem pi
                 (Pi.i_blocks mem pi ⊞ Z.shiftl total_blocks (data_bits - s_blocksize_bits)));
  _ ← nova_update_tail_wwb smp e nova_base_address pi (wl_tail l);
  ret ← nova_reassign_file_tree pi (wl_begin l);
  if negb (ret =? 0) then mret (ret, ppos, inode)
  else
    mem ← get_nvm;
    let inode := with_vfs_blocks (Pi.i_blocks mem pi) inode in
    let pos := wl_pos l in
    inode ← (if vfs_size inode <? pos then
               _ ← put_sih (with_sih_size pos); mret (with_vfs_size pos inode)
             else mret inode);
    _ ← on_mon (mode ← gets detect_mode;
                if negb (mode =? 0) then insert_into_spaceTable (current_pid e) (i32 (vfs_size inode)) else mret tt);
    mret (wl_written l, pos, inode).

(** [active_migrate_inode_table_page] of the page the pointer [pi] is in. *)
Definition migrate_page_of (pi : Z) : fs unit := fun w =>
  match active_migrate_inode_table_page smp jiffies_to_msecs (w_sbi w) (w_mon w) e pi garbage with
  | Some (_, sbi, m) => Some (tt, World sbi m (w_sih w))
  | None => None
  end.

(** The end of [nova_cow_file_write]: [ret] is unsigned, so the condition of the clean-up
    never holds.  [None] is a pointer that has not been set: following it is a fault. *)
Definition write_out (pi : option Z) (ret : Z) (l : write_locals) : fs Z :=
  _ ← (if u64 ret <? 0
       then pi ← fs_deref pi;
            _ ← nova_cleanup_incomplete_write pi (wl_blocknr l) (wl_allocated l) (wl_begin l) (wl_tail l); mret tt
       else mret tt);
  pi ← fs_deref pi;
  _ ← migrate_page_of pi;
  mret (i64 (u64 ret)).

(** [nova_cow_file_write]: the result, the position and the inode.  [mapped] is
    [mapping_mapped], [append] the flag [O_APPEND], [privs] the result of
    [file_remove_privs] and [time] the current time.  On the first exit [pi] is unset. *)
Definition nova_cow_file_write (access_ok mapped append : bool) (privs time : Z) (um : memory) (buf len ppos : Z)
    (inode : vfs_inode) : fs (Z * Z * vfs_inode) :=
  if len =? 0 then mret (0, ppos, inode)
  else if mapped then mret (- EACCES, ppos, inode)
  else if access_ok then
    ret ← write_out None (- EFAULT) (WriteLocals ppos len 0 buf 0 0 0 0 0);
    mret (ret, ppos, inode)
  else
    let pos := if append then vfs_size inode else ppos in
    sih ← get_sih;
    r ← on_sbi (fun sbi => nova_get_inode smp sbi (i_ino inode) (sih_pi_addr sih));
    match (r : unit + Z) with
    | inl _ => fs_fault
    | inr pi =>
      let offset := Z.land pos (s_blocksize - 1) in
      let num_blocks := Z.shiftr (u64 (len + offset - 1)) s_blocksize_bits ⊞ 1 in
      if negb (privs =? 0) then
        ret ← write_out (Some pi) privs (WriteLocals pos len num_blocks buf 0 0 0 0 0);
        mret (ret, ppos, inode)
      else
        let inode := with_vfs_time time inode in
        mem ← get_nvm;
        r ← write_loop (Z.to_nat num_blocks) um inode pi time
              (WriteLocals pos len num_blocks buf (Pi.log_tail mem pi) 0 0 0 0);
        let '(l, exit) := (r : write_locals * option Z) in
        r ← match exit with
            | Some ret => mret (ret, ppos, inode)
            | None => write_commit inode pi num_blocks ppos l
            end;
        let '(ret, ppos, inode) := (r : Z * Z * vfs_inode) in
        ret ← write_out (Some pi) ret l;
        mret (ret, ppos, inode)
    end.
End operations.

(** ** What a file holds *)

(** The byte at [o] of the file with the tree [t]: 0 in a hole. *)
Definition file_byte (sbi : nova_sb_info) (t : gmap Z Z) (o : Z) : Z :=
  match t !! (o / 4096) with
  | Some a => nvm sbi (block_addr sbi (entry_block (nvm sbi) a (o / 4096)) + o mod 4096)
  | None => 0
  end.

(** The entries of the tree cover their pages with blocks of the device, and all pages of an
    entry without invalid ones are in the tree. *)
Record readable (sbi : nova_sb_info) (t : gmap Z Z) : Prop := {
  rd_mapped : mapped sbi;
  rd_cover : covering (nvm sbi) t;
  rd_block p a : t !! p = Some a -> 0 < entry_block (nvm sbi) a p < num_blocks sbi;
  rd_whole p a : t !! p = Some a -> We.invalid_pages (nvm sbi) a = 0 ->
    forall q, We.pgoff (nvm sbi) a <= q < We.pgoff (nvm sbi) a + We.num_pages (nvm sbi) a -> t !! q = Some a;
}.

Section reading.
Context `{RbTree} (smp : Z) (uncopied : Z -> Z -> Z).

Lemma get_nvmm_run sbi mon sih a p :
  covering (nvm sbi) (tree sih) -> tree sih !! p = Some a -> 0 < entry_block (nvm sbi) a p < num_blocks sbi ->
  num_blocks sbi < 2 ^ 52 ->
  get_nvmm smp a p (World sbi mon sih) = Some (entry_block (nvm sbi) a p, World sbi mon sih).
Proof.
  intros Hc Ha Hb Hn. destruct (Hc p a Ha) as (C1 & C2 & C3). unfold get_nvmm. frun.
  rewrite (u64_small (We.pgoff _ _ + _)) by lia.
  rewrite (proj2 (Z.ltb_ge p _)), (proj2 (Z.leb_gt _ p)) by lia. cbn [orb]. frun.
  unfold entry_block in *. rewrite u64_small by lia. unfold mret, fs_ret. do 2 f_equal. lia.
Qed.

Lemma block_position sbi b : mapped sbi -> 0 < b < num_blocks sbi ->
  u64 (Z.shiftl b PAGE_SHIFT) = 4096 * b /\ 4096 * b <> 0 /\
  nova_get_block (virt_addr sbi) (4096 * b) = block_addr sbi b.
Proof.
  intros [Hv Hm] Hb. unfold PAGE_SHIFT. rewrite Z.shiftl_mul_pow2 by lia. change (2 ^ 12) with 4096.
  rewrite u64_small by lia. split; [lia|]. split; [lia|]. unfold nova_get_block, block_addr.
  rewrite (proj2 (Z.eqb_neq _ 0)) by lia. rewrite u64_small by lia. lia.
Qed.
Definition source_byte (sbi : nova_sb_info) (dax_mem : option Z) (o : Z) : Z :=
  match dax_mem with Some p => nvm sbi (p + o) | None => 0 end.

(** A page is found with the bytes of the file. *)
Lemma read_page_ok sbi mon sih index :
  readable sbi (tree sih) -> num_blocks sbi < 2147483648 -> 0 <= index < 2 ^ 52 ->
  exists nr dax_mem, read_page smp index (World sbi mon sih) = Some (Some (nr, dax_mem), World sbi mon sih) /\
    4096 <= nr < 2 ^ 63 /\
    forall o, 0 <= o < nr -> source_byte sbi dax_mem o = file_byte sbi (tree sih) (4096 * index + o).
Proof.
  intros [Hm Hc Hb Hw] Hn Hi. unfold read_page, nova_get_write_entry. frun.
  assert (forall o, 0 <= o < 4096 -> (4096 * index + o) / 4096 = index /\ (4096 * index + o) mod 4096 = o) as Hdm
    by (intros o Ho; mlia).
  destruct (tree sih !! index) as [a|] eqn:Ea.
  2:{ exists PAGE_SIZE, None. split; [done|]. unfold PAGE_SIZE. split; [lia|]. intros o Ho. unfold file_byte.
      destruct (Hdm o Ho) as [-> _]. by rewrite Ea. }
  destruct (Hc index a Ea) as (C1 & C2 & C3). pose proof (Hb index a Ea) as Hblk.
  pose proof (load_range 4 (nvm sbi) (a + 16)) as Hnp. change (load 4 _ (a + 16)) with (We.num_pages (nvm sbi) a) in Hnp.
  change (256 ^ Z.of_nat 4) with 4294967296 in Hnp. rewrite (proj2 (Z.ltb_ge index _)), u64_small, (proj2 (Z.leb_gt _ _)) by lia. cbn [orb].
  fstep (get_nvmm_run sbi mon sih a index Hc Ea Hblk ltac:(lia)).
  destruct (block_position sbi _ Hm Hblk) as (-> & Hne & Eb). unfold get_block.
  erewrite fs_step by (cbn [w_sbi]; rewrite (proj2 (Z.eqb_neq _ 0) Hne), Eb; reflexivity).
  eexists _, _. split; [done|]. unfold PAGE_SIZE in *.
  destruct (Z.eqb_spec (We.invalid_pages (nvm sbi) a) 0) as [Hinv|_].
  - rewrite u64_small by lia. split; [lia|]. intros o Ho. unfold source_byte, file_byte.
    assert (exists k, (4096 * index + o) / 4096 = index + k /\ (4096 * index + o) mod 4096 = o - 4096 * k /\
      0 <= k /\ index + k < We.pgoff (nvm sbi) a + We.num_pages (nvm sbi) a) as (k & -> & -> & Hk0 & Hk1).
    { exists (o / 4096). mlia. }
    rewrite (Hw index a Ea Hinv (index + k)) by lia. f_equal. unfold block_addr, entry_block. lia.
  - split; [lia|]. intros o Ho. unfold source_byte, file_byte. destruct (Hdm o Ho) as [-> ->]. rewrite Ea. done.
Qed.

(** The loop, when every copy succeeds. *)
Lemma read_loop_ok sbi mon sih isize pos buf len fuel : forall um index offset copied,
  readable sbi (tree sih) -> num_blocks sbi < 2147483648 -> (forall a n, uncopied a n = 0) ->
  0 <= pos -> pos + len <= isize -> isize < 2 ^ 62 -> 0 <= buf -> buf + len < 2 ^ 64 ->
  0 <= copied < len -> len - copied <= Z.of_nat fuel ->
  index = (pos + copied) / 4096 -> offset = (pos + copied) mod 4096 ->
  exists um', read_loop smp uncopied fuel um buf len isize ((isize - 1) / 4096) index offset copied (World sbi mon sih) =
      Some ((um', inr (0, len)), World sbi mon sih) /\
    forall a, um' a = if (buf + copied <=? a) && (a <? buf + len)
                      then file_byte sbi (tree sih) (pos + (a - buf)) else um a.
Proof.
  induction fuel as [|fuel IH]; intros um index offset copied Hr Hn Hu Hp Hpl His Hb Hbl Hc Hf Hi Ho; [lia|].
  cbn [read_loop]. change 4095 with (Z.ones 12). rewrite !Z.land_ones by lia. change (2 ^ 12) with 4096.
  assert (0 <= index < 2 ^ 52 /\ 0 <= offset < 4096 /\ 4096 * index + offset = pos + copied) as (Hix & Hof & Hpos) by mlia.
  rewrite (proj2 (Z.ltb_ge _ index)) by mlia.
  assert (((isize - 1) / 4096 =? index) && ((isize - 1) mod 4096 + 1 <=? offset) = false) as ->.
  { destruct (Z.eqb_spec ((isize - 1) / 4096) index); [|done]. cbn [andb]. apply Z.leb_gt. mlia. }
  cbn [orb]. destruct (read_page_ok sbi mon sih index Hr Hn Hix) as (nr & dm & E & Hnr & Hbytes). fstep E.
  rewrite (u64_small (nr - offset)), (u64_small (len - copied)) by lia.
  set (n := if len - copied <? nr - offset then _ else _).
  assert (n = Z.min (len - copied) (nr - offset)) as Hnmin
    by (unfold n; destruct (Z.ltb_spec (len - copied) (nr - offset)); lia).
  unfold read_copy. erewrite fs_step by (frun; rewrite Hu; reflexivity). rewrite Z.sub_0_r. cbn [negb Z.eqb].
  rewrite (u64_small (buf + copied)), (u64_small (copied + n)), (u64_small (offset + n)) by lia.
  rewrite Z.shiftr_div_pow2, ?Z.land_ones by (unfold PAGE_SHIFT; lia). change (2 ^ PAGE_SHIFT) with 4096.
  change (2 ^ 12) with 4096. cbn [w_sbi].
  set (um1 := copy_between _ _ _ _ _).
  assert (forall a, um1 a = if (buf + copied <=? a) && (a <? buf + copied + n)
    then file_byte sbi (tree sih) (pos + (a - buf)) else um a) as Hum1.
  { intros a. unfold um1, copy_between. destruct (Z.leb_spec (buf + copied) a), (Z.ltb_spec a (buf + copied + n)); cbn [andb]; try done.
    replace (pos + (a - buf)) with (4096 * index + (offset + (a - (buf + copied)))) by lia. rewrite <- Hbytes by lia.
    unfold source_byte. destruct dm; [f_equal; lia|done]. }
  destruct (Z.ltb_spec (copied + n) len) as [Hlt|Hge].
  - rewrite u64_small by mlia.
    destruct (IH um1 (index + (offset + n) / 4096) ((offset + n) mod 4096) (copied + n)) as (um2 & E2 & H2); auto; try lia.
    { rewrite Z.add_assoc, <- Hpos. mlia. }
    { rewrite Z.add_assoc, <- Hpos. mlia. }
    exists um2. split; [exact E2|]. intros a. rewrite H2, Hum1.
    destruct (Z.leb_spec (buf + (copied + n)) a), (Z.ltb_spec a (buf + len)), (Z.leb_spec (buf + copied) a),
      (Z.ltb_spec a (buf + copied + n)); cbn [andb]; (done || lia).
  - exists um1. replace (copied + n) with len by lia. split; [done|]. intros a. rewrite Hum1.
    by replace (buf + copied + n) with (buf + len) by lia.
Qed.

(** Behind the end nothing is copied. *)
Lemma read_loop_end w isize pos buf len fuel um :
  0 < isize <= pos -> pos < 2 ^ 62 ->
  read_loop smp uncopied (S fuel) um buf len isize ((isize - 1) / 4096) (pos / 4096) (pos mod 4096) 0 w =
    Some ((um, inr (0, 0)), w).
Proof.
  intros Hi Hp. cbn [read_loop]. change 4095 with (Z.ones 12). rewrite Z.land_ones by lia. change (2 ^ 12) with 4096.
  destruct (Z.ltb_spec ((isize - 1) / 4096) (pos / 4096)) as [|Hge]; [done|]. cbn [orb].
  rewrite (proj2 (Z.eqb_eq _ (pos / 4096))), (proj2 (Z.leb_le _ _)) by mlia. done.
Qed.

(** The whole read. *)
Lemma read_run sbi mon sih um isize buf len pos :
  readable sbi (tree sih) -> num_blocks sbi < 2147483648 -> (forall a n, uncopied a n = 0) ->
  0 <= pos < 2 ^ 62 -> 0 <= isize < 2 ^ 62 -> 0 <= len -> 0 <= buf -> buf + len < 2 ^ 64 ->
  let n := Z.max 0 (Z.min len (isize - pos)) in
  exists um', do_dax_mapping_read smp uncopied true um isize buf len pos (World sbi mon sih) =
      Some ((n, pos + n, um'), World sbi mon sih) /\
    forall a, um' a = if (buf <=? a) && (a <? buf + n) then file_byte sbi (tree sih) (pos + (a - buf)) else um a.
Proof.
  intros Hr Hn Hu Hp His Hlen Hb Hbl n. unfold do_dax_mapping_read. cbn [negb].
  assert (n <= 0 -> forall a, um a = if (buf <=? a) && (a <? buf + n) then file_byte sbi (tree sih) (pos + (a - buf)) else um a) as Hnone.
  { intros Hn0 a. destruct (Z.leb_spec buf a), (Z.ltb_spec a (buf + n)); cbn [andb]; (done || lia). }
  destruct (Z.eqb_spec isize 0) as [->|Hi0].
  { exists um. assert (n = 0) as En by (unfold n; lia). split; [by rewrite En, Z.add_0_r|]. apply Hnone. lia. }
  rewrite !Z.shiftr_div_pow2 by (unfold PAGE_SHIFT; lia). change (2 ^ PAGE_SHIFT) with 4096.
  change 4095 with (Z.ones 12) at 1. rewrite Z.land_ones by lia. change (2 ^ 12) with 4096.
  rewrite (u64_small (pos / 4096)) by mlia.
  destruct (Z.leb_spec isize pos) as [Hend|Hin].
  { assert (n = 0) as En by (unfold n; lia). exists um. split; [|apply Hnone; lia]. rewrite En, Z.add_0_r.
    set (len' := if _ <? len then _ else len). destruct (Z.eqb_spec len' 0) as [|Hl0]; [done|].
    assert (0 <= len') by (unfold len'; pose proof (u64_range (isize - pos)); destruct (_ <? len); lia).
    destruct (Z.to_nat len') as [|fuel] eqn:Ef; [lia|]. erewrite fs_step by (apply read_loop_end; lia).
    cbn [negb Z.eqb]. rewrite Z.add_0_r, i64_small by lia. done. }
  rewrite u64_small by lia. set (len' := if isize - pos <? len then _ else _).
  assert (len' = n) as El by (unfold len', n; destruct (Z.ltb_spec (isize - pos) len); lia). rewrite El.
  destruct (Z.eqb_spec n 0) as [En|Hn0]; [exists um; split; [by rewrite En, Z.add_0_r|apply Hnone; lia]|].
  destruct (read_loop_ok sbi mon sih isize pos buf n (Z.to_nat n) um (pos / 4096) (pos mod 4096) 0)
    as (um' & E & Hum); auto; try lia; [by rewrite Z.add_0_r..|].
  fstep E. rewrite (proj2 (Z.eqb_neq n 0) Hn0). cbn [negb]. rewrite !i64_small by lia.
  exists um'. split; [done|]. intros a. rewrite Hum. by rewrite Z.add_0_r.
Qed.

(** C2: Reading a file gives its contents: for a position in the file, [do_dax_mapping_read]
    copies the bytes from there on, up to the length asked for or the end of the file, into the
    buffer (holes as zeros) and nothing else, returns their number and advances the position
    by it; at or behind the end it returns 0. *)
Theorem read_exact sbi mon sih um isize buf len pos :
  readable sbi (tree sih) -> num_blocks sbi < 2147483648 -> (forall a n, uncopied a n = 0) ->
  0 <= pos < 2 ^ 62 -> 0 <= isize < 2 ^ 62 -> 0 <= len -> 0 <= buf -> buf + len < 2 ^ 64 ->
  let n := Z.max 0 (Z.min len (isize - pos)) in
  exists um', do_dax_mapping_read smp uncopied true um isize buf len pos (World sbi mon sih) =
      Some ((n, pos + n, um'), World sbi mon sih) /\
    forall a, um' a = if (buf <=? a) && (a <? buf + n) then file_byte sbi (tree sih) (pos + (a - buf)) else um a.
Proof. apply read_run. Qed.
End reading.
