(* ===== verification/FileWrite.v ===== *)
(** * Writing a file keeps everything but the bytes written (dax.c)

    [nova_cow_file_write] fills new blocks, appends an entry per extent to the log, commits
    the tail and enters the pages into the tree.  The theorem at the end says what the file
    holds afterwards.  The proof follows the three phases: the loop over the extents changes
    only blocks that were free and the end of the log; the commit changes the inode; the
    assignment changes the tree, the counters of the old entries and the free blocks. *)

From S2P Require Import Prelude Layout RangeTree RbList State Balloc BallocFacts BallocSpec.
From S2P Require Import BallocInit BallocTheorems TreeEdits InodeMap LogBlocks InodeTable.
From S2P Require Import Monitor Histogram HashTable Records KnapSack Detect WriteCount Migrate.
From S2P Require Import LogPages World InodeLog FastGc LogAppend BlockMap Shutdown Crawl FileTree Truncate.
From S2P Require Import WearBudget FileData.
#[local] Open Scope word_scope.

(** No page is migrated at the end of an operation. *)
Lemma migrate_nothing `{RbTree} smp jiffies_to_msecs e garbage pi sbi mon sih k :
  ready k mon -> get_block_number_by_virt (virt_addr sbi) pi < BLOCKS_MAX ->
  exists mon', migrate_page_of smp jiffies_to_msecs e garbage pi (World sbi mon sih) = Some (tt, World sbi mon' sih) /\ ready k mon'.
Proof.
  intros Hr Hb. unfold migrate_page_of, active_migrate_inode_table_page. cbn [w_sbi w_mon w_sih].
  destruct (_ <? NOVA_NORMAL_INODE_START); [by exists mon|].
  destruct (ready_judge (get_block_number_by_virt (virt_addr sbi) pi) k mon Hr) as (mon' & E & Hr').
  { pose proof (block_number_nonneg (virt_addr sbi) pi). lia. }
  unfold monitored_call. rewrite E. cbn [mbind option_bind]. by exists mon'.
Qed.

Section write.
Context `{RbTree} {L : LogBlocks} (slab_garbage : nova_range_node) (smp : Z) (jiffies_to_msecs : Z -> Z) (e : env).
Context (garbage : Z) (radix_nomem : Z -> bool) (uncopied : Z -> Z -> Z) (nova_base_address : Z).

(** The file system and the file before the write: the free blocks, the pages of the inode
    tables, the inode, its tree and the blocks of its log. *)
Context (sbi0 : nova_sb_info) (F0 : Z -> Prop) (P : Z -> list Z) (pi : Z) (t0 : gmap Z Z) (logb : Z -> Prop).
#[local] Notation va := (virt_addr sbi0).
#[local] Notation m0 := (nvm sbi0).
#[local] Notation blk b := (block_addr sbi0 b).

(** An entry in a page of the log. *)
Definition entry_in_log (a : Z) : Prop := exists b, logb b /\ blk b <= a /\ a + 40 <= blk (b + 1).

Record write_env : Prop := {
  we_homed : homed sbi0 P pi;
  we_mapped : mapped sbi0;
  we_aligned : va mod 4096 = 0;
  we_free : lb_free sbi0 F0;
  we_cpu : 0 <= smp < cpus sbi0;
  we_small : num_blocks sbi0 <= BLOCKS_MAX;
  we_type : Pi.i_blk_type m0 pi = 0;
  we_ino : NOVA_NORMAL_INODE_START < Pi.nova_ino m0 pi;
  we_cover : covering m0 t0;
  we_used p a : t0 !! p = Some a -> 0 < entry_block m0 a p < num_blocks sbi0 /\ ~ F0 (entry_block m0 a p);
  we_inj p q a b : t0 !! p = Some a -> t0 !! q = Some b -> entry_block m0 a p = entry_block m0 b q -> p = q;
  we_entry p a : t0 !! p = Some a -> entry_in_log a;
  we_apart p q a b : t0 !! p = Some a -> t0 !! q = Some b -> a <> b -> a + 40 <= b \/ b + 40 <= a;
  we_room p a : t0 !! p = Some a -> We.invalid_pages m0 a + Z.of_nat (slots t0 a) <= We.num_pages m0 a;
  we_log b : logb b -> 0 < b < num_blocks sbi0 /\ ~ F0 b;
  we_data b p a : logb b -> t0 !! p = Some a -> entry_block m0 a p <> b;
  we_pi b : F0 b \/ logb b \/ (exists p a, t0 !! p = Some a /\ entry_block m0 a p = b) ->
    pi + 128 <= blk b \/ blk (b + 1) <= pi;
  we_pi_page : blk 1 <= pi /\ pi + 128 <= blk (num_blocks sbi0);
}.

Hypothesis wenv : write_env.

(** The bytes of the free blocks. *)
Definition in_free (x : Z) : Prop := exists b, F0 b /\ blk b <= x < blk (b + 1).

(** The end of the log, from [tail0] to [tail]. *)
Context (tail0 limit : Z).
Record tail_ok : Prop := {
  tl_page : logb (tail0 / 4096);
  tl_room : tail0 mod 4096 + (limit - tail0) <= LAST_ENTRY /\ tail0 <= limit;
  tl_fresh p a : t0 !! p = Some a -> a + 40 <= va + tail0 \/ va + limit <= a;
}.
Hypothesis tok : tail_ok.

(** Only free blocks and the end of the log have changed. *)
Definition loop_mem (m : memory) : Prop :=
  forall x, ~ in_free x -> ~ va + tail0 <= x < va + limit -> m x = m0 x.

Lemma tail_block : blk (tail0 / 4096) <= va + tail0 /\ va + limit <= blk (tail0 / 4096 + 1) /\ 4096 <= tail0 /\
  limit <= 4096 * num_blocks sbi0.
Proof using wenv tok.
  clear - wenv tok.
  destruct (we_log wenv _ (tl_page tok)) as [Hb _]. pose proof (tl_room tok) as [Hr Hl]. unfold LAST_ENTRY, block_addr in *. mlia.
Qed.

Lemma block_apart b x y : blk b <= x < blk (b + 1) -> blk y <= x < blk (y + 1) -> b = y.
Proof. unfold block_addr. lia. Qed.

(** Reading what has not changed. *)
Lemma loop_load n m a b :
  loop_mem m -> ~ F0 b -> blk b <= a -> a + Z.of_nat n <= blk (b + 1) ->
  a + Z.of_nat n <= va + tail0 \/ va + limit <= a -> load n m a = load n m0 a.
Proof.
  intros Hm Hb H1 H2 H3. apply load_ext. intros x Hx. apply Hm; [|lia].
  intros (c & Hc & Hcx). assert (b = c) as -> by (eapply block_apart; [split; [|apply Z.lt_le_trans with (1 := proj2 Hx)]|]; eauto; lia).
  done.
Qed.

Lemma loop_entry m p a : loop_mem m -> t0 !! p = Some a ->
  We.block m a = We.block m0 a /\ We.pgoff m a = We.pgoff m0 a /\ We.num_pages m a = We.num_pages m0 a /\
  We.invalid_pages m a = We.invalid_pages m0 a.
Proof.
  intros Hm Ha. destruct (we_entry wenv p a Ha) as (b & Hb & H1 & H2). destruct (we_log wenv b Hb) as [_ Hf].
  pose proof (tl_fresh tok p a Ha).
  split_and!; apply (loop_load _ m _ b); auto; simpl; lia.
Qed.

Lemma loop_entry_block m p a q : loop_mem m -> t0 !! p = Some a -> entry_block m a q = entry_block m0 a q.
Proof. intros Hm Ha. destruct (loop_entry m p a Hm Ha) as (E1 & E2 & _). unfold entry_block. by rewrite E1, E2. Qed.

(** A block in use has its old bytes. *)
Lemma loop_block m p a x : loop_mem m -> t0 !! p = Some a ->
  blk (entry_block m0 a p) <= x < blk (entry_block m0 a p + 1) -> m x = m0 x.
Proof.
  intros Hm Ha Hx. destruct (we_used wenv p a Ha) as [_ Hf]. apply Hm.
  - intros (c & Hc & Hcx). by rewrite (block_apart _ x c Hx Hcx) in Hf.
  - intros Ht. destruct tail_block as (T1 & T2 & _). apply (we_data wenv _ p a (tl_page tok) Ha).
    apply (block_apart _ x); [done|lia].
Qed.

Lemma loop_pi n m o : loop_mem m -> 0 <= o -> o + Z.of_nat n <= 128 -> load n m (pi + o) = load n m0 (pi + o).
Proof.
  intros Hm H1 H2. apply load_ext. intros x Hx. apply Hm.
  - intros (c & Hc & Hcx). destruct (we_pi wenv c ltac:(by left)); lia.
  - intros Ht. destruct tail_block as (T1 & T2 & _).
    destruct (we_pi wenv (tail0 / 4096)) as [?|?]; [right; left; apply tok|lia..].
Qed.

Lemma loop_homed sbi : same_geometry sbi0 sbi -> loop_mem (nvm sbi) -> homed sbi P pi.
Proof.
  intros Hg Hm. destruct tail_block as (T1 & _ & T3 & _).
  destruct (we_log wenv _ (tl_page tok)) as [Hb _].
  apply (homed_frame sbi0); [apply wenv|apply wenv|lia|done| |].
  - intros x Hx. apply Hm; [|unfold block_addr in *; lia]. intros (c & Hc & Hcx).
    pose proof (lb_bounds _ _ c (we_free wenv) Hc). unfold block_addr in *. lia.
  - apply (loop_pi 8 _ 64 Hm); simpl; lia.
Qed.

(** The contents of the file. *)
Lemma loop_file_byte sbi o : same_geometry sbi0 sbi -> loop_mem (nvm sbi) ->
  file_byte sbi t0 o = file_byte sbi0 t0 o.
Proof.
  intros Hg Hm. unfold file_byte. destruct (t0 !! (o / 4096)) as [a|] eqn:Ea; [|done].
  rewrite (loop_entry_block _ _ _ _ Hm Ea).
  assert (block_addr sbi (entry_block m0 a (o / 4096)) = blk (entry_block m0 a (o / 4096))) as ->
    by (unfold block_addr; by rewrite (sg_virt _ _ Hg)).
  apply (loop_block _ _ _ _ Hm Ea). unfold block_addr. mlia.
Qed.

(** ** Filling the new blocks *)

Lemma loop_mem_free m m' : loop_mem m -> (forall x, ~ in_free x -> m' x = m x) -> loop_mem m'.
Proof. intros Hm Hf x H1 H2. rewrite Hf by done. by apply Hm. Qed.

Lemma extent_free b n x : (forall c, b <= c < b + n -> F0 c) -> blk b <= x < blk (b + n) -> in_free x.
Proof.
  intros Hf Hx. exists (b + (x - blk b) / 4096). unfold block_addr in *. split; [apply Hf; mlia|mlia].
Qed.

Lemma geometry_blk sbi b : same_geometry sbi0 sbi -> block_addr sbi b = blk b.
Proof. intros Hg. unfold block_addr. by rewrite (sg_virt _ _ Hg). Qed.

(** Part of an old block, into the block at [k]. *)
Lemma copy_partial_ok sbi mon sih a p off k (is_end : bool) :
  same_geometry sbi0 sbi -> loop_mem (nvm sbi) -> t0 !! p = Some a -> 0 <= off <= 4096 ->
  nova_copy_partial_block smp a p off k is_end (World sbi mon sih) =
    Some (tt, World (with_nvm (if is_end
      then memcpy (nvm sbi) (k + off) (blk (entry_block m0 a p) + off) (4096 - off)
      else memcpy (nvm sbi) k (blk (entry_block m0 a p)) off) sbi) mon sih).
Proof.
  intros Hg Hm Ha Ho. destruct (loop_entry _ _ _ Hm Ha) as (E1 & E2 & E3 & _).
  destruct (we_used wenv p a Ha) as [Hb _]. destruct (we_cover wenv p a Ha) as (C1 & C2 & C3).
  pose proof (lb_size _ _ (we_free wenv)) as Hsz. pose proof (we_mapped wenv) as Hmp.
  unfold nova_copy_partial_block.
  erewrite fs_step by (apply get_nvmm_ok; rewrite ?E2, ?E3; try lia; rewrite (loop_entry_block _ _ _ _ Hm Ha); lia).
  frun. rewrite (loop_entry_block _ _ _ _ Hm Ha).
  destruct (block_position sbi0 _ Hmp Hb) as (-> & Hne & Eb). rewrite (sg_virt _ _ Hg), Eb.
  assert (blk (entry_block m0 a p) <> 0) as Hnz by (unfold block_addr; destruct Hmp; lia).
  rewrite (proj2 (Z.eqb_neq _ 0) Hnz). unfold s_blocksize, NOVA_DEF_BLOCK_SIZE_4K.
  destruct is_end; [rewrite u64_small by lia|]; done.
Qed.

(** The part of page [p] from [lo] to [hi], one of them at an end of the page, goes to the
    block at [k]. *)
Definition filled (m m' : memory) (p k lo hi : Z) : Prop :=
  (forall x, ~ k + lo <= x < k + hi -> m' x = m x) /\
  (forall y, lo <= y < hi -> m' (k + y) = file_byte sbi0 t0 (4096 * p + y)).

Lemma file_byte_page p y : 0 <= y < 4096 -> file_byte sbi0 t0 (4096 * p + y) =
  match t0 !! p with Some a => m0 (blk (entry_block m0 a p) + y) | None => 0 end.
Proof.
  intros Hy. unfold file_byte. replace ((4096 * p + y) / 4096) with p by mlia.
  by replace ((4096 * p + y) mod 4096) with y by mlia.
Qed.

Lemma fill_part sbi mon sih p k off (is_end : bool) :
  same_geometry sbi0 sbi -> loop_mem (nvm sbi) -> tree sih = t0 -> 0 <= off <= 4096 ->
  exists m', (entry ← nova_get_write_entry p;
    match entry with
    | None => put_nvm (fun mem => if is_end then memset0 mem (k + off) (s_blocksize ⊟ off) else memset0 mem k off)
    | Some entry => nova_copy_partial_block smp entry p off k is_end
    end) (World sbi mon sih) = Some (tt, World (with_nvm m' sbi) mon sih) /\
    filled (nvm sbi) m' p k (if is_end then off else 0) (if is_end then 4096 else off).
Proof.
  intros Hg Hm Ht Ho. unfold nova_get_write_entry. frun. rewrite Ht.
  destruct (t0 !! p) as [a|] eqn:Ea.
  - rewrite (copy_partial_ok sbi mon sih a p off k is_end Hg Hm Ea Ho). eexists. split; [reflexivity|].
    assert (forall y, 0 <= y < 4096 -> nvm sbi (blk (entry_block m0 a p) + y) = m0 (blk (entry_block m0 a p) + y)) as Hb
      by (intros y Hy; apply (loop_block _ _ _ _ Hm Ea); unfold block_addr; lia).
    split.
    + intros x Hx. destruct is_end; unfold memcpy; case_cmp; try done; lia.
    + intros y Hy. rewrite file_byte_page, Ea by (destruct is_end; lia). rewrite <- Hb by (destruct is_end; lia).
      destruct is_end; unfold memcpy; (case_cmp; [|apply andb_false_iff in Hif as [?|?]; bool_hyps; lia]); f_equal; lia.
  - eexists. split; [reflexivity|]. unfold s_blocksize, NOVA_DEF_BLOCK_SIZE_4K. rewrite u64_small by lia. split.
    + intros x Hx. destruct is_end; unfold memset0; case_cmp; try done; lia.
    + intros y Hy. rewrite file_byte_page, Ea by (destruct is_end; lia).
      destruct is_end; unfold memset0; (case_cmp; [|apply andb_false_iff in Hif as [?|?]; bool_hyps; lia]); done.
Qed.

(** The old bytes around the write. *)
Lemma head_tail_ok sbi mon sih pos bytes b n :
  same_geometry sbi0 sbi -> loop_mem (nvm sbi) -> tree sih = t0 -> (forall c, b <= c < b + n -> F0 c) ->
  0 <= pos < 2 ^ 62 -> 0 < bytes -> let off := pos mod 4096 in
  off + bytes <= 4096 * n -> 4096 * (n - 1) < off + bytes ->
  exists m', nova_handle_head_tail_blocks smp pi pos bytes (blk b) (World sbi mon sih) =
      Some (tt, World (with_nvm m' sbi) mon sih) /\
    (forall x, ~ blk b <= x < blk (b + n) -> m' x = nvm sbi x) /\
    (forall y, 0 <= y < off \/ off + bytes <= y < 4096 * n ->
       m' (blk b + y) = file_byte sbi0 t0 (4096 * (pos / 4096) + y)).
Proof.
  intros Hg Hm Ht Hf Hp Hby off Hle Hgt.
  assert (0 <= off < 4096 /\ pos = 4096 * (pos / 4096) + off) as [Hoff Hpos] by (unfold off; mlia). clearbody off.
  assert (0 < b /\ b + n <= num_blocks sbi0) as Hbn.
  { pose proof (lb_bounds _ _ b (we_free wenv) (Hf b ltac:(lia))).
    pose proof (lb_bounds _ _ (b + n - 1) (we_free wenv) (Hf (b + n - 1) ltac:(lia))). lia. }
  pose proof (lb_size _ _ (we_free wenv)) as Hsz. destruct (we_mapped wenv) as [Hv Hmx].
  unfold nova_handle_head_tail_blocks, s_blocksize_bits. frun.
  change (s_blocksize - 1) with (Z.ones 12).
  assert (Pi.i_blk_type (nvm sbi) pi = 0) as Hty by (rewrite <- (we_type wenv); apply (loop_pi 1 _ 3 Hm); simpl; lia).
  unfold nova_inode_blk_size, blk_type_to_size. rewrite Hty. change (blk_type_to_shift 0) with (Some 12).
  cbn [fmap option_fmap option_map]. change (Z.shiftl 1 12) with 4096. erewrite fs_step by reflexivity.
  change (4096 - 1) with (Z.ones 12). rewrite !Z.land_ones by lia. change (2 ^ 12) with 4096.
  rewrite !Z.shiftr_div_pow2 by lia. change (2 ^ 12) with 4096.
  replace (pos mod 4096) with off by mlia.
  rewrite (u64_small (bytes + off - 1)) by lia.
  replace ((bytes + off - 1) / 4096) with (n - 1) by (apply Z.div_unique with (off + bytes - 1 - 4096 * (n - 1)); lia).
  rewrite (u64_small (n - 1 + 1)), (u64_small (pos / 4096)), (u64_small (pos / 4096 + (n - 1 + 1) - 1)) by mlia.
  replace (n - 1 + 1 - 1) with (n - 1) by lia. replace (pos / 4096 + (n - 1 + 1) - 1) with (pos / 4096 + (n - 1)) by lia.
  rewrite Z.shiftl_mul_pow2 by lia. change (2 ^ 12) with 4096.
  assert (blk (b + (n - 1)) = blk b + (n - 1) * 4096) as Ek by (unfold block_addr; lia).
  rewrite (u64_small (blk b + _)) by (unfold block_addr; lia). rewrite <- Ek.
  rewrite (u64_small (pos + bytes)) by lia. set (eo := (pos + bytes) mod 4096).
  assert (0 <= eo < 4096 /\ (eo = 0 -> off + bytes = 4096 * n) /\ (eo <> 0 -> off + bytes = 4096 * (n - 1) + eo)) as (He & He0 & He1)
    by (unfold eo; mlia).
  (* the head *)
  assert (exists m1, (if negb (off =? 0) then
      entry ← nova_get_write_entry (pos / 4096);
      match entry with
      | None => put_nvm (fun mem => memset0 mem (blk b) off)
      | Some entry => nova_copy_partial_block smp entry (pos / 4096) off (blk b) false
      end else mret tt) (World sbi mon sih) = Some (tt, World (with_nvm m1 sbi) mon sih) /\
    filled (nvm sbi) m1 (pos / 4096) (blk b) 0 off) as (m1 & E1 & [S1 V1]).
  { destruct (Z.eqb_spec off 0) as [->|Hne]; cbn [negb].
    - exists (nvm sbi). split; [by destruct sbi|]. split; [done|]. intros y Hy. lia.
    - apply (fill_part sbi mon sih (pos / 4096) (blk b) off false Hg Hm Ht). lia. }
  fstep E1.
  assert (loop_mem m1) as Hm1.
  { apply (loop_mem_free (nvm sbi) m1 Hm). intros x Hx. apply S1. intros Hin. apply Hx, (extent_free b n); [done|].
    unfold block_addr in *. lia. }
  destruct (Z.eqb_spec eo 0) as [E0|E0]; cbn [negb].
  { exists m1. split; [done|]. split.
    - intros x Hx. apply S1. unfold block_addr in *. lia.
    - intros y [Hy|Hy]; [by apply V1|lia]. }
  destruct (fill_part (with_nvm m1 sbi) mon sih (pos / 4096 + (n - 1)) (blk (b + (n - 1))) eo true)
    as (m2 & E2 & [S2 V2]); [by destruct Hg|done|done|lia|].
  exists m2. split; [exact E2|]. cbn [nvm with_nvm] in S2. specialize (He1 E0). split.
  - intros x Hx. rewrite S2, S1; [done|unfold block_addr in *; lia..].
  - intros y [Hy|Hy].
    + rewrite S2 by (unfold block_addr in *; lia). by apply V1.
    + replace (blk b + y) with (blk (b + (n - 1)) + (y - 4096 * (n - 1))) by (unfold block_addr; lia).
      rewrite V2 by lia. f_equal. lia.
Qed.

Hypothesis pid_nonneg : 0 <= current_pid e.
Hypothesis radix_serves : forall i, radix_nomem i = false.
Hypothesis copies : forall a n, uncopied a n = 0.

(** The bytes of an extent after a turn. *)
Definition turn_byte (um : memory) (buf pos bytes o : Z) : Z :=
  if (pos <=? o) && (o <? pos + bytes) then um (buf + (o - pos)) else file_byte sbi0 t0 o.

Lemma fill_extent sbi mon sih um buf pos bytes b n :
  same_geometry sbi0 sbi -> loop_mem (nvm sbi) -> tree sih = t0 -> (forall c, b <= c < b + n -> F0 c) ->
  0 <= pos < 2 ^ 62 -> 0 < bytes < 2 ^ 32 -> let off := pos mod 4096 in
  off + bytes <= 4096 * n -> 4096 * (n - 1) < off + bytes ->
  exists m', (_ ← (if negb (off =? 0) || negb (Z.land (off ⊞ bytes) (PAGE_SIZE - 1) =? 0)
                   then nova_handle_head_tail_blocks smp pi pos bytes (blk b) else mret tt);
              memcpy_to_pmem_nocache uncopied um (blk b + off) buf bytes) (World sbi mon sih) =
      Some (0, World (with_nvm m' sbi) mon sih) /\
    (forall x, ~ blk b <= x < blk (b + n) -> m' x = nvm sbi x) /\
    (forall y, 0 <= y < 4096 * n -> m' (blk b + y) = turn_byte um buf pos bytes (4096 * (pos / 4096) + y)).
Proof.
  intros Hg Hm Ht Hf Hp Hby off Hle Hgt.
  assert (0 <= off < 4096 /\ pos = 4096 * (pos / 4096) + off) as [Hoff Hpos] by (unfold off; mlia).
  assert (exists m1, (if negb (off =? 0) || negb (Z.land (off ⊞ bytes) (PAGE_SIZE - 1) =? 0)
      then nova_handle_head_tail_blocks smp pi pos bytes (blk b) else mret tt) (World sbi mon sih) =
      Some (tt, World (with_nvm m1 sbi) mon sih) /\
    (forall x, ~ blk b <= x < blk (b + n) -> m1 x = nvm sbi x) /\
    (forall y, 0 <= y < off \/ off + bytes <= y < 4096 * n ->
       m1 (blk b + y) = file_byte sbi0 t0 (4096 * (pos / 4096) + y))) as (m1 & E1 & S1 & V1).
  { destruct (negb (off =? 0) || _) eqn:Ec; [apply head_tail_ok; (done || lia)|]. exists (nvm sbi). split; [by destruct sbi|].
    split; [done|]. intros y Hy. exfalso. apply orb_false_iff in Ec as [Ec1 Ec2]. apply negb_false_iff in Ec1, Ec2.
    change (PAGE_SIZE - 1) with (Z.ones 12) in Ec2. rewrite Z.land_ones in Ec2 by lia. change (2 ^ 12) with 4096 in Ec2.
    apply Z.eqb_eq in Ec1, Ec2. rewrite u64_small in Ec2 by lia. mlia. }
  fstep E1. unfold memcpy_to_pmem_nocache. rewrite copies, u32_small, Z.sub_0_r by lia. frun. cbn [nvm with_nvm].
  eexists. split; [reflexivity|]. clearbody off. split.
  - intros x Hx. unfold copy_between. case_cmp; [|by apply S1]. exfalso. unfold block_addr in *. lia.
  - intros y Hy. unfold copy_between, turn_byte.
    destruct (Z.leb_spec (blk b + off) (blk b + y)), (Z.ltb_spec (blk b + y) (blk b + off + bytes)),
      (Z.leb_spec pos (4096 * (pos / 4096) + y)), (Z.ltb_spec (4096 * (pos / 4096) + y) (pos + bytes)); cbn [andb];
      try lia; try (apply V1; lia). f_equal. lia.
Qed.

(** An entry behind the tail. *)
Lemma append_ok sbi mon sih k tail data :
  same_geometry sbi0 sbi -> loop_mem (nvm sbi) -> ready (S k) mon -> tail0 <= tail -> tail + 40 <= limit ->
  exists mon', nova_append_file_write_entry slab_garbage smp jiffies_to_msecs e garbage pi data tail (World sbi mon sih) =
      Some (tail, World (with_nvm (copy_write_entry (nvm sbi) (va + tail) data) sbi) mon' sih) /\ ready k mon'.
Proof.
  intros Hg Hm Hr H1 H2. destruct tail_block as (T1 & T2 & T3 & T4). pose proof (tl_room tok) as [Hroom _].
  pose proof (sg_virt _ _ Hg) as Ev. pose proof (sg_blocks _ _ Hg) as Eb. destruct (we_mapped wenv) as [Hv Hmx].
  assert (mapped sbi) as Hmp by (split; rewrite Ev, ?Eb; done).
  unfold nova_append_file_write_entry.
  assert (nova_get_append_head slab_garbage smp jiffies_to_msecs e garbage pi tail We.length (World sbi mon sih) =
    Some (tail, World sbi mon sih)) as Eh.
  { apply (append_head_fits slab_garbage smp jiffies_to_msecs e garbage sbi mon sih P).
    - by apply loop_homed.
    - done.
    - rewrite Eb. apply (lb_size _ _ (we_free wenv)).
    - unfold Pi.nova_ino. rewrite (loop_pi 8 _ 64 Hm) by (simpl; lia). apply wenv.
    - done.
    - by rewrite (proj2 (Z.eqb_neq tail 0)) by lia.
    - lia.
    - unfold We.length, LAST_ENTRY in *. mlia.
    - rewrite Eb. lia. }
  fstep Eh. rewrite (proj2 (Z.eqb_neq tail 0)) by lia.
  erewrite fs_step by (apply (get_block_ok sbi mon sih tail 40); [done|split; rewrite ?Eb; lia|lia]). frun.
  unfold log_block_write_count_increase.
  destruct (ready_count_block jiffies_to_msecs e pid_nonneg (with_nvm (copy_write_entry (nvm sbi) (virt_addr sbi + tail) data) sbi)
    mon sih (get_block_number_by_virt (virt_addr sbi) (virt_addr sbi + tail)) k Hr (block_number_nonneg _ _)) as (mon' & E & Hr').
  fstep E. exists mon'. rewrite <- Ev. by split.
Qed.

(** The fields of the entry at [a]. *)
Definition entry_is (m : memory) (a pg n b : Z) : Prop :=
  nova_get_entry_type m a = FILE_WRITE /\ We.pgoff m a = pg /\ We.num_pages m a = n /\ We.invalid_pages m a = 0 /\
  Z.shiftr (We.block m a) PAGE_SHIFT = b.

Lemma load1_load8 m a : load 1 m a = load 8 m a mod 256.
Proof.
  cbn [load]. rewrite Z.mul_0_r, Z.add_0_r. rewrite Z.mul_comm, Z.mod_add by lia. by rewrite Z.mod_mod.
Qed.

Lemma copied_entry m p pg n b time pad size :
  0 <= pg < 2 ^ 63 -> 0 <= n < 2 ^ 32 -> 0 <= b < 2 ^ 51 ->
  entry_is (copy_write_entry m p (WriteEntry (4096 * b + FILE_WRITE) pg n 0 time pad size)) p pg n b.
Proof.
  intros Hpg Hn Hb. set (m' := copy_write_entry _ _ _).
  assert (We.block m' p = 4096 * b + FILE_WRITE) as Eb.
  { unfold m', copy_write_entry, We.block. cbn [we_block we_pgoff we_num_pages we_invalid_pages we_mtime we_padding we_size].
    repeat first [rewrite (load_store_ne 8 8) by lia|rewrite (load_store_ne 8 4) by lia].
    rewrite load_store_eq. apply Z.mod_small. unfold FILE_WRITE. simpl. lia. }
  split_and!.
  - unfold nova_get_entry_type. rewrite load1_load8. change (load 8 m' p) with (We.block m' p). rewrite Eb.
    unfold FILE_WRITE. mlia.
  - unfold m', copy_write_entry, We.pgoff. cbn [we_block we_pgoff we_num_pages we_invalid_pages we_mtime we_padding we_size].
    repeat first [rewrite (load_store_ne 8 8) by lia|rewrite (load_store_ne 8 4) by lia].
    rewrite load_store_eq. apply Z.mod_small. simpl. lia.
  - unfold m', copy_write_entry, We.num_pages. cbn [we_block we_pgoff we_num_pages we_invalid_pages we_mtime we_padding we_size].
    repeat first [rewrite (load_store_ne 4 8) by lia|rewrite (load_store_ne 4 4) by lia].
    rewrite load_store_eq. apply Z.mod_small. simpl. lia.
  - unfold m', copy_write_entry, We.invalid_pages. cbn [we_block we_pgoff we_num_pages we_invalid_pages we_mtime we_padding we_size].
    repeat first [rewrite (load_store_ne 4 8) by lia|rewrite (load_store_ne 4 4) by lia].
    by rewrite load_store_eq.
  - rewrite Eb, Z.shiftr_div_pow2 by (unfold PAGE_SHIFT; lia). change (2 ^ PAGE_SHIFT) with 4096. unfold FILE_WRITE. mlia.
Qed.

Lemma count_data_ok sbi sih n : forall mon w_i b k,
  ready (n + k) mon -> exists mon', count_data_blocks jiffies_to_msecs e n w_i b (World sbi mon sih) =
    Some (tt, World sbi mon' sih) /\ ready k mon'.
Proof.
  induction n as [|n IH]; intros mon w_i b k Hr; cbn [count_data_blocks]; [by exists mon|].
  destruct (ready_count_block jiffies_to_msecs e pid_nonneg sbi mon sih (u64 (i32 (b + w_i - 1))) (n + k) Hr) as (m1 & E & Hr1);
    [apply u64_range|]. fstep E. by apply IH.
Qed.

(** The locals after a turn that took [n] blocks from [b] on for [bytes] bytes. *)
Definition next_locals (l : write_locals) (b n bytes : Z) : write_locals :=
  WriteLocals (wl_pos l + bytes) (wl_count l - bytes) (wl_num_blocks l - n) (wl_buf l + bytes) (wl_tail l + 40)
    (if wl_begin l =? 0 then wl_tail l else wl_begin l) (wl_written l + bytes) b n.

(** What the locals say while there is something left to write. *)
Record locals_ok (l : write_locals) : Prop := {
  lo_pos : 0 <= wl_pos l /\ wl_pos l + wl_count l < 2 ^ 62;
  lo_count : 0 < wl_count l < 2 ^ 32;
  lo_blocks : wl_num_blocks l = (wl_count l + wl_pos l mod 4096 - 1) / 4096 + 1;
  lo_buf : 0 <= wl_buf l /\ wl_buf l + wl_count l < 2 ^ 64;
  lo_tail : tail0 <= wl_tail l /\ wl_tail l + 40 <= limit;
}.

Definition turn_bytes (l : write_locals) (n : Z) : Z := Z.min (wl_count l) (4096 * n - wl_pos l mod 4096).

Lemma turn_bytes_ok l n : locals_ok l -> 0 < n <= wl_num_blocks l ->
  let off := wl_pos l mod 4096 in let bytes := turn_bytes l n in
  0 < bytes < 2 ^ 32 /\ off + bytes <= 4096 * n /\ 4096 * (n - 1) < off + bytes /\ 0 <= off < 4096 /\
  (bytes < wl_count l -> off + bytes = 4096 * n /\ n < wl_num_blocks l) /\ (bytes = wl_count l -> n = wl_num_blocks l).
Proof.
  intros [H1 H2 H3 H4 H5] Hn off bytes. unfold bytes, turn_bytes. fold off. rewrite H3 in *. fold off in Hn |- *.
  assert (0 <= off < 4096) by (unfold off; mlia). clearbody off. mlia.
Qed.

(** The state of the loop. *)
Record looping (sbi : nova_sb_info) (F : Z -> Prop) : Prop := {
  lp_geometry : same_geometry sbi0 sbi;
  lp_free : lb_free sbi F;
  lp_less b : F b -> F0 b;
  lp_mem : loop_mem (nvm sbi);
}.

Lemma tail_window x tail : tail0 <= tail -> tail + 40 <= limit -> va + tail <= x < va + tail + 40 -> ~ in_free x.
Proof.
  intros H1 H2 Hx (b & Hb & Hbx). destruct tail_block as (T1 & T2 & _). destruct (we_log wenv _ (tl_page tok)) as [_ Hf].
  apply Hf. rewrite (block_apart (tail0 / 4096) x b); [done|lia|done].
Qed.

Lemma looping_turn sbi F sbi1 b n m1 m2 tail :
  looping sbi F -> (forall c, b <= c < b + n -> F c) -> tail0 <= tail -> tail + 40 <= limit ->
  same_geometry sbi sbi1 -> lb_free sbi1 (fun c => F c /\ ~ b <= c < b + n) -> nvm sbi1 = nvm sbi ->
  (forall x, ~ blk b <= x < blk (b + n) -> m1 x = nvm sbi x) ->
  (forall x, ~ va + tail <= x < va + tail + 40 -> m2 x = m1 x) ->
  looping (with_nvm m2 sbi1) (fun c => F c /\ ~ b <= c < b + n).
Proof.
  intros [G1 G2 G3 G4] Hf H1 H2 Hg Hfr Hm S1 S2. split.
  - pose proof (same_geometry_trans _ _ _ G1 Hg) as G. by destruct G.
  - by apply lb_free_nvm.
  - intros c [Hc _]. by apply G3.
  - cbn [nvm with_nvm]. intros x Hx1 Hx2. rewrite S2 by lia. rewrite S1; [by apply G4|].
    intros Hin. apply Hx1, (extent_free b n); [|done]. intros c Hc. by apply G3, Hf.
Qed.

Lemma write_turn_ok sbi F mon sih um inode time l k :
  looping sbi F -> tree sih = t0 -> locals_ok l -> 0 <= vfs_size inode < 2 ^ 62 ->
  ready (Z.to_nat (wl_num_blocks l) + S k) mon ->
  (exists sbi' mon' l', write_turn slab_garbage smp jiffies_to_msecs e garbage uncopied um inode pi time l (World sbi mon sih) =
      Some ((l', Some (- ENOSPC), false), World sbi' mon' sih) /\ looping sbi' F /\ nvm sbi' = nvm sbi /\ ready k mon' /\
      wl_begin l' = wl_begin l) \/
  (exists n b sbi' mon', 0 < n <= wl_num_blocks l /\ (forall c, b <= c < b + n -> F c) /\
    let bytes := turn_bytes l n in let tail := wl_tail l in
    write_turn slab_garbage smp jiffies_to_msecs e garbage uncopied um inode pi time l (World sbi mon sih) =
      Some ((next_locals l b n bytes, None, true), World sbi' mon' sih) /\
    looping sbi' (fun c => F c /\ ~ b <= c < b + n) /\
    (forall x, ~ blk b <= x < blk (b + n) -> ~ va + tail <= x < va + tail + 40 -> nvm sbi' x = nvm sbi x) /\
    (forall y, 0 <= y < 4096 * n ->
       nvm sbi' (blk b + y) = turn_byte um (wl_buf l) (wl_pos l) bytes (4096 * (wl_pos l / 4096) + y)) /\
    entry_is (nvm sbi') (va + tail) (wl_pos l / 4096) n b /\
    ready (Z.to_nat (wl_num_blocks l - n) + k) mon').
Proof.
  intros HL Ht Hl Hsz Hr. pose proof HL as [Hg Hf Hless Hm]. pose proof Hl as [L1 L2 L3 L4 L5].
  pose proof (lb_size _ _ Hf) as Hnb. pose proof (sg_virt _ _ Hg) as Ev. pose proof (sg_blocks _ _ Hg) as Eb.
  assert (0 < wl_num_blocks l < 2147483648) as Hnum by (rewrite L3; mlia).
  assert (Pi.i_blk_type (nvm sbi) pi = 0) as Hty by (rewrite <- (we_type wenv); apply (loop_pi 1 _ 3 Hm); simpl; lia).
  unfold write_turn, s_blocksize_bits. frun.
  unfold nova_inode_blk_size, blk_type_to_size. rewrite Hty. change (blk_type_to_shift 0) with (Some 12).
  cbn [fmap option_fmap option_map]. change (Z.shiftl 1 12) with 4096. erewrite fs_step by reflexivity.
  change (4096 - 1) with (Z.ones 12). rewrite !Z.land_ones by lia. change (2 ^ 12) with 4096.
  rewrite !Z.shiftr_div_pow2 by lia. change (2 ^ 12) with 4096. rewrite (u64_small (wl_pos l / 4096)) by mlia.
  rewrite (u32_small (wl_num_blocks l)) by lia.
  destruct (lb_extent_data sbi F smp pi (wl_blocknr l) (wl_num_blocks l) Hf) as (ret & nr & sbi1 & E1 & Hg1 & _ & Hm1 & Hout);
    [rewrite (sg_cpus _ _ Hg); apply wenv|done|lia|].
  fstep (on_sbi_run (fun s => nova_new_data_blocks s smp pi (wl_blocknr l) (wl_num_blocks l) 0) (World sbi mon sih) _ _ E1).
  cbn [w_mon w_sih]. cbv beta iota.
  destruct Hout as [(Hret & Hin & Hf1)|(-> & -> & Hf1)].
  2:{ left. erewrite fs_step by reflexivity. cbn [Z.leb Z.compare Z.opp ENOSPC]. eexists sbi1, mon, _. split; [reflexivity|].
      split; [|split; [done|split; [by eapply ready_less; [exact Hr|lia]|done]]]. split; auto.
      - by eapply same_geometry_trans.
      - by rewrite Hm1. }
  right. exists ret, nr. pose proof (turn_bytes_ok l ret Hl Hret) as (B1 & B2 & B3 & B4 & B5 & B6). cbv zeta in *.
  set (bytes := turn_bytes l ret) in *.
  destruct (count_data_ok sbi1 sih (Z.to_nat ret) mon 0 nr (Z.to_nat (wl_num_blocks l - ret) + S k)) as (mon1 & E2 & Hr1).
  { eapply ready_less; [exact Hr|lia]. }
  fstep E2. rewrite (proj2 (Z.leb_gt ret 0)) by lia. frun. unfold s_blocksize, NOVA_DEF_BLOCK_SIZE_4K.
  cbn [wl_count wl_pos wl_buf wl_tail wl_begin wl_written wl_num_blocks].
  rewrite (u64_small (4096 * ret - _)) by lia.
  assert ((if wl_count l <? 4096 * ret - wl_pos l mod 4096 then wl_count l else 4096 * ret - wl_pos l mod 4096) = bytes) as ->
    by (unfold bytes, turn_bytes; destruct (Z.ltb_spec (wl_count l) (4096 * ret - wl_pos l mod 4096)); lia).
  assert (forall c, nr <= c < nr + ret -> F0 c) as Hin0 by (intros c Hc; by apply Hless, Hin).
  assert (0 < nr /\ nr + ret <= num_blocks sbi0) as Hnr.
  { pose proof (lb_bounds _ _ nr (we_free wenv) (Hin0 nr ltac:(lia))).
    pose proof (lb_bounds _ _ (nr + ret - 1) (we_free wenv) (Hin0 (nr + ret - 1) ltac:(lia))). lia. }
  rewrite (sg_virt _ _ Hg1), Ev, nova_get_block_off_alt by lia.
  destruct (block_position sbi0 nr (we_mapped wenv) ltac:(lia)) as (_ & _ & ->).
  destruct (fill_extent sbi1 mon1 sih um (wl_buf l) (wl_pos l) bytes nr ret) as (m2 & E3 & S2 & V2);
    [by eapply same_geometry_trans|by rewrite Hm1|done|done|lia|lia|lia|lia|]. cbv zeta in E3.
  rewrite (fs_step_seq _ _ _ _ _ _ E3). rewrite (u64_small (bytes - 0)), Z.sub_0_r by lia.
  rewrite (u32_small ret) by lia. replace (4096 * nr - (4096 * nr) mod 256 + FILE_WRITE) with (4096 * nr + FILE_WRITE) by mlia.
  assert (same_geometry sbi0 (with_nvm m2 sbi1)) as Hg2 by (pose proof (same_geometry_trans _ _ _ Hg Hg1) as G; by destruct G).
  assert (loop_mem m2) as Hlm2.
  { apply (loop_mem_free (nvm sbi) m2 Hm). intros x Hx. rewrite S2, Hm1; [done|]. intros Hx'. apply Hx.
    by apply (extent_free nr ret). }
  destruct (append_ok (with_nvm m2 sbi1) mon1 sih (Z.to_nat (wl_num_blocks l - ret) + k) (wl_tail l)
    (WriteEntry (4096 * nr + FILE_WRITE) (wl_pos l / 4096) ret 0 (u32 time) garbage
       (if u64 (vfs_size inode) <? u64 (wl_pos l + bytes) then u64 (wl_pos l + bytes) else u64 (vfs_size inode))) Hg2 Hlm2)
    as (mon2 & E4 & Hr2); [eapply ready_less; [exact Hr1|lia]|lia|lia|].
  fstep E4. destruct tail_block as (T1 & T2 & T3 & T4).
  rewrite (proj2 (Z.eqb_neq (wl_tail l) 0)) by lia. rewrite Z.eqb_refl, (proj2 (Z.ltb_lt 0 bytes)) by lia.
  cbn [negb wl_count wl_pos wl_buf wl_tail wl_begin wl_written wl_num_blocks nvm with_nvm]. unfold We.length.
  assert (bytes <= wl_count l) as Hbc by (unfold bytes, turn_bytes; lia).
  rewrite i64_small, (u64_small (wl_count l - bytes)), (u64_small (wl_num_blocks l - ret)), (u64_small (wl_buf l + bytes)),
    (u64_small (wl_tail l + 40)) by lia.
  set (m3 := copy_write_entry m2 (va + wl_tail l) _).
  assert (forall x, ~ va + wl_tail l <= x < va + wl_tail l + 40 -> m3 x = m2 x) as S3
    by (intros x Hx; by apply copy_write_entry_same).
  exists (with_nvm m3 sbi1), mon2. split; [done|]. split; [intros c Hc; by apply Hin|]. split; [reflexivity|].
  split; [apply (looping_turn sbi F sbi1 nr ret m2 m3 (wl_tail l)); auto; [intros c Hc; by apply Hin|lia|lia|by rewrite <- Hm1]|]. cbn [nvm with_nvm].
  split; [intros x Hx1 Hx2; rewrite S3, S2, Hm1 by done; done|]. split; [|split; [|done]].
  - intros y Hy. rewrite S3; [by apply V2|]. intros Hx.
    apply (tail_window _ _ (proj1 L5) (proj2 L5) Hx), (extent_free nr ret); [done|]. unfold block_addr in *. lia.
  - apply copied_entry; [mlia|lia|lia].
Qed.

(** ** The loop *)

(** Extents of pages: the first page, the number of pages and the first block. *)
Abbreviation extent := (Z * Z * Z)%type.

Fixpoint chained (pg : Z) (es : list extent) (last : Z) : Prop :=
  match es with
  | [] => pg = last
  | (p, n, b) :: es => p = pg /\ 0 < n /\ chained (pg + n) es last
  end.

(** A block of one of the extents. *)
Definition in_extents (es : list extent) (c : Z) : Prop := exists p n b, (p, n, b) ∈ es /\ b <= c < b + n.

Lemma in_extents_cons p n b es c : in_extents ((p, n, b) :: es) c <-> b <= c < b + n \/ in_extents es c.
Proof.
  split.
  - intros (p' & n' & b' & [[= -> -> ->]|Hin]%elem_of_cons & Hc); [by left|]. right. by exists p', n', b'.
  - intros [Hc|(p' & n' & b' & Hin & Hc)]; [exists p, n, b; split; [by left|done]|exists p', n', b'; split; [by right|done]].
Qed.

(** The extents [es] of a write of [count] bytes at [pos] are filled, with their entries from
    [tail] on. *)
Record extents_ok (um : memory) (l : write_locals) (sbi : nova_sb_info) (F : Z -> Prop)
    (es : list extent) (sbi' : nova_sb_info) (F' : Z -> Prop) : Prop := {
  ex_chain : chained (wl_pos l / 4096) es (wl_pos l / 4096 + wl_num_blocks l);
  ex_taken c : in_extents es c -> F c;
  ex_free c : F' c <-> F c /\ ~ in_extents es c;
  ex_entry i p n b : es !! i = Some (p, n, b) -> entry_is (nvm sbi') (va + wl_tail l + 40 * Z.of_nat i) p n b;
  ex_data p n b y : (p, n, b) ∈ es -> 0 <= y < 4096 * n ->
    nvm sbi' (blk b + y) = turn_byte um (wl_buf l) (wl_pos l) (wl_count l) (4096 * p + y);
  ex_same x : (forall c, in_extents es c -> ~ blk c <= x < blk (c + 1)) ->
    ~ va + wl_tail l <= x < va + wl_tail l + 40 * Z.of_nat (length es) -> nvm sbi' x = nvm sbi x;
}.

(** The locals at the end. *)
Definition final_locals (l l' : write_locals) (es : list extent) : Prop :=
  wl_pos l' = wl_pos l + wl_count l /\ wl_written l' = wl_written l + wl_count l /\
  wl_tail l' = wl_tail l + 40 * Z.of_nat (length es) /\
  wl_begin l' = (if wl_begin l =? 0 then wl_tail l else wl_begin l).

Lemma chained_length pg es last : chained pg es last -> Z.of_nat (length es) <= last - pg /\ (last = pg -> es = []).
Proof.
  revert pg. induction es as [|[[p n] b] es IH]; intros pg; cbn [chained length].
  - intros ->. split; [lia|done].
  - intros (_ & Hn & Hc). destruct (IH _ Hc) as [Hl He]. split; [lia|]. intros ->. lia.
Qed.

(** The first extent, and the others. *)
Lemma extents_cons um l n b sbi F sbi1 es sbi2 F2 :
  locals_ok l -> 0 < n <= wl_num_blocks l -> (forall c, b <= c < b + n -> F c) ->
  (forall c, F c -> F0 c) -> wl_tail l + 40 * wl_num_blocks l <= limit ->
  let bytes := turn_bytes l n in
  (forall x, ~ blk b <= x < blk (b + n) -> ~ va + wl_tail l <= x < va + wl_tail l + 40 -> nvm sbi1 x = nvm sbi x) ->
  (forall y, 0 <= y < 4096 * n ->
     nvm sbi1 (blk b + y) = turn_byte um (wl_buf l) (wl_pos l) bytes (4096 * (wl_pos l / 4096) + y)) ->
  entry_is (nvm sbi1) (va + wl_tail l) (wl_pos l / 4096) n b ->
  extents_ok um (next_locals l b n bytes) sbi1 (fun c => F c /\ ~ b <= c < b + n) es sbi2 F2 ->
  extents_ok um l sbi F ((wl_pos l / 4096, n, b) :: es) sbi2 F2.
Proof.
  intros Hl Hn Hb HF Hlim bytes S1 V1 En [X1 X2 X3 X4 X5 X6].
  pose proof (turn_bytes_ok l n Hl Hn) as (B1 & B2 & B3 & B4 & B5 & B6). cbv zeta in *. fold bytes in B1, B2, B3, B5, B6.
  pose proof Hl as [L1 L2 L3 L4 L5]. cbn [next_locals wl_pos wl_count wl_num_blocks wl_buf wl_tail] in *.
  destruct (chained_length _ _ _ X1) as [Hlen Hnil]. set (pos := wl_pos l) in *. set (pg := pos / 4096) in *.
  assert (pos = 4096 * pg + pos mod 4096) as Hpos by (unfold pg; mlia).
  assert (bytes <= wl_count l) as Hbc by (unfold bytes, turn_bytes; lia).
  assert (es <> [] -> (pos + bytes) / 4096 = pg + n /\ pos + bytes = 4096 * (pg + n)) as Hal.
  { intros Hne. assert (n <> wl_num_blocks l) by (intros ->; apply Hne, Hnil; lia).
    destruct B5 as [Ho _]; [destruct (Z.eq_dec bytes (wl_count l)); [tauto|lia]|]. unfold pg. mlia. }
  (* the entries of the others are in the window, their blocks are free ones *)
  assert (forall x, va + wl_tail l <= x < va + wl_tail l + 40 * (1 + Z.of_nat (length es)) -> ~ in_free x) as Hwin.
  { intros x Hx (c & Hc & Hcx). destruct tail_block as (T1 & T2 & _). destruct (we_log wenv _ (tl_page tok)) as [_ Hf].
    apply Hf. rewrite (block_apart (tail0 / 4096) x c); [done|lia|done]. }
  assert (forall y, 0 <= y < 4096 * n -> nvm sbi2 (blk b + y) = nvm sbi1 (blk b + y)) as Hkeep.
  { intros y Hy. assert (in_free (blk b + y)) as Hfr.
    { apply (extent_free b n); [intros c Hc; by apply HF, Hb|]. unfold block_addr. lia. }
    apply X6.
    - intros c [_ Hc]%X2 Hcx. apply Hc. unfold block_addr in Hcx. lia.
    - intros Hx. by apply (Hwin (blk b + y)); [lia|]. }
  assert (forall x, va + wl_tail l <= x < va + wl_tail l + 40 -> nvm sbi2 x = nvm sbi1 x) as Hent.
  { intros x Hx. apply X6; [|lia]. intros c [Hc _]%X2 Hcx. apply (Hwin x); [lia|]. exists c. split; [by apply HF|done]. }
  split; change (wl_pos l) with pos; change (pos / 4096) with pg.
  - cbn [chained]. split; [done|]. split; [lia|]. destruct es as [|e' es'].
    + cbn [chained] in *. lia.
    + destruct (Hal ltac:(done)) as [Ea _]. rewrite Ea in X1.
      replace (pg + wl_num_blocks l) with (pg + n + (wl_num_blocks l - n)) by lia. exact X1.
  - intros c [Hc|Hc]%in_extents_cons; [by apply Hb|]. by apply X2 in Hc as [? _].
  - intros c. rewrite X3, in_extents_cons. tauto.
  - intros [|i] p' n' b'; cbn [lookup list_lookup].
    + intros [= <- <- <-]. rewrite Z.mul_0_r, Z.add_0_r. destruct En as (E1 & E2 & E3 & E4 & E5).
      unfold entry_is, nova_get_entry_type, We.pgoff, We.num_pages, We.invalid_pages, We.block in *.
      rewrite !(load_ext _ (nvm sbi2) (nvm sbi1)) by (intros x Hx; apply Hent; simpl in Hx; lia). done.
    + intros Hi. replace (va + wl_tail l + 40 * Z.of_nat (S i)) with (va + (wl_tail l + 40) + 40 * Z.of_nat i) by lia.
      by apply X4.
  - intros p' n' b' y [[= -> -> ->]|Hin]%elem_of_cons Hy.
    + rewrite Hkeep, V1 by done. unfold turn_byte.
      destruct (Z.leb_spec pos (4096 * pg + y)), (Z.ltb_spec (4096 * pg + y) (pos + bytes)),
        (Z.ltb_spec (4096 * pg + y) (pos + wl_count l)); cbn [andb]; try done; lia.
    + rewrite (X5 p' n' b' y Hin Hy). destruct (Hal ltac:(by destruct es; [apply elem_of_nil in Hin|])) as [Ea Eb'].
      assert (pg + n <= p') as Hp'.
      { rewrite Ea in X1. clear -X1 Hin. revert X1 Hin. generalize (pg + n) (pg + n + (wl_num_blocks l - n)). induction es as [|[[p0 n0] b0] es IH];
          intros q last Hc Hin; [by apply elem_of_nil in Hin|]. destruct Hc as (-> & Hn0 & Hc).
        apply elem_of_cons in Hin as [[= -> -> ->]|Hin]; [lia|]. specialize (IH _ _ Hc Hin). lia. }
      unfold turn_byte. rewrite (proj2 (Z.leb_le (pos + bytes) _)), (proj2 (Z.leb_le pos _)) by lia. cbn [andb].
      replace (pos + bytes + (wl_count l - bytes)) with (pos + wl_count l) by lia.
      destruct (_ <? _); [f_equal; lia|done].
  - intros x Hx1 Hx2. cbn [length] in Hx2. rewrite X6.
    + apply S1; [|lia]. intros Hin. apply (Hx1 (b + (x - blk b) / 4096)); unfold block_addr in *; [|mlia].
      apply in_extents_cons. left. mlia.
    + intros c Hc. apply Hx1, in_extents_cons. by right.
    + lia.
Qed.

Lemma next_locals_ok l b n : locals_ok l -> 0 < n <= wl_num_blocks l -> wl_tail l + 40 * wl_num_blocks l <= limit ->
  let l' := next_locals l b n (turn_bytes l n) in
  (wl_num_blocks l' = 0 /\ turn_bytes l n = wl_count l) \/
  (locals_ok l' /\ 0 < wl_num_blocks l' < wl_num_blocks l /\ wl_tail l' + 40 * wl_num_blocks l' <= limit).
Proof.
  intros Hl Hn Hlim l'. pose proof (turn_bytes_ok l n Hl Hn) as (B1 & B2 & B3 & B4 & B5 & B6). cbv zeta in *.
  pose proof Hl as [L1 L2 L3 L4 L5]. set (bytes := turn_bytes l n) in *.
  destruct (Z.eq_dec bytes (wl_count l)) as [E|E].
  - left. split; [|done]. unfold l'. cbn [next_locals wl_num_blocks]. rewrite <- (B6 E). lia.
  - right. assert (bytes <= wl_count l) by (unfold bytes, turn_bytes; lia). destruct (B5 ltac:(lia)) as [Ho Hn'].
    unfold l'. cbn [next_locals wl_num_blocks wl_pos wl_count wl_buf wl_tail]. split; [|lia].
    split; cbn [next_locals wl_num_blocks wl_pos wl_count wl_buf wl_tail]; try lia.
    replace ((wl_pos l + bytes) mod 4096) with 0 by mlia. rewrite L3. mlia.
Qed.

Lemma extents_nil um l sbi F : wl_num_blocks l = 0 -> extents_ok um l sbi F [] sbi F.
Proof.
  intros H0. split; try done.
  - cbn [chained]. lia.
  - intros c (p & n & b & Hin & _). by apply elem_of_nil in Hin.
  - intros c. split; [|tauto]. intros Hc. split; [done|]. intros (p & n & b & Hin & _). by apply elem_of_nil in Hin.
  - intros p n b y Hin. by apply elem_of_nil in Hin.
Qed.

(** The loop over the extents runs to the end, or out of space. *)
Lemma write_loop_ok um inode time sih fuel : forall sbi F mon l k,
  looping sbi F -> tree sih = t0 -> locals_ok l -> 0 <= vfs_size inode < 2 ^ 62 ->
  (Z.to_nat (wl_num_blocks l) <= fuel)%nat -> wl_tail l + 40 * wl_num_blocks l <= limit ->
  ready (Z.to_nat (2 * wl_num_blocks l) + k) mon ->
  exists sbi' F' mon' l' ret, write_loop slab_garbage smp jiffies_to_msecs e garbage uncopied fuel um inode pi time l
      (World sbi mon sih) = Some ((l', ret), World sbi' mon' sih) /\ looping sbi' F' /\ ready k mon' /\
    match ret with
    | Some r => r = - ENOSPC
    | None => exists es, es <> [] /\ extents_ok um l sbi F es sbi' F' /\ final_locals l l' es
    end.
Proof.
  induction fuel as [|fuel IH]; intros sbi F mon l k HL Ht Hl Hsz Hf Hlim Hr; pose proof Hl as [L1 L2 L3 L4 L5];
    assert (0 < wl_num_blocks l) as Hnb by (rewrite L3; mlia); [lia|].
  cbn [write_loop]. rewrite (proj2 (Z.ltb_lt _ _) Hnb). cbn [negb].
  destruct (write_turn_ok sbi F mon sih um inode time l (Z.to_nat (2 * wl_num_blocks l) - Z.to_nat (wl_num_blocks l) - 1 + k))
    as [(sbi1 & mon1 & l1 & E1 & HL1 & _ & Hr1 & _)|(n & b & sbi1 & mon1 & Hn & Hb & E1 & HL1 & S1 & V1 & En & Hr1)]; auto.
  { eapply ready_less; [exact Hr|lia]. }
  { exists sbi1, F, mon1, l1, (Some (- ENOSPC)). fstep E1. split_and!; try done. eapply ready_less; [exact Hr1|lia]. }
  cbv zeta in *. fstep E1. cbv beta iota. pose proof HL as [_ _ Hless _].
  destruct (next_locals_ok l b n Hl Hn Hlim) as [[H0 Hc0]|(Hl' & Hnb' & Hlim')]; cbv zeta in *.
  - exists sbi1, (fun c => F c /\ ~ b <= c < b + n), mon1, (next_locals l b n (turn_bytes l n)), None.
    split; [destruct fuel; cbn [write_loop]; by rewrite H0|]. split; [done|]. split; [eapply ready_less; [exact Hr1|lia]|].
    exists [(wl_pos l / 4096, n, b)]. split; [done|]. split.
    + eapply extents_cons; eauto. by apply extents_nil.
    + unfold final_locals. cbn [next_locals wl_pos wl_written wl_tail wl_begin length]. rewrite Hc0. split_and!; lia || done.
  - destruct (IH sbi1 (fun c => F c /\ ~ b <= c < b + n) mon1 (next_locals l b n (turn_bytes l n)) k)
      as (sbi2 & F2 & mon2 & l2 & ret & E2 & HL2 & Hr2 & Hout); auto.
    { lia. }
    { eapply ready_less; [exact Hr1|]. cbn [next_locals wl_num_blocks] in *. lia. }
    exists sbi2, F2, mon2, l2, ret. split; [exact E2|]. split; [done|]. split; [done|].
    destruct ret as [r|]; [done|]. destruct Hout as (es & Hne & Hex & Hfl).
    exists ((wl_pos l / 4096, n, b) :: es). split; [done|]. split; [by eapply extents_cons|].
    unfold final_locals in *. cbn [next_locals wl_pos wl_count wl_written wl_tail wl_begin length] in *.
    destruct Hfl as (-> & -> & -> & ->). split_and!; try lia.
    destruct tail_block as (T1 & T2 & T3 & T4). destruct (wl_begin l =? 0) eqn:Ew; [|by rewrite Ew].
    by rewrite (proj2 (Z.eqb_neq _ 0)) by lia.
Qed.

(** ** Entering the pages into the tree *)

Lemma log_apart_pi a : entry_in_log a -> a + 40 <= pi \/ pi + 128 <= a.
Proof.
  intros (b & Hb & H1 & H2). destruct (we_pi wenv b) as [?|?]; [by right; left|lia..].
Qed.

Lemma pi_block sbi : same_geometry sbi0 sbi -> get_block_number_by_virt (virt_addr sbi) pi < BLOCKS_MAX.
Proof.
  intros Hg. rewrite (sg_virt _ _ Hg). destruct (we_pi_page wenv) as [H1 H2]. pose proof (we_small wenv).
  pose proof (we_aligned wenv). destruct (we_mapped wenv) as [Hv Hmx].
  unfold get_block_number_by_virt, block_addr in *. repeat case_cmp; unfold BLOCKS_MAX in *; try lia.
  all: rewrite u64_small, Z.shiftr_div_pow2 by lia; change (2 ^ 12) with 4096 in *; mlia.
Qed.

(** After the loop: the extents [es], their entries behind the old tail and the device. *)
(** The log ends behind entries for the extents [es], written from the old tail on. *)
Definition committed (m : memory) (es : list (Z * Z * Z)) : Prop :=
  Pi.log_tail m pi = tail0 + 40 * Z.of_nat (length es) /\
  forall i p n b, es !! i = Some (p, n, b) -> entry_is m (va + tail0 + 40 * Z.of_nat i) p n b.

Section assign.
Context (es : list extent) (mL : memory) (pg last : Z).
Hypothesis es_chain : chained pg es last.
Hypothesis es_pages : 0 <= pg /\ last < 2 ^ 62.
Hypothesis es_room : tail0 + 40 * Z.of_nat (length es) <= limit.
Hypothesis es_taken : forall c, in_extents es c -> F0 c.
Hypothesis es_entry : forall i p n b, es !! i = Some (p, n, b) -> entry_is mL (va + tail0 + 40 * Z.of_nat i) p n b.
Hypothesis es_mem : loop_mem mL.

Definition new_entry (i : nat) : Z := va + tail0 + 40 * Z.of_nat i.
Definition new_tail : Z := tail0 + 40 * Z.of_nat (length es).

(** Not a byte of the number of blocks, of the tail or of a counter of an entry. *)
Definition quiet (x : Z) : Prop :=
  ~ pi + 32 <= x < pi + 40 /\ ~ pi + 80 <= x < pi + 88 /\ forall p a, t0 !! p = Some a -> ~ a + 20 <= x < a + 24.

(** The pages before [cur] are assigned. *)
Record assigned (cur : Z) (sbi : nova_sb_info) (F : Z -> Prop) (t : gmap Z Z) : Prop := {
  as_geometry : same_geometry sbi0 sbi;
  as_free : lb_free sbi F;
  as_taken c : in_extents es c -> ~ F c;
  as_used p a : ~ pg <= p < cur -> t0 !! p = Some a -> ~ F (entry_block m0 a p);
  as_mem x : quiet x -> nvm sbi x = mL x;
  as_tail : Pi.log_tail (nvm sbi) pi = new_tail;
  as_count p a : t0 !! p = Some a ->
    We.invalid_pages (nvm sbi) a + Z.of_nat (slots t a) = We.invalid_pages m0 a + Z.of_nat (slots t0 a);
  as_old p : ~ pg <= p < cur -> t !! p = t0 !! p;
  as_new p : pg <= p < cur -> exists i q n b, es !! i = Some (q, n, b) /\ q <= p < q + n /\ t !! p = Some (new_entry i);
}.

Lemma new_in_log i : (i < length es)%nat -> entry_in_log (new_entry i).
Proof.
  intros Hi. destruct tail_block as (T1 & T2 & _). exists (tail0 / 4096). split; [apply tok|]. unfold new_entry. lia.
Qed.

Lemma new_apart i p a : (i < length es)%nat -> t0 !! p = Some a -> a + 40 <= new_entry i \/ new_entry i + 40 <= a.
Proof. intros Hi Ha. pose proof (tl_fresh tok p a Ha). unfold new_entry. lia. Qed.

Lemma old_quiet p a x : t0 !! p = Some a -> a <= x < a + 20 -> quiet x.
Proof.
  intros Ha Hx. pose proof (log_apart_pi a (we_entry wenv p a Ha)). split; [lia|]. split; [lia|].
  intros q b Hb. destruct (decide (a = b)) as [->|Hne]; [lia|]. pose proof (we_apart wenv p q a b Ha Hb Hne). lia.
Qed.

Lemma new_quiet i x : (i < length es)%nat -> new_entry i <= x < new_entry i + 40 -> quiet x.
Proof.
  intros Hi Hx. pose proof (log_apart_pi _ (new_in_log i Hi)). split; [lia|]. split; [lia|].
  intros q b Hb. pose proof (new_apart i q b Hi Hb). lia.
Qed.

(** The data of the file is apart from the log and the inode. *)
Lemma data_quiet c x : blk c <= x < blk (c + 1) -> ~ logb c ->
  (F0 c \/ exists p a, t0 !! p = Some a /\ entry_block m0 a p = c) -> quiet x.
Proof.
  intros Hx Hl Hc. assert (pi + 128 <= blk c \/ blk (c + 1) <= pi) as Hp by (apply (we_pi wenv); tauto).
  split; [lia|]. split; [lia|]. intros q a (b & Hb & H1 & H2)%(we_entry wenv) Hin.
  apply Hl. rewrite (block_apart c x b); [done|done|lia].
Qed.

Lemma block_not_log p a : t0 !! p = Some a -> ~ logb (entry_block m0 a p).
Proof. intros Ha Hb. by apply (we_data wenv _ p a Hb Ha). Qed.

Lemma low_quiet x : x < blk 1 -> quiet x.
Proof.
  intros Hx. destruct (we_pi_page wenv) as [Hp _]. split; [lia|]. split; [lia|].
  intros q a (b & Hb & H1 & H2)%(we_entry wenv) Hin. destruct (we_log wenv b Hb) as [Hb0 _].
  unfold block_addr in *. lia.
Qed.

Section state.
Context (cur : Z) (sbi : nova_sb_info) (F : Z -> Prop) (t : gmap Z Z) (A : assigned cur sbi F t).

Lemma as_old_entry p a : t0 !! p = Some a ->
  We.block (nvm sbi) a = We.block m0 a /\ We.pgoff (nvm sbi) a = We.pgoff m0 a /\
  We.num_pages (nvm sbi) a = We.num_pages m0 a /\ forall q, entry_block (nvm sbi) a q = entry_block m0 a q.
Proof.
  intros Ha. destruct (loop_entry mL p a es_mem Ha) as (E1 & E2 & E3 & _).
  assert (forall n o, 0 <= o -> o + Z.of_nat n <= 20 -> load n (nvm sbi) (a + o) = load n mL (a + o)) as Hl.
  { intros n o H1 H2. apply load_ext. intros x Hx. apply (as_mem _ _ _ _ A), (old_quiet p a x Ha). lia. }
  assert (We.block (nvm sbi) a = We.block m0 a) as B1.
  { rewrite <- E1. unfold We.block. rewrite <- (Z.add_0_r a). apply (Hl 8%nat 0); simpl; lia. }
  assert (We.pgoff (nvm sbi) a = We.pgoff m0 a) as B2 by (rewrite <- E2; apply (Hl 8%nat 8); simpl; lia).
  split_and!; [done|done|rewrite <- E3; apply (Hl 4%nat 16); simpl; lia|].
  intros q. unfold entry_block. by rewrite B1, B2.
Qed.

Lemma as_new_entry i p n b : es !! i = Some (p, n, b) -> entry_is (nvm sbi) (new_entry i) p n b.
Proof.
  intros Hi. pose proof (es_entry i p n b Hi) as He. fold (new_entry i) in He. pose proof (lookup_lt_Some _ _ _ Hi) as Hlt.
  unfold entry_is, nova_get_entry_type, We.pgoff, We.num_pages, We.invalid_pages, We.block in *.
  by rewrite !(load_ext _ (nvm sbi) mL) by (intros x Hx; apply (as_mem _ _ _ _ A), (new_quiet i x Hlt); simpl in Hx; lia).
Qed.

Lemma as_pi n o : 0 <= o -> o + Z.of_nat n <= 32 \/ (40 <= o /\ o + Z.of_nat n <= 80) ->
  load n (nvm sbi) (pi + o) = load n m0 (pi + o).
Proof.
  intros H0 H1. rewrite <- (loop_pi n mL o es_mem) by lia. apply load_ext. intros x Hx.
  apply (as_mem _ _ _ _ A). split; [lia|]. split; [lia|]. intros q a Ha Hin.
  pose proof (log_apart_pi a (we_entry wenv q a Ha)). lia.
Qed.

Lemma as_homed : homed sbi P pi.
Proof.
  apply (homed_frame sbi0); [apply wenv|apply wenv| |apply A| |].
  - destruct (we_log wenv _ (tl_page tok)) as [Hb _]. lia.
  - intros x Hx. rewrite (as_mem _ _ _ _ A) by (by apply low_quiet). apply es_mem.
    + intros (c & Hc & Hcx). pose proof (lb_bounds _ _ c (we_free wenv) Hc). unfold block_addr in *. lia.
    + destruct tail_block as (T1 & _). destruct (we_log wenv _ (tl_page tok)) as [Hb _]. unfold block_addr in *. lia.
  - apply (as_pi 8 64); simpl; lia.
Qed.

Lemma as_type : Pi.i_blk_type (nvm sbi) pi = 0.
Proof. rewrite <- (we_type wenv). apply (as_pi 1 3); simpl; lia. Qed.

Lemma as_ino : Pi.nova_ino (nvm sbi) pi = Pi.nova_ino m0 pi.
Proof. apply (as_pi 8 64); simpl; lia. Qed.

(** The inode is found where it is. *)
Lemma as_lookup mon sih addr : lookup_inode smp (Pi.nova_ino m0 pi) addr (World sbi mon sih) = Some (pi, World sbi mon sih).
Proof.
  pose proof as_homed as [T1 T2 _ (_ & s & Hs & Es)]. rewrite as_ino in Hs. pose proof (we_ino wenv) as Hi.
  unfold lookup_inode. erewrite fs_step; [|apply on_sbi_run].
  2:{ unfold nova_get_inode_by_ino_or_pi_addr. cbn [w_sbi]. rewrite (proj2 (Z.ltb_ge _ _)) by lia.
      apply (wwb_get_present smp _ P _ s); auto; [apply (lb_size _ _ (as_free _ _ _ _ A))|].
      unfold NOVA_NORMAL_INODE_START in Hi. lia. }
  cbn [w_mon w_sih]. by rewrite Es.
Qed.

Lemma as_reget mon sih : reget_inode smp pi (World sbi mon sih) = Some (pi, World sbi mon sih).
Proof. apply (reget_inode_ok smp P); [apply as_homed|apply (lb_size _ _ (as_free _ _ _ _ A))]. Qed.
End state.

(** A page goes to another entry. *)
Lemma slots_insert t p a b : b <> a -> slots (<[p := b]> t) a = slots (delete p t) a.
Proof. intros Hne. unfold slots. by rewrite map_filter_insert_False by (by simpl). Qed.

Lemma tree_step cur sbi F t i p n b :
  assigned cur sbi F t -> es !! i = Some (p, n, b) -> p <= cur < p + n -> pg <= cur ->
  (forall q, ~ pg <= q < cur + 1 -> <[cur := new_entry i]> t !! q = t0 !! q) /\
  (forall q, pg <= q < cur + 1 -> exists i' q' n' b', es !! i' = Some (q', n', b') /\ q' <= q < q' + n' /\
     <[cur := new_entry i]> t !! q = Some (new_entry i')).
Proof.
  intros A Hi Hc Hp. split; intros q Hq.
  - rewrite lookup_insert_ne by lia. apply (as_old _ _ _ _ A). lia.
  - destruct (decide (q = cur)) as [->|Hne].
    + exists i, p, n, b. rewrite lookup_insert_eq. done.
    + rewrite lookup_insert_ne by done. apply (as_new _ _ _ _ A). lia.
Qed.

(** A page that was not in the tree. *)
Lemma assign_hole cur sbi F t i p n b :
  assigned cur sbi F t -> es !! i = Some (p, n, b) -> p <= cur < p + n -> pg <= cur -> t0 !! cur = None ->
  assigned (cur + 1) sbi F (<[cur := new_entry i]> t).
Proof.
  intros A Hi Hc Hp Hn. destruct (tree_step _ _ _ _ _ _ _ _ A Hi Hc Hp) as [H1 H2].
  pose proof A as [A1 A2 A3 A4 A5 A6 A7 A8 A9]. split; auto.
  - intros q a Hq Ha. apply A4; [|done]. lia.
  - intros q a Ha. rewrite slots_insert.
    + rewrite delete_id by (by rewrite A8 by lia). by apply (A7 q).
    + pose proof (new_apart i q a (lookup_lt_Some _ _ _ Hi) Ha). lia.
Qed.

(** A page of the entry [a] before: its block is free now. *)
Lemma assign_replace cur sbi F t i p n b a sbi1 F1 :
  assigned cur sbi F t -> es !! i = Some (p, n, b) -> p <= cur < p + n -> pg <= cur -> t0 !! cur = Some a ->
  same_geometry sbi sbi1 -> lb_free sbi1 F1 -> (forall c, F1 c -> F c \/ c = entry_block m0 a cur) ->
  (forall x, ~ a + 20 <= x < a + 24 -> nvm sbi1 x = nvm sbi x) ->
  We.invalid_pages (nvm sbi1) a = We.invalid_pages (nvm sbi) a + 1 ->
  assigned (cur + 1) sbi1 F1 (<[cur := new_entry i]> t).
Proof.
  intros A Hi Hc Hp Ha Hg HF1 Hnew Hm Hinv. destruct (tree_step _ _ _ _ _ _ _ _ A Hi Hc Hp) as [H1 H2].
  pose proof A as [A1 A2 A3 A4 A5 A6 A7 A8 A9]. destruct (we_used wenv cur a Ha) as [_ Hfree].
  assert (t !! cur = Some a) as Ht by (rewrite A8 by lia; done).
  split; auto.
  - by eapply same_geometry_trans.
  - intros c Hin [Hx|Ec]%Hnew; [by apply (A3 c)|]. apply Hfree. rewrite <- Ec. by apply es_taken.
  - intros q a' Hq Ha' [Hx|Hx]%Hnew; [apply (A4 q a'); [lia|done..]|]. apply Hq. rewrite (we_inj wenv q cur a' a Ha' Ha Hx). lia.
  - intros x Hx. rewrite Hm; [by apply A5|]. by apply (proj2 (proj2 Hx) cur).
  - rewrite <- A6. apply load_ext. intros x Hx. simpl in Hx. apply Hm.
    pose proof (log_apart_pi a (we_entry wenv cur a Ha)). lia.
  - intros q a' Ha'. pose proof (new_apart i q a' (lookup_lt_Some _ _ _ Hi) Ha') as Hne. rewrite slots_insert by lia.
    rewrite <- (A7 q a' Ha'). destruct (decide (a = a')) as [<-|Haa].
    + rewrite Hinv, (slots_delete t cur a Ht). lia.
    + rewrite (slots_delete_ne t cur a a' Ht Haa). f_equal. apply load_ext. intros x Hx. simpl in Hx. apply Hm.
      pose proof (we_apart wenv cur q a a' Ha Ha' Haa). lia.
Qed.

(** The number of blocks of the inode. *)
Lemma assigned_blocks cur sbi F t v :
  assigned cur sbi F t -> assigned cur (with_nvm (Pi.set_i_blocks (nvm sbi) pi v) sbi) F t.
Proof.
  intros [A1 A2 A3 A4 A5 A6 A7 A8 A9].
  assert (forall x, ~ pi + 32 <= x < pi + 40 -> Pi.set_i_blocks (nvm sbi) pi v x = nvm sbi x) as Hs
    by (intros x Hx; apply store_disjoint; simpl; lia).
  split; auto; cbn [nvm with_nvm].
  - by destruct A1.
  - by apply lb_free_nvm.
  - intros x Hx. rewrite Hs by apply Hx. by apply A5.
  - rewrite <- A6. apply load_ext. intros x Hx. simpl in Hx. apply Hs. lia.
  - intros q a Ha. rewrite <- (A7 q a Ha). f_equal. apply load_ext. intros x Hx. simpl in Hx. apply Hs.
    pose proof (log_apart_pi a (we_entry wenv q a Ha)). lia.
Qed.

(** One page is assigned. *)
Lemma assign_page cur sbi F mon sih i p n b m ret k :
  assigned cur sbi F (tree sih) -> es !! i = Some (p, n, b) -> p <= cur < p + n -> pg <= cur -> ready (S k) mon ->
  exists sbi' F' mon' ret',
    assign_loop slab_garbage smp jiffies_to_msecs e garbage radix_nomem (S m) pi (new_entry i) cur ret true (World sbi mon sih) =
    assign_loop slab_garbage smp jiffies_to_msecs e garbage radix_nomem m pi (new_entry i) (u64 (cur + 1)) ret' true
      (World sbi' mon' (with_tree (<[cur := new_entry i]> (tree sih)) sih)) /\
    assigned (cur + 1) sbi' F' (<[cur := new_entry i]> (tree sih)) /\ ready k mon'.
Proof.
  intros A Hi Hc Hp Hr. cbn [assign_loop]. frun. rewrite (as_old _ _ _ _ A cur) by lia.
  destruct (t0 !! cur) as [a|] eqn:Ha.
  2:{ rewrite radix_serves. frun. exists sbi, F, mon, 0. split; [done|]. split; [by eapply assign_hole|].
      by eapply ready_less; [exact Hr|lia]. }
  destruct (as_old_entry _ _ _ _ A cur a Ha) as (E1 & E2 & E3 & E4). destruct (we_cover wenv cur a Ha) as (C1 & C2 & C3).
  destruct (we_used wenv cur a Ha) as [Hb _]. pose proof (lb_size _ _ (we_free wenv)) as Hsz.
  fstep (get_nvmm_ok smp sbi mon sih cur a ltac:(lia) ltac:(lia) ltac:(lia) ltac:(rewrite E4; lia)). rewrite E4, fs_assoc. frun.
  set (m1 := We.set_invalid_pages _ _ _). pose proof (as_geometry _ _ _ _ A) as Hg.
  assert (We.invalid_pages (nvm sbi) a + 1 < 2 ^ 32) as Hroom.
  { pose proof (as_count _ _ _ _ A cur a Ha) as Hcnt. pose proof (we_room wenv cur a Ha) as Hr0.
    assert (tree sih !! cur = Some a) as Ht by (by rewrite (as_old _ _ _ _ A) by lia). rewrite (slots_delete _ _ _ Ht) in Hcnt.
    pose proof (load_range 4 m0 (a + 16)) as Hn16. change (load 4 m0 (a + 16)) with (We.num_pages m0 a) in Hn16. simpl in Hn16. lia. }
  assert (forall x, ~ a + 20 <= x < a + 24 -> m1 x = nvm sbi x) as S1 by (intros x Hx; apply store_disjoint; simpl; lia).
  pose proof (log_apart_pi a (we_entry wenv cur a Ha)) as Hap.
  destruct (release_data_run slab_garbage (with_nvm m1 sbi) F pi (entry_block m0 a cur) 1)
    as (r1 & sbi1 & F1 & E5 & Hrel).
  { by apply lb_free_nvm, A. }
  { rewrite <- (as_type _ _ _ _ A). apply load_ext. intros x Hx. apply S1. simpl in Hx. lia. }
  { lia. }
  { lia. }
  { change (num_blocks (with_nvm m1 sbi)) with (num_blocks sbi). rewrite (sg_blocks _ _ Hg). lia. }
  { intros x Hx. replace x with (entry_block m0 a cur) by lia. split; [done|]. apply (as_used _ _ _ _ A); [lia|done]. }
  rewrite fs_assoc.
  fstep (on_sbi_run (fun s => nova_free_data_blocks slab_garbage s pi (entry_block m0 a cur) 1) (World (with_nvm m1 sbi) mon sih) _ _ E5).
  cbn [w_mon w_sih]. pose proof (rl_same _ _ _ _ _ Hrel) as Hm1. cbn [nvm with_nvm] in Hm1.
  assert (assigned (cur + 1) sbi1 F1 (<[cur := new_entry i]> (tree sih))) as A1.
  { apply (assign_replace cur sbi F (tree sih) i p n b a); auto.
    - pose proof (rl_geometry _ _ _ _ _ Hrel) as G. by destruct G.
    - apply Hrel.
    - intros c [?|?%elem_of_seqZ]%(rl_new _ _ _ _ _ Hrel); [by left|right; lia].
    - by rewrite Hm1.
    - rewrite Hm1. unfold m1, We.set_invalid_pages, We.invalid_pages. rewrite load_store_eq. apply Z.mod_small.
      pose proof (load_range 4 (nvm sbi) (a + 20)). unfold We.invalid_pages in Hroom. simpl in *. lia. }
  rewrite fs_assoc. fstep (as_reget _ _ _ _ A1 mon sih). rewrite fs_assoc. frun. rewrite fs_assoc.
  destruct (ready_count_migrate smp jiffies_to_msecs e garbage pid_nonneg
    (with_nvm (Pi.set_i_blocks (nvm sbi1) pi (u64 (Pi.i_blocks (nvm sbi1) pi - 1))) sbi1) mon sih pi k Hr) as (mon' & E6 & Hr').
  { apply pi_block. by destruct (as_geometry _ _ _ _ A1). }
  fstep E6. frun. eexists _, F1, mon', ret. split; [reflexivity|]. split; [by apply assigned_blocks|done].
Qed.

(** The pages of an extent. *)
Lemma assign_extent i p n b m : forall cur sbi F mon sih ret k,
  assigned cur sbi F (tree sih) -> es !! i = Some (p, n, b) -> p <= cur -> cur + Z.of_nat m = p + n -> pg <= p ->
  p + n <= last -> ready (m + k) mon ->
  exists sbi' F' mon' ret' t',
    assign_loop slab_garbage smp jiffies_to_msecs e garbage radix_nomem m pi (new_entry i) cur ret true (World sbi mon sih) =
      Some (ret', World sbi' mon' (with_tree t' sih)) /\
    assigned (p + n) sbi' F' t' /\ ready k mon'.
Proof.
  induction m as [|m IH]; intros cur sbi F mon sih ret k A Hi Hc Hn Hp Hl Hr.
  { exists sbi, F, mon, ret, (tree sih). rewrite with_tree_same. split; [done|]. by replace (p + n) with cur by lia. }
  destruct (assign_page cur sbi F mon sih i p n b m ret (m + k) A Hi ltac:(lia) ltac:(lia) Hr)
    as (sbi1 & F1 & mon1 & ret1 & E & A1 & Hr1). rewrite E, u64_small by lia.
  destruct (IH (cur + 1) sbi1 F1 mon1 (with_tree (<[cur := new_entry i]> (tree sih)) sih) ret1 k)
    as (sbi2 & F2 & mon2 & ret2 & t2 & E2 & A2 & Hr2); auto; try lia. eexists _, _, _, _, t2. split; [exact E2|]. done.
Qed.

Lemma chained_bounds q l z : chained q l z -> q <= z.
Proof. intros Hc. pose proof (chained_length q l z Hc). lia. Qed.

Lemma not_last tail : tail0 <= tail -> tail + 40 <= limit -> is_last_entry tail We.length = false.
Proof.
  intros H1 H2. pose proof (tl_room tok) as [Hroom _]. unfold is_last_entry. rewrite ENTRY_LOC_alt. apply Z.ltb_ge.
  unfold We.length, LAST_ENTRY in *. assert (tail mod 4096 + 40 <= 4064) by mlia. by rewrite u32_small by mlia.
Qed.

(** The entries from the [length done]-th on. *)
Lemma reassign_ok rest : forall pre cur sbi F mon sih fuel k,
  es = pre ++ rest -> chained cur rest last -> pg <= cur -> (length rest < fuel)%nat ->
  assigned cur sbi F (tree sih) -> ready (Z.to_nat (last - cur) + k) mon ->
  exists sbi' F' mon' t',
    reassign_loop slab_garbage smp jiffies_to_msecs e garbage radix_nomem fuel pi (tail0 + 40 * Z.of_nat (length pre))
      (World sbi mon sih) = Some (0, World sbi' mon' (with_tree t' sih)) /\
    assigned last sbi' F' t' /\ ready k mon'.
Proof.
  induction rest as [|[[p n] b] rest IH]; intros pre cur sbi F mon sih fuel k Hes Hc Hp Hf A Hr;
    (destruct fuel as [|fuel]; [simpl in Hf; lia|]); cbn [reassign_loop]; frun; rewrite (as_tail _ _ _ _ A).
  { cbn [chained] in Hc. subst cur. exists sbi, F, mon, (tree sih). unfold new_tail. rewrite Hes, app_nil_r, Z.eqb_refl.
    rewrite with_tree_same. split; [done|]. split; [done|]. eapply ready_less; [exact Hr|lia]. }
  destruct Hc as (-> & Hn & Hc). pose proof (chained_bounds _ _ _ Hc) as Hle. destruct tail_block as (T1 & T2 & T3 & T4).
  assert (Z.of_nat (length es) = Z.of_nat (length pre) + 1 + Z.of_nat (length rest)) as Hlen
    by (rewrite Hes, length_app; simpl; lia).
  assert (es !! length pre = Some (cur, n, b)) as Hi by (rewrite Hes, lookup_app_r, Nat.sub_diag by lia; done).
  set (q := tail0 + 40 * Z.of_nat (length pre)). unfold new_tail. rewrite (proj2 (Z.eqb_neq q _)) by (unfold q; lia). frun.
  rewrite not_last by (unfold q; lia). rewrite (proj2 (Z.eqb_neq q 0)) by (unfold q; lia).
  destruct (we_mapped wenv) as [Hv Hmx]. pose proof (as_geometry _ _ _ _ A) as Hg.
  assert (nova_get_block (virt_addr sbi) q = new_entry (length pre)) as ->.
  { unfold nova_get_block. rewrite (proj2 (Z.eqb_neq q 0)), (sg_virt _ _ Hg) by (unfold q; lia).
    rewrite u64_small by (unfold q; lia). unfold new_entry, q. lia. }
  destruct (as_new_entry _ _ _ _ A _ _ _ _ Hi) as (-> & E2 & E3 & _). rewrite Z.eqb_refl. cbn [negb].
  unfold nova_assign_write_entry. rewrite fs_assoc. frun. rewrite fs_assoc. frun. rewrite (as_ino _ _ _ _ A), fs_assoc.
  fstep (as_lookup _ _ _ _ A mon sih (sih_pi_addr sih)). rewrite E2, E3.
  destruct (assign_extent (length pre) cur n b (Z.to_nat n) cur sbi F mon sih garbage (Z.to_nat (last - (cur + n)) + k))
    as (sbi1 & F1 & mon1 & ret1 & t1 & E & A1 & Hr1); auto; try lia.
  { eapply ready_less; [exact Hr|lia]. }
  fstep E. unfold We.length. rewrite u64_small by (unfold q; lia).
  replace (q + 40) with (tail0 + 40 * Z.of_nat (length (pre ++ [(cur, n, b)]))) by (rewrite length_app; unfold q; simpl; lia).
  destruct (IH (pre ++ [(cur, n, b)]) (cur + n) sbi1 F1 mon1 (with_tree t1 sih) fuel k)
    as (sbi2 & F2 & mon2 & t2 & E3' & A2 & Hr2); auto.
  { by rewrite <- app_assoc. }
  { lia. }
  { simpl in Hf. lia. }
  eexists _, _, _, t2. split; [exact E3'|]. done.
Qed.

(** ** The file afterwards *)

Lemma chained_at q l z i p n b : chained q l z -> l !! i = Some (p, n, b) -> q <= p /\ 0 < n /\ p + n <= z.
Proof.
  revert q i. induction l as [|[[p' n'] b'] l IH]; intros q i Hc Hi; [done|]. destruct Hc as (-> & Hn & Hc).
  destruct i as [|i]; cbn [lookup list_lookup] in Hi.
  - injection Hi as <- <- <-. pose proof (chained_bounds _ _ _ Hc). lia.
  - specialize (IH _ _ Hc Hi). lia.
Qed.

Lemma chained_unique q l z i j p n b p' n' b' r :
  chained q l z -> l !! i = Some (p, n, b) -> l !! j = Some (p', n', b') -> p <= r < p + n -> p' <= r < p' + n' -> i = j.
Proof.
  revert q i j. induction l as [|[[p0 n0] b0] l IH]; intros q i j Hc Hi Hj H1 H2; [done|]. destruct Hc as (-> & Hn & Hc).
  destruct i as [|i], j as [|j]; cbn [lookup list_lookup] in Hi, Hj.
  - done.
  - injection Hi as <- <- <-. pose proof (chained_at _ _ _ _ _ _ _ Hc Hj). lia.
  - injection Hj as <- <- <-. pose proof (chained_at _ _ _ _ _ _ _ Hc Hi). lia.
  - f_equal. by eapply IH.
Qed.

Section done_state.
Context (sbi : nova_sb_info) (F : Z -> Prop) (t : gmap Z Z) (A : assigned last sbi F t).

(** The block of a page, and its bytes. *)
Lemma final_new p i q n b : es !! i = Some (q, n, b) -> q <= p < q + n ->
  entry_block (nvm sbi) (new_entry i) p = b + (p - q) /\ in_extents es (b + (p - q)).
Proof.
  intros Hi Hp. destruct (as_new_entry _ _ _ _ A _ _ _ _ Hi) as (_ & E2 & _ & _ & E5). split.
  - unfold entry_block. by rewrite E5, E2.
  - exists q, n, b. split; [by eapply list_elem_of_lookup_2|lia].
Qed.

Lemma final_committed : committed (nvm sbi) es.
Proof. split; [apply (as_tail _ _ _ _ A)|]. intros i p n b Hi. by apply (as_new_entry _ _ _ _ A). Qed.

Lemma final_bytes um buf pos count o :
  (forall p n b y, (p, n, b) ∈ es -> 0 <= y < 4096 * n -> mL (blk b + y) = turn_byte um buf pos count (4096 * p + y)) ->
  pg = pos / 4096 -> pos + count <= 4096 * last -> 0 <= o ->
  file_byte sbi t o = turn_byte um buf pos count o.
Proof.
  intros Hd Hpg Hend Ho. pose proof (as_geometry _ _ _ _ A) as Hg. unfold file_byte.
  destruct (decide (pg <= o / 4096 < last)) as [Hin|Hout].
  - destruct (as_new _ _ _ _ A _ Hin) as (i & q & n & b & Hi & Hq & ->). destruct (final_new _ _ _ _ _ Hi Hq) as [-> Hext].
    rewrite (geometry_blk _ _ Hg).
    assert (blk (b + (o / 4096 - q)) + o mod 4096 = blk b + (o - 4096 * q)) as -> by (unfold block_addr; mlia).
    rewrite (as_mem _ _ _ _ A), (Hd q n b); [f_equal; lia|by eapply list_elem_of_lookup_2|mlia|].
    apply (data_quiet (b + (o / 4096 - q))); [unfold block_addr; mlia| |left; by apply es_taken].
    intros [_ Hf]%(we_log wenv). by apply Hf, es_taken.
  - rewrite (as_old _ _ _ _ A) by done. unfold turn_byte.
    destruct (Z.leb_spec pos o), (Z.ltb_spec o (pos + count)); cbn [andb]; try (exfalso; apply Hout; mlia).
    all: unfold file_byte; destruct (t0 !! (o / 4096)) as [a|] eqn:Ha; [|done].
    all: destruct (as_old_entry _ _ _ _ A _ _ Ha) as (_ & _ & _ & ->); rewrite (geometry_blk _ _ Hg).
    all: assert (blk (entry_block m0 a (o / 4096)) <= blk (entry_block m0 a (o / 4096)) + o mod 4096 <
                 blk (entry_block m0 a (o / 4096) + 1)) as Hx by (unfold block_addr; mlia).
    all: rewrite (as_mem _ _ _ _ A); [by apply (loop_block _ _ _ _ es_mem Ha)|].
    all: apply (data_quiet (entry_block m0 a (o / 4096))); [done|by apply block_not_log|right; eauto].
Qed.

(** Each page of the tree is an old or a new one. *)
Lemma final_page p a : t !! p = Some a ->
  (t0 !! p = Some a /\ ~ pg <= p < last) \/
  (exists i q n b, es !! i = Some (q, n, b) /\ q <= p < q + n /\ a = new_entry i).
Proof.
  intros Hp. destruct (decide (pg <= p < last)) as [Hin|Hout].
  - right. destruct (as_new _ _ _ _ A _ Hin) as (i & q & n & b & Hi & Hq & E). exists i, q, n, b. split_and!; try done; [lia..|].
    congruence.
  - left. by rewrite <- (as_old _ _ _ _ A).
Qed.

Lemma final_slots p a : t0 !! p = Some a -> We.invalid_pages (nvm sbi) a = 0 ->
  We.invalid_pages m0 a = 0 /\ forall r, t0 !! r = Some a -> t !! r = Some a.
Proof.
  intros Ha H0. pose proof (as_count _ _ _ _ A p a Ha) as Hc. rewrite H0 in Hc.
  assert (filter (fun x => snd x = a) t ⊆ filter (fun x => snd x = a) t0) as Hsub.
  { apply map_subseteq_spec. intros r v [Hr Hv]%map_lookup_filter_Some. simpl in Hv. subst v.
    apply map_lookup_filter_Some. split; [|done]. destruct (final_page r a Hr) as [[? _]|(i & q & n & b & Hi & _ & ->)]; [done|].
    pose proof (new_apart i p _ (lookup_lt_Some _ _ _ Hi) Ha). lia. }
  pose proof (map_subseteq_size _ _ Hsub) as Hle. pose proof (load_range 4 m0 (a + 20)) as Hr.
  change (load 4 m0 (a + 20)) with (We.invalid_pages m0 a) in Hr. unfold slots in *. split; [lia|].
  intros r Hr0. assert (filter (fun x => snd x = a) t0 !! r = Some a) as Hr1 by (by apply map_lookup_filter_Some).
  rewrite <- (map_subseteq_size_eq _ _ Hsub ltac:(lia)) in Hr1. by apply map_lookup_filter_Some in Hr1 as [? _].
Qed.

(** The file can be read again. *)
Lemma final_readable : readable sbi0 t0 -> readable sbi t.
Proof.
  intros [R1 R2 R3 R4]. pose proof (as_geometry _ _ _ _ A) as Hg.
  split.
  - destruct R1. split; by rewrite (sg_virt _ _ Hg), ?(sg_blocks _ _ Hg).
  - intros p a [[Ha _]|(i & q & n & b & Hi & Hq & ->)]%final_page.
    + destruct (as_old_entry _ _ _ _ A _ _ Ha) as (_ & -> & -> & _). by apply R2.
    + destruct (as_new_entry _ _ _ _ A _ _ _ _ Hi) as (_ & -> & -> & _). pose proof (chained_at _ _ _ _ _ _ _ es_chain Hi). lia.
  - intros p a [[Ha _]|(i & q & n & b & Hi & Hq & ->)]%final_page; rewrite (sg_blocks _ _ Hg).
    + destruct (as_old_entry _ _ _ _ A _ _ Ha) as (_ & _ & _ & ->). by apply R3.
    + destruct (final_new _ _ _ _ _ Hi Hq) as [-> Hin]. apply (lb_bounds _ _ _ (we_free wenv)), es_taken, Hin.
  - intros p a [[Ha _]|(i & q & n & b & Hi & Hq & ->)]%final_page H0 r Hr.
    + destruct (final_slots p a Ha H0) as [H1 H2]. apply H2.
      destruct (as_old_entry _ _ _ _ A _ _ Ha) as (_ & E2 & E3 & _). rewrite E2, E3 in Hr. by apply (R4 p a).
    + destruct (as_new_entry _ _ _ _ A _ _ _ _ Hi) as (_ & E2 & E3 & _). rewrite E2, E3 in Hr.
      pose proof (chained_at _ _ _ _ _ _ _ es_chain Hi).
      destruct (as_new _ _ _ _ A r ltac:(lia)) as (j & q' & n' & b' & Hj & Hq' & ->).
      by rewrite (chained_unique _ _ _ _ _ _ _ _ _ _ _ r es_chain Hi Hj).
Qed.
End done_state.
End assign.

(** ** The commit *)

Lemma update_tail_ok {rd} {bud : Budget rd} sbi mon sih k tail :
  homed sbi P pi -> Pi.nova_ino (nvm sbi) pi = Pi.nova_ino m0 pi -> num_blocks sbi < 2147483648 -> rd (S k) mon ->
  exists mon', nova_update_tail_wwb smp e nova_base_address pi tail (World sbi mon sih) =
      Some (tt, World (with_nvm (Pi.set_log_tail (nvm sbi) pi tail) sbi) mon' sih) /\ rd k mon'.
Proof.
  intros [T1 T2 T3 (Hi & a & Ha & Ea)] Eino Hsz Hr. pose proof (we_ino wenv) as Hn. unfold nova_update_tail_wwb. frun.
  rewrite T3. cbn [fs_deref]. frun. rewrite (proj2 (Z.ltb_lt NOVA_NORMAL_INODE_START _)) by lia.
  assert (nova_get_inode_by_ino_or_pi_addr smp sbi (Pi.nova_ino (nvm sbi) pi) 0 = Some (inr pi, sbi)) as E.
  { rewrite <- Ea at 2. unfold nova_get_inode_by_ino_or_pi_addr. cbn [Z.eqb].
    destruct (_ <? _); apply (wwb_get_present smp sbi P _ a); auto; lia. }
  rewrite fs_assoc. erewrite fs_step by (apply on_sbi_run; exact E). frun. exact (ready_by_vir e _ mon sih _ _ k Hr).
Qed.

(** The state in which the pages are assigned. *)
Lemma commit_state um l sbiL FL es v :
  looping sbiL FL -> extents_ok um l sbi0 F0 es sbiL FL -> wl_tail l = tail0 -> tail0 + 40 * Z.of_nat (length es) <= limit ->
  assigned es (nvm sbiL) (wl_pos l / 4096) (wl_pos l / 4096)
    (with_nvm (Pi.set_log_tail (Pi.set_i_blocks (nvm sbiL) pi v) pi (new_tail es)) sbiL) FL t0.
Proof.
  intros [G1 G2 G3 G4] [X1 X2 X3 X4 X5 X6] Ht Hroom. set (m' := Pi.set_log_tail _ _ _).
  assert (forall x, ~ pi + 32 <= x < pi + 40 -> ~ pi + 80 <= x < pi + 88 -> m' x = nvm sbiL x) as Hs.
  { intros x H1 H2. unfold m', Pi.set_log_tail, Pi.set_i_blocks. rewrite !store_disjoint by (simpl; lia). done. }
  destruct tail_block as (T1 & T2 & T3 & T4). pose proof (lb_size _ _ (we_free wenv)) as Hsz.
  split; cbn [nvm with_nvm].
  - by destruct G1.
  - by apply lb_free_nvm.
  - intros c Hc [_ Hn]%X3. done.
  - intros p a _ Ha Hf%G3. by apply (we_used wenv p a Ha).
  - intros x [H1 [H2 _]]. by apply Hs.
  - unfold m', Pi.set_log_tail, Pi.log_tail. apply load8_store8. unfold new_tail. lia.
  - intros p a Ha. f_equal. destruct (loop_entry _ p a G4 Ha) as (_ & _ & _ & E4). rewrite <- E4. apply load_ext.
    intros x Hx. simpl in Hx. pose proof (log_apart_pi a (we_entry wenv p a Ha)). apply Hs; lia.
  - done.
  - intros p Hp. lia.
Qed.

(** The old inode stays where it is when its number of blocks changes. *)
Lemma commit_homed sbiL v : same_geometry sbi0 sbiL -> loop_mem (nvm sbiL) ->
  let sbi := with_nvm (Pi.set_i_blocks (nvm sbiL) pi v) sbiL in
  homed sbi P pi /\ Pi.nova_ino (nvm sbi) pi = Pi.nova_ino m0 pi.
Proof.
  intros Hg Hm sbi. destruct (we_pi_page wenv) as [Hp _].
  assert (Pi.nova_ino (nvm sbi) pi = Pi.nova_ino (nvm sbiL) pi) as E1 by (apply load_store_ne; lia).
  split; [|rewrite E1; apply (loop_pi 8 _ 64 Hm); simpl; lia].
  apply (homed_frame sbiL); [by apply loop_homed|..|exact E1].
  - destruct (we_mapped wenv). split; by rewrite (sg_virt _ _ Hg), ?(sg_blocks _ _ Hg).
  - rewrite (sg_blocks _ _ Hg). destruct (we_log wenv _ (tl_page tok)). lia.
  - apply with_nvm_geometry.
  - intros x Hx. rewrite (geometry_blk _ _ Hg) in Hx. apply store_disjoint. simpl. lia.
Qed.

Lemma write_out_ok sbi mon sih k ret l :
  same_geometry sbi0 sbi -> ready k mon -> - 2 ^ 62 <= ret < 2 ^ 62 ->
  exists mon', write_out slab_garbage smp jiffies_to_msecs e garbage (Some pi) ret l (World sbi mon sih) =
    Some (ret, World sbi mon' sih) /\ ready k mon'.
Proof.
  intros Hg Hr Hret. unfold write_out. pose proof (u64_range ret). rewrite (proj2 (Z.ltb_ge _ 0)) by lia. frun.
  destruct (migrate_nothing smp jiffies_to_msecs e garbage pi sbi mon sih k Hr (pi_block sbi Hg)) as (mon' & E & Hr'). fstep E. exists mon'. split; [|done].
  assert (i64 (u64 ret) = ret) as ->; [|done]. unfold u64, i64. mlia.
Qed.

(** The size of the file is recorded while processes are watched. *)
Lemma record_size_ok sbi mon sih sz k : ready k mon ->
  exists mon', on_mon (mode ← gets detect_mode;
      if negb (mode =? 0) then insert_into_spaceTable (current_pid e) sz else mret tt) (World sbi mon sih) =
    Some (tt, World sbi mon' sih) /\ ready k mon'.
Proof.
  intros Hr. destruct (negb (detect_mode mon =? 0)) eqn:Em.
  - destruct (ready_record e sz k mon Hr pid_nonneg) as (mon' & E & Hr'). exists mon'. split; [|done].
    apply on_mon_run. cbn [w_mon]. mrun. by rewrite Em.
  - exists mon. split; [|done]. apply on_mon_run. cbn [w_mon]. mrun. by rewrite Em.
Qed.

(** The inode is looked up and its new entries are entered. *)
Lemma reassign_tree_ok es mL pg last sbi F mon sih k :
  0 <= pg /\ last < 2 ^ 62 -> tail0 + 40 * Z.of_nat (length es) <= limit -> (forall c, in_extents es c -> F0 c) ->
  (forall i p n b, es !! i = Some (p, n, b) -> entry_is mL (va + tail0 + 40 * Z.of_nat i) p n b) -> loop_mem mL ->
  chained pg es last -> assigned es mL pg pg sbi F (tree sih) -> ready (Z.to_nat (last - pg) + k) mon ->
  exists sbi' F' mon' t',
    nova_reassign_file_tree slab_garbage smp jiffies_to_msecs e garbage radix_nomem pi tail0 (World sbi mon sih) =
      Some (0, World sbi' mon' (with_tree t' sih)) /\
    assigned es mL pg last sbi' F' t' /\ ready k mon'.
Proof.
  intros H1 H2 H3 H4 H5 H6 A Hr. destruct tail_block as (T1 & T2 & T3 & T4).
  assert (homed sbi P pi) as [Q1 Q2 _ (Hi & a & Ha & Ea)] by (eapply (as_homed es mL pg); eauto).
  unfold nova_reassign_file_tree. frun. rewrite (proj2 (Z.ltb_lt 1 _)) by lia.
  assert (nova_get_inode_by_ino_or_pi_addr smp sbi (Pi.nova_ino (nvm sbi) pi) 0 = Some (inr pi, sbi)) as E.
  { rewrite <- Ea at 2. unfold nova_get_inode_by_ino_or_pi_addr. cbn [Z.eqb]. pose proof (lb_size _ _ (as_free _ _ _ _ _ _ _ A)).
    destruct (_ <? _); apply (wwb_get_present smp sbi P _ a); auto; lia. }
  rewrite fs_assoc. erewrite fs_step by (apply on_sbi_run; exact E). frun.
  pose proof (reassign_ok es mL pg last H1 H2 H3 H4 H5 es [] pg sbi F mon sih (Z.to_nat (4096 * num_blocks sbi)) k) as Hre.
  cbn [length] in Hre. rewrite Z.mul_0_r, Z.add_0_r in Hre. apply Hre; auto; [lia|].
  rewrite (sg_blocks _ _ (as_geometry _ _ _ _ _ _ _ A)). lia.
Qed.

Lemma commit_ok um l0 l sbiL FL es mon sih inode total ppos k :
  looping sbiL FL -> extents_ok um l0 sbi0 F0 es sbiL FL -> final_locals l0 l es -> locals_ok l0 ->
  wl_tail l0 = tail0 -> wl_begin l0 = 0 -> tail0 + 40 * wl_num_blocks l0 <= limit -> tree sih = t0 ->
  ready (Z.to_nat (wl_num_blocks l0) + S k) mon ->
  exists sbi' F' mon' sih' inode',
    write_commit slab_garbage smp jiffies_to_msecs e garbage radix_nomem nova_base_address inode pi total ppos l
      (World sbiL mon sih) = Some ((wl_written l, wl_pos l, inode'), World sbi' mon' sih') /\
    assigned es (nvm sbiL) (wl_pos l0 / 4096) (wl_pos l0 / 4096 + wl_num_blocks l0) sbi' F' (tree sih') /\
    vfs_size inode' = Z.max (vfs_size inode) (wl_pos l) /\ ready k mon'.
Proof.
  intros HL HX (Hl1 & Hl2 & Hl3 & Hl4) Hlo Ht0 Hb0 Hlim Hsih Hr. pose proof HL as [G1 G2 G3 G4]. pose proof HX as [X1 X2 X3 X4 X5 X6].
  pose proof Hlo as [L1 L2 L3 L4 L5]. destruct (chained_length _ _ _ X1) as [Hlen _]. destruct tail_block as (T1 & T2 & T3 & T4).
  assert (tail0 + 40 * Z.of_nat (length es) <= limit) as Hroom by lia. rewrite Ht0 in *.
  rewrite Hb0 in Hl4. cbn [Z.eqb] in Hl4. fold (new_tail es) in Hl3.
  assert (Pi.i_blk_type (nvm sbiL) pi = 0) as Hty by (rewrite <- (we_type wenv); apply (loop_pi 1 _ 3 G4); simpl; lia).
  unfold write_commit. frun. rewrite Hty. change (blk_type_to_shift 0) with (Some 12). frun.
  destruct (commit_homed sbiL (u64 (Pi.i_blocks (nvm sbiL) pi + Z.shiftl total (12 - s_blocksize_bits))) G1 G4) as [Hh Hi]. cbv zeta in *.
  destruct (update_tail_ok _ mon sih (Z.to_nat (wl_num_blocks l0) + k) (new_tail es) Hh Hi) as (mon1 & E1 & Hr1);
    [apply (lb_size _ _ G2)|by rewrite <- Nat.add_succ_r|].
  rewrite Hl3. fstep E1. cbn [nvm with_nvm]. pose proof (commit_state um l0 sbiL FL es
    (u64 (Pi.i_blocks (nvm sbiL) pi + Z.shiftl total (12 - s_blocksize_bits))) HL HX Ht0 Hroom) as A0.
  set (m1 := Pi.set_log_tail _ _ _) in *. change (with_nvm m1 (with_nvm _ sbiL)) with (with_nvm m1 sbiL). rewrite Hl4.
  rewrite <- Hsih in A0. assert (0 <= wl_num_blocks l0) as Hnb by (rewrite L3; mlia).
  destruct (reassign_tree_ok es (nvm sbiL) (wl_pos l0 / 4096) (wl_pos l0 / 4096 + wl_num_blocks l0) (with_nvm m1 sbiL) FL mon1 sih k)
    as (sbi2 & F2 & mon2 & t2 & E2 & A2 & Hr2); auto.
  { rewrite L3. mlia. }
  { eapply ready_less; [exact Hr1|lia]. }
  fstep E2. cbn [negb Z.eqb]. frun.
  set (i1 := with_vfs_blocks _ inode). change (vfs_size i1) with (vfs_size inode).
  destruct (Z.ltb_spec (vfs_size inode) (wl_pos l)) as [Hlt|Hge].
  - rewrite fs_assoc. frun. destruct (record_size_ok sbi2 mon2 (with_sih_size (wl_pos l) (with_tree t2 sih))
      (i32 (vfs_size (with_vfs_size (wl_pos l) i1))) k Hr2) as (mon3 & E3 & Hr3).
    fstep E3. eexists sbi2, F2, mon3, _, _. split; [reflexivity|]. split; [exact A2|]. split; [|done].
    cbn [vfs_size with_vfs_size]. lia.
  - frun. destruct (record_size_ok sbi2 mon2 (with_tree t2 sih) (i32 (vfs_size i1)) k Hr2) as (mon3 & E3 & Hr3).
    fstep E3. eexists sbi2, F2, mon3, _, _. split; [reflexivity|]. split; [exact A2|]. split; [|done].
    change (vfs_size i1) with (vfs_size inode). lia.
Qed.

(** ** The whole write *)

(** The blocks of the file are in use and its pages are found. *)
Definition file_kept (sbi : nova_sb_info) (t : gmap Z Z) : Prop :=
  readable sbi t /\ exists F, lb_free sbi F /\ forall p a, t !! p = Some a -> ~ F (entry_block (nvm sbi) a p).

Lemma loop_kept sbi F : readable sbi0 t0 -> looping sbi F -> file_kept sbi t0.
Proof.
  intros [R1 R2 R3 R4] [G1 G2 G3 G4]. split; [split|].
  - destruct R1. split; by rewrite (sg_virt _ _ G1), ?(sg_blocks _ _ G1).
  - intros p a Ha. destruct (loop_entry _ _ _ G4 Ha) as (_ & -> & -> & _). by apply R2.
  - intros p a Ha. rewrite (loop_entry_block _ _ _ _ G4 Ha), (sg_blocks _ _ G1). by apply R3.
  - intros p a Ha. destruct (loop_entry _ _ _ G4 Ha) as (_ & -> & -> & ->). by apply (R4 p).
  - exists F. split; [done|]. intros p a Ha Hf%G3. rewrite (loop_entry_block _ _ _ _ G4 Ha) in Hf.
    by apply (we_used wenv p a Ha).
Qed.

Lemma final_kept es mL pg last sbi F t :
  0 <= pg /\ last < 2 ^ 62 -> tail0 + 40 * Z.of_nat (length es) <= limit -> (forall c, in_extents es c -> F0 c) ->
  (forall i p n b, es !! i = Some (p, n, b) -> entry_is mL (va + tail0 + 40 * Z.of_nat i) p n b) -> loop_mem mL ->
  chained pg es last -> assigned es mL pg last sbi F t -> readable sbi0 t0 -> file_kept sbi t.
Proof.
  intros H1 H2 H3 H4 H5 H6 A Hrd. split; [by eapply (final_readable es mL)|]. exists F. split; [by eapply as_free|].
  intros p a Hpa. destruct (final_page es mL pg last sbi F t A p a Hpa) as [[Ha Hp]|(i & q & n & b & Hi & Hq & ->)].
  - destruct (as_old_entry es mL pg H5 last sbi F t A p a Ha) as (_ & _ & _ & ->). by apply (as_used _ _ _ _ _ _ _ A).
  - destruct (final_new es mL pg last H2 H4 sbi F t A p i q n b Hi Hq) as [-> Hin]. by apply (as_taken _ _ _ _ _ _ _ A).
Qed.

Lemma find_inode sih ino : ino = Pi.nova_ino m0 pi -> nova_get_inode smp sbi0 ino (sih_pi_addr sih) = Some (inr pi, sbi0).
Proof.
  intros ->. destruct (we_homed wenv) as [T1 T2 _ (Hi & a & Ha & Ea)]. pose proof (we_ino wenv).
  rewrite (get_inode_present smp sbi0 P _ _ a); auto; [by rewrite Ea|apply (lb_size _ _ (we_free wenv))|lia].
Qed.

(** The whole write. *)
Lemma write_run um inode (append : bool) time buf len ppos mon sih k :
  let pos := if append then vfs_size inode else ppos in
  let num := (len + pos mod 4096 - 1) / 4096 + 1 in
  readable sbi0 t0 -> tree sih = t0 -> i_ino inode = Pi.nova_ino m0 pi -> Pi.log_tail m0 pi = tail0 ->
  tail0 + 40 * num <= limit -> 0 < len < 2 ^ 32 -> 0 <= pos -> pos + len < 2 ^ 62 -> 0 <= vfs_size inode < 2 ^ 62 ->
  0 <= buf -> buf + len < 2 ^ 64 -> ready (Z.to_nat (3 * num) + S k) mon ->
  exists sbi' mon' sih' inode' ppos' ret,
    nova_cow_file_write slab_garbage smp jiffies_to_msecs e garbage radix_nomem uncopied nova_base_address
      false false append 0 time um buf len ppos inode (World sbi0 mon sih) =
      Some ((ret, ppos', inode'), World sbi' mon' sih') /\ ready k mon' /\ file_kept sbi' (tree sih') /\
    ((ret = - ENOSPC /\ ppos' = ppos /\ vfs_size inode' = vfs_size inode /\ tree sih' = t0 /\
      Pi.log_tail (nvm sbi') pi = tail0 /\ forall o, file_byte sbi' t0 o = file_byte sbi0 t0 o) \/
     (ret = len /\ ppos' = pos + len /\ vfs_size inode' = Z.max (vfs_size inode) (pos + len) /\
      (exists es, chained (pos / 4096) es (pos / 4096 + num) /\ committed (nvm sbi') es) /\
      forall o, 0 <= o -> file_byte sbi' (tree sih') o =
        if (pos <=? o) && (o <? pos + len) then um (buf + (o - pos)) else file_byte sbi0 t0 o)).
Proof.
  intros pos num Hrd Hsih Hino Htail Hlim Hlen Hp0 Hp1 Hsz Hb0 Hb1 Hr. pose proof (tl_room tok) as [Hro Hle].
  assert (0 < num < 2 ^ 32) as Hnum by (unfold num; mlia).
  unfold nova_cow_file_write. rewrite (proj2 (Z.eqb_neq len 0)) by lia. fold pos. frun.
  erewrite fs_step by (apply on_sbi_run; cbn [w_sbi]; by apply find_inode). cbv beta iota. cbn [negb Z.eqb w_mon w_sih].
  change (s_blocksize - 1) with (Z.ones 12). rewrite Z.land_ones by lia. change (2 ^ 12) with 4096.
  unfold s_blocksize_bits. rewrite Z.shiftr_div_pow2, (u64_small (len + _ - 1)) by mlia. change (2 ^ 12) with 4096.
  rewrite (u64_small (_ + 1)) by (fold num; lia). fold num. frun. rewrite Htail.
  set (l0 := WriteLocals pos len num buf tail0 0 0 0 0). set (i1 := with_vfs_time time inode).
  assert (locals_ok l0) as Hl0 by (split; cbn; lia || done).
  destruct (write_loop_ok um i1 time sih (Z.to_nat num) sbi0 F0 mon l0 (Z.to_nat num + S k))
    as (sbiL & FL & monL & l & exit & E & HL & HrL & Hout); auto.
  { split; auto; [by split|apply wenv|]. by intros x. }
  { change (wl_num_blocks l0) with num. eapply ready_less; [exact Hr|lia]. }
  fstep E. cbv beta iota. destruct exit as [r|].
  - subst r. frun. destruct (write_out_ok sbiL monL sih (S k) (- ENOSPC) l) as (mon' & E' & Hr'); [apply HL| |unfold ENOSPC; lia|].
    { eapply ready_less; [exact HrL|lia]. }
    fstep E'. eexists sbiL, mon', sih, i1, ppos, (- ENOSPC). split; [reflexivity|]. rewrite Hsih.
    split; [eapply ready_less; [exact Hr'|lia]|]. split; [by eapply loop_kept|]. left. split_and!; try done.
    { rewrite <- Htail. pose proof HL as [_ _ _ Hlm]. apply (loop_pi 8 _ 80 Hlm); simpl; lia. }
    intros o. apply loop_file_byte; apply HL.
  - destruct Hout as (es & _ & HX & Hfl).
    destruct (commit_ok um l0 l sbiL FL es monL sih i1 num ppos k) as (sbi' & F' & mon' & sih' & inode' & E' & A & Hs' & Hr'); auto.
    fstep E'. cbv beta iota. pose proof Hfl as (Hpos & Hwr & _). cbn [l0 wl_pos wl_count wl_written] in Hpos, Hwr.
    rewrite Hpos, Hwr in *. rewrite Z.add_0_l.
    destruct (write_out_ok sbi' mon' sih' k len l) as (mon2 & E2 & Hr2); [apply A|done|lia|]. fstep E2.
    pose proof HX as [X1 X2 X3 X4 X5 X6]. destruct (chained_length _ _ _ X1) as [Hlen' _].
    cbn [l0 wl_pos wl_count wl_num_blocks wl_buf wl_tail] in *. pose proof HL as [_ _ _ Hlm].
    eexists sbi', mon2, sih', inode', (pos + len), len. split; [reflexivity|]. split; [done|].
    assert (0 <= pos / 4096 /\ pos / 4096 + num < 2 ^ 62) as Hpages by (unfold num; mlia).
    assert (tail0 + 40 * Z.of_nat (length es) <= limit) as Hroom by lia.
    split; [by eapply (final_kept es (nvm sbiL))|]. right. split_and!; try done.
    { exists es. split; [done|]. by eapply (final_committed es (nvm sbiL)). }
    intros o Ho. eapply (final_bytes es (nvm sbiL)); eauto. unfold num. mlia.
Qed.

(** C1: What a write does to the file.  [nova_cow_file_write] either returns the length, advances the position, grows the size to the end of the
    write where it is larger, and afterwards the file has the bytes of the buffer from the
    position on and its old bytes everywhere else, and the log has been extended by entries for
    exactly the pages written, its tail behind them; or it returns [-ENOSPC] and the file, its
    size, its tree and the tail of its log are the old ones.  In both cases the allocator is in order and no block
    of the file is free.  This is for a write that passes the inverted test of the buffer
    ([access_ok] is false, as for a buffer of the kernel, which the unchecked copy still reads;
    for the others see [valid_write_faults]), of a file that is not mapped into memory, where
    every copy from the buffer is complete ([uncopied] is 0), the radix tree gets its memory,
    the entries fit in the page of the log tail ([tail_ok]), and every block is more than
    [3 * num + 1] writes below the migration threshold ([ready]), [num] being the number of
    blocks written. *)
Theorem write_exact um inode (append : bool) time buf len ppos mon sih k :
  let pos := if append then vfs_size inode else ppos in
  let num := (len + pos mod 4096 - 1) / 4096 + 1 in
  readable sbi0 t0 -> tree sih = t0 -> i_ino inode = Pi.nova_ino m0 pi -> Pi.log_tail m0 pi = tail0 ->
  tail0 + 40 * num <= limit -> 0 < len < 2 ^ 32 -> 0 <= pos -> pos + len < 2 ^ 62 -> 0 <= vfs_size inode < 2 ^ 62 ->
  0 <= buf -> buf + len < 2 ^ 64 -> ready (Z.to_nat (3 * num) + S k) mon ->
  exists sbi' mon' sih' inode' ppos' ret,
    nova_cow_file_write slab_garbage smp jiffies_to_msecs e garbage radix_nomem uncopied nova_base_address
      false false append 0 time um buf len ppos inode (World sbi0 mon sih) =
      Some ((ret, ppos', inode'), World sbi' mon' sih') /\ ready k mon' /\ file_kept sbi' (tree sih') /\
    ((ret = - ENOSPC /\ ppos' = ppos /\ vfs_size inode' = vfs_size inode /\ tree sih' = t0 /\
      Pi.log_tail (nvm sbi') pi = tail0 /\ forall o, file_byte sbi' t0 o = file_byte sbi0 t0 o) \/
     (ret = len /\ ppos' = pos + len /\ vfs_size inode' = Z.max (vfs_size inode) (pos + len) /\
      (exists es, chained (pos / 4096) es (pos / 4096 + num) /\ committed (nvm sbi') es) /\
      forall o, 0 <= o -> file_byte sbi' (tree sih') o =
        if (pos <=? o) && (o <? pos + len) then um (buf + (o - pos)) else file_byte sbi0 t0 o)).
Proof. apply write_run. Qed.

(** C3: What is written is read: after a write that returned the length, reading the same
    range into any buffer copies the bytes of the written one.  The conditions on the write
    are those of the write above: it passes the inverted test of the buffer, every copy from and
    to the user is complete, the radix tree gets its memory, the entries fit in the page of
    the log tail, and every block is more than [3 * num + 1] writes below the migration
    threshold. *)
Theorem read_back um inode (append : bool) time buf len ppos mon sih um2 buf2 :
  let pos := if append then vfs_size inode else ppos in
  let num := (len + pos mod 4096 - 1) / 4096 + 1 in
  readable sbi0 t0 -> tree sih = t0 -> i_ino inode = Pi.nova_ino m0 pi -> Pi.log_tail m0 pi = tail0 ->
  tail0 + 40 * num <= limit -> 0 < len < 2 ^ 32 -> 0 <= pos -> pos + len < 2 ^ 62 -> 0 <= vfs_size inode < 2 ^ 62 ->
  0 <= buf -> buf + len < 2 ^ 64 -> 0 <= buf2 -> buf2 + len < 2 ^ 64 -> ready (Z.to_nat (3 * num) + 1) mon ->
  exists w' inode' ppos' ret,
    nova_cow_file_write slab_garbage smp jiffies_to_msecs e garbage radix_nomem uncopied nova_base_address
      false false append 0 time um buf len ppos inode (World sbi0 mon sih) = Some ((ret, ppos', inode'), w') /\
    (ret = - ENOSPC \/
     (ret = len /\ exists um', do_dax_mapping_read smp uncopied true um2 (vfs_size inode') buf2 len pos w' =
        Some ((len, pos + len, um'), w') /\
      forall a, um' a = if (buf2 <=? a) && (a <? buf2 + len) then um (buf + (a - buf2)) else um2 a)).
Proof.
  intros pos num Hrd Hsih Hino Htail Hlim Hlen Hp0 Hp1 Hsz Hb0 Hb1 Hc0 Hc1 Hr.
  destruct (write_run um inode append time buf len ppos mon sih 0) as (sbi' & mon' & sih' & inode' & ppos' & ret & E & _ & [Hrd' (F' & HF' & _)] & Hout); auto.
  exists (World sbi' mon' sih'), inode', ppos', ret. split; [done|]. destruct Hout as [[-> _]|(-> & -> & Hsize & _ & Hbytes)]; [by left|].
  right. split; [done|]. fold pos in Hsize, Hbytes.
  destruct (read_run smp uncopied sbi' mon' sih' um2 (vfs_size inode') buf2 len pos) as (um' & Er & Hum); auto; try lia.
  { apply (lb_size _ _ HF'). }
  rewrite Z.min_l, Z.max_r in Er, Hum by lia. exists um'. split; [exact Er|].
  intros a. rewrite Hum. destruct (Z.leb_spec buf2 a), (Z.ltb_spec a (buf2 + len)); cbn [andb]; try done.
  rewrite Hbytes by lia. rewrite (proj2 (Z.leb_le pos _)), (proj2 (Z.ltb_lt _ (pos + len))) by lia. cbn [andb]. f_equal. lia.
Qed.
End write.

(** ** A valid buffer *)

(** The test of the buffer is the wrong way round (dax.c:380): when [access_ok] holds, the write
    leaves with [-EFAULT] before it has looked up the inode, and on the way out follows the
    pointer to it, which has not been set (dax.c:549). *)
Lemma valid_write_faults `{RbTree} slab_garbage smp jiffies_to_msecs e garbage radix_nomem uncopied nova_base_address
    append privs time um buf len ppos inode w :
  len <> 0 -> nova_cow_file_write slab_garbage smp jiffies_to_msecs e garbage radix_nomem uncopied nova_base_address
    true false append privs time um buf len ppos inode w = None.
Proof. intros Hlen. unfold nova_cow_file_write. by rewrite (proj2 (Z.eqb_neq len 0) Hlen). Qed.

(** ** An example *)

Module WriteDemo.
Import RbList.RbList InodeTable.TableDemo Detect.DetectDemo FastGc.GcDemo Truncate.TruncateDemo.

(** The file of [TruncateDemo], with the end of its log in page 5, behind its entry. *)
Definition wr_tail : Z := 4096 * 5 + 200.
Definition wr_sbi : nova_sb_info := with_nvm (Pi.set_log_tail (nvm cut_sbi) gc_pi wr_tail) gc_sbi.
Definition wr_inode : vfs_inode := VfsInode 40 12288 3 0 1 0 0 (S_IFREG + 420) 0 0 0 0 0.
(** The byte at an address of the user is its last digit. *)
Definition wr_user : memory := fun a => a mod 10.

Lemma wr_low x : ~ gc_pi + 80 <= x < gc_pi + 88 -> nvm wr_sbi x = nvm cut_sbi x.
Proof. intros Hx. apply store_disjoint. simpl. lia. Qed.

Lemma wr_fields (m := nvm wr_sbi) : We.pgoff m cut_entry = 0 /\ We.num_pages m cut_entry = 3 /\
  We.invalid_pages m cut_entry = 1 /\ Z.shiftr (We.block m cut_entry) PAGE_SHIFT = 6 /\
  Pi.i_blk_type m gc_pi = 0 /\ Pi.log_tail m gc_pi = wr_tail /\ Pi.nova_ino m gc_pi = 40.
Proof. vm_compute. split_and!; reflexivity. Qed.

Lemma wr_geometry : virt_addr wr_sbi = 65536 /\ num_blocks wr_sbi = 20 /\ cpus wr_sbi = 2.
Proof. vm_compute. split_and!; reflexivity. Qed.

Lemma wr_env : exists F P, write_env 0 wr_sbi F P gc_pi cut_tree (fun b => b = 5).
Proof.
  destruct gc_demo as (F & P & Hh & Hc & _ & H3 & _). exists F, P. destruct wr_fields as (F1 & F2 & F3 & F4 & F5 & _ & F7).
  destruct wr_geometry as (Ev & En & Ec). destruct cut_fields as (_ & _ & _ & _ & _ & Hsl).
  assert (forall p, entry_block (nvm wr_sbi) cut_entry p = 6 + p) as Hbk
    by (intros p; unfold entry_block; rewrite F4, F1; lia).
  assert (forall b, b ∈ [5; 6; 7; 8] -> ~ F b) as Hused by (intros b Hb; apply (cl_blocks _ _ _ _ _ _ Hc), Hb).
  assert (forall b, F b -> b <> 3) as Hne by (intros b Hb ->; exact (H3 Hb)).
  pose proof (cl_mapped _ _ _ _ _ _ Hc) as Hmp.
  assert (virt_addr gc_sbi = 65536 /\ num_blocks gc_sbi = 20) as [Ev' En'] by (vm_compute; split; reflexivity).
  split; rewrite ?Ev, ?En.
  - apply (homed_frame gc_sbi); [exact Hh|exact Hmp|rewrite En'; lia| | |].
    + exact (with_nvm_geometry _ gc_sbi).
    + intros x Hx. unfold block_addr in Hx. rewrite Ev' in Hx.
      rewrite wr_low by (unfold gc_pi; lia). unfold cut_sbi, copy_write_entry, cut_entry. cbn [nvm with_nvm]. cbv zeta.
      rewrite !store_disjoint by (simpl; lia). reflexivity.
    + rewrite F7. symmetry. apply gc_fields.
  - split; rewrite ?Ev, ?En; lia.
  - reflexivity.
  - apply lb_free_nvm. exact (cl_free _ _ _ _ _ _ Hc).
  - rewrite Ec. lia.
  - vm_compute. discriminate.
  - exact F5.
  - rewrite F7. reflexivity.
  - intros p a [-> Hp]%cut_tree_lookup. rewrite F1, F2. lia.
  - intros p a [-> Hp]%cut_tree_lookup. rewrite Hbk. split; [lia|]. apply Hused.
    destruct Hp as [-> | ->]; [right; left|right; right; right; left].
  - intros p q a b [-> Hp]%cut_tree_lookup [-> Hq]%cut_tree_lookup. rewrite !Hbk. lia.
  - intros p a [-> Hp]%cut_tree_lookup. exists 5. split; [reflexivity|]. unfold block_addr, cut_entry. rewrite Ev. lia.
  - intros p q a b [-> Hp]%cut_tree_lookup [-> Hq]%cut_tree_lookup Hnn. by destruct Hnn.
  - intros p a [-> Hp]%cut_tree_lookup. rewrite Hsl, F3, F2. lia.
  - intros b ->. split; [lia|]. apply Hused. left.
  - intros b p a -> [-> Hp]%cut_tree_lookup. rewrite Hbk. lia.
  - intros b Hb. assert (b <> 3) as Hb3.
    { destruct Hb as [Hb|[Hb|(p & a & [-> Hp]%cut_tree_lookup & Hb)]]; [by apply Hne|lia|]. rewrite Hbk in Hb. lia. }
    unfold block_addr, gc_pi. rewrite Ev. lia.
  - unfold block_addr, gc_pi. rewrite Ev. lia.
Qed.

Lemma wr_tail_ok : tail_ok wr_sbi cut_tree (fun b => b = 5) wr_tail (wr_tail + 80).
Proof.
  destruct wr_geometry as (Ev & _). split.
  - reflexivity.
  - vm_compute. split; discriminate.
  - intros p a [-> Hp]%cut_tree_lookup. rewrite Ev. left. unfold cut_entry, wr_tail. lia.
Qed.

Lemma wr_readable : readable wr_sbi cut_tree.
Proof.
  destruct wr_env as (F & P & W). destruct wr_fields as (_ & _ & F3 & _). split.
  - exact (we_mapped _ _ _ _ _ _ _ W).
  - exact (we_cover _ _ _ _ _ _ _ W).
  - intros p a Ha. exact (proj1 (we_used _ _ _ _ _ _ _ W p a Ha)).
  - intros p a [-> Hp]%cut_tree_lookup H0. rewrite F3 in H0. discriminate H0.
Qed.
#[local] Abbreviation wr_run := (fun mon : monitor =>
  nova_cow_file_write garbage 0 msecs_250 (demo_env 0) 0 (fun _ => false) (fun _ _ => 0) 65536 false false false
    0 7 wr_user 100 4000 5000 wr_inode (World wr_sbi mon cut_sih)).

(** The result of a run from a monitor that is the result of another. *)
Lemma run_from {A B C} (o : option (unit * A)) (k : A -> option B) (f : B -> C) x y :
  o = Some (tt, x) -> f <$> (o ≫= fun r => k (snd r)) = Some y -> exists z, k x = Some z /\ f z = y.
Proof. intros ->. cbn. destruct (k x) as [z|]; [|done]. intros [= <-]. by exists z. Qed.

Lemma wr_returns : (fun r => fst (fst (fst r))) <$> (init_monitor initial_monitor ≫= fun r => wr_run (snd r)) = Some 4000.
Proof. vm_compute. reflexivity. Qed.

(** Bytes 5000 to 8999 of the file are written: part of a hole and part of page 2. *)
Lemma write_exact_witness : exists mon sbi' mon' sih' inode',
  nova_cow_file_write garbage 0 msecs_250 (demo_env 0) 0 (fun _ => false) (fun _ _ => 0) 65536 false false false
    0 7 wr_user 100 4000 5000 wr_inode (World wr_sbi mon cut_sih) =
    Some ((4000, 9000, inode'), World sbi' mon' sih') /\
  vfs_size inode' = 12288 /\ file_byte sbi' (tree sih') 5001 = 1 /\ file_byte sbi' (tree sih') 8999 = 9 /\
  file_byte sbi' (tree sih') 4999 = 0 /\ file_byte sbi' (tree sih') 9000 = file_byte wr_sbi cut_tree 9000.
Proof.
  destruct wr_env as (F & P & W). destruct (ready_init 7 ltac:(lia)) as (mon & Em & Hr).
  destruct wr_fields as (_ & _ & _ & _ & _ & F6 & F7).
  destruct (write_exact garbage 0 msecs_250 (demo_env 0) 0 (fun _ => false) (fun _ _ => 0) 65536 wr_sbi F P gc_pi cut_tree
    (fun b => b = 5) W wr_tail (wr_tail + 80) wr_tail_ok ltac:(vm_compute; discriminate) (fun _ => eq_refl) (fun _ _ => eq_refl)
    wr_user wr_inode false 7 100 4000 5000 mon cut_sih 0 wr_readable eq_refl (eq_sym F7) F6)
    as (sbi' & mon' & sih' & inode' & ppos' & ret & E & _ & _ & Hout);
    [vm_compute; (discriminate || (split; (reflexivity || discriminate)))..|exact Hr|].
  destruct (run_from _ wr_run _ mon 4000 Em wr_returns) as (z & Ez & Hz). cbv beta in Ez. rewrite E in Ez.
  injection Ez as <-. simpl in Hz. subst ret. destruct Hout as [[Hbad _]|(_ & -> & Hs & _ & Hb)]; [discriminate Hbad|].
  exists mon, sbi', mon', sih', inode'. split; [exact E|]. split; [exact Hs|].
  rewrite !Hb by lia. cbv beta iota. cbn [Z.leb Z.ltb Z.compare Z.add andb]. split; [reflexivity|]. split; [reflexivity|].
  split; [vm_compute; reflexivity|reflexivity].
Defined.

Lemma read_back_witness : exists mon w' inode' ppos' um',
  nova_cow_file_write garbage 0 msecs_250 (demo_env 0) 0 (fun _ => false) (fun _ _ => 0) 65536 false false false
    0 7 wr_user 100 4000 5000 wr_inode (World wr_sbi mon cut_sih) = Some ((4000, ppos', inode'), w') /\
  do_dax_mapping_read 0 (fun _ _ => 0) true wr_user (vfs_size inode') 50000 4000 5000 w' = Some ((4000, 9000, um'), w') /\
  um' 50003 = 3.
Proof.
  destruct wr_env as (F & P & W). destruct (ready_init 7 ltac:(lia)) as (mon & Em & Hr).
  destruct wr_fields as (_ & _ & _ & _ & _ & F6 & F7).
  destruct (read_back garbage 0 msecs_250 (demo_env 0) 0 (fun _ => false) (fun _ _ => 0) 65536 wr_sbi F P gc_pi cut_tree
    (fun b => b = 5) W wr_tail (wr_tail + 80) wr_tail_ok ltac:(vm_compute; discriminate) (fun _ => eq_refl) (fun _ _ => eq_refl)
    wr_user wr_inode false 7 100 4000 5000 mon cut_sih wr_user 50000 wr_readable eq_refl (eq_sym F7) F6)
    as (w' & inode' & ppos' & ret & E & Hout);
    [vm_compute; (discriminate || (split; (reflexivity || discriminate)))..|exact Hr|].
  destruct (run_from _ wr_run _ mon 4000 Em wr_returns) as (z & Ez & Hz). cbv beta in Ez. rewrite E in Ez.
  injection Ez as <-. simpl in Hz. subst ret. destruct Hout as [Hbad|(_ & um' & Er & Hum)]; [discriminate Hbad|].
  exists mon, w', inode', ppos', um'. split; [exact E|]. split; [exact Er|]. rewrite Hum. reflexivity.
Defined.

Lemma read_exact_witness : exists um',
  do_dax_mapping_read 0 (fun _ _ => 0) true wr_user 12288 50000 9000 8000 (World wr_sbi initial_monitor cut_sih) =
    Some ((4288, 12288, um'), World wr_sbi initial_monitor cut_sih) /\
  um' 50000 = 0 /\ um' 54287 = file_byte wr_sbi cut_tree 12287 /\ um' 54289 = 9.
Proof.
  destruct wr_geometry as (_ & En & _).
  destruct (read_exact 0 (fun _ _ => 0) wr_sbi initial_monitor cut_sih wr_user 12288 50000 9000 8000 wr_readable)
    as (um' & E & Hum); [rewrite En; lia|reflexivity|lia..|].
  exists um'. split; [exact E|]. rewrite !Hum. split; [reflexivity|]. split; reflexivity.
Defined.
End WriteDemo.
