(* ===== verification/Directory.v ===== *)
(** * Directories (dir.c)

    A directory is a log of entries and, in memory, a tree from the hashes of the names to
    the entries.  Names are given by a pointer into the memory of the kernel, [km], and a
    length.  The definitions follow dir.c; the theorems are in DirTree and DirLog. *)

From S2P Require Import Prelude Layout RangeTree RbList State Balloc BallocFacts BallocSpec.
From S2P Require Import BallocInit BallocTheorems TreeEdits InodeMap LogBlocks InodeTable.
From S2P Require Import Monitor Histogram HashTable Records KnapSack Detect WriteCount Migrate.
From S2P Require Import LogPages World InodeLog FileTree FileData.
#[local] Open Scope word_scope.

Definition EEXIST : Z := 17.
Definition FREE_BATCH : nat := 16.
Definition READDIR_END : Z := 18446744073709551615.

Definition NOVA_DIR_LOG_REC_LEN (name_len : Z) : Z := Z.land (name_len + 29 + 7) (Z.lnot 7).

Definition IF2DT (sif : Z) : Z := Z.shiftr (Z.land sif S_IFMT) 12.

(** [strncmp], of bytes as unsigned characters. *)
Fixpoint strncmp (n : nat) (m1 : memory) (s1 : Z) (m2 : memory) (s2 : Z) : Z :=
  match n with
  | O => 0
  | S n =>
    let c1 := m1 s1 mod 256 in
    let c2 := m2 s2 mod 256 in
    if negb (c1 =? c2) then (if c1 <? c2 then -1 else 1)
    else if c1 =? 0 then 0
    else strncmp n m1 (s1 + 1) m2 (s2 + 1)
  end.

(** The entries of the tree with an index of [pos] at least, [n] of them at most, in the
    order of the indices (lib/radix-tree.c). *)
Fixpoint radix_tree_gang_lookup (n : nat) (t : gmap Z Z) (pos : Z) : list Z :=
  match n with
  | O => []
  | S n =>
    match radix_tree_next t pos with
    | Some (k, v) => v :: radix_tree_gang_lookup n t (k + 1)
    | None => []
    end
  end.

Section operations.
Context `{RbTree} (slab_garbage : nova_range_node) (smp : Z) (jiffies_to_msecs : Z -> Z) (e : env).
Context (garbage : Z) (radix_nomem : Z -> bool) (nova_base_address : Z).

(** ** The tree of names *)

Definition nova_find_dentry (km : memory) (name name_len : Z) : fs (option Z) :=
  sih ← get_sih;
  mret (tree sih !! BKDRHash km name name_len).

Definition nova_insert_dir_radix_tree (km : memory) (name namelen direntry : Z) : fs Z :=
  let hash := BKDRHash km name namelen in
  sih ← get_sih;
  match tree sih !! hash with
  | Some _ => mret (- EEXIST)
  | None =>
    if radix_nomem hash then mret (- ENOMEM)
    else _ ← put_sih (with_tree (<[hash := direntry]> (tree sih))); mret 0
  end.

Definition nova_check_dentry_match (mem : memory) (dentry : Z) (km : memory) (name namelen : Z) : Z :=
  if negb (De.name_len mem dentry =? namelen) then - EINVAL
  else strncmp (Z.to_nat namelen) mem (De.name mem dentry) km name.

Definition nova_remove_dir_radix_tree (km : memory) (name namelen : Z) (replay : bool) : fs Z :=
  let hash := BKDRHash km name namelen in
  sih ← get_sih;
  let entry := tree sih !! hash in
  _ ← put_sih (with_tree (delete hash (tree sih)));
  if replay then mret 0
  else
    match entry with
    | None => mret (- EINVAL)
    | Some entry =>
      mem ← get_nvm;
      if (De.ino mem entry =? 0) || negb (De.invalid mem entry =? 0) ||
         negb (nova_check_dentry_match mem entry km name namelen =? 0)
      then mret (- EINVAL)
      else _ ← put_nvm (fun mem => store 1 mem (entry + 3) 1); mret 0
    end.

(** The entries of a batch of [nova_delete_dir_tree] are removed, [pos] follows. *)
Fixpoint delete_dir_batch (entries : list Z) (pos : Z) : fs Z :=
  match entries with
  | [] => mret pos
  | direntry :: entries =>
    mem ← get_nvm;
    let pos := BKDRHash mem (De.name mem direntry) (De.name_len mem direntry) in
    _ ← put_sih (fun sih => with_tree (delete pos (tree sih)) sih);
    delete_dir_batch entries pos
  end.

(** Batches of [FREE_BATCH] entries; [fuel] bounds their number. *)
Fixpoint delete_dir_loop (fuel : nat) (pos : Z) : fs unit :=
  match fuel with
  | O => fs_fault
  | S fuel =>
    sih ← get_sih;
    let entries := radix_tree_gang_lookup FREE_BATCH (tree sih) pos in
    pos ← delete_dir_batch entries pos;
    if (length entries =? FREE_BATCH)%nat then delete_dir_loop fuel (pos ⊞ 1) else mret tt
  end.

Definition nova_delete_dir_tree : fs unit :=
  sih ← get_sih;
  delete_dir_loop (S (size (tree sih))) 0.

(** ** Entries *)

(** The fields of an entry, in the order in which they are stored.  The name comes from the
    memory of the kernel, so that the copy is complete. *)
Definition dentry_head (mem : memory) (entry ino : Z) (km : memory) (name namelen : Z) : memory :=
  let mem := store 1 mem entry DIR_LOG in
  let mem := store 8 mem (entry + 12) ino in
  let mem := store 1 mem (entry + 1) namelen in
  copy_between mem (De.name mem entry) km name (u32 namelen).

Definition dentry_rest (mem : memory) (entry namelen mtime size links_count de_len : Z) : memory :=
  let mem := store 1 mem (De.name mem entry + namelen) 0 in
  let mem := store 1 mem (entry + 2) 0 in
  let mem := store 1 mem (entry + 3) 0 in
  let mem := store 4 mem (entry + 8) mtime in
  let mem := store 8 mem (entry + 20) size in
  let mem := store 2 mem (entry + 6) links_count in
  store 2 mem (entry + 4) de_len.

(** The number of links an entry records. *)
Definition dentry_links (nlink link_change : Z) : Z :=
  let links_count := u16 nlink in
  if (links_count =? 0) && (link_change =? -1) then 0 else u16 (links_count + link_change).

(** [nova_append_dir_inode_entry]: the position of the entry, the position behind it and the
    inode of the directory. *)
Definition nova_append_dir_inode_entry (pidir : Z) (dir : vfs_inode) (ino : Z) (km : memory)
    (name namelen de_len tail link_change : Z) : fs (Z * Z * vfs_inode) :=
  curr_p ← nova_get_append_head slab_garbage smp jiffies_to_msecs e garbage pidir tail de_len;
  if curr_p =? 0 then fs_fault
  else
    entry ← get_block curr_p;
    _ ← put_nvm (fun mem => dentry_head mem entry ino km name namelen);
    mem ← get_nvm;
    sbi ← get_sbi;
    _ ← log_block_write_count_increase jiffies_to_msecs e (get_block_number_by_virt (virt_addr sbi) (De.name mem entry));
    _ ← put_nvm (fun mem => dentry_rest mem entry namelen (vfs_mtime dir) (vfs_size dir)
                              (dentry_links (vfs_nlink dir) link_change) de_len);
    mem ← get_nvm;
    mret (curr_p, curr_p ⊞ de_len, with_vfs_blocks (Pi.i_blocks mem pidir) dir).

(** One of the entries of a new directory; [name] is ["."] or [".."], with its final zero.
    The type of the file and the mark of an invalid entry are not set. *)
Definition init_dentry (mem : memory) (entry ino namelen mtime links : Z) : memory :=
  let mem := store 1 mem entry DIR_LOG in
  let mem := store 8 mem (entry + 12) ino in
  let mem := store 1 mem (entry + 1) namelen in
  let mem := store 2 mem (entry + 4) (NOVA_DIR_LOG_REC_LEN namelen) in
  let mem := store 4 mem (entry + 8) mtime in
  let mem := store 8 mem (entry + 20) s_blocksize in
  let mem := store 2 mem (entry + 6) links in
  copy_between mem (De.name mem entry) (fun i => if i <? namelen then 46 else 0) 0 (namelen + 1).

(** The time is read from an unset variable. *)
Definition nova_append_dir_init_entries (pi self_ino parent_ino : Z) : fs Z :=
  mem ← get_nvm;
  if negb (Pi.log_head mem pi =? 0) then mret (- EINVAL)
  else
    r ← on_sbi (fun sbi =>
          match nova_allocate_inode_log_pages smp sbi pi 1 garbage garbage with
          | Some (allocated, new_block, sbi) => Some ((allocated, new_block), sbi)
          | None => None
          end);
    let '(allocated, new_block) := (r : Z * Z) in
    if negb (allocated =? 1) then mret (- ENOMEM)
    else
      pi ← reget_inode smp pi;
      _ ← put_nvm (fun mem => Pi.set_i_blocks (Pi.set_log_tail (Pi.set_log_head mem pi new_block) pi new_block) pi 1);
      de_entry ← get_block new_block;
      _ ← put_nvm (fun mem => init_dentry mem de_entry self_ino 1 garbage 1);
      let curr_p := new_block ⊞ NOVA_DIR_LOG_REC_LEN 1 in
      mem ← get_nvm;
      let de_entry := de_entry + De.de_len mem de_entry in
      _ ← put_nvm (fun mem => init_dentry mem de_entry parent_ino 2 garbage 2);
      let curr_p := curr_p ⊞ NOVA_DIR_LOG_REC_LEN 2 in
      _ ← nova_update_tail_wwb smp e nova_base_address pi curr_p;
      _ ← count_inode jiffies_to_msecs e pi;
      mret 0.

(** [nova_add_dentry]: the result, the new tail ([None] when it is not set) and the inode of
    the directory. *)
Definition nova_add_dentry (dir : vfs_inode) (km : memory) (name namelen ino inc_link tail time : Z) :
    fs (Z * option Z * vfs_inode) :=
  if namelen =? 0 then mret (- EINVAL, None, dir)
  else
    sih ← get_sih;
    r ← on_sbi (fun sbi => nova_get_inode smp sbi (i_ino dir) (sih_pi_addr sih));
    match (r : unit + Z) with
    | inl _ => fs_fault
    | inr pidir =>
      let dir := with_vfs_time time dir in
      let loglen := u16 (NOVA_DIR_LOG_REC_LEN namelen) in
      r ← nova_append_dir_inode_entry pidir dir ino km name namelen loglen tail inc_link;
      let '(curr_entry, curr_tail, dir) := (r : Z * Z * vfs_inode) in
      direntry ← get_block curr_entry;
      ret ← nova_insert_dir_radix_tree km name namelen direntry;
      mret (ret, Some curr_tail, dir)
    end.

Definition nova_remove_dentry (dir : vfs_inode) (km : memory) (name namelen dec_link tail time : Z) :
    fs (Z * option Z * vfs_inode) :=
  if namelen =? 0 then mret (- EINVAL, None, dir)
  else
    sih ← get_sih;
    r ← on_sbi (fun sbi => nova_get_inode smp sbi (i_ino dir) (sih_pi_addr sih));
    match (r : unit + Z) with
    | inl _ => fs_fault
    | inr pidir =>
      let dir := with_vfs_time time dir in
      let loglen := u16 (NOVA_DIR_LOG_REC_LEN namelen) in
      r ← nova_append_dir_inode_entry pidir dir 0 km name namelen loglen tail dec_link;
      let '(curr_entry, curr_tail, dir) := (r : Z * Z * vfs_inode) in
      _ ← nova_remove_dir_radix_tree km name namelen false;
      mret (0, Some curr_tail, dir)
    end.

(** ** Replaying the log *)

Definition nova_replay_add_dentry (entry : Z) : fs Z :=
  mem ← get_nvm;
  if De.name_len mem entry =? 0 then mret (- EINVAL)
  else nova_insert_dir_radix_tree mem (De.name mem entry) (De.name_len mem entry) entry.

Definition nova_replay_remove_dentry (entry : Z) : fs Z :=
  mem ← get_nvm;
  _ ← nova_remove_dir_radix_tree mem (De.name mem entry) (De.name_len mem entry) true;
  mret 0.

Definition nova_rebuild_dir_time_and_size (pi entry : Z) : fs unit :=
  pi ← reget_inode smp pi;
  _ ← put_nvm (fun m =>
        let m := Pi.set_i_ctime m pi (De.mtime m entry) in
        let m := Pi.set_i_mtime m pi (De.mtime m entry) in
        let m := Pi.set_i_size m pi (De.size m entry) in
        Pi.set_i_links_count m pi (De.links_count m entry));
  count_inode jiffies_to_msecs e pi.

(** One turn of the loop of [nova_rebuild_dir_inode_tree] at [curr_p]: the value of [ret] and
    the length of the entry, [None] where the loop is left. *)
Definition rebuild_dir_entry (pi curr_p ret : Z) : fs (Z * option Z) :=
  addr ← get_block curr_p;
  mem ← get_nvm;
  let type := nova_get_entry_type mem addr in
  if type =? SET_ATTR then
    _ ← nova_apply_setattr_entry slab_garbage smp jiffies_to_msecs e pi addr;
    _ ← put_sih (with_last_setattr curr_p);
    mret (ret, Some Sa.length)
  else if type =? LINK_CHANGE then
    _ ← nova_apply_link_change_entry pi addr;
    _ ← put_sih (with_last_link_change curr_p);
    mret (ret, Some Lc.length)
  else if negb (type =? DIR_LOG) then fs_fault
  else
    ret ← (if 0 <? De.ino mem addr then
             if De.invalid mem addr =? 0 then nova_replay_add_dentry addr else mret ret
           else nova_replay_remove_dentry addr);
    if negb (ret =? 0) then mret (ret, None)
    else
      _ ← nova_rebuild_dir_time_and_size pi addr;
      mem ← get_nvm;
      mret (ret, Some (De.de_len mem addr)).

Fixpoint rebuild_dir_loop (fuel : nat) (pi curr_p ret : Z) : fs Z :=
  mem ← get_nvm;
  if curr_p =? Pi.log_tail mem pi then mret curr_p
  else
    match fuel with
    | O => fs_fault
    | S fuel =>
      sbi ← get_sbi;
      curr_p ← (if goto_next_page sbi curr_p then
                  _ ← put_sih (fun sih => with_log_pages (log_pages sih ⊞ 1) sih);
                  mret (next_log_page sbi curr_p)
                else mret curr_p);
      if curr_p =? 0 then fs_fault
      else
        r ← rebuild_dir_entry pi curr_p ret;
        match (r : Z * option Z) with
        | (ret, Some len) => rebuild_dir_loop fuel pi (curr_p ⊞ len) ret
        | (_, None) => mret curr_p
        end
    end.

(** [ret] is unset before the first entry. *)
Definition nova_rebuild_dir_inode_tree (pi pi_addr : Z) : fs Z :=
  mem ← get_nvm;
  _ ← put_sih (with_sih_pi_addr pi_addr);
  pi ← (if 6 <=? Pi.nova_ino mem pi then lookup_inode smp (Pi.nova_ino mem pi) 0 else mret pi);
  mem ← get_nvm;
  sbi ← get_sbi;
  let curr_p := Pi.log_head mem pi in
  if curr_p =? 0 then fs_fault
  else
    _ ← put_sih (with_log_pages 1);
    curr_p ← rebuild_dir_loop (Z.to_nat (4096 * num_blocks sbi)) pi curr_p garbage;
    mem ← get_nvm;
    _ ← put_sih (fun sih => with_sih_mode (Pi.i_mode mem pi) (with_sih_size (Pi.i_size mem pi) sih));
    _ ← count_chain (Z.to_nat (num_blocks sbi)) (BLOCK_OFF curr_p);
    pi ← reget_inode smp pi;
    sih ← get_sih;
    _ ← put_nvm (fun m => Pi.set_i_blocks m pi (log_pages sih));
    _ ← count_inode jiffies_to_msecs e pi;
    mret 0.

(** ** Listing *)

Definition nova_find_next_dentry_addr (pos : Z) : fs Z :=
  sih ← get_sih;
  sbi ← get_sbi;
  match radix_tree_gang_lookup 1 (tree sih) pos with
  | entry :: _ => mret (entry ⊟ virt_addr sbi)
  | [] => mret 0
  end.

(** What a listing emits: the address of the name and its length, the inode number and the
    type. *)
Record emitted := Emitted {
  em_name : Z;
  em_name_len : Z;
  em_ino : Z;
  em_type : Z;
}.

(** [dir_emit], for a reader that takes [room] more entries. *)
Definition dir_emit (room : nat) (out : list emitted) (x : emitted) : option (nat * list emitted) :=
  match room with
  | O => None
  | S room => Some (room, out ++ [x])
  end.

(** The loop of [nova_readdir]: [inl] is a return with the result, the position and what was
    emitted; [inr] leaves the loop. [prev] is the entry before and its inode, [ino] the
    number of the last entry. *)
Fixpoint readdir_loop (fuel : nat) (pidir curr_p pos ctx_pos : Z) (prev : option (Z * Z)) (ino : Z)
    (room : nat) (out : list emitted) :
    fs ((Z * Z * list emitted) + (Z * option (Z * Z) * Z * nat * list emitted)) :=
  mem ← get_nvm;
  if curr_p =? Pi.log_tail mem pidir then mret (inr (ctx_pos, prev, ino, room, out))
  else
    match fuel with
    | O => fs_fault
    | S fuel =>
      sbi ← get_sbi;
      let curr_p := if goto_next_page sbi curr_p then next_log_page sbi curr_p else curr_p in
      if curr_p =? 0 then fs_fault
      else
        let addr := nova_get_block (virt_addr sbi) curr_p in
        let type := nova_get_entry_type mem addr in
        if type =? SET_ATTR then readdir_loop fuel pidir (curr_p ⊞ Sa.length) pos ctx_pos prev ino room out
        else if type =? LINK_CHANGE then
          readdir_loop fuel pidir (curr_p ⊞ Lc.length) pos ctx_pos prev ino room out
        else if negb (type =? DIR_LOG) then fs_fault
        else
          let de_len := De.de_len mem addr in
          if (0 <? De.ino mem addr) && (De.invalid mem addr =? 0) then
            let ino := De.ino mem addr in
            let pos := BKDRHash mem (De.name mem addr) (De.name_len mem addr) in
            r ← on_sbi (fun sbi =>
                  match nova_get_inode_address smp sbi ino garbage 0 0 with
                  | Some (ret, pi_addr, sbi) => Some ((ret, pi_addr), sbi)
                  | None => None
                  end);
            let '(ret, pi_addr) := (r : Z * Z) in
            if negb (ret =? 0) then mret (inl (ret, READDIR_END, out))
            else
              let child_pi := nova_get_block (virt_addr sbi) pi_addr in
              match prev with
              | None => readdir_loop fuel pidir (curr_p ⊞ de_len) pos pos (Some (addr, child_pi)) ino room out
              | Some (prev_entry, prev_child) =>
                match dir_emit room out (Emitted (De.name mem prev_entry) (De.name_len mem prev_entry) ino
                                           (IF2DT (Pi.i_mode mem prev_child))) with
                | None => mret (inl (0, ctx_pos, out))
                | Some (room, out) =>
                  readdir_loop fuel pidir (curr_p ⊞ de_len) pos pos (Some (addr, child_pi)) ino room out
                end
              end
          else readdir_loop fuel pidir (curr_p ⊞ de_len) pos pos prev ino room out
    end.

(** [nova_readdir]: the result, the new position and what was emitted. *)
Definition nova_readdir (dir : vfs_inode) (ctx_pos : Z) (room : nat) : fs (Z * Z * list emitted) :=
  sih ← get_sih;
  r ← on_sbi (fun sbi => nova_get_inode smp sbi (i_ino dir) (sih_pi_addr sih));
  match (r : unit + Z) with
  | inl _ => fs_fault
  | inr pidir =>
    mem ← get_nvm;
    sbi ← get_sbi;
    if Pi.log_head mem pidir =? 0 then fs_fault
    else
      let pos := ctx_pos in
      if pos =? READDIR_END then mret (0, ctx_pos, [])
      else
        curr_p ← (if pos =? 0 then mret (Pi.log_head mem pidir) else nova_find_next_dentry_addr pos);
        if negb (pos =? 0) && (curr_p =? 0) then mret (0, ctx_pos, [])
        else
          r ← readdir_loop (Z.to_nat (4096 * num_blocks sbi)) pidir curr_p pos ctx_pos None garbage room [];
          match r with
          | inl result => mret result
          | inr (ctx_pos, prev, ino, room, out) =>
            mem ← get_nvm;
            match prev with
            | None => mret (0, READDIR_END, out)
            | Some (prev_entry, prev_child) =>
              match dir_emit room out (Emitted (De.name mem prev_entry) (De.name_len mem prev_entry) ino
                                         (IF2DT (Pi.i_mode mem prev_child))) with
              | None => mret (0, ctx_pos, out)
              | Some (_, out) => mret (0, READDIR_END, out)
              end
            end
          end
  end.
End operations.
