(* ===== verification/DirTree.v ===== *)
(** * A directory is a map from names to inode numbers

    The operations of dir.c on a directory in memory, against the map of its names: as long
    as the hashes of the names differ, adding an entry inserts the name, removing one deletes
    it, and the search finds exactly the names of the map.  Names with the same hash are
    taken for each other. *)

From S2P Require Import Prelude Layout RangeTree RbList State Balloc BallocFacts BallocSpec.
From S2P Require Import BallocInit BallocTheorems TreeEdits InodeMap LogBlocks InodeTable.
From S2P Require Import Monitor Histogram HashTable Records KnapSack Detect WriteCount Migrate.
From S2P Require Import LogPages World InodeLog FastGc LogAppend FileTree Truncate WearBudget FileData Directory.
#[local] Open Scope word_scope.

(** ** Names *)

(** The bytes from [a] on. *)
Definition bytes (m : memory) (a n : Z) : list Z := (fun i => m (a + i) mod 256) <$> seqZ 0 n.

Definition hash_step (h c : Z) : Z := u64 (u64 (h * 131) + i8_of c).
Definition name_hash (s : list Z) : Z := foldl hash_step 0 s.

Lemma bytes_S m a n : 0 <= n -> bytes m a (n + 1) = m a mod 256 :: bytes m (a + 1) n.
Proof.
  intros Hn. unfold bytes. rewrite seqZ_cons by lia. rewrite fmap_cons, Z.add_0_r. f_equal.
  replace (Z.pred (n + 1)) with n by lia. replace (Z.succ 0) with (1 + 0) by lia.
  rewrite <- (fmap_add_seqZ 1 0 n), <- list_fmap_compose. apply list_fmap_ext. intros i x _. simpl. do 2 f_equal. lia.
Qed.

Lemma i8_of_mod c : i8_of (c mod 256) = i8_of c.
Proof. unfold i8_of. by rewrite Z.mod_mod by lia. Qed.

Lemma bkdr_bytes m n : forall a h, bkdr_loop n m a h = foldl hash_step h (bytes m a (Z.of_nat n)).
Proof.
  induction n as [|n IH]; intros a h; [done|]. cbn [bkdr_loop]. rewrite IH.
  replace (Z.of_nat (S n)) with (Z.of_nat n + 1) by lia. rewrite bytes_S by lia. cbn [foldl].
  by rewrite <- (i8_of_mod (m a)).
Qed.

Lemma BKDRHash_name m a n : 0 <= n -> BKDRHash m a n = name_hash (bytes m a n).
Proof. intros Hn. unfold BKDRHash, name_hash. rewrite bkdr_bytes. by rewrite Z2Nat.id by lia. Qed.

Lemma bytes_length m a n : 0 <= n -> Z.of_nat (length (bytes m a n)) = n.
Proof. intros Hn. unfold bytes. rewrite length_fmap, length_seqZ. lia. Qed.

Lemma bytes_ext m m' a a' n : (forall i, 0 <= i < n -> m (a + i) mod 256 = m' (a' + i) mod 256) -> bytes m a n = bytes m' a' n.
Proof.
  intros Hi. unfold bytes. apply list_fmap_ext. intros i x Hx. apply list_elem_of_lookup_2, elem_of_seqZ in Hx. apply Hi. lia.
Qed.

(** [strncmp] decides whether names are equal, if one has no zero. *)
Lemma strncmp_equal n m1 m2 : forall s1 s2,
  0 ∉ bytes m2 s2 (Z.of_nat n) -> (strncmp n m1 s1 m2 s2 = 0 <-> bytes m1 s1 (Z.of_nat n) = bytes m2 s2 (Z.of_nat n)).
Proof.
  induction n as [|n IH]; intros s1 s2 H0; [done|].
  replace (Z.of_nat (S n)) with (Z.of_nat n + 1) in * by lia. rewrite !bytes_S in * by lia. cbn [strncmp].
  apply not_elem_of_cons in H0 as [Hc H0]. destruct (Z.eqb_spec (m1 s1 mod 256) (m2 s2 mod 256)) as [->|Hne]; cbn [negb].
  - rewrite (proj2 (Z.eqb_neq _ 0)) by congruence. rewrite IH by done. split; [by intros ->|by intros [= ?]].
  - split; [|by intros [= ? _]]. by destruct (_ <? _).
Qed.

Lemma rec_len_alt n : 0 <= n -> NOVA_DIR_LOG_REC_LEN n = 8 * ((n + 36) / 8).
Proof.
  intros Hn. unfold NOVA_DIR_LOG_REC_LEN. replace (n + 29 + 7) with (n + 36) by lia.
  rewrite <- Z.ldiff_land. change 7 with (Z.ones 3). rewrite Z.ldiff_ones_r by lia.
  rewrite Z.shiftl_mul_pow2, Z.shiftr_div_pow2 by lia. change (2 ^ 3) with 8. lia.
Qed.

(** ** The tree and the map *)

(** The entry at [a] says that [s] is the inode [ino]. *)
Record dentry_is (m : memory) (a : Z) (s : list Z) (ino : Z) : Prop := {
  dn_ino : De.ino m a = ino /\ 0 < ino;
  dn_valid : De.invalid m a = 0;
  dn_len : De.name_len m a = Z.of_nat (length s);
  dn_name : bytes m (De.name m a) (Z.of_nat (length s)) = s;
}.

(** The bytes of the entry of [s] at [a]. *)
Definition dentry_end (a : Z) (s : list Z) : Z := a + 28 + Z.of_nat (length s).

(** The tree [t] holds the directory [D]. *)
Record dir_rep (m : memory) (t : gmap Z Z) (D : gmap (list Z) Z) : Prop := {
  dr_find s ino : D !! s = Some ino -> exists a, t !! name_hash s = Some a /\ dentry_is m a s ino;
  dr_only h a : t !! h = Some a -> exists s ino, D !! s = Some ino /\ name_hash s = h /\ dentry_is m a s ino;
  dr_inj s s' i i' : D !! s = Some i -> D !! s' = Some i' -> name_hash s = name_hash s' -> s = s';
  dr_apart s s' i i' a a' : D !! s = Some i -> D !! s' = Some i' -> s <> s' -> t !! name_hash s = Some a ->
    t !! name_hash s' = Some a' -> dentry_end a s <= a' \/ dentry_end a' s' <= a;
}.

(** A name that can be looked up: its hash is no other name's. *)
Definition collision_free (D : gmap (list Z) Z) (s : list Z) : Prop :=
  forall s' i, D !! s' = Some i -> name_hash s' = name_hash s -> s' = s.

Lemma dir_rep_lookup m t D s : dir_rep m t D -> collision_free D s ->
  match D !! s with
  | Some ino => exists a, t !! name_hash s = Some a /\ dentry_is m a s ino
  | None => t !! name_hash s = None
  end.
Proof.
  intros [R1 R2 R3 R4] Hc. destruct (D !! s) as [ino|] eqn:E; [by apply R1|].
  destruct (t !! name_hash s) as [a|] eqn:Et; [|done]. destruct (R2 _ _ Et) as (s' & i & Hs & Hh & _).
  rewrite (Hc s' i Hs Hh) in Hs. congruence.
Qed.

(** An entry that has not changed. *)
Lemma dentry_is_same m m' a s ino :
  (forall x, a + 1 <= x < dentry_end a s -> m' x = m x) -> dentry_is m a s ino -> dentry_is m' a s ino.
Proof.
  intros Hm [[H1 H1'] H2 H3 H4]. unfold dentry_end in Hm.
  split; [split; [rewrite <- H1|done]|rewrite <- H2|rewrite <- H3|].
  1-3: apply load_ext; intros x Hx; apply Hm; simpl in Hx; lia.
  rewrite <- H4 at 2. apply bytes_ext. intros i Hi. unfold De.name. by rewrite Hm by lia.
Qed.

Lemma dir_rep_insert m m' t D s ino a :
  dir_rep m t D -> collision_free D s -> D !! s = None -> dentry_is m' a s ino ->
  (forall h b, t !! h = Some b -> forall s', D !! s' <> None -> name_hash s' = h ->
     (dentry_end b s' <= a \/ dentry_end a s <= b) /\ (forall x, b + 1 <= x < dentry_end b s' -> m' x = m x)) ->
  dir_rep m' (<[name_hash s := a]> t) (<[s := ino]> D).
Proof.
  intros R Hc Hn Ha Hold. pose proof R as [R1 R2 R3 R4].
  assert (forall s' i, D !! s' = Some i -> s' <> s /\ name_hash s' <> name_hash s) as Hne.
  { intros s' i Hs. assert (s' <> s) by congruence. split; [done|]. intros Hh. by apply (Hc s' i) in Hh. }
  assert (forall s' i, D !! s' = Some i -> exists b, t !! name_hash s' = Some b /\ dentry_is m' b s' i) as Hkeep.
  { intros s' i Hs. destruct (R1 s' i Hs) as (b & Hb & Hd). exists b. split; [done|].
    eapply dentry_is_same; [|exact Hd]. apply (Hold _ _ Hb s'); [congruence|done]. }
  split.
  - intros s' i [[<- <-]|[Hs Hd]]%lookup_insert_Some; [exists a; by rewrite lookup_insert_eq|].
    destruct (Hkeep s' i Hd) as (b & Hb & Hd'). exists b. rewrite lookup_insert_ne; [done|].
    intros E. symmetry in E. by apply (Hne s' i).
  - intros h b [[<- <-]|[Hh Hb]]%lookup_insert_Some; [exists s, ino; by rewrite lookup_insert_eq|].
    destruct (R2 h b Hb) as (s' & i & Hs & Hh' & _). exists s', i. rewrite lookup_insert_ne by (intros ->; congruence).
    split; [done|]. split; [done|]. destruct (Hkeep s' i Hs) as (b' & Hb' & Hd). congruence.
  - intros s1 s2 i1 i2 [[<- _]|[N1 H1]]%lookup_insert_Some [[<- _]|[N2 H2]]%lookup_insert_Some Hh; try done.
    + symmetry in Hh. by apply (Hc s2 i2) in Hh.
    + by apply (Hc s1 i1) in Hh.
    + by apply (R3 s1 s2 i1 i2).
  - intros s1 s2 i1 i2 a1 a2 [[<- _]|[N1 H1]]%lookup_insert_Some [[<- _]|[N2 H2]]%lookup_insert_Some Hss A1 A2; try done.
    + rewrite lookup_insert_eq in A1. injection A1 as <-. destruct (Hne _ _ H2) as [_ Hh]. rewrite lookup_insert_ne in A2 by done.
      apply or_comm, (Hold _ _ A2); [congruence|done].
    + rewrite lookup_insert_eq in A2. injection A2 as <-. destruct (Hne _ _ H1) as [_ Hh]. rewrite lookup_insert_ne in A1 by done.
      apply (Hold _ _ A1); [congruence|done].
    + destruct (Hne _ _ H1) as [_ Hh1], (Hne _ _ H2) as [_ Hh2]. rewrite lookup_insert_ne in A1, A2 by done. by apply (R4 s1 s2 i1 i2).
Qed.

Lemma dir_rep_delete m m' t D s ino :
  dir_rep m t D -> D !! s = Some ino ->
  (forall h b, t !! h = Some b -> forall s', D !! s' <> None -> name_hash s' = h -> s' <> s ->
     forall x, b + 1 <= x < dentry_end b s' -> m' x = m x) ->
  dir_rep m' (delete (name_hash s) t) (delete s D).
Proof.
  intros R Hs Hold. pose proof R as [R1 R2 R3 R4].
  assert (forall s' i, D !! s' = Some i -> s' <> s -> exists b, t !! name_hash s' = Some b /\ dentry_is m' b s' i) as Hkeep.
  { intros s' i Hs' Hne. destruct (R1 s' i Hs') as (b & Hb & Hd). exists b. split; [done|].
    eapply dentry_is_same; [|exact Hd]. apply (Hold _ _ Hb s'); [congruence|done|done]. }
  assert (forall s' i, D !! s' = Some i -> s' <> s -> name_hash s' <> name_hash s) as Hne
    by (intros s' i Hs' Hn Hh; by apply Hn, (R3 s' s i ino)).
  split.
  - intros s' i [Hn Hs']%lookup_delete_Some. destruct (Hkeep s' i Hs' (not_eq_sym Hn)) as (b & Hb & Hd). exists b.
    rewrite lookup_delete_ne; [done|]. intros E. symmetry in E. by apply (Hne s' i Hs' (not_eq_sym Hn)).
  - intros h b [Hh Hb]%lookup_delete_Some. destruct (R2 h b Hb) as (s' & i & Hs' & Hh' & _). exists s', i.
    assert (s <> s') by congruence. rewrite lookup_delete_ne by done. split; [done|]. split; [done|].
    destruct (Hkeep s' i Hs') as (b' & Hb' & Hd); [done|]. congruence.
  - intros s1 s2 i1 i2 [_ H1]%lookup_delete_Some [_ H2]%lookup_delete_Some. by apply R3 with i1 i2.
  - intros s1 s2 i1 i2 a1 a2 [_ H1]%lookup_delete_Some [_ H2]%lookup_delete_Some Hss [_ A1]%lookup_delete_Some [_ A2]%lookup_delete_Some.
    by apply (R4 s1 s2 i1 i2).
Qed.

(** ** Writing an entry *)

Lemma copy_between_in m dst km src n x : dst <= x < dst + n -> copy_between m dst km src n x = km (src + (x - dst)).
Proof. intros Hx. unfold copy_between. by rewrite (proj2 (Z.leb_le _ _)), (proj2 (Z.ltb_lt _ _)) by lia. Qed.

Lemma copy_between_out m dst km src n x : ~ dst <= x < dst + n -> copy_between m dst km src n x = m x.
Proof. intros Hx. unfold copy_between. case_cmp; [lia|done]. Qed.

Section written.
Context (m : memory) (a ino : Z) (km : memory) (name n mtime sz links de_len : Z).
Hypothesis name_short : 0 < n < 256.

Definition written : memory := dentry_rest (dentry_head m a ino km name n) a n mtime sz links de_len.

Lemma written_same x : ~ a <= x < a + 29 + n -> written x = m x.
Proof.
  intros Hx. unfold written, dentry_rest, dentry_head, De.name. cbv zeta.
  rewrite !store_disjoint by (simpl; lia). rewrite copy_between_out by (rewrite u32_small; lia).
  by rewrite !store_disjoint by (simpl; lia).
Qed.

Lemma written_entry : 0 < ino < 2 ^ 64 -> dentry_is written a (bytes km name n) ino.
Proof.
  intros Hi. pose proof (bytes_length km name n ltac:(lia)) as Hl.
  assert (forall k o, 0 <= o -> o + Z.of_nat k <= 2 \/ (12 <= o /\ o + Z.of_nat k <= 20) ->
    load k written (a + o) = load k (dentry_head m a ino km name n) (a + o)) as Hh.
  { intros k o H1 H2. unfold written, dentry_rest, De.name. cbv zeta. by rewrite !load_store_ne by (simpl; lia). }
  assert (forall k o, 0 <= o -> o + Z.of_nat k <= 28 -> load k (dentry_head m a ino km name n) (a + o) =
    load k (store 1 (store 8 (store 1 m a DIR_LOG) (a + 12) ino) (a + 1) n) (a + o)) as Hc.
  { intros k o H1 H2. unfold dentry_head, De.name. cbv zeta. apply load_ext. intros x Hx.
    rewrite copy_between_out; [done|lia]. }
  split.
  - split; [|lia]. unfold De.ino. rewrite Hh, Hc by (simpl; lia). rewrite load_store_ne by (simpl; lia).
    by rewrite load8_store8 by lia.
  - unfold De.invalid, written, dentry_rest, De.name. cbv zeta. do 4 rewrite load_store_ne by (simpl; lia).
    by rewrite load_store_eq.
  - unfold De.name_len. rewrite Hh, Hc by (simpl; lia). rewrite load_store_eq, Hl. apply Z.mod_small. simpl. lia.
  - rewrite Hl. apply bytes_ext. intros i Hx. unfold written, dentry_rest, dentry_head, De.name. cbv zeta.
    rewrite !store_disjoint by (simpl; lia). rewrite copy_between_in by (rewrite u32_small; lia). do 2 f_equal. lia.
Qed.
End written.

(** ** The operations *)

Section operations.
Context `{RbTree} (slab_garbage : nova_range_node) (smp : Z) (jiffies_to_msecs : Z -> Z) (e : env).
(** The inode of the directory is at [pi], its number is [dino]. *)
Context (garbage : Z) (radix_nomem : Z -> bool) (P : Z -> list Z) (pi dino : Z).
Hypothesis pid_nonneg : 0 <= current_pid e.
Hypothesis radix_serves : forall i, radix_nomem i = false.
Context {rd : nat -> monitor -> Prop} {bud : Budget rd}.

(** The directory at [pi]: its tree holds [D], its log has room from [tail] to [limit] in the
    page of the tail. *)
Record dir_state (sbi : nova_sb_info) (tail limit : Z) (t : gmap Z Z) (D : gmap (list Z) Z) : Prop := {
  ds_homed : homed sbi P pi;
  ds_mapped : mapped sbi;
  ds_blocks : num_blocks sbi < 2147483648;
  ds_ino : Pi.nova_ino (nvm sbi) pi = dino /\ NOVA_NORMAL_INODE_START < dino;
  ds_room : 4096 <= tail <= limit /\ limit <= 4096 * num_blocks sbi /\ tail mod 4096 + (limit - tail) <= LAST_ENTRY;
  ds_pi : pi + 128 <= virt_addr sbi + tail \/ virt_addr sbi + limit <= pi;
  ds_rep : dir_rep (nvm sbi) t D;
  ds_fresh s i a : D !! s = Some i -> t !! name_hash s = Some a ->
    (dentry_end a s <= virt_addr sbi + tail \/ virt_addr sbi + limit <= a) /\
    (dentry_end a s <= pi \/ pi + 128 <= a) /\ block_addr sbi 1 <= a;
}.

(** A change of the window, or of the mark of an entry. *)
Lemma dir_state_move sbi tail limit t D tail' t' D' m' :
  dir_state sbi tail limit t D -> tail <= tail' <= limit ->
  (forall x, ~ virt_addr sbi + tail <= x < virt_addr sbi + limit ->
     (forall s i a, D !! s = Some i -> t !! name_hash s = Some a -> x <> a + 3) -> m' x = nvm sbi x) ->
  dir_rep m' t' D' ->
  (forall s i a, D' !! s = Some i -> t' !! name_hash s = Some a ->
     (dentry_end a s <= virt_addr sbi + tail' \/ virt_addr sbi + limit <= a) /\
     (dentry_end a s <= pi \/ pi + 128 <= a) /\ block_addr sbi 1 <= a) ->
  dir_state (with_nvm m' sbi) tail' limit t' D'.
Proof.
  intros [S1 S2 S3 S4 S5 S6 S7 S8] Ht Hm Hr Hf.
  assert (forall n o, 0 <= o -> o + Z.of_nat n <= 128 -> load n m' (pi + o) = load n (nvm sbi) (pi + o)) as Hpi.
  { intros n o H1 H2. apply load_ext. intros x Hx. apply Hm; [lia|]. intros s i a Hs Ha.
    destruct (S8 s i a Hs Ha) as (_ & Hp & _). unfold dentry_end in Hp. lia. }
  split; auto; cbn [nvm with_nvm virt_addr num_blocks]; try lia.
  - apply (homed_frame sbi); auto; [lia|apply with_nvm_geometry| |apply (Hpi 8%nat 64); simpl; lia].
    intros x Hx. apply Hm; [unfold block_addr in Hx; lia|]. intros s i a Hs Ha. destruct (S8 s i a Hs Ha) as (_ & _ & Hb). lia.
  - unfold Pi.nova_ino in *. rewrite (Hpi 8%nat 64) by (simpl; lia). done.
  - split; [lia|]. split; [lia|]. destruct S5 as (_ & _ & S5). unfold LAST_ENTRY in *. mlia.
Qed.

(** Another state in which the inode has its place and the entries are the same. *)
Lemma dir_rep_same m m' t D : dir_rep m t D ->
  (forall s i a, D !! s = Some i -> t !! name_hash s = Some a -> forall x, a <= x < dentry_end a s -> m' x = m x) -> dir_rep m' t D.
Proof.
  intros [Q1 Q2 Q3 Q4] Hm. split; auto.
  - intros s i Hs. destruct (Q1 s i Hs) as (a & Ha & Hd). exists a. split; [done|]. eapply dentry_is_same; [|exact Hd].
    intros x Hx. apply (Hm s i a); auto. lia.
  - intros h a Ha. destruct (Q2 h a Ha) as (s & i & Hs & Hh & Hd). exists s, i. split; [done|]. split; [done|].
    eapply dentry_is_same; [|exact Hd]. intros x Hx. apply (Hm s i a); auto; [congruence|lia].
Qed.

Lemma find_dir_inode sbi tail limit t D sih ino :
  dir_state sbi tail limit t D -> ino = dino ->
  nova_get_inode smp sbi ino (sih_pi_addr sih) = Some (inr pi, sbi).
Proof.
  intros S ->. destruct (ds_homed _ _ _ _ _ S) as [T1 T2 _ (Hi & a & Ha & Ea)].
  destruct (ds_ino _ _ _ _ _ S) as [Ed Hn]. rewrite Ed in *.
  rewrite (get_inode_present smp sbi P _ _ a); auto; [by rewrite Ea|apply S|lia].
Qed.

(** The entry is written behind the tail. *)
Lemma append_dentry_ok sbi mon sih tail limit t D dir ino km name n link tl k :
  (if negb (tl =? 0) then tl else Pi.log_tail (nvm sbi) pi) = tail ->
  dir_state sbi tail limit t D -> rd (S k) mon -> 0 < n < 256 -> tail + NOVA_DIR_LOG_REC_LEN n <= limit ->
  exists m' mon' dir', nova_append_dir_inode_entry slab_garbage smp jiffies_to_msecs e garbage pi dir ino km name n
      (u16 (NOVA_DIR_LOG_REC_LEN n)) tl link (World sbi mon sih) =
      Some ((tail, tail + NOVA_DIR_LOG_REC_LEN n, dir'), World (with_nvm m' sbi) mon' sih) /\ rd k mon' /\
    i_ino dir' = i_ino dir /\
    (forall x, ~ virt_addr sbi + tail <= x < virt_addr sbi + tail + NOVA_DIR_LOG_REC_LEN n -> m' x = nvm sbi x) /\
    (0 < ino < 2 ^ 64 -> dentry_is m' (virt_addr sbi + tail) (bytes km name n) ino).
Proof.
  intros Htl S Hr Hn Hlim. pose proof S as [S1 S2 S3 [S4' S4] (S5 & S5' & S5'') S6 S7 S8]. pose proof (rec_len_alt n ltac:(lia)) as Hlen.
  assert (29 + n <= NOVA_DIR_LOG_REC_LEN n < 300) as Hl by (rewrite Hlen; mlia). set (len := NOVA_DIR_LOG_REC_LEN n) in *.
  assert (u16 len = len) as -> by (apply Z.mod_small; lia).
  assert (nova_get_append_head slab_garbage smp jiffies_to_msecs e garbage pi tl len (World sbi mon sih) =
    Some (tail, World sbi mon sih)) as Eh.
  { apply (append_head_fits slab_garbage smp jiffies_to_msecs e garbage sbi mon sih P); auto; lia. }
  unfold nova_append_dir_inode_entry. fstep Eh. rewrite (proj2 (Z.eqb_neq tail 0)) by lia.
  erewrite fs_step by (apply (get_block_ok sbi mon sih tail len); [done|split; lia|lia]). frun. cbn [nvm with_nvm virt_addr].
  unfold log_block_write_count_increase.
  destruct (ready_count_block jiffies_to_msecs e pid_nonneg (with_nvm (dentry_head (nvm sbi) (virt_addr sbi + tail) ino km name n) sbi)
    mon sih (get_block_number_by_virt (virt_addr sbi) (De.name (dentry_head (nvm sbi) (virt_addr sbi + tail) ino km name n) (virt_addr sbi + tail))) k Hr
    (block_number_nonneg _ _)) as (mon' & E & Hr').
  fstep E. frun. cbn [nvm with_nvm]. rewrite u64_small by lia. eexists _, mon', _. split; [reflexivity|]. split; [done|].
  split; [done|]. split.
  - intros x Hx. apply written_same; lia.
  - intros Hi. by apply written_entry.
Qed.

(** The names differ from those in the directory, so the entry does not touch them. *)
Lemma new_entry_apart sbi tail limit t D (S : dir_state sbi tail limit t D) n m' :
  0 <= n -> tail + NOVA_DIR_LOG_REC_LEN n <= limit ->
  (forall x, ~ virt_addr sbi + tail <= x < virt_addr sbi + tail + NOVA_DIR_LOG_REC_LEN n -> m' x = nvm sbi x) ->
  forall h b, t !! h = Some b -> forall s', D !! s' <> None -> name_hash s' = h ->
    (dentry_end b s' <= virt_addr sbi + tail \/ virt_addr sbi + tail + NOVA_DIR_LOG_REC_LEN n <= b) /\
    (forall x, b + 1 <= x < dentry_end b s' -> m' x = nvm sbi x).
Proof.
  intros Hn Hlim Hm h b Hb s' Hs Hh. destruct (D !! s') as [i|] eqn:Es; [|done]. subst h.
  destruct (ds_fresh _ _ _ _ _ S s' i b Es Hb) as (Hf & _). split; [lia|]. intros x Hx. apply Hm. lia.
Qed.

(** Adding a name. *)
Lemma add_dentry_ok sbi mon sih tail limit D dir ino km name n link tl time k :
  let s := bytes km name n in
  (if negb (tl =? 0) then tl else Pi.log_tail (nvm sbi) pi) = tail ->
  dir_state sbi tail limit (tree sih) D -> rd (S k) mon -> 0 < n < 256 -> tail + NOVA_DIR_LOG_REC_LEN n <= limit ->
  i_ino dir = dino -> 0 < ino < 2 ^ 64 -> collision_free D s -> D !! s = None ->
  exists m' mon' dir', nova_add_dentry slab_garbage smp jiffies_to_msecs e garbage radix_nomem dir km name n ino link tl time
      (World sbi mon sih) =
      Some ((0, Some (tail + NOVA_DIR_LOG_REC_LEN n), dir'),
            World (with_nvm m' sbi) mon' (with_tree (<[name_hash s := virt_addr sbi + tail]> (tree sih)) sih)) /\
    rd k mon' /\ i_ino dir' = i_ino dir /\
    (forall x, ~ virt_addr sbi + tail <= x < virt_addr sbi + tail + NOVA_DIR_LOG_REC_LEN n -> m' x = nvm sbi x) /\
    dir_state (with_nvm m' sbi) (tail + NOVA_DIR_LOG_REC_LEN n) limit (<[name_hash s := virt_addr sbi + tail]> (tree sih)) (<[s := ino]> D).
Proof.
  intros s Htl S Hr Hn Hlim Hino Hi Hcf Hs. pose proof (rec_len_alt n ltac:(lia)) as Hlen.
  assert (29 + n <= NOVA_DIR_LOG_REC_LEN n < 300) as Hl by (rewrite Hlen; mlia).
  unfold nova_add_dentry. rewrite (proj2 (Z.eqb_neq n 0)) by lia. frun.
  erewrite fs_step by (apply on_sbi_run; cbn [w_sbi]; by eapply find_dir_inode). cbv beta iota. cbn [w_mon w_sih].
  destruct (append_dentry_ok sbi mon sih tail limit (tree sih) D (with_vfs_time time dir) ino km name n link tl k Htl S Hr Hn Hlim)
    as (m' & mon' & dir' & E & Hr' & Hd & Hsame & Hent). specialize (Hent Hi). fold s in Hent.
  fstep E. cbv beta iota. pose proof (ds_room _ _ _ _ _ S) as (R1 & R2 & R3).
  erewrite fs_step by (apply (get_block_ok (with_nvm m' sbi) mon' sih tail 1); [apply S|split; cbn [num_blocks with_nvm]; lia|lia]).
  unfold nova_insert_dir_radix_tree. rewrite BKDRHash_name by lia. fold s. rewrite fs_assoc. frun.
  pose proof (dir_rep_lookup _ _ _ s (ds_rep _ _ _ _ _ S) Hcf) as Hlk. rewrite Hs in Hlk. rewrite Hlk, radix_serves. frun.
  eexists m', mon', dir'. split; [reflexivity|]. split; [done|]. split; [done|].
  assert (forall x, ~ virt_addr sbi + tail <= x < virt_addr sbi + limit -> m' x = nvm sbi x) as Hw by (intros x Hx; apply Hsame; lia).
  split; [done|]. pose proof (new_entry_apart sbi tail limit _ D S n m' ltac:(lia) Hlim Hsame) as Hap.
  assert (Z.of_nat (length s) = n) as Hsl by (apply bytes_length; lia).
  eapply dir_state_move; [exact S|lia|intros x Hx _; by apply Hw| |].
  - apply (dir_rep_insert (nvm sbi)); auto; [apply S|]. intros h b Hb s' Hs' Hh.
    destruct (Hap h b Hb s' Hs' Hh) as [H1 H2]. split; [|done]. unfold dentry_end in *. lia.
  - intros s' i a Hs' Ha. apply lookup_insert_Some in Hs' as [[<- <-]|[Hne Hs']].
    + rewrite lookup_insert_eq in Ha. injection Ha as <-. pose proof (ds_pi _ _ _ _ _ S). unfold dentry_end, block_addr. lia.
    + assert (name_hash s' <> name_hash s) by (intros E'; apply Hne; symmetry; by apply (Hcf s' i)).
      rewrite lookup_insert_ne in Ha by done. destruct (ds_fresh _ _ _ _ _ S s' i a Hs' Ha). lia.
Qed.

(** Taking a name out of the tree, with its entry marked. *)
Lemma remove_tree_ok sbi mon sih tail limit D km name n :
  let s := bytes km name n in
  dir_state sbi tail limit (tree sih) D -> 0 < n < 256 -> 0 ∉ s -> collision_free D s ->
  exists ret m', nova_remove_dir_radix_tree km name n false (World sbi mon sih) =
      Some (ret, World (with_nvm m' sbi) mon (with_tree (delete (name_hash s) (tree sih)) sih)) /\
    dir_state (with_nvm m' sbi) tail limit (delete (name_hash s) (tree sih)) (delete s D) /\
    (forall x, (forall i a, D !! s = Some i -> tree sih !! name_hash s = Some a -> x <> a + 3) -> m' x = nvm sbi x) /\
    match D !! s with
    | Some _ => ret = 0 /\ exists a, tree sih !! name_hash s = Some a /\ De.invalid m' a = 1
    | None => ret = - EINVAL /\ m' = nvm sbi
    end.
Proof.
  intros s St Hn Hz Hcf. unfold nova_remove_dir_radix_tree. rewrite BKDRHash_name by lia. fold s. frun.
  pose proof (dir_rep_lookup _ _ _ s (ds_rep _ _ _ _ _ St) Hcf) as Hlk. pose proof (ds_room _ _ _ _ _ St) as (R1 & _).
  destruct (D !! s) as [ino|] eqn:Es.
  2:{ rewrite Hlk. exists (- EINVAL), (nvm sbi). rewrite !delete_id by done. split; [by destruct sbi|]. split; [by destruct sbi|]. by split. }
  destruct Hlk as (a & Ha & Hd). rewrite Ha. pose proof Hd as [[Hi1 Hi2] Hv Hl Hb].
  assert (Z.of_nat (length s) = n) as Hsl by (apply bytes_length; lia). rewrite Hsl in *. frun.
  assert (nova_check_dentry_match (nvm sbi) a km name n = 0) as Hmatch.
  { unfold nova_check_dentry_match. rewrite Hl, Z.eqb_refl. cbn [negb]. apply strncmp_equal; rewrite Z2Nat.id by lia; done. }
  rewrite Hi1, Hv, Hmatch, (proj2 (Z.eqb_neq ino 0)) by lia. cbn [orb negb Z.eqb]. frun.
  set (m' := store 1 (nvm sbi) (a + 3) 1). assert (forall x, x <> a + 3 -> m' x = nvm sbi x) as Hm
    by (intros x Hx; apply store_disjoint; simpl; lia).
  exists 0, m'. split; [done|]. split; [|split; [intros x Hx; apply Hm; by apply (Hx ino)|
    split; [done|exists a; split; [done|unfold De.invalid, m'; by rewrite load_store_eq]]]].
  eapply dir_state_move; [exact St|lia|intros x _ Hx; apply Hm; by apply (Hx s ino)| |].
  - apply (dir_rep_delete (nvm sbi) m' _ _ s ino); [apply St|done|]. intros h b Hb' s' Hs' Hh Hne x Hx. apply Hm.
    destruct (D !! s') as [i'|] eqn:Es'; [|done]. subst h.
    destruct (dr_apart _ _ _ (ds_rep _ _ _ _ _ St) s s' ino i' a b) as [Hx'|Hx']; auto; unfold dentry_end in *; lia.
  - intros s' i b [_ Hs']%lookup_delete_Some [_ Hb']%lookup_delete_Some. by apply (ds_fresh _ _ _ _ _ St s' i).
Qed.

(** Removing a name. *)
Lemma remove_dentry_ok sbi mon sih tail limit D dir km name n link tl time k :
  let s := bytes km name n in
  (if negb (tl =? 0) then tl else Pi.log_tail (nvm sbi) pi) = tail ->
  dir_state sbi tail limit (tree sih) D -> rd (S k) mon -> 0 < n < 256 -> tail + NOVA_DIR_LOG_REC_LEN n <= limit ->
  i_ino dir = dino -> 0 ∉ s -> collision_free D s ->
  exists m' mon' dir', nova_remove_dentry slab_garbage smp jiffies_to_msecs e garbage dir km name n link tl time (World sbi mon sih) =
      Some ((0, Some (tail + NOVA_DIR_LOG_REC_LEN n), dir'),
            World (with_nvm m' sbi) mon' (with_tree (delete (name_hash s) (tree sih)) sih)) /\
    rd k mon' /\ i_ino dir' = i_ino dir /\
    (forall x, ~ virt_addr sbi + tail <= x < virt_addr sbi + tail + NOVA_DIR_LOG_REC_LEN n ->
       (forall i a, D !! s = Some i -> tree sih !! name_hash s = Some a -> x <> a + 3) -> m' x = nvm sbi x) /\
    dir_state (with_nvm m' sbi) (tail + NOVA_DIR_LOG_REC_LEN n) limit (delete (name_hash s) (tree sih)) (delete s D).
Proof.
  intros s Htl St Hr Hn Hlim Hino Hz Hcf. pose proof (rec_len_alt n ltac:(lia)) as Hlen.
  assert (29 + n <= NOVA_DIR_LOG_REC_LEN n < 300) as Hl by (rewrite Hlen; mlia).
  unfold nova_remove_dentry. rewrite (proj2 (Z.eqb_neq n 0)) by lia. frun.
  erewrite fs_step by (apply on_sbi_run; cbn [w_sbi]; by eapply find_dir_inode). cbv beta iota. cbn [w_mon w_sih].
  destruct (append_dentry_ok sbi mon sih tail limit (tree sih) D (with_vfs_time time dir) 0 km name n link tl k Htl St Hr Hn Hlim)
    as (m1 & mon' & dir' & E & Hr' & Hd & Hsame & _).
  fstep E. cbv beta iota.
  assert (dir_state (with_nvm m1 sbi) (tail + NOVA_DIR_LOG_REC_LEN n) limit (tree sih) D) as St1.
  { eapply dir_state_move; [exact St|lia|intros x Hx _; apply Hsame; lia| |].
    - pose proof (ds_rep _ _ _ _ _ St) as [Q1 Q2 Q3 Q4]. pose proof (new_entry_apart sbi tail limit _ D St n m1 ltac:(lia) Hlim Hsame) as Hap.
      split; auto.
      + intros s' i Hs'. destruct (Q1 s' i Hs') as (a & Ha & Hda). exists a. split; [done|].
        eapply dentry_is_same; [|exact Hda]. apply (Hap _ _ Ha s'); [congruence|done].
      + intros h a Ha. destruct (Q2 h a Ha) as (s' & i & Hs' & Hh & Hda). exists s', i. split; [done|]. split; [done|].
        eapply dentry_is_same; [|exact Hda]. apply (Hap _ _ Ha s'); [congruence|done].
    - intros s' i a Hs' Ha. destruct (ds_fresh _ _ _ _ _ St s' i a Hs' Ha). lia. }
  destruct (remove_tree_ok (with_nvm m1 sbi) mon' sih _ limit D km name n St1 Hn Hz Hcf) as (ret & m2 & E2 & St2 & Hm2 & _).
  fstep E2. exists m2, mon', dir'. split; [done|]. split; [done|]. split; [done|]. split; [|exact St2].
  intros x H1 H2. rewrite Hm2 by done. by apply Hsame.
Qed.

(** ** Sequences *)

(** Names are given by their address in [km] and their length. *)
Inductive dir_op :=
  | AddName (name n ino link : Z)
  | RemoveName (name n link : Z).

Definition op_length (op : dir_op) : Z :=
  match op with AddName _ n _ _ | RemoveName _ n _ => NOVA_DIR_LOG_REC_LEN n end.

(** The bytes of the log a sequence takes. *)
Definition ops_length (ops : list dir_op) : Z := foldr (fun op n => op_length op + n) 0 ops.

Definition run_op (km : memory) (dir : vfs_inode) (tail time : Z) (op : dir_op) : fs (Z * option Z * vfs_inode) :=
  match op with
  | AddName name n ino link =>
    nova_add_dentry slab_garbage smp jiffies_to_msecs e garbage radix_nomem dir km name n ino link tail time
  | RemoveName name n link => nova_remove_dentry slab_garbage smp jiffies_to_msecs e garbage dir km name n link tail time
  end.

(** One operation after the other, each with the tail of the one before; the results. *)
Fixpoint run_ops (km : memory) (dir : vfs_inode) (tail time : Z) (ops : list dir_op) : fs (list Z) :=
  match ops with
  | [] => mret []
  | op :: ops =>
    r ← run_op km dir tail time op;
    let '(ret, new_tail, dir) := (r : Z * option Z * vfs_inode) in
    rets ← run_ops km dir (default tail new_tail) time ops;
    mret (ret :: rets)
  end.

Definition apply_op (km : memory) (D : gmap (list Z) Z) (op : dir_op) : gmap (list Z) Z :=
  match op with
  | AddName name n ino _ => <[bytes km name n := ino]> D
  | RemoveName name n _ => delete (bytes km name n) D
  end.

(** A name of 1 to 255 bytes without a zero, whose hash is not that of another name; a new
    name for an addition. *)
Definition op_ok (km : memory) (D : gmap (list Z) Z) (op : dir_op) : Prop :=
  match op with
  | AddName name n ino _ => 0 < n < 256 /\ collision_free D (bytes km name n) /\ D !! bytes km name n = None /\ 0 < ino < 2 ^ 64
  | RemoveName name n _ => 0 < n < 256 /\ collision_free D (bytes km name n) /\ 0 ∉ bytes km name n
  end.

Fixpoint ops_ok (km : memory) (D : gmap (list Z) Z) (ops : list dir_op) : Prop :=
  match ops with
  | [] => True
  | op :: ops => op_ok km D op /\ ops_ok km (apply_op km D op) ops
  end.

Lemma run_op_ok sbi mon sih tail limit D dir km time op k :
  dir_state sbi tail limit (tree sih) D -> rd (S k) mon -> op_ok km D op -> tail + op_length op <= limit ->
  i_ino dir = dino ->
  exists m' mon' dir' t', run_op km dir tail time op (World sbi mon sih) =
      Some ((0, Some (tail + op_length op), dir'), World (with_nvm m' sbi) mon' (with_tree t' sih)) /\
    rd k mon' /\ i_ino dir' = i_ino dir /\ dir_state (with_nvm m' sbi) (tail + op_length op) limit t' (apply_op km D op).
Proof.
  intros St Hr Hop Hlim Hino. pose proof (ds_room _ _ _ _ _ St) as (R1 & _).
  assert ((if negb (tail =? 0) then tail else Pi.log_tail (nvm sbi) pi) = tail) as Htl by by rewrite (proj2 (Z.eqb_neq tail 0)) by lia.
  destruct op as [name n ino link|name n link]; cbn [run_op op_ok op_length apply_op] in *.
  - destruct Hop as (Hn & Hcf & Hs & Hi).
    destruct (add_dentry_ok sbi mon sih tail limit D dir ino km name n link tail time k Htl St Hr Hn Hlim Hino Hi Hcf Hs)
      as (m' & mon' & dir' & E & Hr' & Hd & Hm & St').
    exists m', mon', dir', (<[name_hash (bytes km name n) := virt_addr sbi + tail]> (tree sih)). split_and!; done.
  - destruct Hop as (Hn & Hcf & Hz).
    destruct (remove_dentry_ok sbi mon sih tail limit D dir km name n link tail time k Htl St Hr Hn Hlim Hino Hz Hcf)
      as (m' & mon' & dir' & E & Hr' & Hd & _ & St').
    exists m', mon', dir', (delete (name_hash (bytes km name n)) (tree sih)). split_and!; done.
Qed.

Lemma op_length_nonneg km D op : op_ok km D op -> 0 <= op_length op.
Proof. destruct op; cbn [op_length op_ok]; intros [? _]; rewrite rec_len_alt by lia; mlia. Qed.

Lemma ops_length_nonneg km ops : forall D, ops_ok km D ops -> 0 <= ops_length ops.
Proof.
  induction ops as [|op ops IH]; intros D Hok; [done|]. destruct Hok as [Hop Hok].
  pose proof (op_length_nonneg km D op Hop). specialize (IH _ Hok). unfold ops_length in *. cbn [foldr]. lia.
Qed.

Lemma run_ops_ok ops : forall sbi mon sih tail limit D dir km time k,
  dir_state sbi tail limit (tree sih) D -> rd (length ops + k) mon -> ops_ok km D ops ->
  tail + ops_length ops <= limit -> i_ino dir = dino ->
  exists m' mon' t' tail', run_ops km dir tail time ops (World sbi mon sih) =
      Some (replicate (length ops) 0, World (with_nvm m' sbi) mon' (with_tree t' sih)) /\
    rd k mon' /\ dir_state (with_nvm m' sbi) tail' limit t' (foldl (apply_op km) D ops).
Proof.
  induction ops as [|op ops IH]; intros sbi mon sih tail limit D dir km time k St Hr Hok Hlim Hino; cbn [run_ops].
  { exists (nvm sbi), mon, (tree sih), tail. rewrite with_tree_same. split; [by destruct sbi|]. split; [done|]. by destruct sbi. }
  destruct Hok as [Hop Hok]. cbn [ops_length foldr] in Hlim. fold (ops_length ops) in Hlim.
  pose proof (op_length_nonneg km D op Hop) as Hl. pose proof (ops_length_nonneg km ops _ Hok) as Hl'.
  destruct (run_op_ok sbi mon sih tail limit D dir km time op (length ops + k) St Hr Hop ltac:(lia) Hino)
    as (m1 & mon1 & dir1 & t1 & E & Hr1 & Hd1 & St1). fstep E. cbv beta iota. cbn [default].
  destruct (IH (with_nvm m1 sbi) mon1 (with_tree t1 sih) (tail + op_length op) limit (apply_op km D op) dir1 km time k)
    as (m2 & mon2 & t2 & tail2 & E2 & Hr2 & St2); auto; [unfold ops_length in *; lia|congruence|].
  fstep E2. exists m2, mon2, t2, tail2. split; [done|]. split; [done|]. exact St2.
Qed.
End operations.

(** C9: A directory in memory is a map from names to inode numbers: any sequence of
    additions of new names and removals succeeds, and afterwards the search finds a name
    exactly when the map has it, with an entry of the log that holds the name and its inode
    number.  The sequence is one in which no two names of the directory at a time have the
    same hash (names that have are taken for each other, see [collision_takes_other]), whose
    entries fit in the page of the log tail ([tail] to [limit]), and for which the radix tree
    gets its memory; the directory is not the root ([dir_state] asks for a number that is not
    reserved); the counters of the monitor have room for the writes. *)
Theorem dir_ops_refine `{RbTree} slab_garbage smp jiffies_to_msecs e garbage radix_nomem P pi dino ops sbi mon sih tail limit D dir km time k :
  0 <= current_pid e -> (forall i, radix_nomem i = false) ->
  dir_state P pi dino sbi tail limit (tree sih) D -> counting (length ops + k) mon -> ops_ok km D ops ->
  tail + ops_length ops <= limit -> i_ino dir = dino ->
  let D' := foldl (apply_op km) D ops in
  exists w', run_ops slab_garbage smp jiffies_to_msecs e garbage radix_nomem km dir tail time ops (World sbi mon sih) =
      Some (replicate (length ops) 0, w') /\
    dir_rep (nvm (w_sbi w')) (tree (w_sih w')) D' /\
    forall um name n, 0 <= n -> collision_free D' (bytes um name n) ->
      match D' !! bytes um name n with
      | Some ino => exists a, nova_find_dentry um name n w' = Some (Some a, w') /\
          dentry_is (nvm (w_sbi w')) a (bytes um name n) ino
      | None => nova_find_dentry um name n w' = Some (None, w')
      end.
Proof.
  intros Hpid Hrad St Hr Hok Hlim Hino D'.
  destruct (run_ops_ok slab_garbage smp jiffies_to_msecs e garbage radix_nomem P pi dino Hpid Hrad
    ops sbi mon sih tail limit D dir km time k St Hr Hok Hlim Hino) as (m' & mon' & t' & tail' & E & _ & St').
  eexists. split; [exact E|]. cbn [w_sbi w_sih nvm with_nvm tree with_tree]. pose proof (ds_rep _ _ _ _ _ _ _ _ St') as Hrep.
  cbn [nvm with_nvm] in Hrep. split; [done|]. intros um name n Hn Hcf.
  pose proof (dir_rep_lookup _ _ _ _ Hrep Hcf) as Hlk. unfold nova_find_dentry. rewrite BKDRHash_name by done. frun.
  cbn [tree with_tree]. fold D' in Hlk. destruct (D' !! bytes um name n) as [ino|]; [|by rewrite Hlk].
  destruct Hlk as (a & Ha & Hd). exists a. by rewrite Ha.
Qed.

(** The directory in another state. *)
Lemma dir_state_carry P P' pi dino sbi sbi' tail limit t D :
  dir_state P pi dino sbi tail limit t D -> homed sbi' P' pi -> virt_addr sbi' = virt_addr sbi -> num_blocks sbi' = num_blocks sbi ->
  Pi.nova_ino (nvm sbi') pi = Pi.nova_ino (nvm sbi) pi ->
  (forall s i a, D !! s = Some i -> t !! name_hash s = Some a -> forall x, a <= x < dentry_end a s -> nvm sbi' x = nvm sbi x) ->
  dir_state P' pi dino sbi' tail limit t D.
Proof.
  intros [S1 S2 S3 S4 S5 S6 S7 S8] Hh Ev En Ei Hm. split; unfold mapped, block_addr in *; rewrite ?Ev, ?En, ?Ei; auto.
  by eapply dir_rep_same.
Qed.

(** Names with the same hash are taken for each other: if [s] is in the directory and
    another name has its hash, the search for the other name returns the entry of [s], and
    removing the other name reports an error but takes [s] out of the tree. *)
Theorem collision_takes_other sbi mon sih D s ino km name n :
  dir_rep (nvm sbi) (tree sih) D -> D !! s = Some ino -> bytes km name n <> s ->
  name_hash (bytes km name n) = name_hash s -> 0 <= n < 256 -> 0 ∉ bytes km name n ->
  exists a, dentry_is (nvm sbi) a s ino /\
    nova_find_dentry km name n (World sbi mon sih) = Some (Some a, World sbi mon sih) /\
    nova_remove_dir_radix_tree km name n false (World sbi mon sih) =
      Some (- EINVAL, World sbi mon (with_tree (delete (name_hash s) (tree sih)) sih)).
Proof.
  intros Hrep Hs Hne Hh Hn Hz. destruct (dr_find _ _ _ Hrep s ino Hs) as (a & Ha & Hd). exists a. split; [done|].
  unfold nova_find_dentry, nova_remove_dir_radix_tree. rewrite BKDRHash_name, Hh by lia. frun. rewrite Ha. split; [done|]. frun.
  assert (nova_check_dentry_match (nvm sbi) a km name n <> 0) as Hm.
  { unfold nova_check_dentry_match. destruct (Z.eqb_spec (De.name_len (nvm sbi) a) n) as [El|_]; cbn [negb]; [|unfold EINVAL; lia].
    rewrite strncmp_equal by (by rewrite Z2Nat.id by lia). rewrite Z2Nat.id by lia. intros Hb. apply Hne. rewrite <- Hb.
    destruct Hd as [_ _ Hl Hnm]. rewrite <- El, Hl. done. }
  rewrite (proj2 (Z.eqb_neq _ 0) Hm). cbn [negb]. rewrite orb_true_r. done.
Qed.

(** ** Forgetting a directory *)

Lemma radix_next_delete t k pos : k < pos -> radix_tree_next (delete k t) pos = radix_tree_next t pos.
Proof.
  intros Hk. destruct (radix_tree_next t pos) as [[k1 v1]|] eqn:E1, (radix_tree_next (delete k t) pos) as [[k2 v2]|] eqn:E2.
  - destruct (radix_tree_next_some _ _ _ _ E1) as (A1 & A2 & A3), (radix_tree_next_some _ _ _ _ E2) as (B1 & B2 & B3).
    rewrite lookup_delete_ne in B1 by lia. assert (k1 = k2) as ->.
    { destruct (Z.lt_trichotomy k1 k2) as [?|[?|?]]; [|done|].
      - specialize (B3 k1 ltac:(lia)). rewrite lookup_delete_ne in B3 by lia. congruence.
      - specialize (A3 k2 ltac:(lia)). congruence. }
    congruence.
  - destruct (radix_tree_next_some _ _ _ _ E1) as (A1 & A2 & _). pose proof (radix_tree_next_none _ _ E2 k1 A2) as B.
    rewrite lookup_delete_ne in B by lia. congruence.
  - destruct (radix_tree_next_some _ _ _ _ E2) as (B1 & B2 & _). pose proof (radix_tree_next_none _ _ E1 k2 B2) as A.
    rewrite lookup_delete_ne in B1 by lia. congruence.
  - done.
Qed.

Lemma gang_delete n t : forall k pos, k < pos -> radix_tree_gang_lookup n (delete k t) pos = radix_tree_gang_lookup n t pos.
Proof.
  induction n as [|n IH]; intros k pos Hk; [done|]. cbn [radix_tree_gang_lookup]. rewrite radix_next_delete by done.
  destruct (radix_tree_next t pos) as [[k1 v1]|] eqn:E; [|done]. f_equal. apply IH.
  destruct (radix_tree_next_some _ _ _ _ E). lia.
Qed.

(** The keys of a directory are the hashes of its names. *)
Definition keyed (m : memory) (t : gmap Z Z) : Prop :=
  forall k v, t !! k = Some v -> BKDRHash m (De.name m v) (De.name_len m v) = k /\ 0 <= k < 2 ^ 64.

Lemma keyed_delete m t k : keyed m t -> keyed m (delete k t).
Proof. intros Hk k' v [_ Hv]%lookup_delete_Some. by apply Hk. Qed.

(** A batch takes the entries it found out, in order. *)
Lemma delete_batch_ok n : forall sbi mon sih pos p0,
  keyed (nvm sbi) (tree sih) -> let l := radix_tree_gang_lookup n (tree sih) pos in
  exists p' t', delete_dir_batch l p0 (World sbi mon sih) = Some (p', World sbi mon (with_tree t' sih)) /\
    (forall k v, t' !! k = Some v -> tree sih !! k = Some v) /\ (length l <= n)%nat /\
    (size t' + length l = size (tree sih))%nat /\
    ((length l < n)%nat -> forall k, pos <= k -> t' !! k = None) /\
    (length l = n -> (0 < n)%nat -> pos <= p' < 2 ^ 64 /\ forall k, pos <= k <= p' -> t' !! k = None).
Proof.
  induction n as [|n IH]; intros sbi mon sih pos p0 Hk l.
  { exists p0, (tree sih). rewrite with_tree_same. split_and!; try done; unfold l; simpl; lia. }
  unfold l. cbn [radix_tree_gang_lookup]. destruct (radix_tree_next (tree sih) pos) as [[k v]|] eqn:E.
  2:{ exists p0, (tree sih). rewrite with_tree_same. cbn [delete_dir_batch length]. split_and!; try done; try lia.
      intros _ k Hp. by apply (radix_tree_next_none _ pos). }
  destruct (radix_tree_next_some _ _ _ _ E) as (Hkv & Hpos & Hmin). cbn [delete_dir_batch]. frun.
  destruct (Hk k v Hkv) as [Hh Hr]. rewrite Hh.
  destruct (IH sbi mon (with_tree (delete k (tree sih)) sih) (k + 1) k) as (p' & t' & E' & Hsub & Hlen & Hsz & Hlt & Hfull);
    [by apply keyed_delete|]. cbn [tree with_tree] in *. rewrite gang_delete in * by lia.
  set (l' := radix_tree_gang_lookup n (tree sih) (k + 1)) in *.
  assert (forall j, pos <= j <= k -> t' !! j = None) as Hgap.
  { intros j Hj. destruct (t' !! j) as [w|] eqn:Ej; [|done]. apply Hsub, lookup_delete_Some in Ej as [Hne Ej].
    rewrite Hmin in Ej by lia. done. }
  exists p', t'. split; [exact E'|]. cbn [length]. split; [intros j w Hj; apply Hsub, lookup_delete_Some in Hj; tauto|].
  split; [lia|]. split; [rewrite (size_delete_some _ _ _ Hkv); lia|]. split.
  - intros Hl j Hj. destruct (Z.le_gt_cases j k) as [?|?]; [apply Hgap; lia|]. apply Hlt; lia.
  - intros Hl _. destruct n as [|n].
    + destruct l' as [|x l']; [|simpl in Hl; lia]. cbn [delete_dir_batch] in E'. injection E' as <- <-. split; [lia|done].
    + destruct (Hfull ltac:(lia) ltac:(lia)) as [Hp Hn]. split; [lia|]. intros j Hj.
      destruct (Z.le_gt_cases j k) as [?|?]; [apply Hgap; lia|]. apply Hn. lia.
Qed.

Lemma delete_dir_loop_ok fuel : forall sbi mon sih pos,
  keyed (nvm sbi) (tree sih) -> (size (tree sih) < fuel)%nat -> 0 <= pos -> (forall k, k < pos -> tree sih !! k = None) ->
  delete_dir_loop fuel pos (World sbi mon sih) = Some (tt, World sbi mon (with_tree ∅ sih)).
Proof.
  induction fuel as [|fuel IH]; intros sbi mon sih pos Hk Hf Hp0 Hlow; [lia|]. cbn [delete_dir_loop]. frun.
  destruct (delete_batch_ok FREE_BATCH sbi mon sih pos pos Hk) as (p' & t' & E & Hsub & Hlen & Hsz & Hlt & Hfull). cbv zeta in *.
  set (l := radix_tree_gang_lookup FREE_BATCH (tree sih) pos) in *. fstep E.
  assert (forall k, k < pos -> t' !! k = None) as Hlow'.
  { intros k Hkp. destruct (t' !! k) as [v|] eqn:Ev; [|done]. apply Hsub in Ev. rewrite Hlow in Ev by lia. done. }
  destruct (Nat.eqb_spec (length l) FREE_BATCH) as [El|El].
  - destruct (Hfull El ltac:(unfold FREE_BATCH; lia)) as [Hp Hn].
    change (with_tree ∅ sih) with (with_tree ∅ (with_tree t' sih)).
    apply (IH sbi mon (with_tree t' sih)); cbn [tree with_tree].
    + intros k v Hv. by apply Hk, Hsub.
    + unfold FREE_BATCH in El. lia.
    + apply u64_range.
    + intros k Hku. destruct (Z.lt_ge_cases k pos) as [?|?]; [by apply Hlow'|]. apply Hn. unfold u64 in Hku. mlia.
  - assert (t' = ∅) as ->; [|done]. apply map_empty. intros k. destruct (Z.lt_ge_cases k pos) as [?|?]; [by apply Hlow'|].
    apply Hlt; [lia|done].
Qed.

(** [nova_delete_dir_tree] ends and leaves no entry in the tree of the directory: the
    batches of 16 go through the hashes in order. *)
Theorem delete_dir_tree_ok sbi mon sih D :
  dir_rep (nvm sbi) (tree sih) D ->
  nova_delete_dir_tree (World sbi mon sih) = Some (tt, World sbi mon (with_tree ∅ sih)).
Proof.
  intros Hrep. unfold nova_delete_dir_tree. frun.
  assert (forall s : list Z, 0 <= name_hash s < 2 ^ 64) as Hh.
  { intros s. destruct s as [|c s _] using rev_ind; [done|]. unfold name_hash. rewrite foldl_app. apply u64_range. }
  assert (keyed (nvm sbi) (tree sih)) as Hk.
  { intros k v Hv. destruct (dr_only _ _ _ Hrep k v Hv) as (s & i & _ & <- & [_ _ Hl Hn]). split; [|apply Hh].
    rewrite Hl, BKDRHash_name by lia. by rewrite Hn. }
  apply delete_dir_loop_ok; auto; [lia|]. intros k Hneg. destruct (tree sih !! k) as [v|] eqn:Ev; [|done].
  destruct (Hk k v Ev). lia.
Qed.
