(* ===== verification/DirLog.v ===== *)
(** * A directory from its log (dir.c)

    [nova_rebuild_dir_inode_tree] reads the log of a directory after a mount and enters its
    names into the tree.  The theorem relates the tree to the replay of the entries.  The
    listing of a directory walks the same log. *)

From S2P Require Import Prelude Layout RangeTree RbList State Balloc BallocFacts BallocSpec.
From S2P Require Import BallocInit BallocTheorems TreeEdits InodeMap LogBlocks InodeTable.
From S2P Require Import Monitor Histogram HashTable Records KnapSack Detect WriteCount Migrate.
From S2P Require Import LogPages World InodeLog FastGc LogAppend BlockMap Shutdown Crawl FileTree Truncate Rebuild.
From S2P Require Import WearBudget FileData Directory DirTree.
#[local] Open Scope word_scope.

(** ** The entries of a log *)

Inductive dir_item :=
  | Name (a ino : Z) (valid : bool) (s : list Z) (len size : Z)
  | DirAttr (mode size : Z)
  | DirLink.

Definition dir_item_len (it : dir_item) : Z :=
  match it with
  | Name _ _ _ _ len _ => len
  | DirAttr _ _ => Sa.length
  | DirLink => Lc.length
  end.

(** The entry at [a]. *)
Definition dir_item_at (m : memory) (a : Z) : option dir_item :=
  let type := nova_get_entry_type m a in
  if type =? SET_ATTR then Some (DirAttr (Sa.mode m a) (Sa.size m a))
  else if type =? LINK_CHANGE then Some DirLink
  else if type =? DIR_LOG then
    Some (Name a (De.ino m a) (De.invalid m a =? 0) (bytes m (De.name m a) (De.name_len m a)) (De.de_len m a) (De.size m a))
  else None.

(** The entries from [p] to the tail, and the pages entered on the way. *)
Fixpoint dir_items (fuel : nat) (sbi : nova_sb_info) (tail p : Z) : option (list Z * list dir_item) :=
  if p =? tail then Some ([], [])
  else
    match fuel with
    | O => None
    | S fuel =>
      let next := goto_next_page sbi p in
      let q := if next then next_log_page sbi p else p in
      if q =? 0 then None
      else
        it ← dir_item_at (nvm sbi) (nova_get_block (virt_addr sbi) q);
        r ← dir_items fuel sbi tail (u64 (q + dir_item_len it));
        Some ((if next then [q] else []) ++ r.1, it :: r.2)
    end.

(** What the entries say: the names and the addresses of their entries. *)
Definition replay_name (D : gmap (list Z) Z) (it : dir_item) : gmap (list Z) Z :=
  match it with
  | Name a ino valid s _ _ => if 0 <? ino then (if valid then <[s := a]> D else D) else delete s D
  | _ => D
  end.

Definition replay_dir (items : list dir_item) : gmap (list Z) Z := foldl replay_name ∅ items.

Definition dir_size (sz : Z) (it : dir_item) : Z :=
  match it with Name _ _ _ _ _ size | DirAttr _ size => size | DirLink => sz end.

(** The names of the log. *)
Definition item_name (it : dir_item) : option (list Z) :=
  match it with Name _ _ _ s _ _ => Some s | _ => None end.
Definition names (items : list dir_item) : list (list Z) := omap item_name items.

(** Entries that fit into their page; a name is added when it is not there; the attributes
    are those of a directory. *)
Definition dir_item_wf (va : Z) (D : gmap (list Z) Z) (it : dir_item) : Prop :=
  match it with
  | Name a ino valid s len _ =>
    28 + Z.of_nat (length s) < len /\ (a - va) mod 4096 + len <= LAST_ENTRY /\
    (0 < ino -> valid = true -> D !! s = None /\ s <> [])
  | DirAttr mode _ => S_ISREG mode = false
  | DirLink => True
  end.

Fixpoint dir_items_wf (va : Z) (D : gmap (list Z) Z) (items : list dir_item) : Prop :=
  match items with
  | [] => True
  | it :: items => dir_item_wf va D it /\ dir_items_wf va (replay_name D it) items
  end.

(** The variable [ret] is set by the first entry of a name that is not invalid. *)
Fixpoint ret_set (items : list dir_item) : bool :=
  match items with
  | [] => true
  | Name _ ino valid _ _ _ :: _ => negb (0 <? ino) || valid
  | _ :: items => ret_set items
  end.

(** The tree that holds the names of [D]. *)
Definition tree_of (D : gmap (list Z) Z) (t : gmap Z Z) : Prop :=
  (forall s a, D !! s = Some a -> t !! name_hash s = Some a) /\
  (forall h a, t !! h = Some a -> exists s, D !! s = Some a /\ name_hash s = h).

Lemma tree_of_insert D t s a : tree_of D t -> D !! s = None -> (forall s' b, D !! s' = Some b -> name_hash s' <> name_hash s) ->
  t !! name_hash s = None /\ tree_of (<[s := a]> D) (<[name_hash s := a]> t).
Proof.
  intros [T1 T2] Hs Hh. split.
  { destruct (t !! name_hash s) as [b|] eqn:E; [|done]. destruct (T2 _ _ E) as (s' & Hs' & E'). by destruct (Hh s' b Hs'). }
  split.
  - intros s' b [[<- <-]|[_ Hs']]%lookup_insert_Some; [by rewrite lookup_insert_eq|].
    rewrite lookup_insert_ne by (intros E; by apply (Hh s' b)). by apply T1.
  - intros h b [[<- <-]|[Hne Hb]]%lookup_insert_Some; [exists s; by rewrite lookup_insert_eq|].
    destruct (T2 h b Hb) as (s' & Hs' & <-). exists s'. rewrite lookup_insert_ne by congruence. done.
Qed.

Lemma tree_of_delete D t s : tree_of D t -> (forall s' b, D !! s' = Some b -> name_hash s' = name_hash s -> s' = s) ->
  tree_of (delete s D) (delete (name_hash s) t).
Proof.
  intros [T1 T2] Hh. split.
  - intros s' b [Hne Hs']%lookup_delete_Some. rewrite lookup_delete_ne; [by apply T1|]. intros E. apply Hne. symmetry. by apply (Hh s' b).
  - intros h b [Hne Hb]%lookup_delete_Some. destruct (T2 h b Hb) as (s' & Hs' & <-). exists s'.
    rewrite lookup_delete_ne by congruence. done.
Qed.

Lemma replay_names D it s a : replay_name D it !! s = Some a -> D !! s = Some a \/ item_name it = Some s.
Proof.
  destruct it as [b ino valid s' len size|mode size|]; cbn [replay_name item_name]; [|by left..].
  destruct (0 <? ino); [destruct valid|].
  - intros [[<- _]|[_ H]]%lookup_insert_Some; [by right|by left].
  - by left.
  - intros [_ H]%lookup_delete_Some. by left.
Qed.

Section rebuild.
Context `{RbTree} (slab_garbage : nova_range_node) (smp : Z) (jiffies_to_msecs : Z -> Z) (e : env).
Context (garbage : Z) (radix_nomem : Z -> bool).
Hypothesis pid_nonneg : 0 <= current_pid e.
Hypothesis radix_serves : forall i, radix_nomem i = false.
Context (sbi : nova_sb_info) (P : Z -> list Z) (pi data_bits : Z) (bs : list Z).
Hypothesis renv : rebuild_env sbi P pi data_bits bs.
#[local] Notation va := (virt_addr sbi).
#[local] Notation m0 := (nvm sbi).
#[local] Notation same_log := (same_log sbi pi).
#[local] Notation in_log := (in_log bs).
#[local] Notation reget := (reget_rebuild smp sbi P pi data_bits bs renv).

(** Names with the same hash are the same. *)
Context (all : list (list Z)).
Hypothesis no_collision : forall s s', s ∈ all -> s' ∈ all -> name_hash s = name_hash s' -> s = s'.

(** The names [D] are entered. *)
Record entered (D : gmap (list Z) Z) (m : memory) (sih : nova_inode_info_header) : Prop := {
  en_same : same_log m;
  en_tree : tree_of D (tree sih);
  en_names s a : D !! s = Some a -> s ∈ all;
}.

(** A name in the log reads as before. *)
Lemma same_log_name m q : same_log m -> in_log q -> 
  let a := va + q in
  q mod 4096 + 28 + De.name_len m0 a <= 4096 -> q mod 4096 + 32 <= LAST_ENTRY ->
  nova_get_entry_type m a = nova_get_entry_type m0 a /\ De.ino m a = De.ino m0 a /\ De.invalid m a = De.invalid m0 a /\
  De.name_len m a = De.name_len m0 a /\ De.de_len m a = De.de_len m0 a /\ De.size m a = De.size m0 a /\
  bytes m (De.name m a) (De.name_len m0 a) = bytes m0 (De.name m0 a) (De.name_len m0 a).
Proof.
  intros Hm Hq a Hl Hq32. unfold LAST_ENTRY in *.
  split_and!; try (apply (same_log_load sbi P pi data_bits bs renv _ m _ (q / 4096)); auto; simpl; unfold a; mlia).
  apply bytes_ext. intros i Hi. unfold De.name. rewrite Hm; [done|].
  pose proof (re_apart _ _ _ _ _ renv (q / 4096) Hq) as Hap. unfold block_addr in Hap. unfold a. mlia.
Qed.

(** The entry at [q] is applied: its names are entered and [ret] is 0. *)
Definition dir_stepped (D : gmap (list Z) Z) (m : memory) (sih : nova_inode_info_header) (mon : monitor)
    (k : nat) (q ret ret' : Z) (it : dir_item) : Prop :=
  exists m' sih' mon', rebuild_dir_entry slab_garbage smp jiffies_to_msecs e radix_nomem pi q ret
      (World (with_nvm m sbi) mon sih) =
      Some ((ret', Some (dir_item_len it)), World (with_nvm m' sbi) mon' sih') /\
    entered (replay_name D it) m' sih' /\ log_pages sih' = log_pages sih /\ counting k mon' /\
    Pi.i_size m' pi = dir_size (Pi.i_size m pi) it.

Lemma dir_time_ok m mon sih k q :
  same_log m -> in_log q -> q mod 4096 + 28 + De.name_len m0 (va + q) <= 4096 -> q mod 4096 + 32 <= LAST_ENTRY -> counting (S k) mon ->
  exists m' mon', nova_rebuild_dir_time_and_size smp jiffies_to_msecs e pi (va + q) (World (with_nvm m sbi) mon sih) =
      Some (tt, World (with_nvm m' sbi) mon' sih) /\ same_log m' /\ Pi.i_size m' pi = De.size m0 (va + q) /\ counting k mon'.
Proof.
  intros Hm Hq Hl Hq32 Hr. unfold nova_rebuild_dir_time_and_size. fstep (reget m mon sih Hm). frun. cbn [nvm with_nvm].
  set (m1 := Pi.set_i_ctime _ _ _). set (m2 := Pi.set_i_mtime _ _ _). set (m3 := Pi.set_i_size _ _ _). set (m4 := Pi.set_i_links_count _ _ _).
  assert (same_log m1) as H1 by (by apply same_log_store).
  assert (same_log m2) as H2 by (by apply same_log_store).
  assert (same_log m3) as H3 by (by apply same_log_store).
  assert (same_log m4) as H4 by (by apply same_log_store).
  destruct (ready_count_inode jiffies_to_msecs e pid_nonneg (with_nvm m4 sbi) mon sih pi k Hr) as (mon' & E & Hr').
  exists m4, mon'. split; [exact E|]. split; [done|]. split; [|done].
  destruct (same_log_name m2 q H2 Hq Hl Hq32) as (_ & _ & _ & _ & _ & Es & _).
  unfold m4, Pi.i_size, Pi.set_i_links_count. rewrite load_store_ne by (simpl; lia). unfold m3, Pi.set_i_size.
  rewrite load_store_eq, Es. apply Z.mod_small, load_range.
Qed.

Lemma rebuild_name D m sih mon k q ret a ino valid s len size :
  entered D m sih -> in_log q -> q mod 4096 + 32 <= LAST_ENTRY ->
  dir_item_at m0 (va + q) = Some (Name a ino valid s len size) -> dir_item_wf va D (Name a ino valid s len size) ->
  s ∈ all -> ret = 0 \/ negb (0 <? ino) || valid = true -> counting (S k) mon ->
  dir_stepped D m sih mon k q ret 0 (Name a ino valid s len size).
Proof.
  intros [M T N] Hq Hq32 Hit (W1 & W2 & W3) Hs Hret Hr. destruct (position jiffies_to_msecs sbi P pi data_bits bs renv q Hq) as [Ep Hne].
  unfold dir_item_at in Hit. destruct (Z.eqb_spec (nova_get_entry_type m0 (va + q)) SET_ATTR); [done|].
  destruct (Z.eqb_spec (nova_get_entry_type m0 (va + q)) LINK_CHANGE); [done|].
  destruct (Z.eqb_spec (nova_get_entry_type m0 (va + q)) DIR_LOG) as [Ty|]; [|done]. injection Hit as <- <- <- <- <- <-.
  set (a := va + q) in *. assert (a - va = q) as Eq by (unfold a; lia). rewrite Eq in W2.
  pose proof (load_range 1 m0 (a + 1)) as Hnl. change (load 1 m0 (a + 1)) with (De.name_len m0 a) in Hnl. simpl in Hnl.
  rewrite bytes_length in W1 by lia. set (s := bytes m0 (De.name m0 a) (De.name_len m0 a)) in *.
  assert (q mod 4096 + 28 + De.name_len m0 a <= 4096) as Hl by (unfold LAST_ENTRY in *; lia).
  destruct (same_log_name m q M Hq Hl Hq32) as (B1 & B2 & B3 & B4 & B5 & _ & B7). fold a in B1, B2, B3, B4, B5, B7. fold s in B7.
  assert (BKDRHash m (De.name m a) (De.name_len m0 a) = name_hash s) as Eh by (rewrite BKDRHash_name, B7 by lia; done).
  unfold dir_stepped, rebuild_dir_entry, get_block. erewrite fs_step by (cbn [w_sbi virt_addr with_nvm];
    rewrite (proj2 (Z.eqb_neq q 0) Hne), Ep; reflexivity).
  fold a. frun. cbn [nvm with_nvm]. rewrite B1, Ty, B2, B3. change (DIR_LOG =? SET_ATTR) with false. change (DIR_LOG =? LINK_CHANGE) with false.
  cbn [negb Z.eqb DIR_LOG Pos.eqb]. cbv iota. set (D' := replay_name D _).
  assert (exists t', (if 0 <? De.ino m0 a
      then if De.invalid m0 a =? 0 then nova_replay_add_dentry radix_nomem a else mret ret
      else nova_replay_remove_dentry a) (World (with_nvm m sbi) mon sih) =
      Some (0, World (with_nvm m sbi) mon (with_tree t' sih)) /\ tree_of D' t') as (t' & E & T').
  { unfold D'. cbn [replay_name]. pose proof (load_range 8 m0 (a + 12)) as Hi. change (load 8 m0 (a + 12)) with (De.ino m0 a) in Hi.
    destruct (Z.ltb_spec 0 (De.ino m0 a)) as [Hi0|Hi0].
    - destruct (De.invalid m0 a =? 0) eqn:Ev.
      + destruct (W3 Hi0 eq_refl) as [Hn Hnil]. destruct (tree_of_insert D (tree sih) s a T Hn) as [Hh T'].
        { intros s' b Hs' E'. rewrite (no_collision s' s) in Hs'; [congruence|by eapply N|done..]. }
        exists (<[name_hash s := a]> (tree sih)). split; [|done]. unfold nova_replay_add_dentry. frun. cbn [nvm with_nvm].
        rewrite B4. destruct (Z.eqb_spec (De.name_len m0 a) 0) as [E0|_].
        { exfalso. apply Hnil. unfold s. by rewrite E0. }
        unfold nova_insert_dir_radix_tree. rewrite Eh. frun. rewrite Hh, radix_serves. done.
      + exists (tree sih). rewrite with_tree_same. split; [|done]. destruct Hret as [->|Hx]; [done|]. done.
    - exists (delete (name_hash s) (tree sih)). split.
      + unfold nova_replay_remove_dentry. frun. cbn [nvm with_nvm]. rewrite B4. unfold nova_remove_dir_radix_tree. rewrite Eh.
        rewrite fs_assoc. frun. done.
      + apply tree_of_delete; [done|]. intros s' b Hs' E'. apply no_collision; [by eapply N|done..]. }
  fstep E. cbn [negb Z.eqb]. 
  destruct (dir_time_ok m mon (with_tree t' sih) k q M Hq Hl Hq32 Hr) as (m' & mon' & E2 & M' & Hsz & Hr'). fold a in E2, Hsz.
  fstep E2. frun. cbn [nvm with_nvm].
  destruct (same_log_name m' q M' Hq Hl Hq32) as (_ & _ & _ & _ & B5' & _). fold a in B5'. rewrite B5'.
  exists m', (with_tree t' sih), mon'. split; [done|]. split; [|split; [done|split; [done|exact Hsz]]].
  split; [done|exact T'|]. intros s' b [Hb|[= <-]]%replay_names; [by eapply N|done].
Qed.

Lemma rebuild_dir_attr D m sih mon k q ret mode size :
  entered D m sih -> in_log q -> q mod 4096 + 32 <= LAST_ENTRY ->
  dir_item_at m0 (va + q) = Some (DirAttr mode size) -> S_ISREG mode = false -> counting (S k) mon ->
  dir_stepped D m sih mon k q ret ret (DirAttr mode size).
Proof.
  intros [M T N] Hq Hq32 Hit Hreg Hr. destruct (position jiffies_to_msecs sbi P pi data_bits bs renv q Hq) as [Ep Hne].
  pose proof (item_entry jiffies_to_msecs sbi bs q Hq Hq32) as Hen.
  unfold dir_item_at in Hit. destruct (Z.eqb_spec (nova_get_entry_type m0 (va + q)) SET_ATTR) as [Ty|];
    [|by repeat (destruct (_ =? _); [done|])]. injection Hit as <- <-. set (a := va + q) in *.
  destruct (same_log_entry sbi P pi data_bits bs renv m a M Hen) as (_ & _ & _ & _ & _ & _ & B7 & _).
  destruct (attr_fields_ok sbi P pi data_bits bs renv m a M Hen) as (M1 & Esz & Emd). set (m1 := attr_fields pi m a) in *.
  destruct (same_log_entry sbi P pi data_bits bs renv m1 a M1 Hen) as (_ & _ & _ & _ & _ & _ & _ & Es1 & _).
  pose proof (hm_lock _ _ _ (same_log_homed sbi P pi data_bits bs renv m1 M1)) as Hlock.
  set (m2 := Pi.set_i_size m1 pi (Sa.size m1 a)).
  assert (same_log m2) as M2 by (by apply same_log_store; [|lia|simpl; lia]).
  assert (Pi.i_size m2 pi = Sa.size m0 a) as Esz2.
  { unfold m2, Pi.i_size, Pi.set_i_size. rewrite load_store_eq, Es1. apply Z.mod_small, load_range. }
  destruct (ready_count_inode jiffies_to_msecs e pid_nonneg (with_nvm m2 sbi) mon (with_sih_size (Sa.size m0 a) sih) pi k Hr)
    as (mon' & Ec & Hr').
  exists m2, (with_last_setattr q (with_sih_size (Sa.size m0 a) sih)), mon'. split.
  { unfold rebuild_dir_entry, get_block. erewrite fs_step by (cbn [w_sbi virt_addr with_nvm];
      rewrite (proj2 (Z.eqb_neq q 0) Hne), Ep; reflexivity).
    fold a. frun. cbn [nvm with_nvm]. rewrite B7, Ty. change (SET_ATTR =? SET_ATTR) with true. cbv iota.
    assert (nova_apply_setattr_entry slab_garbage smp jiffies_to_msecs e pi a (World (with_nvm m sbi) mon sih) =
      Some (tt, World (with_nvm m2 sbi) mon' (with_sih_size (Sa.size m0 a) sih))) as Ea; [|by fstep Ea].
    unfold nova_apply_setattr_entry. frun. cbn [nvm with_nvm].
    destruct (same_log_fields sbi pi m M) as (_ & _ & _ & ->). rewrite (re_bits _ _ _ _ _ renv). erewrite fs_step by reflexivity.
    rewrite B7, Ty. change (negb (SET_ATTR =? SET_ATTR)) with false. cbv iota.
    fstep (reget m mon sih M). rewrite (fs_step _ _ _ tt (World (with_nvm m1 sbi) mon sih)) by reflexivity.
    frun. cbn [nvm with_nvm]. rewrite Emd, Hreg, andb_false_r. frun. cbn [nvm with_nvm].
    erewrite fs_step by (unfold lock_inode_page; frun; cbn [nvm with_nvm] in Hlock; rewrite Hlock; reflexivity).
    rewrite (fs_step _ _ _ tt (World (with_nvm m2 sbi) mon sih)) by reflexivity.
    frun. cbn [nvm with_nvm]. rewrite Esz2. exact Ec. }
  split; [by split|]. by split_and!.
Qed.

Lemma rebuild_dir_link D m sih mon k q ret :
  entered D m sih -> in_log q -> q mod 4096 + 32 <= LAST_ENTRY ->
  dir_item_at m0 (va + q) = Some DirLink -> counting (S k) mon -> dir_stepped D m sih mon k q ret ret DirLink.
Proof.
  intros [M T N] Hq Hq32 Hit Hr. destruct (position jiffies_to_msecs sbi P pi data_bits bs renv q Hq) as [Ep Hne].
  pose proof (item_entry jiffies_to_msecs sbi bs q Hq Hq32) as Hen.
  unfold dir_item_at in Hit. destruct (Z.eqb_spec (nova_get_entry_type m0 (va + q)) SET_ATTR) as [|T1]; [done|].
  destruct (Z.eqb_spec (nova_get_entry_type m0 (va + q)) LINK_CHANGE) as [Ty|]; [|by destruct (_ =? _)]. set (a := va + q) in *.
  destruct (same_log_entry sbi P pi data_bits bs renv m a M Hen) as (_ & _ & _ & _ & _ & _ & B7 & _).
  assert (exists m1, nova_apply_link_change_entry pi a (World (with_nvm m sbi) mon sih) = Some (tt, World (with_nvm m1 sbi) mon sih) /\
    same_log m1 /\ Pi.i_size m1 pi = Pi.i_size m pi) as (m1 & Ea & M1 & Es).
  { eexists. split; [|split].
    - unfold nova_apply_link_change_entry. frun. cbn [nvm with_nvm]. rewrite B7, Ty.
      change (negb (LINK_CHANGE =? LINK_CHANGE)) with false. cbv iota. reflexivity.
    - cbv zeta. by repeat (apply same_log_store; [|lia|simpl; lia]).
    - cbv zeta. unfold Pi.i_size, Pi.set_i_generation, Pi.set_i_flags, Pi.set_i_ctime, Pi.set_i_links_count.
      by rewrite !load_store_ne by (simpl; lia). }
  exists m1, (with_last_link_change q sih), mon. split.
  { unfold rebuild_dir_entry, get_block. erewrite fs_step by (cbn [w_sbi virt_addr with_nvm];
      rewrite (proj2 (Z.eqb_neq q 0) Hne), Ep; reflexivity).
    fold a. frun. cbn [nvm with_nvm]. rewrite B7, Ty. change (LINK_CHANGE =? SET_ATTR) with false.
    change (LINK_CHANGE =? LINK_CHANGE) with true. cbv iota. by fstep Ea. }
  split; [by split|]. split; [done|]. split; [by eapply ready_less; [exact Hr|lia]|]. exact Es.
Qed.

(** Where the log is after an entry. *)
Lemma next_in_log D q it : in_log q -> q mod 4096 + 32 <= LAST_ENTRY -> dir_item_at m0 (va + q) = Some it ->
  dir_item_wf va D it -> u64 (q + dir_item_len it) = q + dir_item_len it /\ in_log (q + dir_item_len it).
Proof.
  intros Hq Hq32 Hit Hwf. pose proof (re_blocks _ _ _ _ _ renv _ Hq) as Hb. destruct (re_mapped _ _ _ _ _ renv) as (_ & _ & Hnb).
  assert (0 < dir_item_len it /\ q mod 4096 + dir_item_len it < 4096) as [H1 H2].
  { unfold LAST_ENTRY in *. destruct it as [a ino valid s len size|mode size|]; cbn [dir_item_len dir_item_wf] in *.
    - destruct Hwf as (W1 & W2 & _). unfold dir_item_at in Hit.
      do 2 (destruct (_ =? _); [done|]). destruct (_ =? DIR_LOG); [|done]. injection Hit as <- _ _ _ _ _. replace (va + q - va) with q in W2 by lia. unfold LAST_ENTRY in W2. lia.
    - unfold Sa.length. lia.
    - unfold Lc.length. lia. }
  split; [apply u64_small; mlia|]. unfold Rebuild.in_log in *. replace ((q + dir_item_len it) / 4096) with (q / 4096) by mlia. done.
Qed.

Lemma names_cons it items : (forall s, s ∈ names (it :: items) -> s ∈ all) ->
  (forall s, item_name it = Some s -> s ∈ all) /\ (forall s, s ∈ names items -> s ∈ all).
Proof.
  intros Hn. split; intros s Hs; apply Hn; unfold names; simpl.
  - rewrite Hs. by left.
  - destruct (item_name it); [by right|done].
Qed.

Lemma rebuild_dir_step D m sih mon k q ret it items :
  entered D m sih -> in_log q -> q mod 4096 + 32 <= LAST_ENTRY -> dir_item_at m0 (va + q) = Some it ->
  dir_item_wf va D it -> (forall s, item_name it = Some s -> s ∈ all) -> ret = 0 \/ ret_set (it :: items) = true -> counting (S k) mon ->
  exists ret', dir_stepped D m sih mon k q ret ret' it /\ (ret' = 0 \/ ret_set items = true).
Proof.
  intros HE Hq Hq32 Hit Hwf Hnm Hret Hr. destruct it as [a ino valid s len size|mode size|].
  - exists 0. split; [|by left]. eapply rebuild_name; eauto.
  - exists ret. split; [by apply rebuild_dir_attr|done].
  - exists ret. split; [by apply rebuild_dir_link|done].
Qed.

(** The walk to the tail. *)
Lemma rebuild_dir_loop_ok fuel : forall curr_p D m sih mon ret pages items k,
  dir_items fuel sbi (Pi.log_tail m0 pi) curr_p = Some (pages, items) -> dir_items_wf va D items ->
  (forall s, s ∈ names items -> s ∈ all) -> ret = 0 \/ ret_set items = true ->
  entered D m sih -> in_log curr_p -> Forall (log_page_at bs) pages -> counting (length items + k) mon ->
  0 <= log_pages sih -> log_pages sih + Z.of_nat (length pages) < 2 ^ 63 ->
  exists m' sih' mon', rebuild_dir_loop slab_garbage smp jiffies_to_msecs e radix_nomem fuel pi curr_p ret
      (World (with_nvm m sbi) mon sih) = Some (Pi.log_tail m0 pi, World (with_nvm m' sbi) mon' sih') /\
    entered (foldl replay_name D items) m' sih' /\ log_pages sih' = log_pages sih + Z.of_nat (length pages) /\
    in_log (Pi.log_tail m0 pi) /\ counting k mon' /\ Pi.i_size m' pi = foldl dir_size (Pi.i_size m pi) items.
Proof.
  induction fuel as [|fuel IH]; intros curr_p D m sih mon ret pages items k El Hwf Hnm Hret HE Hin Hpg Hr Hl0 Hl1;
    cbn [dir_items rebuild_dir_loop] in *; frun; cbn [nvm with_nvm];
    destruct (same_log_fields sbi pi m (en_same _ _ _ HE)) as (_ & Etl & _); rewrite Etl;
    (destruct (Z.eqb_spec curr_p (Pi.log_tail m0 pi)) as [->|Hne];
     [injection El as <- <-; exists m, sih, mon; split_and!; (done || (simpl; lia))|]); [done|].
  frun. cbv zeta in El. destruct (same_log_next jiffies_to_msecs sbi P pi data_bits bs renv m curr_p (en_same _ _ _ HE) Hin) as [-> ->].
  set (q := if goto_next_page sbi curr_p then _ else curr_p) in *.
  destruct (q =? 0) eqn:Eq0; [done|]. destruct (dir_item_at m0 (nova_get_block va q)) as [it|] eqn:Eit; [|done].
  cbn [mbind option_bind] in El. destruct (dir_items fuel sbi _ (u64 (q + dir_item_len it))) as [[pages' items']|] eqn:Er; [|done].
  cbn [fst snd] in El. injection El as <- <-. destruct Hwf as [Hwi Hwf]. apply Forall_app in Hpg as [Hpq Hpg].
  apply names_cons in Hnm as [Hn1 Hn2]. rewrite length_app, Nat2Z.inj_add in Hl1. cbn [length] in Hr.
  set (sih1 := with_log_pages (log_pages sih + Z.of_nat (length (if goto_next_page sbi curr_p then [q] else []))) sih).
  assert ((if goto_next_page sbi curr_p
      then put_sih (fun sih => with_log_pages (u64 (log_pages sih + 1)) sih) ≫= (fun _ => mret (next_log_page sbi curr_p))
      else mret curr_p) (World (with_nvm m sbi) mon sih) = Some (q, World (with_nvm m sbi) mon sih1) /\
    in_log q /\ q mod 4096 + 32 <= LAST_ENTRY) as (E1 & Hq & Hqm).
  { unfold q, sih1 in *. destruct (goto_next_page sbi curr_p) eqn:Eg.
    - frun. apply Forall_singleton in Hpq as [Hq0 Hq1]. cbn [length] in *.
      rewrite u64_small by lia. rewrite Hq0. by split_and!.
    - split; [|split; [done|]].
      + cbn [length]. rewrite Z.add_0_r. by destruct sih.
      + unfold goto_next_page in Eg. rewrite ENTRY_LOC_alt in Eg.
        destruct (Z.ltb_spec LAST_ENTRY (curr_p mod 4096 + 32)); [done|lia]. }
  fstep E1. rewrite Eq0. assert (entered D m sih1) as HE1 by (by destruct HE; split).
  destruct (position jiffies_to_msecs sbi P pi data_bits bs renv q Hq) as [Ep _]. rewrite Ep in Eit.
  destruct (rebuild_dir_step D m sih1 mon (length items' + k) q ret it items' HE1 Hq Hqm Eit Hwi Hn1 Hret Hr)
    as (ret' & (m2 & sih2 & mon2 & E2 & HE2 & Hlp2 & Hr2 & Hsz2) & Hret').
  fstep E2. cbv beta iota. destruct (next_in_log D q it Hq Hqm Eit Hwi) as [Eu Hin']. rewrite Eu in *.
  destruct (IH (q + dir_item_len it) (replay_name D it) m2 sih2 mon2 ret' pages' items' k)
    as (m3 & sih3 & mon3 & E3 & HE3 & Hlp3 & Htl & Hr3 & Hsz3); auto.
  { rewrite Hlp2. unfold sih1. cbn [log_pages with_log_pages]. lia. }
  { rewrite Hlp2. unfold sih1. cbn [log_pages with_log_pages]. lia. }
  exists m3, sih3, mon3. split; [exact E3|]. split; [exact HE3|]. split; [|split; [done|split; [done|]]].
  - rewrite Hlp3, Hlp2, length_app, Nat2Z.inj_add. unfold sih1. cbn [log_pages with_log_pages]. lia.
  - cbn [foldl]. by rewrite Hsz3, Hsz2.
Qed.
End rebuild.

(** The log of a directory: its entries, the pages entered on the way to the tail and the
    pages behind it. *)
Record dir_log (sbi : nova_sb_info) (pi : Z) (pages : list Z) (items : list dir_item) (rest : list Z) : Prop := {
  dl_items : dir_items (Z.to_nat (4096 * num_blocks sbi)) sbi (Pi.log_tail (nvm sbi) pi) (Pi.log_head (nvm sbi) pi) = Some (pages, items);
  dl_wf : dir_items_wf (virt_addr sbi) ∅ items;
  dl_names s s' : s ∈ names items -> s' ∈ names items -> name_hash s = name_hash s' -> s = s';
  dl_head : Pi.log_head (nvm sbi) pi <> 0;
  dl_rest : linked sbi (BLOCK_OFF (Pi.log_tail (nvm sbi) pi)) rest /\ (length rest <= Z.to_nat (num_blocks sbi))%nat;
  dl_pages : Forall (fun q => q mod 4096 = 0) (Pi.log_head (nvm sbi) pi :: pages ++ rest);
}.

Lemma dir_items_length fuel : forall sbi tail p pages items,
  dir_items fuel sbi tail p = Some (pages, items) -> (length pages <= fuel)%nat.
Proof.
  induction fuel as [|fuel IH]; intros sbi tail p pages items; cbn [dir_items];
    (destruct (p =? tail); [intros [= <- <-]; simpl; lia|]); [done|].
  cbv zeta. destruct (_ =? 0); [done|]. destruct (dir_item_at _ _) as [it|]; [|done]. cbn [mbind option_bind].
  destruct (dir_items fuel _ _ _) as [[pages' items']|] eqn:E; [|done]. cbn [fst snd].
  intros [= <- <-]. apply IH in E. rewrite length_app. destruct (goto_next_page _ _); simpl; lia.
Qed.

Section directory.
Context `{RbTree} (slab_garbage : nova_range_node) (smp : Z) (jiffies_to_msecs : Z -> Z) (e : env).
Context (garbage : Z) (radix_nomem : Z -> bool).
Hypothesis pid_nonneg : 0 <= current_pid e.
Hypothesis radix_serves : forall i, radix_nomem i = false.
Context (sbi : nova_sb_info) (P : Z -> list Z) (pi data_bits : Z).
Context (pages : list Z) (items : list dir_item) (rest : list Z).

(** C10: [nova_rebuild_dir_inode_tree] restores a directory from its log: the tree it builds
    gives every name of the log the entry that replaying the additions and removals leaves for
    it, and none if the name was removed; the size is that of the last entry that has one,
    [log_pages] is the length of the chain, and on the device only fields of the inode change.
    The directory is not the root ([re_ino]); no two names of the log have the same hash
    ([dl_names]); an entry that sets the returned variable comes before the first invalid one,
    or the unset variable (dir.c:506) is 0; the radix tree gets its memory; the counters of
    the monitor have room for one write an entry, however often blocks were written before. *)
Theorem rebuild_dir_exact sih mon k pi_addr :
  rebuild_env sbi P pi data_bits (log_blocks sbi pi pages rest) -> dir_log sbi pi pages items rest ->
  garbage = 0 \/ ret_set items = true -> tree sih = ∅ -> counting (length items + S k) mon ->
  exists m' sih' mon', nova_rebuild_dir_inode_tree slab_garbage smp jiffies_to_msecs e garbage radix_nomem pi pi_addr
      (World sbi mon sih) = Some (0, World (with_nvm m' sbi) mon' sih') /\
    (forall s, s ∈ names items -> tree sih' !! name_hash s = replay_dir items !! s) /\
    (forall h a, tree sih' !! h = Some a -> exists s, s ∈ names items /\ name_hash s = h) /\
    sih_size sih' = foldl dir_size (Pi.i_size (nvm sbi) pi) items /\
    log_pages sih' = Z.of_nat (length (Pi.log_head (nvm sbi) pi :: pages ++ rest)) /\
    (forall x, ~ pi + 4 <= x < pi + 64 -> m' x = nvm sbi x).
Proof.
  intros Henv Hdl Hret Ht Hr. set (bs := log_blocks sbi pi pages rest) in *.
  assert (Forall (log_page_at bs) (Pi.log_head (nvm sbi) pi :: pages ++ rest)) as Hpg.
  { apply Forall_forall. intros q Hq. split; [by apply (proj1 (Forall_forall _ _) (dl_pages _ _ _ _ _ Hdl) q Hq)|].
    unfold in_log, bs, log_blocks. by apply (list_elem_of_fmap_2 (fun q => q / 4096)). }
  apply Forall_cons_1 in Hpg as [[_ Hh] Hpg]. apply Forall_app in Hpg as [Hpg Hrest].
  pose proof (dir_items_length _ _ _ _ _ _ (dl_items _ _ _ _ _ Hdl)) as Hlen. destruct (dl_rest _ _ _ _ _ Hdl) as [Hlk Hlr].
  destruct (re_mapped _ _ _ _ _ Henv) as (_ & _ & Hnb). pose proof (re_ino _ _ _ _ _ Henv) as Hino.
  assert (same_log sbi pi (nvm sbi)) as Hm0 by done.
  unfold nova_rebuild_dir_inode_tree. frun. rewrite (proj2 (Z.leb_le 6 _)) by (unfold NOVA_NORMAL_INODE_START in Hino; lia).
  pose proof (lookup_rebuild smp sbi P pi data_bits bs Henv (nvm sbi) mon (with_sih_pi_addr pi_addr sih) 0 Hm0) as El.
  rewrite with_nvm_same in El. fstep El. frun. rewrite (proj2 (Z.eqb_neq _ 0) (dl_head _ _ _ _ _ Hdl)). frun.
  set (sih1 := with_log_pages 1 (with_sih_pi_addr pi_addr sih)).
  assert (entered sbi pi (names items) ∅ (nvm sbi) sih1) as HE0.
  { split; [done| |intros s a; by rewrite lookup_empty]. cbn [sih1 tree with_log_pages with_sih_pi_addr]. rewrite Ht.
    split; intros x a; by rewrite lookup_empty. }
  destruct (rebuild_dir_loop_ok slab_garbage smp jiffies_to_msecs e radix_nomem pid_nonneg radix_serves sbi P pi data_bits bs Henv
    (names items) (dl_names _ _ _ _ _ Hdl) (Z.to_nat (4096 * num_blocks sbi)) (Pi.log_head (nvm sbi) pi) ∅ (nvm sbi) sih1 mon garbage
    pages items (S k) (dl_items _ _ _ _ _ Hdl) (dl_wf _ _ _ _ _ Hdl) (fun s Hs => Hs) Hret HE0 Hh Hpg Hr)
    as (m1 & sih2 & mon1 & E1 & HE1 & Hlp & Htl & Hr1 & Hsz1); [cbn; lia|cbn [log_pages sih1 with_log_pages]; lia|].
  rewrite with_nvm_same in E1. fstep E1. frun. cbn [nvm with_nvm]. pose proof (en_same _ _ _ _ _ _ HE1) as Hm1.
  cbn [log_pages sih1 with_log_pages] in Hlp. set (sih3 := with_sih_mode _ _).
  assert (log_page_at bs (BLOCK_OFF (Pi.log_tail (nvm sbi) pi))) as Htp.
  { rewrite BLOCK_OFF_alt. unfold log_page_at, in_log in *.
    replace ((_ - _) / 4096) with (Pi.log_tail (nvm sbi) pi / 4096) by mlia. split; [mlia|done]. }
  fstep (count_chain_ok jiffies_to_msecs sbi P pi data_bits bs Henv rest (Z.to_nat (num_blocks sbi))
    (BLOCK_OFF (Pi.log_tail (nvm sbi) pi)) m1 mon1 sih3 Hm1 Htp Hlk Hrest Hlr
    ltac:(cbn [log_pages sih3 with_sih_mode with_sih_size]; lia) ltac:(cbn [log_pages sih3 with_sih_mode with_sih_size]; lia)).
  set (sih4 := with_log_pages _ sih3).
  fstep (reget_rebuild smp sbi P pi data_bits bs Henv m1 mon1 sih4 Hm1). frun. cbn [nvm with_nvm].
  set (m2 := Pi.set_i_blocks _ _ _).
  destruct (ready_count_inode jiffies_to_msecs e pid_nonneg (with_nvm m2 sbi) mon1 sih4 pi k Hr1) as (mon2 & E2 & _).
  fstep E2. exists m2, sih4, mon2. split; [done|]. pose proof (en_tree _ _ _ _ _ _ HE1) as [T1 T2].
  pose proof (en_names _ _ _ _ _ _ HE1) as HN. fold (replay_dir items) in T1, T2, HN.
  change (tree sih4) with (tree sih2). split; [|split; [|split; [|split]]].
  - intros s Hs. destruct (replay_dir items !! s) as [a|] eqn:Ea; [by apply T1|].
    destruct (tree sih2 !! name_hash s) as [b|] eqn:Eb; [|done]. destruct (T2 _ _ Eb) as (s' & Hs' & Eh).
    rewrite (dl_names _ _ _ _ _ Hdl s' s) in Hs'; [congruence|by eapply HN|done..].
  - intros h a Ha. destruct (T2 h a Ha) as (s & Hs & <-). exists s. split; [by eapply HN|done].
  - exact Hsz1.
  - cbn [sih4 sih3 log_pages with_log_pages with_sih_mode with_sih_size]. rewrite Hlp. cbn [length]. rewrite length_app. lia.
  - intros x Hx. unfold m2, Pi.set_i_blocks. rewrite store_disjoint by (simpl; lia). by apply Hm1.
Qed.
End directory.

(** ** Listing *)

(** The entries a listing shows, with their inode numbers. *)
Definition shown_item (it : dir_item) : option (Z * Z) :=
  match it with Name a ino valid _ _ _ => if (0 <? ino) && valid then Some (a, ino) else None | _ => None end.
Definition shown (items : list dir_item) : list (Z * Z) := omap shown_item items.

Section listing.
Context `{RbTree} (smp garbage : Z) (sbi : nova_sb_info) (P : Z -> list Z) (pidir : Z).
#[local] Notation va := (virt_addr sbi).
#[local] Notation m0 := (nvm sbi).

(** The inode with a number. *)
Definition child (ino : Z) : Z := nova_get_block va (default 0 (inode_slot (cpus sbi) P ino)).

(** What is emitted for the entry [prev] when the entry with the number [ino] is read. *)
Definition emit_of (prev : Z * Z) (ino : Z) : emitted :=
  Emitted (De.name m0 prev.1) (De.name_len m0 prev.1) ino (IF2DT (Pi.i_mode m0 prev.2)).

Fixpoint walk (prev : option (Z * Z)) (l : list (Z * Z)) : list emitted :=
  match l with
  | [] => []
  | (a, ino) :: l =>
    match prev with Some p => [emit_of p ino] | None => [] end ++ walk (Some (a, child ino)) l
  end.

(** The entry that is left for the end. *)
Definition left_over (prev : option (Z * Z)) (l : list (Z * Z)) : option (Z * Z) :=
  match last l with Some (a, ino) => Some (a, child ino) | None => prev end.

Hypothesis tables : tables_ok sbi P.
Hypothesis free_locks : unlocked sbi.
Hypothesis small : num_blocks sbi < 2147483648.

Lemma walk_length l : forall prev, length (walk prev l) = match prev with Some _ => length l | None => (length l - 1)%nat end.
Proof.
  induction l as [|[a ino] l IH]; intros prev; [by destruct prev|]. cbn [walk]. rewrite length_app, IH. by destruct prev; simpl; lia.
Qed.

Lemma left_over_cons prev a ino l : left_over prev ((a, ino) :: l) = left_over (Some (a, child ino)) l.
Proof. unfold left_over. rewrite last_cons. by destruct (last l) as [[]|]. Qed.

Lemma readdir_loop_ok fuel : forall p pages items pos ctx prev ino room out mon sih,
  dir_items fuel sbi (Pi.log_tail m0 pidir) p = Some (pages, items) ->
  (forall a i, (a, i) ∈ shown items -> is_Some (inode_slot (cpus sbi) P i)) ->
  (length (walk prev (shown items)) <= room)%nat ->
  exists ctx', readdir_loop smp garbage fuel pidir p pos ctx prev ino room out (World sbi mon sih) =
    Some (inr (ctx', left_over prev (shown items), default ino (snd <$> last (shown items)),
               (room - length (walk prev (shown items)))%nat, out ++ walk prev (shown items)), World sbi mon sih).
Proof.
  induction fuel as [|fuel IH]; intros p pages items pos ctx prev ino room out mon sih El Hsl Hroom;
    cbn [dir_items readdir_loop] in *; frun; (destruct (Z.eqb_spec p (Pi.log_tail m0 pidir)) as [->|Hne];
      [injection El as <- <-; exists ctx; cbn; by rewrite app_nil_r, Nat.sub_0_r|]); [done|].
  frun. cbv zeta in El. set (q := if goto_next_page sbi p then _ else p) in *. destruct (q =? 0); [done|].
  destruct (dir_item_at m0 (nova_get_block va q)) as [it|] eqn:Eit; [|done]. cbn [mbind option_bind] in El.
  destruct (dir_items fuel sbi _ (u64 (q + dir_item_len it))) as [[pages' items']|] eqn:Er; [|done].
  cbn [fst snd] in El. injection El as <- <-. set (a := nova_get_block va q) in *.
  assert (shown (it :: items') = match shown_item it with Some x => x :: shown items' | None => shown items' end) as Esh by done.
  rewrite Esh in *. clear Esh.
  unfold dir_item_at in Eit. destruct (nova_get_entry_type m0 a =? SET_ATTR); [injection Eit as <-; cbn [shown_item] in *; eauto|].
  destruct (nova_get_entry_type m0 a =? LINK_CHANGE); [injection Eit as <-; cbn [shown_item] in *; eauto|].
  destruct (nova_get_entry_type m0 a =? DIR_LOG); [|done]. injection Eit as <-. cbn [negb].
  cbn [shown_item] in *. destruct ((0 <? De.ino m0 a) && (De.invalid m0 a =? 0)) eqn:Ev; [|eauto].
  destruct (Hsl a (De.ino m0 a)) as [s Hs]; [by left|]. pose proof (load_range 8 m0 (a + 12)) as Hi.
  erewrite fs_step by (apply on_sbi_run; cbn [w_sbi]; rewrite (get_inode_address_present smp sbi P (De.ino m0 a) garbage 0 0 s); auto;
    unfold De.ino; lia). cbv beta iota. cbn [negb Z.eqb w_mon w_sih].
  assert (nova_get_block va s = child (De.ino m0 a)) as -> by (unfold child; by rewrite Hs).
  assert (forall b j, (b, j) ∈ shown items' -> is_Some (inode_slot (cpus sbi) P j)) as Hsl' by (intros b j Hb; apply (Hsl b j); by right).
  assert (default ino (snd <$> last ((a, De.ino m0 a) :: shown items')) = default (De.ino m0 a) (snd <$> last (shown items'))) as ->
    by (rewrite last_cons; by destruct (last (shown items')) as [[]|]).
  rewrite left_over_cons. cbn [walk] in *. destruct prev as [[b c]|].
  - cbn [app length] in Hroom. destruct room as [|room]; [lia|]. cbn [dir_emit].
    destruct (IH (u64 (q + De.de_len m0 a)) pages' items' (BKDRHash m0 (De.name m0 a) (De.name_len m0 a))
      (BKDRHash m0 (De.name m0 a) (De.name_len m0 a)) (Some (a, child (De.ino m0 a))) (De.ino m0 a) room
      (out ++ [emit_of (b, c) (De.ino m0 a)]) mon sih Er Hsl' ltac:(lia)) as (ctx' & E). exists ctx'.
    rewrite <- app_assoc in E. exact E.
  - eauto.
Qed.

(** The names come in the order of the log, each with the inode number of the entry behind
    it. *)
Lemma walk_shift l : forall p, em_name <$> walk (Some p) l = De.name m0 <$> take (length l) (p.1 :: (fst <$> l)) /\
  em_ino <$> walk (Some p) l = snd <$> l.
Proof.
  induction l as [|[a ino] l IH]; intros p; [done|]. destruct (IH (a, child ino)) as [H1 H2]. cbn [walk app fmap list_fmap fst snd take length].
  split; [|by f_equal]. f_equal. exact H1.
Qed.

(** C11: A listing gives the names wrong numbers: [nova_readdir] from the start, with room for
    all entries, emits the valid entries of the log in order, but each name with the inode number
    of the entry behind it; only the last one has its own. *)
Theorem readdir_shifts_inodes dir pages items mon sih room a ino l :
  nova_get_inode smp sbi (i_ino dir) (sih_pi_addr sih) = Some (inr pidir, sbi) -> Pi.log_head m0 pidir <> 0 ->
  dir_items (Z.to_nat (4096 * num_blocks sbi)) sbi (Pi.log_tail m0 pidir) (Pi.log_head m0 pidir) = Some (pages, items) ->
  (forall a i, (a, i) ∈ shown items -> is_Some (inode_slot (cpus sbi) P i)) -> (length (shown items) <= room)%nat ->
  shown items = (a, ino) :: l ->
  exists out, nova_readdir smp garbage dir 0 room (World sbi mon sih) = Some ((0, READDIR_END, out), World sbi mon sih) /\
    em_name <$> out = De.name m0 <$> (fst <$> shown items) /\
    em_ino <$> out = (snd <$> l) ++ [default ino (snd <$> last l)].
Proof.
  intros Hg Hh Hit Hsl Hroom Hsh. unfold nova_readdir. frun.
  erewrite fs_step by (apply on_sbi_run; exact Hg). cbv beta iota. cbn [w_mon w_sih]. frun.
  rewrite (proj2 (Z.eqb_neq _ 0) Hh). change (0 =? READDIR_END) with false. change (0 =? 0) with true. cbv iota. frun.
  cbn [negb andb]. pose proof (walk_length (shown items) None) as Hwl. cbv iota in Hwl.
  destruct (readdir_loop_ok (Z.to_nat (4096 * num_blocks sbi)) _ pages items 0 0 None garbage room [] mon sih Hit Hsl ltac:(lia))
    as (ctx & E). fstep E. rewrite Hsh in *. cbn [app walk length] in *. rewrite left_over_cons. unfold left_over. frun.
  destruct (walk_shift l (a, child ino)) as [W1 W2]. rewrite last_cons.
  assert (exists p, match last l with Some (b, i) => Some (b, child i) | None => Some (a, child ino) end = Some p /\
    De.name m0 <$> (take (length l) (a :: (fst <$> l)) ++ [p.1]) = De.name m0 <$> (a :: (fst <$> l))) as (p & -> & Hp).
  { destruct (last l) as [[b i]|] eqn:El.
    - exists (b, child i). split; [done|]. f_equal. apply last_Some in El as [l' ->]. rewrite length_app, fmap_app. cbn [fmap list_fmap fst length].
      rewrite app_comm_cons, take_app_length' by (simpl; rewrite length_fmap; lia). done.
    - apply last_None in El as ->. by exists (a, child ino). }
  destruct p as [b c]. destruct room as [|room]; [simpl in Hroom; lia|].
  replace (S room - length (walk (Some (a, child ino)) l))%nat with (S (room - length l)) by (rewrite walk_length; simpl in Hroom; lia).
  cbn [dir_emit]. eexists. split; [reflexivity|]. rewrite !(fmap_app _ (walk _ _)), W1, W2. split.
  - cbn [fmap list_fmap fst]. rewrite fmap_app in Hp. exact Hp.
  - f_equal. f_equal. by destruct (last l) as [[]|].
Qed.
End listing.

(** ** An example *)

Module DirDemo.
Import RbList.RbList InodeTable.TableDemo Detect.DetectDemo FastGc.GcDemo.

(** Names in the memory of the kernel: "ab" at 100, "c" at 200, "d" at 300, "Ad" at 400 and,
    with the same hash, "B\xe1" at 500. *)
Definition km : memory := fun x =>
  if x =? 100 then 97 else if x =? 101 then 98 else if x =? 200 then 99 else if x =? 300 then 100
  else if x =? 400 then 65 else if x =? 401 then 100 else if x =? 500 then 66 else if x =? 501 then 225 else 0.

Definition dd_inode : vfs_inode := VfsInode 40 4096 1 0 2 0 0 (S_IFDIR + 493) 0 0 0 0 0.

Lemma dd_geometry : virt_addr gc_sbi = 65536 /\ num_blocks gc_sbi = 20 /\ cpus gc_sbi = 2.
Proof. vm_compute. split_and!; reflexivity. Qed.

(** An empty directory, the end of its log in page 5. *)
Lemma dd_state : exists P, dir_state P gc_pi 40 gc_sbi (4096 * 5 + 200) (4096 * 5 + 1000) ∅ ∅.
Proof.
  destruct gc_demo as (F & P & Hh & Hc & _). exists P. destruct dd_geometry as (Ev & En & _). destruct gc_fields as (Ei & _).
  split; rewrite ?Ev, ?En.
  - exact Hh.
  - exact (cl_mapped _ _ _ _ _ _ Hc).
  - lia.
  - split; [exact Ei|reflexivity].
  - vm_compute. split_and!; discriminate.
  - unfold gc_pi. lia.
  - split; intros *; rewrite lookup_empty; intros Hx; discriminate Hx.
  - intros s i a Hx. rewrite lookup_empty in Hx. discriminate Hx.
Qed.

Definition dd_ops : list dir_op := [AddName 100 2 7 0; AddName 200 1 8 0; RemoveName 100 2 0].

Lemma dd_ops_ok : ops_ok km ∅ dd_ops.
Proof.
  split; [split; [lia|split; [intros s i Hs; rewrite lookup_empty in Hs; discriminate Hs|split; [reflexivity|lia]]]|].
  split; [split; [lia|split; [|split; [vm_compute; reflexivity|lia]]]|].
  { intros s i Hs Hh. cbn [apply_op] in Hs. apply lookup_insert_Some in Hs as [[<- _]|[_ Hs]]; [|rewrite lookup_empty in Hs; discriminate Hs].
    exfalso. vm_compute in Hh. discriminate Hh. }
  split; [split; [lia|split]|exact I].
  - intros s i Hs Hh. cbn [apply_op] in Hs. apply lookup_insert_Some in Hs as [[<- _]|[_ Hs]]; [exfalso; vm_compute in Hh; discriminate Hh|].
    apply lookup_insert_Some in Hs as [[<- _]|[_ Hs]]; [reflexivity|rewrite lookup_empty in Hs; discriminate Hs].
  - change (bytes km 100 2) with [97; 98]. rewrite !elem_of_cons. intros [Hx|[Hx|Hx]]; [discriminate Hx..|exact (not_elem_of_nil _ Hx)].
Qed.

(** "ab" and "c" are added, "ab" is removed. *)
Lemma dir_ops_refine_witness : exists mon w' a,
  run_ops garbage 0 msecs_250 (demo_env 0) 0 (fun _ => false) km dd_inode (4096 * 5 + 200) 7 dd_ops
    (World gc_sbi mon (with_tree ∅ gc_sih)) = Some ([0; 0; 0], w') /\
  nova_find_dentry km 200 1 w' = Some (Some a, w') /\ De.ino (nvm (w_sbi w')) a = 8 /\
  nova_find_dentry km 100 2 w' = Some (None, w').
Proof.
  destruct dd_state as (P & St). destruct (counting_init 3 ltac:(lia)) as (mon & _ & Hr).
  destruct (dir_ops_refine garbage 0 msecs_250 (demo_env 0) 0 (fun _ => false) P gc_pi 40 dd_ops gc_sbi mon
    (with_tree ∅ gc_sih) (4096 * 5 + 200) (4096 * 5 + 1000) ∅ dd_inode km 7 0 ltac:(vm_compute; discriminate) (fun _ => eq_refl) St Hr dd_ops_ok)
    as (w' & E & _ & Hf); [vm_compute; discriminate|reflexivity|].
  assert (forall s i, foldl (apply_op km) ∅ dd_ops !! s = Some i -> s = [99]) as Honly.
  { intros s i Hs. cbn [dd_ops foldl apply_op] in Hs. apply lookup_delete_Some in Hs as [Hne Hs].
    apply lookup_insert_Some in Hs as [[<- _]|[_ Hs]]; [reflexivity|].
    apply lookup_insert_Some in Hs as [[<- _]|[_ Hs]]; [by destruct Hne|rewrite lookup_empty in Hs; discriminate Hs]. }
  pose proof (Hf km 200 1 ltac:(lia)) as Hc. pose proof (Hf km 100 2 ltac:(lia)) as Hab.
  destruct Hc as (a & Ea & [[Hi _] _ _ _]); [intros s i Hs _; exact (Honly s i Hs)|].
  exists mon, w', a. split; [exact E|]. split; [exact Ea|]. split; [exact Hi|].
  apply Hab. intros s i Hs Hh. rewrite (Honly s i Hs) in Hh. exfalso. vm_compute in Hh. discriminate Hh.
Defined.

(** A directory with the name "Ad" alone. *)
Definition one_entry : Z := 65536 + 4096 * 5 + 200.
Definition one_sbi : nova_sb_info := with_nvm (written (nvm gc_sbi) one_entry 7 km 400 2 0 0 1 40) gc_sbi.
Definition one_sih : nova_inode_info_header := with_tree {[name_hash [65; 100] := one_entry]} gc_sih.

Lemma one_rep : dir_rep (nvm one_sbi) {[name_hash [65; 100] := one_entry]} {[[65; 100] := 7]}.
Proof.
  assert (dir_rep (nvm gc_sbi) ∅ ∅) as H0 by (split; intros *; rewrite lookup_empty; intros Hx; discriminate Hx).
  apply (dir_rep_insert _ _ _ _ [65; 100] 7 one_entry H0).
  - intros s i Hx. rewrite lookup_empty in Hx. discriminate Hx.
  - reflexivity.
  - change [65; 100] with (bytes km 400 2). apply written_entry; lia.
  - intros h b Hx. rewrite lookup_empty in Hx. discriminate Hx.
Qed.

Lemma collision_takes_other_witness :
  name_hash (bytes km 500 2) = name_hash [65; 100] /\
  exists a, De.ino (nvm one_sbi) a = 7 /\
    nova_find_dentry km 500 2 (World one_sbi initial_monitor one_sih) = Some (Some a, World one_sbi initial_monitor one_sih) /\
    nova_remove_dir_radix_tree km 500 2 false (World one_sbi initial_monitor one_sih) =
      Some (- EINVAL, World one_sbi initial_monitor (with_tree (delete (name_hash [65; 100]) (tree one_sih)) one_sih)).
Proof.
  assert (name_hash (bytes km 500 2) = name_hash [65; 100]) as Hh by (vm_compute; reflexivity). split; [exact Hh|].
  destruct (collision_takes_other one_sbi initial_monitor one_sih {[[65; 100] := 7]} [65; 100] 7 km 500 2 one_rep)
    as (a & [[Hi _] _ _ _] & E1 & E2).
  - apply lookup_singleton_eq.
  - vm_compute. discriminate.
  - exact Hh.
  - lia.
  - change (bytes km 500 2) with [66; 225]. rewrite !elem_of_cons. intros [Hx|[Hx|Hx]]; [discriminate Hx..|exact (not_elem_of_nil _ Hx)].
  - exists a. split; [exact Hi|]. split; [exact E1|exact E2].
Defined.

Lemma delete_dir_tree_ok_witness :
  nova_delete_dir_tree (World one_sbi initial_monitor one_sih) = Some (tt, World one_sbi initial_monitor (with_tree ∅ one_sih)).
Proof. exact (delete_dir_tree_ok one_sbi initial_monitor one_sih _ one_rep). Defined.

(** A log with "c", "ab" (marked), the removal of "ab" and "d". *)
Definition dl_memory (m : memory) : memory :=
  let p := 65536 + 4096 * 5 in
  let m := written m p 8 km 200 1 0 4096 2 32 in
  let m := store 1 (written m (p + 32) 10 km 100 2 0 4096 2 32) (p + 35) 1 in
  let m := written m (p + 64) 0 km 100 2 0 4096 2 32 in
  let m := written m (p + 96) 12 km 300 1 0 4096 2 32 in
  Pi.set_log_tail m gc_pi (4096 * 5 + 128).

Definition dl_sbi : nova_sb_info := with_nvm (dl_memory (nvm gc_sbi)) gc_sbi.

Definition dl_names_items : list dir_item :=
  let p := 65536 + 4096 * 5 in
  [Name p 8 true [99] 32 4096; Name (p + 32) 10 false [97; 98] 32 4096;
   Name (p + 64) 0 true [97; 98] 32 4096; Name (p + 96) 12 true [100] 32 4096].

Lemma dl_fields (m := nvm dl_sbi) :
  Pi.nova_ino m gc_pi = 40 /\ Pi.log_head m gc_pi = 4096 * 5 /\ Pi.log_tail m gc_pi = 4096 * 5 + 128 /\
  Pi.i_blk_type m gc_pi = 0 /\ Pi.i_size m gc_pi = 0 /\ page_next m (65536 + 4096 * 5) = 4096 * 6 /\
  page_next m (65536 + 4096 * 6) = 4096 * 7 /\ page_next m (65536 + 4096 * 7) = 4096 * 8 /\ page_next m (65536 + 4096 * 8) = 0.
Proof. vm_compute. split_and!; reflexivity. Qed.

Lemma dl_geometry : virt_addr dl_sbi = 65536 /\ num_blocks dl_sbi = 20 /\ cpus dl_sbi = 2.
Proof. vm_compute. split_and!; reflexivity. Qed.

Lemma dl_items_read : dir_items (Z.to_nat (4096 * num_blocks dl_sbi)) dl_sbi (4096 * 5 + 128) (4096 * 5) = Some ([], dl_names_items).
Proof. vm_compute. reflexivity. Qed.

Lemma dl_dir_log : dir_log dl_sbi gc_pi [] dl_names_items [4096 * 6; 4096 * 7; 4096 * 8].
Proof.
  destruct dl_fields as (_ & F2 & F3 & _ & _ & N0 & N1 & N2 & N3). destruct dl_geometry as (Ev & En & _).
  split; rewrite ?F2, ?F3, ?Ev.
  - exact dl_items_read.
  - repeat split; try (vm_compute; (discriminate || reflexivity)); intros; discriminate.
  - change (names dl_names_items) with [[99]; [97; 98]; [97; 98]; [100]]. intros s s'. rewrite !elem_of_cons.
    intros Hs Hs' Hh. destruct Hs as [->|[->|[->|[->|Hx]]]]; [..|exfalso; exact (not_elem_of_nil _ Hx)];
      (destruct Hs' as [->|[->|[->|[->|Hx]]]]; [..|exfalso; exact (not_elem_of_nil _ Hx)]);
      (reflexivity || (vm_compute in Hh; discriminate Hh)).
  - discriminate.
  - split; [|rewrite En; vm_compute; lia]. change (BLOCK_OFF (4096 * 5 + 128)) with (4096 * 5). cbn [linked]. rewrite Ev.
    change (nova_get_block 65536 (4096 * 5)) with (65536 + 4096 * 5). change (nova_get_block 65536 (4096 * 6)) with (65536 + 4096 * 6).
    change (nova_get_block 65536 (4096 * 7)) with (65536 + 4096 * 7). change (nova_get_block 65536 (4096 * 8)) with (65536 + 4096 * 8).
    rewrite N0, N1, N2, N3. split_and!; (reflexivity || discriminate).
  - repeat constructor.
Qed.

Lemma dl_homed : exists P, homed dl_sbi P gc_pi /\ mapped dl_sbi /\ P 0 = [3].
Proof.
  destruct gc_demo as (F & P & Hh & Hc & _ & _ & P0). destruct gc_fields as (Ei & _). exists P.
  destruct dl_fields as (F1 & _). destruct dl_geometry as (Ev & En & _).
  assert (virt_addr gc_sbi = 65536 /\ num_blocks gc_sbi = 20) as [Ev' En'] by (vm_compute; split; reflexivity).
  pose proof (cl_mapped _ _ _ _ _ _ Hc) as Hmp. split; [|split; [split; rewrite ?Ev, ?En; lia|exact P0]].
  apply (homed_frame gc_sbi); [exact Hh|exact Hmp|rewrite En'; lia|exact (with_nvm_geometry _ gc_sbi)| |].
  - intros x Hx. unfold block_addr in Hx. rewrite Ev' in Hx. unfold dl_sbi, dl_memory, Pi.set_log_tail, gc_pi. cbn [nvm with_nvm]. cbv zeta.
    rewrite store_disjoint by (simpl; lia). do 2 rewrite written_same by lia. rewrite store_disjoint by (simpl; lia).
    do 2 rewrite written_same by lia. reflexivity.
  - rewrite F1. symmetry. exact Ei.
Qed.

Lemma dl_env : exists P, rebuild_env dl_sbi P gc_pi 12 (log_blocks dl_sbi gc_pi [] [4096 * 6; 4096 * 7; 4096 * 8]).
Proof.
  destruct dl_homed as (P & Hh & Hm & _). exists P. destruct dl_fields as (F1 & F2 & _ & F4 & F5 & _). destruct dl_geometry as (Ev & En & _).
  assert (log_blocks dl_sbi gc_pi [] [4096 * 6; 4096 * 7; 4096 * 8] = [5; 6; 7; 8]) as Hb by (unfold log_blocks; rewrite F2; reflexivity).
  split; rewrite ?Hb, ?Ev, ?En.
  - exact Hh.
  - split; [exact Hm|]. split; [reflexivity|lia].
  - rewrite F1. vm_compute. discriminate.
  - unfold block_addr, gc_pi. rewrite Ev. lia.
  - rewrite F4. reflexivity.
  - rewrite F5. lia.
  - intros b Hin. rewrite !elem_of_cons in Hin. destruct Hin as [->|[->|[->|[->|Hin]]]]; try lia.
    exfalso. exact (not_elem_of_nil _ Hin).
  - intros b Hin. unfold block_addr, gc_pi. rewrite Ev. rewrite !elem_of_cons in Hin.
    destruct Hin as [->|[->|[->|[->|Hin]]]]; try lia. exfalso. exact (not_elem_of_nil _ Hin).
Qed.

Lemma rebuild_dir_exact_witness : exists mon m' sih' mon',
  nova_rebuild_dir_inode_tree garbage 0 msecs_250 (demo_env 0) 3 (fun _ => false) gc_pi gc_pi (World dl_sbi mon (with_tree ∅ gc_sih)) =
    Some (0, World (with_nvm m' dl_sbi) mon' sih') /\
  tree sih' !! name_hash [99] = Some (65536 + 4096 * 5) /\ tree sih' !! name_hash [97; 98] = None /\
  tree sih' !! name_hash [100] = Some (65536 + 4096 * 5 + 96) /\ sih_size sih' = 4096 /\ log_pages sih' = 4.
Proof.
  destruct dl_env as (P & Henv). destruct (counting_init 5 ltac:(lia)) as (mon & _ & Hr).
  destruct (rebuild_dir_exact garbage 0 msecs_250 (demo_env 0) 3 (fun _ => false) ltac:(vm_compute; discriminate) (fun _ => eq_refl)
    dl_sbi P gc_pi 12 [] dl_names_items [4096 * 6; 4096 * 7; 4096 * 8] (with_tree ∅ gc_sih) mon 0 gc_pi Henv dl_dir_log)
    as (m' & sih' & mon' & E & Ht & _ & Hs & Hl & _); [right; reflexivity|reflexivity|exact Hr|].
  change (names dl_names_items) with [[99]; [97; 98]; [97; 98]; [100]] in Ht.
  exists mon, m', sih', mon'. split; [exact E|]. split; [rewrite Ht by (by left); vm_compute; reflexivity|].
  split; [rewrite Ht by (right; by left); vm_compute; reflexivity|].
  split; [rewrite Ht by (right; right; right; by left); vm_compute; reflexivity|]. split; [exact Hs|exact Hl].
Defined.

(** "c" is listed with the number of "d". *)
Lemma readdir_shifts_inodes_witness : exists out,
  nova_readdir 0 0 dd_inode 0 10 (World dl_sbi initial_monitor gc_sih) =
    Some ((0, READDIR_END, out), World dl_sbi initial_monitor gc_sih) /\
  em_name <$> out = [65536 + 4096 * 5 + 28; 65536 + 4096 * 5 + 124] /\ em_ino <$> out = [12; 12].
Proof.
  destruct dl_homed as (P & [T1 T2 T3 (Hi & s & Hs & Es)] & Hm & P0). destruct dl_fields as (F1 & F2 & F3 & _).
  destruct dl_geometry as (Ev & En & Ec). assert (num_blocks dl_sbi < 2147483648) as Hn by (rewrite En; lia).
  assert (shown dl_names_items = [(65536 + 4096 * 5, 8); (65536 + 4096 * 5 + 96, 12)]) as Hsh by reflexivity.
  destruct (readdir_shifts_inodes 0 0 dl_sbi P gc_pi T1 T2 Hn dd_inode [] dl_names_items initial_monitor gc_sih 10
    (65536 + 4096 * 5) 8 [(65536 + 4096 * 5 + 96, 12)]) as (out & E & Hnm & Hino).
  - rewrite F1 in Hs. cbn [i_ino dd_inode]. rewrite (get_inode_present 0 dl_sbi P 40 _ s T1 T2 Hn ltac:(done) Hs), Es. reflexivity.
  - rewrite F2. discriminate.
  - rewrite F2, F3. exact dl_items_read.
  - intros a i Hin. rewrite Hsh, !elem_of_cons in Hin. unfold inode_slot. rewrite Ec.
    destruct Hin as [[= _ ->]|[[= _ ->]|Hin]]; [change (8 mod 2) with 0|change (12 mod 2) with 0|exfalso; exact (not_elem_of_nil _ Hin)];
      rewrite P0; eexists; reflexivity.
  - rewrite Hsh. simpl. lia.
  - exact Hsh.
  - exists out. split; [exact E|]. split; [rewrite Hnm, Hsh; reflexivity|exact Hino].
Defined.
End DirDemo.
