(* ===== verification/Attr.v ===== *)
(** * The attributes of an inode and its release (inode.c, nova.h)

    Changing the attributes of a file appends an entry to its log, commits it and then cuts
    the file; an inode without links is released with its pages, its log and its number; the
    fields of an inode are copied between the device and [struct inode].  The definitions
    follow the code; the theorems are in Resize. *)

From S2P Require Import Prelude Layout RangeTree RbList State Balloc BallocFacts BallocSpec.
From S2P Require Import BallocInit BallocTheorems TreeEdits InodeMap LogBlocks InodeTable.
From S2P Require Import Monitor Histogram HashTable Records KnapSack Detect WriteCount Migrate.
From S2P Require Import LogPages World InodeLog FileTree FileData Directory.
#[local] Open Scope word_scope.

Definition ESTALE : Z := 116.

(** [NOVA_EOFBLOCKS_FL] of nova.h, and flags of include/uapi/linux/fs.h and include/linux/fs.h. *)
Definition NOVA_EOFBLOCKS_FL : Z := 536870912.
Definition FS_SYNC_FL : Z := 8.
Definition FS_IMMUTABLE_FL : Z := 16.
Definition FS_APPEND_FL : Z := 32.
Definition FS_NOATIME_FL : Z := 128.
Definition FS_DIRSYNC_FL : Z := 65536.
Definition S_SYNC : Z := 1.
Definition S_NOATIME : Z := 2.
Definition S_APPEND : Z := 4.
Definition S_IMMUTABLE : Z := 8.
Definition S_DIRSYNC : Z := 64.
Definition S_DAX : Z := 8192.
Definition S_IFCHR : Z := 8192.
Definition S_IFBLK : Z := 24576.

(** The attributes of [struct iattr] that are logged (include/linux/fs.h): [ATTR_MODE],
    [ATTR_UID], [ATTR_GID], [ATTR_SIZE], [ATTR_ATIME], [ATTR_MTIME], [ATTR_CTIME]. *)
Definition ATTR_MODE : Z := 1.
Definition attr_mask : Z := 127.

Record iattr := IAttr {
  ia_valid : Z;
  ia_mode : Z;
  ia_uid : Z;
  ia_gid : Z;
  ia_size : Z;
  ia_atime : Z;
  ia_mtime : Z;
  ia_ctime : Z;
}.

(** ** Flags *)

(** [flag] of [from] is [bit] of the result. *)
Definition copy_flag (from flag bit to : Z) : Z := if negb (Z.land from flag =? 0) then Z.lor to bit else to.

Definition nova_get_inode_flags (inode : vfs_inode) (m : memory) (pi : Z) : memory :=
  let flags := vfs_flags inode in
  let nova_flags := Z.land (Pi.i_flags m pi) (u32 (Z.lnot
    (Z.lor FS_SYNC_FL (Z.lor FS_APPEND_FL (Z.lor FS_IMMUTABLE_FL (Z.lor FS_NOATIME_FL FS_DIRSYNC_FL)))))) in
  let nova_flags := copy_flag flags S_SYNC FS_SYNC_FL nova_flags in
  let nova_flags := copy_flag flags S_APPEND FS_APPEND_FL nova_flags in
  let nova_flags := copy_flag flags S_IMMUTABLE FS_IMMUTABLE_FL nova_flags in
  let nova_flags := copy_flag flags S_NOATIME FS_NOATIME_FL nova_flags in
  let nova_flags := copy_flag flags S_DIRSYNC FS_DIRSYNC_FL nova_flags in
  Pi.set_i_flags m pi nova_flags.

Definition nova_set_inode_flags (inode : vfs_inode) (flags : Z) : vfs_inode :=
  let i_flags := Z.land (vfs_flags inode) (u32 (Z.lnot
    (Z.lor S_SYNC (Z.lor S_APPEND (Z.lor S_IMMUTABLE (Z.lor S_NOATIME S_DIRSYNC)))))) in
  let i_flags := copy_flag flags FS_SYNC_FL S_SYNC i_flags in
  let i_flags := copy_flag flags FS_APPEND_FL S_APPEND i_flags in
  let i_flags := copy_flag flags FS_IMMUTABLE_FL S_IMMUTABLE i_flags in
  let i_flags := copy_flag flags FS_NOATIME_FL S_NOATIME i_flags in
  let i_flags := copy_flag flags FS_DIRSYNC_FL S_DIRSYNC i_flags in
  with_vfs_flags (Z.lor i_flags S_DAX) inode.

Definition S_ISCHR (mode : Z) : bool := Z.land mode S_IFMT =? S_IFCHR.
Definition S_ISBLK (mode : Z) : bool := Z.land mode S_IFMT =? S_IFBLK.

(** [struct nova_setattr_logentry] at [entry]. *)
Definition nova_update_setattr_entry (m : memory) (inode : vfs_inode) (entry : Z) (attr : iattr) : memory :=
  let m := store 1 m entry SET_ATTR in
  let m := store 1 m (entry + 1) (Z.land (ia_valid attr) attr_mask) in
  let m := store 2 m (entry + 2) (vfs_mode inode) in
  let m := store 4 m (entry + 4) (vfs_uid inode) in
  let m := store 4 m (entry + 8) (vfs_gid inode) in
  let m := store 4 m (entry + 12) (vfs_atime inode) in
  let m := store 4 m (entry + 20) (vfs_ctime inode) in
  let m := store 4 m (entry + 16) (vfs_mtime inode) in
  store 8 m (entry + 24) (if negb (Z.land (ia_valid attr) ATTR_SIZE =? 0) then ia_size attr else vfs_size inode).

Definition check_eof_blocks (m : memory) (pi size : Z) : memory :=
  if negb (Z.land (Pi.i_flags m pi) NOVA_EOFBLOCKS_FL =? 0) &&
     (u64 (Z.shiftl (Pi.i_blocks m pi) s_blocksize_bits) <? size ⊞ s_blocksize)
  then Pi.set_i_flags m pi (Z.land (Pi.i_flags m pi) (u32 (Z.lnot NOVA_EOFBLOCKS_FL)))
  else m.

(** The number of blocks of 512 bytes that [nova_getattr] reports. *)
Definition nova_getattr_blocks (inode : vfs_inode) : Z :=
  Z.shiftr (u64 (Z.shiftl (vfs_blocks inode) s_blocksize_bits)) 9.

Section operations.
Context `{RbTree} (slab_garbage : nova_range_node) (smp : Z) (jiffies_to_msecs : Z -> Z) (e : env).
Context (garbage nova_base_address : Z).
(** Of the kernel: may the attributes be changed (0 for yes), and the inode with the changed
    ones, all but the size. *)
Context (inode_change_ok : vfs_inode -> iattr -> Z) (setattr_copy : vfs_inode -> iattr -> vfs_inode).

(** [nova_get_inode], and for a caller that follows the pointer. *)
Definition find_inode (inode : vfs_inode) : fs (unit + Z) :=
  sih ← get_sih;
  on_sbi (fun sbi => nova_get_inode smp sbi (i_ino inode) (sih_pi_addr sih)).

Definition own_inode (inode : vfs_inode) : fs Z :=
  r ← find_inode inode;
  match r with inr pi => mret pi | inl _ => fs_fault end.

(** ** The size *)

Definition nova_get_last_blocknr : fs Z :=
  sih ← get_sih;
  pi ← lookup_inode smp (sih_ino sih) (sih_pi_addr sih);
  mem ← get_nvm;
  data_bits ← fs_deref (blk_type_to_shift (Pi.i_blk_type mem pi));
  mret (if sih_size sih =? 0 then 0 else Z.shiftr (sih_size sih ⊟ 1) data_bits).

Definition nova_free_dram_resource : fs Z :=
  sih ← get_sih;
  if negb (S_ISREG (sih_mode sih)) && negb (S_ISDIR (sih_mode sih)) then mret 0
  else if S_ISREG (sih_mode sih) then
    last_blocknr ← nova_get_last_blocknr;
    nova_delete_file_tree slab_garbage smp 0 last_blocknr false true
  else _ ← nova_delete_dir_tree; mret 1.

(** The pages of the bytes from [start] to [end_] - 1 that hold no byte below [start]. *)
Definition truncated_range (start end_ data_bits : Z) : Z * Z :=
  (Z.shiftr (u64 (start + Z.shiftl 1 data_bits - 1)) data_bits, u64 (Z.shiftr (end_ - 1) data_bits)).

(** At the time [time]; the inode afterwards. *)
Definition nova_truncate_file_blocks (inode : vfs_inode) (start end_ time : Z) : fs vfs_inode :=
  pi ← own_inode inode;
  mem ← get_nvm;
  data_bits ← fs_deref (blk_type_to_shift (Pi.i_blk_type mem pi));
  let inode := with_vfs_time time inode in
  let '(first_blocknr, last_blocknr) := truncated_range start end_ data_bits in
  if (end_ =? 0) || (last_blocknr <? first_blocknr) then mret inode
  else
    freed ← nova_delete_file_tree slab_garbage smp first_blocknr last_blocknr true false;
    let inode := with_vfs_blocks
      (vfs_blocks inode ⊟ i32 (freed * i32 (Z.shiftl 1 (data_bits - s_blocksize_bits)))) inode in
    pi ← reget_inode smp pi;
    _ ← put_nvm (fun m => Pi.set_i_blocks m pi (vfs_blocks inode));
    _ ← put_nvm (fun m => check_eof_blocks m pi (vfs_size inode));
    _ ← count_inode jiffies_to_msecs e pi;
    mret inode.

(** The bytes behind [newsize] of its page are cleared, also in the mmap cache. *)
Definition nova_clear_last_page_tail (inode : vfs_inode) (newsize : Z) : fs unit :=
  let offset := Z.land newsize (s_blocksize - 1) in
  if (offset =? 0) || (vfs_size inode <? newsize) then mret tt
  else
    let length := s_blocksize - offset in
    let pgoff := u64 (Z.shiftr newsize s_blocksize_bits) in
    nvmm ← nova_find_nvmm_block smp None pgoff;
    if nvmm =? 0 then mret tt
    else
      nvmm_addr ← get_block nvmm;
      _ ← put_nvm (fun m => memset0 m (nvmm_addr + offset) length);
      sih ← get_sih;
      if negb (mmap_pages sih =? 0) && (pgoff <=? high_dirty sih) && (low_dirty sih <=? pgoff) then
        match cache_tree sih !! pgoff with
        | None => mret tt
        | Some nvmm => nvmm_addr ← get_block nvmm; put_nvm (fun m => memset0 m (nvmm_addr + offset) length)
        end
      else mret tt.

(** For another type of file the message is printed with the mode as its string. *)
Definition nova_setsize (inode : vfs_inode) (oldsize newsize time : Z) : fs vfs_inode :=
  if negb (S_ISREG (vfs_mode inode)) then fs_fault
  else
    inode ← (if negb (newsize =? oldsize) then
               _ ← nova_clear_last_page_tail inode newsize;
               _ ← put_sih (with_sih_size newsize);
               mret (with_vfs_size newsize inode)
             else mret inode);
    nova_truncate_file_blocks inode newsize oldsize time.

(** ** Attributes *)

Definition nova_append_setattr_entry (pi : Z) (inode : vfs_inode) (attr : iattr) (tail : Z) : fs Z :=
  curr_p ← nova_get_append_head slab_garbage smp jiffies_to_msecs e garbage pi tail Sa.length;
  if curr_p =? 0 then fs_fault
  else
    entry ← get_block curr_p;
    _ ← put_nvm (fun m => nova_update_setattr_entry m inode entry attr);
    _ ← put_sih (with_last_setattr curr_p);
    mret (curr_p ⊞ Sa.length).

Definition nova_notify_change (inode : vfs_inode) (attr : iattr) (time : Z) : fs (Z * vfs_inode) :=
  r ← find_inode inode;
  match r with
  | inl _ => mret (- EACCES, inode)
  | inr pi =>
    let oldsize := vfs_size inode in
    let ret := inode_change_ok inode attr in
    if negb (ret =? 0) then mret (ret, inode)
    else
      let inode := setattr_copy inode attr in
      _ ← (if negb (Z.land (ia_valid attr) ATTR_MODE =? 0) then put_sih (with_sih_mode (vfs_mode inode)) else mret tt);
      let valid := Z.land (ia_valid attr) attr_mask in
      if valid =? 0 then mret (ret, inode)
      else
        new_tail ← nova_append_setattr_entry pi inode attr 0;
        _ ← nova_update_tail_wwb smp e nova_base_address pi new_tail;
        mem ← get_nvm;
        if negb (Z.land valid ATTR_SIZE =? 0) &&
           (negb (ia_size attr =? oldsize) || negb (Z.land (Pi.i_flags mem pi) NOVA_EOFBLOCKS_FL =? 0))
        then inode ← nova_setsize inode oldsize (ia_size attr) time; mret (ret, inode)
        else mret (ret, inode)
  end.

(** ** The fields of an inode *)

(** [nova_read_inode]: the result and the inode. *)
Definition nova_read_inode (inode : vfs_inode) (pi_addr : Z) : fs (Z * vfs_inode) :=
  pi ← get_block pi_addr;
  mem ← get_nvm;
  sih ← get_sih;
  let inode := VfsInode (i_ino inode) (vfs_size inode) (vfs_blocks inode) (vfs_mtime inode) (vfs_nlink inode)
    (vfs_ctime inode) (vfs_atime inode) (sih_mode sih) (Pi.i_uid mem pi) (Pi.i_gid mem pi) (vfs_flags inode)
    (Pi.i_generation mem pi) (vfs_rdev inode) in
  let inode := nova_set_inode_flags inode (Pi.i_flags mem pi) in
  if (vfs_mode inode =? 0) || (Pi.valid mem pi =? 0) then mret (- ESTALE, inode)
  else
    let type := Z.land (vfs_mode inode) S_IFMT in
    let rdev := if (type =? S_IFREG) || (type =? S_IFDIR) || (type =? S_IFLNK) then vfs_rdev inode
                else load 4 mem (pi + 88) in
    mret (0, VfsInode (i_ino inode) (sih_size sih) (Pi.i_blocks mem pi) (Pi.i_mtime mem pi)
               (Pi.i_links_count mem pi) (Pi.i_ctime mem pi) (Pi.i_atime mem pi) (vfs_mode inode)
               (vfs_uid inode) (vfs_gid inode) (vfs_flags inode) (vfs_generation inode) rdev).

Definition nova_update_inode (inode : vfs_inode) : fs unit :=
  pi ← own_inode inode;
  _ ← put_nvm (fun m =>
        let m := Pi.set_i_mode m pi (vfs_mode inode) in
        let m := Pi.set_i_uid m pi (vfs_uid inode) in
        let m := Pi.set_i_gid m pi (vfs_gid inode) in
        let m := Pi.set_i_links_count m pi (vfs_nlink inode) in
        let m := Pi.set_i_size m pi (vfs_size inode) in
        let m := Pi.set_i_blocks m pi (vfs_blocks inode) in
        let m := Pi.set_i_atime m pi (vfs_atime inode) in
        let m := Pi.set_i_ctime m pi (vfs_ctime inode) in
        let m := Pi.set_i_mtime m pi (vfs_mtime inode) in
        let m := Pi.set_i_generation m pi (vfs_generation inode) in
        let m := nova_get_inode_flags inode m pi in
        if S_ISCHR (vfs_mode inode) || S_ISBLK (vfs_mode inode) then store 4 m (pi + 88) (vfs_rdev inode) else m);
  count_inode jiffies_to_msecs e pi.

Definition nova_dirty_inode (inode : vfs_inode) : fs unit :=
  pi ← own_inode inode;
  _ ← put_nvm (fun m => Pi.set_i_atime m pi (vfs_atime inode));
  count_inode jiffies_to_msecs e pi.

(** ** Release *)

(** The log of the inode at [pi]. *)
Definition free_inode_log (pi : Z) : fs unit := fun w =>
  match nova_free_inode_log slab_garbage smp jiffies_to_msecs (w_sbi w) (w_mon w) e pi with
  | Some (sbi, m) => Some (tt, World sbi m (w_sih w))
  | None => None
  end.

Definition nova_free_inode (inode : vfs_inode) : fs Z :=
  pi ← own_inode inode;
  mem ← get_nvm;
  _ ← (if negb (Pi.valid mem pi =? 0) then put_nvm (fun m => Pi.set_valid m pi 0) else mret tt);
  _ ← free_inode_log pi;
  mem ← get_nvm;
  _ ← lock_inode_page (Pi.nova_ino mem pi);
  _ ← put_nvm (fun m => Pi.set_i_blocks m pi 0);
  _ ← count_inode jiffies_to_msecs e pi;
  _ ← put_sih (fun sih => with_sih_size 0 (with_sih_pi_addr 0 (with_sih_mode 0 (with_log_pages 0 sih))));
  mem ← get_nvm;
  on_sbi (fun sbi => nova_free_inuse_inode slab_garbage sbi (Pi.nova_ino mem pi)).

(** The content of an inode without links, by its type. *)
Definition evict_content (inode : vfs_inode) : fs unit :=
  let type := Z.land (vfs_mode inode) S_IFMT in
  if type =? S_IFREG then
    last_blocknr ← nova_get_last_blocknr;
    _ ← nova_delete_file_tree slab_garbage smp 0 last_blocknr true true; mret tt
  else if type =? S_IFDIR then nova_delete_dir_tree
  else if type =? S_IFLNK then
    _ ← nova_delete_file_tree slab_garbage smp 0 0 true true; mret tt
  else mret tt.

(** [bad]: the inode could not be read; [time] is the time.  The inode afterwards. *)
Definition nova_evict_inode (inode : vfs_inode) (bad : bool) (time : Z) : fs vfs_inode :=
  _ ← find_inode inode;
  if (vfs_nlink inode =? 0) && negb bad &&
     (Z.land (vfs_flags inode) S_APPEND =? 0) && (Z.land (vfs_flags inode) S_IMMUTABLE =? 0) then
    _ ← evict_content inode;
    err ← nova_free_inode inode;
    if negb (err =? 0) then mret inode
    else mret (with_vfs_size 0 (with_vfs_time time inode))
  else
    _ ← nova_free_dram_resource;
    mret inode.
End operations.
