(* ===== verification/Resize.v ===== *)
(** * Cutting a file (inode.c)

    [nova_notify_change] with a smaller size logs the new size, clears the end of the last
    page that stays, and deletes the pages behind it.  The theorem says what the file holds
    afterwards. *)

From S2P Require Import Prelude Layout RangeTree RbList State Balloc BallocFacts BallocSpec.
From S2P Require Import BallocInit BallocTheorems TreeEdits InodeMap LogBlocks InodeTable.
From S2P Require Import Monitor Histogram HashTable Records KnapSack Detect WriteCount Migrate.
From S2P Require Import LogPages World InodeLog FastGc LogAppend BlockMap Shutdown Crawl FileTree Truncate.
From S2P Require Import WearBudget FileData FileWrite Directory Attr.
#[local] Open Scope word_scope.

(** A page that is missing from a part of the tree is missing from the pages of its entry. *)
Lemma slots_missing (t t' : gmap Z Z) q a : t' ⊆ t -> t !! q = Some a -> t' !! q = None -> (slots t' a < slots t a)%nat.
Proof.
  intros Hs Hq Hn. rewrite (slots_delete t q a Hq). unfold slots. apply Nat.lt_succ_r.
  apply map_subseteq_size, map_subseteq_spec. intros p b [Hp Hb]%map_lookup_filter_Some.
  apply map_lookup_filter_Some. split; [|done]. apply lookup_delete_Some. split; [congruence|].
  by eapply lookup_weaken.
Qed.

Lemma slots_part (t t' : gmap Z Z) a : t' ⊆ t -> (slots t' a <= slots t a)%nat.
Proof.
  intros Hs. unfold slots. apply map_subseteq_size, map_subseteq_spec. intros p b [Hp Hb]%map_lookup_filter_Some.
  apply map_lookup_filter_Some. split; [by eapply lookup_weaken|done].
Qed.

Section resize.
Context `{RbTree} {L : LogBlocks} (slab_garbage : nova_range_node) (smp : Z) (jiffies_to_msecs : Z -> Z) (e : env).
Context (garbage nova_base_address : Z) (pid_nonneg : 0 <= current_pid e).
Context (F0 : Z -> Prop) (P : Z -> list Z) (pi : Z) (t0 : gmap Z Z) (logb : Z -> Prop).

(** Consecutive blocks of the file belong to one free list. *)
Definition one_list (sbi : nova_sb_info) : Prop := forall p q a b, t0 !! p = Some a -> t0 !! q = Some b ->
  entry_block (nvm sbi) b q = entry_block (nvm sbi) a p + 1 ->
  home sbi (entry_block (nvm sbi) b q) = home sbi (entry_block (nvm sbi) a p).

Section state.
Context (sbi : nova_sb_info) (W : write_env smp sbi F0 P pi t0 logb) (Hhome : one_list sbi).
#[local] Notation m0 := (nvm sbi).
#[local] Notation blk b := (block_addr sbi b).

Lemma env_file : file_ok pi sbi F0 t0.
Proof.
  split; [apply W..|exact Hhome|apply W|apply W|].
  intros p a Ha. apply (log_apart_pi smp sbi F0 P pi t0 logb W). by apply (we_entry _ _ _ _ _ _ _ W p).
Qed.

Lemma env_header sih : sih_ino sih = Pi.nova_ino m0 pi -> header_of pi sbi P sih.
Proof.
  intros Hi. destruct (we_homed _ _ _ _ _ _ _ W) as [T1 T2 _ [_ T4]]. pose proof (we_ino _ _ _ _ _ _ _ W).
  split; auto; [apply (lb_size _ _ (we_free _ _ _ _ _ _ _ W))|lia|by rewrite Hi].
Qed.

(** A memory that differs in the data, the free blocks, the end of the log or the tail of the
    inode. *)
Record file_same (m' : memory) : Prop := {
  fs_low x : x < blk 1 -> m' x = m0 x;
  fs_pi x : pi <= x < pi + 4 \/ pi + 64 <= x < pi + 72 -> m' x = m0 x;
  fs_entry p a x : t0 !! p = Some a -> a <= x < a + 40 -> m' x = m0 x;
}.

Lemma same_fields m' p a : file_same m' -> t0 !! p = Some a ->
  We.pgoff m' a = We.pgoff m0 a /\ We.num_pages m' a = We.num_pages m0 a /\
  We.invalid_pages m' a = We.invalid_pages m0 a /\ forall q, entry_block m' a q = entry_block m0 a q.
Proof.
  intros [_ _ Hs] Ha.
  assert (forall n o, 0 <= o -> o + Z.of_nat n <= 40 -> load n m' (a + o) = load n m0 (a + o)) as Hl.
  { intros n o H1 H2. apply load_ext. intros x Hx. apply (Hs p a x Ha). lia. }
  assert (We.pgoff m' a = We.pgoff m0 a) as E1 by (apply (Hl 8%nat 8); simpl; lia).
  assert (We.block m' a = We.block m0 a) as E2
    by (unfold We.block; rewrite <- (Z.add_0_r a); apply (Hl 8%nat 0); simpl; lia).
  split_and!; [done|apply (Hl 4%nat 16); simpl; lia|apply (Hl 4%nat 20); simpl; lia|].
  intros q. unfold entry_block. by rewrite E1, E2.
Qed.

Lemma env_same m' : file_same m' -> write_env smp (with_nvm m' sbi) F0 P pi t0 logb.
Proof.
  intros Hs. pose proof (fun p a => same_fields m' p a Hs) as Hf. pose proof W as [W_homed W_mapped W_aligned W_free W_cpu W_small W_type W_ino W_cover W_used W_inj W_entry W_apart W_room W_log W_data W_pi W_pi_page].
  assert (forall p a q, t0 !! p = Some a -> entry_block m' a q = entry_block m0 a q) as Hb
    by (intros p a q Ha; by apply (Hf p a Ha)).
  assert (Pi.nova_ino m' pi = Pi.nova_ino m0 pi) as Ei
    by (apply load_ext; intros x Hx; apply (fs_pi _ Hs); simpl in Hx; lia).
  split; auto; cbn [nvm with_nvm].
  - apply (homed_frame sbi); auto; [destruct (W_pi_page); unfold block_addr in *; lia|apply with_nvm_geometry|apply Hs].
  - by apply lb_free_nvm.
  - rewrite <- W_type. apply load_ext. intros x Hx. apply (fs_pi _ Hs). simpl in Hx. lia.
  - by rewrite Ei.
  - intros p a Ha. destruct (Hf p a Ha) as (-> & -> & _). by apply W_cover.
  - intros p a Ha. rewrite (Hb p a p Ha). by apply W_used.
  - intros p q a b Ha Hb'. rewrite (Hb p a p Ha), (Hb q b q Hb'). by apply W_inj.
  - intros p a Ha. destruct (Hf p a Ha) as (_ & -> & -> & _). by apply (W_room p).
  - intros b p a Hl Ha. rewrite (Hb p a p Ha). by apply W_data.
  - intros b [?|[?|(p & a & Ha & <-)]]; apply W_pi; [tauto|tauto|]. right. right. exists p, a. by rewrite <- (Hb p a p Ha).
Qed.

Lemma one_list_same m' : file_same m' -> one_list (with_nvm m' sbi).
Proof.
  intros Hs p q a b Ha Hb. cbn [nvm with_nvm].
  destruct (same_fields m' p a Hs Ha) as (_ & _ & _ & ->), (same_fields m' q b Hs Hb) as (_ & _ & _ & ->).
  by apply (Hhome p q).
Qed.

(** ** The end of the last page *)

Definition tail_cleared (newsize : Z) : memory :=
  match t0 !! (newsize / 4096) with
  | Some a => if newsize mod 4096 =? 0 then m0
              else memset0 m0 (blk (entry_block m0 a (newsize / 4096)) + newsize mod 4096) (4096 - newsize mod 4096)
  | None => m0
  end.

Lemma clear_tail_ok mon sih inode newsize :
  tree sih = t0 -> mmap_pages sih = 0 -> 0 <= newsize < vfs_size inode -> vfs_size inode < 2 ^ 62 ->
  nova_clear_last_page_tail smp inode newsize (World sbi mon sih) =
    Some (tt, World (with_nvm (tail_cleared newsize) sbi) mon sih).
Proof.
  intros Ht Hmm Hn Hsz. unfold nova_clear_last_page_tail, tail_cleared.
  change (s_blocksize - 1) with (Z.ones 12). rewrite Z.land_ones by lia. change (2 ^ 12) with 4096.
  rewrite (proj2 (Z.ltb_ge (vfs_size inode) newsize)), orb_false_r by lia.
  assert (with_nvm m0 sbi = sbi) as Eid by (by destruct sbi).
  destruct (Z.eqb_spec (newsize mod 4096) 0) as [E0|E0]; [destruct (t0 !! _); by rewrite Eid|].
  unfold s_blocksize_bits. rewrite Z.shiftr_div_pow2 by lia. change (2 ^ 12) with 4096.
  rewrite u64_small by mlia. unfold nova_find_nvmm_block, nova_get_write_entry. rewrite fs_assoc. frun. rewrite Ht.
  destruct (t0 !! (newsize / 4096)) as [a|] eqn:Ea; [|frun; cbn [Z.eqb]; by rewrite Eid].
  destruct (we_used _ _ _ _ _ _ _ W _ _ Ea) as [Hb _]. pose proof (lb_size _ _ (we_free _ _ _ _ _ _ _ W)) as Hnb.
  destruct (block_position sbi _ (we_mapped _ _ _ _ _ _ _ W) Hb) as (E1 & E2 & E3).
  rewrite fs_assoc. erewrite fs_step by (apply (get_nvmm_run smp sbi mon sih a); rewrite ?Ht; auto; [apply W|lia]).
  frun. rewrite E1, (proj2 (Z.eqb_neq _ 0) E2).
  erewrite fs_step by (unfold get_block; rewrite (proj2 (Z.eqb_neq _ 0) E2); reflexivity). cbn [w_sbi]. frun. rewrite E3.
  rewrite Hmm. reflexivity.
Qed.

(** Only the end of the page changes. *)
Lemma cleared_other newsize x :
  (forall a, t0 !! (newsize / 4096) = Some a ->
     ~ blk (entry_block m0 a (newsize / 4096)) + newsize mod 4096 <= x < blk (entry_block m0 a (newsize / 4096) + 1)) ->
  tail_cleared newsize x = m0 x.
Proof.
  intros Hx. unfold tail_cleared. destruct (t0 !! _) as [a|]; [|done]. destruct (_ =? 0); [done|].
  unfold memset0. case_cmp; [|done]. exfalso. apply (Hx a eq_refl). unfold block_addr in *. lia.
Qed.

Lemma data_apart p a x : t0 !! p = Some a -> blk (entry_block m0 a p) <= x < blk (entry_block m0 a p + 1) ->
  blk 1 <= x /\ (x < pi \/ pi + 128 <= x) /\ forall q b, t0 !! q = Some b -> ~ b <= x < b + 40.
Proof.
  intros Ha Hx. destruct (we_used _ _ _ _ _ _ _ W p a Ha) as [Hb _].
  destruct (we_pi _ _ _ _ _ _ _ W (entry_block m0 a p)) as [?|?]; [right; right; by exists p, a| |].
  all: split; [unfold block_addr in *; lia|]; split; [lia|]; intros q b Hq Hin;
    destruct (we_entry _ _ _ _ _ _ _ W q b Hq) as (c & Hc & H1 & H2);
    apply (we_data _ _ _ _ _ _ _ W c p a Hc Ha); apply (block_apart sbi _ x); lia.
Qed.

Lemma cleared_same newsize : file_same (tail_cleared newsize).
Proof.
  assert (forall x, x < blk 1 \/ (pi <= x < pi + 128) \/ (exists q b, t0 !! q = Some b /\ b <= x < b + 40) ->
    tail_cleared newsize x = m0 x) as Hs.
  { intros x Hx. apply cleared_other. intros a Ha Hin. assert (0 <= newsize mod 4096) by (apply Z.mod_pos_bound; lia).
    destruct (data_apart _ a x Ha ltac:(lia)) as (H1 & H2 & H3). destruct Hx as [?|[?|(q & b & Hq & Hb)]]; [lia|lia|].
    by apply (H3 q b). }
  split; intros; apply Hs; [lia|lia|right; right; eauto].
Qed.

Lemma cleared_bytes newsize o : 0 <= newsize ->
  file_byte (with_nvm (tail_cleared newsize) sbi) t0 o =
  if (o / 4096 =? newsize / 4096) && (newsize <=? o) && negb (newsize mod 4096 =? 0) then 0 else file_byte sbi t0 o.
Proof.
  intros Hn. unfold file_byte. destruct (t0 !! (o / 4096)) as [a|] eqn:Ea; [|by destruct (_ && _ && _)].
  cbn [nvm with_nvm]. destruct (same_fields _ _ a (cleared_same newsize) Ea) as (_ & _ & _ & ->).
  change (block_addr (with_nvm (tail_cleared newsize) sbi)) with (block_addr sbi).
  destruct (Z.eqb_spec (o / 4096) (newsize / 4096)) as [Ep|Ep]; cbn [andb].
  - rewrite Ep in *. unfold tail_cleared. rewrite Ea. destruct (Z.eqb_spec (newsize mod 4096) 0); cbn [negb].
    + by rewrite andb_false_r.
    + rewrite andb_true_r. unfold memset0. destruct (Z.leb_spec newsize o); (case_cmp; [done || exfalso|]); try done; try mlia.
  - apply cleared_other. intros b Hb Hin.
    apply Ep, (we_inj _ _ _ _ _ _ _ W _ _ a b Ea Hb), (block_apart sbi _ (blk (entry_block m0 a (o / 4096)) + o mod 4096)).
    + unfold block_addr. mlia.
    + assert (0 <= newsize mod 4096) by (apply Z.mod_pos_bound; lia). lia.
Qed.

(** ** The pages behind the new size *)

(** The blocks of the pages from [newsize] on. *)
Definition dropped (newsize b : Z) : Prop := exists p a, newsize <= 4096 * p /\ t0 !! p = Some a /\ entry_block m0 a p = b.

Definition untouched (x : Z) : Prop :=
  ~ pi + 4 <= x < pi + 8 /\ ~ pi + 32 <= x < pi + 40 /\ forall p a, t0 !! p = Some a -> ~ a + 20 <= x < a + 24.

Record trimmed (newsize : Z) (t' : gmap Z Z) (sbi' : nova_sb_info) (F' : Z -> Prop) : Prop := {
  tr_tree p : t' !! p = if 4096 * p <? newsize then t0 !! p else None;
  tr_geometry : same_geometry sbi sbi';
  tr_free : lb_free sbi' F';
  tr_old b : F0 b -> F' b;
  tr_new b : F' b -> F0 b \/ dropped newsize b;
  tr_all b : (forall h, kmem_cache_alloc h <> None) -> dropped newsize b -> F' b;
  tr_count p a : t0 !! p = Some a ->
    We.invalid_pages (nvm sbi') a + Z.of_nat (slots t' a) = We.invalid_pages m0 a + Z.of_nat (slots t0 a);
  tr_mem x : untouched x -> nvm sbi' x = m0 x;
}.

Lemma trimmed_none newsize : (forall p a, t0 !! p = Some a -> 4096 * p < newsize) -> trimmed newsize t0 sbi F0.
Proof.
  intros Hn. split; auto; try by split.
  - intros p. destruct (Z.ltb_spec (4096 * p) newsize); [done|]. destruct (t0 !! p) as [a|] eqn:Ea; [|done].
    specialize (Hn p a Ea). lia.
  - apply W.
  - intros b _ (p & a & Hp & Ha & _). specialize (Hn p a Ha). lia.
Qed.

Section trimmed.
Context (newsize : Z) (t' : gmap Z Z) (sbi' : nova_sb_info) (F' : Z -> Prop) (T : trimmed newsize t' sbi' F').

Lemma trimmed_part : t' ⊆ t0.
Proof. apply map_subseteq_spec. intros p a Ha. rewrite (tr_tree _ _ _ _ T) in Ha. by destruct (_ <? _). Qed.

Lemma trimmed_entry p a : t0 !! p = Some a ->
  We.pgoff (nvm sbi') a = We.pgoff m0 a /\ We.num_pages (nvm sbi') a = We.num_pages m0 a /\
  forall q, entry_block (nvm sbi') a q = entry_block m0 a q.
Proof.
  intros Ha. pose proof (log_apart_pi smp sbi F0 P pi t0 logb W a (we_entry _ _ _ _ _ _ _ W p a Ha)) as Hp.
  assert (forall n o, 0 <= o -> o + Z.of_nat n <= 20 -> load n (nvm sbi') (a + o) = load n m0 (a + o)) as Hl.
  { intros n o H1 H2. apply load_ext. intros x Hx. apply (tr_mem _ _ _ _ T). split; [lia|]. split; [lia|].
    intros q b Hb. destruct (decide (a = b)) as [->|Hne]; [lia|]. pose proof (we_apart _ _ _ _ _ _ _ W p q a b Ha Hb Hne). lia. }
  assert (We.pgoff (nvm sbi') a = We.pgoff m0 a) as E1 by (apply (Hl 8%nat 8); simpl; lia).
  assert (We.block (nvm sbi') a = We.block m0 a) as E2
    by (unfold We.block; rewrite <- (Z.add_0_r a); apply (Hl 8%nat 0); simpl; lia).
  split_and!; [done|apply (Hl 4%nat 16); simpl; lia|]. intros q. unfold entry_block. by rewrite E1, E2.
Qed.

Lemma trimmed_bytes o :
  file_byte sbi' t' o = if 4096 * (o / 4096) <? newsize then file_byte sbi t0 o else 0.
Proof.
  unfold file_byte. rewrite (tr_tree _ _ _ _ T). destruct (_ <? _); [|done].
  destruct (t0 !! (o / 4096)) as [a|] eqn:Ea; [|done]. destruct (trimmed_entry _ _ Ea) as (_ & _ & ->).
  assert (block_addr sbi' (entry_block m0 a (o / 4096)) = blk (entry_block m0 a (o / 4096))) as ->
    by (unfold block_addr; by rewrite (sg_virt _ _ (tr_geometry _ _ _ _ T))).
  apply (tr_mem _ _ _ _ T). destruct (data_apart _ a (blk (entry_block m0 a (o / 4096)) + o mod 4096) Ea) as (_ & H2 & H3);
    [unfold block_addr; mlia|]. split; [lia|]. split; [lia|]. intros q b Hb Hin. apply (H3 q b Hb). lia.
Qed.

Lemma trimmed_kept : readable sbi t0 -> file_kept sbi' t'.
Proof.
  intros [R1 R2 R3 R4]. pose proof (tr_geometry _ _ _ _ T) as Hg.
  assert (forall p a, t' !! p = Some a -> t0 !! p = Some a /\ 4096 * p < newsize) as Hin.
  { intros p a Ha. rewrite (tr_tree _ _ _ _ T) in Ha. by destruct (Z.ltb_spec (4096 * p) newsize). }
  split; [split|].
  - destruct R1. split; by rewrite (sg_virt _ _ Hg), ?(sg_blocks _ _ Hg).
  - intros p a [Ha _]%Hin. destruct (trimmed_entry p a Ha) as (-> & -> & _). by apply R2.
  - intros p a [Ha _]%Hin. destruct (trimmed_entry p a Ha) as (_ & _ & ->). rewrite (sg_blocks _ _ Hg). by apply R3.
  - intros p a [Ha _]%Hin H0 q. destruct (trimmed_entry p a Ha) as (-> & -> & _). intros Hq.
    pose proof (tr_count _ _ _ _ T p a Ha) as Hc. rewrite H0 in Hc. pose proof (slots_part _ _ a trimmed_part).
    pose proof (load_range 4 m0 (a + 20)) as Hr. change (load 4 m0 (a + 20)) with (We.invalid_pages m0 a) in Hr.
    assert (t0 !! q = Some a) as Ht by (apply (R4 p a Ha); [lia|done]).
    destruct (t' !! q) as [b|] eqn:Eb; [destruct (Hin q b Eb); congruence|].
    pose proof (slots_missing t0 t' q a trimmed_part Ht Eb). lia.
  - exists F'. split; [apply T|]. intros p a [Ha Hp]%Hin. destruct (trimmed_entry p a Ha) as (_ & _ & ->).
    intros [Hf|(q & b & Hq & Hb & E)]%(tr_new _ _ _ _ T); [by apply (we_used _ _ _ _ _ _ _ W p a Ha)|].
    assert (q = p) by (by apply (we_inj _ _ _ _ _ _ _ W q p b a)). lia.
Qed.
End trimmed.

Lemma eof_same m' size x : ~ pi + 4 <= x < pi + 8 -> check_eof_blocks m' pi size x = m' x.
Proof. intros Hx. unfold check_eof_blocks. destruct (_ && _); [|done]. apply store_disjoint. simpl. lia. Qed.

(** The blocks and the flags of the inode change. *)
Lemma trimmed_inode newsize t' sbi' F' v size :
  trimmed newsize t' sbi' F' ->
  trimmed newsize t' (with_nvm (check_eof_blocks (Pi.set_i_blocks (nvm sbi') pi v) pi size) sbi') F'.
Proof.
  intros [T1 T2 T3 T4 T5 T6 T7 T8].
  assert (forall x, ~ pi + 4 <= x < pi + 8 -> ~ pi + 32 <= x < pi + 40 ->
    check_eof_blocks (Pi.set_i_blocks (nvm sbi') pi v) pi size x = nvm sbi' x) as Hs.
  { intros x H1 H2. rewrite eof_same by done. apply store_disjoint. simpl. lia. }
  split; auto; cbn [nvm with_nvm].
  - by destruct T2.
  - by apply lb_free_nvm.
  - intros p a Ha. rewrite <- (T7 p a Ha). f_equal. apply load_ext. intros x Hx. simpl in Hx.
    pose proof (log_apart_pi smp sbi F0 P pi t0 logb W a (we_entry _ _ _ _ _ _ _ W p a Ha)). apply Hs; lia.
  - intros x Hx. rewrite Hs by apply Hx. by apply T8.
Qed.

Lemma own_inode_ok mon sih inode : i_ino inode = Pi.nova_ino m0 pi ->
  own_inode smp inode (World sbi mon sih) = Some (pi, World sbi mon sih).
Proof.
  intros Hi. unfold own_inode, Attr.find_inode. rewrite fs_assoc. frun.
  erewrite fs_step by (apply on_sbi_run; cbn [w_sbi]; by apply (FileWrite.find_inode smp sbi F0 P pi t0 logb W)). done.
Qed.

Lemma truncate_ok mon sih inode newsize oldsize time k :
  tree sih = t0 -> sih_ino sih = Pi.nova_ino m0 pi -> mmap_pages sih = 0 -> i_ino inode = Pi.nova_ino m0 pi ->
  0 <= newsize < oldsize -> oldsize < 2 ^ 62 -> (forall p a, t0 !! p = Some a -> 4096 * p < oldsize) -> counting (S k) mon ->
  exists sbi' F' mon' inode' t',
    nova_truncate_file_blocks slab_garbage smp jiffies_to_msecs e inode newsize oldsize time (World sbi mon sih) =
      Some (inode', World sbi' mon' (with_tree t' sih)) /\
    trimmed newsize t' sbi' F' /\ vfs_size inode' = vfs_size inode /\ counting k mon'.
Proof.
  intros Ht Hsi Hmm Hi Hn Ho Hp Hr. unfold nova_truncate_file_blocks. fstep (own_inode_ok mon sih inode Hi). frun.
  rewrite (we_type _ _ _ _ _ _ _ W). change (blk_type_to_shift 0) with (Some 12). cbn [fs_deref]. frun.
  unfold truncated_range. change (Z.shiftl 1 12) with 4096. rewrite (u64_small (newsize + _ - _)) by lia.
  rewrite !Z.shiftr_div_pow2 by lia. change (2 ^ 12) with 4096. rewrite (u64_small ((oldsize - 1) / 4096)) by mlia.
  rewrite (proj2 (Z.eqb_neq oldsize 0)) by lia. cbn [orb].
  set (first := (newsize + 4096 - 1) / 4096). set (last := (oldsize - 1) / 4096).
  assert (forall p, newsize <= 4096 * p <-> first <= p) as Hfirst by (intros p; unfold first; split; intros; mlia).
  assert (forall p a, t0 !! p = Some a -> p <= last) as Hlast by (intros p a Ha; specialize (Hp p a Ha); unfold last; mlia).
  destruct (Z.ltb_spec last first) as [Hlf|Hlf].
  { exists sbi, F0, mon, (with_vfs_time time inode), t0. rewrite <- Ht, with_tree_same, Ht. split; [done|].
    split; [|split; [done|by eapply ready_less; [exact Hr|lia]]]. apply trimmed_none. intros p a Ha.
    specialize (Hlast p a Ha). specialize (Hfirst p). lia. }
  destruct (delete_file_tree_run slab_garbage smp pi sbi mon sih P F0 first last false) as
    (sbi1 & F1 & E1 & Hok1 & Hold & Hnew & Hall & Hcnt & Hsame & Hg & _); rewrite ?Ht; auto using env_header, env_file.
  { unfold first. mlia. }
  { unfold last. mlia. }
  cbv zeta in *. fstep E1. rewrite Ht in *. set (t' := cut first last t0) in *.
  assert (trimmed newsize t' sbi1 F1) as T1.
  { split; auto.
    - intros p. unfold t'. rewrite cut_lookup. specialize (Hfirst p).
      destruct (Z.leb_spec first p), (Z.leb_spec p last), (Z.ltb_spec (4096 * p) newsize); cbn [andb]; try lia; try done.
      destruct (t0 !! p) as [a|] eqn:Ea; [|done]. specialize (Hlast p a Ea). lia.
    - apply Hok1.
    - intros b [?|(p & a & Hpr & Ha & Hb)]%Hnew; [by left|]. right. exists p, a. split; [apply Hfirst; lia|done].
    - intros b Hs (p & a & Hpr & Ha & Hb). apply (Hall Hs). exists p, a. apply Hfirst in Hpr. specialize (Hlast p a Ha).
      split; [lia|done].
    - intros x (_ & _ & Hx). by apply Hsame. }
  assert (homed sbi1 P pi) as Hh1.
  { pose proof (we_pi_page _ _ _ _ _ _ _ W) as [Hpp _].
    assert (forall x, x < blk 1 \/ pi + 64 <= x < pi + 72 -> nvm sbi1 x = m0 x) as Hs.
    { intros x Hx. apply Hsame. intros p a Ha Hin. destruct (we_entry _ _ _ _ _ _ _ W p a Ha) as (b & Hb & H1 & H2).
      pose proof (log_apart_pi smp sbi F0 P pi t0 logb W a (we_entry _ _ _ _ _ _ _ W p a Ha)).
      destruct (we_log _ _ _ _ _ _ _ W b Hb) as [Hb0 _]. unfold block_addr in *. lia. }
    apply (homed_frame sbi); [apply W|apply W| |done|auto|].
    - destruct (we_pi_page _ _ _ _ _ _ _ W). unfold block_addr in *. lia.
    - apply load_ext. intros x Hx. apply Hs. simpl in Hx. lia. }
  rewrite (fs_step _ _ _ _ _ (reget_inode_ok smp P pi (World sbi1 mon (with_tree t' sih)) Hh1 (lb_size _ _ (tr_free _ _ _ _ T1)))).
  frun. cbn [nvm with_nvm]. set (i1 := with_vfs_blocks _ _).
  pose proof (trimmed_inode newsize t' sbi1 F1 (vfs_blocks i1) (vfs_size i1) T1) as T2. set (m2 := check_eof_blocks _ _ _) in *.
  destruct (ready_count_inode jiffies_to_msecs e pid_nonneg (with_nvm m2 sbi1) mon (with_tree t' sih) pi k Hr) as (mon' & E2 & Hr').
  change (with_nvm m2 (with_nvm _ sbi1)) with (with_nvm m2 sbi1). fstep E2.
  exists (with_nvm m2 sbi1), F1, mon', i1, t'. split; [done|]. split; [done|]. split; [done|done].
Qed.
(** The file was cut at [newsize]: it has its old bytes below and zeros from there on; the tree
    has exactly the pages that begin below; the free blocks are the old ones and those of
    the other pages. *)
Record shrunk (newsize : Z) (t' : gmap Z Z) (sbi' : nova_sb_info) (F' : Z -> Prop) : Prop := {
  sk_bytes o : 0 <= o -> file_byte sbi' t' o = if o <? newsize then file_byte sbi t0 o else 0;
  sk_tree p : t' !! p = if 4096 * p <? newsize then t0 !! p else None;
  sk_kept : file_kept sbi' t';
  sk_free : lb_free sbi' F';
  sk_old b : F0 b -> F' b;
  sk_new b : F' b -> F0 b \/ dropped newsize b;
  sk_all b : (forall h, kmem_cache_alloc h <> None) -> dropped newsize b -> F' b;
}.
End state.

Section setsize.
Context (sbi : nova_sb_info) (W : write_env smp sbi F0 P pi t0 logb) (Hhome : one_list sbi).
#[local] Notation m0 := (nvm sbi).

Lemma same_dropped m' newsize b : file_same sbi m' -> dropped (with_nvm m' sbi) newsize b <-> dropped sbi newsize b.
Proof.
  intros Hs. unfold dropped. cbn [nvm with_nvm].
  split; intros (p & a & Hp & Ha & Hb); exists p, a; (split; [done|split; [done|]]); rewrite <- Hb;
    destruct (same_fields sbi m' p a Hs Ha) as (_ & _ & _ & ->); done.
Qed.

(** Of the old memory only the data and the fields of the inode and of the entries change. *)
Definition outside (x : Z) : Prop := untouched x /\
  forall p a, t0 !! p = Some a -> ~ block_addr sbi (entry_block m0 a p) <= x < block_addr sbi (entry_block m0 a p + 1).

Lemma same_readable m' : file_same sbi m' -> readable sbi t0 -> readable (with_nvm m' sbi) t0.
Proof.
  intros Hs [R1 R2 R3 R4]. split; cbn [nvm with_nvm]; auto.
  - intros p a Ha. destruct (same_fields sbi m' p a Hs Ha) as (-> & -> & _). by apply R2.
  - intros p a Ha. destruct (same_fields sbi m' p a Hs Ha) as (_ & _ & _ & ->). by apply R3.
  - intros p a Ha. destruct (same_fields sbi m' p a Hs Ha) as (-> & -> & -> & _). by apply (R4 p).
Qed.

Lemma setsize_ok mon sih inode newsize time k :
  readable sbi t0 -> tree sih = t0 -> sih_ino sih = Pi.nova_ino m0 pi -> mmap_pages sih = 0 -> i_ino inode = Pi.nova_ino m0 pi ->
  S_ISREG (vfs_mode inode) = true -> 0 <= newsize < vfs_size inode -> vfs_size inode < 2 ^ 62 ->
  (forall p a, t0 !! p = Some a -> 4096 * p < vfs_size inode) -> counting (S k) mon ->
  exists sbi' F' mon' sih' inode',
    nova_setsize slab_garbage smp jiffies_to_msecs e inode (vfs_size inode) newsize time (World sbi mon sih) =
      Some (inode', World sbi' mon' sih') /\ counting k mon' /\ vfs_size inode' = newsize /\ sih_size sih' = newsize /\
    shrunk sbi newsize (tree sih') sbi' F' /\ forall x, outside x -> nvm sbi' x = m0 x.
Proof.
  intros Hrd Ht Hsi Hmm Hi Hreg Hn Hsz Hp Hr. unfold nova_setsize. rewrite Hreg, (proj2 (Z.eqb_neq newsize _)) by lia.
  cbn [negb]. rewrite fs_assoc. fstep (clear_tail_ok sbi W Hhome mon sih inode newsize Ht Hmm Hn Hsz). frun.
  pose proof (cleared_same sbi W newsize) as Hs. set (sbi3 := with_nvm (tail_cleared sbi newsize) sbi) in *.
  assert (Pi.nova_ino (nvm sbi3) pi = Pi.nova_ino m0 pi) as Ei
    by (apply load_ext; intros x Hx; apply (fs_pi _ _ Hs); simpl in Hx; lia).
  pose proof (env_same sbi W _ Hs) as W3.
  destruct (truncate_ok sbi3 W3 (one_list_same sbi Hhome _ Hs) mon (with_sih_size newsize sih) (with_vfs_size newsize inode)
    newsize (vfs_size inode) time k) as (sbi' & F' & mon' & inode' & t' & E & T & Hs' & Hr'); auto; try (by rewrite Ei); try lia.
  exists sbi', F', mon', (with_tree t' (with_sih_size newsize sih)), inode'. split; [exact E|]. split; [done|]. split; [done|].
  split; [done|]. cbn [tree with_tree]. split; [split|].
  - intros o Ho. rewrite (trimmed_bytes sbi3 W3 newsize t' sbi' F' T). unfold sbi3. rewrite (cleared_bytes sbi W newsize o) by lia.
    destruct (Z.ltb_spec (4096 * (o / 4096)) newsize), (Z.ltb_spec o newsize), (Z.eqb_spec (o / 4096) (newsize / 4096)),
      (Z.leb_spec newsize o), (Z.eqb_spec (newsize mod 4096) 0); cbn [andb negb]; try done; exfalso; mlia.
  - apply T.
  - eapply (trimmed_kept sbi3 W3); [exact T|by apply same_readable].
  - apply T.
  - apply T.
  - intros b [?|Hb]%(tr_new _ _ _ _ _ T); [by left|right]. by apply (same_dropped _ newsize b Hs).
  - intros b Hsl Hb. apply (tr_all _ _ _ _ _ T b Hsl). by apply (same_dropped _ newsize b Hs).
  - intros x [Hu Hd]. rewrite (tr_mem _ _ _ _ _ T x Hu). apply cleared_other. intros a Ha Hin.
    assert (0 <= newsize mod 4096) by (apply Z.mod_pos_bound; lia). apply (Hd _ a Ha). lia.
Qed.
End setsize.

(** ** The whole operation *)

(** Of the kernel: the attributes may be changed, and changing them keeps the number and the
    size of the inode. *)
Context (inode_change_ok : vfs_inode -> iattr -> Z) (setattr_copy : vfs_inode -> iattr -> vfs_inode).
Hypothesis copy_keeps : forall i a, i_ino (setattr_copy i a) = i_ino i /\ vfs_size (setattr_copy i a) = vfs_size i.

Context (sbi : nova_sb_info) (W : write_env smp sbi F0 P pi t0 logb) (Hhome : one_list sbi).
Context (tail limit : Z) (tok : tail_ok sbi t0 logb tail limit).
Hypothesis tail_room : tail + Sa.length <= limit.
Hypothesis tail_here : Pi.log_tail (nvm sbi) pi = tail.
#[local] Notation m0 := (nvm sbi).
#[local] Notation va := (virt_addr sbi).

(** The memory when the entry is in the log. *)
Definition logged (inode : vfs_inode) (attr : iattr) : memory :=
  Pi.set_log_tail (nova_update_setattr_entry m0 inode (va + tail) attr) pi (tail + Sa.length).

(** Only the entry and the tail of the inode differ. *)
Definition window (m' : memory) : Prop :=
  forall x, ~ va + tail <= x < va + tail + 32 -> ~ pi + 80 <= x < pi + 88 -> m' x = m0 x.

Lemma entry_window inode attr : window (nova_update_setattr_entry m0 inode (va + tail) attr).
Proof. intros x H1 H2. unfold nova_update_setattr_entry. cbv zeta. by rewrite !store_disjoint by (simpl; lia). Qed.

Lemma logged_window inode attr : window (logged inode attr).
Proof.
  intros x H1 H2. unfold logged, Pi.set_log_tail. rewrite store_disjoint by (simpl; lia). by apply entry_window.
Qed.

(** The end of the log is in a page of the log. *)
Lemma tail_apart x : va + tail <= x < va + limit ->
  block_addr sbi 1 <= x /\ (x < pi \/ pi + 128 <= x) /\
  (forall p a, t0 !! p = Some a -> ~ a <= x < a + 40) /\
  (forall p a, t0 !! p = Some a -> ~ block_addr sbi (entry_block m0 a p) <= x < block_addr sbi (entry_block m0 a p + 1)).
Proof.
  intros Hx. destruct (tail_block smp sbi F0 P pi t0 logb W tail limit tok) as (T1 & T2 & T3 & T4).
  destruct (we_pi _ _ _ _ _ _ _ W (tail / 4096)) as [?|?]; [right; left; apply tok| |].
  all: split; [unfold block_addr in *; lia|]; split; [lia|]; split; intros p a Ha Hin;
    [pose proof (tl_fresh _ _ _ _ _ tok p a Ha); lia|].
  all: apply (we_data _ _ _ _ _ _ _ W _ p a (tl_page _ _ _ _ _ tok) Ha), (block_apart sbi _ x); lia.
Qed.

Lemma window_same m' : window m' -> file_same sbi m'.
Proof.
  intros Hm. pose proof (we_pi_page _ _ _ _ _ _ _ W) as [Hpp _]. pose proof tail_room as Hlen. unfold Sa.length in Hlen.
  split.
  - intros x Hx. apply Hm; [|lia]. intros Hin. destruct (tail_apart x ltac:(lia)). lia.
  - intros x Hx. apply Hm; [|lia]. intros Hin. destruct (tail_apart x ltac:(lia)) as (_ & ? & _). lia.
  - intros p a x Ha Hx. pose proof (log_apart_pi smp sbi F0 P pi t0 logb W a (we_entry _ _ _ _ _ _ _ W p a Ha)).
    apply Hm; [|lia]. intros Hin. destruct (tail_apart x ltac:(lia)) as (_ & _ & Hn & _). by apply (Hn p a).
Qed.

Lemma window_bytes m' o : window m' -> file_byte (with_nvm m' sbi) t0 o = file_byte sbi t0 o.
Proof.
  intros Hm. unfold file_byte. destruct (t0 !! (o / 4096)) as [a|] eqn:Ea; [|done]. cbn [nvm with_nvm].
  destruct (same_fields sbi _ _ a (window_same m' Hm) Ea) as (_ & _ & _ & ->).
  change (block_addr (with_nvm _ sbi)) with (block_addr sbi). set (x := _ + o mod 4096).
  assert (block_addr sbi (entry_block m0 a (o / 4096)) <= x < block_addr sbi (entry_block m0 a (o / 4096) + 1)) as Hx
    by (unfold x, block_addr; mlia).
  destruct (data_apart sbi W _ a x Ea Hx) as (_ & ? & _). pose proof tail_room as Hlen. unfold Sa.length in Hlen.
  apply Hm; [|lia]. intros Hin. destruct (tail_apart x ltac:(lia)) as (_ & _ & _ & Hn). by apply (Hn _ a Ea).
Qed.

Lemma append_setattr_ok mon sih inode attr :
  nova_append_setattr_entry slab_garbage smp jiffies_to_msecs e garbage pi inode attr 0 (World sbi mon sih) =
    Some (tail + Sa.length, World (with_nvm (nova_update_setattr_entry m0 inode (va + tail) attr) sbi) mon
      (with_last_setattr tail sih)).
Proof.
  destruct (tail_block smp sbi F0 P pi t0 logb W tail limit tok) as (T1 & T2 & T3 & T4).
  pose proof (tl_room _ _ _ _ _ tok) as [Hroom _]. pose proof (we_mapped _ _ _ _ _ _ _ W) as Hmp.
  pose proof (lb_size _ _ (we_free _ _ _ _ _ _ _ W)). pose proof tail_room as Hlen. unfold Sa.length in Hlen |- *.
  unfold nova_append_setattr_entry. erewrite fs_step.
  2:{ apply (append_head_fits slab_garbage smp jiffies_to_msecs e garbage sbi mon sih P pi 0 32 tail); auto; try lia; apply W. }
  rewrite (proj2 (Z.eqb_neq tail 0)) by lia.
  erewrite fs_step by (apply (get_block_ok sbi mon sih tail 32); [done|split; lia|lia]). frun.
  unfold Sa.length. rewrite u64_small by lia. done.
Qed.

(** The log afterwards: the entry with the new size and the tail behind it. *)
Record size_logged (m : memory) (newsize : Z) : Prop := {
  sl_tail : Pi.log_tail m pi = tail + Sa.length;
  sl_type : nova_get_entry_type m (va + tail) = SET_ATTR;
  sl_size : Sa.size m (va + tail) = newsize;
}.

Lemma logged_size inode attr : Z.land (ia_valid attr) ATTR_SIZE <> 0 -> 0 <= ia_size attr < 2 ^ 64 ->
  size_logged (logged inode attr) (ia_size attr).
Proof.
  intros Hbit Hs. destruct (tail_block smp sbi F0 P pi t0 logb W tail limit tok) as (_ & _ & T3 & T4).
  pose proof (lb_size _ _ (we_free _ _ _ _ _ _ _ W)). pose proof tail_room as Hlen. unfold Sa.length in Hlen.
  assert (forall n o, 0 <= o -> o + Z.of_nat n <= 32 -> load n (logged inode attr) (va + tail + o) =
    load n (nova_update_setattr_entry m0 inode (va + tail) attr) (va + tail + o)) as Hl.
  { intros n o H1 H2. apply load_ext. intros x Hx. apply store_disjoint. simpl.
    destruct (tail_apart x ltac:(lia)) as (_ & ? & _). lia. }
  split.
  - unfold logged, Pi.set_log_tail, Pi.log_tail, Sa.length. apply load8_store8. lia.
  - unfold nova_get_entry_type. rewrite <- (Z.add_0_r (va + tail)), Hl, Z.add_0_r by (simpl; lia).
    unfold nova_update_setattr_entry. cbv zeta. rewrite !load_store_ne by (simpl; lia). by rewrite load_store_eq.
  - unfold Sa.size. rewrite Hl by (simpl; lia). unfold nova_update_setattr_entry. cbv zeta.
    rewrite (proj2 (Z.eqb_neq _ 0) Hbit). cbn [negb]. by apply load8_store8.
Qed.

Lemma size_logged_frame m m' newsize : size_logged m newsize ->
  (forall x, va + tail <= x < va + tail + 32 \/ pi + 80 <= x < pi + 88 -> m' x = m x) -> size_logged m' newsize.
Proof.
  intros [L1 L2 L3] Hm. split; [rewrite <- L1|rewrite <- L2|rewrite <- L3]; apply load_ext; intros x Hx; apply Hm; simpl in Hx; lia.
Qed.

(** The entry and the tail are not touched by the cut. *)
Lemma tail_outside m' x : window m' ->
  va + tail <= x < va + tail + 32 \/ pi + 80 <= x < pi + 88 -> outside (with_nvm m' sbi) x.
Proof.
  intros Hm Hx. pose proof (window_same m' Hm) as Hs. pose proof tail_room as Hlen. unfold Sa.length in Hlen. split.
  - destruct Hx as [Hx|Hx].
    + destruct (tail_apart x ltac:(lia)) as (_ & Hp & He & _). split; [lia|]. split; [lia|].
      intros p a Ha Hin. apply (He p a Ha). lia.
    + split; [lia|]. split; [lia|]. intros p a Ha.
      pose proof (log_apart_pi smp sbi F0 P pi t0 logb W a (we_entry _ _ _ _ _ _ _ W p a Ha)). lia.
  - intros p a Ha. cbn [nvm with_nvm]. destruct (same_fields sbi m' p a Hs Ha) as (_ & _ & _ & ->).
    change (block_addr (with_nvm m' sbi)) with (block_addr sbi). intros Hin. destruct Hx as [Hx|Hx].
    + destruct (tail_apart x ltac:(lia)) as (_ & _ & _ & Hd). by apply (Hd p a Ha).
    + destruct (data_apart sbi W p a x Ha Hin) as (_ & Hp & _). lia.
Qed.

Lemma shrunk_window m' newsize t' sbi' F' :
  window m' -> shrunk (with_nvm m' sbi) newsize t' sbi' F' -> shrunk sbi newsize t' sbi' F'.
Proof.
  intros Hm [K1 K2 K3 K4 K5 K6 K7]. pose proof (window_same m' Hm) as Hs. split; auto.
  - intros o Ho. rewrite K1 by done. destruct (_ <? _); [|done]. by apply window_bytes.
  - intros b [?|Hb]%K6; [by left|right]. by apply (same_dropped sbi m' newsize b Hs).
  - intros b Hsl Hb. apply (K7 b Hsl). by apply (same_dropped sbi m' newsize b Hs).
Qed.

(** C4: Cutting a file.  [nova_notify_change] with a size below that of the file returns 0;
    afterwards the file has its old bytes below the new size and reads as zeros from there on,
    also when it grows again; the tree has exactly the pages that begin below the new size; no
    block is free but the old ones and those of the pages that were dropped, and all of these
    are when the slab allocator serves every request; and the entry with the new size is at
    the end of the log.  The file is a regular one that is not mapped into memory
    ([mmap_pages]), all its pages lie below its size, its log has room for the entry in the
    page of the tail, every run of its blocks belongs to one free list ([one_list]: a run
    across two lists is given back to the wrong one, inode.c:396), and the counters of the
    monitor have room for two more writes. *)
Theorem truncate_exact mon sih inode attr time k :
  let newsize := ia_size attr in
  readable sbi t0 -> tree sih = t0 -> sih_ino sih = Pi.nova_ino m0 pi -> mmap_pages sih = 0 ->
  i_ino inode = Pi.nova_ino m0 pi -> inode_change_ok inode attr = 0 -> S_ISREG (vfs_mode (setattr_copy inode attr)) = true ->
  Z.land (ia_valid attr) ATTR_SIZE <> 0 -> 0 <= newsize < vfs_size inode -> vfs_size inode < 2 ^ 62 ->
  (forall p a, t0 !! p = Some a -> 4096 * p < vfs_size inode) -> counting (S (S k)) mon ->
  exists sbi' F' mon' sih' inode',
    nova_notify_change slab_garbage smp jiffies_to_msecs e garbage nova_base_address inode_change_ok setattr_copy
      inode attr time (World sbi mon sih) = Some ((0, inode'), World sbi' mon' sih') /\ counting k mon' /\
    vfs_size inode' = newsize /\ sih_size sih' = newsize /\ shrunk sbi newsize (tree sih') sbi' F' /\
    size_logged (nvm sbi') newsize.
Proof.
  intros newsize Hrd Ht Hsi Hmm Hi Hok Hreg Hbit Hn Hsz Hp Hr. set (i1 := setattr_copy inode attr) in *.
  destruct (copy_keeps inode attr) as [Ei Es]. fold i1 in Ei, Es.
  assert (Z.land (Z.land (ia_valid attr) attr_mask) ATTR_SIZE = Z.land (ia_valid attr) ATTR_SIZE) as Hmask
    by (by rewrite <- Z.land_assoc).
  assert (Z.land (ia_valid attr) attr_mask <> 0) as Hvalid by (intros E0; apply Hbit; by rewrite <- Hmask, E0).
  unfold nova_notify_change, Attr.find_inode. rewrite fs_assoc. frun.
  erewrite fs_step by (apply on_sbi_run; cbn [w_sbi]; by apply (FileWrite.find_inode smp sbi F0 P pi t0 logb W)).
  cbv beta iota. cbn [w_mon w_sih]. rewrite Hok. cbn [Z.eqb negb]. fold i1.
  set (sih1 := if negb (Z.land (ia_valid attr) ATTR_MODE =? 0) then with_sih_mode (vfs_mode i1) sih else sih).
  assert (tree sih1 = t0 /\ sih_ino sih1 = Pi.nova_ino m0 pi /\ mmap_pages sih1 = 0) as (S1 & S2 & S3)
    by (unfold sih1; destruct (_ =? 0); done).
  erewrite fs_step by (instantiate (1 := World sbi mon sih1); instantiate (1 := tt); unfold sih1; by destruct (_ =? 0)).
  rewrite (proj2 (Z.eqb_neq _ 0) Hvalid). fstep (append_setattr_ok mon sih1 i1 attr).
  set (m1 := nova_update_setattr_entry m0 i1 (va + tail) attr). set (sih2 := with_last_setattr tail sih1).
  assert (homed (with_nvm m1 sbi) P pi /\ Pi.nova_ino m1 pi = Pi.nova_ino m0 pi) as [Hh1 Ei1].
  { pose proof (window_same m1 (entry_window i1 attr)) as Hs. split; [apply (env_same sbi W m1 Hs)|].
    apply load_ext. intros x Hx. apply (fs_pi _ _ Hs). simpl in Hx. lia. }
  pose proof (lb_size _ _ (we_free _ _ _ _ _ _ _ W)) as Hnb.
  destruct (update_tail_ok smp e nova_base_address sbi F0 P pi t0 logb W (with_nvm m1 sbi) mon sih2 (S k) (tail + Sa.length)
    Hh1 Ei1 Hnb Hr) as (mon1 & E1 & Hr1). fstep E1. clear E1.
  frun. rewrite Hmask, (proj2 (Z.eqb_neq _ 0) Hbit), (proj2 (Z.eqb_neq (ia_size attr) (vfs_size inode))) by lia.
  cbn [negb andb orb nvm with_nvm]. pose proof (logged_window i1 attr) as Hwin. pose proof (window_same _ Hwin) as Hs2.
  change (with_nvm (Pi.set_log_tail m1 pi (tail + Sa.length)) (with_nvm m1 sbi)) with (with_nvm (logged i1 attr) sbi).
  set (sbi2 := with_nvm (logged i1 attr) sbi) in *.
  assert (Pi.nova_ino (nvm sbi2) pi = Pi.nova_ino m0 pi) as Ei2
    by (apply load_ext; intros x Hx; apply (fs_pi _ _ Hs2); simpl in Hx; lia).
  destruct (setsize_ok sbi2 (env_same sbi W _ Hs2) (one_list_same sbi Hhome _ Hs2) mon1 sih2 i1 newsize time k)
    as (sbi' & F' & mon' & sih' & inode' & E2 & Hr2 & Hv & Hsi' & K & Hout); try (rewrite ?Ei2, ?Es; (done || lia || congruence)).
  { by apply same_readable. }
  rewrite Es in E2. fstep E2. exists sbi', F', mon', sih', inode'. split; [done|]. split; [done|]. split; [done|]. split; [done|].
  split; [by apply (shrunk_window (logged i1 attr))|].
  apply (size_logged_frame (logged i1 attr)); [by apply logged_size; [|lia]|]. intros x Hx. apply Hout.
  by apply (tail_outside (logged i1 attr)).
Qed.
End resize.

(** ** An example *)

Module ResizeDemo.
Import RbList.RbList InodeTable.TableDemo Detect.DetectDemo FastGc.GcDemo Truncate.TruncateDemo FileWrite.WriteDemo.

(** The file of [WriteDemo], with pages 0 and 2, is cut to 100 bytes. *)
Definition cut_attr : iattr := IAttr (ATTR_SIZE + 64) 0 0 0 100 0 0 7.
Definition copy_ctime (i : vfs_inode) (a : iattr) : vfs_inode := with_vfs_ctime (ia_ctime a) i.

Lemma truncate_exact_witness : exists mon sbi' F' mon' sih' inode',
  nova_notify_change garbage 0 msecs_250 (demo_env 0) 0 65536 (fun _ _ => 0) copy_ctime wr_inode cut_attr 7
    (World wr_sbi mon cut_sih) = Some ((0, inode'), World sbi' mon' sih') /\
  vfs_size inode' = 100 /\ file_byte sbi' (tree sih') 99 = file_byte wr_sbi cut_tree 99 /\
  file_byte sbi' (tree sih') 100 = 0 /\ file_byte sbi' (tree sih') 8192 = 0 /\ lb_free sbi' F' /\ F' 8 /\
  Sa.size (nvm sbi') (65536 + wr_tail) = 100.
Proof.
  destruct wr_env as (F & P & W). destruct (counting_init 2 ltac:(lia)) as (mon & _ & Hr).
  destruct wr_fields as (F1 & _ & _ & F4 & _ & F6 & F7). destruct wr_geometry as (Ev & _).
  assert (forall p, entry_block (nvm wr_sbi) cut_entry p = 6 + p) as Hbk
    by (intros p; unfold entry_block; rewrite F4, F1; lia).
  destruct (truncate_exact garbage 0 msecs_250 (demo_env 0) 0 65536 ltac:(vm_compute; discriminate) F P gc_pi cut_tree
    (fun b => b = 5) (fun _ _ => 0) copy_ctime (fun _ _ => conj eq_refl eq_refl) wr_sbi W)
    with (tail := wr_tail) (limit := wr_tail + 80) (mon := mon) (sih := cut_sih) (inode := wr_inode) (attr := cut_attr)
      (time := 7) (k := 0%nat) as (sbi' & F' & mon' & sih' & inode' & E & _ & Hv & _ & K & Hl).
  - intros p q a b [-> Hp]%cut_tree_lookup [-> Hq]%cut_tree_lookup. rewrite !Hbk. lia.
  - exact wr_tail_ok.
  - vm_compute. discriminate.
  - exact F6.
  - exact wr_readable.
  - reflexivity.
  - exact (eq_sym F7).
  - reflexivity.
  - exact (eq_sym F7).
  - reflexivity.
  - reflexivity.
  - vm_compute. discriminate.
  - split; [vm_compute; discriminate|reflexivity].
  - reflexivity.
  - intros p a [-> Hp]%cut_tree_lookup. change (vfs_size wr_inode) with 12288. lia.
  - exact Hr.
  - exists mon, sbi', F', mon', sih', inode'. split; [exact E|]. split; [exact Hv|].
    rewrite !(sk_bytes _ _ _ _ _ _ _ K) by lia. split; [reflexivity|]. split; [reflexivity|]. split; [reflexivity|].
    split; [exact (sk_free _ _ _ _ _ _ _ K)|]. split.
    + apply (sk_all _ _ _ _ _ _ _ K 8 table_slab). exists 2, cut_entry. split; [vm_compute; discriminate|].
      split; [reflexivity|]. rewrite Hbk. reflexivity.
    + rewrite <- Ev. exact (sl_size _ _ _ _ _ Hl).
Defined.
End ResizeDemo.
