(* ===== verification/Release.v ===== *)
(** * Releasing an inode (inode.c)

    When the last reference to a file without links goes, [nova_evict_inode] gives back the
    blocks of its pages, the pages of its log and its number.  The theorem says that nothing
    else is given back and nothing is lost. *)

From S2P Require Import Prelude Layout RangeTree RbList State Balloc BallocFacts BallocSpec.
From S2P Require Import BallocInit BallocTheorems TreeEdits InodeMap LogBlocks InodeTable.
From S2P Require Import Monitor Histogram HashTable Records KnapSack Detect WriteCount Migrate.
From S2P Require Import LogPages World InodeLog FastGc LogAppend BlockMap Shutdown Crawl FileTree Truncate.
From S2P Require Import WearBudget FileData FileWrite Directory Attr Resize.
#[local] Open Scope word_scope.

Lemma cut_all last t : (forall p a, t !! p = Some a -> 0 <= p <= last) -> cut 0 last t = ∅.
Proof.
  intros Hp. apply map_empty. intros p. rewrite cut_lookup. destruct (t !! p) as [a|] eqn:Ea; [|by destruct (_ && _)].
  destruct (Hp p a Ea). by rewrite (proj2 (Z.leb_le 0 p)), (proj2 (Z.leb_le p last)) by lia.
Qed.

(** The inode is found in the tables. *)
Lemma homed_inode `{RbTree} smp sbi P pi a : homed sbi P pi -> num_blocks sbi < 2147483648 ->
  NOVA_NORMAL_INODE_START <= Pi.nova_ino (nvm sbi) pi ->
  nova_get_inode smp sbi (Pi.nova_ino (nvm sbi) pi) a = Some (inr pi, sbi).
Proof.
  intros [T1 T2 _ (Hi & b & Hb & Eb)] Hn Hino. by rewrite (get_inode_present smp sbi P _ _ b), Eb.
Qed.

Section release.
Context `{RbTreeLaws} {L : LogBlocks} (slab_garbage : nova_range_node) (smp : Z) (jiffies_to_msecs : Z -> Z) (e : env).
Context (pid_nonneg : 0 <= current_pid e).
Hypothesis slab_serves : forall h, kmem_cache_alloc h <> None.
Context (sbi : nova_sb_info) (F0 : Z -> Prop) (P : Z -> list Z) (pi : Z) (t0 : gmap Z Z) (bs : list Z).
Context (W : write_env smp sbi F0 P pi t0 (fun b => b ∈ bs)) (Hhome : one_list t0 sbi).
#[local] Notation m0 := (nvm sbi).
#[local] Notation blk b := (block_addr sbi b).
#[local] Notation ino := (Pi.nova_ino m0 pi).

(** The log is the chain [bs]. *)
Record log_of : Prop := {
  lo_head : Pi.log_head m0 pi = chain_head bs;
  lo_some : bs <> [];
  lo_tail : Pi.log_tail m0 pi <> 0;
  lo_nodup : NoDup bs;
  lo_runs : runs_ok sbi bs;
  lo_chain : log_chain (virt_addr sbi) m0 bs;
}.
Hypothesis Hlog : log_of.

(** The blocks of the file. *)
Definition data_block (b : Z) : Prop := exists p a, t0 !! p = Some a /\ entry_block m0 a p = b.

(** A state on the way: the free blocks are [F]; only the inode and the counters of the
    entries have changed. *)
Record stage (s : nova_sb_info) (F : Z -> Prop) : Prop := {
  sg_geom : same_geometry sbi s;
  sg_nodes : nodes_frame sbi s;
  sg_free : lb_free s F;
  sg_mem x : ~ pi <= x < pi + 128 -> (forall p a, t0 !! p = Some a -> ~ a + 20 <= x < a + 24) -> nvm s x = m0 x;
  sg_fields x : pi + 3 <= x < pi + 4 \/ pi + 64 <= x < pi + 72 -> nvm s x = m0 x;
}.

Section stage.
Context (s : nova_sb_info) (F : Z -> Prop) (G : stage s F).

Lemma stage_ino : Pi.nova_ino (nvm s) pi = ino.
Proof. apply load_ext. intros x Hx. apply (sg_fields _ _ G). simpl in Hx. lia. Qed.

Lemma stage_size : num_blocks s < 2147483648.
Proof. apply (lb_size _ _ (sg_free _ _ G)). Qed.

Lemma stage_homed : homed s P pi.
Proof.
  destruct (we_pi_page _ _ _ _ _ _ _ W) as [H1 H2].
  apply (homed_frame sbi); [apply W|apply W|unfold block_addr in *; lia|apply G| |apply stage_ino].
  intros x Hx. apply (sg_mem _ _ G); [lia|]. intros p a Ha Hin.
  destruct (we_entry _ _ _ _ _ _ _ W p a Ha) as (b & Hb & H3 & H4). destruct (we_log _ _ _ _ _ _ _ W b Hb).
  unfold block_addr in *. lia.
Qed.

Lemma stage_own mon sih inode : i_ino inode = ino -> own_inode smp inode (World s mon sih) = Some (pi, World s mon sih).
Proof.
  intros Hi. unfold own_inode, Attr.find_inode. rewrite fs_assoc. frun. rewrite Hi, <- stage_ino.
  pose proof (we_ino _ _ _ _ _ _ _ W).
  erewrite fs_step by (apply on_sbi_run; cbn [w_sbi]; apply (homed_inode smp s P pi);
    [apply stage_homed|apply stage_size|rewrite stage_ino; lia]). done.
Qed.

(** A field of the inode other than its type and number. *)
Lemma stage_field n o v : 0 <= o -> o + Z.of_nat n <= 3 \/ (4 <= o /\ o + Z.of_nat n <= 64) \/ (72 <= o /\ o + Z.of_nat n <= 128) ->
  stage (with_nvm (store n (nvm s) (pi + o) v) s) F.
Proof.
  intros H1 H2. pose proof G as [G1 G2 G3 G4 G5].
  split; cbn [nvm with_nvm]; [by destruct G1|done|by apply lb_free_nvm| |].
  - intros x Hx Hn. rewrite store_disjoint by lia. by apply G4.
  - intros x Hx. rewrite store_disjoint by lia. by apply G5.
Qed.

(** The log is still the chain. *)
Lemma stage_chain : log_chain (virt_addr s) (nvm s) bs.
Proof.
  intros i b Hi. rewrite (sg_virt _ _ (sg_geom _ _ G)). rewrite <- (lo_chain Hlog i b Hi). apply load_ext.
  intros x Hx. pose proof (list_elem_of_lookup_2 _ _ _ Hi) as Hb.
  assert (blk b + 4088 <= x < blk (b + 1)) as Hx' by (unfold block_addr, LAST_ENTRY in *; simpl in Hx; lia).
  apply (sg_mem _ _ G).
  - destruct (we_pi _ _ _ _ _ _ _ W b) as [?|?]; [auto|unfold block_addr in *; lia..].
  - intros p a Ha Hin. destruct (we_entry _ _ _ _ _ _ _ W p a Ha) as (c & Hc & H3 & H4). unfold block_addr in *. lia.
Qed.
End stage.

(** ** The pages *)

Lemma content_ok mon sih inode :
  tree sih = t0 -> sih_ino sih = ino -> mmap_pages sih = 0 -> S_ISREG (vfs_mode inode) = true -> 0 <= sih_size sih < 2 ^ 62 ->
  (forall p a, t0 !! p = Some a -> 4096 * p < sih_size sih) ->
  exists s F, evict_content slab_garbage smp inode (World sbi mon sih) = Some (tt, World s mon (with_tree ∅ sih)) /\
    stage s F /\ (forall b, F b <-> F0 b \/ data_block b) /\ forall x, pi <= x < pi + 128 -> nvm s x = m0 x.
Proof.
  intros Ht Hsi Hmm Hreg Hsz Hp. unfold evict_content. unfold S_ISREG in Hreg. rewrite Hreg. unfold nova_get_last_blocknr.
  rewrite fs_assoc. frun. pose proof (env_header smp F0 P pi t0 _ sbi W sih Hsi) as Hh. rewrite fs_assoc.
  fstep (lookup_inode_ok smp pi sbi mon sih P (sih_pi_addr sih) Hh). rewrite fs_assoc. frun.
  rewrite (we_type _ _ _ _ _ _ _ W). change (blk_type_to_shift 0) with (Some 12). cbn [fs_deref]. rewrite fs_assoc. frun.
  set (last := if sih_size sih =? 0 then 0 else _).
  assert (0 <= last < 2 ^ 62 /\ forall p a, t0 !! p = Some a -> 0 <= p <= last) as [Hl Hpl].
  { unfold last. destruct (Z.eqb_spec (sih_size sih) 0) as [E0|E0].
    - split; [lia|]. intros p a Ha. specialize (Hp p a Ha). destruct (we_cover _ _ _ _ _ _ _ W p a Ha). lia.
    - rewrite u64_small by lia. rewrite Z.shiftr_div_pow2 by lia. change (2 ^ 12) with 4096. split; [mlia|].
      intros p a Ha. specialize (Hp p a Ha). destruct (we_cover _ _ _ _ _ _ _ W p a Ha). split; [lia|mlia]. }
  destruct (delete_file_tree_run slab_garbage smp pi sbi mon sih P F0 0 last true) as
    (s & F & E & Hok & Hold & Hnew & Hall & _ & Hsame & Hg & Hnf); rewrite ?Ht; auto; try lia.
  { by apply (env_file smp F0 P pi t0 (fun b => b ∈ bs)). }
  cbv zeta in *. rewrite Ht in *. rewrite (cut_all last t0 Hpl) in *. fstep E.
  assert (forall x, pi <= x < pi + 128 -> nvm s x = m0 x) as Hpi.
  { intros x Hx. apply Hsame. intros p a Ha. pose proof (log_apart_pi smp sbi F0 P pi t0 _ W a (we_entry _ _ _ _ _ _ _ W p a Ha)). lia. }
  exists s, F. split; [done|]. split; [|split; [|done]].
  - split; auto; [apply Hok|]. intros x Hx. apply Hpi. lia.
  - intros b. split.
    + intros [?|(p & a & _ & Ha & Hb)]%Hnew; [by left|]. right. by exists p, a.
    + intros [?|(p & a & Ha & Hb)]; [auto|]. apply (Hall slab_serves). exists p, a. split; [by eapply Hpl|done].
Qed.

(** ** The log *)

Lemma free_log_ok s F mon sih k :
  stage s F -> Pi.log_head (nvm s) pi = chain_head bs -> Pi.log_tail (nvm s) pi <> 0 ->
  (forall b, b ∈ bs -> ~ F b) -> counting (S k) mon ->
  exists s' F' mon', free_inode_log slab_garbage smp jiffies_to_msecs e pi (World s mon sih) = Some (tt, World s' mon' sih) /\
    stage s' F' /\ (forall b, F' b <-> F b \/ b ∈ bs) /\ counting k mon' /\
    Pi.log_head (nvm s') pi = 0 /\ Pi.log_tail (nvm s') pi = 0 /\ Pi.valid (nvm s') pi = Pi.valid (nvm s) pi.
Proof.
  intros G Hhead Htail Hb Hr. unfold free_inode_log, nova_free_inode_log. cbn [w_sbi w_mon w_sih].
  assert (chain_head bs <> 0) as Hch.
  { destruct bs as [|b l] eqn:Eb; [by destruct (lo_some Hlog)|]. cbn. destruct (we_log _ _ _ _ _ _ _ W b) as [? _]; [left|lia]. }
  rewrite Hhead, (proj2 (Z.eqb_neq _ 0) Hch), (proj2 (Z.eqb_neq _ 0) Htail). cbn [orb].
  pose proof (stage_homed s F G) as [T1 T2 T3 (Hi & a & Ha & Ea)]. rewrite T3. cbn [mbind option_bind].
  rewrite (proj2 (Z.ltb_lt 1 _)) by lia.
  assert (nova_get_inode_by_ino_or_pi_addr smp s (Pi.nova_ino (nvm s) pi) 0 = Some (inr pi, s)) as E.
  { rewrite <- Ea at 2. unfold nova_get_inode_by_ino_or_pi_addr. cbn [Z.eqb]. pose proof (stage_size s F G).
    destruct (_ <? _); apply (wwb_get_present smp s P _ a); auto; lia. }
  rewrite E. cbn [mbind option_bind]. rewrite Hhead.
  set (s1 := with_nvm (Pi.set_log_head (Pi.set_log_tail (nvm s) pi 0) pi 0) s).
  assert (stage s1 F) as G1.
  { pose proof (stage_field s F G 8 80 0 ltac:(lia) ltac:(simpl; lia)) as G'.
    exact (stage_field _ F G' 8 72 0 ltac:(lia) ltac:(simpl; lia)). }
  assert (mapped s1) as Hm1.
  { destruct (we_mapped _ _ _ _ _ _ _ W). pose proof (sg_geom _ _ G1) as Hg. split; by rewrite (sg_virt _ _ Hg), ?(sg_blocks _ _ Hg). }
  destruct (free_chain_run slab_garbage s1 F pi bs) as (s2 & F2 & E2 & Hrl); [apply G1|done| | |apply Hlog| |by apply (stage_chain s1 F)|].
  { rewrite <- (we_type _ _ _ _ _ _ _ W). apply load_ext. intros x Hx. apply (sg_fields _ _ G1). simpl in Hx. lia. }
  { intros b Hin. split; [|by apply Hb]. rewrite (sg_blocks _ _ (sg_geom _ _ G1)). by apply (we_log _ _ _ _ _ _ _ W b Hin). }
  { pose proof (sg_geom _ _ G1) as [_ Gc _ Gp _ _ _ _ _]. intros i b H1 H2. unfold home. rewrite Gc, Gp. by apply (lo_runs Hlog i b). }
  rewrite E2. cbn [mbind option_bind]. pose proof Hrl as [R1 R2 R3 R4 R5 R6 R7].
  destruct (ready_count jiffies_to_msecs e (get_block_number_by_virt (virt_addr s2) pi) k mon Hr (block_number_nonneg _ _) pid_nonneg)
    as (mon' & E3 & Hr').
  unfold monitored_call, inode_page_count_increase. rewrite E3. cbn [mbind option_bind].
  exists s2, F2, mon'. split; [done|]. rewrite R7. split.
  { split; [by eapply same_geometry_trans; [apply G1|]|by eapply nodes_frame_trans; [apply G1|]|done| |]; rewrite R7; apply G1. }
  split; [intros b; split; [by apply R3|intros [?|?]; [by apply R2|by apply (R4 slab_serves)]]|]. split; [done|].
  cbn [s1 nvm with_nvm]. unfold Pi.set_log_head, Pi.set_log_tail, Pi.log_head, Pi.log_tail, Pi.valid.
  split; [by rewrite load_store_eq|]. split; [rewrite load_store_ne by lia; by rewrite load_store_eq|].
  by rewrite !load_store_ne by lia.
Qed.

(** ** The number *)

(** The maps of the inode numbers: [R] are the ranges; their nodes are not those of the free
    lists. *)
Context (R : Z -> list nova_range_node).
Hypothesis maps_ok : inodes_ok sbi R.
Hypothesis maps_apart : forall n, inode_node sbi n -> ~ block_node sbi n.
Hypothesis ino_used : used_ino sbi R ino.
Hypothesis ino_normal : ~ reserved_ino (cpus sbi) ino.

Lemma free_number_ok s F : stage s F ->
  exists s' R', nova_free_inuse_inode slab_garbage s ino = Some (0, s') /\ lb_free s' F /\ nvm s' = nvm s /\
    inodes_ok s' R' /\ forall x, used_ino s' R' x <-> used_ino sbi R x /\ x <> ino.
Proof.
  intros [G1 G2 G3 _ _]. pose proof (sg_cpus _ _ G1) as Ec. unfold reserved_ino in ino_normal.
  destruct (inodes_ok_frame sbi s R maps_ok maps_apart (sg_maps _ _ G1) Ec G2) as [Hok Hap].
  assert (forall x, used_ino s R x <-> used_ino sbi R x) as Hu by (intros x; unfold used_ino; by rewrite Ec).
  pose proof (we_ino _ _ _ _ _ _ _ W) as Hi. unfold NOVA_NORMAL_INODE_START in Hi.
  destruct (nova_free_inuse_inode_spec slab_garbage s R ino Hok ltac:(lia) ltac:(rewrite Ec; lia))
    as [[_ (s' & E & [[R' [I1 I2 _ _ I5]]|[Hno _]])]|[Hnu _]].
  - exists s', R'. split; [done|]. pose proof I2 as [_ J2 J3 J4 J5 J6 _ J8 J9]. split; [|split; [done|split; [done|]]].
    + apply (lb_local s); [done|]. split; auto. intros n Hn. destruct (range_nodes s !! n) as [r|] eqn:Er.
      * apply J9; [done|]. intros Hin. by apply (Hap n Hin).
      * by destruct (lb_live s F n G3 Hn).
    + intros x. by rewrite I5, Hu.
  - by destruct (slab_serves (range_nodes s)).
  - destruct Hnu. by apply Hu.
Qed.

Lemma free_inode_ok s F mon sih inode k :
  stage s F -> (forall x, pi <= x < pi + 128 -> nvm s x = m0 x) -> (forall b, b ∈ bs -> ~ F b) -> i_ino inode = ino ->
  counting (S (S k)) mon ->
  exists s' F' R' mon' sih', nova_free_inode slab_garbage smp jiffies_to_msecs e inode (World s mon sih) =
      Some (0, World s' mon' sih') /\ tree sih' = tree sih /\ lb_free s' F' /\ (forall b, F' b <-> F b \/ b ∈ bs) /\
    inodes_ok s' R' /\ (forall x, used_ino s' R' x <-> used_ino sbi R x /\ x <> ino) /\ counting k mon' /\
    Pi.log_head (nvm s') pi = 0 /\ Pi.log_tail (nvm s') pi = 0 /\ Pi.valid (nvm s') pi = 0.
Proof.
  intros G Hpi Hb Hi Hr. unfold nova_free_inode. fstep (stage_own s F G mon sih inode Hi). frun.
  set (m1 := if negb (Pi.valid (nvm s) pi =? 0) then Pi.set_valid (nvm s) pi 0 else nvm s).
  assert (stage (with_nvm m1 s) F) as G1.
  { unfold m1. destruct (negb _); [exact (stage_field s F G 1 2 0 ltac:(lia) ltac:(simpl; lia))|by destruct s]. }
  assert (Pi.valid m1 pi = 0 /\ Pi.log_head m1 pi = chain_head bs /\ Pi.log_tail m1 pi <> 0) as (V1 & V2 & V3).
  { assert (Pi.log_head (nvm s) pi = chain_head bs /\ Pi.log_tail (nvm s) pi <> 0) as [K1 K2].
    { rewrite <- (lo_head Hlog). pose proof (lo_tail Hlog) as Ht.
      assert (Pi.log_tail (nvm s) pi = Pi.log_tail m0 pi) as -> by (apply load_ext; intros x Hx; apply Hpi; simpl in Hx; lia).
      split; [|done]. apply load_ext. intros x Hx. apply Hpi. simpl in Hx. lia. }
    unfold m1. destruct (Z.eqb_spec (Pi.valid (nvm s) pi) 0); cbn [negb]; [done|].
    unfold Pi.set_valid, Pi.valid, Pi.log_head, Pi.log_tail in *. by rewrite load_store_eq, !load_store_ne by lia. }
  erewrite fs_step by (instantiate (1 := World (with_nvm m1 s) mon sih); instantiate (1 := tt); unfold m1;
    destruct (negb _); [done|by destruct s]).
  destruct (free_log_ok (with_nvm m1 s) F mon sih (S k) G1 V2 V3 Hb Hr) as (s2 & F2 & mon2 & E2 & G2 & HF2 & Hr2 & W1 & W2 & W3).
  fstep E2. frun. unfold lock_inode_page. rewrite fs_assoc. frun. rewrite (hm_lock _ _ _ (stage_homed s2 F2 G2)).
  cbn [fs_deref]. frun. pose proof (stage_field s2 F2 G2 8 32 0 ltac:(lia) ltac:(simpl; lia)) as G3.
  change (store 8 (nvm s2) (pi + 32) 0) with (Pi.set_i_blocks (nvm s2) pi 0) in G3.
  set (s3 := with_nvm (Pi.set_i_blocks (nvm s2) pi 0) s2) in *.
  destruct (ready_count_inode jiffies_to_msecs e pid_nonneg s3 mon2 sih pi k Hr2) as (mon3 & E3 & Hr3). fstep E3. frun.
  rewrite (stage_ino s3 F2 G3). destruct (free_number_ok s3 F2 G3) as (s4 & R' & E4 & HF4 & Hm4 & Hok4 & Hu4).
  eexists s4, F2, R', mon3, _. split; [by apply (on_sbi_run (fun s => nova_free_inuse_inode slab_garbage s ino) (World s3 mon3 _))|].
  split; [done|]. split; [done|]. split; [done|]. split; [done|]. split; [done|]. split; [done|]. rewrite Hm4.
  cbn [s3 nvm with_nvm]. unfold Pi.set_i_blocks, Pi.log_head, Pi.log_tail, Pi.valid in *.
  rewrite !load_store_ne by lia. rewrite W1, W2, W3. done.
Qed.

(** C5: Releasing a file.  [nova_evict_inode] on a regular file without links takes every page
    out of its tree and clears its log and its validity; afterwards the free blocks are
    exactly the old ones, the blocks of the file and the pages of its log, and the inode
    numbers in use are exactly the old ones but its own: nothing is lost and nothing of
    another file is given back.  The slab allocator serves every request ([slab_serves]; a
    block it fails for is lost), every run of blocks of the file belongs to one free list
    ([one_list], see inode.c:396), the file is not mapped into memory, all its pages lie below
    its size, its number is not a reserved one, and the counters of the monitor have room for
    two more writes. *)
Theorem evict_releases mon sih inode time k :
  tree sih = t0 -> sih_ino sih = ino -> mmap_pages sih = 0 -> 0 <= sih_size sih < 2 ^ 62 ->
  (forall p a, t0 !! p = Some a -> 4096 * p < sih_size sih) ->
  i_ino inode = ino -> S_ISREG (vfs_mode inode) = true -> vfs_nlink inode = 0 ->
  Z.land (vfs_flags inode) S_APPEND = 0 -> Z.land (vfs_flags inode) S_IMMUTABLE = 0 -> counting (S (S k)) mon ->
  exists sbi' F' R' mon' sih' inode',
    nova_evict_inode slab_garbage smp jiffies_to_msecs e inode false time (World sbi mon sih) =
      Some (inode', World sbi' mon' sih') /\ counting k mon' /\
    lb_free sbi' F' /\ (forall b, F' b <-> F0 b \/ data_block b \/ b ∈ bs) /\
    inodes_ok sbi' R' /\ (forall x, used_ino sbi' R' x <-> used_ino sbi R x /\ x <> ino) /\
    tree sih' = ∅ /\ vfs_size inode' = 0 /\
    Pi.log_head (nvm sbi') pi = 0 /\ Pi.log_tail (nvm sbi') pi = 0 /\ Pi.valid (nvm sbi') pi = 0.
Proof.
  intros Ht Hsi Hmm Hsz Hp Hi Hreg Hnl Hap Him Hr. unfold nova_evict_inode, Attr.find_inode. rewrite fs_assoc. frun.
  erewrite fs_step by (apply on_sbi_run; cbn [w_sbi]; by apply (FileWrite.find_inode smp sbi F0 P pi t0 _ W)).
  rewrite Hnl, Hap, Him. cbn [Z.eqb negb andb w_mon w_sih].
  destruct (content_ok mon sih inode Ht Hsi Hmm Hreg Hsz Hp) as (s & F & E & G & HF & Hpi). fstep E.
  destruct (free_inode_ok s F mon (with_tree ∅ sih) inode k G Hpi) as
    (s' & F' & R' & mon' & sih' & E' & Hts & Hfr & HF' & Hok & Hu & Hr' & V1 & V2 & V3); auto.
  { intros b Hin [Hf|(p & a & Ha & Hb)]%HF; [by apply (we_log _ _ _ _ _ _ _ W b Hin)|].
    by apply (we_data _ _ _ _ _ _ _ W b p a Hin Ha). }
  fstep E'. cbn [negb Z.eqb]. eexists s', F', R', mon', sih', _. split; [reflexivity|]. split; [done|]. split; [done|].
  split; [intros b; rewrite HF', HF; tauto|]. split_and!; done.
Qed.
End release.

(** The ranges of one map are edited in place. *)
Lemma ranges_edit_ok `{RbTreeLaws} sbi R c im Q h' rs m :
  inodes_ok sbi R -> (forall n, inode_node sbi n -> ~ block_node sbi n) ->
  0 <= c < cpus sbi -> nova_get_inode_map sbi c = Some im ->
  map_edit (range_nodes sbi) im (inuse_range_high (cpus sbi)) None Q h' im rs ->
  let sbi' := with_range_nodes h' (with_nvm m sbi) in
  inodes_ok sbi' (set_ranges c rs R) /\ forall n, inode_node sbi' n -> ~ block_node sbi' n.
Proof.
  intros Hok Hap Hc Eg He sbi'. split; [|exact Hap]. unfold sbi'. clear sbi' Hap. pose proof (map_updated_ok sbi R c im im None Q h' rs (s_inodes_used_count sbi) Hok Hc Eg) as Hu.
  specialize (Hu ltac:(intros n Hn; discriminate Hn) He).
  assert (<[Z.to_nat c := im]> (inode_maps sbi) = inode_maps sbi) as Em.
  { apply list_insert_id. unfold nova_get_inode_map in Eg. by rewrite (proj2 (Z.ltb_ge c 0)) in Eg by lia. }
  destruct Hu as [U1 U2 U3]. unfold nova_get_inode_map, map_updated, put_inode_map in *. destruct sbi; cbn in *.
  rewrite Em in *. split; [exact U1|exact U2|exact U3].
Qed.

Lemma maps_ok_nvm `{RbTree} m sbi R :
  inodes_ok sbi R /\ (forall n, inode_node sbi n -> ~ block_node sbi n) ->
  inodes_ok (with_nvm m sbi) R /\ (forall n, inode_node (with_nvm m sbi) n -> ~ block_node (with_nvm m sbi) n).
Proof. intros [[] Hap]. split; [by split|exact Hap]. Qed.

(** The nodes of the free lists are left alone; the pages of the log are described otherwise. *)
Lemma env_nodes `{RbTreeLaws} {L : LogBlocks} smp sbi F P pi t (logb logb' : Z -> Prop) m h :
  write_env smp (with_nvm m sbi) F P pi t logb -> (forall n, block_node sbi n -> h !! n = range_nodes sbi !! n) ->
  (forall b, logb b <-> logb' b) -> write_env smp (with_range_nodes h (with_nvm m sbi)) F P pi t logb'.
Proof.
  intros [X1 X2 X3 X4 X5 X6 X7 X8 X9 X10 X11 X12 X13 X14 X15 X16 X17 X18] Hn Hb.
  split; try assumption.
  - apply (homed_frame (with_nvm m sbi)); [exact X1|exact X2|destruct X18; unfold block_addr in *; lia|by split|done|done].
  - apply (lb_local (with_nvm m sbi)); [exact X4|]. by split.
  - intros p a Ha. destruct (X12 p a Ha) as (b & Hl & Hr). exists b. split; [by apply Hb|exact Hr].
  - intros b Hl%Hb. by apply X15.
  - intros b p a Hl%Hb. by apply X16.
  - intros b Hin. apply X17. rewrite Hb. exact Hin.
Qed.

(** ** An example *)

Module ReleaseDemo.
Import RbList.RbList InodeTable.TableDemo Detect.DetectDemo FastGc.GcDemo Truncate.TruncateDemo FileWrite.WriteDemo.

(** The file of [WriteDemo], with a log of the one page 5; the numbers up to 40 of CPU 0 are in
    use. *)
Definition rl_nodes : node_heap := alter (fun r => RangeNode (range_low r) 20) 4%positive (range_nodes wr_sbi).
Definition rl_mem : memory := nova_set_next_page_address (nvm wr_sbi) (65536 + 4096 * 5) 0.
Definition rl_sbi : nova_sb_info := with_range_nodes rl_nodes (with_nvm rl_mem wr_sbi).
Definition rl_ranges : Z -> list nova_range_node := set_ranges 0 [RangeNode 0 20] R.
Definition rl_inode : vfs_inode := with_vfs_nlink 0 wr_inode.
Definition rl_sih : nova_inode_info_header := with_sih_size 12288 cut_sih.

Lemma rl_map : exists im, nova_get_inode_map wr_sbi 0 = Some im /\ inorder (inode_inuse_tree im) = [4%positive].
Proof. eexists. split; vm_compute; reflexivity. Qed.

Lemma wr_maps : inodes_ok wr_sbi R /\ (forall n, inode_node wr_sbi n -> ~ block_node wr_sbi n).
Proof.
  destruct gc_fresh as (F & P & [_ H1 H2 _] & _ & _ & [_ _ _ _ _ Hg Hn]).
  destruct (inodes_ok_frame fs3 gc_alloc R H1 H2 (sg_maps _ _ Hg) (sg_cpus _ _ Hg) Hn) as [Hok Hap].
  unfold wr_sbi, gc_sbi. apply maps_ok_nvm, maps_ok_nvm. exact (conj Hok Hap).
Qed.

Lemma rl_four : inode_node wr_sbi 4%positive.
Proof.
  destruct rl_map as (im & Eg & Ei). exists 0, im. destruct wr_geometry as (_ & _ & Ec). rewrite Ec.
  split; [lia|]. split; [exact Eg|]. rewrite Ei. by left.
Qed.

Lemma rl_maps : inodes_ok rl_sbi rl_ranges /\ (forall n, inode_node rl_sbi n -> ~ block_node rl_sbi n).
Proof.
  destruct wr_maps as [Hok Hap]. destruct rl_map as (im & Eg & Ei). destruct wr_geometry as (_ & _ & Ec). pose proof (io_map _ _ Hok 0 im ltac:(rewrite Ec; lia) Eg) as Him.
  assert (map_edit (range_nodes wr_sbi) im (inuse_range_high (cpus wr_sbi)) None (fun x => in_ranges x [RangeNode 0 20])
    rl_nodes im [RangeNode 0 20]) as He.
  { apply (map_replace (range_nodes wr_sbi) im (inuse_range_high (cpus wr_sbi)) [RangeNode 0 7] 4%positive [] [] [] (RangeNode 0 7) []
      (fun r => RangeNode (range_low r) 20)); [exact Him| | | | |done].
    - split; [exact Ei|done|constructor|vm_compute; reflexivity|constructor].
    - apply (ranges_ok_mid []). unfold wf_range, RANGE_LIMIT. cbn. split_and!; try lia; try apply ranges_ok_nil; constructor.
    - reflexivity.
    - intros _. split; [reflexivity|]. vm_compute. discriminate. }
  exact (ranges_edit_ok wr_sbi R 0 im _ rl_nodes [RangeNode 0 20] rl_mem Hok Hap ltac:(rewrite Ec; lia) Eg He).
Qed.

Lemma rl_env : exists F P, write_env 0 rl_sbi F P gc_pi cut_tree (fun b => b ∈ [5]).
Proof.
  destruct wr_env as (F & P & W). exists F, P. destruct wr_geometry as (Ev & En & Ec).
  assert (file_same gc_pi cut_tree wr_sbi rl_mem) as Hs.
  { unfold rl_mem, nova_set_next_page_address, LAST_ENTRY, gc_pi. split; unfold block_addr; rewrite ?Ev; intros; apply store_disjoint;
      cbn; try lia. destruct (cut_tree_lookup _ _ H) as [-> _]. unfold cut_entry in *. lia. }
  pose proof (env_same 0 msecs_250 F P gc_pi cut_tree (fun b => b = 5) wr_sbi W rl_mem Hs) as W1.
  apply (env_nodes 0 wr_sbi F P gc_pi cut_tree (fun b => b = 5)); [exact W1| |].
  - intros n Hn. apply lookup_alter_ne. intros <-. exact (proj2 wr_maps _ rl_four Hn).
  - intros b. symmetry. apply list_elem_of_singleton.
Qed.

Lemma evict_releases_witness : exists mon sbi' F' R' mon' sih' inode',
  nova_evict_inode garbage 0 msecs_250 (demo_env 0) rl_inode false 7 (World rl_sbi mon rl_sih) =
    Some (inode', World sbi' mon' sih') /\
  lb_free sbi' F' /\ F' 5 /\ F' 6 /\ F' 8 /\ ~ used_ino sbi' R' 40 /\ used_ino sbi' R' 38 /\ tree sih' = ∅.
Proof.
  destruct rl_env as (F & P & W). destruct (counting_init 2 ltac:(lia)) as (mon & _ & Hr). destruct rl_maps as [Hok Hap].
  assert (Pi.nova_ino (nvm rl_sbi) gc_pi = 40) as Ei by (vm_compute; reflexivity).
  assert (virt_addr rl_sbi = 65536 /\ cpus rl_sbi = 2) as [Ev Ec] by (vm_compute; split; reflexivity).
  assert (forall p, entry_block (nvm rl_sbi) cut_entry p = 6 + p) as Hbk.
  { intros p. unfold entry_block. assert (Z.shiftr (We.block (nvm rl_sbi) cut_entry) PAGE_SHIFT = 6) as -> by (vm_compute; reflexivity).
    assert (We.pgoff (nvm rl_sbi) cut_entry = 0) as -> by (vm_compute; reflexivity). lia. }
  destruct (evict_releases garbage 0 msecs_250 (demo_env 0) ltac:(vm_compute; discriminate) table_slab rl_sbi F P gc_pi cut_tree [5] W)
    with (R := rl_ranges) (mon := mon) (sih := rl_sih) (inode := rl_inode) (time := 7) (k := 0%nat)
    as (sbi' & F' & R' & mon' & sih' & inode' & E & _ & Hf & HF & _ & Hu & Ht & _).
  - intros p q a b [-> Hp]%cut_tree_lookup [-> Hq]%cut_tree_lookup. rewrite !Hbk. lia.
  - split.
    + vm_compute. reflexivity.
    + discriminate.
    + vm_compute. discriminate.
    + apply NoDup_singleton.
    + intros i b _ H2. destruct i; discriminate H2.
    + rewrite Ev. apply log_chain_cons_iff. split; [vm_compute; reflexivity|]. intros i c Hi. discriminate Hi.
  - exact Hok.
  - exact Hap.
  - rewrite Ei. unfold used_ino. rewrite Ec. change (40 mod 2) with 0. apply in_ranges_cons. left. unfold in_range. cbn. mlia.
  - rewrite Ei, Ec. vm_compute. intros Hx. apply Hx. reflexivity.
  - reflexivity.
  - exact (eq_sym Ei).
  - reflexivity.
  - change (sih_size rl_sih) with 12288. lia.
  - intros p a [-> Hp]%cut_tree_lookup. change (sih_size rl_sih) with 12288. lia.
  - exact (eq_sym Ei).
  - reflexivity.
  - reflexivity.
  - reflexivity.
  - reflexivity.
  - exact Hr.
  - exists mon, sbi', F', R', mon', sih', inode'. split; [exact E|]. split; [exact Hf|]. rewrite !HF, !Hu, Ei.
    split; [right; right; by left|]. split; [right; left; exists 0, cut_entry; rewrite Hbk; by split|].
    split; [right; left; exists 2, cut_entry; rewrite Hbk; by split|]. split; [intros [_ Hx]; by apply Hx|]. split; [|exact Ht].
    split; [|discriminate]. unfold used_ino. rewrite Ec. change (38 mod 2) with 0. apply in_ranges_cons. left. unfold in_range. cbn. mlia.
Defined.
End ReleaseDemo.
