(* ===== verification/Vfs.v ===== *)
(** * Inodes in memory (inode.c, bbuild.c)

    The calls of the VFS on names work on several inodes at once.  The state of this file has
    the inodes in memory, by their numbers, beside the file system and the monitor; an
    operation on one inode is run on its part of the state.  The file has the creation of an
    inode in memory, [nova_new_vfs_inode], and its reading from the device, [nova_iget]. *)

From S2P Require Import Prelude Layout RangeTree RbList State Balloc BallocFacts BallocSpec.
From S2P Require Import BallocInit BallocTheorems TreeEdits InodeMap LogBlocks InodeTable.
From S2P Require Import Monitor Histogram HashTable Records KnapSack Detect WriteCount Migrate.
From S2P Require Import LogPages World InodeLog FileTree FileData Directory Attr.
#[local] Open Scope word_scope.

Record vfs_state := Vfs {
  v_sbi : nova_sb_info;
  v_mon : monitor;
  icache : gmap Z (vfs_inode * nova_inode_info_header);
  next_generation : Z;
}.

Definition vfs (A : Type) : Type := vfs_state -> option (A * vfs_state).

#[export] Instance vfs_ret : MRet vfs := fun _ x v => Some (x, v).
#[export] Instance vfs_bind : MBind vfs := fun _ _ k c v =>
  match c v with
  | Some (x, v') => k x v'
  | None => None
  end.

Definition vfs_fault {A} : vfs A := fun _ => None.
Definition vfs_deref {A} (o : option A) : vfs A := match o with Some x => mret x | None => vfs_fault end.

(** An operation on the file system, one on an inode in memory with the header [sih] that is
    not cached, and one on the cached inode [ino], which is stored back. *)
Definition on_fs {A} (f : nova_sb_info -> monitor -> option (A * nova_sb_info * monitor)) : vfs A := fun v =>
  match f (v_sbi v) (v_mon v) with
  | Some (x, sbi, m) => Some (x, Vfs sbi m (icache v) (next_generation v))
  | None => None
  end.

Definition on_header {A} (sih : nova_inode_info_header) (c : fs A) : vfs (A * nova_inode_info_header) := fun v =>
  match c (World (v_sbi v) (v_mon v) sih) with
  | Some (x, World sbi m sih) => Some ((x, sih), Vfs sbi m (icache v) (next_generation v))
  | None => None
  end.

Definition put_inode (ino : Z) (x : vfs_inode * nova_inode_info_header) : vfs unit := fun v =>
  Some (tt, Vfs (v_sbi v) (v_mon v) (<[ino := x]> (icache v)) (next_generation v)).

Definition on_inode {A} (ino : Z) (f : vfs_inode -> fs (A * vfs_inode)) : vfs A := fun v =>
  match icache v !! ino with
  | Some (inode, sih) =>
    match f inode (World (v_sbi v) (v_mon v) sih) with
    | Some ((x, inode), World sbi m sih) => Some (x, Vfs sbi m (<[ino := (inode, sih)]> (icache v)) (next_generation v))
    | None => None
    end
  | None => None
  end.

(** An operation that does not change the fields of [struct inode]; reading and changing them. *)
Definition at_inode {A} (ino : Z) (f : vfs_inode -> fs A) : vfs A :=
  on_inode ino (fun inode => x ← f inode; mret (x, inode)).
Definition get_inode (ino : Z) : vfs vfs_inode := fun v =>
  match icache v !! ino with Some (inode, _) => Some (inode, v) | None => None end.
Definition edit_inode (ino : Z) (f : vfs_inode -> vfs_inode) : vfs unit :=
  on_inode ino (fun inode => mret (tt, f inode)).
Definition get_mem : vfs memory := fun v => Some (nvm (v_sbi v), v).
Definition put_mem (f : memory -> memory) : vfs unit := fun v =>
  Some (tt, Vfs (with_nvm (f (nvm (v_sbi v))) (v_sbi v)) (v_mon v) (icache v) (next_generation v)).

(** [atomic_add_return(1, &sbi->next_generation)] *)
Definition add_generation : vfs Z := fun v =>
  let g := i32 (next_generation v + 1) in Some (g, Vfs (v_sbi v) (v_mon v) (icache v) g).

(** [struct dentry]: its name in the memory of the kernel, and its inode. *)
Record dentry := Dentry {
  d_km : memory;
  d_name : Z;
  d_len : Z;
  d_inode : option Z;
}.

Definition d_instantiate (d : dentry) (ino : Z) : dentry := Dentry (d_km d) (d_name d) (d_len d) (Some ino).

(** [enum nova_new_inode_type] *)
Inductive nova_new_inode_type := TYPE_CREATE | TYPE_MKNOD | TYPE_SYMLINK | TYPE_MKDIR.

(** Flags that a new inode inherits, by its type (nova.h, include/uapi/linux/fs.h). *)
Definition FS_SECRM_FL : Z := 1.
Definition FS_UNRM_FL : Z := 2.
Definition FS_COMPR_FL : Z := 4.
Definition FS_NODUMP_FL : Z := 64.
Definition FS_COMPRBLK_FL : Z := 512.
Definition FS_NOCOMP_FL : Z := 1024.
Definition FS_JOURNAL_DATA_FL : Z := 16384.
Definition FS_NOTAIL_FL : Z := 32768.
Definition FS_TOPDIR_FL : Z := 131072.
Definition NOVA_FL_INHERITED : Z :=
  foldr Z.lor 0 [FS_SECRM_FL; FS_UNRM_FL; FS_COMPR_FL; FS_SYNC_FL; FS_NODUMP_FL; FS_NOATIME_FL; FS_COMPRBLK_FL;
                 FS_NOCOMP_FL; FS_JOURNAL_DATA_FL; FS_NOTAIL_FL; FS_DIRSYNC_FL].
Definition NOVA_REG_FLMASK : Z := u32 (Z.lnot (Z.lor FS_DIRSYNC_FL FS_TOPDIR_FL)).
Definition NOVA_OTHER_FLMASK : Z := Z.lor FS_NODUMP_FL FS_NOATIME_FL.

Definition nova_mask_flags (mode flags : Z) : Z :=
  let flags := Z.land flags NOVA_FL_INHERITED in
  if S_ISDIR mode then flags
  else if S_ISREG mode then Z.land flags NOVA_REG_FLMASK
  else Z.land flags NOVA_OTHER_FLMASK.

(** [ULONG_MAX] *)
Definition nova_init_header (i_mode : Z) (sih : nova_inode_info_header) : nova_inode_info_header :=
  InodeHeader ∅ ∅ i_mode 0 0 (sih_ino sih) 0 0 (u64 (-1)) 0 (valid_bytes sih) (last_setattr sih) (last_link_change sih).

(** [init_special_inode] of fs/inode.c. *)
Definition init_special_inode (inode : vfs_inode) (mode rdev : Z) : vfs_inode :=
  VfsInode (i_ino inode) (vfs_size inode) (vfs_blocks inode) (vfs_mtime inode) (vfs_nlink inode) (vfs_ctime inode)
    (vfs_atime inode) mode (vfs_uid inode) (vfs_gid inode) (vfs_flags inode) (vfs_generation inode)
    (if S_ISCHR mode || S_ISBLK mode then rdev else vfs_rdev inode).

(** The fields of [struct inode] that a new inode gets from its creation. *)
Definition new_fields (inode : vfs_inode) (size time generation : Z) : vfs_inode :=
  VfsInode (i_ino inode) size 0 time (vfs_nlink inode) time time (vfs_mode inode) (vfs_uid inode) (vfs_gid inode)
    (vfs_flags inode) (u32 generation) (vfs_rdev inode).
Definition with_i_ino (ino : Z) (inode : vfs_inode) : vfs_inode :=
  VfsInode ino (vfs_size inode) (vfs_blocks inode) (vfs_mtime inode) (vfs_nlink inode) (vfs_ctime inode)
    (vfs_atime inode) (vfs_mode inode) (vfs_uid inode) (vfs_gid inode) (vfs_flags inode) (vfs_generation inode)
    (vfs_rdev inode).

Section operations.
Context `{RbTree} (slab_garbage : nova_range_node) (smp : Z) (jiffies_to_msecs : Z -> Z) (e : env).
Context (garbage : Z) (radix_nomem : Z -> bool) (nova_base_address : Z).
(** A fresh inode of the kernel, [None] when there is no memory, with the header its slab
    object has; the kernel's [inode_init_owner]. *)
Context (alloc_inode : option (vfs_inode * nova_inode_info_header)).
Context (inode_init_owner : vfs_inode -> vfs_inode -> Z -> vfs_inode).

(** [make_bad_inode] and the last [iput]: the inode is released. *)
Definition drop_bad_inode (inode : vfs_inode) (sih : nova_inode_info_header) (time : Z) : vfs unit :=
  _ ← on_header sih (nova_evict_inode slab_garbage smp jiffies_to_msecs e inode true time);
  mret tt.

(** ** New inodes *)

(** The part of [nova_new_vfs_inode] between the lookup of the directory, whose inode is at
    [diri], and [insert_inode_locked]: the inode in memory and its address. *)
Definition init_inode (type : nova_new_inode_type) (inode : vfs_inode) (diri pi_addr ino mode rdev : Z) :
    fs (vfs_inode * Z) :=
  pi ← get_block pi_addr;
  let inode := with_i_ino ino inode in
  let inode := match type with
               | TYPE_MKNOD => init_special_inode inode mode rdev
               | TYPE_MKDIR => with_vfs_nlink 2 inode
               | TYPE_CREATE | TYPE_SYMLINK => inode
               end in
  _ ← lock_inode_page ino;
  mem ← get_nvm;
  pi ← (if 1 <? Pi.nova_ino mem pi then lookup_inode smp ino 0 else mret pi);
  _ ← put_nvm (fun m =>
        let m := Pi.set_i_blk_type m pi NOVA_BLOCK_TYPE_4K in
        let m := Pi.set_i_flags m pi (nova_mask_flags mode (Pi.i_flags m diri)) in
        let m := Pi.set_log_head m pi 0 in
        let m := Pi.set_log_tail m pi 0 in
        Pi.set_nova_ino m pi ino);
  _ ← put_sih (fun sih => with_sih_ino ino (with_sih_pi_addr pi_addr (nova_init_header (vfs_mode inode) sih)));
  _ ← nova_update_inode smp jiffies_to_msecs e inode;
  mem ← get_nvm;
  mret (nova_set_inode_flags inode (Pi.i_flags mem pi), pi).

(** [nova_new_vfs_inode]: an error or the number of the inode, which is cached. *)
Definition nova_new_vfs_inode (type : nova_new_inode_type) (dir pi_addr ino mode size rdev time : Z) : vfs (Z + Z) :=
  match alloc_inode with
  | None => mret (inl (- ENOMEM))
  | Some (inode, sih) =>
    dir_inode ← get_inode dir;
    generation ← add_generation;
    let inode := new_fields (inode_init_owner inode dir_inode mode) size time generation in
    r ← at_inode dir (find_inode smp);
    match (r : unit + Z) with
    | inl _ => _ ← drop_bad_inode inode sih time; mret (inl (- EACCES))
    | inr diri =>
      r ← on_header sih (init_inode type inode diri pi_addr ino mode rdev);
      let '(inode, pi, sih) := (r : vfs_inode * Z * nova_inode_info_header) in
      cached ← (fun v => Some (icache v !! ino, v));
      match (cached : option (vfs_inode * nova_inode_info_header)) with
      | Some _ => _ ← drop_bad_inode inode sih time; mret (inl (- EINVAL))
      | None =>
        _ ← put_inode ino (inode, sih);
        _ ← at_inode ino (fun _ => count_migrate smp jiffies_to_msecs e garbage pi);
        mret (inr ino)
      end
    end
  end.

(** ** Reading an inode *)

Definition nova_rebuild_inode (pi_addr : Z) : fs Z :=
  pi ← get_block pi_addr;
  mem ← get_nvm;
  if Pi.valid mem pi =? 0 then mret (- EINVAL)
  else
    _ ← put_sih (fun sih => with_sih_ino (Pi.nova_ino mem pi) (nova_init_header (Pi.i_mode mem pi) sih));
    let type := Z.land (Pi.i_mode mem pi) S_IFMT in
    _ ← (if (type =? S_IFLNK) || (type =? S_IFREG) then
           nova_rebuild_file_inode_tree slab_garbage smp jiffies_to_msecs e garbage radix_nomem pi pi_addr
         else if type =? S_IFDIR then
           _ ← nova_rebuild_dir_inode_tree slab_garbage smp jiffies_to_msecs e garbage radix_nomem pi pi_addr; mret tt
         else
           _ ← (if negb (Pi.log_head mem pi =? 0) then
                  nova_rebuild_file_inode_tree slab_garbage smp jiffies_to_msecs e garbage radix_nomem pi pi_addr
                else mret tt);
           put_sih (with_sih_pi_addr pi_addr));
    mret 0.

Definition NOVA_ROOT_INO_START : Z := NOVA_SB_SIZE * 2.

(** The part of [nova_iget] behind [iget_locked]: the error and the inode. *)
Definition iget_new (inode : vfs_inode) (ino : Z) : fs (Z * vfs_inode) :=
  r ← (if ino =? NOVA_ROOT_INO then mret (0, NOVA_ROOT_INO_START)
       else on_sbi (fun sbi =>
              match nova_get_inode_address smp sbi ino garbage 0 0 with
              | Some (err, pi_addr, sbi) => Some ((err, pi_addr), sbi)
              | None => None
              end));
  let '(err, pi_addr) := (r : Z * Z) in
  if negb (err =? 0) then mret (err, inode)
  else if pi_addr =? 0 then mret (- EACCES, inode)
  else
    err ← nova_rebuild_inode pi_addr;
    if negb (err =? 0) then mret (err, inode)
    else
      r ← nova_read_inode inode pi_addr;
      let '(err, inode) := (r : Z * vfs_inode) in
      if negb (err =? 0) then mret (err, inode) else mret (0, with_i_ino ino inode).

(** [iget_locked] finds a cached inode or makes a new one with the number. *)
Definition nova_iget (ino time : Z) : vfs (Z + Z) :=
  cached ← (fun v => Some (icache v !! ino, v));
  match (cached : option (vfs_inode * nova_inode_info_header)) with
  | Some _ => mret (inr ino)
  | None =>
    match alloc_inode with
    | None => mret (inl (- ENOMEM))
    | Some (inode, sih) =>
      r ← on_header sih (iget_new (with_i_ino ino inode) ino);
      let '(err, inode, sih) := (r : Z * vfs_inode * nova_inode_info_header) in
      if negb (err =? 0) then _ ← drop_bad_inode inode sih time; mret (inl err)
      else _ ← put_inode ino (inode, sih); mret (inr ino)
    end
  end.
End operations.

(** ** Running the monad *)

Lemma vfs_step {A B} (c : vfs A) (k : A -> vfs B) v x v' : c v = Some (x, v') -> (c ≫= k) v = k x v'.
Proof. unfold mbind, vfs_bind. by intros ->. Qed.

Ltac vstep H := rewrite (vfs_step _ _ _ _ _ H).

Section monad.
Context {A : Type} (ino : Z) (v : vfs_state) (inode : vfs_inode) (sih : nova_inode_info_header).
Hypothesis cached : icache v !! ino = Some (inode, sih).

Lemma on_inode_run (f : vfs_inode -> fs (A * vfs_inode)) x inode' sbi m sih' :
  f inode (World (v_sbi v) (v_mon v) sih) = Some ((x, inode'), World sbi m sih') ->
  on_inode ino f v = Some (x, Vfs sbi m (<[ino := (inode', sih')]> (icache v)) (next_generation v)).
Proof. unfold on_inode. rewrite cached. by intros ->. Qed.

Lemma at_inode_run (f : vfs_inode -> fs A) x sbi m sih' :
  f inode (World (v_sbi v) (v_mon v) sih) = Some (x, World sbi m sih') ->
  at_inode ino f v = Some (x, Vfs sbi m (<[ino := (inode, sih')]> (icache v)) (next_generation v)).
Proof. intros E. unfold at_inode. apply on_inode_run. by fstep E. Qed.

(** An operation that leaves the header alone. *)
Lemma at_inode_same (f : vfs_inode -> fs A) x sbi m :
  f inode (World (v_sbi v) (v_mon v) sih) = Some (x, World sbi m sih) ->
  at_inode ino f v = Some (x, Vfs sbi m (icache v) (next_generation v)).
Proof. intros E. rewrite (at_inode_run f x sbi m sih E). by rewrite insert_id. Qed.
End monad.

Lemma on_header_run {A} sih (c : fs A) v x sbi m sih' :
  c (World (v_sbi v) (v_mon v) sih) = Some (x, World sbi m sih') ->
  on_header sih c v = Some ((x, sih'), Vfs sbi m (icache v) (next_generation v)).
Proof. unfold on_header. by intros ->. Qed.

Lemma on_fs_run {A} (f : nova_sb_info -> monitor -> option (A * nova_sb_info * monitor)) v x sbi m :
  f (v_sbi v) (v_mon v) = Some (x, sbi, m) -> on_fs f v = Some (x, Vfs sbi m (icache v) (next_generation v)).
Proof. unfold on_fs. by intros ->. Qed.
