(* ===== verification/Names.v ===== *)
(** * Names and links (namei.c, symlink.c)

    The calls of the VFS on names: they compose the inode tables, the directories, the logs of
    the inodes and the journal.  An inode is given by its number in the cache of Vfs; the name
    is that of a [dentry], and an operation returns its result with the dentry afterwards.
    The definitions follow the code; the theorems are in NameFacts. *)

From S2P Require Import Prelude Layout RangeTree RbList State Balloc BallocFacts BallocSpec.
From S2P Require Import BallocInit BallocTheorems TreeEdits InodeMap LogBlocks InodeTable.
From S2P Require Import Monitor Histogram HashTable Records KnapSack Detect WriteCount Migrate Journal.
From S2P Require Import LogPages World InodeLog FileTree FileData Directory Attr Vfs.
#[local] Open Scope word_scope.

Definition ENOENT : Z := 2.
Definition EIO : Z := 5.
Definition EMLINK : Z := 31.
Definition ENAMETOOLONG : Z := 36.
Definition ENOTEMPTY : Z := 39.
Definition NOVA_LINK_MAX : Z := 32000.
Definition NOVA_NAME_LEN : Z := 255.
(** [S_IRWXUGO] *)
Definition S_IRWXUGO : Z := 511.

(** [inc_nlink], [drop_nlink] and [clear_nlink] of fs/inode.c. *)
Definition inc_nlink (inode : vfs_inode) : vfs_inode := with_vfs_nlink (u32 (vfs_nlink inode + 1)) inode.
Definition drop_nlink (inode : vfs_inode) : vfs_inode := with_vfs_nlink (u32 (vfs_nlink inode - 1)) inode.
Definition drop_link_if (inode : vfs_inode) : vfs_inode :=
  if negb (vfs_nlink inode =? 0) then drop_nlink inode else inode.

(** The offset of a field with its width in the top byte. *)
Definition journal_addr (virt_addr a width : Z) : Z := Z.lor (nova_get_addr_off virt_addr a) (Z.shiftl width 56).

(** A string of one or two dots. *)
Definition dots (n : Z) : memory := fun i => if i <? n then 46 else 0.

Definition is_dir_init_entry (m : memory) (entry : Z) : bool :=
  ((De.name_len m entry =? 1) && (strncmp 1 m (De.name m entry) (dots 1) 0 =? 0)) ||
  ((De.name_len m entry =? 2) && (strncmp 2 m (De.name m entry) (dots 2) 0 =? 0)).

(** [nova_empty_dir], for a directory with the names [t]: the first four entries are looked at. *)
Definition nova_empty_dir (m : memory) (t : gmap Z Z) : bool :=
  let entries := radix_tree_gang_lookup 4 t 0 in
  if (2 <? Z.of_nat (length entries)) then false else forallb (is_dir_init_entry m) entries.

(** A pointer of [nova_get_inode], followed. *)
Definition follow (r : unit + Z) : vfs Z := match r with inr pi => mret pi | inl _ => vfs_fault end.

Section operations.
Context `{RbTree} (slab_garbage : nova_range_node) (smp : Z) (jiffies_to_msecs : Z -> Z) (e : env).
Context (garbage : Z) (radix_nomem : Z -> bool) (nova_base_address : Z).
Context (alloc_inode : option (vfs_inode * nova_inode_info_header)).
Context (inode_init_owner : vfs_inode -> vfs_inode -> Z -> vfs_inode).

#[local] Notation new_vfs_inode :=
  (nova_new_vfs_inode slab_garbage smp jiffies_to_msecs e garbage alloc_inode inode_init_owner).
#[local] Notation iget := (nova_iget slab_garbage smp jiffies_to_msecs e garbage radix_nomem alloc_inode).
#[local] Notation inode_of ino := (at_inode ino (find_inode smp)).

(** ** Lookup *)

(** The inode number of a name, 0 for none, and its entry. *)
Definition nova_inode_by_name (dir : Z) (km : memory) (name len : Z) : vfs (Z * option Z) :=
  at_inode dir (fun _ =>
    direntry ← nova_find_dentry km name len;
    match direntry with
    | None => mret (0, None)
    | Some de => mem ← get_nvm; mret (De.ino mem de, Some de)
    end).

(** An error, or the inode of the name if there is one. *)
Definition nova_lookup (dir : Z) (d : dentry) (time : Z) : vfs (Z + option Z) :=
  if NOVA_NAME_LEN <? d_len d then mret (inl (- ENAMETOOLONG))
  else
    r ← nova_inode_by_name dir (d_km d) (d_name d) (d_len d);
    let '(ino, _) := (r : Z * option Z) in
    if ino =? 0 then mret (inr None)
    else
      inode ← iget ino time;
      match inode with
      | inl err => if (err =? - ESTALE) || (err =? - ENOMEM) || (err =? - EACCES) then mret (inl (- EIO)) else mret (inl err)
      | inr ino => mret (inr (Some ino))
      end.

Definition nova_get_parent (child : Z) (time : Z) : vfs (Z + Z) :=
  r ← nova_inode_by_name child (dots 2) 0 2;
  let '(ino, de) := (r : Z * option Z) in
  match de with
  | None => mret (inl (- ENOENT))
  | Some _ => if ino =? 0 then mret (inl (- ENOENT)) else iget ino time
  end.

(** ** Transactions *)

(** [nova_lite_transaction_for_new_inode]: [pi] and [pidir] are addresses. *)
Definition nova_lite_transaction_for_new_inode (pi pidir pidir_tail : Z) : vfs unit :=
  on_fs (fun sbi m =>
    let tag := journal_addr (virt_addr sbi) in
    let entry := LiteEntry [tag (pidir + 80) 8; tag (pi + 2) 1; 0; 0]
                   [Pi.log_tail (nvm sbi) pidir; Pi.valid (nvm sbi) pi; 0; 0] in
    res ← nova_create_lite_transaction jiffies_to_msecs sbi m e entry (LiteEntry [] []) 1 smp;
    let '(journal_tail, sbi, m) := (res : Z * nova_sb_info * monitor) in
    let sbi := with_nvm (Pi.set_log_tail (nvm sbi) pidir pidir_tail) sbi in
    let sbi := with_nvm (Pi.set_valid (nvm sbi) pi 1) sbi in
    res ← monitored_call (inode_page_count_increase jiffies_to_msecs sbi e pi) sbi m;
    let '(_, sbi, m) := (res : unit * nova_sb_info * monitor) in
    res ← monitored_call (inode_page_count_increase jiffies_to_msecs sbi e pidir) sbi m;
    let '(_, sbi, m) := (res : unit * nova_sb_info * monitor) in
    res ← nova_commit_lite_transaction slab_garbage smp jiffies_to_msecs sbi m e journal_tail smp garbage;
    let '(sbi, m) := (res : nova_sb_info * monitor) in
    Some (tt, sbi, m)).

Definition link_transaction (pi pidir pi_tail pidir_tail invalidate : Z) : vfs unit :=
  on_fs (fun sbi m =>
    res ← nova_lite_transaction_for_time_and_link slab_garbage smp jiffies_to_msecs sbi m e pi pidir pi_tail
            pidir_tail invalidate garbage;
    let '(sbi, m) := (res : nova_sb_info * monitor) in
    Some (tt, sbi, m)).

(** ** Entries *)

(** [nova_append_link_change_entry]: the error and the new tail. *)
Definition nova_append_link_change_entry (pi : Z) (inode : vfs_inode) (tail : Z) : fs (Z * Z) :=
  curr_p ← nova_get_append_head slab_garbage smp jiffies_to_msecs e garbage pi tail Lc.length;
  if curr_p =? 0 then mret (- ENOMEM, 0)
  else
    entry ← get_block curr_p;
    _ ← put_nvm (fun m =>
          let m := store 1 m entry LINK_CHANGE in
          let m := store 2 m (entry + 2) (vfs_nlink inode) in
          let m := store 4 m (entry + 4) (vfs_ctime inode) in
          let m := store 4 m (entry + 8) (vfs_flags inode) in
          store 4 m (entry + 12) (vfs_generation inode));
    _ ← put_sih (with_last_link_change curr_p);
    mret (0, curr_p ⊞ Lc.length).

Definition append_link (ino pi : Z) : vfs (Z * Z) :=
  at_inode ino (fun inode => nova_append_link_change_entry pi inode 0).

(** [nova_add_dentry] and [nova_remove_dentry] in the directory [dir]: the result and the new
    tail, which stays [tail] when it is not set. *)
Definition add_dentry (dir : Z) (d : dentry) (ino inc_link tail time : Z) : vfs (Z * Z) :=
  on_inode dir (fun inode =>
    r ← nova_add_dentry slab_garbage smp jiffies_to_msecs e garbage radix_nomem inode (d_km d) (d_name d) (d_len d)
          ino inc_link tail time;
    let '(ret, new_tail, inode) := (r : Z * option Z * vfs_inode) in
    mret ((ret, default tail new_tail), inode)).

Definition remove_dentry (dir : Z) (d : dentry) (dec_link tail time : Z) : vfs (Z * Z) :=
  on_inode dir (fun inode =>
    r ← nova_remove_dentry slab_garbage smp jiffies_to_msecs e garbage inode (d_km d) (d_name d) (d_len d)
          dec_link tail time;
    let '(ret, new_tail, inode) := (r : Z * option Z * vfs_inode) in
    mret ((ret, default tail new_tail), inode)).

(** [nova_new_nova_inode]: the number, 0 for none, and the offset of the inode. *)
Definition new_number : vfs (Z * Z) :=
  on_fs (fun sbi m =>
    match nova_new_nova_inode smp sbi 0 garbage with
    | Some (ino, pi_addr, sbi) => Some ((ino, pi_addr), sbi, m)
    | None => None
    end).

(** The pointer of an offset, for a caller that follows it. *)
Definition pointer_of (off : Z) : vfs Z := fun v =>
  if off =? 0 then None else Some (nova_get_block (virt_addr (v_sbi v)) off, v).

(** ** New files *)

(** [nova_create] and [nova_mknod] differ in the type and the device. *)
Definition create_node (type : nova_new_inode_type) (dir : Z) (d : dentry) (mode rdev time : Z) : vfs (Z * dentry) :=
  r ← inode_of dir;
  match (r : unit + Z) with
  | inl _ => mret (0, d)
  | inr pidir =>
    r ← new_number;
    let '(ino, pi_addr) := (r : Z * Z) in
    if ino =? 0 then mret (0, d)
    else
      r ← add_dentry dir d ino 0 0 time;
      let '(err, tail) := (r : Z * Z) in
      if negb (err =? 0) then mret (err, d)
      else
        inode ← new_vfs_inode type dir pi_addr ino mode 0 rdev time;
        match inode with
        | inl _ => mret (err, d)
        | inr ino =>
          let d := d_instantiate d ino in
          pi ← pointer_of pi_addr;
          _ ← nova_lite_transaction_for_new_inode pi pidir tail;
          mret (err, d)
        end
  end.

Definition nova_create (dir : Z) (d : dentry) (mode time : Z) : vfs (Z * dentry) :=
  create_node TYPE_CREATE dir d mode 0 time.

Definition nova_mknod (dir : Z) (d : dentry) (mode rdev time : Z) : vfs (Z * dentry) :=
  create_node TYPE_MKNOD dir d mode rdev time.

(** ** Symbolic links *)

(** The entry of the name block, at [entry]. *)
Definition symlink_entry (m : memory) (entry name_blocknr time len : Z) : memory :=
  let m := store 8 m (entry + 8) 0 in
  let m := store 4 m (entry + 16) 1 in
  let m := store 4 m (entry + 20) 0 in
  let m := store 8 m entry (nova_get_block_off name_blocknr) in
  let m := store 4 m (entry + 24) time in
  let m := nova_set_entry_type m entry FILE_WRITE in
  store 8 m (entry + 32) (len + 1).

Definition nova_block_symlink (pi log_block name_blocknr : Z) (km : memory) (symname len time : Z) : fs Z :=
  blockp ← get_block (nova_get_block_off name_blocknr);
  _ ← put_nvm (fun m => copy_between m blockp km symname (u32 len));
  sbi ← get_sbi;
  _ ← log_block_write_count_increase jiffies_to_msecs e (get_block_number_by_virt (virt_addr sbi) blockp);
  _ ← put_nvm (fun m => store 1 m (blockp + len) 0);
  entry ← get_block log_block;
  _ ← put_nvm (fun m => symlink_entry m entry name_blocknr time len);
  pi ← reget_inode smp pi;
  _ ← put_sih (with_log_pages 1);
  _ ← put_nvm (fun m => Pi.set_log_head m pi log_block);
  _ ← nova_update_tail_wwb smp e nova_base_address pi (log_block ⊞ We.length);
  mret 0.

(** The target of a link. *)
Definition nova_get_link (inode : vfs_inode) : fs Z :=
  pi ← own_inode smp inode;
  mem ← get_nvm;
  entry ← get_block (Pi.log_head mem pi);
  get_block (BLOCK_OFF (We.block mem entry)).

(** The blocks of a new link and their contents: [None] when all went well, [Some err]
    otherwise. *)
Definition symlink_blocks (inode : vfs_inode) (km : memory) (symname len time : Z) : fs (option Z * Z) :=
  pi ← own_inode smp inode;
  r ← on_sbi (fun sbi =>
        match nova_allocate_inode_log_pages smp sbi pi 1 garbage 0 with
        | Some (allocated, log_block, sbi) => Some ((allocated, log_block), sbi)
        | None => None
        end);
  let '(allocated, log_block) := (r : Z * Z) in
  if negb (allocated =? 1) || (log_block =? 0) then mret (Some allocated, pi)
  else
    r ← on_sbi (fun sbi =>
          match nova_new_data_blocks sbi smp pi 0 1 1 with
          | Some (allocated, name_blocknr, sbi) => Some ((allocated, name_blocknr), sbi)
          | None => None
          end);
    let '(allocated, name_blocknr) := (r : Z * Z) in
    if negb (allocated =? 1) || (name_blocknr =? 0) then
      _ ← on_sbi (fun sbi => nova_free_log_blocks slab_garbage sbi pi (Z.shiftr log_block PAGE_SHIFT) 1);
      mret (Some allocated, pi)
    else
      _ ← put_nvm (fun m => Pi.set_i_blocks m pi 2);
      _ ← count_inode jiffies_to_msecs e pi;
      _ ← nova_block_symlink pi log_block name_blocknr km symname len time;
      mret (None, pi).

(** [symname] is a string of length [len] in [km]. *)
Definition nova_symlink (dir : Z) (d : dentry) (km : memory) (symname len time : Z) : vfs (Z * dentry) :=
  if s_blocksize <? len + 1 then mret (- ENAMETOOLONG, d)
  else
    r ← inode_of dir;
    match (r : unit + Z) with
    | inl _ => mret (- ENAMETOOLONG, d)
    | inr pidir =>
      r ← new_number;
      let '(ino, pi_addr) := (r : Z * Z) in
      if ino =? 0 then mret (- ENAMETOOLONG, d)
      else
        r ← add_dentry dir d ino 0 0 time;
        let '(err, tail) := (r : Z * Z) in
        if negb (err =? 0) then mret (err, d)
        else
          inode ← new_vfs_inode TYPE_SYMLINK dir pi_addr ino (Z.lor S_IFLNK S_IRWXUGO) len 0 time;
          match inode with
          | inl err => mret (err, d)
          | inr ino =>
            r ← at_inode ino (fun inode => symlink_blocks inode km symname len time);
            let '(failed, pi) := (r : option Z * Z) in
            match failed with
            | Some err => mret (err, d)
            | None =>
              let d := d_instantiate d ino in
              _ ← nova_lite_transaction_for_new_inode pi pidir tail;
              mret (err, d)
            end
          end
    end.

(** ** Links *)

Definition nova_link (ino dir : Z) (d : dentry) (time : Z) : vfs (Z * dentry) :=
  pi ← inode_of ino;
  inode ← get_inode ino;
  if NOVA_LINK_MAX <=? vfs_nlink inode then mret (- EMLINK, d)
  else
    r ← inode_of dir;
    match (r : unit + Z) with
    | inl _ => mret (- EINVAL, d)
    | inr pidir =>
      r ← add_dentry dir d (i_ino inode) 0 0 time;
      let '(err, pidir_tail) := (r : Z * Z) in
      if negb (err =? 0) then mret (err, d)
      else
        _ ← edit_inode ino (fun inode => inc_nlink (with_vfs_ctime time inode));
        pi ← follow pi;
        r ← append_link ino pi;
        let '(err, pi_tail) := (r : Z * Z) in
        if negb (err =? 0) then mret (err, d)
        else
          _ ← link_transaction pi pidir pi_tail pidir_tail 0;
          mret (err, d_instantiate d ino)
    end.

Definition nova_unlink (dir : Z) (d : dentry) (time : Z) : vfs Z :=
  ino ← vfs_deref (d_inode d);
  pi ← inode_of ino;
  r ← inode_of dir;
  match (r : unit + Z) with
  | inl _ => mret (- ENOMEM)
  | inr pidir =>
    r ← remove_dentry dir d 0 0 time;
    let '(retval, pidir_tail) := (r : Z * Z) in
    if negb (retval =? 0) then mret retval
    else
      dir_inode ← get_inode dir;
      inode ← get_inode ino;
      let invalidate := if vfs_nlink inode =? 1 then 1 else 0 in
      _ ← edit_inode ino (fun inode => drop_link_if (with_vfs_ctime (vfs_ctime dir_inode) inode));
      pi ← follow pi;
      r ← append_link ino pi;
      let '(retval, pi_tail) := (r : Z * Z) in
      if negb (retval =? 0) then mret retval
      else
        _ ← link_transaction pi pidir pi_tail pidir_tail invalidate;
        mret 0
  end.

(** ** Directories *)

(** What [nova_mkdir] does with the new inode [ino]: the address of its inode. *)
Definition mkdir_entries (ino dir pi_addr : Z) : vfs Z :=
  at_inode ino (fun inode =>
    pi ← own_inode smp inode;
    _ ← nova_append_dir_init_entries smp jiffies_to_msecs e garbage nova_base_address pi (i_ino inode) dir;
    _ ← nova_rebuild_dir_inode_tree slab_garbage smp jiffies_to_msecs e garbage radix_nomem pi pi_addr;
    mret pi).

Definition nova_mkdir (dir : Z) (d : dentry) (mode time : Z) : vfs (Z * dentry) :=
  dir_inode ← get_inode dir;
  if NOVA_LINK_MAX <=? vfs_nlink dir_inode then mret (- EMLINK, d)
  else
    r ← new_number;
    let '(ino, pi_addr) := (r : Z * Z) in
    if ino =? 0 then mret (- EMLINK, d)
    else
      r ← add_dentry dir d ino 1 0 time;
      let '(err, tail) := (r : Z * Z) in
      if negb (err =? 0) then mret (err, d)
      else
        inode ← new_vfs_inode TYPE_MKDIR dir pi_addr ino (Z.lor S_IFDIR mode) s_blocksize 0 time;
        match inode with
        | inl err => mret (err, d)
        | inr ino =>
          pi ← mkdir_entries ino (i_ino dir_inode) pi_addr;
          pidir ← at_inode dir (own_inode smp);
          mem ← get_mem;
          _ ← edit_inode dir (fun dir => inc_nlink (with_vfs_blocks (Pi.i_blocks mem pidir) dir));
          _ ← nova_lite_transaction_for_new_inode pi pidir tail;
          mret (err, d_instantiate d ino)
        end.

Definition empty_dir (ino : Z) : vfs bool :=
  at_inode ino (fun _ => mem ← get_nvm; sih ← get_sih; mret (nova_empty_dir mem (tree sih))).

Definition nova_rmdir (dir : Z) (d : dentry) (time : Z) : vfs Z :=
  ino ← vfs_deref (d_inode d);
  pi ← inode_of ino;
  r ← inode_of dir;
  match (r : unit + Z) with
  | inl _ => mret (- EINVAL)
  | inr pidir =>
    r ← nova_inode_by_name dir (d_km d) (d_name d) (d_len d);
    if (r : Z * option Z).1 =? 0 then mret (- ENOENT)
    else
      empty ← empty_dir ino;
      if negb empty then mret (- ENOTEMPTY)
      else
        r ← remove_dentry dir d (-1) 0 time;
        let '(err, pidir_tail) := (r : Z * Z) in
        if negb (err =? 0) then mret err
        else
          dir_inode ← get_inode dir;
          _ ← edit_inode ino (fun inode => with_vfs_ctime (vfs_ctime dir_inode) (with_vfs_nlink 0 inode));
          _ ← edit_inode dir drop_link_if;
          _ ← at_inode ino (fun _ => nova_delete_dir_tree);
          pi ← follow pi;
          r ← append_link ino pi;
          let '(err, pi_tail) := (r : Z * Z) in
          if negb (err =? 0) then mret err
          else
            _ ← link_transaction pi pidir pi_tail pidir_tail 1;
            mret err
  end.

(** ** Renaming *)

(** The transaction of [nova_rename]: the inode that is renamed at [old_pi], the directories at
    [old_pidir] and [new_pidir], [same] when they are one; [father] is the entry of the father
    that changes to [new_dir]; [new] the inode that loses its name, with its tail and whether
    it has no links left. *)
Definition rename_entry (virt_addr : Z) (m : memory) (old_pi old_pidir new_pidir : Z) (same : bool) (father : option Z) :
    nova_lite_journal_entry :=
  let tag := journal_addr virt_addr in
  let third := if same then (0, 0) else (tag (new_pidir + 80) 8, Pi.log_tail m new_pidir) in
  let fourth := match father with
                | Some f => if same then (0, 0) else (tag (f + 12) 8, De.ino m f)
                | None => (0, 0)
                end in
  LiteEntry [tag (old_pi + 80) 8; tag (old_pidir + 80) 8; third.1; fourth.1]
    [Pi.log_tail m old_pi; Pi.log_tail m old_pidir; third.2; fourth.2].

Definition rename_entry1 (virt_addr : Z) (m : memory) (new : option (Z * Z * bool)) : nova_lite_journal_entry :=
  match new with
  | None => LiteEntry [] []
  | Some (new_pi, _, unlinked) =>
    let second := if (unlinked : bool) then (journal_addr virt_addr (new_pi + 2) 1, Pi.valid m new_pi) else (0, 0) in
    LiteEntry [journal_addr virt_addr (new_pi + 80) 8; second.1; 0; 0] [Pi.log_tail m new_pi; second.2; 0; 0]
  end.

Definition rename_transaction (old_pi old_pidir new_pidir old_pi_tail old_tail new_tail new_dir : Z) (same : bool)
    (father : option Z) (new : option (Z * Z * bool)) : vfs unit :=
  on_fs (fun sbi m =>
    let entry := rename_entry (virt_addr sbi) (nvm sbi) old_pi old_pidir new_pidir same father in
    let entry1 := rename_entry1 (virt_addr sbi) (nvm sbi) new in
    res ← nova_create_lite_transaction jiffies_to_msecs sbi m e entry entry1 (if new then 2 else 1) smp;
    let '(journal_tail, sbi, m) := (res : Z * nova_sb_info * monitor) in
    let sbi := with_nvm (Pi.set_log_tail (nvm sbi) old_pi old_pi_tail) sbi in
    res ← monitored_call (inode_page_count_increase jiffies_to_msecs sbi e old_pi) sbi m;
    let '(_, sbi, m) := (res : unit * nova_sb_info * monitor) in
    let sbi := with_nvm (Pi.set_log_tail (nvm sbi) old_pidir old_tail) sbi in
    res ← monitored_call (inode_page_count_increase jiffies_to_msecs sbi e old_pidir) sbi m;
    let '(_, sbi, m) := (res : unit * nova_sb_info * monitor) in
    res ← (if negb (old_pidir =? new_pidir) then
             let sbi := with_nvm (Pi.set_log_tail (nvm sbi) new_pidir new_tail) sbi in
             monitored_call (inode_page_count_increase jiffies_to_msecs sbi e new_pidir) sbi m
           else Some (tt, sbi, m));
    let '(_, sbi, m) := (res : unit * nova_sb_info * monitor) in
    let sbi := match father with
               | Some f => with_nvm (store 8 (nvm sbi) (f + 12) new_dir) sbi
               | None => sbi
               end in
    let sbi := match new with
               | Some (new_pi, new_pi_tail, unlinked) =>
                 let mem := Pi.set_log_tail (nvm sbi) new_pi new_pi_tail in
                 with_nvm (if (unlinked : bool) then Pi.set_valid mem new_pi 0 else mem) sbi
               | None => sbi
               end in
    res ← nova_commit_lite_transaction slab_garbage smp jiffies_to_msecs sbi m e journal_tail smp garbage;
    let '(sbi, m) := (res : nova_sb_info * monitor) in
    Some (tt, sbi, m)).

(** The tests at the beginning: [Some err] refuses. *)
Definition rename_refused (old_is_dir : bool) (new_dir : Z) (new_inode : option Z) : vfs (option Z) :=
  match new_inode with
  | Some new => if old_is_dir then empty ← empty_dir new; mret (if (empty : bool) then None else Some (- ENOTEMPTY))
                else mret None
  | None => if old_is_dir then
              dir ← get_inode new_dir; mret (if NOVA_LINK_MAX <=? vfs_nlink dir then Some (- EMLINK) else None)
            else mret None
  end.

(** The inode that loses its name to the renamed one loses its link, a directory two: an error,
    or its address, the tail of its log and whether it has no links left. *)
Definition unlink_target (old_is_dir : bool) (new time : Z) : vfs (Z + Z * Z * bool) :=
  new_pi ← inode_of new;
  _ ← edit_inode new (fun inode =>
        let inode := with_vfs_ctime time inode in
        drop_link_if (if old_is_dir then drop_link_if inode else inode));
  new_pi ← follow new_pi;
  r ← append_link new new_pi;
  let '(err, new_pi_tail) := (r : Z * Z) in
  if negb (err =? 0) then mret (inl err)
  else
    inode ← get_inode new;
    mret (inr (new_pi, new_pi_tail, vfs_nlink inode =? 0)).

Definition nova_rename (old_dir : Z) (old_d : dentry) (new_dir : Z) (new_d : dentry) (time : Z) : vfs Z :=
  old ← vfs_deref (d_inode old_d);
  old_inode ← get_inode old;
  let is_dir := S_ISDIR (vfs_mode old_inode) in
  let new_inode := d_inode new_d in
  refused ← rename_refused is_dir new_dir new_inode;
  match (refused : option Z) with
  | Some err => mret err
  | None =>
    let dec_link := if is_dir then -1 else 0 in
    let inc_link := if is_dir then (if new_inode then 0 else 1) else 0 in
    new_pidir ← inode_of new_dir;
    old_pidir ← inode_of old_dir;
    old_pi ← inode_of old;
    _ ← edit_inode old (with_vfs_ctime time);
    old_pi ← follow old_pi;
    r ← append_link old old_pi;
    let '(err, old_pi_tail) := (r : Z * Z) in
    if negb (err =? 0) then mret err
    else
      let same := old_dir =? new_dir in
      mem ← get_mem;
      father ← (if is_dir && negb same then
                  head_addr ← pointer_of (Pi.log_head mem old_pi);
                  mret (Some (head_addr + NOVA_DIR_LOG_REC_LEN 1))
                else mret None);
      r ← (match new_inode with
           | Some _ => remove_dentry new_dir new_d 0 0 time
           | None => mret (0, 0)
           end);
      let '(err, new_tail) := (r : Z * Z) in
      if negb (err =? 0) then mret err
      else
        r ← add_dentry new_dir new_d (i_ino old_inode) inc_link new_tail time;
        let '(err, new_tail) := (r : Z * Z) in
        if negb (err =? 0) then mret err
        else
          _ ← (if negb (inc_link =? 0) then edit_inode new_dir inc_nlink else mret tt);
          let old_tail := if same then new_tail else 0 in
          r ← remove_dentry old_dir old_d dec_link old_tail time;
          let '(err, old_tail) := (r : Z * Z) in
          if negb (err =? 0) then mret err
          else
            _ ← (if dec_link <? 0 then edit_inode old_dir drop_nlink else mret tt);
            r ← (match new_inode with
                 | Some new => x ← unlink_target is_dir new time;
                               mret (match x with inl err => inl err | inr y => inr (Some y) end)
                 | None => mret (inr None)
                 end);
            match (r : Z + option (Z * Z * bool)) with
            | inl err => mret err
            | inr new =>
              old_pidir ← follow old_pidir;
              new_pidir ← follow new_pidir;
              dir ← get_inode new_dir;
              _ ← rename_transaction old_pi old_pidir new_pidir old_pi_tail old_tail new_tail (i_ino dir) same father new;
              mret 0
            end
  end.
End operations.
