(* ===== verification/Transaction.v ===== *)
(** * The transactions of the calls on names

    Each call on names ends with a transaction: the old values of the fields it changes go to
    the journal, the fields are changed, the journal is closed.  The lemmas give the state
    afterwards for a journal that is idle before. *)

From S2P Require Import Prelude Layout RangeTree RbList State Balloc BallocFacts BallocSpec.
From S2P Require Import BallocInit BallocTheorems TreeEdits InodeMap LogBlocks InodeTable.
From S2P Require Import Monitor Histogram HashTable Records KnapSack Detect WriteCount Migrate Journal.
From S2P Require Import LogPages World InodeLog WearBudget FileData Directory Attr Vfs Names.
#[local] Open Scope word_scope.

(** ** Entries *)

Lemma lor_u64 x y : 0 <= x < 2 ^ 64 -> 0 <= y < 2 ^ 64 -> 0 <= Z.lor x y < 2 ^ 64.
Proof.
  intros Hx Hy. split; [apply Z.lor_nonneg; lia|]. destruct (Z.eq_dec (Z.lor x y) 0) as [->|Hn]; [lia|].
  assert (0 <= Z.lor x y) by (apply Z.lor_nonneg; lia). apply Z.log2_lt_pow2; [lia|]. rewrite Z.log2_lor by lia.
  apply Z.max_lub_lt; (destruct (Z.eq_dec x 0) as [->|]; destruct (Z.eq_dec y 0) as [->|]; try (simpl; lia); apply Z.log2_lt_pow2; lia).
Qed.

Lemma journal_addr_range va x w : 0 <= w < 256 -> 0 <= journal_addr va x w < 18446744073709551616.
Proof.
  intros Hw. unfold journal_addr, nova_get_addr_off. apply lor_u64; [apply u64_range|].
  rewrite Z.shiftl_mul_pow2 by lia. change (2 ^ 64) with (256 * 2 ^ 56). nia.
Qed.

Lemma word_range m a : 0 <= load 8 m a < 18446744073709551616.
Proof. apply (load_range 8). Qed.

Lemma byte_range m a : 0 <= load 1 m a < 18446744073709551616.
Proof. pose proof (load_range 1 m a) as H. change (256 ^ Z.of_nat 1) with 256 in H. lia. Qed.

(** [entry_ok] proves that an entry is well-formed. *)
Ltac entry_ok := split; [reflexivity|]; split; [reflexivity|];
  repeat (apply Forall_cons; split; [first [apply journal_addr_range; lia | apply word_range | apply byte_range | lia]|]); apply Forall_nil; exact I.

Lemma link_entry_wf sbi pi pidir inv : entry_wf (link_entry sbi pi pidir inv).
Proof. unfold link_entry. destruct (negb _); entry_ok. Qed.

(** ** Closing the journal *)

(** Where a transaction of CPU [cpu] with journal page [pg] writes besides its fields. *)
Definition journal_byte (sbi : nova_sb_info) (cpu pg x : Z) : Prop :=
  block_addr sbi pg <= x < block_addr sbi (pg + 1) \/ pair_addr sbi cpu <= x < pair_addr sbi cpu + 16.

Lemma journal_idle_carry sbi sbi' cpu pg k :
  journal_idle sbi cpu pg k -> virt_addr sbi' = virt_addr sbi -> num_blocks sbi' = num_blocks sbi -> cpus sbi' = cpus sbi ->
  (forall x, pair_addr sbi cpu <= x < pair_addr sbi cpu + 16 -> nvm sbi' x = nvm sbi x) -> journal_idle sbi' cpu pg k.
Proof.
  intros [J1 J2 J3 J4 J5 J6 J7] Ev En Ec Hm. assert (pair_addr sbi' cpu = pair_addr sbi cpu) as Ep by (unfold pair_addr, block_addr; by rewrite Ev).
  split; rewrite ?Ep, ?Ec, ?En; auto; [unfold mapped in *; by rewrite Ev, En|rewrite <- J6|rewrite <- J7];
    apply load_ext; intros x Hx; apply Hm; simpl in Hx; lia.
Qed.

Section commit.
Context `{RbTree} (slab_garbage : nova_range_node) (smp : Z) (jiffies_to_msecs : Z -> Z) (e : env).

Lemma transaction_commit_ok sbi mon cpu pg k k' n m1 old :
  journal_idle sbi cpu pg k -> num_blocks sbi <= BLOCKS_MAX -> ready n mon -> 0 <= k' < 64 ->
  journal_tail m1 (pair_addr sbi cpu) = slot pg k' ->
  exists m2 mon', nova_commit_lite_transaction slab_garbage smp jiffies_to_msecs (with_nvm m1 sbi) mon e (slot pg k') cpu old =
      Some (with_nvm m2 sbi, mon') /\ ready n mon' /\ journal_idle (with_nvm m2 sbi) cpu pg k' /\
    forall x, ~ pair_addr sbi cpu <= x < pair_addr sbi cpu + 8 -> m2 x = m1 x.
Proof.
  intros [J1 J2 J3 J4 J5 J6 J7] Hsmall Hr Hk' Ht. unfold nova_commit_lite_transaction.
  rewrite (journal_pointers_ok (with_nvm m1 sbi)) by (auto; cbn; lia). cbn [mbind option_bind nvm with_nvm].
  change (pair_addr (with_nvm m1 sbi) cpu) with (pair_addr sbi cpu). rewrite Ht, Z.eqb_refl. cbn [negb].
  set (m2 := set_journal_head m1 (pair_addr sbi cpu) (slot pg k')).
  assert (0 <= slot pg k' < 18446744073709551616) as Hs by (unfold slot; lia).
  assert (journal_head m2 (pair_addr sbi cpu) = slot pg k') as Hh by (unfold m2, journal_head, set_journal_head; by apply load8_store8).
  assert (forall x, ~ pair_addr sbi cpu <= x < pair_addr sbi cpu + 8 -> m2 x = m1 x) as Hm2
    by (intros x Hx; apply store_disjoint; simpl; lia).
  unfold active_migrate_journal_page. rewrite Hh.
  assert (Z.shiftr (slot pg k') 12 = pg) as Eb by (rewrite Z.shiftr_div_pow2 by lia; change (2 ^ 12) with 4096; unfold slot; mlia).
  rewrite Eb. destruct (ready_judge pg n mon Hr ltac:(lia)) as (mon' & E & Hr'). unfold monitored_call. rewrite E.
  cbn [mbind option_bind negb]. exists m2, mon'. split; [done|]. split; [done|]. split; [|done].
  split; auto; cbn [nvm with_nvm]; change (pair_addr (with_nvm m2 sbi) cpu) with (pair_addr sbi cpu).
  rewrite <- Ht. apply load_ext. intros x Hx. apply Hm2. simpl in Hx. lia.
Qed.
End commit.

Section transactions.
Context `{RbTree} (slab_garbage : nova_range_node) (smp : Z) (jiffies_to_msecs : Z -> Z) (e : env) (garbage : Z).
Hypothesis pid_nonneg : 0 <= current_pid e.

(** The entries are in the journal; the memory is then that of [sbi] outside the journal. *)
Lemma begin_ok sbi mon pg k n en1 en2 entries :
  journal_idle sbi smp pg k -> ready (S n) mon -> entry_wf en1 -> (entries = 1 \/ entries = 2 /\ entry_wf en2) ->
  exists m1 mon', nova_create_lite_transaction jiffies_to_msecs sbi mon e en1 en2 entries smp =
      Some (slot pg ((k + entries) mod 64), with_nvm m1 sbi, mon') /\ ready n mon' /\
    journal_tail m1 (pair_addr sbi smp) = slot pg ((k + entries) mod 64) /\
    forall x, ~ journal_byte sbi smp pg x -> m1 x = nvm sbi x.
Proof.
  intros J Hr Hw Hw2.
  destruct (ready_count jiffies_to_msecs e _ n mon Hr (block_number_nonneg (virt_addr sbi) (block_addr sbi pg + 64 * k)) pid_nonneg)
    as (mon' & E & Hr').
  destruct (create_transaction_run jiffies_to_msecs sbi mon mon' e en1 en2 entries smp pg k J Hw Hw2 E) as (sbi1 & E1 & [_ O2 _ O4] & Es).
  exists (nvm sbi1), mon'. split; [by rewrite <- Es|]. split; [done|]. split.
  - rewrite O2. do 3 f_equal. by destruct Hw2 as [-> | [-> _]].
  - intros x Hx. unfold journal_byte in Hx. apply O4; lia.
Qed.

(** The places of two inodes that do not meet the journal. *)
Record journal_apart (sbi : nova_sb_info) (pg p : Z) : Prop := {
  ja_page : p + 128 <= block_addr sbi pg \/ block_addr sbi (pg + 1) <= p;
  ja_pair : p + 128 <= pair_addr sbi smp \/ pair_addr sbi smp + 16 <= p;
}.

(** A change of fields of inodes leaves the journal alone. *)
Lemma tail_kept sbi m m' v :
  (forall x, pair_addr sbi smp <= x < pair_addr sbi smp + 16 -> m' x = m x) ->
  journal_tail m (pair_addr sbi smp) = v -> journal_tail m' (pair_addr sbi smp) = v.
Proof. intros Hm <-. apply load_ext. intros x Hx. apply Hm. simpl in Hx. lia. Qed.

(** The transaction of a new inode: the tail of the directory's log and the mark of the inode. *)
Lemma new_inode_transaction_ok v pg k n p q q_tail :
  journal_idle (v_sbi v) smp pg k -> num_blocks (v_sbi v) <= BLOCKS_MAX -> ready (S (S (S n))) (v_mon v) ->
  journal_apart (v_sbi v) pg p -> journal_apart (v_sbi v) pg q -> (p + 128 <= q \/ q + 128 <= p) -> 0 <= q_tail < 2 ^ 64 ->
  exists m' mon', nova_lite_transaction_for_new_inode slab_garbage smp jiffies_to_msecs e garbage p q q_tail v =
      Some (tt, Vfs (with_nvm m' (v_sbi v)) mon' (icache v) (next_generation v)) /\ ready n mon' /\
    journal_idle (with_nvm m' (v_sbi v)) smp pg ((k + 1) mod 64) /\
    Pi.log_tail m' q = q_tail /\ Pi.valid m' p = 1 /\
    forall x, ~ journal_byte (v_sbi v) smp pg x -> ~ q + 80 <= x < q + 88 -> x <> p + 2 -> m' x = nvm (v_sbi v) x.
Proof.
  destruct v as [sbi mon ic gen]. cbn [v_sbi v_mon icache next_generation]. intros J Hsm Hr Jp Jq Hpq Hqt.
  set (en := LiteEntry [journal_addr (virt_addr sbi) (q + 80) 8; journal_addr (virt_addr sbi) (p + 2) 1; 0; 0]
               [Pi.log_tail (nvm sbi) q; Pi.valid (nvm sbi) p; 0; 0]).
  assert (entry_wf en) as Hen by (unfold en, Pi.log_tail, Pi.valid; entry_ok).
  destruct (begin_ok sbi mon pg k (S (S n)) en (LiteEntry [] []) 1 J Hr Hen (or_introl eq_refl)) as (m1 & mon1 & E1 & Hr1 & T1 & Hm1).
  set (m2 := Pi.set_valid (Pi.set_log_tail m1 q q_tail) p 1).
  assert (forall x, ~ q + 80 <= x < q + 88 -> x <> p + 2 -> m2 x = m1 x) as Hm2.
  { intros x H1 H2. unfold m2, Pi.set_valid, Pi.set_log_tail. by rewrite !store_disjoint by (simpl; lia). }
  destruct (ready_count jiffies_to_msecs e _ (S n) mon1 Hr1 (block_number_nonneg (virt_addr sbi) p) pid_nonneg) as (mon2 & E2 & Hr2).
  destruct (ready_count jiffies_to_msecs e _ n mon2 Hr2 (block_number_nonneg (virt_addr sbi) q) pid_nonneg) as (mon3 & E3 & Hr3).
  destruct Jp as [Jp1 Jp2], Jq as [Jq1 Jq2].
  assert (journal_tail m2 (pair_addr sbi smp) = slot pg ((k + 1) mod 64)) as T2
    by (eapply (tail_kept sbi m1); [|done]; intros x Hx; apply Hm2; lia).
  destruct (transaction_commit_ok slab_garbage smp jiffies_to_msecs e sbi mon3 smp pg k ((k + 1) mod 64) n m2 garbage J Hsm Hr3
    (Z.mod_pos_bound (k + 1) 64 ltac:(lia)) T2) as (m3 & mon4 & E4 & Hr4 & J4 & Hm3).
  exists m3, mon4. split.
  { unfold nova_lite_transaction_for_new_inode, on_fs. cbn [v_sbi v_mon icache next_generation]. fold en. rewrite E1.
    cbn [mbind option_bind nvm with_nvm]. unfold monitored_call, inode_page_count_increase. cbn [virt_addr with_nvm]. rewrite E2.
    cbn [mbind option_bind virt_addr with_nvm]. rewrite E3. cbn [mbind option_bind]. fold m2.
    change (with_nvm m2 (with_nvm (Pi.set_log_tail m1 q q_tail) (with_nvm m1 sbi))) with (with_nvm m2 sbi). by rewrite E4. }
  split; [done|]. split; [done|].
  assert (forall x, q <= x < q + 128 \/ p <= x < p + 128 -> m3 x = m2 x) as H32 by (intros x Hx; apply Hm3; lia).
  split; [|split].
  - rewrite <- (Z.mod_small q_tail (2 ^ 64)) by lia. transitivity (Pi.log_tail m2 q); [apply load_ext; intros x Hx; apply H32; simpl in Hx; lia|].
    unfold m2, Pi.log_tail, Pi.set_valid, Pi.set_log_tail. rewrite load_store_ne by (simpl; lia). by rewrite load_store_eq.
  - transitivity (Pi.valid m2 p); [apply load_ext; intros x Hx; apply H32; simpl in Hx; lia|].
    unfold m2, Pi.valid, Pi.set_valid. by rewrite load_store_eq.
  - intros x H1 H2 H3. unfold journal_byte in H1. rewrite Hm3, Hm2, Hm1 by (try done; unfold journal_byte; lia). done.
Qed.

(** The transaction of a link: the tails of the inode's log and of the directory's, and, when
    [inv] is set, the mark of the inode. *)
Lemma link_transaction_ok v pg k n p q p_tail q_tail inv :
  journal_idle (v_sbi v) smp pg k -> num_blocks (v_sbi v) <= BLOCKS_MAX -> ready (S (S (S n))) (v_mon v) ->
  journal_apart (v_sbi v) pg p -> journal_apart (v_sbi v) pg q -> (p + 128 <= q \/ q + 128 <= p) ->
  0 <= p_tail < 2 ^ 64 -> 0 <= q_tail < 2 ^ 64 ->
  exists m' mon', link_transaction slab_garbage smp jiffies_to_msecs e garbage p q p_tail q_tail inv v =
      Some (tt, Vfs (with_nvm m' (v_sbi v)) mon' (icache v) (next_generation v)) /\ ready n mon' /\
    journal_idle (with_nvm m' (v_sbi v)) smp pg ((k + 1) mod 64) /\
    Pi.log_tail m' p = p_tail /\ Pi.log_tail m' q = q_tail /\
    Pi.valid m' p = (if inv =? 0 then Pi.valid (nvm (v_sbi v)) p else 0) /\
    forall x, ~ journal_byte (v_sbi v) smp pg x -> ~ q + 80 <= x < q + 88 -> ~ p + 80 <= x < p + 88 -> x <> p + 2 ->
      m' x = nvm (v_sbi v) x.
Proof.
  destruct v as [sbi mon ic gen]. cbn [v_sbi v_mon icache next_generation]. intros J Hsm Hr [Jp1 Jp2] [Jq1 Jq2] Hpq Hpt Hqt.
  destruct (begin_ok sbi mon pg k (S (S n)) (link_entry sbi p q inv) (LiteEntry [] []) 1 J Hr (link_entry_wf _ _ _ _) (or_introl eq_refl))
    as (m1 & mon1 & E1 & Hr1 & T1 & Hm1).
  set (m2 := Pi.set_log_tail (Pi.set_log_tail m1 p p_tail) q q_tail). set (m2' := if inv =? 0 then m2 else Pi.set_valid m2 p 0).
  assert (forall x, ~ q + 80 <= x < q + 88 -> ~ p + 80 <= x < p + 88 -> x <> p + 2 -> m2' x = m1 x) as Hm2.
  { intros x H1 H2 H3. unfold m2', m2, Pi.set_valid, Pi.set_log_tail. destruct (inv =? 0); by rewrite !store_disjoint by (simpl; lia). }
  destruct (ready_count jiffies_to_msecs e _ (S n) mon1 Hr1 (block_number_nonneg (virt_addr sbi) p) pid_nonneg) as (mon2 & E2 & Hr2).
  destruct (ready_count jiffies_to_msecs e _ n mon2 Hr2 (block_number_nonneg (virt_addr sbi) q) pid_nonneg) as (mon3 & E3 & Hr3).
  assert (journal_tail m2' (pair_addr sbi smp) = slot pg ((k + 1) mod 64)) as T2
    by (eapply (tail_kept sbi m1); [|done]; intros x Hx; apply Hm2; lia).
  destruct (transaction_commit_ok slab_garbage smp jiffies_to_msecs e sbi mon3 smp pg k ((k + 1) mod 64) n m2' garbage J Hsm Hr3
    (Z.mod_pos_bound (k + 1) 64 ltac:(lia)) T2) as (m3 & mon4 & E4 & Hr4 & J4 & Hm3).
  exists m3, mon4. split.
  { unfold link_transaction, nova_lite_transaction_for_time_and_link, on_fs. cbn [v_sbi v_mon icache next_generation]. rewrite E1.
    cbn [mbind option_bind nvm with_nvm]. unfold monitored_call, inode_page_count_increase. cbn [virt_addr with_nvm]. rewrite E2.
    cbn [mbind option_bind virt_addr with_nvm nvm]. rewrite E3. cbn [mbind option_bind nvm with_nvm]. fold m2.
    unfold m2' in E4. destruct (inv =? 0); cbn [negb];
      match goal with |- context [nova_commit_lite_transaction _ _ _ ?s mon3] => change s with (with_nvm (nvm s) sbi) end; cbn [nvm with_nvm]; by rewrite E4. }
  split; [done|]. split; [done|].
  assert (forall x, q <= x < q + 128 \/ p <= x < p + 128 -> m3 x = m2' x) as H32 by (intros x Hx; apply Hm3; lia).
  assert (forall j o r, (r = p \/ r = q) -> 0 <= o -> o + Z.of_nat j <= 128 -> load j m3 (r + o) = load j m2' (r + o)) as Hld.
  { intros j o r Hrr H1 H2. apply load_ext. intros x Hx. apply H32. destruct Hrr as [-> | ->]; lia. }
  split_and!.
  - unfold Pi.log_tail. rewrite Hld by (auto; simpl; lia). unfold m2', m2, Pi.set_valid, Pi.set_log_tail.
    destruct (inv =? 0); rewrite !load_store_ne by (simpl; lia); by apply load8_store8.
  - unfold Pi.log_tail. rewrite Hld by (auto; simpl; lia). unfold m2', m2, Pi.set_valid, Pi.set_log_tail.
    destruct (inv =? 0); rewrite ?load_store_ne by (simpl; lia); by apply load8_store8.
  - unfold Pi.valid. rewrite Hld by (auto; simpl; lia). unfold m2', m2, Pi.set_valid, Pi.set_log_tail.
    destruct (inv =? 0); [|by rewrite load_store_eq]. rewrite !load_store_ne by (simpl; lia). apply load_ext. intros x Hx. apply Hm1.
    unfold journal_byte. simpl in Hx. lia.
  - intros x H1 H2 H3 H4. unfold journal_byte in H1. rewrite Hm3, Hm2, Hm1 by (try done; unfold journal_byte; lia). done.
Qed.
End transactions.
