(* ===== verification/Create.v ===== *)
(** * Creating a file (namei.c, inode.c)

    [nova_create] takes an inode number, enters the name into the directory, fills the inode
    in and commits both with a transaction of the journal.  The theorem says that afterwards
    the directory has the name, the inode is there and empty, and a lookup finds it. *)

From S2P Require Import Prelude Layout RangeTree RbList State Balloc BallocFacts BallocSpec.
From S2P Require Import BallocInit BallocTheorems TreeEdits InodeMap LogBlocks InodeTable.
From S2P Require Import Monitor Histogram HashTable Records KnapSack Detect WriteCount Migrate Journal.
From S2P Require Import LogPages World InodeLog FastGc LogAppend FileTree Truncate WearBudget FileData Directory DirTree.
From S2P Require Import DirLog Attr Resize Release Vfs Names Transaction.
#[local] Open Scope word_scope.

(** ** The slot of an inode *)

(** The numbers that have slots are small. *)
Lemma slot_small sbi P ino a : tables_ok sbi P -> 0 <= ino -> inode_slot (cpus sbi) P ino = Some a -> ino < 2 ^ 63.
Proof.
  intros T Hi Hs. destruct (to_cpus _ _ T) as (Hc & _).
  destruct (inode_slot_inv (cpus sbi) P ino a ltac:(lia) Hi Hs) as (b & Eb & _ & Hp & _).
  assert (0 <= ino mod cpus sbi < cpus sbi) as Hcx by (apply Z.mod_pos_bound; lia).
  destruct (to_table _ _ T _ Hcx) as [_ [_ Hl]]. pose proof (lookup_lt_Some _ _ _ Eb) as Hlt.
  assert (ino / cpus sbi / 32 < TABLE_NUM) as Hk by lia. unfold TABLE_NUM in Hk.
  pose proof (Z.div_mod ino (cpus sbi) ltac:(lia)) as Hd. assert (ino / cpus sbi < 1048576) by mlia. nia.
Qed.

(** The inode [ino] has its slot at [p], whatever is there. *)
Record slot_at (sbi : nova_sb_info) (P : Z -> list Z) (ino a p : Z) : Prop := {
  sa_tables : tables_ok sbi P;
  sa_unlocked : unlocked sbi;
  sa_slot : inode_slot (cpus sbi) P ino = Some a;
  sa_addr : p = virt_addr sbi + a;
  sa_mapped : mapped sbi;
  sa_size : num_blocks sbi < 2147483648;
  sa_ino : NOVA_NORMAL_INODE_START <= ino < 2 ^ 63;
  sa_lock : nova_get_specific_inode_page_lock sbi ino = Some tt;
}.

Section slot.
Context (smp : Z) (sbi : nova_sb_info) (P : Z -> list Z) (ino a p : Z) (S : slot_at sbi P ino a p).

(** It is inside a page of the tables. *)
Lemma slot_page : exists c b, 0 <= c < cpus sbi /\ b ∈ P c /\ 0 < b < num_blocks sbi /\
  block_addr sbi b <= p /\ p + 128 <= block_addr sbi (b + 1).
Proof.
  destruct S as [T U Hs -> M N I L]. destruct (to_cpus _ _ T) as (Hc & _). unfold NOVA_NORMAL_INODE_START in I.
  destruct (inode_slot_inv (cpus sbi) P ino a ltac:(lia) ltac:(lia) Hs) as (b & Eb & -> & Hp1 & Hp2).
  assert (0 <= ino mod cpus sbi < cpus sbi) as Hcx by (apply Z.mod_pos_bound; lia).
  pose proof (list_elem_of_lookup_2 _ _ _ Eb) as Hin. exists (ino mod cpus sbi), b. split; [done|]. split; [done|].
  split; [by apply (to_pages _ _ T _ _ Hcx Hin)|]. unfold block_addr. lia.
Qed.

Lemma slot_bounds : 4096 <= a /\ a + 128 <= 4096 * num_blocks sbi /\ nova_get_block (virt_addr sbi) a = p.
Proof.
  destruct slot_page as (c & b & _ & _ & Hb & H1 & H2). pose proof (sa_addr _ _ _ _ _ S) as Ep.
  destruct (sa_mapped _ _ _ _ _ S) as [M1 M2]. unfold block_addr in *. split; [lia|]. split; [lia|].
  unfold nova_get_block. rewrite (proj2 (Z.eqb_neq a 0)) by lia. rewrite u64_small by lia. lia.
Qed.

Lemma slot_find `{RbTree} x : nova_get_inode smp sbi ino x = Some (inr p, sbi).
Proof.
  destruct slot_bounds as (_ & _ & Ep). pose proof S as [T U Hs _ M N [I _] L].
  by rewrite (get_inode_present smp sbi P ino x a), Ep.
Qed.

Lemma slot_lookup `{RbTree} mon sih : lookup_inode smp ino 0 (World sbi mon sih) = Some (p, World sbi mon sih).
Proof.
  destruct slot_bounds as (_ & _ & Ep). pose proof S as [T U Hs _ M N I L]. unfold lookup_inode, nova_get_inode_by_ino_or_pi_addr.
  rewrite (proj2 (Z.ltb_ge _ _)) by lia. unfold NOVA_NORMAL_INODE_START in I.
  erewrite fs_step by (apply on_sbi_run; cbn [w_sbi]; apply (wwb_get_present smp sbi P ino a); auto; lia). by rewrite Ep.
Qed.

Lemma slot_own `{RbTree} mon sih inode : i_ino inode = ino -> own_inode smp inode (World sbi mon sih) = Some (p, World sbi mon sih).
Proof.
  intros Hi. unfold own_inode, Attr.find_inode. rewrite fs_assoc. frun. rewrite Hi.
  erewrite fs_step by (apply on_sbi_run; cbn [w_sbi]; apply slot_find). done.
Qed.

(** A change of the device behind its first block. *)
Lemma slot_at_nvm m : (forall x, x < block_addr sbi 1 -> m x = nvm sbi x) -> slot_at (with_nvm m sbi) P ino a p.
Proof.
  intros Hm. destruct slot_page as (_ & b & _ & _ & Hb & _). destruct S as [T U Hs E M N I L]. split; auto.
  apply (tables_ok_frame sbi); auto; [apply with_nvm_geometry|lia].
Qed.

(** The number is stored there. *)
Lemma slot_homed : Pi.nova_ino (nvm sbi) p = ino -> homed sbi P p.
Proof.
  intros Hi. destruct slot_bounds as (_ & _ & Ep). destruct S as [B1 B2 B3 B4 B5 B6 B7 B8]. unfold NOVA_NORMAL_INODE_START in B7.
  split; rewrite ?Hi; auto. split; [lia|]. by exists a.
Qed.
End slot.

(** ** Filling an inode in *)

(** What a new inode has on the device; nothing else has changed. *)
Record fresh_inode (m m' : memory) (p ino : Z) (inode : vfs_inode) : Prop := {
  fi_same x : ~ p <= x < p + 128 -> m' x = m x;
  fi_ino : Pi.nova_ino m' p = ino;
  fi_head : Pi.log_head m' p = 0;
  fi_tail : Pi.log_tail m' p = 0;
  fi_type : Pi.i_blk_type m' p = 0;
  fi_valid : Pi.valid m' p = Pi.valid m p;
  fi_mode : Pi.i_mode m' p = u16 (vfs_mode inode);
  fi_size : Pi.i_size m' p = u64 (vfs_size inode);
  fi_links : Pi.i_links_count m' p = u16 (vfs_nlink inode);
}.

(** [unfield] computes a field behind a run of stores. *)
Ltac unfield := repeat first [rewrite load_store_eq | rewrite load_store_ne by lia].

Section init.
Context `{RbTree} (smp : Z) (jiffies_to_msecs : Z -> Z) (e : env).
Hypothesis pid_nonneg : 0 <= current_pid e.

(** [nova_update_inode] writes the fields of [struct inode]. *)
Lemma update_inode_ok sbi P ino a p mon sih inode k :
  slot_at sbi P ino a p -> i_ino inode = ino -> ready (S k) mon ->
  exists m' mon', nova_update_inode smp jiffies_to_msecs e inode (World sbi mon sih) =
      Some (tt, World (with_nvm m' sbi) mon' sih) /\ ready k mon' /\
    (forall x, ~ p <= x < p + 128 -> m' x = nvm sbi x) /\
    Pi.nova_ino m' p = Pi.nova_ino (nvm sbi) p /\ Pi.log_head m' p = Pi.log_head (nvm sbi) p /\
    Pi.i_blk_type m' p = Pi.i_blk_type (nvm sbi) p /\ Pi.valid m' p = Pi.valid (nvm sbi) p /\
    Pi.log_tail m' p = Pi.log_tail (nvm sbi) p /\
    Pi.i_mode m' p = u16 (vfs_mode inode) /\ Pi.i_size m' p = u64 (vfs_size inode) /\
    Pi.i_links_count m' p = u16 (vfs_nlink inode).
Proof.
  intros S Hi Hr. unfold nova_update_inode. fstep (slot_own smp sbi P ino a p S mon sih inode Hi). frun. cbn [nvm with_nvm].
  set (m' := if S_ISCHR _ || S_ISBLK _ then _ else _).
  destruct (ready_count_inode jiffies_to_msecs e pid_nonneg (with_nvm m' sbi) mon sih p k Hr) as (mon' & E & Hr').
  exists m', mon'. split; [exact E|]. split; [done|]. unfold m'. clear E. clear m'.
  unfold nova_get_inode_flags, Pi.set_i_mode, Pi.set_i_uid, Pi.set_i_gid, Pi.set_i_links_count, Pi.set_i_size, Pi.set_i_blocks,
    Pi.set_i_atime, Pi.set_i_ctime, Pi.set_i_mtime, Pi.set_i_generation, Pi.set_i_flags,
    Pi.nova_ino, Pi.log_head, Pi.log_tail, Pi.i_blk_type, Pi.valid, Pi.i_mode, Pi.i_size, Pi.i_links_count.
  split_and!.
  1:{ intros x Hx. destruct (_ || _); by rewrite !store_disjoint by (simpl; lia). }
  all: destruct (_ || _); by unfield.
Qed.

(** The inode in memory, by its type. *)
Definition typed_inode (type : nova_new_inode_type) (inode : vfs_inode) (ino mode rdev : Z) : vfs_inode :=
  match type with
  | TYPE_MKNOD => init_special_inode (with_i_ino ino inode) mode rdev
  | TYPE_MKDIR => with_vfs_nlink 2 (with_i_ino ino inode)
  | TYPE_CREATE | TYPE_SYMLINK => with_i_ino ino inode
  end.

Lemma typed_ino type inode ino mode rdev : i_ino (typed_inode type inode ino mode rdev) = ino.
Proof. by destruct type. Qed.

Lemma init_inode_ok sbi P ino a p mon sih type inode diri mode rdev k :
  slot_at sbi P ino a p -> ready (S k) mon -> let inode1 := typed_inode type inode ino mode rdev in
  exists m' mon' flags, init_inode smp jiffies_to_msecs e type inode diri a ino mode rdev (World sbi mon sih) =
      Some ((with_vfs_flags flags inode1, p),
            World (with_nvm m' sbi) mon' (with_sih_ino ino (with_sih_pi_addr a (nova_init_header (vfs_mode inode1) sih)))) /\
    ready k mon' /\ fresh_inode (nvm sbi) m' p ino inode1.
Proof.
  intros S Hr inode1. unfold init_inode. destruct (slot_bounds sbi P ino a p S) as (A1 & A2 & Ep).
  erewrite fs_step by (unfold get_block; rewrite (proj2 (Z.eqb_neq a 0)) by lia; reflexivity). cbn [w_sbi w_mon w_sih]. rewrite Ep.
  unfold lock_inode_page. rewrite fs_assoc. frun. rewrite (sa_lock _ _ _ _ _ S). cbn [fs_deref]. frun.
  erewrite fs_step by (instantiate (2 := p); destruct (1 <? _); [apply (slot_lookup smp sbi P ino a p S)|reflexivity]).
  fold (typed_inode type inode ino mode rdev). fold inode1. frun. cbn [nvm with_nvm].
  set (m1 := Pi.set_nova_ino _ p ino). set (sih1 := with_sih_ino ino _).
  assert (forall x, ~ p <= x < p + 128 -> m1 x = nvm sbi x) as Hm1.
  { intros x Hx. unfold m1, Pi.set_nova_ino, Pi.set_log_tail, Pi.set_log_head, Pi.set_i_flags, Pi.set_i_blk_type.
    by rewrite !store_disjoint by (simpl; lia). }
  destruct (slot_page sbi P ino a p S) as (c & b & _ & _ & Hb & P1 & P2).
  assert (slot_at (with_nvm m1 sbi) P ino a p) as S1.
  { apply slot_at_nvm; [done|]. intros x Hx. apply Hm1. unfold block_addr in *. lia. }
  destruct (update_inode_ok _ P ino a p mon sih1 inode1 k S1 (typed_ino _ _ _ _ _) Hr)
    as (m' & mon' & E & Hr' & Hm' & F1 & F2 & F3 & F4 & F5 & F6 & F7 & F8).
  fstep E. frun. cbn [nvm with_nvm] in *. exists m', mon', (vfs_flags (nova_set_inode_flags inode1 (Pi.i_flags m' p))).
  split; [done|]. split; [done|]. split; auto.
  - intros x Hx. by rewrite Hm', Hm1.
  - rewrite F1. unfold m1, Pi.nova_ino, Pi.set_nova_ino. apply load8_store8. destruct (sa_ino _ _ _ _ _ S). unfold NOVA_NORMAL_INODE_START in *. lia.
  - rewrite F2. unfold m1, Pi.log_head, Pi.set_nova_ino, Pi.set_log_tail, Pi.set_log_head. by unfield.
  - rewrite F5. unfold m1, Pi.log_tail, Pi.set_nova_ino, Pi.set_log_tail. by unfield.
  - rewrite F3. unfold m1, Pi.i_blk_type, Pi.set_nova_ino, Pi.set_log_tail, Pi.set_log_head, Pi.set_i_flags, Pi.set_i_blk_type. by unfield.
  - rewrite F4. unfold m1, Pi.valid, Pi.set_nova_ino, Pi.set_log_tail, Pi.set_log_head, Pi.set_i_flags, Pi.set_i_blk_type. by unfield.
Qed.
End init.

(** [nova_new_vfs_inode] on a slot that is not cached, in the directory [dir] whose inode is at
    [diri]. *)
Section new_inode.
Context `{RbTree} (slab_garbage : nova_range_node) (smp : Z) (jiffies_to_msecs : Z -> Z) (e : env) (garbage : Z).
Context (inode0 : vfs_inode) (sih0 : nova_inode_info_header) (inode_init_owner : vfs_inode -> vfs_inode -> Z -> vfs_inode).
Hypothesis pid_nonneg : 0 <= current_pid e.

Definition made_inode (type : nova_new_inode_type) (di : vfs_inode) (ino mode size rdev time generation : Z) : vfs_inode :=
  typed_inode type (new_fields (inode_init_owner inode0 di mode) size time (i32 (generation + 1))) ino mode rdev.

Definition made_header (mode ino a : Z) : nova_inode_info_header :=
  with_sih_ino ino (with_sih_pi_addr a (nova_init_header mode sih0)).

Lemma slot_number sbi P ino a p : slot_at sbi P ino a p -> get_block_number_by_virt (virt_addr sbi) p < num_blocks sbi.
Proof.
  intros S. destruct (slot_bounds _ _ _ _ _ S) as (A1 & A2 & _). destruct (sa_mapped _ _ _ _ _ S) as [M1 M2].
  unfold get_block_number_by_virt. rewrite (sa_addr _ _ _ _ _ S). replace (virt_addr sbi + a - virt_addr sbi) with a by lia.
  rewrite (proj2 (Z.eqb_neq (virt_addr sbi + a) 0)), u64_small, (proj2 (Z.eqb_neq a 0)) by lia.
  rewrite Z.shiftr_div_pow2 by lia. change (2 ^ 12) with 4096. mlia.
Qed.

Lemma new_vfs_inode_ok v P type dir a p ino di dsih diri mode size rdev time n :
  slot_at (v_sbi v) P ino a p -> num_blocks (v_sbi v) <= BLOCKS_MAX -> icache v !! dir = Some (di, dsih) ->
  icache v !! ino = None -> nova_get_inode smp (v_sbi v) (i_ino di) (sih_pi_addr dsih) = Some (inr diri, v_sbi v) ->
  ready (S (S n)) (v_mon v) -> let inode1 := made_inode type di ino mode size rdev time (next_generation v) in
  exists m' mon' flags, nova_new_vfs_inode slab_garbage smp jiffies_to_msecs e garbage (Some (inode0, sih0)) inode_init_owner
      type dir a ino mode size rdev time v =
      Some (inr ino, Vfs (with_nvm m' (v_sbi v)) mon'
        (<[ino := (with_vfs_flags flags inode1, made_header (vfs_mode inode1) ino a)]> (icache v)) (i32 (next_generation v + 1))) /\
    ready n mon' /\ fresh_inode (nvm (v_sbi v)) m' p ino inode1.
Proof.
  destruct v as [sbi mon ic gen]. cbn [v_sbi v_mon icache next_generation]. intros Sl Hsm Hd Hno Hf Hr.
  set (inode1 := made_inode type di ino mode size rdev time gen). unfold nova_new_vfs_inode.
  erewrite vfs_step by (unfold get_inode; cbn [icache]; rewrite Hd; reflexivity).
  erewrite vfs_step by reflexivity. cbn [v_sbi v_mon icache next_generation].
  erewrite vfs_step.
  2:{ eapply (at_inode_same dir _ di dsih); [exact Hd|]. unfold Attr.find_inode. frun. apply on_sbi_run. cbn [w_sbi v_sbi]. exact Hf. }
  cbn [v_sbi v_mon icache next_generation w_mon w_sih w_sbi].
  set (fields := new_fields _ _ _ _).
  destruct (init_inode_ok smp jiffies_to_msecs e pid_nonneg sbi P ino a p mon sih0 type fields diri mode rdev (S n) Sl Hr)
    as (m' & mon1 & flags & E & Hr1 & Hfi). fold (made_inode type di ino mode size rdev time gen) in E, Hfi. fold inode1 in E, Hfi.
  erewrite vfs_step by (apply on_header_run; cbn [v_sbi v_mon]; exact E). cbv beta iota zeta. cbn [icache next_generation].
  erewrite vfs_step by reflexivity. cbn [icache]. rewrite Hno. erewrite vfs_step by reflexivity. cbn [v_sbi v_mon icache next_generation].
  destruct (ready_count_migrate smp jiffies_to_msecs e garbage pid_nonneg (with_nvm m' sbi) mon1 (made_header (vfs_mode inode1) ino a) p n Hr1)
    as (mon2 & E2 & Hr2); [pose proof (slot_number _ _ _ _ _ Sl); cbn [virt_addr with_nvm]; lia|].
  erewrite vfs_step.
  2:{ eapply (at_inode_same ino); [cbn [icache]; apply lookup_insert_eq|]. cbn [v_sbi v_mon]. exact E2. }
  cbn [icache next_generation]. exists m', mon2, flags. done.
Qed.
End new_inode.

(** ** The state of the file system and a directory *)

Section create.
Context `{RbTreeLaws} {L : LogBlocks} (slab_garbage : nova_range_node) (smp : Z) (jiffies_to_msecs : Z -> Z) (e : env).
Context (garbage : Z) (radix_nomem : Z -> bool).
Hypothesis pid_nonneg : 0 <= current_pid e.
Hypothesis radix_serves : forall i, radix_nomem i = false.
(** The directory [dir], its inode at [pi]; the journal is page [pg]; the log of the directory
    has the pages [logb]. *)
Context (dir pi limit pg : Z) (logb : Z -> Prop).

Record names_env (v : vfs_state) (F : Z -> Prop) (P : Z -> list Z) (R : Z -> list nova_range_node)
    (di : vfs_inode) (dsih : nova_inode_info_header) (D : gmap (list Z) Z) (tail k : Z) : Prop := {
  ne_inv : create_inv smp (v_sbi v) F P R;
  ne_small : num_blocks (v_sbi v) <= BLOCKS_MAX;
  ne_dir : icache v !! dir = Some (di, dsih) /\ i_ino di = dir;
  ne_state : dir_state P pi dir (v_sbi v) tail limit (tree dsih) D;
  ne_tail : Pi.log_tail (nvm (v_sbi v)) pi = tail;
  ne_journal : journal_idle (v_sbi v) smp pg k;
  ne_window : logb (tail / 4096);
  ne_entries s i a : D !! s = Some i -> tree dsih !! name_hash s = Some a ->
    exists b, logb b /\ block_addr (v_sbi v) b <= a /\ dentry_end a s <= block_addr (v_sbi v) (b + 1);
  ne_logs b : logb b -> b <> 1 /\ b <> pg;
  ne_own b : b = 1 \/ b = pg \/ logb b -> ~ F b /\ forall c, 0 <= c < cpus (v_sbi v) -> b ∉ P c;
  ne_cached x : icache v !! x <> None -> used_ino (v_sbi v) R x;
}.

(** The blocks of the journal and of the log. *)
Definition own (b : Z) : Prop := b = 1 \/ b = pg \/ logb b.

Section env.
Context (v : vfs_state) (F : Z -> Prop) (P : Z -> list Z) (R : Z -> list nova_range_node).
Context (di : vfs_inode) (dsih : nova_inode_info_header) (D : gmap (list Z) Z) (tail k : Z).
Context (N : names_env v F P R di dsih D tail k).
#[local] Notation sbi := (v_sbi v).

(** The directory's inode is in its slot. *)
Lemma dir_slot : exists a, slot_at sbi P dir a pi.
Proof.
  destruct (ne_state _ _ _ _ _ _ _ _ _ N) as [S1 S2 S3 [S4 S4'] _ _ _ _]. destruct S1 as [T1 T2 T3 (Hi & a & Ha & Ea)].
  rewrite S4 in *. exists a. destruct (to_cpus _ _ T1) as (Hc & _). unfold NOVA_NORMAL_INODE_START in S4'.
  destruct (inode_slot_inv (cpus sbi) P dir a ltac:(lia) ltac:(lia) Ha) as (b & Eb & Hab & Hp1 & Hp2).
  assert (0 <= dir mod cpus sbi < cpus sbi) as Hcx by (apply Z.mod_pos_bound; lia).
  pose proof (to_pages _ _ T1 _ _ Hcx (list_elem_of_lookup_2 _ _ _ Eb)) as Hb.
  split; auto.
  - rewrite <- Ea. unfold nova_get_block. destruct S2. rewrite (proj2 (Z.eqb_neq a 0)) by lia. apply u64_small. lia.
  - unfold NOVA_NORMAL_INODE_START. split; [lia|]. by apply (slot_small sbi P dir a); [|lia|].
Qed.

(** A block of its own is away from the slots. *)
Lemma own_apart ino a p b : slot_at sbi P ino a p -> own b -> p + 128 <= block_addr sbi b \/ block_addr sbi (b + 1) <= p.
Proof.
  intros S Hb. destruct (slot_page _ _ _ _ _ S) as (c & b' & Hc & Hin & _ & H1 & H2).
  assert (b <> b') by (intros ->; by apply (proj2 (ne_own _ _ _ _ _ _ _ _ _ N b' Hb) c Hc)). unfold block_addr in *. lia.
Qed.

Lemma pair_in_block x : pair_addr sbi smp <= x < pair_addr sbi smp + 16 -> block_addr sbi 1 <= x < block_addr sbi 2.
Proof. destruct (ji_cpu _ _ _ _ (ne_journal _ _ _ _ _ _ _ _ _ N)). unfold pair_addr, block_addr. lia. Qed.

Lemma slot_journal ino a p : slot_at sbi P ino a p -> journal_apart smp sbi pg p.
Proof.
  intros S. pose proof (own_apart _ _ _ 1 S ltac:(by left)) as H1. pose proof (own_apart _ _ _ pg S ltac:(right; by left)) as H2.
  destruct (ji_cpu _ _ _ _ (ne_journal _ _ _ _ _ _ _ _ _ N)). split; [done|]. unfold pair_addr, block_addr in *. lia.
Qed.

(** The window of the log is in one of its pages. *)
Lemma window_block x : virt_addr sbi + tail <= x < virt_addr sbi + limit ->
  block_addr sbi (tail / 4096) <= x < block_addr sbi (tail / 4096 + 1).
Proof.
  intros Hx. destruct (ds_room _ _ _ _ _ _ _ _ (ne_state _ _ _ _ _ _ _ _ _ N)) as (H1 & H2 & H3). unfold block_addr, LAST_ENTRY in *. mlia.
Qed.

(** A change of the device and of the cached inodes. *)
Lemma names_env_move m mon ic gen di' dsih' D' tail' k' :
  (forall x, x < block_addr sbi 1 -> m x = nvm sbi x) -> ic !! dir = Some (di', dsih') -> i_ino di' = dir ->
  dir_state P pi dir (with_nvm m sbi) tail' limit (tree dsih') D' -> Pi.log_tail m pi = tail' ->
  journal_idle (with_nvm m sbi) smp pg k' -> tail <= tail' <= limit ->
  (forall s i a, D' !! s = Some i -> tree dsih' !! name_hash s = Some a ->
    (D !! s = Some i /\ tree dsih !! name_hash s = Some a) \/ (virt_addr sbi + tail <= a /\ dentry_end a s <= virt_addr sbi + limit)) ->
  (forall x, ic !! x <> None -> used_ino sbi R x) ->
  names_env (Vfs (with_nvm m sbi) mon ic gen) F P R di' dsih' D' tail' k'.
Proof.
  intros Hm Hd Hi Hs Ht Hj Hle He Hc. pose proof N as [[I1 I2 I3 I4] E2 E3 E4 E5 E6 E7 E8 E9 E10 E11].
  pose proof (ds_room _ _ _ _ _ _ _ _ E4) as (R1 & R2 & R3). destruct I1 as [B1 B2 B3 B4 B5].
  split; cbn [v_sbi icache]; auto.
  - split; auto; [|by destruct I2]. split; auto; [by apply (lb_local sbi); [|by split]|].
    apply (tables_ok_frame sbi); auto; [apply with_nvm_geometry|lia].
  - replace (tail' / 4096) with (tail / 4096); [done|]. unfold LAST_ENTRY in *. mlia.
  - intros s i a H1 H2. destruct (He s i a H1 H2) as [[H3 H4]|[H3 H4]]; [by apply (E8 s i)|].
    exists (tail / 4096). split; [done|]. unfold block_addr, LAST_ENTRY in *. cbn [virt_addr with_nvm]. mlia.
Qed.

(** ** The number *)

Lemma number_ok :
  (forall j c, 0 <= c < cpus sbi -> in_ranges j (R c) -> j < 16383) ->
  exists ino a sbi1, nova_new_nova_inode smp sbi 0 garbage = Some (ino, a, sbi1) /\
    (ino = 0 \/ exists F1 P1 R1, ino <> dir /\ icache v !! ino = None /\ ~ used_ino sbi R ino /\
       (forall x, used_ino sbi1 R1 x <-> used_ino sbi R x \/ x = ino) /\
       names_env (Vfs sbi1 (v_mon v) (icache v) (next_generation v)) F1 P1 R1 di dsih D tail k /\
       (nova_get_specific_inode_page_lock sbi ino = Some tt -> slot_at sbi1 P1 ino a (virt_addr sbi1 + a)) /\
       virt_addr sbi1 = virt_addr sbi /\
       (forall x, (forall b, F b -> ~ F1 b -> ~ block_addr sbi b <= x < block_addr sbi (b + 1)) -> nvm sbi1 x = nvm sbi x)).
Proof.
  intros Hroom. pose proof N as [I E2 [E3 E3'] E4 E5 E6 E7 E8 E9 E10 E11].
  destruct (nova_new_nova_inode_spec smp sbi F P R 0 garbage I (hm_unlocked _ _ _ (ds_homed _ _ _ _ _ _ _ _ E4)) Hroom)
    as (ino & a & sbi1 & E & [(F1 & P1 & R1 & new & C)|(Hz & _)]); exists ino, a, sbi1; (split; [done|]); [|by left].
  right. exists F1, P1, R1. destruct C as [C1 C2 [C3 C3'] [C4 C4'] C5 C6 C7 C8 C9 C10 C11 C12].
  assert (forall b y, own b -> block_addr sbi b <= y < block_addr sbi (b + 1) -> nvm sbi1 y = nvm sbi y) as Hown.
  { intros b y Hb Hy. apply C9. intros b' Hb' Hy'. assert (b = b') as -> by (unfold block_addr in *; lia).
    by apply (proj1 (E10 b' Hb)), C8. }
  assert (icache v !! ino = None) as Hno by (destruct (icache v !! ino) eqn:Ei; [destruct C4'; apply E11; congruence|done]).
  assert (virt_addr sbi1 = virt_addr sbi) as Ev by done. pose proof (ci_table _ _ _ _ _ C1) as [B1 B2 B3 B4 B5].
  destruct dir_slot as (da & Ds).
  assert (forall y, pi <= y < pi + 128 -> nvm sbi1 y = nvm sbi y) as Hpi.
  { intros y Hy. apply C9. intros b Hb Hy'. destruct (slot_page _ _ _ _ _ Ds) as (c & b' & Hc & Hin & _ & H1 & H2).
    assert (b = b') as -> by (unfold block_addr in *; lia). by apply (ti_apart _ _ _ _ (ci_table _ _ _ _ _ I) c b' Hc Hin), C8. }
  split; [intros ->; congruence|]. split; [done|]. split; [done|]. split; [done|]. split; [|split; [|split; [done|]]].
  3:{ intros x Hx. apply C9. intros b Hb. apply Hx; [by apply C8|]. rewrite C12. tauto. }
  - split; cbn [v_sbi icache]; auto.
    + by rewrite C10.
    + apply (dir_state_carry P P1 pi dir sbi sbi1); auto.
      * pose proof (ds_homed _ _ _ _ _ _ _ _ E4) as [T1 T2 T3 T4]. destruct (ds_ino _ _ _ _ _ _ _ _ E4) as [Ei _].
        assert (Pi.nova_ino (nvm sbi1) pi = Pi.nova_ino (nvm sbi) pi) as En
          by (apply load_ext; intros y Hy; apply Hpi; simpl in Hy; lia).
        split; auto; rewrite En.
        -- unfold nova_get_specific_inode_page_lock in *. by rewrite C3.
        -- destruct T4 as (Hgt & x & Hx & Ex). split; [done|]. exists x. rewrite C3, Ev. split; [by apply C7|done].
      * apply load_ext. intros y Hy. apply Hpi. simpl in Hy. lia.
      * intros s i x Hs Hx y Hy. destruct (E8 s i x Hs Hx) as (b & Hb & H1 & H2). apply (Hown b); [right; by right|lia].
    + rewrite <- E5. apply load_ext. intros y Hy. apply Hpi. simpl in Hy. lia.
    + apply (journal_idle_carry sbi); auto. intros x Hx. apply (Hown 1); [by left|]. by apply (pair_in_block x).
    + intros s i x Hs Hx. unfold block_addr. rewrite Ev. by apply (E8 s i).
    + intros b Hb. destruct (E10 b Hb) as [G1 G2]. split; [rewrite C12; tauto|]. intros c Hc. rewrite C3 in Hc. intros [Hin|Hin]%C11; [by apply (G2 c)|by apply G1, C8].
    + intros x Hx. apply C5. left. by apply E11.
  - intros Hl. unfold NOVA_NORMAL_INODE_START in *. split; auto; [by rewrite C3|apply (lb_size _ _ B1)| |unfold nova_get_specific_inode_page_lock in *; by rewrite C3].
    split; [done|]. apply (slot_small sbi1 P1 ino a); [done|lia|by rewrite C3].
Qed.
End env.

(** ** The theorem *)

Context (inode0 : vfs_inode) (sih0 : nova_inode_info_header) (inode_init_owner : vfs_inode -> vfs_inode -> Z -> vfs_inode).
#[local] Notation create := (nova_create slab_garbage smp jiffies_to_msecs e garbage radix_nomem (Some (inode0, sih0)) inode_init_owner).
#[local] Notation lookup := (nova_lookup slab_garbage smp jiffies_to_msecs e garbage radix_nomem (Some (inode0, sih0))).

(** A name of the directory whose inode is cached is found. *)
Lemma lookup_cached v F P R di dsih D tail k d ino time :
  let s := bytes (d_km d) (d_name d) (d_len d) in
  names_env v F P R di dsih D tail k -> 0 < d_len d < 256 -> D !! s = Some ino -> icache v !! ino <> None ->
  lookup dir d time v = Some (inr (Some ino), v).
Proof.
  intros s N Hn Hs Hc. unfold nova_lookup. rewrite (proj2 (Z.ltb_ge _ _)) by (unfold NOVA_NAME_LEN; lia).
  destruct (dr_find _ _ _ (ds_rep _ _ _ _ _ _ _ _ (ne_state _ _ _ _ _ _ _ _ _ N)) s ino Hs) as (a & Ha & [[Hi1 Hi2] _ _ _]).
  destruct (ne_dir _ _ _ _ _ _ _ _ _ N) as [Hd _].
  assert (nova_inode_by_name dir (d_km d) (d_name d) (d_len d) v = Some ((ino, Some a), v)) as E.
  { unfold nova_inode_by_name. rewrite (at_inode_same dir v di dsih Hd _ (ino, Some a) (v_sbi v) (v_mon v)); [by destruct v|].
    unfold nova_find_dentry. rewrite fs_assoc. frun. rewrite BKDRHash_name by lia. fold s. rewrite Ha. frun. by rewrite Hi1. }
  vstep E. cbv beta iota. rewrite (proj2 (Z.eqb_neq ino 0)) by lia.
  destruct (icache v !! ino) as [x|] eqn:Ex; [|done].
  erewrite vfs_step by (unfold nova_iget; erewrite vfs_step by reflexivity; rewrite Ex; reflexivity). done.
Qed.

(** The state after a transaction: [m2] is the device with the changed directory, behind it
    only the bytes [X] and those of the transaction have changed. *)
Lemma commit_env v F P R di dsih D tail k di' t' D' tail' k' (X : Z -> Prop) m2 m4 mon4 ic4 gen4 :
  names_env v F P R di dsih D tail k -> (forall x, x < block_addr (v_sbi v) 1 -> m2 x = nvm (v_sbi v) x) ->
  dir_state P pi dir (with_nvm m2 (v_sbi v)) tail' limit t' D' -> tail <= tail' <= limit ->
  (forall s i a, D' !! s = Some i -> t' !! name_hash s = Some a -> (D !! s = Some i /\ tree dsih !! name_hash s = Some a) \/
     (virt_addr (v_sbi v) + tail <= a /\ dentry_end a s <= virt_addr (v_sbi v) + limit)) ->
  (forall x, X x -> block_addr (v_sbi v) 1 <= x /\ ~ pi + 64 <= x < pi + 72 /\
     forall s i a, D' !! s = Some i -> t' !! name_hash s = Some a -> ~ a <= x < dentry_end a s) ->
  (forall x, ~ journal_byte (v_sbi v) smp pg x -> ~ pi + 80 <= x < pi + 88 -> ~ X x -> m4 x = m2 x) ->
  journal_idle (with_nvm m4 (v_sbi v)) smp pg k' -> Pi.log_tail m4 pi = tail' ->
  ic4 !! dir = Some (di', with_tree t' dsih) -> i_ino di' = dir -> (forall x, ic4 !! x <> None -> used_ino (v_sbi v) R x) ->
  names_env (Vfs (with_nvm m4 (v_sbi v)) mon4 ic4 gen4) F P R di' (with_tree t' dsih) D' tail' k'.
Proof.
  intros N Hm2 St Hle Hent HX Hm42 J Ht Hic Hi2 Hus. destruct (dir_slot v F P R di dsih D tail k N) as (da & Ds). set (sbi := v_sbi v) in *.
  destruct (slot_bounds _ _ _ _ _ Ds) as (A3 & A4 & _). pose proof (sa_addr _ _ _ _ _ Ds) as Epi.
  destruct (ji_cpu _ _ _ _ J) as [Jc Jc']. cbn [cpus with_nvm] in *. pose proof (ji_page _ _ _ _ J) as Jp. cbn [num_blocks with_nvm] in Jp.
  destruct (slot_journal v F P R di dsih D tail k N dir da pi Ds) as [Q1 Q2]. fold sbi in Q1, Q2.
  pose proof (ds_room _ _ _ _ _ _ _ _ (ne_state _ _ _ _ _ _ _ _ _ N)) as (R1 & R2 & R3). fold sbi in R1, R2, R3.
  assert (forall x, x < block_addr sbi 1 -> m4 x = m2 x) as Hlow.
  { intros x Hx. apply Hm42; [unfold journal_byte, pair_addr, block_addr in *; lia..|]. intros H1%HX. lia. }
  assert (Pi.nova_ino m4 pi = Pi.nova_ino m2 pi) as Eni.
  { apply load_ext. intros x Hx. simpl in Hx. apply Hm42; unfold journal_byte; [lia..|]. intros H1%HX. lia. }
  assert (forall y, own y -> y <> 1 -> y <> pg -> forall x, block_addr sbi y <= x < block_addr sbi (y + 1) -> ~ X x -> m4 x = m2 x) as Hlog.
  { intros y Hy H1 H2 x Hx Hn. pose proof (own_apart v F P R di dsih D tail k N dir da pi y Ds Hy) as Ho. fold sbi in Ho.
    apply Hm42; [unfold journal_byte, pair_addr, block_addr in *; lia..|done]. }
  apply (names_env_move v F P R di dsih D tail k N); auto; cbn [tree with_tree].
  - intros x Hx. rewrite Hlow, Hm2 by done. done.
  - apply (dir_state_carry P P pi dir (with_nvm m2 sbi)); auto.
    + apply (homed_frame (with_nvm m2 sbi)); [apply St|apply St|cbn; lia|by split|exact Hlow|exact Eni].
    + intros s i x H1 H2 y Hy. assert (~ X y) as Hny by (intros Hx%HX; destruct Hx as (_ & _ & Hx); by apply (Hx s i x)).
      destruct (Hent s i x H1 H2) as [[H3 H4]|[H3 H4]].
      * destruct (ne_entries _ _ _ _ _ _ _ _ _ N s i x H3 H4) as (b & Hb & H5 & H6). fold sbi in H5, H6. destruct (ne_logs _ _ _ _ _ _ _ _ _ N b Hb).
        apply (Hlog b); [right; by right|done|done|lia|done].
      * destruct (ne_logs _ _ _ _ _ _ _ _ _ N _ (ne_window _ _ _ _ _ _ _ _ _ N)). apply (Hlog (tail / 4096)); [right; right; apply N|done|done| |done].
        apply (window_block v F P R di dsih D tail k N). fold sbi. lia.
Qed.

(** The entries with a new name. *)
Lemma insert_entries (D : gmap (list Z) Z) (t : gmap Z Z) s ino x0 : collision_free D s ->
  forall s' i x, <[s := ino]> D !! s' = Some i -> <[name_hash s := x0]> t !! name_hash s' = Some x ->
    (D !! s' = Some i /\ t !! name_hash s' = Some x) \/ (s' = s /\ x = x0).
Proof.
  intros Hcf s' i x H1 H2. apply lookup_insert_Some in H1 as [[<- <-]|[Hss H1]].
  - right. rewrite lookup_insert_eq in H2. split; [done|congruence].
  - left. split; [done|]. rewrite lookup_insert_ne in H2; [done|]. intros Hh. apply Hss. symmetry. by apply (Hcf s' i).
Qed.

(** The name is entered and the inode filled in: [v3] is before the transaction. *)
Record entered (v v3 : vfs_state) (P : Z -> list Z) (dsih : nova_inode_info_header) (D : gmap (list Z) Z) (tail len : Z) (s : list Z)
    (ino p : Z) (di2 : vfs_inode) (m2 m3 : memory) (inode : vfs_inode) (sih : nova_inode_info_header) : Prop := {
  en_sbi : v_sbi v3 = with_nvm m3 (v_sbi v);
  en_cache : icache v3 = <[ino := (inode, sih)]>
    (<[dir := (di2, with_tree (<[name_hash s := virt_addr (v_sbi v) + tail]> (tree dsih)) dsih)]> (icache v));
  en_dir : i_ino di2 = dir;
  en_same x : ~ virt_addr (v_sbi v) + tail <= x < virt_addr (v_sbi v) + tail + len -> m2 x = nvm (v_sbi v) x;
  en_state : dir_state P pi dir (with_nvm m2 (v_sbi v)) (tail + len) limit
    (<[name_hash s := virt_addr (v_sbi v) + tail]> (tree dsih)) (<[s := ino]> D);
  en_fresh : fresh_inode m2 m3 p ino inode;
  en_inode : i_ino inode = ino /\ tree sih = ∅;
}.

Lemma enter_ok v F P R di dsih D tail k type d ino a p mode size rdev time n :
  let s := bytes (d_km d) (d_name d) (d_len d) in
  let len := NOVA_DIR_LOG_REC_LEN (d_len d) in
  names_env v F P R di dsih D tail k -> slot_at (v_sbi v) P ino a p -> ino <> dir -> icache v !! ino = None ->
  0 < d_len d < 256 -> tail + len <= limit -> collision_free D s -> D !! s = None -> ready (3 + n) (v_mon v) ->
  exists v2 v3 di2 m2 m3 inode sih,
    add_dentry slab_garbage smp jiffies_to_msecs e garbage radix_nomem dir d ino 0 0 time v = Some ((0, tail + len), v2) /\
    nova_new_vfs_inode slab_garbage smp jiffies_to_msecs e garbage (Some (inode0, sih0)) inode_init_owner type dir a ino mode size rdev time v2 =
      Some (inr ino, v3) /\ ready n (v_mon v3) /\ entered v v3 P dsih D tail len s ino p di2 m2 m3 inode sih.
Proof.
  intros s len N Hslot Hne Hno Hn Hlim Hcf Hs Hr. destruct (ne_dir _ _ _ _ _ _ _ _ _ N) as [Hd Hdi].
  pose proof (ne_state _ _ _ _ _ _ _ _ _ N) as St. pose proof (sa_ino _ _ _ _ _ Hslot) as Hi. unfold NOVA_NORMAL_INODE_START in Hi.
  destruct (add_dentry_ok slab_garbage smp jiffies_to_msecs e garbage radix_nomem P pi dir pid_nonneg radix_serves (v_sbi v) (v_mon v) dsih tail limit D di ino
    (d_km d) (d_name d) (d_len d) 0 0 time (2 + n)) as (m2 & mon2 & di2 & E2 & Hr2 & Hdi2 & Hm2 & St2); auto; [apply N|lia|].
  fold s len in E2, St2, Hm2. set (t2 := <[name_hash s := virt_addr (v_sbi v) + tail]> (tree dsih)) in *.
  set (v2 := Vfs (with_nvm m2 (v_sbi v)) mon2 (<[dir := (di2, with_tree t2 dsih)]> (icache v)) (next_generation v)).
  assert (slot_at (with_nvm m2 (v_sbi v)) P ino a p) as Sl2.
  { apply slot_at_nvm; [done|]. intros x Hx. apply Hm2. pose proof (ds_room _ _ _ _ _ _ _ _ St). unfold block_addr in Hx. lia. }
  destruct (new_vfs_inode_ok slab_garbage smp jiffies_to_msecs e garbage inode0 sih0 inode_init_owner pid_nonneg v2 P type dir a p ino di2
    (with_tree t2 dsih) pi mode size rdev time n) as (m3 & mon3 & flags & E3 & Hr3 & Hfi); auto.
  { apply (ne_small _ _ _ _ _ _ _ _ _ N). }
  { cbn [v2 icache]. apply lookup_insert_eq. }
  { cbn [v2 icache]. by rewrite lookup_insert_ne. }
  { eapply find_dir_inode; [exact St2|congruence]. }
  do 7 eexists. split; [|split; [exact E3|split; [exact Hr3|]]].
  - unfold add_dentry. apply (on_inode_run dir v di dsih Hd). fstep E2. reflexivity.
  - split; cbn [v_sbi icache v2]; [done|done|congruence|exact Hm2|exact St2|by destruct Hfi|by split; [apply typed_ino|]].
Qed.

(** The inode behind the transaction, which changes its mark only. *)
Lemma committed_inode sbi P ino a p inode m2 m3 m4 :
  slot_at sbi P ino a p -> fresh_inode m2 m3 p ino inode -> (forall x, x < block_addr sbi 1 -> m4 x = nvm sbi x) ->
  (forall x, p + 3 <= x < p + 128 -> m4 x = m3 x) ->
  homed (with_nvm m4 sbi) P p /\ fresh_inode m4 m4 p ino inode.
Proof.
  intros Sl [G1 G2 G3 G4 G5 _ G7 G8 G9] Hlow Hm.
  assert (forall j o, 3 <= o -> o + Z.of_nat j <= 128 -> load j m4 (p + o) = load j m3 (p + o)) as Hf
    by (intros j o H1 H2; apply load_ext; intros x Hx; apply Hm; lia).
  assert (Pi.nova_ino m4 p = ino) as Hino by (rewrite <- G2; apply (Hf 8%nat 64); simpl; lia).
  split.
  - by apply (slot_homed _ _ _ _ _ (slot_at_nvm _ _ _ _ _ Sl m4 Hlow)).
  - split; auto; unfold Pi.log_head, Pi.log_tail, Pi.i_blk_type, Pi.i_mode, Pi.i_size, Pi.i_links_count in *;
      rewrite Hf by (simpl; lia); assumption.
Qed.

(** Where a creation writes in the blocks that were in use: the journal, the end of the
    directory's log and the pointer to it, and the slot of the new inode. *)
Definition create_touches (sbi : nova_sb_info) (tail len p x : Z) : Prop :=
  journal_byte sbi smp pg x \/ pi + 80 <= x < pi + 88 \/ p <= x < p + 128 \/
  virt_addr sbi + tail <= x < virt_addr sbi + tail + len.

(** The transaction. *)
Lemma commit_node_ok v v3 F P R di dsih D tail k s len ino a p di2 m2 m3 inode sih n :
  names_env v F P R di dsih D tail k -> slot_at (v_sbi v) P ino a p -> ino <> dir -> used_ino (v_sbi v) R ino ->
  entered v v3 P dsih D tail len s ino p di2 m2 m3 inode sih -> ready (3 + n) (v_mon v3) ->
  collision_free D s -> D !! s = None -> 29 + Z.of_nat (length s) <= len -> tail + len <= limit ->
  exists v4, nova_lite_transaction_for_new_inode slab_garbage smp jiffies_to_msecs e garbage p pi (tail + len) v3 = Some (tt, v4) /\
    ready n (v_mon v4) /\ cpus (v_sbi v4) = cpus (v_sbi v) /\ icache v4 = icache v3 /\
    names_env v4 F P R di2 (with_tree (<[name_hash s := virt_addr (v_sbi v) + tail]> (tree dsih)) dsih) (<[s := ino]> D) (tail + len) ((k + 1) mod 64) /\
    homed (v_sbi v4) P p /\ fresh_inode (nvm (v_sbi v4)) (nvm (v_sbi v4)) p ino inode /\ Pi.valid (nvm (v_sbi v4)) p = 1 /\
    forall x, ~ create_touches (v_sbi v) tail len p x -> nvm (v_sbi v4) x = nvm (v_sbi v) x.
Proof.
  intros N Sl Hne Hu [H1 H2 H3 H4 H5 H6 [H7 H8]] Hr Hcf Hs Hlen Hlim. set (sbi := v_sbi v) in *.
  destruct (dir_slot _ _ _ _ _ _ _ _ _ N) as (da & Ds). fold sbi in Ds. pose proof (sa_addr _ _ _ _ _ Ds) as Epi. pose proof (sa_addr _ _ _ _ _ Sl) as Ep.
  destruct (slots_disjoint sbi P ino dir a da (sa_tables _ _ _ _ _ Sl)) as (Hdis & _); try done; try apply Sl; try apply Ds;
    try (pose proof (sa_ino _ _ _ _ _ Sl); pose proof (sa_ino _ _ _ _ _ Ds); unfold NOVA_NORMAL_INODE_START in *; lia).
  unfold NOVA_INODE_SIZE in Hdis.
  pose proof (slot_journal _ _ _ _ _ _ _ _ _ N ino a p Sl) as [Jp1 Jp2]. pose proof (slot_journal _ _ _ _ _ _ _ _ _ N dir da pi Ds) as [Jq1 Jq2].
  fold sbi in Jp1, Jp2, Jq1, Jq2. destruct (slot_bounds _ _ _ _ _ Sl) as (A1 & _). destruct (slot_bounds _ _ _ _ _ Ds) as (A3 & _).
  pose proof (ne_journal _ _ _ _ _ _ _ _ _ N) as J. fold sbi in J. pose proof (ji_page _ _ _ _ J) as Jp. destruct (ji_cpu _ _ _ _ J) as [Jc Jc'].
  pose proof (ds_room _ _ _ _ _ _ _ _ (ne_state _ _ _ _ _ _ _ _ _ N)) as (R1 & R2 & R3). fold sbi in R1, R2, R3.
  assert (forall x, pair_addr sbi smp <= x < pair_addr sbi smp + 16 -> m3 x = nvm sbi x) as Hpair.
  { intros x Hx. rewrite (fi_same _ _ _ _ _ H6) by lia. apply H4. intros Hw. pose proof (pair_in_block _ _ _ _ _ _ _ _ _ N x Hx).
    pose proof (window_block _ _ _ _ _ _ _ _ _ N x ltac:(fold sbi; lia)). destruct (ne_logs _ _ _ _ _ _ _ _ _ N _ (ne_window _ _ _ _ _ _ _ _ _ N)).
    unfold block_addr in *. lia. }
  destruct (new_inode_transaction_ok slab_garbage smp jiffies_to_msecs e garbage pid_nonneg v3 pg k n p pi (tail + len)) as
    (m4 & mon4 & E4 & Hr4 & J4 & T4 & V4 & Hm4); auto; try (rewrite H1; by split); try (pose proof (ds_blocks _ _ _ _ _ _ _ _ H5) as Hbl; cbn in Hbl; fold sbi in Hbl; lia).
  { apply (journal_idle_carry sbi); rewrite ?H1; auto. }
  { rewrite H1. apply (ne_small _ _ _ _ _ _ _ _ _ N). }
  rewrite H1 in E4, J4, Hm4. cbn [nvm with_nvm] in Hm4. change (with_nvm m4 (with_nvm m3 sbi)) with (with_nvm m4 sbi) in E4, J4.
  assert (forall x, ~ journal_byte sbi smp pg x -> ~ pi + 80 <= x < pi + 88 -> ~ p <= x < p + 128 -> m4 x = m2 x) as Hm42.
  { intros x Q1 Q2 Q3. rewrite Hm4 by (try done; lia). by apply (fi_same _ _ _ _ _ H6). }
  eexists. split; [exact E4|]. cbn [v_sbi v_mon icache]. split; [done|]. split; [done|]. split; [done|]. split; [|].
  - apply (commit_env v F P R di dsih D tail k di2 _ _ _ _ (fun x => p <= x < p + 128) m2 m4); auto; fold sbi; [|lia| | |rewrite H2..].
    + intros x Hx. apply H4. unfold block_addr in Hx. lia.
    + intros s' i x Q1 Q2. destruct (insert_entries _ _ _ _ _ Hcf s' i x Q1 Q2) as [?|[-> ->]]; [by left|]. right. unfold dentry_end. lia.
    + intros x Hx. split; [unfold block_addr; lia|]. split; [lia|]. intros s' i x' Q1 Q2 Hy.
      destruct (insert_entries _ _ _ _ _ Hcf s' i x' Q1 Q2) as [[Q3 Q4]|[-> ->]].
      * destruct (ne_entries _ _ _ _ _ _ _ _ _ N s' i x' Q3 Q4) as (b & Hb & H9 & H10). fold sbi in H9, H10.
        pose proof (own_apart _ _ _ _ _ _ _ _ _ N ino a p b Sl ltac:(right; by right)) as Ho. fold sbi in Ho. lia.
      * pose proof (own_apart _ _ _ _ _ _ _ _ _ N ino a p _ Sl (or_intror (or_intror (ne_window _ _ _ _ _ _ _ _ _ N)))) as Ho. fold sbi in Ho.
        unfold dentry_end in Hy. pose proof (window_block _ _ _ _ _ _ _ _ _ N x) as Hwb. fold sbi in Hwb. lia.
    + rewrite lookup_insert_ne by done. apply lookup_insert_eq.
    + intros x Hx. destruct (decide (x = ino)) as [->|]; [done|]. apply (ne_cached _ _ _ _ _ _ _ _ _ N).
      rewrite lookup_insert_ne in Hx by done. destruct (decide (x = dir)) as [->|]; [|by rewrite lookup_insert_ne in Hx].
      destruct (ne_dir _ _ _ _ _ _ _ _ _ N) as [-> _]. done.
  - destruct (committed_inode sbi P ino a p inode m2 m3 m4 Sl H6) as [Q1 Q2]; [| |split; [done|split; [done|split; [done|]]]].
    + intros x Hx. rewrite Hm42, H4 by (unfold journal_byte, pair_addr, block_addr in *; lia). done.
    + intros x Hx. apply Hm4; unfold journal_byte, pair_addr, block_addr in *; cbn [virt_addr with_nvm]; lia.
    + intros x Hx. unfold create_touches in Hx. cbn [nvm with_nvm]. rewrite Hm42, H4 by tauto. done.
Qed.

End create.

(** ** An example *)

(** The free blocks of the allocator are behind the lowest of its ranges. *)
Lemma free_from `{RbTreeLaws} sbi F lo b : free_set sbi F ->
  forallb (fun fl => forallb (fun n => match range_nodes sbi !! n with Some r => lo <=? range_low r | None => true end)
    (inorder (block_free_tree fl))) (shared_free_list sbi :: free_lists sbi) = true -> F b -> lo <= b.
Proof.
  intros (R & Hok & HF) Hall Hb. apply HF in Hb as (c & Hc & Hb). rewrite forallb_forall in Hall.
  assert (exists fl, nova_get_free_list sbi c = Some fl /\ fl ∈ shared_free_list sbi :: free_lists sbi) as (fl & Hg & Hin).
  { unfold nova_get_free_list. destruct Hc as [Hc| ->].
    - rewrite (proj2 (Z.ltb_lt c _)), (proj2 (Z.ltb_ge c 0)) by lia. destruct (bo_cpus _ _ Hok) as [Hl _].
      destruct (lookup_lt_is_Some_2 (free_lists sbi) (Z.to_nat c)) as [fl Hfl]; [lia|]. exists fl. split; [done|]. right.
      by eapply list_elem_of_lookup_2.
    - destruct (bo_cpus _ _ Hok) as [_ Hl]. unfold SHARED_CPU. rewrite (proj2 (Z.ltb_ge _ _)) by lia. eexists. split; [done|by left]. }
  destruct (bo_list _ _ Hok c fl Hc Hg) as [[Hh _ _] _ _ _ _]. apply Exists_exists in Hb as (r & Hr & Hbr).
  apply list_elem_of_lookup in Hr as [i Hr]. destruct (Forall2_lookup_r _ _ _ _ _ Hh Hr) as (n & Hn & En).
  specialize (Hall fl ltac:(by apply list_elem_of_In)). rewrite forallb_forall in Hall.
  specialize (Hall n ltac:(apply list_elem_of_In; by eapply list_elem_of_lookup_2)). rewrite En in Hall. unfold in_range in Hbr. lia.
Qed.

(** The ranges of one map are edited, and the device behind its first block. *)
Lemma create_inv_edit `{RbTreeLaws} {L : LogBlocks} smp sbi F P R c im Q h rs m :
  create_inv smp sbi F P R -> 0 <= c < cpus sbi -> nova_get_inode_map sbi c = Some im ->
  map_edit (range_nodes sbi) im (inuse_range_high (cpus sbi)) None Q h im rs ->
  (forall n, block_node sbi n -> h !! n = range_nodes sbi !! n) -> 0 < num_blocks sbi ->
  (forall a, a < block_addr sbi 1 -> m a = nvm sbi a) ->
  create_inv smp (with_range_nodes h (with_nvm m sbi)) F P (set_ranges c rs R).
Proof.
  intros [[B1 B2 B3 B4 B5] I2 I3 I4] Hc Hg He Hn Hnb Hm.
  destruct (ranges_edit_ok sbi R c im Q h rs m I2 I3 Hc Hg He) as [Hok Hap]. split; auto.
  split; auto; [by apply (lb_local sbi); [|by split]|]. by apply (tables_ok_frame sbi); [..|split|done|done].
Qed.

(** The only range of a map is extended. *)
Definition up_to (n : positive) (high : Z) (h : node_heap) : node_heap := alter (fun r => RangeNode (range_low r) high) n h.

Lemma create_inv_up `{RbTreeLaws} {L : LogBlocks} smp sbi F P R c im x high r m :
  create_inv smp sbi F P R -> 0 <= c < cpus sbi -> nova_get_inode_map sbi c = Some im -> inorder (inode_inuse_tree im) = [x] ->
  R c = [r] -> range_nodes sbi !! x = Some r -> range_low r <= high < MAX_INODE -> inuse_range_high (cpus sbi) <= high ->
  0 < num_blocks sbi -> (forall a, a < block_addr sbi 1 -> m a = nvm sbi a) ->
  create_inv smp (with_range_nodes (up_to x high (range_nodes sbi)) (with_nvm m sbi)) F P (set_ranges c [RangeNode (range_low r) high] R).
Proof.
  intros Hinv Hc Eg Ei Er Ex Hh Hb Hn Hlow. pose proof (io_map _ _ (ci_inodes _ _ _ _ _ Hinv) c im Hc Eg) as Him. rewrite Er in Him.
  assert (map_edit (range_nodes sbi) im (inuse_range_high (cpus sbi)) None (fun y => in_ranges y [RangeNode (range_low r) high])
    (up_to x high (range_nodes sbi)) im [RangeNode (range_low r) high]) as He.
  { apply (map_replace (range_nodes sbi) im (inuse_range_high (cpus sbi)) [r] x [] [] [] r [] (fun r => RangeNode (range_low r) high));
      [exact Him| | |cbn; lia| |done].
    - split; [exact Ei|done|constructor|done|constructor].
    - pose proof (tree_wf _ _ _ (im_tree _ _ _ _ Him)) as Hwf. apply Forall_cons in Hwf as [Hwf _]. apply (ranges_ok_mid []).
      unfold wf_range, RANGE_LIMIT, MAX_INODE in *. cbn. split_and!; try lia; try apply ranges_ok_nil; constructor.
    - intros _. destruct Him as [_ _ _ (r' & rest & Hr' & Hlo & _) _]. injection Hr' as <- _. cbn. by split. }
  apply (create_inv_edit smp sbi F P R c im _ _ _ m Hinv Hc Eg He); auto.
  intros n Hbn. apply lookup_alter_ne. intros <-. refine (ci_nodes _ _ _ _ _ Hinv _ _ Hbn). exists c, im. rewrite Ei. split; [done|]. split; [done|by left].
Qed.

(** Pages are taken for a log. *)
Lemma create_inv_chain `{RbTreeLaws} {L : LogBlocks} smp sbi F P R bs sbi' :
  create_inv smp sbi F P R -> unlocked sbi -> fresh_chain sbi F bs sbi' -> 0 < num_blocks sbi ->
  create_inv smp sbi' (fun b => F b /\ b ∉ bs) P R /\ unlocked sbi'.
Proof.
  intros [[B1 B2 B3 B4 B5] I2 I3 I4] Hu [C1 C2 C3 C4 C5 C6 C7] Hn. pose proof C6 as [Ev Ec En _ Em [_ El] Ei _ _].
  destruct (inodes_ok_frame sbi sbi' R I2 I3 Em Ec C7) as [Hok Hap].
  split; [|intros c Hc; rewrite El; apply Hu; by rewrite <- Ec]. split; auto; [|by rewrite Ei, Ec].
  split; auto; [|destruct B3; split; by rewrite Ev, ?En| |by rewrite Ec].
  - apply (tables_ok_frame sbi); auto. intros a Ha. apply C5. intros b Hb%C2 Ht. pose proof (lb_bounds sbi F b B1 Hb).
    unfold tail_word, block_addr in *. lia.
  - intros c b Hc Hb [HF _]. rewrite Ec in Hc. by apply (B4 c b Hc Hb).
Qed.

Module CreateDemo.
Import RbList.RbList InodeTable.TableDemo Detect.DetectDemo FastGc.GcDemo DirLog.DirDemo.

(** The directory 40, empty, with the end of its log in page 5; the journal of CPU 0 is page 9;
    the numbers up to 78 of CPU 0 and up to 41 of CPU 1 are in use. *)
Definition cr_mem : memory :=
  let m := Pi.set_log_tail (Pi.set_nova_ino (nvm gc_alloc) gc_pi 40) gc_pi (4096 * 5 + 200) in
  set_journal_tail (set_journal_head m 69632 (slot 9 0)) 69632 (slot 9 0).
Definition cr_sbi0 : nova_sb_info := with_range_nodes (up_to 4 39 (range_nodes gc_alloc)) (with_nvm cr_mem gc_alloc).
Definition cr_sbi : nova_sb_info := with_range_nodes (up_to 5 20 (range_nodes cr_sbi0)) (with_nvm cr_mem cr_sbi0).
Definition cr_ranges : Z -> list nova_range_node := set_ranges 1 [RangeNode 0 20] (set_ranges 0 [RangeNode 0 39] R).
Definition cr_sih : nova_inode_info_header := with_tree ∅ gc_sih.
Definition cr_state (mon : monitor) : vfs_state := Vfs cr_sbi mon {[40 := (dd_inode, cr_sih)]} 0.
Definition cr_dentry : dentry := Dentry km 100 2 None.

Lemma gc_map : exists im im', nova_get_inode_map gc_alloc 0 = Some im /\ inorder (inode_inuse_tree im) = [4%positive] /\
  nova_get_inode_map gc_alloc 1 = Some im' /\ inorder (inode_inuse_tree im') = [5%positive].
Proof. do 2 eexists. split_and!; vm_compute; reflexivity. Qed.

Lemma gc_geometry : virt_addr gc_alloc = 65536 /\ num_blocks gc_alloc = 20 /\ cpus gc_alloc = 2 /\ map_id gc_alloc = 0.
Proof. vm_compute. split_and!; reflexivity. Qed.

(** The state before the edits. *)
Lemma gc_alloc_inv : exists F P, create_inv 0 gc_alloc F P R /\ unlocked gc_alloc /\ P 0 = [3] /\ P 1 = [4] /\ (forall b, F b -> 10 <= b).
Proof.
  destruct gc_tables as (F & P & Hinv & Hu & P0 & P1 & Hch). exists (fun b => F b /\ b ∉ [5; 6; 7; 8; 9]), P.
  destruct fs_geometry as (_ & _ & _ & _ & Gn & _).
  destruct (create_inv_chain 0 fs3 F P R _ gc_alloc Hinv Hu Hch ltac:(rewrite Gn; lia)) as [H1 H2].
  split; [exact H1|]. split; [exact H2|]. split; [exact P0|]. split; [exact P1|]. intros b Hb.
  refine (free_from gc_alloc _ 10 b (fc_free _ _ _ _ Hch) _ Hb). vm_compute. reflexivity.
Qed.

Lemma cr_low a : a < 69632 \/ 69648 <= a < gc_pi \/ gc_pi + 88 <= a -> cr_mem a = nvm gc_alloc a.
Proof.
  intros Ha. unfold cr_mem, set_journal_tail, set_journal_head, Pi.set_log_tail, Pi.set_nova_ino, gc_pi in *. cbv zeta.
  by rewrite !store_disjoint by (simpl; lia).
Qed.

Lemma cr_inv : exists F P, create_inv 0 cr_sbi F P cr_ranges /\ unlocked cr_sbi /\ P 0 = [3] /\ P 1 = [4] /\ (forall b, F b -> 10 <= b).
Proof.
  destruct gc_alloc_inv as (F & P & Hinv & Hu & P0 & P1 & HF). exists F, P. destruct gc_geometry as (Gv & Gn & Gc & Gm).
  destruct gc_map as (im & im' & Eg & Ei & Eg' & Ei').
  split; [|split; [exact Hu|split_and!; assumption]].
  assert (forall a, a < block_addr gc_alloc 1 -> cr_mem a = nvm gc_alloc a) as Hlow
    by (intros a Ha; unfold block_addr in Ha; rewrite Gv in Ha; apply cr_low; lia).
  assert (create_inv 0 cr_sbi0 F P (set_ranges 0 [RangeNode 0 39] R)) as H1.
  { refine (create_inv_up 0 gc_alloc F P R 0 im 4 39 (RangeNode 0 7) cr_mem Hinv _ Eg Ei _ _ _ _ _ Hlow);
      [rewrite Gc; lia|reflexivity|vm_compute; reflexivity|vm_compute; split; [discriminate|reflexivity]|rewrite Gc; vm_compute; discriminate|rewrite Gn; lia]. }
  assert (cpus cr_sbi0 = 2 /\ num_blocks cr_sbi0 = 20) as [Gc0 Gn0] by exact (conj Gc Gn).
  refine (create_inv_up 0 cr_sbi0 F P _ 1 im' 5 20 (RangeNode 0 7) cr_mem H1 _ Eg' Ei' _ _ _ _ _ _);
    [rewrite Gc0; lia|reflexivity|vm_compute; reflexivity|vm_compute; split; [discriminate|reflexivity]|
     rewrite Gc0; vm_compute; discriminate|rewrite Gn0; lia|reflexivity].
Qed.

Lemma cr_geometry : virt_addr cr_sbi = 65536 /\ num_blocks cr_sbi = 20 /\ cpus cr_sbi = 2.
Proof. destruct gc_geometry as (Gv & Gn & Gc & _). exact (conj Gv (conj Gn Gc)). Qed.

Lemma cr_fields : Pi.nova_ino (nvm cr_sbi) gc_pi = 40 /\ Pi.log_tail (nvm cr_sbi) gc_pi = 4096 * 5 + 200 /\
  journal_head (nvm cr_sbi) 69632 = slot 9 0 /\ journal_tail (nvm cr_sbi) 69632 = slot 9 0.
Proof. vm_compute. split_and!; reflexivity. Qed.

Lemma cr_number : fst <$> nova_new_nova_inode 0 cr_sbi 0 0 = Some (80, 4096 * 10 + 8 * 128).
Proof. vm_compute. reflexivity. Qed.

Lemma cr_dir P : tables_ok cr_sbi P -> unlocked cr_sbi -> mapped cr_sbi -> P 0 = [3] ->
  dir_state P gc_pi 40 cr_sbi (4096 * 5 + 200) (4096 * 5 + 1000) ∅ ∅.
Proof.
  intros Ht Hu Hm P0. destruct cr_geometry as (Gv & Gn & Gc). destruct cr_fields as (Ei & _).
  split; rewrite ?Gv, ?Gn.
  - split; [exact Ht|exact Hu| |]; rewrite Ei, ?Gc, ?Gv.
    + unfold nova_get_specific_inode_page_lock. rewrite Gc. reflexivity.
    + split; [lia|]. exists (4096 * 3 + 20 * 128). split; [|reflexivity]. unfold inode_slot. change (40 mod 2) with 0. rewrite P0. reflexivity.
  - exact Hm.
  - lia.
  - split; [exact Ei|reflexivity].
  - vm_compute. split_and!; discriminate.
  - unfold gc_pi. lia.
  - split; intros *; rewrite lookup_empty; intros Hx; discriminate Hx.
  - intros s i a Hx. rewrite lookup_empty in Hx. discriminate Hx.
Qed.

Lemma cr_env mon : exists F P, names_env 0 40 gc_pi (4096 * 5 + 1000) 9 (fun b => b = 5) (cr_state mon) F P cr_ranges dd_inode cr_sih ∅ (4096 * 5 + 200) 0 /\
  P 0 = [3] /\ P 1 = [4].
Proof.
  destruct cr_inv as (F & P & Hinv & Hu & P0 & P1 & HF). exists F, P. split; [|exact (conj P0 P1)]. destruct cr_geometry as (Gv & Gn & Gc).
  destruct cr_fields as (Ei & Et & Eh & Ej). pose proof (ci_table _ _ _ _ _ Hinv) as [_ B2 B3 _ _].
  split.
  - exact Hinv.
  - change (v_sbi (cr_state mon)) with cr_sbi. rewrite Gn. vm_compute. discriminate.
  - split; [apply lookup_singleton_eq|reflexivity].
  - exact (cr_dir P B2 Hu B3 P0).
  - exact Et.
  - change (v_sbi (cr_state mon)) with cr_sbi. split; unfold pair_addr, block_addr; rewrite ?Gv, ?Gn, ?Gc; [exact B3|lia..|exact Eh|exact Ej].
  - reflexivity.
  - intros s i a Hx. rewrite lookup_empty in Hx. discriminate Hx.
  - lia.
  - change (v_sbi (cr_state mon)) with cr_sbi. rewrite Gc. intros b Hb. split; [intros Hx; specialize (HF b Hx); lia|].
    intros c Hc. assert (c = 0 \/ c = 1) as [-> | ->] by lia; rewrite ?P0, ?P1, list_elem_of_singleton; lia.
  - intros x Hx. assert (x = 40) as ->.
    { destruct (decide (x = 40)) as [E|E]; [exact E|]. destruct Hx. apply lookup_singleton_ne. congruence. }
    change (v_sbi (cr_state mon)) with cr_sbi. unfold used_ino. rewrite Gc. change (40 mod 2) with 0. apply in_ranges_cons. left.
    unfold in_range. cbn. mlia.
Qed.

Lemma cr_room j c : 0 <= c < 2 -> in_ranges j (cr_ranges c) -> j < 16383.
Proof.
  intros Hc Hj. assert (cr_ranges 0 = [RangeNode 0 39] /\ cr_ranges 1 = [RangeNode 0 20]) as [E0 E1] by (split; reflexivity).
  assert (c = 0 \/ c = 1) as [-> | ->] by lia; rewrite ?E0, ?E1 in Hj;
    (apply in_ranges_cons in Hj as [Hj|Hj%in_ranges_nil]; [|destruct Hj]); unfold in_range in Hj; simpl in Hj; lia.
Qed.

End CreateDemo.
