(* ===== verification/Unlink.v ===== *)
(** * Removing a name (namei.c)

    [nova_unlink] takes the name out of the directory, drops a link of the inode and logs the
    new number of links; both logs are committed with one transaction, which also marks the
    inode invalid when it has lost its last link. *)

From S2P Require Import Prelude Layout RangeTree RbList State Balloc BallocFacts BallocSpec.
From S2P Require Import BallocInit BallocTheorems TreeEdits InodeMap LogBlocks InodeTable.
From S2P Require Import Monitor Histogram HashTable Records KnapSack Detect WriteCount Migrate Journal.
From S2P Require Import LogPages World InodeLog FastGc LogAppend FileTree Truncate WearBudget FileData Directory DirTree.
From S2P Require Import DirLog Attr Resize Release Vfs Names Transaction Create.
#[local] Open Scope word_scope.

(** ** The log entry *)

(** The number of links, the time and the flags of [inode] are in the entry at [x]. *)
Record link_logged (m : memory) (x : Z) (inode : vfs_inode) : Prop := {
  lk_type : nova_get_entry_type m x = LINK_CHANGE;
  lk_links : Lc.links m x = u16 (vfs_nlink inode);
  lk_ctime : Lc.ctime m x = u32 (vfs_ctime inode);
  lk_flags : Lc.flags m x = u32 (vfs_flags inode);
}.

Lemma link_logged_same m m' x inode : (forall y, x <= y < x + 32 -> m' y = m y) -> link_logged m x inode -> link_logged m' x inode.
Proof.
  intros Hm [H1 H2 H3 H4]. split; [rewrite <- H1|rewrite <- H2|rewrite <- H3|rewrite <- H4];
    apply load_ext; intros y Hy; apply Hm; simpl in Hy; lia.
Qed.

Section append.
Context `{RbTree} (slab_garbage : nova_range_node) (smp : Z) (jiffies_to_msecs : Z -> Z) (e : env) (garbage : Z).

Lemma append_link_ok sbi mon sih P ino a p inode tail :
  slot_at sbi P ino a p -> Pi.nova_ino (nvm sbi) p = ino -> NOVA_NORMAL_INODE_START < ino -> Pi.log_tail (nvm sbi) p = tail ->
  4096 <= tail < 4096 * num_blocks sbi -> tail mod 4096 + 32 <= LAST_ENTRY ->
  exists m', nova_append_link_change_entry slab_garbage smp jiffies_to_msecs e garbage p inode 0 (World sbi mon sih) =
      Some ((0, tail + 32), World (with_nvm m' sbi) mon (with_last_link_change tail sih)) /\
    link_logged m' (virt_addr sbi + tail) inode /\
    forall x, ~ virt_addr sbi + tail <= x < virt_addr sbi + tail + 32 -> m' x = nvm sbi x.
Proof.
  intros Sl Hi Hn Ht Hb Hfit. pose proof (slot_homed _ _ _ _ _ Sl Hi) as Hh. pose proof (sa_size _ _ _ _ _ Sl) as Hsz.
  assert (nova_get_append_head slab_garbage smp jiffies_to_msecs e garbage p 0 Lc.length (World sbi mon sih) = Some (tail, World sbi mon sih)) as E.
  { apply (append_head_fits slab_garbage smp jiffies_to_msecs e garbage sbi mon sih P); auto; try apply Sl; rewrite ?Hi; try done; unfold Lc.length; lia. }
  unfold nova_append_link_change_entry. fstep E. rewrite (proj2 (Z.eqb_neq tail 0)) by lia.
  assert (tail + 32 <= 4096 * num_blocks sbi) by (unfold LAST_ENTRY in *; mlia).
  erewrite fs_step by (apply (get_block_ok sbi mon sih tail 32); [apply Sl|split; lia|lia]). frun. cbn [nvm with_nvm]. unfold Lc.length.
  rewrite u64_small by lia. eexists. split; [reflexivity|]. cbv zeta. split.
  - split; unfold nova_get_entry_type, Lc.links, Lc.ctime, Lc.flags; by unfield.
  - intros x Hx. by rewrite !store_disjoint by (simpl; lia).
Qed.
End append.

(** ** Changing the number of links *)

Section links.
Context `{RbTreeLaws} {L : LogBlocks} (slab_garbage : nova_range_node) (smp : Z) (jiffies_to_msecs : Z -> Z) (e : env).
Context (garbage : Z) (radix_nomem : Z -> bool).
Hypothesis pid_nonneg : 0 <= current_pid e.
Hypothesis radix_serves : forall i, radix_nomem i = false.
Context (dir pi limit pg : Z) (logb : Z -> Prop).
#[local] Notation env_at := (names_env smp dir pi limit pg logb).

(** The inode [ino], cached, in the slot at [p]; its log ends at [ftail], in a page that is
    neither of the journal nor of the directory. *)
Record file_env (v : vfs_state) (P : Z -> list Z) (ino a p ftail : Z) (fi : vfs_inode) (fsih : nova_inode_info_header) : Prop := {
  fe_cached : icache v !! ino = Some (fi, fsih) /\ i_ino fi = ino;
  fe_ne : ino <> dir;
  fe_slot : slot_at (v_sbi v) P ino a p;
  fe_number : Pi.nova_ino (nvm (v_sbi v)) p = ino /\ NOVA_NORMAL_INODE_START < ino;
  fe_tail : Pi.log_tail (nvm (v_sbi v)) p = ftail;
  fe_range : 4096 <= ftail < 4096 * num_blocks (v_sbi v);
  fe_page : ~ own pg logb (ftail / 4096) /\ forall c, 0 <= c < cpus (v_sbi v) -> ftail / 4096 ∉ P c;
}.

(** The directory after a change of its names: [v2] is before the transaction. *)
Record dir_changed (v v2 : vfs_state) (P : Z -> list Z) (dsih : nova_inode_info_header) (D : gmap (list Z) Z) (tail : Z)
    (t' : gmap Z Z) (D' : gmap (list Z) Z) (tail' : Z) (di2 : vfs_inode) (m2 : memory) : Prop := {
  dc_sbi : v_sbi v2 = with_nvm m2 (v_sbi v);
  dc_cache : icache v2 = <[dir := (di2, with_tree t' dsih)]> (icache v);
  dc_dir : i_ino di2 = dir;
  dc_same x : ~ virt_addr (v_sbi v) + tail <= x < virt_addr (v_sbi v) + tail' ->
    (forall s i a, D !! s = Some i -> D' !! s = None -> tree dsih !! name_hash s = Some a -> x <> a + 3) -> m2 x = nvm (v_sbi v) x;
  dc_state : dir_state P pi dir (with_nvm m2 (v_sbi v)) tail' limit t' D';
  dc_tail : tail <= tail' <= limit;
  dc_entries s i a : D' !! s = Some i -> t' !! name_hash s = Some a ->
    (D !! s = Some i /\ tree dsih !! name_hash s = Some a) \/
    (virt_addr (v_sbi v) + tail <= a /\ dentry_end a s <= virt_addr (v_sbi v) + limit);
}.

(** Where a change of the names writes: the journal, the ends of both logs and the pointers to
    them, the mark of the inode, and the mark of the entry of a name that is removed. *)
Definition link_touches (sbi : nova_sb_info) (dsih : nova_inode_info_header) (D D' : gmap (list Z) Z) (tail tail' ftail p x : Z) : Prop :=
  journal_byte sbi smp pg x \/ pi + 80 <= x < pi + 88 \/ p + 80 <= x < p + 88 \/ x = p + 2 \/
  virt_addr sbi + tail <= x < virt_addr sbi + tail' \/ virt_addr sbi + ftail <= x < virt_addr sbi + ftail + 32 \/
  exists s i a, D !! s = Some i /\ D' !! s = None /\ tree dsih !! name_hash s = Some a /\ x = a + 3.

Section commit.
Context (v v2 : vfs_state) (F : Z -> Prop) (P : Z -> list Z) (R : Z -> list nova_range_node).
Context (di : vfs_inode) (dsih : nova_inode_info_header) (D : gmap (list Z) Z) (tail k : Z).
Context (t' : gmap Z Z) (D' : gmap (list Z) Z) (tail' : Z) (di2 : vfs_inode) (m2 : memory).
Context (ino a p ftail : Z) (fi : vfs_inode) (fsih : nova_inode_info_header).
Context (N : env_at v F P R di dsih D tail k) (C : dir_changed v v2 P dsih D tail t' D' tail' di2 m2).
Context (Fe : file_env v P ino a p ftail fi fsih).
#[local] Notation sbi := (v_sbi v).

(** The change of the directory is in the pages of its log. *)
Lemma changed_pages x : (forall b, logb b -> ~ block_addr sbi b <= x < block_addr sbi (b + 1)) -> m2 x = nvm sbi x.
Proof.
  intros Hx. apply (dc_same _ _ _ _ _ _ _ _ _ _ _ C).
  - intros Hw. pose proof (dc_tail _ _ _ _ _ _ _ _ _ _ _ C). apply (Hx (tail / 4096)); [apply N|].
    apply (window_block smp jiffies_to_msecs dir pi limit pg logb v F P R di dsih D tail k N). lia.
  - intros s i x0 Hs _ Ht ->. destruct (ne_entries _ _ _ _ _ _ _ _ _ _ _ _ _ _ _ N s i x0 Hs Ht) as (b & Hb & H1 & H2).
    apply (Hx b Hb). unfold dentry_end in H2. lia.
Qed.

(** A page that belongs to no inode is away from the slots. *)
Lemma table_page_apart b ino' a' p' : (forall c, 0 <= c < cpus sbi -> b ∉ P c) -> slot_at sbi P ino' a' p' ->
  p' + 128 <= block_addr sbi b \/ block_addr sbi (b + 1) <= p'.
Proof.
  intros Hb Sl. destruct (slot_page _ _ _ _ _ Sl) as (c & b' & Hc & Hin & _ & H1 & H2).
  assert (b <> b') by (intros ->; by apply (Hb c Hc)). unfold block_addr in *. lia.
Qed.

Lemma slot_unchanged ino' a' p' x : slot_at sbi P ino' a' p' -> p' <= x < p' + 128 -> m2 x = nvm sbi x.
Proof.
  intros Sl Hx. apply changed_pages. intros b Hb.
  pose proof (own_apart smp dir pi limit pg logb v F P R di dsih D tail k N ino' a' p' b Sl ltac:(right; by right)). lia.
Qed.

Lemma block1_unchanged x : x < block_addr sbi 2 -> m2 x = nvm sbi x.
Proof.
  intros Hx. pose proof (ne_state _ _ _ _ _ _ _ _ _ _ _ _ _ _ _ N) as St. destruct (ds_room _ _ _ _ _ _ _ _ St) as (R1 & _ & _).
  apply (dc_same _ _ _ _ _ _ _ _ _ _ _ C).
  - intros Hw. pose proof (dc_tail _ _ _ _ _ _ _ _ _ _ _ C).
    pose proof (window_block smp jiffies_to_msecs dir pi limit pg logb v F P R di dsih D tail k N x ltac:(lia)).
    destruct (ne_logs _ _ _ _ _ _ _ _ _ _ _ _ _ _ _ N _ (ne_window _ _ _ _ _ _ _ _ _ _ _ _ _ _ _ N)). unfold block_addr in *. mlia.
  - intros s i x0 Hs _ Ht ->. destruct (ne_entries _ _ _ _ _ _ _ _ _ _ _ _ _ _ _ N s i x0 Hs Ht) as (b & Hb & H1 & H2).
    destruct (ds_fresh _ _ _ _ _ _ _ _ St s i x0 Hs Ht) as (_ & _ & H3). destruct (ne_logs _ _ _ _ _ _ _ _ _ _ _ _ _ _ _ N b Hb).
    unfold block_addr, dentry_end in *. lia.
Qed.

(** The bytes of the new entry of the inode's log. *)
Lemma entry_block x : ftail mod 4096 + 32 <= LAST_ENTRY -> virt_addr sbi + ftail <= x < virt_addr sbi + ftail + 32 ->
  block_addr sbi (ftail / 4096) <= x < block_addr sbi (ftail / 4096 + 1).
Proof. unfold LAST_ENTRY, block_addr. intros. mlia. Qed.

(** It meets neither the journal nor a slot nor the log of the directory. *)
Lemma entry_apart x : ftail mod 4096 + 32 <= LAST_ENTRY -> virt_addr sbi + ftail <= x < virt_addr sbi + ftail + 32 ->
  ~ journal_byte sbi smp pg x /\ (forall ino' a' p', slot_at sbi P ino' a' p' -> ~ p' <= x < p' + 128) /\
  (forall b, logb b -> ~ block_addr sbi b <= x < block_addr sbi (b + 1)).
Proof.
  intros Hfit Hx. pose proof (entry_block x Hfit Hx) as Hb. destruct (fe_page _ _ _ _ _ _ _ _ Fe) as [Ho Hp]. split_and!.
  - intros [Hj|Hj]; swap 1 2.
    + pose proof (pair_in_block smp dir pi limit pg logb v F P R di dsih D tail k N x Hj). apply Ho. left. unfold block_addr in *. lia.
    + apply Ho. right. left. unfold block_addr in *. lia.
  - intros ino' a' p' Sl. pose proof (table_page_apart _ _ _ _ Hp Sl). lia.
  - intros b Hl Hbl. apply Ho. right. right. assert (ftail / 4096 = b) as -> by (unfold block_addr in *; lia). done.
Qed.

(** The inode is changed by [f] and the change is logged. *)
Lemma link_append_ok f :
  ftail mod 4096 + 32 <= LAST_ENTRY ->
  exists v3 m3, edit_inode ino f v2 = Some (tt, v3) /\
    append_link slab_garbage smp jiffies_to_msecs e garbage ino p v3 = Some ((0, ftail + 32),
      Vfs (with_nvm m3 sbi) (v_mon v2) (<[ino := (f fi, with_last_link_change ftail fsih)]> (icache v2)) (next_generation v2)) /\
    link_logged m3 (virt_addr sbi + ftail) (f fi) /\
    forall x, ~ virt_addr sbi + ftail <= x < virt_addr sbi + ftail + 32 -> m3 x = m2 x.
Proof.
  intros Hfit. destruct Fe as [[Hc Hi] Hne Sl [Hn1 Hn2] Ht Hrg [Ho Hp]]. pose proof C as [C1 C2 C3 C4 C5 C6 C7].
  assert (icache v2 !! ino = Some (fi, fsih)) as Hc2 by (rewrite C2, lookup_insert_ne by done; exact Hc).
  set (v3 := Vfs (v_sbi v2) (v_mon v2) (<[ino := (f fi, fsih)]> (icache v2)) (next_generation v2)).
  assert (edit_inode ino f v2 = Some (tt, v3)) as E3 by (by apply (on_inode_run ino v2 fi fsih Hc2)).
  assert (slot_at (with_nvm m2 sbi) P ino a p) as Sl2 by (apply slot_at_nvm; [done|]; intros x Hx; apply block1_unchanged; unfold block_addr in *; lia).
  assert (forall j o, 0 <= o -> o + Z.of_nat j <= 128 -> load j m2 (p + o) = load j (nvm sbi) (p + o)) as Hp2
    by (intros j o H1 H2; apply load_ext; intros x Hx; apply (slot_unchanged ino a p); [done|lia]).
  destruct (append_link_ok slab_garbage smp jiffies_to_msecs e garbage (with_nvm m2 sbi) (v_mon v2) fsih P ino a p (f fi) ftail Sl2)
    as (m3 & E4 & Hlog & Hm3); auto; [unfold Pi.nova_ino in *; cbn [nvm with_nvm]; rewrite Hp2 by (simpl; lia); done|
      unfold Pi.log_tail in *; cbn [nvm with_nvm]; rewrite Hp2 by (simpl; lia); done|].
  change (with_nvm m3 (with_nvm m2 sbi)) with (with_nvm m3 sbi) in E4. exists v3, m3. split; [done|]. split; [|by split].
  unfold append_link. erewrite (at_inode_run ino v3 (f fi) fsih); [|apply lookup_insert_eq|cbn [v3 v_sbi v_mon]; rewrite C1; exact E4].
  unfold v3. cbn [icache next_generation]. by rewrite insert_insert_eq.
Qed.

(** The inode and the entry are away from the directory. *)
Lemma link_apart x : ftail mod 4096 + 32 <= LAST_ENTRY ->
  p <= x < p + 128 \/ virt_addr sbi + ftail <= x < virt_addr sbi + ftail + 32 ->
  block_addr sbi 1 <= x /\ ~ pi + 64 <= x < pi + 72 /\
  forall s i y, D' !! s = Some i -> t' !! name_hash s = Some y -> ~ y <= x < dentry_end y s.
Proof.
  intros Hfit Hx. pose proof (fe_slot _ _ _ _ _ _ _ _ Fe) as Sl. destruct (dir_slot _ _ _ _ _ _ _ _ _ _ _ _ _ _ _ N) as (da & Ds).
  pose proof (fe_range _ _ _ _ _ _ _ _ Fe) as Hrg. destruct (slot_bounds _ _ _ _ _ Sl) as (A1 & _).
  destruct (slots_disjoint sbi P ino dir a da (sa_tables _ _ _ _ _ Sl)) as (Hdis & _); try apply Sl; try apply Ds; try apply Fe;
    try (pose proof (sa_ino _ _ _ _ _ Sl); pose proof (sa_ino _ _ _ _ _ Ds); unfold NOVA_NORMAL_INODE_START in *; lia).
  pose proof (sa_addr _ _ _ _ _ Sl) as Ep. pose proof (sa_addr _ _ _ _ _ Ds) as Epi. unfold NOVA_INODE_SIZE in Hdis.
  split; [unfold block_addr; lia|]. split; [destruct Hx as [Hx|Hx]; [lia|]; pose proof (proj1 (proj2 (entry_apart x Hfit Hx)) _ _ _ Ds); lia|].
  intros s i y Hs Hy Hxy. assert (exists b, logb b /\ block_addr sbi b <= x < block_addr sbi (b + 1)) as (b & Hb & Hxb).
  { destruct (dc_entries _ _ _ _ _ _ _ _ _ _ _ C s i y Hs Hy) as [[H1 H2]|[H1 H2]].
    - destruct (ne_entries _ _ _ _ _ _ _ _ _ _ _ _ _ _ _ N s i y H1 H2) as (b & Hb & H3 & H4). exists b. split; [done|lia].
    - exists (tail / 4096). split; [apply N|]. apply (window_block smp jiffies_to_msecs dir pi limit pg logb v F P R di dsih D tail k N). lia. }
  destruct Hx as [Hx|Hx]; [|by apply (proj2 (proj2 (entry_apart x Hfit Hx)) b)].
  pose proof (own_apart smp dir pi limit pg logb v F P R di dsih D tail k N ino a p b Sl ltac:(right; by right)). lia.
Qed.

(** The change is committed with that of the directory. *)
Lemma link_commit_ok m3 inode sih inv n :
  let v4 := Vfs (with_nvm m3 sbi) (v_mon v2) (<[ino := (inode, sih)]> (icache v2)) (next_generation v2) in
  i_ino inode = ino -> ftail mod 4096 + 32 <= LAST_ENTRY -> ready (3 + n) (v_mon v2) -> link_logged m3 (virt_addr sbi + ftail) inode ->
  (forall x, ~ virt_addr sbi + ftail <= x < virt_addr sbi + ftail + 32 -> m3 x = m2 x) ->
  exists v5, link_transaction slab_garbage smp jiffies_to_msecs e garbage p pi (ftail + 32) tail' inv v4 = Some (tt, v5) /\
    ready n (v_mon v5) /\ icache v5 = <[ino := (inode, sih)]> (<[dir := (di2, with_tree t' dsih)]> (icache v)) /\
    env_at v5 F P R di2 (with_tree t' dsih) D' tail' ((k + 1) mod 64) /\
    file_env v5 P ino a p (ftail + 32) inode sih /\
    link_logged (nvm (v_sbi v5)) (virt_addr (v_sbi v5) + ftail) inode /\
    Pi.valid (nvm (v_sbi v5)) p = (if inv =? 0 then Pi.valid (nvm sbi) p else 0) /\
    forall x, ~ link_touches sbi dsih D D' tail tail' ftail p x -> nvm (v_sbi v5) x = nvm sbi x.
Proof.
  intros v4 Hf Hfit Hr Hlog Hm3. destruct Fe as [[Hc Hi] Hne Sl [Hn1 Hn2] Ht Hrg [Ho Hp]].
  pose proof C as [C1 C2 C3 C4 C5 C6 C7]. destruct (dir_slot _ _ _ _ _ _ _ _ _ _ _ _ _ _ _ N) as (da & Ds).
  pose proof (ds_room _ _ _ _ _ _ _ _ C5) as (R1 & R2 & _). pose proof (ds_blocks _ _ _ _ _ _ _ _ C5) as R3. cbn in R1, R2, R3.
  pose proof (slot_journal _ _ _ _ _ _ _ _ _ _ _ _ _ _ _ N ino a p Sl) as Jp. pose proof (slot_journal _ _ _ _ _ _ _ _ _ _ _ _ _ _ _ N dir da pi Ds) as Jq.
  destruct (slots_disjoint sbi P ino dir a da (sa_tables _ _ _ _ _ Sl)) as (Hdis & _); try done; try apply Sl; try apply Ds;
    try (pose proof (sa_ino _ _ _ _ _ Sl); pose proof (sa_ino _ _ _ _ _ Ds); unfold NOVA_NORMAL_INODE_START in *; lia).
  pose proof (sa_addr _ _ _ _ _ Sl) as Ep. pose proof (sa_addr _ _ _ _ _ Ds) as Epi. unfold NOVA_INODE_SIZE in Hdis.
  destruct (link_transaction_ok slab_garbage smp jiffies_to_msecs e garbage pid_nonneg v4 pg k n p pi (ftail + 32) tail' inv) as
    (m5 & mon5 & E5 & Hr5 & J5 & T5 & T5' & V5 & Hm5); auto; try lia; try (destruct Jp, Jq; split; done).
  { apply (journal_idle_carry sbi); auto; [apply N|]. intros x Hx. cbn [v4 v_sbi nvm with_nvm].
    pose proof (pair_in_block smp dir pi limit pg logb v F P R di dsih D tail k N x Hx). rewrite Hm3; [apply block1_unchanged; lia|].
    intros Hw. apply (entry_apart x Hfit Hw). by right. }
  { apply N. }
  cbn [v4 v_sbi icache next_generation nvm with_nvm] in E5, J5, V5, Hm5. change (with_nvm m5 (with_nvm m3 sbi)) with (with_nvm m5 sbi) in E5, J5.
  change (journal_byte (with_nvm m3 sbi) smp pg) with (journal_byte sbi smp pg) in Hm5.
  destruct (slot_bounds _ _ _ _ _ Sl) as (A1 & _). destruct (slot_bounds _ _ _ _ _ Ds) as (A2 & _).
  assert (forall x, x < block_addr sbi 1 -> m5 x = nvm sbi x) as Hlow.
  { pose proof (ji_page _ _ _ _ J5) as Jpg. destruct (ji_cpu _ _ _ _ J5). cbn in Jpg. intros x Hx.
    rewrite Hm5, Hm3, block1_unchanged; try done; unfold journal_byte, pair_addr, block_addr in *; lia. }
  eexists. split; [exact E5|]. cbn [v_sbi v_mon icache]. split; [done|]. rewrite C2. split; [done|]. split_and!.
  - apply (commit_env smp jiffies_to_msecs dir pi limit pg logb v F P R di dsih D tail k di2 t' D' tail' _
      (fun x => p <= x < p + 128 \/ virt_addr sbi + ftail <= x < virt_addr sbi + ftail + 32) m2 m5); auto.
    + intros x Hx. apply block1_unchanged. unfold block_addr in *. lia.
    + intros x Hx. by apply link_apart.
    + intros x H1 H2 H3. rewrite Hm5, Hm3 by (try done; lia). done.
    + rewrite lookup_insert_ne by done. apply lookup_insert_eq.
    + intros x Hx. apply (ne_cached _ _ _ _ _ _ _ _ _ _ _ _ _ _ _ N). destruct (decide (x = ino)) as [->|]; [by rewrite Hc|].
      rewrite lookup_insert_ne in Hx by done. destruct (decide (x = dir)) as [->|]; [|by rewrite lookup_insert_ne in Hx].
      by destruct (ne_dir _ _ _ _ _ _ _ _ _ _ _ _ _ _ _ N) as [-> _].
  - split; cbn [v_sbi icache]; auto; [by rewrite lookup_insert_eq|by apply slot_at_nvm| |unfold LAST_ENTRY in *; cbn; mlia|].
    + split; [|done]. rewrite <- Hn1. apply load_ext. intros x Hx. simpl in Hx. destruct Jp.
      rewrite Hm5, Hm3, (slot_unchanged ino a p) by (unfold journal_byte; try (intros Hw; pose proof (proj1 (proj2 (entry_apart x Hfit Hw)) _ _ _ Sl)); lia || done). done.
    + replace ((ftail + 32) / 4096) with (ftail / 4096) by (unfold LAST_ENTRY in *; mlia). done.
  - apply (link_logged_same m3); [|done]. intros x Hx. destruct (entry_apart x Hfit Hx) as (H1 & H2 & _).
    pose proof (H2 _ _ _ Sl). pose proof (H2 _ _ _ Ds). apply Hm5; [done|lia..].
  - etransitivity; [exact V5|]. destruct (inv =? 0); [|done]. apply load_ext. intros x Hx. simpl in Hx.
    rewrite Hm3 by (intros Hw; pose proof (proj1 (proj2 (entry_apart x Hfit Hw)) _ _ _ Sl); lia). apply (slot_unchanged ino a p); [done|lia].
  - intros x Hx. unfold link_touches in Hx. cbn [nvm with_nvm]. rewrite Hm5, Hm3 by tauto. apply C4; [tauto|].
    intros s i y Q1 Q2 Q3 ->. apply Hx. do 6 right. by exists s, i, y.
Qed.
End commit.

(** ** The names of the directory *)

(** A name is entered in the directory, or removed from it. *)
Lemma name_added v F P R di dsih D tail k d ino time n :
  let s := bytes (d_km d) (d_name d) (d_len d) in
  let len := NOVA_DIR_LOG_REC_LEN (d_len d) in
  env_at v F P R di dsih D tail k -> 0 < ino < 2 ^ 64 -> 0 < d_len d < 256 -> tail + len <= limit -> collision_free D s ->
  D !! s = None -> ready (S n) (v_mon v) ->
  exists v2 di2 m2, add_dentry slab_garbage smp jiffies_to_msecs e garbage radix_nomem dir d ino 0 0 time v = Some ((0, tail + len), v2) /\
    ready n (v_mon v2) /\
    dir_changed v v2 P dsih D tail (<[name_hash s := virt_addr (v_sbi v) + tail]> (tree dsih)) (<[s := ino]> D) (tail + len) di2 m2.
Proof.
  intros s len N Hi Hn Hlim Hcf Hs Hr. destruct (ne_dir _ _ _ _ _ _ _ _ _ _ _ _ _ _ _ N) as [Hd Hdi].
  assert (29 + d_len d <= len) as Hl by (unfold len; rewrite rec_len_alt by lia; mlia).
  destruct (add_dentry_ok slab_garbage smp jiffies_to_msecs e garbage radix_nomem P pi dir pid_nonneg radix_serves (v_sbi v) (v_mon v) dsih tail limit D di ino
    (d_km d) (d_name d) (d_len d) 0 0 time n) as (m2 & mon2 & di2 & E2 & Hr2 & Hdi2 & Hm2 & St2); auto; [apply N..|].
  fold s len in E2, St2, Hm2. set (t2 := <[name_hash s := virt_addr (v_sbi v) + tail]> (tree dsih)) in *.
  exists (Vfs (with_nvm m2 (v_sbi v)) mon2 (<[dir := (di2, with_tree t2 dsih)]> (icache v)) (next_generation v)), di2, m2. split; [|split; [exact Hr2|]].
  - unfold add_dentry. apply (on_inode_run dir v di dsih Hd). fstep E2. reflexivity.
  - split; cbn [v_sbi icache]; auto; [congruence|intros x Hx _; apply Hm2; lia|lia|]. intros s' i x Q1 Q2.
    destruct (insert_entries _ _ _ _ _ Hcf s' i x Q1 Q2) as [?|[-> ->]]; [by left|]. right. unfold dentry_end.
    pose proof (bytes_length (d_km d) (d_name d) (d_len d) ltac:(lia)) as Hsl. fold s in Hsl. lia.
Qed.

Lemma name_removed v F P R di dsih D tail k d time n :
  let s := bytes (d_km d) (d_name d) (d_len d) in
  let len := NOVA_DIR_LOG_REC_LEN (d_len d) in
  env_at v F P R di dsih D tail k -> 0 < d_len d < 256 -> 0 ∉ s -> tail + len <= limit -> collision_free D s -> ready (S n) (v_mon v) ->
  exists v2 di2 m2, remove_dentry slab_garbage smp jiffies_to_msecs e garbage dir d 0 0 time v = Some ((0, tail + len), v2) /\
    ready n (v_mon v2) /\ dir_changed v v2 P dsih D tail (delete (name_hash s) (tree dsih)) (delete s D) (tail + len) di2 m2.
Proof.
  intros s len N Hn Hz Hlim Hcf Hr. destruct (ne_dir _ _ _ _ _ _ _ _ _ _ _ _ _ _ _ N) as [Hd Hdi].
  assert (29 + d_len d <= len) as Hl by (unfold len; rewrite rec_len_alt by lia; mlia).
  destruct (remove_dentry_ok slab_garbage smp jiffies_to_msecs e garbage P pi dir pid_nonneg (v_sbi v) (v_mon v) dsih tail limit D di
    (d_km d) (d_name d) (d_len d) 0 0 time n) as (m2 & mon2 & di2 & E2 & Hr2 & Hdi2 & Hm2 & St2); auto; [apply N..|].
  fold s len in E2, St2, Hm2. set (t2 := delete (name_hash s) (tree dsih)) in *.
  exists (Vfs (with_nvm m2 (v_sbi v)) mon2 (<[dir := (di2, with_tree t2 dsih)]> (icache v)) (next_generation v)), di2, m2. split; [|split; [exact Hr2|]].
  - unfold remove_dentry. apply (on_inode_run dir v di dsih Hd). fstep E2. reflexivity.
  - split; cbn [v_sbi icache]; auto; [congruence| |lia|].
    { intros x Hx Hm. apply Hm2; [lia|]. intros i y Q1 Q2. apply (Hm s i y); [done|apply lookup_delete_eq|done]. }
    intros s' i x [_ Q1]%lookup_delete_Some [_ Q2]%lookup_delete_Some. by left.
Qed.

(** The inode of a cached file is found in its slot, that of the directory in its. *)
Lemma inode_found v P ino a p inode sih : icache v !! ino = Some (inode, sih) -> i_ino inode = ino -> slot_at (v_sbi v) P ino a p ->
  at_inode ino (Attr.find_inode smp) v = Some (inr p, v).
Proof.
  intros Hc Hi Sl. rewrite (at_inode_same ino v inode sih Hc _ (inr p) (v_sbi v) (v_mon v)); [by destruct v|].
  unfold Attr.find_inode. frun. rewrite Hi. apply on_sbi_run. cbn [w_sbi]. by apply (slot_find smp _ P ino a p).
Qed.

Context (inode0 : vfs_inode) (sih0 : nova_inode_info_header).
#[local] Notation lookup := (nova_lookup slab_garbage smp jiffies_to_msecs e garbage radix_nomem (Some (inode0, sih0))).
#[local] Notation link := (nova_link slab_garbage smp jiffies_to_msecs e garbage radix_nomem).
#[local] Notation unlink := (nova_unlink slab_garbage smp jiffies_to_msecs e garbage).

(** A name that the directory does not have is not found. *)
Lemma lookup_absent v F P R di dsih D tail k d time :
  let s := bytes (d_km d) (d_name d) (d_len d) in
  env_at v F P R di dsih D tail k -> 0 < d_len d < 256 -> collision_free D s -> D !! s = None ->
  lookup dir d time v = Some (inr None, v).
Proof.
  intros s N Hn Hcf Hs. unfold nova_lookup. rewrite (proj2 (Z.ltb_ge _ _)) by (unfold NOVA_NAME_LEN; lia).
  assert (tree dsih !! name_hash s = None) as Ht.
  { destruct (tree dsih !! name_hash s) as [x|] eqn:Ex; [|done]. exfalso.
    destruct (dr_only _ _ _ (ds_rep _ _ _ _ _ _ _ _ (ne_state _ _ _ _ _ _ _ _ _ _ _ _ _ _ _ N)) _ _ Ex) as (s' & i & Hs' & Hh & _).
    rewrite (Hcf s' i Hs' Hh) in Hs'. congruence. }
  destruct (ne_dir _ _ _ _ _ _ _ _ _ _ _ _ _ _ _ N) as [Hd _].
  assert (nova_inode_by_name dir (d_km d) (d_name d) (d_len d) v = Some ((0, None), v)) as E.
  { unfold nova_inode_by_name. rewrite (at_inode_same dir v di dsih Hd _ (0, None) (v_sbi v) (v_mon v)); [by destruct v|].
    unfold nova_find_dentry. rewrite fs_assoc. frun. rewrite BKDRHash_name by lia. fold s. by rewrite Ht. }
  by vstep E.
Qed.

(** C7: Removing a name.  For a name of the directory whose inode is cached, with room in both
    logs, [nova_unlink] returns 0.  The directory has lost the name and its log ends behind the
    entry of the removal; the inode has one link less, which is logged behind the old end of its
    log; both ends are committed and the journal is idle again; the inode is marked invalid
    exactly when the link was its last; a lookup no longer finds the name; the other cached
    inodes are as they were, and on the device nothing changes but the bytes of
    [link_touches].  The directory is not the root ([dir_state]); the entries fit in the pages
    of the log tails; and every block is at least four writes below the migration threshold
    ([ready]), so that the commit does not migrate the journal page (journal.c:148). *)
Theorem unlink_exact v F P R di dsih D tail k d ino a p ftail fi fsih time n :
  let s := bytes (d_km d) (d_name d) (d_len d) in
  let len := NOVA_DIR_LOG_REC_LEN (d_len d) in
  env_at v F P R di dsih D tail k -> file_env v P ino a p ftail fi fsih -> d_inode d = Some ino -> D !! s = Some ino ->
  0 < d_len d < 256 -> 0 ∉ s -> tail + len <= limit -> ftail mod 4096 + 32 <= LAST_ENTRY -> 0 < vfs_nlink fi < 2 ^ 32 ->
  ready (4 + n) (v_mon v) ->
  exists v' di' fi', unlink dir d time v = Some (0, v') /\ ready n (v_mon v') /\
    vfs_nlink fi' = vfs_nlink fi - 1 /\ vfs_ctime fi' = vfs_ctime di' /\
    env_at v' F P R di' (with_tree (delete (name_hash s) (tree dsih)) dsih) (delete s D) (tail + len) ((k + 1) mod 64) /\
    file_env v' P ino a p (ftail + 32) fi' (with_last_link_change ftail fsih) /\
    link_logged (nvm (v_sbi v')) (virt_addr (v_sbi v') + ftail) fi' /\
    Pi.valid (nvm (v_sbi v')) p = (if vfs_nlink fi =? 1 then 0 else Pi.valid (nvm (v_sbi v)) p) /\
    (forall x, x <> ino -> x <> dir -> icache v' !! x = icache v !! x) /\
    (forall x, ~ link_touches (v_sbi v) dsih D (delete s D) tail (tail + len) ftail p x -> nvm (v_sbi v') x = nvm (v_sbi v) x) /\
    forall time', lookup dir d time' v' = Some (inr None, v').
Proof.
  intros s len N Fe Hd Hs Hn Hz Hlim Hfit Hl Hr. destruct (dir_slot _ _ _ _ _ _ _ _ _ _ _ _ _ _ _ N) as (da & Ds).
  pose proof Fe as [[Hc Hi] Hne Sl _ _ _ _]. destruct (ne_dir _ _ _ _ _ _ _ _ _ _ _ _ _ _ _ N) as [Hdc Hdi].
  assert (collision_free D s) as Hcf.
  { intros s' i Hs' Hh. by apply (dr_inj _ _ _ (ds_rep _ _ _ _ _ _ _ _ (ne_state _ _ _ _ _ _ _ _ _ _ _ _ _ _ _ N)) s' s i ino). }
  destruct (name_removed v F P R di dsih D tail k d time (3 + n) N Hn Hz Hlim Hcf Hr) as (v2 & di2 & m2 & E2 & Hr2 & C). fold s len in E2, C.
  set (f := fun inode => drop_link_if (with_vfs_ctime (vfs_ctime di2) inode)).
  destruct (link_append_ok v v2 F P R di dsih D tail k _ _ _ di2 m2 ino a p ftail fi fsih N C Fe f Hfit) as (v3 & m3 & E3 & E4 & Hlog & Hm3).
  assert (vfs_nlink (f fi) = vfs_nlink fi - 1 /\ vfs_ctime (f fi) = vfs_ctime di2 /\ i_ino (f fi) = ino) as (F1 & F2 & F3).
  { unfold f, drop_link_if. cbn [vfs_nlink with_vfs_ctime]. rewrite (proj2 (Z.eqb_neq _ _)) by lia. cbn. rewrite u32_small by lia. done. }
  destruct (link_commit_ok v v2 F P R di dsih D tail k _ _ _ di2 m2 ino a p ftail fi fsih N C Fe m3 (f fi) (with_last_link_change ftail fsih)
    (if vfs_nlink fi =? 1 then 1 else 0) n F3 Hfit Hr2 Hlog Hm3) as (v5 & E5 & Hr5 & Hic & N5 & Fe5 & Hlog5 & V5 & Hsame).
  pose proof C as [C1 C2 C3 _ _ _ _]. exists v5, di2, (f fi). split; [|split_and!; auto].
  - unfold nova_unlink. rewrite Hd. erewrite vfs_step by reflexivity. vstep (inode_found v P ino a p fi fsih Hc Hi Sl).
    vstep (inode_found v P dir da pi di dsih Hdc Hdi Ds). vstep E2. cbv beta iota. cbn [negb Z.eqb].
    erewrite vfs_step by (unfold get_inode; rewrite C2, lookup_insert_eq; reflexivity).
    erewrite vfs_step by (unfold get_inode; rewrite C2, lookup_insert_ne, Hc by done; reflexivity).
    vstep E3. erewrite vfs_step by reflexivity. vstep E4. cbv beta iota. cbn [negb Z.eqb]. by vstep E5.
  - rewrite V5. by destruct (vfs_nlink fi =? 1).
  - intros x H1 H2. rewrite Hic, !lookup_insert_ne by done. done.
  - intros time'. apply (lookup_absent _ _ _ _ _ _ _ _ _ d time' N5 Hn); [|apply lookup_delete_eq].
    intros s' i [_ Hs']%lookup_delete_Some. by apply (Hcf s' i).
Qed.

(** C8: Giving an inode another name.  An inode with the greatest number of links is refused and
    nothing changes.  Otherwise, for a new name whose hash no other name has, with room in both
    logs, [nova_link] returns 0; the directory has the name as well, the inode has one link more
    and is as valid as before, the new number of links is logged, both logs are committed, a
    lookup finds the inode under the name, and nothing else changes in memory or on the device
    ([link_touches]).  The directory is not the root ([dir_state]); the entries fit in the
    pages of the log tails; the radix tree gets its memory; and every block is at least four
    writes below the migration threshold ([ready]), so that the commit does not migrate the
    journal page (journal.c:148). *)
Theorem link_exact v F P R di dsih D tail k d ino a p ftail fi fsih time n :
  let s := bytes (d_km d) (d_name d) (d_len d) in
  let len := NOVA_DIR_LOG_REC_LEN (d_len d) in
  env_at v F P R di dsih D tail k -> file_env v P ino a p ftail fi fsih -> D !! s = None -> collision_free D s ->
  0 < d_len d < 256 -> tail + len <= limit -> ftail mod 4096 + 32 <= LAST_ENTRY -> 0 <= vfs_nlink fi ->
  ready (4 + n) (v_mon v) ->
  (NOVA_LINK_MAX <= vfs_nlink fi -> link ino dir d time v = Some ((- EMLINK, d), v)) /\
  (vfs_nlink fi < NOVA_LINK_MAX -> exists v' di' fi', link ino dir d time v = Some ((0, d_instantiate d ino), v') /\ ready n (v_mon v') /\
    vfs_nlink fi' = vfs_nlink fi + 1 /\ vfs_ctime fi' = time /\
    env_at v' F P R di' (with_tree (<[name_hash s := virt_addr (v_sbi v) + tail]> (tree dsih)) dsih) (<[s := ino]> D) (tail + len) ((k + 1) mod 64) /\
    file_env v' P ino a p (ftail + 32) fi' (with_last_link_change ftail fsih) /\
    link_logged (nvm (v_sbi v')) (virt_addr (v_sbi v') + ftail) fi' /\ Pi.valid (nvm (v_sbi v')) p = Pi.valid (nvm (v_sbi v)) p /\
    (forall x, x <> ino -> x <> dir -> icache v' !! x = icache v !! x) /\
    (forall x, ~ link_touches (v_sbi v) dsih D (<[s := ino]> D) tail (tail + len) ftail p x -> nvm (v_sbi v') x = nvm (v_sbi v) x) /\
    forall time', lookup dir d time' v' = Some (inr (Some ino), v')).
Proof.
  intros s len N Fe Hs Hcf Hn Hlim Hfit Hl Hr. destruct (dir_slot _ _ _ _ _ _ _ _ _ _ _ _ _ _ _ N) as (da & Ds).
  pose proof Fe as [[Hc Hi] Hne Sl [_ Hin] _ _ _]. destruct (ne_dir _ _ _ _ _ _ _ _ _ _ _ _ _ _ _ N) as [Hdc Hdi].
  unfold nova_link. rewrite (vfs_step _ _ _ _ _ (inode_found v P ino a p fi fsih Hc Hi Sl)).
  rewrite (vfs_step (get_inode ino) _ v fi v) by (unfold get_inode; by rewrite Hc). split.
  { intros Hmax. by rewrite (proj2 (Z.leb_le _ _)). }
  intros Hmax. rewrite (proj2 (Z.leb_gt _ _)) by done. unfold NOVA_LINK_MAX in Hmax. pose proof (sa_ino _ _ _ _ _ Sl) as Hir.
  destruct (name_added v F P R di dsih D tail k d ino time (3 + n) N) as (v2 & di2 & m2 & E2 & Hr2 & C); auto;
    [unfold NOVA_NORMAL_INODE_START in *; lia|]. fold s len in E2, C.
  set (f := fun inode => inc_nlink (with_vfs_ctime time inode)).
  destruct (link_append_ok v v2 F P R di dsih D tail k _ _ _ di2 m2 ino a p ftail fi fsih N C Fe f Hfit) as (v3 & m3 & E3 & E4 & Hlog & Hm3).
  assert (vfs_nlink (f fi) = vfs_nlink fi + 1 /\ vfs_ctime (f fi) = time /\ i_ino (f fi) = ino) as (F1 & F2 & F3)
    by (unfold f, inc_nlink; cbn; rewrite u32_small by lia; done).
  destruct (link_commit_ok v v2 F P R di dsih D tail k _ _ _ di2 m2 ino a p ftail fi fsih N C Fe m3 (f fi) (with_last_link_change ftail fsih)
    0 n F3 Hfit Hr2 Hlog Hm3) as (v5 & E5 & Hr5 & Hic & N5 & Fe5 & Hlog5 & V5 & Hsame).
  exists v5, di2, (f fi). split; [|split_and!; auto].
  - vstep (inode_found v P dir da pi di dsih Hdc Hdi Ds). rewrite Hi. vstep E2. cbv beta iota. cbn [negb Z.eqb].
    vstep E3. erewrite vfs_step by reflexivity. vstep E4. cbv beta iota. cbn [negb Z.eqb]. by vstep E5.
  - intros x H1 H2. rewrite Hic, !lookup_insert_ne by done. done.
  - intros time'. eapply lookup_cached; [exact N5|done|apply lookup_insert_eq|]. by rewrite Hic, lookup_insert_eq.
Qed.
End links.

(** ** An example *)

(** The device is edited, with the names of the directory. *)
Lemma dir_state_edit sbi m P pi dino tail limit t D tail' t' D' :
  dir_state P pi dino sbi tail limit t D -> (forall x, x < block_addr sbi 1 -> m x = nvm sbi x) ->
  Pi.nova_ino m pi = Pi.nova_ino (nvm sbi) pi -> tail <= tail' <= limit -> dir_rep m t' D' ->
  (forall s i x, D' !! s = Some i -> t' !! name_hash s = Some x ->
     (dentry_end x s <= virt_addr sbi + tail' \/ virt_addr sbi + limit <= x) /\
     (dentry_end x s <= pi \/ pi + 128 <= x) /\ block_addr sbi 1 <= x) ->
  dir_state P pi dino (with_nvm m sbi) tail' limit t' D'.
Proof.
  intros [S1 S2 S3 S4 (S5 & S5' & S5'') S6 S7 S8] Hlow Hi Hle Hrep Hent. split; cbn [virt_addr num_blocks nvm with_nvm]; auto.
  - apply (homed_frame sbi); auto; [lia|apply with_nvm_geometry].
  - by rewrite Hi.
  - unfold LAST_ENTRY in *. mlia.
  - lia.
Qed.

Module LinkDemo.
Import RbList.RbList InodeTable.TableDemo Detect.DetectDemo FastGc.GcDemo DirLog.DirDemo Create.CreateDemo.

(** The directory 40 has the name "Ad" for the inode 41, whose log ends in page 6. *)
Definition ul_pi : Z := 65536 + 4096 * 4 + 20 * 128.
Definition ul_entry : Z := 65536 + 4096 * 5 + 200.
Definition ul_base : memory :=
  let m := Pi.set_log_tail (Pi.set_nova_ino (nvm cr_sbi) ul_pi 41) ul_pi (4096 * 6 + 64) in
  Pi.set_log_tail m gc_pi (4096 * 5 + 240).
Definition ul_mem : memory := written ul_base ul_entry 41 km 400 2 0 0 1 40.
Definition ul_sbi : nova_sb_info := with_nvm ul_mem cr_sbi.
Definition ul_sih : nova_inode_info_header := with_tree {[name_hash [65; 100] := ul_entry]} cr_sih.
Definition ul_inode : vfs_inode := with_vfs_nlink 1 (with_i_ino 41 dd_inode).
Definition ul_state (mon : monitor) : vfs_state := Vfs ul_sbi mon {[40 := (dd_inode, ul_sih); 41 := (ul_inode, cr_sih)]} 0.

Lemma ul_low x : x < 69632 \/ 69632 <= x < 69648 -> ul_mem x = nvm cr_sbi x.
Proof.
  intros Hx. unfold ul_mem. rewrite written_same by (unfold ul_entry; lia). unfold ul_base, Pi.set_log_tail, Pi.set_nova_ino, ul_pi, gc_pi.
  by rewrite !store_disjoint by (simpl; lia).
Qed.

Lemma ul_fields : Pi.nova_ino ul_mem gc_pi = 40 /\ Pi.log_tail ul_mem gc_pi = 4096 * 5 + 240 /\
  Pi.nova_ino ul_mem ul_pi = 41 /\ Pi.log_tail ul_mem ul_pi = 4096 * 6 + 64.
Proof. vm_compute. split_and!; reflexivity. Qed.

Lemma ul_rep : dir_rep ul_mem (tree ul_sih) {[[65; 100] := 41]}.
Proof.
  assert (dir_rep ul_base ∅ ∅) as H0 by (split; intros *; rewrite lookup_empty; intros Hx; discriminate Hx).
  apply (dir_rep_insert _ _ _ _ [65; 100] 41 ul_entry H0).
  - intros s i Hx. rewrite lookup_empty in Hx. discriminate Hx.
  - reflexivity.
  - change [65; 100] with (bytes km 400 2). apply written_entry; lia.
  - intros h b Hx. rewrite lookup_empty in Hx. discriminate Hx.
Qed.

(** The state for any file system of this geometry. *)
Lemma ul_env_at sbi m mon F P : virt_addr sbi = 65536 -> num_blocks sbi = 20 -> cpus sbi = 2 -> P 0 = [3] -> P 1 = [4] ->
  names_env 0 40 gc_pi (4096 * 5 + 1000) 9 (fun b => b = 5) (Vfs sbi mon {[40 := (dd_inode, cr_sih)]} 0) F P cr_ranges dd_inode cr_sih ∅ (4096 * 5 + 200) 0 ->
  (forall x, x < 69632 \/ 69632 <= x < 69648 -> m x = nvm sbi x) -> dir_rep m (tree ul_sih) {[[65; 100] := 41]} ->
  Pi.nova_ino m gc_pi = 40 -> Pi.log_tail m gc_pi = 4096 * 5 + 240 -> Pi.nova_ino m ul_pi = 41 -> Pi.log_tail m ul_pi = 4096 * 6 + 64 ->
  let v := Vfs (with_nvm m sbi) mon {[40 := (dd_inode, ul_sih); 41 := (ul_inode, cr_sih)]} 0 in
  names_env 0 40 gc_pi (4096 * 5 + 1000) 9 (fun b => b = 5) v F P cr_ranges dd_inode ul_sih {[[65; 100] := 41]} (4096 * 5 + 240) 0 /\
  file_env 40 9 (fun b => b = 5) v P 41 (4096 * 4 + 20 * 128) ul_pi (4096 * 6 + 64) ul_inode cr_sih.
Proof.
  intros Gv Gn Gc P0 P1 N Hlow Hrep E1 E2 E3 E4 v. pose proof (ne_inv _ _ _ _ _ _ _ _ _ _ _ _ _ _ _ N) as [[_ B2 B3 _ _] _ _ _].
  pose proof (ne_state _ _ _ _ _ _ _ _ _ _ _ _ _ _ _ N) as Sd. pose proof (hm_unlocked _ _ _ (ds_homed _ _ _ _ _ _ _ _ Sd)) as Hu.
  cbn [v_sbi] in B2, B3, Hu, Sd.
  assert (forall x, x < block_addr sbi 1 -> m x = nvm sbi x) as Hlow' by (unfold block_addr; rewrite Gv; intros x Hx; apply Hlow; lia).
  assert (forall s i x, ({[[65; 100] := 41]} : gmap (list Z) Z) !! s = Some i -> tree ul_sih !! name_hash s = Some x -> s = [65; 100] /\ x = ul_entry) as Hent.
  { intros s i x [<- _]%lookup_singleton_Some Hx. split; [done|]. unfold ul_sih in Hx. cbn [tree with_tree] in Hx. rewrite lookup_singleton_eq in Hx. congruence. }
  split.
  - apply (names_env_move 0 msecs_250 40 gc_pi (4096 * 5 + 1000) 9 (fun b => b = 5) _ F P cr_ranges dd_inode cr_sih ∅ (4096 * 5 + 200) 0 N);
      cbn [v_sbi]; [exact Hlow'|apply lookup_insert_eq|reflexivity| |exact E2| |lia| |].
    + apply (dir_state_edit sbi m P gc_pi 40 _ _ _ _ _ _ _ Sd Hlow'); [|lia|exact Hrep|].
      * rewrite E1. symmetry. apply (ds_ino _ _ _ _ _ _ _ _ Sd).
      * intros s i x Hs Hx. destruct (Hent s i x Hs Hx) as [-> ->]. unfold block_addr. rewrite Gv. unfold dentry_end, ul_entry, gc_pi. simpl. lia.
    + apply (journal_idle_carry sbi (with_nvm m sbi)); auto; [apply N|]. intros x Hx. apply Hlow. unfold pair_addr, block_addr in Hx. rewrite Gv in Hx. lia.
    + intros s i x Hs Hx. destruct (Hent s i x Hs Hx) as [-> ->]. right. rewrite Gv. unfold dentry_end, ul_entry. simpl. lia.
    + intros x Hx. assert (x = 40 \/ x = 41) as Hx'.
      { destruct (decide (x = 40)) as [E|E]; [by left|]. right. destruct (decide (x = 41)) as [E'|E']; [done|]. destruct Hx.
        rewrite lookup_insert_ne by congruence. apply lookup_singleton_ne. congruence. }
      unfold used_ino. rewrite Gc. destruct Hx' as [-> | ->]; [change (40 mod 2) with 0|change (41 mod 2) with 1]; apply in_ranges_cons; left;
        unfold in_range; cbn; mlia.
  - assert (slot_at sbi P 41 (4096 * 4 + 20 * 128) ul_pi) as Sl.
    { split; rewrite ?Gv, ?Gn, ?Gc; [exact B2|exact Hu| |reflexivity|exact B3|lia|unfold NOVA_NORMAL_INODE_START; lia|].
      - unfold inode_slot. change (41 mod 2) with 1. rewrite P1. reflexivity.
      - unfold nova_get_specific_inode_page_lock. rewrite Gc. reflexivity. }
    split; cbn [v v_sbi icache num_blocks cpus nvm with_nvm]; rewrite ?Gn, ?Gc; try done; [by apply slot_at_nvm|].
    + change ((4096 * 6 + 64) / 4096) with 6. split; [unfold own; lia|]. intros c Hc.
      assert (c = 0 \/ c = 1) as [-> | ->] by lia; rewrite ?P0, ?P1, list_elem_of_singleton; lia.
Qed.

Lemma ul_env mon : exists F P,
  names_env 0 40 gc_pi (4096 * 5 + 1000) 9 (fun b => b = 5) (ul_state mon) F P cr_ranges dd_inode ul_sih {[[65; 100] := 41]} (4096 * 5 + 240) 0 /\
  file_env 40 9 (fun b => b = 5) (ul_state mon) P 41 (4096 * 4 + 20 * 128) ul_pi (4096 * 6 + 64) ul_inode cr_sih.
Proof.
  destruct (cr_env mon) as (F & P & N & P0 & P1). exists F, P. destruct cr_geometry as (Gv & Gn & Gc). destruct ul_fields as (E1 & E2 & E3 & E4).
  exact (ul_env_at cr_sbi ul_mem mon F P Gv Gn Gc P0 P1 N ul_low ul_rep E1 E2 E3 E4).
Qed.

Definition ad_dentry : dentry := Dentry km 400 2 (Some 41).

Lemma ad_only s i : ({[[65; 100] := 41]} : gmap (list Z) Z) !! s = Some i -> s = [65; 100].
Proof. intros [Hx _]%lookup_singleton_Some. by symmetry. Qed.

(** "Ad" is removed: the inode 41 has lost its last link. *)
Lemma unlink_exact_witness : exists mon v', nova_unlink garbage 0 msecs_250 (demo_env 0) 0 40 ad_dentry 7 (ul_state mon) = Some (0, v') /\
  Pi.valid (nvm (v_sbi v')) ul_pi = 0 /\ Pi.log_tail (nvm (v_sbi v')) ul_pi = 4096 * 6 + 96 /\
  nova_lookup garbage 0 msecs_250 (demo_env 0) 0 (fun _ => false) (Some (dd_inode, cr_sih)) 40 ad_dentry 8 v' = Some (inr None, v').
Proof.
  destruct (ready_init 4 ltac:(lia)) as (mon & _ & Hr). destruct (ul_env mon) as (F & P & N & Fe).
  destruct (unlink_exact garbage 0 msecs_250 (demo_env 0) 0 (fun _ => false) ltac:(vm_compute; discriminate)
    40 gc_pi (4096 * 5 + 1000) 9 (fun b => b = 5) dd_inode cr_sih (ul_state mon) F P cr_ranges dd_inode ul_sih {[[65; 100] := 41]} (4096 * 5 + 240) 0
    ad_dentry 41 (4096 * 4 + 20 * 128) ul_pi (4096 * 6 + 64) ul_inode cr_sih 7 0 N Fe) as (v' & di' & fi' & E & _ & _ & _ & _ & Fe' & _ & V & _ & _ & Hl).
  - reflexivity.
  - change (bytes (d_km ad_dentry) (d_name ad_dentry) (d_len ad_dentry)) with [65; 100]. apply lookup_singleton_eq.
  - cbn. lia.
  - change (bytes (d_km ad_dentry) (d_name ad_dentry) (d_len ad_dentry)) with [65; 100].
    rewrite !elem_of_cons. intros [Hx|[Hx|Hx]]; [discriminate Hx..|exact (not_elem_of_nil _ Hx)].
  - vm_compute. discriminate.
  - vm_compute. discriminate.
  - cbn. lia.
  - exact Hr.
  - exists mon, v'. split; [exact E|]. split; [exact V|]. split; [exact (fe_tail _ _ _ _ _ _ _ _ _ _ _ Fe')|exact (Hl 8)].
Defined.

(** "ab" becomes another name of the inode 41. *)
Lemma link_exact_witness : exists mon v',
  nova_link garbage 0 msecs_250 (demo_env 0) 0 (fun _ => false) 41 40 cr_dentry 7 (ul_state mon) = Some ((0, d_instantiate cr_dentry 41), v') /\
  Lc.links (nvm (v_sbi v')) (virt_addr (v_sbi v') + (4096 * 6 + 64)) = 2 /\
  nova_lookup garbage 0 msecs_250 (demo_env 0) 0 (fun _ => false) (Some (dd_inode, cr_sih)) 40 cr_dentry 8 v' = Some (inr (Some 41), v').
Proof.
  destruct (ready_init 4 ltac:(lia)) as (mon & _ & Hr). destruct (ul_env mon) as (F & P & N & Fe).
  assert (bytes (d_km cr_dentry) (d_name cr_dentry) (d_len cr_dentry) = [97; 98]) as Hb by reflexivity.
  assert (({[[65; 100] := 41]} : gmap (list Z) Z) !! [97; 98] = None) as Hno by (apply lookup_singleton_ne; discriminate).
  destruct (link_exact garbage 0 msecs_250 (demo_env 0) 0 (fun _ => false) ltac:(vm_compute; discriminate) (fun _ => eq_refl)
    40 gc_pi (4096 * 5 + 1000) 9 (fun b => b = 5) dd_inode cr_sih (ul_state mon) F P cr_ranges dd_inode ul_sih {[[65; 100] := 41]} (4096 * 5 + 240) 0
    cr_dentry 41 (4096 * 4 + 20 * 128) ul_pi (4096 * 6 + 64) ul_inode cr_sih 7 0 N Fe) as [_ Hlink].
  - rewrite Hb. exact Hno.
  - rewrite Hb. intros s i Hs Hh. rewrite (ad_only s i Hs) in Hh. vm_compute in Hh. discriminate Hh.
  - cbn. lia.
  - vm_compute. discriminate.
  - vm_compute. discriminate.
  - cbn. lia.
  - exact Hr.
  - destruct (Hlink ltac:(reflexivity)) as (v' & di' & fi' & E & _ & Hn & _ & _ & _ & [_ Hl _ _] & _ & _ & _ & Hlk).
    exists mon, v'. split; [exact E|]. split; [|exact (Hlk 8)]. rewrite Hl, Hn. reflexivity.
Defined.
End LinkDemo.
