(* ===== verification/Sampling.v ===== *)
(** * Sampled averages (wearleveling.c)

    The mean of the write counts and their standard deviation, estimated from
    [SAMPLE_BLOCK_NUM] blocks drawn at random, and the integer square root the deviation is
    computed with.  The random numbers are an argument: the [i]th call of [get_random_bytes]
    gives [random i]. *)

From S2P Require Import Prelude Layout RangeTree Monitor Histogram HashTable.
#[local] Open Scope Z_scope.

Definition SAMPLE_BLOCK_NUM : Z := 100.

(** ** The code *)

(** [get_sqrt]: the first loop finds the largest power of 4 that is not above [op] ... *)
Fixpoint sqrt_start (fuel : nat) (one op : Z) : Z :=
  match fuel with
  | O => one
  | S fuel => if op <? one then sqrt_start fuel (Z.shiftr one 2) op else one
  end.

(** ... the second one computes a bit of the root in every turn. *)
Fixpoint sqrt_loop (fuel : nat) (op res one : Z) : option Z :=
  match fuel with
  | O => None
  | S fuel =>
    if one =? 0 then Some res
    else
      let '(op, res) := if u64 (res + one) <=? op then (u64 (op - u64 (res + one)), u64 (res + u64 (2 * one)))
                        else (op, res) in
      sqrt_loop fuel op (res / 2) (one / 4)
  end.

(** [one] has at most 32 values other than 0. *)
Definition get_sqrt (number : Z) : option Z :=
  sqrt_loop 33 number 0 (sqrt_start 32 (Z.shiftl 1 62) number).

Section samples.
Context (random : nat -> Z).

Definition get_random_number (i : nat) : Z := u64 (random i) mod BLOCKS_MAX.

(** The count of the [i]th block drawn. *)
Definition sample (m : monitor) (i : nat) : Z := write_count (global_blk_write_count m (get_random_number i)).

Fixpoint sample_sum (m : monitor) (n : nat) (i : nat) (sum : Z) : Z :=
  match n with
  | O => sum
  | S n => sample_sum m n (S i) (u64 (sum + sample m i))
  end.

Definition get_global_write_count_base (m : monitor) : Z :=
  sample_sum m (Z.to_nat SAMPLE_BLOCK_NUM) 0 0 / SAMPLE_BLOCK_NUM.

Fixpoint deviation_sum (m : monitor) (average : Z) (n : nat) (i : nat) (sum : Z) : Z :=
  match n with
  | O => sum
  | S n =>
    let d := u64 (sample m i - average) in
    deviation_sum m average n (S i) (u64 (sum + u64 (d * d)))
  end.

(** [get_global_write_count_base_2]: the average and the deviation; the sum of the squares is
    added to what [standard_deviation] had before. *)
Definition get_global_write_count_base_2 (m : monitor) (standard_deviation : Z) : option (Z * Z) :=
  let average := sample_sum m (Z.to_nat SAMPLE_BLOCK_NUM) 0 0 / SAMPLE_BLOCK_NUM in
  let standard_deviation := deviation_sum m average (Z.to_nat SAMPLE_BLOCK_NUM) 0 standard_deviation in
  root ← get_sqrt (standard_deviation / SAMPLE_BLOCK_NUM);
  Some (average, root).
End samples.

(** ** The square root *)

(** The bits below [w] are left to compute: [s] is the root of [n] up to them. *)
Lemma sqrt_loop_ok k : forall n s, 0 <= n < 2 ^ 64 -> 0 <= s -> (k <= 32)%nat -> (s = 0 \/ (k <= 31)%nat) ->
  s * s <= n < (s + 2 ^ Z.of_nat k) * (s + 2 ^ Z.of_nat k) ->
  sqrt_loop (S k) (n - s * s) (s * 2 ^ Z.of_nat k) (match k with O => 0 | S k => 2 ^ Z.of_nat k * 2 ^ Z.of_nat k end) = Some (Z.sqrt n).
Proof.
  induction k as [|k IH]; intros n s Hn Hs Hk Hsk Hb.
  - change (2 ^ Z.of_nat 0) with 1 in *. simpl. f_equal. rewrite Z.mul_1_r. symmetry. apply Z.sqrt_unique. unfold Z.succ. lia.
  - set (w := 2 ^ Z.of_nat k) in *. assert (2 ^ Z.of_nat (S k) = 2 * w) as Ew by (rewrite Nat2Z.inj_succ, Z.pow_succ_r by lia; done).
    rewrite Ew in *. assert (1 <= w) as Hw1 by (assert (0 < w) by (apply Z.pow_pos_nonneg; lia); lia).
    assert (w <= 2 ^ 31) as Hw2 by (apply Z.pow_le_mono_r; lia).
    assert (s = 0 \/ w <= 2 ^ 30) as Hsw by (destruct Hsk; [by left|]; right; apply Z.pow_le_mono_r; lia).
    assert (s < 2 ^ 32) as Hs2 by nia.
    assert (s * (2 * w) < 2 ^ 63 /\ w * w <= 2 ^ 62) as [Hr1 Hr2] by (split; [destruct Hsw; nia|nia]).
    remember (S k) as sk eqn:Esk. cbn [sqrt_loop]. subst sk. rewrite (proj2 (Z.eqb_neq (w * w) 0)) by nia.
    assert (w * w / 4 = match k with O => 0 | S k => 2 ^ Z.of_nat k * 2 ^ Z.of_nat k end) as E4.
    { unfold w. destruct k; [reflexivity|]. rewrite Nat2Z.inj_succ, Z.pow_succ_r by lia. symmetry. apply Z.div_unique with 0; lia. }
    rewrite E4, (u64_small (s * (2 * w) + w * w)) by lia. destruct (Z.leb_spec (s * (2 * w) + w * w) (n - s * s)) as [Hle|Hgt].
    + rewrite (u64_small (2 * (w * w))), (u64_small (s * (2 * w) + 2 * (w * w))), (u64_small (n - s * s - (s * (2 * w) + w * w))) by lia.
      specialize (IH n (s + w) Hn ltac:(lia) ltac:(lia) ltac:(right; lia) ltac:(fold w; nia)). fold w in IH.
      replace ((s * (2 * w) + 2 * (w * w)) / 2) with ((s + w) * w) by (apply Z.div_unique with 0; lia).
      replace (n - s * s - (s * (2 * w) + w * w)) with (n - (s + w) * (s + w)) by lia. exact IH.
    + specialize (IH n s Hn Hs ltac:(lia) ltac:(right; lia) ltac:(fold w; nia)). fold w in IH.
      replace (s * (2 * w) / 2) with (s * w) by (apply Z.div_unique with 0; lia). exact IH.
Qed.

(** More fuel gives the same result. *)
Lemma sqrt_loop_more fuel : forall j op res one r, sqrt_loop fuel op res one = Some r -> sqrt_loop (fuel + j) op res one = Some r.
Proof.
  induction fuel as [|fuel IH]; intros j op res one r E; [done|]. cbn [sqrt_loop Nat.add] in *. destruct (one =? 0); [done|].
  destruct (u64 (res + one) <=? op); by apply IH.
Qed.

Lemma sqrt_start_ok fuel : forall k n, 0 <= n < (2 ^ Z.of_nat (S k)) * (2 ^ Z.of_nat (S k)) -> (k < fuel)%nat -> (k < 32)%nat ->
  exists j, (j <= 32)%nat /\ n < 2 ^ Z.of_nat j * 2 ^ Z.of_nat j /\
    sqrt_start fuel (2 ^ Z.of_nat k * 2 ^ Z.of_nat k) n = match j with O => 0 | S j => 2 ^ Z.of_nat j * 2 ^ Z.of_nat j end.
Proof.
  induction fuel as [|fuel IH]; intros k n Hn Hk Hk2; [lia|]. cbn [sqrt_start].
  destruct (Z.ltb_spec n (2 ^ Z.of_nat k * 2 ^ Z.of_nat k)) as [Hlt|Hge]; [|by exists (S k); split; [lia|]; split; [lia|]].
  rewrite Z.shiftr_div_pow2 by lia. destruct k as [|k].
  - exists O. split; [lia|]. split; [exact Hlt|]. change (2 ^ Z.of_nat 0 * 2 ^ Z.of_nat 0 / 2 ^ 2) with 0.
    destruct fuel; [done|]. cbn [sqrt_start]. by rewrite (proj2 (Z.ltb_ge n 0)) by lia.
  - replace (2 ^ Z.of_nat (S k) * 2 ^ Z.of_nat (S k) / 2 ^ 2) with (2 ^ Z.of_nat k * 2 ^ Z.of_nat k)
      by (rewrite Nat2Z.inj_succ, Z.pow_succ_r by lia; apply Z.div_unique with 0; lia).
    apply IH; lia.
Qed.

(** [get_sqrt] returns the integer square root of every [unsigned long], within the turns its
    loops can make. *)
Lemma get_sqrt_ok n : 0 <= n < 2 ^ 64 -> get_sqrt n = Some (Z.sqrt n).
Proof.
  intros Hn. unfold get_sqrt. change (Z.shiftl 1 62) with (2 ^ Z.of_nat 31 * 2 ^ Z.of_nat 31).
  destruct (sqrt_start_ok 32 31 n) as (j & Hj & Hlt & ->); [split; [lia|exact (proj2 Hn)]|lia..|].
  pose proof (sqrt_loop_ok j n 0 Hn ltac:(lia) Hj ltac:(by left) ltac:(lia)) as E.
  rewrite Z.mul_0_l, Z.sub_0_r, Z.mul_0_l in E. replace 33%nat with (S j + (32 - j))%nat by lia. by apply sqrt_loop_more.
Qed.

(** ** The samples *)

Section theorems.
Context (random : nat -> Z) (m : monitor).
#[local] Notation count := (sample random m).
Hypothesis small : forall b, 0 <= b < BLOCKS_MAX -> 0 <= write_count (global_blk_write_count m b) < 2 ^ 28.

Lemma sample_small i : 0 <= count i < 2 ^ 28.
Proof. apply small. unfold get_random_number. apply Z.mod_pos_bound. reflexivity. Qed.

(** The loops add up the samples, and the squares of their distances from [average]. *)
Lemma sample_sum_ok n : forall i sum, 0 <= sum -> sum + (2 ^ 28 - 1) * Z.of_nat n < 2 ^ 64 ->
  sample_sum random m n i sum = sum + sum_of count (seq i n) /\ 0 <= sum_of count (seq i n) <= (2 ^ 28 - 1) * Z.of_nat n.
Proof.
  induction n as [|n IH]; intros i sum Hs Hb; cbn [sample_sum seq sum_of foldr]; [lia|]. pose proof (sample_small i) as Hc.
  destruct (IH (S i) (sum + count i) ltac:(lia) ltac:(lia)) as [E Hr]. rewrite u64_small by lia. unfold sum_of in *. lia.
Qed.

Definition distance (average : Z) (i : nat) : Z := (count i - average) * (count i - average).

Lemma deviation_sum_ok average n : 0 <= average < 2 ^ 28 -> forall i sum, 0 <= sum -> sum + 2 ^ 56 * Z.of_nat n < 2 ^ 64 ->
  deviation_sum random m average n i sum = sum + sum_of (distance average) (seq i n) /\
  0 <= sum_of (distance average) (seq i n) <= 2 ^ 56 * Z.of_nat n.
Proof.
  intros Ha. induction n as [|n IH]; intros i sum Hs Hb; cbn [deviation_sum seq sum_of foldr]; [lia|]. pose proof (sample_small i) as Hc.
  assert (0 <= distance average i <= 2 ^ 56) as Hd.
  { unfold distance. assert (- 2 ^ 28 <= count i - average <= 2 ^ 28) as Hx by lia. revert Hx. generalize (count i - average). intros x Hx. nia. }
  assert (u64 (u64 (count i - average) * u64 (count i - average)) = distance average i) as Eu.
  { unfold u64. rewrite <- Z.mul_mod by lia. fold (distance average i). apply Z.mod_small. lia. }
  destruct (IH (S i) (sum + distance average i) ltac:(lia) ltac:(lia)) as [E Hr]. rewrite Eu, u64_small by lia. unfold sum_of in *. lia.
Qed.

(** C33: The sampled estimate.  With counts below 2^28 and the deviation cleared beforehand,
    [get_global_write_count_base_2] gives the mean of the sampled counts, rounded down, and the
    integer square root of the mean square of their distances from it; no sum overflows, no
    access is out of range, and both loops of the square root end. *)
Theorem sampling_exact :
  let counts := seq 0 100 in
  let mean := sum_of count counts / 100 in
  get_global_write_count_base_2 random m 0 =
    Some (mean, Z.sqrt (sum_of (fun i => (count i - mean) * (count i - mean)) counts / 100)).
Proof.
  intros counts mean. unfold get_global_write_count_base_2. change (Z.to_nat SAMPLE_BLOCK_NUM) with 100%nat. unfold SAMPLE_BLOCK_NUM.
  destruct (sample_sum_ok 100 0 0 ltac:(lia) ltac:(lia)) as [-> Hs]. rewrite Z.add_0_l. fold counts in Hs |- *. fold mean.
  assert (0 <= mean < 2 ^ 28) as Hm by (unfold mean; split; [apply Z.div_pos; lia|apply Z.div_lt_upper_bound; lia]).
  destruct (deviation_sum_ok mean 100 Hm 0 0) as [-> Hd]; [lia..|]. rewrite Z.add_0_l. fold counts in Hd |- *. unfold distance in *.
  rewrite get_sqrt_ok; [done|]. split; [apply Z.div_pos; lia|apply Z.div_lt_upper_bound; lia].
Qed.
End theorems.

Module SampleDemo.
Definition sd_monitor : monitor := with_global_blk_write_count (fun b => BlkWriteCount (b mod 7) 0) initial_monitor.

(** The first blocks are drawn in turn: 100 counts between 0 and 6. *)
Lemma sampling_exact_witness : get_global_write_count_base_2 Z.of_nat sd_monitor 0 = Some (2, 2).
Proof.
  rewrite (sampling_exact Z.of_nat sd_monitor).
  - vm_compute. reflexivity.
  - intros b _. cbn. pose proof (Z.mod_pos_bound b 7 ltac:(lia)). lia.
Defined.
End SampleDemo.
