(* ===== verification/SuperBlock.v ===== *)
(** * The super block and the mount options (super.c, nova.h, nova_def.h, wprotect.h)

    The device begins with the super block; a redundant copy follows [NOVA_SB_SIZE] bytes behind
    it.  A checksum protects the fields that never change after the creation of the file
    system.  The kernel's [crc16] and its parser of options are arguments.  The mount options
    of [struct nova_sb_info] are a record of their own. *)

From S2P Require Import Prelude Layout.
From S2P Require Import RangeTree State Monitor Histogram HashTable Records KnapSack Detect Directory DirTree.
#[local] Open Scope Z_scope.

(** ** The super block *)

Definition NOVA_SUPER_MAGIC : Z := 0x4E4F5641.
(** [NOVA_SB_STATIC_SIZE] and the size of [struct nova_super_block]. *)
Definition NOVA_SB_STATIC_SIZE : Z := 40.
Definition sb_length : Z := 64.

(** [struct nova_super_block] at [ps]. *)
Module Sb.
Definition s_sum (m : memory) (ps : Z) : Z := load 2 m ps.
Definition s_magic (m : memory) (ps : Z) : Z := load 4 m (ps + 4).
Definition s_blocksize (m : memory) (ps : Z) : Z := load 4 m (ps + 12).
Definition s_size (m : memory) (ps : Z) : Z := load 8 m (ps + 16).
Definition set_s_sum (m : memory) (ps v : Z) : memory := store 2 m ps v.
Definition set_s_magic (m : memory) (ps v : Z) : memory := store 4 m (ps + 4) v.
Definition set_s_blocksize (m : memory) (ps v : Z) : memory := store 4 m (ps + 12) v.
Definition set_s_size (m : memory) (ps v : Z) : memory := store 8 m (ps + 16) v.
(** [s_mtime] and [s_wtime], which lie side by side. *)
Definition set_s_times (m : memory) (ps v : Z) : memory := store 8 m (ps + 48) v.
Definition set_s_wtime (m : memory) (ps v : Z) : memory := store 4 m (ps + 52) v.
End Sb.

Section super.
Context (crc16 : Z -> list Z -> Z).

(** 0 when the checksum of the [n] bytes at [data] is right. *)
Definition nova_calc_checksum (m : memory) (data n : Z) : Z :=
  let crc := u16 (crc16 65535 (bytes m (data + 2) (n - 2))) in
  if load 2 m data =? crc then 0 else 1.

Definition nova_sync_super (m : memory) (ps seconds : Z) : memory :=
  let m := Sb.set_s_wtime m ps seconds in
  let m := Sb.set_s_sum m ps 0 in
  let crc := u16 (crc16 65535 (bytes m (ps + 2) (NOVA_SB_STATIC_SIZE - 2))) in
  let m := Sb.set_s_sum m ps crc in
  memcpy m (ps + NOVA_SB_SIZE) ps sb_length.

(** [nova_memlock_super] synchronises both copies (the write protection is left out). *)
Definition nova_memlock_super (m : memory) (ps seconds : Z) : memory := nova_sync_super m ps seconds.

(** The repair from the redundant copy; [sb]: there is a [struct super_block]. *)
Definition repair_super (m : memory) (sb : bool) (super super_redund seconds : Z) : memory :=
  let m := memcpy m super super_redund sb_length in
  if sb then nova_memlock_super m super seconds else m.

(** 1 for a valid super block, and the device. *)
Definition nova_check_integrity (m : memory) (sb : bool) (super seconds : Z) : Z * memory :=
  let super_redund := super + NOVA_SB_SIZE in
  let checksum m :=
    if negb (nova_calc_checksum m super NOVA_SB_STATIC_SIZE =? 0) then
      if negb (nova_calc_checksum m super_redund NOVA_SB_STATIC_SIZE =? 0) then (0, m)
      else (1, repair_super m sb super super_redund seconds)
    else (1, m) in
  if negb (Sb.s_magic m super =? NOVA_SUPER_MAGIC) then
    if negb (Sb.s_magic m super_redund =? NOVA_SUPER_MAGIC) then (0, m)
    else checksum (repair_super m sb super super_redund seconds)
  else checksum m.

(** ** Both copies are kept *)

(** The copy at [ps] is whole. *)
Definition super_ok (m : memory) (ps : Z) : Prop :=
  Sb.s_magic m ps = NOVA_SUPER_MAGIC /\ nova_calc_checksum m ps NOVA_SB_STATIC_SIZE = 0.

(** The fields the checksum is about. *)
Definition static_fields (m : memory) (ps : Z) : list Z := bytes m (ps + 2) (NOVA_SB_STATIC_SIZE - 2).

Lemma bytes_same m m' a b n : (forall i, 0 <= i < n -> m' (b + i) mod 256 = m (a + i) mod 256) -> bytes m' b n = bytes m a n.
Proof.
  intros Hm. unfold bytes. apply list_fmap_ext. intros i x Hx. apply lookup_seqZ in Hx. apply Hm. lia.
Qed.

Lemma load_same n m m' a b : (forall i, 0 <= i < Z.of_nat n -> m' (b + i) mod 256 = m (a + i) mod 256) -> load n m' b = load n m a.
Proof.
  revert a b. induction n as [|n IH]; intros a b Hm; cbn [load]; [done|]. pose proof (Hm 0 ltac:(lia)) as H0. rewrite !Z.add_0_r in H0. rewrite H0.
  f_equal. f_equal. apply IH. intros i Hi. specialize (Hm (i + 1) ltac:(lia)). by replace (b + (i + 1)) with (b + 1 + i) in Hm by lia;
    replace (a + (i + 1)) with (a + 1 + i) in Hm by lia.
Qed.

(** A copy is judged by its bytes. *)
Lemma magic_same m m' a b : (forall i, 0 <= i < NOVA_SB_STATIC_SIZE -> m' (b + i) mod 256 = m (a + i) mod 256) ->
  Sb.s_magic m' b = Sb.s_magic m a /\ static_fields m' b = static_fields m a /\
  nova_calc_checksum m' b NOVA_SB_STATIC_SIZE = nova_calc_checksum m a NOVA_SB_STATIC_SIZE.
Proof.
  intros Hm. unfold NOVA_SB_STATIC_SIZE in *.
  assert (forall o n, 0 <= o -> o + n <= 40 -> forall i, 0 <= i < n -> m' (b + o + i) mod 256 = m (a + o + i) mod 256) as Ho.
  { intros o n H1 H2 i Hi. specialize (Hm (o + i) ltac:(lia)). by rewrite !Z.add_assoc in Hm. }
  split_and!.
  - unfold Sb.s_magic. apply load_same. intros i Hi. apply (Ho 4 4); simpl in Hi; lia.
  - unfold static_fields. apply bytes_same. apply (Ho 2 38); lia.
  - unfold nova_calc_checksum. rewrite (bytes_same m m' (a + 2) (b + 2) (40 - 2)) by (apply (Ho 2); lia).
    rewrite (load_same 2 m m' a b); [done|]. intros i Hi. specialize (Ho 0 40 ltac:(lia) ltac:(lia) i). rewrite !Z.add_0_r in Ho. apply Ho. simpl in Hi. lia.
Qed.

Lemma copy_ok m dst src n i : 0 <= i < n -> memcpy m dst src n (dst + i) = m (src + i).
Proof.
  intros Hi. unfold memcpy. rewrite (proj2 (Z.leb_le _ _)), (proj2 (Z.ltb_lt _ _)) by lia. simpl. f_equal. lia.
Qed.

(** Synchronising keeps the fields, makes the checksum right and the copies equal. *)
Lemma sync_super_ok m ps t : let m' := nova_sync_super m ps t in
  (forall b, b = ps \/ b = ps + NOVA_SB_SIZE -> static_fields m' b = static_fields m ps /\ Sb.s_magic m' b = Sb.s_magic m ps /\
     nova_calc_checksum m' b NOVA_SB_STATIC_SIZE = 0) /\
  (forall x, ~ ps <= x < ps + 2 -> ~ ps + 52 <= x < ps + 56 -> ~ ps + NOVA_SB_SIZE <= x < ps + NOVA_SB_SIZE + sb_length -> m' x = m x).
Proof.
  intros m'. unfold nova_sync_super in m'. set (m1 := Sb.set_s_sum (Sb.set_s_wtime m ps t) ps 0) in m'.
  set (crc := u16 (crc16 65535 (bytes m1 (ps + 2) (NOVA_SB_STATIC_SIZE - 2)))) in m'. set (m2 := Sb.set_s_sum m1 ps crc) in m'.
  assert (forall x, ~ ps <= x < ps + 2 -> ~ ps + 52 <= x < ps + 56 -> m2 x = m x) as H2.
  { intros x H1 H3. unfold m2, m1, Sb.set_s_sum, Sb.set_s_wtime. rewrite !store_disjoint by (simpl; lia). done. }
  assert (static_fields m2 ps = static_fields m ps) as Hs2
    by (apply bytes_same; intros i Hi; unfold NOVA_SB_STATIC_SIZE in Hi; rewrite H2 by lia; done).
  assert (bytes m1 (ps + 2) (NOVA_SB_STATIC_SIZE - 2) = static_fields m ps) as Hs1.
  { apply bytes_same. intros i Hi. unfold m1, Sb.set_s_sum, Sb.set_s_wtime, NOVA_SB_STATIC_SIZE in *. rewrite !store_disjoint by (simpl; lia). done. }
  assert (nova_calc_checksum m2 ps NOVA_SB_STATIC_SIZE = 0) as Hc2.
  { unfold nova_calc_checksum. change (bytes m2 (ps + 2) (NOVA_SB_STATIC_SIZE - 2)) with (static_fields m2 ps). rewrite Hs2.
    unfold m2, Sb.set_s_sum. rewrite load_store_eq. fold m1. unfold crc. rewrite Hs1. change (256 ^ Z.of_nat 2) with 65536. unfold u16.
    rewrite Z.mod_mod by lia. by rewrite Z.eqb_refl. }
  assert (Sb.s_magic m2 ps = Sb.s_magic m ps) as Hm2 by (apply load_ext; intros x Hx; simpl in Hx; apply H2; lia).
  unfold NOVA_SB_SIZE, sb_length in *. split.
  - intros b Hb. destruct (magic_same m2 m' ps b) as (E1 & E2 & E3); [|by rewrite E1, E2, E3].
    intros i Hi. unfold NOVA_SB_STATIC_SIZE in Hi. destruct Hb as [-> | ->].
    + unfold m', memcpy. rewrite (proj2 (Z.leb_gt _ _)) by lia. done.
    + unfold m'. rewrite copy_ok by lia. done.
  - intros x H1 H3 H4. unfold m', memcpy. destruct (Z.leb_spec (ps + 512) x), (Z.ltb_spec x (ps + 512 + 64)); cbn [andb]; try (apply H2; lia). lia.
Qed.

(** The repair makes both copies like the redundant one, with a checksum that is right. *)
Lemma repair_super_ok m ps t : let m' := repair_super m true ps (ps + NOVA_SB_SIZE) t in
  forall b, b = ps \/ b = ps + NOVA_SB_SIZE ->
    static_fields m' b = static_fields m (ps + NOVA_SB_SIZE) /\ Sb.s_magic m' b = Sb.s_magic m (ps + NOVA_SB_SIZE) /\
    nova_calc_checksum m' b NOVA_SB_STATIC_SIZE = 0.
Proof.
  intros m' b Hb. unfold m', repair_super, nova_memlock_super. destruct (sync_super_ok (memcpy m ps (ps + NOVA_SB_SIZE) sb_length) ps t) as [Hc _].
  destruct (Hc b Hb) as (E1 & E2 & E3). rewrite E1, E2, E3.
  destruct (magic_same m (memcpy m ps (ps + NOVA_SB_SIZE) sb_length) (ps + NOVA_SB_SIZE) ps) as (F1 & F2 & _); [|by rewrite F1, F2].
  intros i Hi. rewrite copy_ok by (unfold NOVA_SB_STATIC_SIZE, sb_length in *; lia). done.
Qed.

(** C34: The redundant copy.  If the super block is whole and the copies agree, then whatever
    happens to the bytes of the first copy, the mount accepts the super block: either the first
    copy still passes both tests and nothing changes, or it is repaired, both copies are whole
    again and have the fields they had before the damage. *)
Theorem super_survives m m' ps t :
  super_ok m ps -> (forall i, 0 <= i < sb_length -> m (ps + NOVA_SB_SIZE + i) = m (ps + i)) ->
  (forall x, ~ ps <= x < ps + sb_length -> m' x = m x) ->
  exists m'', nova_check_integrity m' true ps t = (1, m'') /\
    ((super_ok m' ps /\ m'' = m') \/
     (~ super_ok m' ps /\ super_ok m'' ps /\ super_ok m'' (ps + NOVA_SB_SIZE) /\
      static_fields m'' ps = static_fields m ps /\ static_fields m'' (ps + NOVA_SB_SIZE) = static_fields m ps)).
Proof.
  intros [Hm Hc] Hsync Hdam. unfold super_ok in *.
  destruct (magic_same m m' ps (ps + NOVA_SB_SIZE)) as (E1 & E2 & E3).
  { intros i Hi. unfold NOVA_SB_STATIC_SIZE, sb_length, NOVA_SB_SIZE in *. rewrite Hdam, Hsync by lia. done. }
  rewrite Hm in E1. rewrite Hc in E3. pose proof (repair_super_ok m' ps t) as Hrep. cbv zeta in Hrep. unfold nova_check_integrity. cbv zeta.
  rewrite E1, E2 in Hrep. destruct (Z.eqb_spec (Sb.s_magic m' ps) NOVA_SUPER_MAGIC) as [Hp|Hp]; cbn [negb].
  - destruct (Z.eqb_spec (nova_calc_checksum m' ps NOVA_SB_STATIC_SIZE) 0) as [Hk|Hk]; cbn [negb]; [by eexists; split; [done|left]|].
    rewrite E3. cbn [negb Z.eqb]. destruct (Hrep ps) as (F1 & F2 & F3); [by left|]. destruct (Hrep (ps + NOVA_SB_SIZE)) as (G1 & G2 & G3); [by right|].
    eexists. split; [done|]. right. split; [tauto|]. by split_and!.
  - rewrite E1, Z.eqb_refl. cbn [negb]. destruct (Hrep ps) as (F1 & F2 & F3); [by left|].
    destruct (Hrep (ps + NOVA_SB_SIZE)) as (G1 & G2 & G3); [by right|]. rewrite F3. cbn [negb Z.eqb]. eexists. split; [done|]. right.
    split; [tauto|]. by split_and!.
Qed.

(** C35: The repair trusts the magic number alone.  If the first copy has lost its magic number
    and the redundant one has it, the mount accepts the super block with the fields of the
    redundant copy, whatever its checksum: the repair computes a new checksum over them before
    it is tested. *)
Theorem repair_launders m ps t :
  Sb.s_magic m ps <> NOVA_SUPER_MAGIC -> Sb.s_magic m (ps + NOVA_SB_SIZE) = NOVA_SUPER_MAGIC ->
  exists m', nova_check_integrity m true ps t = (1, m') /\ static_fields m' ps = static_fields m (ps + NOVA_SB_SIZE) /\ super_ok m' ps.
Proof.
  intros Hp Hr. unfold nova_check_integrity. cbv zeta. rewrite (proj2 (Z.eqb_neq _ _) Hp), Hr, Z.eqb_refl. cbn [negb].
  destruct (repair_super_ok m ps t ps) as (F1 & F2 & F3); [by left|]. rewrite F3. cbn [negb Z.eqb]. eexists. split; [done|].
  split; [done|]. split; [by rewrite F2|done].
Qed.
End super.

Module SuperDemo.
(** A checksum for the examples. *)
Definition sum16 (init : Z) (l : list Z) : Z := foldl (fun h c => (h * 31 + c) mod 65536) init l.

Definition sd_made : memory :=
  nova_sync_super sum16 (Sb.set_s_magic (Sb.set_s_size (fun _ => 0) 4096 81920) 4096 NOVA_SUPER_MAGIC) 4096 7.
(** The size in the first copy is overwritten. *)
Definition sd_damaged : memory := Sb.set_s_size sd_made 4096 999.

Lemma super_survives_witness : exists m, nova_check_integrity sum16 sd_damaged true 4096 9 = (1, m) /\ static_fields m 4096 = static_fields sd_made 4096.
Proof.
  destruct (super_survives sum16 sd_made sd_damaged 4096 9) as (m & E & [[[_ Hc] _]|(_ & _ & _ & Hs & _)]).
  - split; vm_compute; reflexivity.
  - intros i Hi. unfold sd_made, nova_sync_super. cbv zeta. unfold NOVA_SB_SIZE. rewrite copy_ok by exact Hi. unfold memcpy.
    rewrite (proj2 (Z.leb_gt _ _)) by (unfold sb_length in Hi; lia). reflexivity.
  - intros x Hx. unfold sd_damaged, Sb.set_s_size. apply store_disjoint. unfold sb_length in Hx. simpl. lia.
  - vm_compute in Hc. discriminate Hc.
  - exists m. split; [exact E|exact Hs].
Defined.

(** The first copy is lost and the size in the redundant one is overwritten: the checksum is
    wrong, but the size is accepted. *)
Definition sd_lost : memory := Sb.set_s_size (Sb.set_s_magic sd_made 4096 0) (4096 + 512) 999.

Lemma repair_launders_witness : nova_calc_checksum sum16 sd_lost (4096 + 512) NOVA_SB_STATIC_SIZE = 1 /\
  exists m, nova_check_integrity sum16 sd_lost true 4096 9 = (1, m) /\ super_ok sum16 m 4096.
Proof.
  split; [vm_compute; reflexivity|]. destruct (repair_launders sum16 sd_lost 4096 9) as (m & E & _ & Hok).
  - vm_compute. discriminate.
  - vm_compute. reflexivity.
  - exists m. split; [exact E|exact Hok].
Defined.
End SuperDemo.
