(* ===== verification/MountOptions.v ===== *)
(** * The mount options (super.c, nova_def.h)

    The options of a mount or a remount, given as a string of words separated by commas.  The
    kernel's parser of one word, [match_token] with the table of super.c, and its conversions
    of numbers and of user and group numbers are arguments. *)

From S2P Require Import Prelude Layout.
From S2P Require Import RangeTree State BallocTheorems Monitor Histogram HashTable Records KnapSack Detect Directory DirTree SuperBlock.
#[local] Open Scope Z_scope.

(** ** Data *)

Definition NOVA_MOUNT_PROTECT : Z := 0x000001.
Definition NOVA_MOUNT_POSIX_ACL : Z := 0x000004.
Definition NOVA_MOUNT_DAX : Z := 0x000008.
Definition NOVA_MOUNT_ERRORS_CONT : Z := 0x000010.
Definition NOVA_MOUNT_ERRORS_RO : Z := 0x000020.
Definition NOVA_MOUNT_ERRORS_PANIC : Z := 0x000040.
Definition NOVA_MOUNT_HUGEIOREMAP : Z := 0x000100.
Definition NOVA_MOUNT_FORMAT : Z := 0x000200.
Definition NOVA_MOUNT_MOUNTING : Z := 0x000400.
(** include/linux/fs.h *)
Definition MS_RDONLY : Z := 1.
Definition MS_POSIXACL : Z := 65536.

Inductive opt_token :=
  | Opt_bpi | Opt_init | Opt_mode | Opt_uid | Opt_gid | Opt_blocksize | Opt_wprotect
  | Opt_err_cont | Opt_err_panic | Opt_err_ro | Opt_dbgmask | Opt_err.

(** The fields of [struct nova_sb_info] the options are kept in, and [nova_dbgmask]. *)
Record mount_info := MountInfo {
  s_mount_opt : Z;
  bpi : Z;
  mi_uid : Z;
  mi_gid : Z;
  mi_mode : Z;
  nova_dbgmask : Z;
}.

Definition with_s_mount_opt (v : Z) (i : mount_info) : mount_info :=
  MountInfo v (bpi i) (mi_uid i) (mi_gid i) (mi_mode i) (nova_dbgmask i).
Definition with_bpi (v : Z) (i : mount_info) : mount_info :=
  MountInfo (s_mount_opt i) v (mi_uid i) (mi_gid i) (mi_mode i) (nova_dbgmask i).
Definition with_mi_uid (v : Z) (i : mount_info) : mount_info :=
  MountInfo (s_mount_opt i) (bpi i) v (mi_gid i) (mi_mode i) (nova_dbgmask i).
Definition with_mi_gid (v : Z) (i : mount_info) : mount_info :=
  MountInfo (s_mount_opt i) (bpi i) (mi_uid i) v (mi_mode i) (nova_dbgmask i).
Definition with_mi_mode (v : Z) (i : mount_info) : mount_info :=
  MountInfo (s_mount_opt i) (bpi i) (mi_uid i) (mi_gid i) v (nova_dbgmask i).
Definition with_nova_dbgmask (v : Z) (i : mount_info) : mount_info :=
  MountInfo (s_mount_opt i) (bpi i) (mi_uid i) (mi_gid i) (mi_mode i) v.

Definition set_opt (opt : Z) (i : mount_info) : mount_info := with_s_mount_opt (Z.lor (s_mount_opt i) opt) i.
Definition clear_opt (opt : Z) (i : mount_info) : mount_info := with_s_mount_opt (Z.land (s_mount_opt i) (Z.lnot opt)) i.

(** The words that [strsep] gives one after the other. *)
Fixpoint split_words (options : list Z) : list (list Z) :=
  match options with
  | [] => [[]]
  | c :: rest =>
    if c =? 44 then [] :: split_words rest
    else match split_words rest with
         | w :: ws => (c :: w) :: ws
         | [] => [[c]]
         end
  end.

(** ** The code *)

(** [set_default_opts]; the options are kept apart from the rest of [struct nova_sb_info]. *)
Definition set_default_opts (num_online_cpus : Z) (i : mount_info) (sbi : nova_sb_info) : mount_info * nova_sb_info :=
  (set_opt NOVA_MOUNT_ERRORS_CONT (set_opt NOVA_MOUNT_HUGEIOREMAP i),
   with_map_id 0 (SbInfo (virt_addr sbi) (num_blocks sbi) (s_inodes_used_count sbi) RESERVED_BLOCKS num_online_cpus (inode_maps sbi)
     (map_id sbi) (free_lists sbi) (inode_page_mapping_tables sbi) (inode_page_mapping_table_locks sbi) (per_list_blocks sbi)
     (shared_free_list sbi) (range_nodes sbi) (nvm sbi))).

Section options.
Context (match_token : list Z -> opt_token * list Z) (match_int match_octal : list Z -> option Z).
Context (make_kuid make_kgid : Z -> Z).

(** One word: [None] refuses it. *)
Definition parse_option (remount : bool) (p : list Z) (i : mount_info) : option mount_info :=
  let '(token, arg) := match_token p in
  match token with
  | Opt_bpi => if remount then None else option ← match_int arg; Some (with_bpi (u64 option) i)
  | Opt_uid => if remount then None else option ← match_int arg; Some (with_mi_uid (make_kuid option) i)
  | Opt_gid => option ← match_int arg; Some (with_mi_gid (make_kgid option) i)
  | Opt_mode => option ← match_octal arg; Some (with_mi_mode (Z.land option 1023) i)
  | Opt_init => if remount then None else Some (set_opt NOVA_MOUNT_FORMAT i)
  | Opt_err_panic => Some (set_opt NOVA_MOUNT_ERRORS_PANIC (clear_opt NOVA_MOUNT_ERRORS_RO (clear_opt NOVA_MOUNT_ERRORS_CONT i)))
  | Opt_err_ro => Some (set_opt NOVA_MOUNT_ERRORS_RO (clear_opt NOVA_MOUNT_ERRORS_PANIC (clear_opt NOVA_MOUNT_ERRORS_CONT i)))
  | Opt_err_cont => Some (set_opt NOVA_MOUNT_ERRORS_CONT (clear_opt NOVA_MOUNT_ERRORS_PANIC (clear_opt NOVA_MOUNT_ERRORS_RO i)))
  | Opt_wprotect => if remount then None else Some (set_opt NOVA_MOUNT_PROTECT i)
  | Opt_dbgmask => option ← match_int arg; Some (with_nova_dbgmask (u32 option) i)
  | Opt_blocksize | Opt_err => None
  end.

(** The loop: the result, and the options as far as they were read. *)
Fixpoint parse_words (remount : bool) (words : list (list Z)) (i : mount_info) : Z * mount_info :=
  match words with
  | [] => (0, i)
  | [] :: words => parse_words remount words i
  | p :: words =>
    match parse_option remount p i with
    | Some i => parse_words remount words i
    | None => (- EINVAL, i)
    end
  end.

Definition nova_parse_options (options : option (list Z)) (i : mount_info) (remount : bool) : Z * mount_info :=
  match options with
  | None => (0, i)
  | Some options => parse_words remount (split_words options) i
  end.

(** [nova_remount] for a super block at [ps]: the result, the options, [sb->s_flags] and the device. *)
Definition nova_remount (mntflags : Z) (data : option (list Z)) (i : mount_info) (s_flags : Z) (m : memory) (ps seconds : Z) :
    Z * mount_info * Z * memory :=
  let old_sb_flags := s_flags in
  let old_mount_opt := s_mount_opt i in
  let '(err, i) := nova_parse_options data i true in
  if negb (err =? 0) then (- EINVAL, with_s_mount_opt old_mount_opt i, old_sb_flags, m)
  else
    let s_flags := Z.lor (Z.land s_flags (Z.lnot MS_POSIXACL))
                     (if Z.land (s_mount_opt i) NOVA_MOUNT_POSIX_ACL =? 0 then 0 else MS_POSIXACL) in
    let m := if negb (Z.land mntflags MS_RDONLY =? Z.land s_flags MS_RDONLY) then
               let mnt_write_time := Z.land seconds 0xFFFFFFFF in
               Sb.set_s_times m ps (Z.lor mnt_write_time (u64 (Z.shiftl mnt_write_time 32)))
             else m in
    (0, i, s_flags, m).

(** ** The reaction to errors *)

(** Exactly one of the three is set. *)
Definition one_policy (o : Z) : Prop :=
  (Z.testbit o 4 && negb (Z.testbit o 5) && negb (Z.testbit o 6)) || (negb (Z.testbit o 4) && Z.testbit o 5 && negb (Z.testbit o 6)) ||
  (negb (Z.testbit o 4) && negb (Z.testbit o 5) && Z.testbit o 6) = true.

(** A choice of policy sets its bit and clears the others. *)
Lemma policy_set o a b c : (a = 16 /\ b = 32 /\ c = 64) \/ (a = 16 /\ b = 64 /\ c = 32) \/ (a = 32 /\ b = 64 /\ c = 16) ->
  one_policy (Z.lor (Z.land (Z.land o (Z.lnot a)) (Z.lnot b)) c).
Proof.
  intros Hc. unfold one_policy. rewrite !Z.lor_spec, !Z.land_spec, !Z.lnot_spec by lia.
  destruct Hc as [(-> & -> & ->)|[(-> & -> & ->)|(-> & -> & ->)]];
    destruct (Z.testbit o 4), (Z.testbit o 5), (Z.testbit o 6); reflexivity.
Qed.

(** The other bits do not matter. *)
Lemma policy_other o x : Z.testbit x 4 = false -> Z.testbit x 5 = false -> Z.testbit x 6 = false -> one_policy o -> one_policy (Z.lor o x).
Proof. intros H1 H2 H3. unfold one_policy. by rewrite !Z.lor_spec, H1, H2, H3, !orb_false_r. Qed.

Lemma parse_option_policy remount p i i' : parse_option remount p i = Some i' -> one_policy (s_mount_opt i) -> one_policy (s_mount_opt i').
Proof.
  unfold parse_option. destruct (match_token p) as [[] arg], remount; intros E Hi; try done; simplify_option_eq; try done;
    cbn [s_mount_opt set_opt clear_opt with_s_mount_opt];
    first [apply policy_set; unfold NOVA_MOUNT_ERRORS_CONT, NOVA_MOUNT_ERRORS_RO, NOVA_MOUNT_ERRORS_PANIC; tauto
          |apply policy_other; [reflexivity..|done]].
Qed.

Lemma parse_words_policy remount words : forall i, one_policy (s_mount_opt i) -> one_policy (s_mount_opt (parse_words remount words i).2).
Proof.
  induction words as [|[|c p] words IH]; intros i Hi; cbn [parse_words]; [done|by apply IH|].
  destruct (parse_option remount (c :: p) i) as [i'|] eqn:E; [|done]. apply IH. by eapply parse_option_policy.
Qed.

(** On a remount the numbers that only a mount may set stay. *)
Lemma parse_words_fixed words : forall i, bpi (parse_words true words i).2 = bpi i /\ mi_uid (parse_words true words i).2 = mi_uid i.
Proof.
  induction words as [|[|c p] words IH]; intros i; cbn [parse_words]; [done|apply IH|].
  destruct (parse_option true (c :: p) i) as [i'|] eqn:E; [|done]. destruct (IH i') as [-> ->].
  unfold parse_option in E. destruct (match_token (c :: p)) as [[] arg]; simplify_option_eq; done.
Qed.

(** The flags after a remount: the ACL bit is that of the options, the others stay. *)
Lemma remount_flags f o j : 0 <= j ->
  Z.testbit (Z.lor (Z.land f (Z.lnot MS_POSIXACL)) (if Z.land o NOVA_MOUNT_POSIX_ACL =? 0 then 0 else MS_POSIXACL)) j =
  if j =? 16 then Z.testbit o 2 else Z.testbit f j.
Proof.
  intros Hj. assert (Z.testbit MS_POSIXACL j = (j =? 16)) as HM.
  { change MS_POSIXACL with (2 ^ 16). rewrite Z.pow2_bits_eqb by lia. apply Z.eqb_sym. }
  assert ((Z.land o NOVA_MOUNT_POSIX_ACL =? 0) = negb (Z.testbit o 2)) as ->.
  { change NOVA_MOUNT_POSIX_ACL with (2 ^ 2). destruct (Z.eqb_spec (Z.land o (2 ^ 2)) 0) as [E|E].
    - assert (Z.testbit (Z.land o (2 ^ 2)) 2 = false) as Hb by (rewrite E; apply Z.bits_0).
      rewrite Z.land_spec, Z.pow2_bits_true, andb_true_r in Hb by lia. by rewrite Hb.
    - destruct (Z.testbit o 2) eqn:Hb; [done|]. destruct E. apply Z.bits_inj_0. intros k. rewrite Z.land_spec.
      destruct (Z.ltb_spec k 0); [by rewrite Z.testbit_neg_r|]. rewrite Z.pow2_bits_eqb by lia.
      destruct (Z.eqb_spec 2 k) as [<-|]; [by rewrite Hb|by rewrite andb_false_r]. }
  rewrite Z.lor_spec, Z.land_spec, Z.lnot_spec, HM by lia.
  destruct (Z.testbit o 2); cbn [negb]; rewrite ?HM, ?Z.bits_0; destruct (j =? 16), (Z.testbit f j); reflexivity.
Qed.

(** The read-only flag survives it. *)
Lemma remount_rdonly f f' : (forall j, 0 <= j -> Z.testbit f' j = if j =? 16 then Z.testbit f' 16 else Z.testbit f j) ->
  Z.land f' MS_RDONLY = Z.land f MS_RDONLY.
Proof.
  intros Hf. apply Z.bits_inj'. intros j Hj. rewrite !Z.land_spec. change MS_RDONLY with (2 ^ 0). rewrite Z.pow2_bits_eqb by lia.
  destruct (Z.eqb_spec 0 j) as [<-|]; [by rewrite (Hf 0) by lia|by rewrite !andb_false_r].
Qed.

Lemma store_at n m a v x : a <= x < a + Z.of_nat n -> store n m a v x = (v / 256 ^ (x - a)) mod 256.
Proof. intros Hx. unfold store. rewrite (proj2 (Z.leb_le _ _)), (proj2 (Z.ltb_lt _ _)) by lia. done. Qed.

(** The two times in one word. *)
Lemma mount_times m ps t : let w := Z.land t 0xFFFFFFFF in let m' := Sb.set_s_times m ps (Z.lor w (u64 (Z.shiftl w 32))) in
  load 4 m' (ps + 48) = t mod 2 ^ 32 /\ load 4 m' (ps + 52) = t mod 2 ^ 32 /\ (forall x, ~ ps + 48 <= x < ps + 56 -> m' x = m x).
Proof.
  intros w m'. assert (w = t mod 2 ^ 32) as Hw by (apply (Z.land_ones t 32); lia).
  pose proof (Z.mod_pos_bound t (2 ^ 32) eq_refl). clearbody w. subst w. set (w := t mod 2 ^ 32) in *.
  assert (Z.lor w (u64 (Z.shiftl w 32)) = w + w * 2 ^ 32) as HE.
  { unfold u64. rewrite Z.mod_small by (rewrite Z.shiftl_mul_pow2; lia). rewrite <- Z.shiftl_mul_pow2 by lia.
    rewrite Z.add_nocarry_lxor, Z.lxor_lor; [done|..].
    all: apply Z.bits_inj'; intros j Hj; rewrite Z.land_spec, Z.bits_0.
    all: destruct (Z.ltb_spec j 32); [by rewrite Z.shiftl_spec_low, andb_false_r by lia|].
    all: rewrite <- (Z.mod_small w (2 ^ 32)) by lia; by rewrite Z.mod_pow2_bits_high by lia. }
  unfold m', Sb.set_s_times. rewrite HE. split; [|split].
  - rewrite (load_digits 4 (w + w * 2 ^ 32) 0); [change (256 ^ 0) with 1; change (256 ^ Z.of_nat 4) with (2 ^ 32)| |lia].
    + by rewrite Z.div_1_r, Z_mod_plus_full, Z.mod_small by lia.
    + intros j Hj. rewrite store_at by (simpl; lia). f_equal. f_equal. f_equal. lia.
  - rewrite (load_digits 4 (w + w * 2 ^ 32) 4); [change (256 ^ 4) with (2 ^ 32); change (256 ^ Z.of_nat 4) with (2 ^ 32)| |lia].
    + rewrite Z.div_add, (Z.div_small w) by lia. rewrite Z.add_0_l. apply Z.mod_small. lia.
    + intros j Hj. rewrite store_at by (simpl; lia). f_equal. f_equal. f_equal. lia.
  - intros x Hx. apply store_disjoint. simpl. lia.
Qed.

(** C36: Remounting.  The options always contain exactly one reaction to errors.  A remount that
    is refused returns [-EINVAL] and leaves the flags, the mount options, the device and what
    only a mount may set as they were.  One that succeeds takes the options given, changes no
    flag but the one for ACLs, and writes the time of the mount and of the last write, and
    nothing else of the device, exactly when the read-only flag is to change. *)
Theorem remount_exact mntflags data i s_flags m ps seconds :
  one_policy (s_mount_opt i) ->
  let '(err, i', s_flags', m') := nova_remount mntflags data i s_flags m ps seconds in
  one_policy (s_mount_opt i') /\ bpi i' = bpi i /\ mi_uid i' = mi_uid i /\
  (err = 0 /\ nova_parse_options data i true = (0, i') /\
     (forall j, 0 <= j -> Z.testbit s_flags' j = if j =? 16 then Z.testbit (s_mount_opt i') 2 else Z.testbit s_flags j) /\
     (Z.land mntflags MS_RDONLY = Z.land s_flags MS_RDONLY /\ m' = m \/
      Z.land mntflags MS_RDONLY <> Z.land s_flags MS_RDONLY /\ load 4 m' (ps + 48) = seconds mod 2 ^ 32 /\
        load 4 m' (ps + 52) = seconds mod 2 ^ 32 /\ (forall x, ~ ps + 48 <= x < ps + 56 -> m' x = m x)) \/
   err = - EINVAL /\ s_mount_opt i' = s_mount_opt i /\ s_flags' = s_flags /\ m' = m).
Proof.
  intros Hi. unfold nova_remount. destruct (nova_parse_options data i true) as [err i1] eqn:E.
  assert (one_policy (s_mount_opt i1) /\ bpi i1 = bpi i /\ mi_uid i1 = mi_uid i) as (P1 & P2 & P3).
  { unfold nova_parse_options in E. destruct data as [o|]; [|by simplify_eq]. pose proof (parse_words_policy true (split_words o) i Hi).
    pose proof (parse_words_fixed (split_words o) i) as [? ?]. rewrite E in *. done. }
  destruct (Z.eqb_spec err 0) as [->|Herr]; cbn [negb].
  - split; [done|]. split; [done|]. split; [done|]. left. split; [done|]. split; [done|].
    set (f := Z.lor _ _). assert (forall j, 0 <= j -> Z.testbit f j = if j =? 16 then Z.testbit (s_mount_opt i1) 2 else Z.testbit s_flags j) as Hf
      by (intros; by apply remount_flags). split; [done|].
    rewrite (remount_rdonly s_flags f) by (intros; rewrite !Hf by lia; by destruct (_ =? 16)).
    destruct (Z.eqb_spec (Z.land mntflags MS_RDONLY) (Z.land s_flags MS_RDONLY)); cbn [negb]; [by left|right]. split; [done|].
    apply mount_times.
  - cbn [s_mount_opt bpi mi_uid with_s_mount_opt]. split; [done|]. split; [done|]. split; [done|]. right. done.
Qed.
End options.

Module OptionsDemo.
(** A parser for "c" (continue), "p" (panic), "g" with a digit and anything else. *)
Definition token_of (w : list Z) : opt_token * list Z :=
  match w with
  | [99] => (Opt_err_cont, [])
  | [112] => (Opt_err_panic, [])
  | 103 :: arg => (Opt_gid, arg)
  | _ => (Opt_err, [])
  end.
Definition digit (w : list Z) : option Z := match w with [c] => Some (c - 48) | _ => None end.

Definition od_info : mount_info := (set_default_opts 2 (MountInfo 0 0 0 0 0 0) BallocTheorems.Demo.raw).1.

(** "p,g7,x": refused; the policy is restored, the group is not. *)
Lemma remount_exact_witness : exists i,
  nova_remount token_of digit digit id id 0 (Some [112; 44; 103; 55; 44; 120]) od_info 0 (fun _ => 0) 65536 5 = (- EINVAL, i, 0, fun _ => 0) /\
  s_mount_opt i = s_mount_opt od_info /\ mi_gid od_info = 0 /\ mi_gid i = 7.
Proof.
  pose proof (remount_exact token_of digit digit id id 0 (Some [112; 44; 103; 55; 44; 120]) od_info 0 (fun _ => 0) 65536 5 eq_refl) as Hx.
  destruct (nova_remount token_of digit digit id id 0 (Some [112; 44; 103; 55; 44; 120]) od_info 0 (fun _ => 0) 65536 5) as [[[err i] f] m] eqn:E.
  exists i. destruct Hx as (_ & _ & _ & [(-> & Hp & _)|(-> & Ho & -> & ->)]).
  - vm_compute in Hp. discriminate Hp.
  - split; [reflexivity|]. split; [exact Ho|]. split; [reflexivity|]. vm_compute in E. injection E as <-. reflexivity.
Defined.
End OptionsDemo.
