(* ===== verification/Seek.v ===== *)
(** * Positions in a file and writing back mapped pages (file.c, inode.c)

    [lseek] for data and holes searches the tree of pages; [fsync] of a file that is mapped
    into memory flushes the cache lines of its blocks.  Flushes leave no trace in the device,
    so [nova_fsync] gives the ranges it flushes. *)

From S2P Require Import Prelude Layout RangeTree RbList State Balloc BallocFacts BallocSpec.
From S2P Require Import BallocInit BallocTheorems TreeEdits InodeMap LogBlocks InodeTable.
From S2P Require Import Monitor Histogram HashTable Records KnapSack Detect WriteCount Migrate.
From S2P Require Import LogPages World InodeLog FastGc LogAppend BlockMap Shutdown Crawl FileTree FileData FileWrite Attr.
#[local] Open Scope word_scope.

Definition ENXIO : Z := 6.
Definition ENODATA : Z := 61.
(** include/uapi/linux/fs.h *)
Definition SEEK_DATA : Z := 3.
Definition SEEK_HOLE : Z := 4.

Definition CACHELINE_SIZE : Z := 64.
Definition CACHELINE_MASK : Z := Z.lnot (CACHELINE_SIZE - 1).
Definition CACHELINE_ALIGN (addr : Z) : Z := Z.land (addr + CACHELINE_SIZE - 1) CACHELINE_MASK.

(** [struct file]: the position, the version of the cached position and whether the mode has
    [FMODE_UNSIGNED_OFFSET]. *)
Record file := File { f_pos : Z; f_version : Z; unsigned_offset : bool }.

(** include/linux/fs.h, for 64-bit machines *)
Definition MAX_LFS_FILESIZE : Z := 9223372036854775807.

Definition nova_max_size : Z :=
  let res := Z.shiftl 1 63 - 1 in
  if MAX_LFS_FILESIZE <? res then MAX_LFS_FILESIZE else res.

(** The loop of [nova_lookup_hole_in_range]: the number of pages, and whether data and a hole
    were found. *)
Fixpoint lookup_hole_loop (fuel : nat) (mem : memory) (t : gmap Z Z) (last_blocknr : Z) (hole : bool)
    (pgoff blocks : Z) (data_found hole_found : bool) : option (Z * bool * bool) :=
  if negb (pgoff <=? last_blocknr) then Some (blocks, data_found, hole_found)
  else
    match fuel with
    | O => None
    | S fuel =>
      let old_pgoff := pgoff in
      let count pgoff hole_found :=
        if negb hole_found || negb hole then blocks ⊞ (pgoff ⊟ old_pgoff) else blocks in
      match t !! pgoff with
      | Some _ =>
        if negb hole then Some (blocks, true, hole_found)
        else
          let pgoff := pgoff ⊞ 1 in
          lookup_hole_loop fuel mem t last_blocknr hole pgoff (count pgoff hole_found) true hole_found
      | None =>
        let entry := nova_find_next_entry t pgoff in
        let pgoff := pgoff ⊞ 1 in
        let pgoff := match entry with
                     | Some entry =>
                       let pgoff := if We.pgoff mem entry <? pgoff then pgoff else We.pgoff mem entry in
                       if last_blocknr <? pgoff then last_blocknr ⊞ 1 else pgoff
                     | None => pgoff
                     end in
        lookup_hole_loop fuel mem t last_blocknr hole pgoff (count pgoff true) data_found true
      end
    end.

(** [nova_lookup_hole_in_range]: the number of pages is returned as an [int]. *)
Definition nova_lookup_hole_in_range (mem : memory) (t : gmap Z Z) (first_blocknr last_blocknr : Z) (hole : bool) :
    option (Z * bool * bool) :=
  '(blocks, data_found, hole_found) ← lookup_hole_loop (Z.to_nat (last_blocknr + 1 - first_blocknr)) mem t last_blocknr hole
                                        first_blocknr 0 false false;
  Some (i32 blocks, data_found, hole_found).

Section operations.
Context `{RbTree} (smp : Z) (jiffies_to_msecs : Z -> Z) (e : env).
(** The search for the other origins is the kernel's. *)
Context (generic_file_llseek : vfs_inode -> file -> Z -> Z -> Z * file).

(** [nova_find_region]: the result and the offset. *)
Definition nova_find_region (inode : vfs_inode) (offset : Z) (hole : bool) : fs (Z * Z) :=
  pi ← own_inode smp inode;
  mem ← get_nvm;
  sih ← get_sih;
  data_bits ← fs_deref (blk_type_to_shift (Pi.i_blk_type mem pi));
  if vfs_size inode <=? offset then mret (u64 (- ENXIO), offset)
  else if (vfs_blocks inode =? 0) || (sih_size sih =? 0) then
    if hole then mret (u64 (vfs_size inode), offset) else mret (u64 (- ENXIO), offset)
  else
    let offset_in_block := u64 (Z.land offset (Z.shiftl 1 data_bits - 1)) in
    let first_blocknr := u64 (Z.shiftr offset data_bits) in
    let last_blocknr := u64 (Z.shiftr (vfs_size inode) data_bits) in
    r ← fs_deref (nova_lookup_hole_in_range mem (tree sih) first_blocknr last_blocknr hole);
    let '(blocks, data_found, hole_found) := (r : Z * bool * bool) in
    let blocks := u64 blocks in
    if negb hole && negb data_found && hole_found then mret (u64 (- ENXIO), offset)
    else if data_found && negb hole_found then
      mret (0, if hole then vfs_size inode else offset)
    else if hole && hole_found && (blocks =? 0) then
      mret (0, if negb data_found then vfs_size inode else offset)
    else if negb (offset_in_block =? 0) then
      let blocks := blocks ⊟ 1 in
      mret (0, i64 (offset + (u64 (Z.shiftl blocks data_bits) + (Z.shiftl 1 data_bits - offset_in_block))))
    else mret (0, i64 (offset + u64 (Z.shiftl blocks data_bits))).

(** [nova_llseek]: the result and the file. *)
Definition nova_llseek (inode : vfs_inode) (f : file) (offset origin : Z) : fs (Z * file) :=
  if negb (origin =? SEEK_DATA) && negb (origin =? SEEK_HOLE) then mret (generic_file_llseek inode f offset origin)
  else
    r ← nova_find_region inode offset (origin =? SEEK_HOLE);
    let '(retval, offset) := (r : Z * Z) in
    let retval := i32 retval in
    if negb (retval =? 0) then mret (retval, f)
    else if ((offset <? 0) && negb (unsigned_offset f)) || (nova_max_size <? offset) then mret (- EINVAL, f)
    else mret (offset, if negb (offset =? f_pos f) then File offset 0 (unsigned_offset f) else f).

(** [nova_set_blocksize_hint] *)
Definition nova_can_set_blocksize_hint (sih : nova_inode_info_header) : bool := negb (0 <? sih_size sih).

Definition nova_set_blocksize_hint (pi new_size : Z) : fs Z :=
  sih ← get_sih;
  if negb (nova_can_set_blocksize_hint sih) then mret 0
  else
    let block_type := if 0x40000000 <=? new_size then NOVA_BLOCK_TYPE_1G
                      else if 0x200000 <=? new_size then NOVA_BLOCK_TYPE_2M else NOVA_BLOCK_TYPE_4K in
    _ ← put_nvm (fun mem => Pi.set_i_blk_type mem pi block_type);
    sbi ← get_sbi;
    _ ← on_mon (inode_page_count_increase jiffies_to_msecs sbi e pi);
    mret 0.

(** One turn of the loop of [nova_fsync] from [start] on: [inl] leaves the loop with a result,
    [inr] gives the range flushed. *)
Definition fsync_turn (start stop : Z) : fs (Z + Z * Z * Z) :=
  let pgoff := u64 (Z.shiftr start PAGE_SHIFT) in
  let offset := Z.land start 4095 in
  entry ← nova_get_write_entry pgoff;
  sih ← get_sih;
  mem ← get_nvm;
  let found := match entry with
               | Some entry => Some (entry, pgoff, start, offset)
               | None =>
                 match nova_find_next_entry (tree sih) pgoff with
                 | None => None
                 | Some entry =>
                   let start := i64 (Z.shiftl (We.pgoff mem entry) PAGE_SHIFT) in
                   if stop <=? start then None else Some (entry, We.pgoff mem entry, start, 0)
                 end
               end in
  match found with
  | None => mret (inl 0)
  | Some (entry, pgoff, start, offset) =>
    let nr_flush_bytes := u64 (stop - start) in
    if (pgoff <? We.pgoff mem entry) || (We.num_pages mem entry <=? pgoff ⊟ We.pgoff mem entry) then mret (inl (- EINVAL))
    else
      let avail_bytes := if We.invalid_pages mem entry =? 0
                         then u64 ((We.num_pages mem entry - (pgoff - We.pgoff mem entry)) * PAGE_SIZE - offset)
                         else u64 (PAGE_SIZE - offset) in
      let nr_flush_bytes := if avail_bytes <? nr_flush_bytes then avail_bytes else nr_flush_bytes in
      nvmm ← get_nvmm smp entry pgoff;
      dax_mem ← get_block (u64 (Z.shiftl nvmm PAGE_SHIFT));
      mret (inr (i64 (start + nr_flush_bytes), dax_mem + offset, nr_flush_bytes))
  end.

(** The loop; a turn flushes a byte at least. *)
Fixpoint fsync_loop (fuel : nat) (start stop : Z) (flushed : list (Z * Z)) : fs (Z * list (Z * Z)) :=
  match fuel with
  | O => fs_fault
  | S fuel =>
    r ← fsync_turn start stop;
    match (r : Z + Z * Z * Z) with
    | inl ret => mret (ret, flushed)
    | inr (start, addr, nr_flush_bytes) =>
      let flushed := if negb (nr_flush_bytes =? 0) then flushed ++ [(addr, nr_flush_bytes)] else flushed in
      if start <? stop then fsync_loop fuel start stop flushed else mret (0, flushed)
    end
  end.

(** [nova_fsync]: the result and the ranges flushed; [mapped] is [mapping_mapped]. *)
Definition nova_fsync (mapped : bool) (inode : vfs_inode) (start stop : Z) : fs (Z * list (Z * Z)) :=
  if negb mapped then mret (0, [])
  else
    let stop := i64 (stop + 1) in
    let isize := vfs_size inode in
    let stop := if u64 isize <? u64 stop then isize else stop in
    if (isize =? 0) || (stop <=? start) then mret (- ENODATA, [])
    else
      let start := Z.land start CACHELINE_MASK in
      let stop := CACHELINE_ALIGN stop in
      fsync_loop (Z.to_nat (stop - start)) start stop [].
End operations.

(** ** The search *)

Section search.
Context (mem : memory) (t : gmap Z Z).
Context (Hcov : covering mem t).

(** A turn in a hole goes on over unmapped pages only. *)
Lemma hole_step p last : 0 <= p <= last -> last < 2 ^ 62 -> t !! p = None ->
  let next := match nova_find_next_entry t p with
              | Some entry => let next := if We.pgoff mem entry <? p ⊞ 1 then p ⊞ 1 else We.pgoff mem entry in
                              if last <? next then last ⊞ 1 else next
              | None => p ⊞ 1
              end in
  p < next <= last + 1 /\ (forall j, p <= j < next -> t !! j = None) /\ next ⊟ p = next - p.
Proof.
  intros Hp Hl Hn next. assert (p ⊞ 1 = p + 1 /\ last ⊞ 1 = last + 1) as [Ep El] by (rewrite !u64_small by lia; done).
  assert (p < next <= last + 1 /\ (forall j, p <= j < next -> t !! j = None)) as [H1 H2].
  { unfold next, nova_find_next_entry. rewrite Ep, El. destruct (radix_tree_next t p) as [[k a]|] eqn:E; cbn [fmap option_fmap option_map snd].
    - destruct (radix_tree_next_some _ _ _ _ E) as (E1 & E2 & E3). destruct (Hcov k a E1) as (C1 & C2 & C3).
      destruct (Z.ltb_spec (We.pgoff mem a) (p + 1)), (Z.ltb_spec last (We.pgoff mem a)), (Z.ltb_spec last (p + 1)); (split; [lia|]);
        intros j Hj; (destruct (decide (j = p)) as [->|]; [done|apply E3; lia]).
    - split; [lia|]. intros j Hj. by replace j with p by lia. }
  split; [done|]. split; [done|]. apply u64_small. lia.
Qed.

(** Searching data: the pages before the first mapped one are counted. *)
Lemma data_loop_ok fuel : forall last p b df hf,
  0 <= p <= last + 1 -> last < 2 ^ 62 -> 0 <= b -> b + (last + 1 - p) < 2 ^ 63 -> last + 1 - p <= Z.of_nat fuel ->
  exists k, p <= k <= last + 1 /\ (forall j, p <= j < k -> t !! j = None) /\ (k <= last -> is_Some (t !! k)) /\
    lookup_hole_loop fuel mem t last false p b df hf = Some (b + (k - p), df || (k <=? last), hf || (p <? k)).
Proof.
  induction fuel as [|fuel IH]; intros last p b df hf Hp Hl Hb Hbl Hf; cbn [lookup_hole_loop].
  { exists p. rewrite (proj2 (Z.leb_gt p last)) by lia. cbn [negb]. rewrite Z.sub_diag, Z.add_0_r, Z.ltb_irrefl, !orb_false_r.
    split; [lia|]. split; [intros; lia|]. split; [lia|done]. }
  destruct (Z.leb_spec p last) as [Hle|]; cbn [negb].
  2:{ exists p. rewrite (proj2 (Z.leb_gt p last)) by lia. rewrite Z.sub_diag, Z.add_0_r, Z.ltb_irrefl, !orb_false_r.
      split; [lia|]. split; [intros; lia|]. split; [lia|done]. }
  destruct (t !! p) as [a|] eqn:E.
  { exists p. rewrite (proj2 (Z.leb_le p last)) by lia. rewrite Z.sub_diag, Z.add_0_r, Z.ltb_irrefl, orb_true_r, orb_false_r.
    split; [lia|]. split; [intros; lia|]. split; [by intros; exists a|done]. }
  pose proof (hole_step p last ltac:(lia) Hl E) as (N1 & N2 & N3). set (next := match nova_find_next_entry t p with Some _ => _ | None => _ end) in *.
  rewrite orb_true_r. rewrite N3, (u64_small (b + _)) by lia.
  destruct (IH last next (b + (next - p)) df true) as (k & K1 & K2 & K3 & K4); try lia.
  exists k. split; [lia|]. split; [|split; [done|]].
  - intros j Hj. destruct (Z.lt_ge_cases j next); [apply N2; lia|apply K2; lia].
  - rewrite K4. rewrite (proj2 (Z.ltb_lt p k)) by lia. rewrite orb_true_r. do 3 f_equal. lia.
Qed.

(** Searching a hole, once one is found: the rest of the range is looked at for data. *)
Definition some_data (p last : Z) : Prop := exists j, p <= j <= last /\ is_Some (t !! j).

Lemma some_data_skip p next last : p <= next -> (forall j, p <= j < next -> t !! j = None) -> some_data next last <-> some_data p last.
Proof.
  intros Hp Hn. split; intros (j & Hj & Hs); exists j; (split; [|done]); [lia|].
  destruct (Z.lt_ge_cases j next); [rewrite Hn in Hs by lia; by destruct Hs|lia].
Qed.

Lemma hole_loop_rest fuel : forall last p b df,
  0 <= p <= last + 1 -> last < 2 ^ 62 -> last + 1 - p <= Z.of_nat fuel ->
  exists df', lookup_hole_loop fuel mem t last true p b df true = Some (b, df', true) /\ (df' = true <-> df = true \/ some_data p last).
Proof.
  assert (forall last p (df : bool), last < p -> df = true <-> df = true \/ some_data p last) as Hend
    by (intros last p df Hp; split; [by left|intros [?|(j & Hj & _)]; [done|lia]]).
  induction fuel as [|fuel IH]; intros last p b df Hp Hl Hf; cbn [lookup_hole_loop].
  { rewrite (proj2 (Z.leb_gt p last)) by lia. exists df. split; [done|]. apply Hend. lia. }
  destruct (Z.leb_spec p last) as [Hle|]; cbn [negb]; [|exists df; split; [done|by apply Hend]].
  destruct (t !! p) as [a|] eqn:E; cbn [orb].
  - rewrite (u64_small (p + 1)) by lia. destruct (IH last (p + 1) b true) as (df' & E' & Hd); try lia. exists df'. split; [done|].
    rewrite Hd. split; intros _; [right; exists p; split; [lia|by exists a]|by left].
  - pose proof (hole_step p last ltac:(lia) Hl E) as (N1 & N2 & N3). set (next := match nova_find_next_entry t p with Some _ => _ | None => _ end) in *.
    destruct (IH last next b df) as (df' & E' & Hd); try lia. exists df'. split; [done|]. by rewrite Hd, (some_data_skip p next) by (done || lia).
Qed.

(** Searching a hole: the mapped pages before the first one are counted. *)
Lemma hole_loop_ok fuel : forall last p b df,
  0 <= p <= last + 1 -> last < 2 ^ 62 -> 0 <= b -> b + (last + 1 - p) < 2 ^ 63 -> last + 1 - p <= Z.of_nat fuel ->
  exists k df', p <= k <= last + 1 /\ (forall j, p <= j < k -> is_Some (t !! j)) /\ (k <= last -> t !! k = None) /\
    lookup_hole_loop fuel mem t last true p b df false = Some (b + (k - p), df', k <=? last) /\
    (df' = true <-> df = true \/ some_data p last).
Proof.
  induction fuel as [|fuel IH]; intros last p b df Hp Hl Hb Hbl Hf; cbn [lookup_hole_loop];
    (destruct (Z.leb_spec p last) as [Hle|]; cbn [negb];
     [|exists p, df; rewrite (proj2 (Z.leb_gt p last)), Z.sub_diag, Z.add_0_r by lia;
       split; [lia|]; split; [intros; lia|]; split; [lia|]; split; [done|]; split; [by left|intros [?|(j & Hj & _)]; [done|lia]]]); [lia|].
  destruct (t !! p) as [a|] eqn:E; cbn [orb negb].
  - rewrite (u64_small (p + 1)) by lia. rewrite (u64_small (p + 1 - p)), (u64_small (b + _)) by lia.
    destruct (IH last (p + 1) (b + (p + 1 - p)) true) as (k & df' & K1 & K2 & K3 & K4 & K5); try lia.
    exists k, df'. split; [lia|]. split; [|split; [done|split]].
    + intros j Hj. destruct (decide (j = p)) as [->|]; [by exists a|apply K2; lia].
    + rewrite K4. do 3 f_equal. lia.
    + rewrite K5. split; intros _; [right; exists p; split; [lia|by exists a]|by left].
  - pose proof (hole_step p last ltac:(lia) Hl E) as (N1 & N2 & N3). set (next := match nova_find_next_entry t p with Some _ => _ | None => _ end) in *.
    destruct (hole_loop_rest fuel last next b df) as (df' & E' & Hd); try lia. exists p, df'.
    rewrite (proj2 (Z.leb_le p last)), Z.sub_diag, Z.add_0_r by lia. split; [lia|]. split; [intros; lia|]. split; [done|]. split; [done|].
    by rewrite Hd, (some_data_skip p next) by (done || lia).
Qed.
End search.

(** ** Positions *)

Section seek.
Context `{RbTree} (smp : Z) (generic_file_llseek : vfs_inode -> file -> Z -> Z -> Z * file).
Context (sbi : nova_sb_info) (mon : monitor) (sih : nova_inode_info_header) (inode : vfs_inode) (pi : Z).
Context (Hfind : nova_get_inode smp sbi (i_ino inode) (sih_pi_addr sih) = Some (inr pi, sbi)).
Context (Htype : Pi.i_blk_type (nvm sbi) pi = NOVA_BLOCK_TYPE_4K).
#[local] Abbreviation w := (World sbi mon sih).
#[local] Abbreviation region := (nova_find_region smp inode).
#[local] Abbreviation llseek := (nova_llseek smp generic_file_llseek inode).

(** Whether the byte at [x] is in a block of the file. *)
Definition in_data (x : Z) : Prop := is_Some (tree sih !! (x / 4096)).

Lemma own_inode_run : own_inode smp inode w = Some (pi, w).
Proof.
  unfold own_inode, Attr.find_inode. rewrite fs_assoc. frun. erewrite fs_step; [|apply on_sbi_run; exact Hfind]. done.
Qed.

Lemma region_run offset hole : 0 <= offset < vfs_size inode -> vfs_size inode < 2 ^ 42 -> vfs_blocks inode <> 0 -> sih_size sih <> 0 ->
  region offset hole w =
  match nova_lookup_hole_in_range (nvm sbi) (tree sih) (offset / 4096) (vfs_size inode / 4096) hole with
  | None => None
  | Some (blocks, data_found, hole_found) =>
    let blocks := u64 blocks in
    Some (if negb hole && negb data_found && hole_found then (u64 (- ENXIO), offset)
          else if data_found && negb hole_found then (0, if hole then vfs_size inode else offset)
          else if hole && hole_found && (blocks =? 0) then (0, if negb data_found then vfs_size inode else offset)
          else if negb (offset mod 4096 =? 0)
          then (0, i64 (offset + (u64 ((blocks ⊟ 1) * 4096) + (4096 - offset mod 4096))))
          else (0, i64 (offset + u64 (blocks * 4096))), w)
  end.
Proof.
  intros Ho Hs Hb Hi. unfold nova_find_region. fstep own_inode_run. frun. rewrite Htype.
  erewrite fs_step by reflexivity. rewrite (proj2 (Z.leb_gt _ _)) by lia. rewrite (proj2 (Z.eqb_neq _ 0) Hb), (proj2 (Z.eqb_neq _ 0) Hi).
  cbn [orb]. change (Z.shiftl 1 12 - 1) with (Z.ones 12). change (Z.shiftl 1 12) with 4096.
  rewrite Z.land_ones, !Z.shiftr_div_pow2 by lia. change (2 ^ 12) with 4096.
  rewrite (u64_small (offset mod 4096)), (u64_small (offset / 4096)), (u64_small (vfs_size inode / 4096)) by mlia.
  destruct (nova_lookup_hole_in_range _ _ _ _ _) as [[[blocks df] hf]|]; [|done]. erewrite fs_step by reflexivity.
  cbv beta iota zeta. rewrite !Z.shiftl_mul_pow2 by lia. change (2 ^ 12) with 4096.
  repeat (match goal with |- context [if ?b then _ else _] => destruct b; try done end).
Qed.

(** The pages of a position. *)
Lemma round_up offset k : 0 <= offset -> offset / 4096 < k -> k < 2 ^ 31 ->
  (if negb (offset mod 4096 =? 0)
   then (0, i64 (offset + (u64 ((u64 (k - offset / 4096) ⊟ 1) * 4096) + (4096 - offset mod 4096))))
   else (0, i64 (offset + u64 (u64 (k - offset / 4096) * 4096)))) = (0, 4096 * k).
Proof.
  intros Ho Hk Hl. rewrite (u64_small (k - offset / 4096)) by mlia.
  destruct (Z.eqb_spec (offset mod 4096) 0); cbn [negb]; f_equal.
  - rewrite u64_small by mlia. rewrite i64_small; mlia.
  - rewrite (u64_small (k - offset / 4096 - 1)) by mlia. rewrite u64_small by mlia. rewrite i64_small; mlia.
Qed.

(** A position that the search found becomes that of the file. *)
Lemma llseek_found offset hole x f : region offset hole w = Some ((0, x), w) -> 0 <= x < 2 ^ 62 ->
  exists f', llseek f offset (if hole then SEEK_HOLE else SEEK_DATA) w = Some ((x, f'), w) /\ f_pos f' = x.
Proof.
  intros E Hx. unfold nova_llseek.
  replace ((if hole then SEEK_HOLE else SEEK_DATA) =? SEEK_HOLE) with hole by (by destruct hole). replace (negb _ && negb hole) with false by (by destruct hole). fstep E.
  change (i32 0) with 0. cbn [negb Z.eqb]. rewrite (proj2 (Z.ltb_ge x 0)) by lia. change nova_max_size with (2 ^ 63 - 1).
  rewrite (proj2 (Z.ltb_ge _ x)) by lia. cbn [andb orb]. eexists. split; [done|]. by destruct (Z.eqb_spec x (f_pos f)).
Qed.

(** One that failed does not. *)
Lemma llseek_failed offset hole r f : region offset hole w = Some ((r, offset), w) -> i32 r <> 0 ->
  llseek f offset (if hole then SEEK_HOLE else SEEK_DATA) w = Some ((i32 r, f), w).
Proof.
  intros E Hr. unfold nova_llseek.
  replace ((if hole then SEEK_HOLE else SEEK_DATA) =? SEEK_HOLE) with hole by (by destruct hole). replace (negb _ && negb hole) with false by (by destruct hole). fstep E.
  rewrite (proj2 (Z.eqb_neq _ 0) Hr). done.
Qed.

Context (Hcov : covering (nvm sbi) (tree sih)).
Context (Hend : forall p a, tree sih !! p = Some a -> 4096 * p < vfs_size inode).
Context (Hsize : vfs_size inode < 2 ^ 42) (Hblocks : vfs_blocks inode <> 0) (Hisize : sih_size sih <> 0).

Lemma seek_data_run offset f : 0 <= offset < vfs_size inode ->
  exists r f', llseek f offset SEEK_DATA w = Some ((r, f'), w) /\
    (r = - ENXIO /\ f' = f /\ (forall x, offset <= x < vfs_size inode -> ~ in_data x) \/
     offset <= r < vfs_size inode /\ f_pos f' = r /\ in_data r /\ (forall x, offset <= x < r -> ~ in_data x)).
Proof.
  intros Ho. pose proof (region_run offset false Ho Hsize Hblocks Hisize) as E. unfold nova_lookup_hole_in_range in E.
  set (last := vfs_size inode / 4096) in *.
  destruct (data_loop_ok _ _ Hcov (Z.to_nat (last + 1 - offset / 4096)) last (offset / 4096) 0 false false) as (k & K1 & K2 & K3 & K4);
    [unfold last in *; mlia..|]. rewrite K4 in E. cbn [mbind option_bind negb andb orb] in E. rewrite Z.add_0_l, i32_small in E by (unfold last in *; mlia).
  assert (forall x, offset <= x < 4096 * k -> ~ in_data x) as Hno.
  { intros x Hx [a Ha]. rewrite K2 in Ha by mlia. done. }
  destruct (Z.leb_spec k last) as [Hk|Hk]; cbn [negb andb] in E.
  - destruct (K3 Hk) as [a Ha]. pose proof (Hend k a Ha). destruct (Z.ltb_spec (offset / 4096) k) as [Hlt|Hge]; cbn [negb andb] in E.
    + cbv zeta in E. rewrite round_up in E by (unfold last in *; mlia). destruct (llseek_found offset false (4096 * k) f E) as (f' & Ef & Hf'); [mlia|].
      exists (4096 * k), f'. split; [done|]. right. split; [mlia|]. split; [done|]. split; [|done]. exists a. by replace (4096 * k / 4096) with k by mlia.
    + assert (k = offset / 4096) as -> by lia. destruct (llseek_found offset false offset f E) as (f' & Ef & Hf'); [lia|].
      exists offset, f'. split; [done|]. right. split; [lia|]. split; [done|]. split; [by exists a|]. intros; lia.
  - rewrite (proj2 (Z.ltb_lt _ k)) in E by (unfold last in *; mlia). exists (- ENXIO), f.
    split; [by apply (llseek_failed offset false (u64 (- ENXIO)) f E)|]. left. split; [done|]. split; [done|].
    intros x Hx. apply Hno. unfold last in *. mlia.
Qed.

Lemma seek_hole_run offset f : 0 <= offset < vfs_size inode ->
  exists r f', llseek f offset SEEK_HOLE w = Some ((r, f'), w) /\ offset <= r <= vfs_size inode /\ f_pos f' = r /\
    ((r < vfs_size inode -> ~ in_data r) /\ (forall x, offset <= x < r -> in_data x) \/
     r = vfs_size inode /\ (forall x, offset <= x < vfs_size inode -> ~ in_data x)).
Proof.
  intros Ho. pose proof (region_run offset true Ho Hsize Hblocks Hisize) as E. unfold nova_lookup_hole_in_range in E.
  set (last := vfs_size inode / 4096) in *.
  destruct (hole_loop_ok _ _ Hcov (Z.to_nat (last + 1 - offset / 4096)) last (offset / 4096) 0 false) as (k & df & K1 & K2 & K3 & K4 & K5);
    [unfold last in *; mlia..|]. rewrite K4 in E. cbn [mbind option_bind negb andb orb] in E. rewrite Z.add_0_l, i32_small in E by (unfold last in *; mlia).
  assert (forall x, offset <= x < 4096 * k -> in_data x) as Hall by (intros x Hx; apply K2; mlia).
  assert (offset / 4096 < k -> df = true) as Hdf.
  { intros Hk. apply K5. right. exists (offset / 4096). split; [unfold last; mlia|apply K2; lia]. }
  destruct (Z.leb_spec k last) as [Hk|Hk]; cbn [negb andb] in E; rewrite ?andb_false_r, ?andb_true_r in E; cbv zeta in E.
  - destruct (Z.eqb_spec (u64 (k - offset / 4096)) 0) as [H0|H0]; rewrite u64_small in H0 by (unfold last in *; mlia).
    + assert (k = offset / 4096) as -> by lia. destruct df; cbn [negb] in E.
      * destruct (llseek_found offset true offset f E) as (f' & Ef & Hf'); [lia|]. exists offset, f'. split; [done|]. split; [lia|]. split; [done|].
        left. split; [|intros; lia]. intros _ [a Ha]. rewrite K3 in Ha by done. done.
      * destruct (llseek_found offset true _ f E) as (f' & Ef & Hf'); [lia|]. exists (vfs_size inode), f'. split; [done|]. split; [lia|]. split; [done|].
        right. split; [done|]. intros x Hx Hd. assert (false = true) by (apply K5; right; exists (x / 4096); split; [unfold last; mlia|done]). done.
    + rewrite round_up in E by (unfold last in *; mlia). destruct (llseek_found offset true (4096 * k) f E) as (f' & Ef & Hf'); [unfold last in *; mlia|].
      exists (4096 * k), f'. split; [done|]. split; [unfold last in *; mlia|]. split; [done|]. left. split; [|done].
      intros _ [a Ha]. replace (4096 * k / 4096) with k in Ha by mlia. rewrite K3 in Ha by done. done.
  - rewrite Hdf in E by (unfold last in *; mlia). cbn [andb] in E. destruct (llseek_found offset true _ f E) as (f' & Ef & Hf'); [lia|].
    exists (vfs_size inode), f'. split; [done|]. split; [lia|]. split; [done|]. left. split; [lia|]. intros x Hx. apply Hall. unfold last in *. mlia.
Qed.

(** C37: Searching data and holes.  In a file whose pages lie below its end, [lseek] for data
    from an offset in the file goes to the first position from there on that has a block, or
    returns [-ENXIO] when there is none; for a hole it goes to the first position without one,
    or to the end of the file when there is none; but from an offset in the last hole it goes
    to the end of the file as well, not to the offset.  The file is not empty, its size is
    below 2^42 and it has blocks ([vfs_blocks]): for one without, the size is taken for an error
    code (inode.c:2674, see [seek_hole_empty]). *)
Theorem seek_exact offset f : 0 <= offset < vfs_size inode ->
  (exists r f', llseek f offset SEEK_DATA w = Some ((r, f'), w) /\
    (r = - ENXIO /\ f' = f /\ (forall x, offset <= x < vfs_size inode -> ~ in_data x) \/
     offset <= r < vfs_size inode /\ f_pos f' = r /\ in_data r /\ (forall x, offset <= x < r -> ~ in_data x))) /\
  (exists r f', llseek f offset SEEK_HOLE w = Some ((r, f'), w) /\ offset <= r <= vfs_size inode /\ f_pos f' = r /\
    ((r < vfs_size inode -> ~ in_data r) /\ (forall x, offset <= x < r -> in_data x) \/
     r = vfs_size inode /\ (forall x, offset <= x < vfs_size inode -> ~ in_data x))).
Proof. intros Ho. split; [by apply seek_data_run|by apply seek_hole_run]. Qed.
End seek.

Section empty.
Context `{RbTree} (smp : Z) (generic_file_llseek : vfs_inode -> file -> Z -> Z -> Z * file).

(** Searching a hole in a file without blocks.  The size of the file is taken for an error
    code: unless its low 32 bits are 0, [lseek] returns them as a signed number and does not
    move the position. *)
Theorem seek_hole_empty sbi mon sih inode pi offset f :
  nova_get_inode smp sbi (i_ino inode) (sih_pi_addr sih) = Some (inr pi, sbi) -> Pi.i_blk_type (nvm sbi) pi = NOVA_BLOCK_TYPE_4K ->
  0 <= offset < vfs_size inode -> vfs_size inode < 2 ^ 63 -> vfs_blocks inode = 0 -> i32 (vfs_size inode) <> 0 ->
  nova_llseek smp generic_file_llseek inode f offset SEEK_HOLE (World sbi mon sih) = Some ((i32 (vfs_size inode), f), World sbi mon sih).
Proof.
  intros Hfind Htype Ho Hs Hb Hi. pose proof (llseek_failed smp generic_file_llseek sbi mon sih inode offset true (u64 (vfs_size inode)) f) as Hf.
  rewrite u64_small in Hf by lia. apply Hf; [|done]. unfold nova_find_region. fstep (own_inode_run smp sbi mon sih inode pi Hfind). frun.
  rewrite Htype. erewrite fs_step by reflexivity. rewrite (proj2 (Z.leb_gt _ _)) by lia. rewrite Hb. cbn [orb Z.eqb]. rewrite u64_small by lia. done.
Qed.
End empty.

(** ** Writing back *)

Section sync.
Context `{RbTree} (smp : Z).
Context (sbi : nova_sb_info) (mon : monitor) (sih : nova_inode_info_header).
#[local] Abbreviation w := (World sbi mon sih).
#[local] Abbreviation t := (tree sih).

(** The address of byte [x] of the file. *)
Definition byte_addr (x : Z) : option Z :=
  a ← t !! (x / 4096); Some (block_addr sbi (entry_block (nvm sbi) a (x / 4096)) + x mod 4096).

(** The pages of an entry before one that is in the tree are in the tree. *)
Definition no_gaps : Prop :=
  forall p a, t !! p = Some a -> forall q, We.pgoff (nvm sbi) a <= q <= p -> is_Some (t !! q).


(** So the first entry behind a hole begins behind it. *)
Lemma next_entry_start p q a : covering (nvm sbi) t -> no_gaps -> t !! p = None -> radix_tree_next t p = Some (q, a) ->
  We.pgoff (nvm sbi) a = q /\ p < q /\ t !! q = Some a /\ (forall j, p <= j < q -> t !! j = None).
Proof.
  intros Hc Hg Hp Eq. destruct (radix_tree_next_some _ _ _ _ Eq) as (E1 & E2 & E3). destruct (Hc q a E1) as (C1 & C2 & C3).
  assert (p < q) as Hlt by (destruct (Z.eq_dec q p); [congruence|lia]). split; [|done].
  destruct (Z.eq_dec (We.pgoff (nvm sbi) a) q) as [|Hne]; [done|]. exfalso.
  destruct (Hg q a E1 (Z.max p (We.pgoff (nvm sbi) a))) as [b Hb]; [lia|]. rewrite E3 in Hb by lia. done.
Qed.

Context (isize : Z) (Hsize : 0 <= isize < 2 ^ 61) (Hend : forall p a, t !! p = Some a -> 4096 * p < isize).
Context (Hread : readable sbi t) (Hgaps : no_gaps) (Hnb : num_blocks sbi < 2147483648).

(** The bytes of a mapped page, and those behind it when the entry is whole. *)
Lemma entry_bytes p a x : t !! p = Some a -> 0 <= p ->
  4096 * p <= x < 4096 * p + (if We.invalid_pages (nvm sbi) a =? 0
     then (We.num_pages (nvm sbi) a - (p - We.pgoff (nvm sbi) a)) * 4096 else 4096) ->
  byte_addr x = Some (block_addr sbi (entry_block (nvm sbi) a p) + (x - 4096 * p)).
Proof.
  intros Ha Hp Hx. destruct Hread as [Hm Hc Hb Hw]. destruct (Hc p a Ha) as (C1 & C2 & C3).
  assert (t !! (x / 4096) = Some a) as E.
  { destruct (Z.eqb_spec (We.invalid_pages (nvm sbi) a) 0) as [H0|]; [apply (Hw p a Ha H0); mlia|].
    by replace (x / 4096) with p by mlia. }
  unfold byte_addr. rewrite E. cbn [mbind option_bind]. f_equal. unfold block_addr, entry_block. mlia.
Qed.

(** A turn that found a page of the file. *)
Lemma fsync_found p a s0 stop : t !! p = Some a -> p = s0 / 4096 -> 0 <= s0 < stop -> stop < 2 ^ 62 ->
  let avail := if We.invalid_pages (nvm sbi) a =? 0
               then u64 ((We.num_pages (nvm sbi) a - (p - We.pgoff (nvm sbi) a)) * PAGE_SIZE - s0 mod 4096) else u64 (PAGE_SIZE - s0 mod 4096) in
  let n := if avail <? u64 (stop - s0) then avail else u64 (stop - s0) in
  (p <? We.pgoff (nvm sbi) a) || (We.num_pages (nvm sbi) a <=? p ⊟ We.pgoff (nvm sbi) a) = false /\
  get_nvmm smp a p w = Some (entry_block (nvm sbi) a p, w) /\
  get_block (u64 (Z.shiftl (entry_block (nvm sbi) a p) PAGE_SHIFT)) w = Some (block_addr sbi (entry_block (nvm sbi) a p), w) /\
  0 < n <= stop - s0 /\ i64 (s0 + n) = s0 + n /\
  (forall x, s0 <= x < s0 + n -> byte_addr x = Some (block_addr sbi (entry_block (nvm sbi) a p) + s0 mod 4096 + (x - s0))).
Proof.
  intros Ha Hp Hs Hst avail n. destruct Hread as [Hm Hc Hb Hw]. destruct (Hc p a Ha) as (C1 & C2 & C3). pose proof (Hb p a Ha) as Hblk.
  pose proof (load_range 4 (nvm sbi) (a + 16)) as Hnp. change (load 4 _ (a + 16)) with (We.num_pages (nvm sbi) a) in Hnp.
  change (256 ^ Z.of_nat 4) with 4294967296 in Hnp.
  rewrite (proj2 (Z.ltb_ge p _)), (u64_small (p - _)), (proj2 (Z.leb_gt _ _)) by lia. split; [done|].
  split; [apply get_nvmm_run; (done || lia)|]. split.
  { destruct (block_position sbi _ Hm Hblk) as (-> & Hne & Eb). unfold get_block. cbn [w_sbi]. by rewrite (proj2 (Z.eqb_neq _ 0) Hne), Eb. }
  pose proof (entry_bytes p a) as Hby.
  assert (0 < n <= stop - s0 /\ n <= (if We.invalid_pages (nvm sbi) a =? 0
     then (We.num_pages (nvm sbi) a - (p - We.pgoff (nvm sbi) a)) * 4096 else 4096) - s0 mod 4096) as [H1 H2].
  { unfold n, avail, PAGE_SIZE in *. rewrite (u64_small (stop - s0)) by lia.
    destruct (We.invalid_pages (nvm sbi) a =? 0); rewrite u64_small by mlia;
      match goal with |- context [?x <? ?y] => destruct (Z.ltb_spec x y) end; mlia. }
  split; [done|]. split; [apply i64_small; lia|]. intros x Hx. rewrite (Hby x Ha) by mlia. f_equal. mlia.
Qed.

(** One turn: either no byte up to [stop] has a block, or those before [s0] have none and
    those from [s0] to [start'] are flushed. *)
Lemma fsync_turn_ok start stop : 0 <= start < stop -> stop < 2 ^ 62 ->
  (fsync_turn smp start stop w = Some (inl 0, w) /\ (forall x, start <= x < stop -> byte_addr x = None)) \/
  (exists s0 start' addr, fsync_turn smp start stop w = Some (inr (start', addr, start' - s0), w) /\
    start <= s0 < start' /\ start' <= stop /\ (forall x, start <= x < s0 -> byte_addr x = None) /\
    (forall x, s0 <= x < start' -> byte_addr x = Some (addr + (x - s0)))).
Proof.
  intros Hs Hst. assert (u64 (Z.shiftr start PAGE_SHIFT) = start / 4096 /\ Z.land start 4095 = start mod 4096) as [Hpg Hof].
  { unfold PAGE_SHIFT. rewrite Z.shiftr_div_pow2 by lia. change 4095 with (Z.ones 12). rewrite Z.land_ones by lia. change (2 ^ 12) with 4096.
    rewrite (u64_small (start / 4096)) by mlia. done. }
  unfold fsync_turn, nova_get_write_entry. cbv zeta. rewrite Hpg, Hof. frun. destruct (t !! (start / 4096)) as [a|] eqn:Ea.
  { right. destruct (fsync_found _ a start stop Ea eq_refl Hs Hst) as (G1 & G2 & G3 & G4 & G5 & G6). cbv beta iota zeta in *.
    set (n := if _ <? u64 (stop - start) then _ else _) in *. rewrite G1. fstep G2. fstep G3. rewrite G5. eexists start, (start + n), _.
    replace (start + n - start) with n by lia. split; [done|]. split; [lia|]. split; [lia|]. split; [intros; lia|done]. }
  unfold nova_find_next_entry. destruct (radix_tree_next t (start / 4096)) as [[q a]|] eqn:Eq; cbn [fmap option_fmap option_map snd].
  2:{ left. split; [done|]. intros x Hx. unfold byte_addr. by rewrite (radix_tree_next_none _ _ Eq) by mlia. }
  destruct (next_entry_start _ _ _ (rd_cover _ _ Hread) Hgaps Ea Eq) as (Hpq & Hlt0 & E1 & E3). assert (0 <= start / 4096) by mlia.
  rewrite Hpq. assert (forall x, start <= x < Z.min stop (4096 * q) -> byte_addr x = None) as Hno
    by (intros x Hx; unfold byte_addr; by rewrite E3 by mlia).
  pose proof (Hend q a E1). rewrite Z.shiftl_mul_pow2 by (unfold PAGE_SHIFT; lia). change (2 ^ PAGE_SHIFT) with 4096. rewrite (Z.mul_comm q), i64_small by lia.
  destruct (Z.leb_spec stop (4096 * q)) as [Hge|Hlt]; [left; split; [done|]; intros x Hx; apply Hno; lia|right].
  assert (q = 4096 * q / 4096 /\ 4096 * q mod 4096 = 0) as [Hq1 Hq2] by mlia.
  destruct (fsync_found q a (4096 * q) stop E1 Hq1 ltac:(lia) Hst) as (G1 & G2 & G3 & G4 & G5 & G6). cbv beta iota zeta in *. rewrite Hq2, Hpq in *.
  set (n := if _ <? u64 (stop - 4096 * q) then _ else _) in *. rewrite G1. fstep G2. fstep G3. rewrite G5. eexists (4096 * q), (4096 * q + n), _.
  replace (4096 * q + n - 4096 * q) with n by lia. split; [done|]. split; [mlia|]. split; [lia|]. split; [intros x Hx; apply Hno; lia|done].
Qed.

(** A range is flushed that holds the address [y]. *)
Definition flushes (l : list (Z * Z)) (y : Z) : Prop := exists r, r ∈ l /\ fst r <= y < fst r + snd r.

Lemma flushes_app l l' y : flushes (l ++ l') y <-> flushes l y \/ flushes l' y.
Proof. unfold flushes. setoid_rewrite elem_of_app. naive_solver. Qed.

Lemma flushes_one a n y : flushes [(a, n)] y <-> a <= y < a + n.
Proof. unfold flushes. setoid_rewrite list_elem_of_singleton. naive_solver. Qed.

Lemma fsync_loop_ok fuel : forall start stop l, 0 <= start < stop -> stop < 2 ^ 62 -> stop - start <= Z.of_nat fuel ->
  exists l', fsync_loop smp fuel start stop l w = Some ((0, l'), w) /\
    (forall y, flushes l' y <-> flushes l y \/ exists x, start <= x < stop /\ byte_addr x = Some y).
Proof.
  induction fuel as [|fuel IH]; intros start stop l Hs Hst Hf; [lia|]. cbn [fsync_loop].
  destruct (fsync_turn_ok start stop Hs Hst) as [[E Hn]|(s0 & start' & addr & E & H1 & H2 & H3 & H4)]; fstep E.
  { exists l. split; [done|]. intros y. split; [by left|]. intros [?|(x & Hx & Ex)]; [done|]. by rewrite Hn in Ex. }
  rewrite (proj2 (Z.eqb_neq _ 0)) by lia. cbn [negb].
  assert (forall y, flushes (l ++ [(addr, start' - s0)]) y <-> flushes l y \/ exists x, start <= x < start' /\ byte_addr x = Some y) as Hl.
  { intros y. rewrite flushes_app, flushes_one. apply or_iff_compat_l. split.
    - intros Hy. exists (y - addr + s0). split; [lia|]. rewrite H4 by lia. f_equal. lia.
    - intros (x & Hx & Ex). destruct (Z.lt_ge_cases x s0); [by rewrite H3 in Ex by lia|]. rewrite H4 in Ex by lia. injection Ex as <-. lia. }
  destruct (Z.ltb_spec start' stop) as [Hlt|Hge].
  - destruct (IH start' stop (l ++ [(addr, start' - s0)])) as (l' & E' & Hl'); [lia..|]. exists l'. split; [done|].
    intros y. rewrite Hl', Hl. split.
    + intros [[?|(x & Hx & Ex)]|(x & Hx & Ex)]; [by left|right; exists x; split; [lia|done]..].
    + intros [?|(x & Hx & Ex)]; [by do 2 left|]. destruct (Z.lt_ge_cases x start'); [left; right|right]; exists x; (split; [lia|done]).
  - exists (l ++ [(addr, start' - s0)]). split; [done|]. assert (start' = stop) as -> by lia. done.
Qed.

(** C38: [fsync] of a mapped file returns 0 after flushing exactly the bytes of the blocks of
    the file between the two ends of the range, rounded to whole cache lines, and the loop ends;
    a range without a byte of the file is refused with [-ENODATA]. *)
Theorem fsync_exact inode start stop : vfs_size inode = isize -> 0 <= start -> 0 <= stop < 2 ^ 63 ->
  let last := Z.min (stop + 1) isize in
  (last <= start -> nova_fsync smp true inode start stop w = Some ((- ENODATA, []), w)) /\
  (start < last -> exists l, nova_fsync smp true inode start stop w = Some ((0, l), w) /\
    (forall y, flushes l y <-> exists x, start / 64 * 64 <= x < (last + 63) / 64 * 64 /\ byte_addr x = Some y)).
Proof.
  intros Hi H0 H1 last. unfold nova_fsync. cbn [negb]. rewrite Hi.
  set (stop' := if u64 isize <? _ then _ else _). assert (stop' = last) as ->.
  { unfold stop', last. rewrite (u64_small isize) by lia. destruct (Z.eq_dec stop (2 ^ 63 - 1)) as [->|].
    - change (u64 (i64 (2 ^ 63 - 1 + 1))) with (2 ^ 63). rewrite (proj2 (Z.ltb_lt _ _)) by lia. lia.
    - rewrite i64_small, u64_small by lia. destruct (Z.ltb_spec isize (stop + 1)); lia. }
  split.
  - intros Hl. rewrite (proj2 (Z.leb_le _ _) Hl), orb_true_r. done.
  - intros Hl. rewrite (proj2 (Z.leb_gt _ _) Hl), (proj2 (Z.eqb_neq _ _)) by lia. cbn [orb].
    assert (forall x, Z.land x CACHELINE_MASK = x / 64 * 64) as Hmask.
    { intros x. unfold CACHELINE_MASK. change (CACHELINE_SIZE - 1) with (Z.ones 6). rewrite <- Z.ldiff_land, Z.ldiff_ones_r by lia.
      rewrite Z.shiftl_mul_pow2, Z.shiftr_div_pow2 by lia. done. }
    unfold CACHELINE_ALIGN. rewrite !Hmask. replace (last + CACHELINE_SIZE - 1) with (last + 63) by (unfold CACHELINE_SIZE; lia).
    destruct (fsync_loop_ok (Z.to_nat ((last + 63) / 64 * 64 - start / 64 * 64)) (start / 64 * 64) ((last + 63) / 64 * 64) []) as (l & E & Hfl);
      [unfold last in *; mlia..|]. exists l. split; [done|]. intros y. rewrite Hfl. split; [|by right].
    intros [(r & Hr & _)|?]; [by apply not_elem_of_nil in Hr|done].
Qed.
End sync.

(** ** Examples *)

Module SeekDemo.
Import RbList.RbList InodeTable.TableDemo FastGc.GcDemo Truncate.TruncateDemo FileWrite.WriteDemo.

#[local] Abbreviation sk_llseek := (nova_llseek 0 (fun _ f _ _ => (0, f))).
Definition sk_file : file := File 0 0 false.

Lemma sk_find sih : nova_get_inode 0 wr_sbi 40 (sih_pi_addr sih) = Some (inr gc_pi, wr_sbi).
Proof.
  destruct wr_env as (F & P & W). destruct wr_fields as (_ & _ & _ & _ & _ & _ & F7).
  exact (FileWrite.find_inode 0 wr_sbi F P gc_pi cut_tree (fun b => b = 5) W sih 40 (eq_sym F7)).
Qed.

Lemma sk_type : Pi.i_blk_type (nvm wr_sbi) gc_pi = NOVA_BLOCK_TYPE_4K.
Proof. apply wr_fields. Qed.

Lemma sk_cover t : (forall p a, t !! p = Some a -> a = cut_entry /\ 0 <= p < 3) -> covering (nvm wr_sbi) t.
Proof. destruct wr_fields as (F1 & F2 & _). intros Ht p a Ha. destruct (Ht p a Ha) as [-> Hp]. rewrite F1, F2. lia. Qed.

Definition sk_sih0 : nova_inode_info_header := with_sih_size 12288 cut_sih.

(** Pages 0 and 2 of the file have blocks: data behind 5000 begins at 8192, the hole behind 100 at 4096. *)
Lemma seek_exact_witness (w := World wr_sbi initial_monitor sk_sih0) :
  (exists f', sk_llseek wr_inode sk_file 5000 SEEK_DATA w = Some ((8192, f'), w) /\ f_pos f' = 8192) /\
  (exists f', sk_llseek wr_inode sk_file 100 SEEK_HOLE w = Some ((4096, f'), w) /\ f_pos f' = 4096).
Proof.
  assert (forall p a, tree sk_sih0 !! p = Some a -> a = cut_entry /\ 0 <= p < 3) as Ht
    by (intros p a [-> Hp]%cut_tree_lookup; split; [reflexivity|lia]).
  pose proof (seek_exact 0 (fun _ f _ _ => (0, f)) wr_sbi initial_monitor sk_sih0 wr_inode gc_pi (sk_find sk_sih0) sk_type (sk_cover _ Ht)) as Hs.
  assert (forall p a, tree sk_sih0 !! p = Some a -> 4096 * p < vfs_size wr_inode) as He by (intros p a Ha; destruct (Ht p a Ha); simpl; lia).
  specialize (Hs He eq_refl ltac:(vm_compute; discriminate) ltac:(vm_compute; discriminate)).
  destruct (Hs 5000 sk_file ltac:(simpl; lia)) as [(r & f' & E & Hr) _]. destruct (Hs 100 sk_file ltac:(simpl; lia)) as [_ (r2 & f2 & E2 & _ & Hp2 & _)].
  assert (option_map (fun x => fst (fst x)) (sk_llseek wr_inode sk_file 5000 SEEK_DATA w) = Some 8192) as V1 by (vm_compute; reflexivity).
  assert (option_map (fun x => fst (fst x)) (sk_llseek wr_inode sk_file 100 SEEK_HOLE w) = Some 4096) as V2 by (vm_compute; reflexivity).
  unfold w in V1, V2. rewrite E in V1. rewrite E2 in V2. injection V1 as ->. injection V2 as ->. split.
  - exists f'. split; [exact E|]. destruct Hr as [[Hbad _]|(_ & Hp & _)]; [discriminate Hbad|exact Hp].
  - exists f2. split; [exact E2|exact Hp2].
Defined.

(** A file of 3 GB without a block. *)
Definition sk_sparse : vfs_inode := VfsInode 40 3221225472 0 0 1 0 0 (S_IFREG + 420) 0 0 0 0 0.

Lemma seek_hole_empty_witness (w := World wr_sbi initial_monitor cut_sih) :
  sk_llseek sk_sparse sk_file 0 SEEK_HOLE w = Some ((- 1073741824, sk_file), w).
Proof.
  apply (seek_hole_empty 0 (fun _ f _ _ => (0, f)) wr_sbi initial_monitor cut_sih sk_sparse gc_pi 0 sk_file (sk_find cut_sih) sk_type);
    vm_compute; (reflexivity || discriminate || (split; (reflexivity || discriminate))).
Defined.

(** The first two pages of an entry, in blocks 6 and 7. *)
Definition sk_tree : gmap Z Z := {[0 := cut_entry; 1 := cut_entry]}.
Definition sk_sih : nova_inode_info_header := with_tree sk_tree cut_sih.

Lemma sk_lookup p a : sk_tree !! p = Some a -> a = cut_entry /\ 0 <= p < 2.
Proof. unfold sk_tree. intros [[<- <-]|[_ [<- <-]%lookup_singleton_Some]]%lookup_insert_Some; split; (reflexivity || lia). Qed.

Lemma sk_readable : readable wr_sbi (tree sk_sih) /\ no_gaps wr_sbi sk_sih.
Proof.
  destruct wr_fields as (F1 & F2 & F3 & F4 & _). destruct wr_geometry as (Ev & En & _). split.
  - split.
    + split; rewrite ?Ev, ?En; lia.
    + apply sk_cover. intros p a Ha. destruct (sk_lookup p a Ha). split; [assumption|lia].
    + intros p a Ha. destruct (sk_lookup p a Ha) as [-> Hp]. unfold entry_block. rewrite F4, F1, En. lia.
    + intros p a Ha H0. destruct (sk_lookup p a Ha) as [-> Hp]. rewrite F3 in H0. discriminate H0.
  - intros p a Ha q Hq. destruct (sk_lookup p a Ha) as [-> Hp]. rewrite F1 in Hq. assert (q = 0 \/ q = 1) as [-> | ->] by lia; eexists; reflexivity.
Qed.

Definition sk_inode : vfs_inode := with_vfs_size 8000 wr_inode.

(** Bytes 100 to 4999 are flushed by whole cache lines. *)
Lemma fsync_exact_witness (w := World wr_sbi initial_monitor sk_sih) :
  exists l, nova_fsync 0 true sk_inode 100 4999 w = Some ((0, l), w) /\ flushes l (65536 + 4096 * 6 + 64) /\ flushes l (65536 + 4096 * 7 + 900).
Proof.
  destruct sk_readable as [Hr Hg]. destruct wr_geometry as (Ev & En & _).
  destruct (fsync_exact 0 wr_sbi initial_monitor sk_sih 8000 ltac:(lia)
    ltac:(intros p a Ha; destruct (sk_lookup p a Ha); lia) Hr Hg ltac:(rewrite En; lia) sk_inode 100 4999 eq_refl ltac:(lia) ltac:(lia)) as [_ Hx].
  destruct (Hx ltac:(reflexivity)) as (l & E & Hl). exists l. split; [exact E|]. split; apply Hl.
  - exists 64. split; [vm_compute; split; (reflexivity || discriminate)|vm_compute; reflexivity].
  - exists 4996. split; [vm_compute; split; (reflexivity || discriminate)|vm_compute; reflexivity].
Defined.
End SeekDemo.
