(* ===== verification/DaxMap.v ===== *)
(** * The blocks of a file for direct access (dax.c)

    [nova_dax_get_block] tells the kernel which blocks of the device hold pages of a file, for
    direct input and output.  A page in a hole gets zeroed blocks on demand. *)

From S2P Require Import Prelude Layout RangeTree RbList State Balloc BallocFacts BallocSpec.
From S2P Require Import BallocInit BallocTheorems TreeEdits InodeMap LogBlocks InodeTable.
From S2P Require Import Monitor Histogram HashTable Records KnapSack Detect WriteCount Migrate.
From S2P Require Import LogPages World InodeLog FastGc LogAppend BlockMap Shutdown Crawl FileTree Truncate.
From S2P Require Import WearBudget FileData FileWrite Attr Seek.
#[local] Open Scope word_scope.

(** [struct buffer_head]: the fields that the file system uses. *)
Record buffer_head := BufferHead { b_size : Z; b_blocknr : Z; b_mapped : bool; b_new : bool }.

(** include/linux/buffer_head.h *)
Definition clear_buffer_new (bh : buffer_head) : buffer_head := BufferHead (b_size bh) (b_blocknr bh) (b_mapped bh) false.
Definition map_bh (block : Z) (bh : buffer_head) : buffer_head := BufferHead s_blocksize block true (b_new bh).
Definition with_b_size (v : Z) (bh : buffer_head) : buffer_head := BufferHead v (b_blocknr bh) (b_mapped bh) (b_new bh).

Section operations.
Context `{RbTree} (slab_garbage : nova_range_node) (smp : Z) (jiffies_to_msecs : Z -> Z) (e : env).
Context (garbage : Z) (radix_nomem : Z -> bool) (nova_base_address : Z).

(** The end of [nova_dax_get_blocks]: the number of blocks and the buffer head. *)
Definition map_blocks (nvmm num_blocks : Z) (bh : buffer_head) : Z * buffer_head :=
  let bh := map_bh nvmm bh in
  (num_blocks, if 1 <? num_blocks then with_b_size (u64 (s_blocksize * num_blocks)) bh else bh).

(** A hole from page [iblock] on gets blocks: an error, or the first block and their number, and
    the inode.  An error gives the blocks taken back. *)
Definition fill_hole (inode : vfs_inode) (iblock max_blocks time : Z) : fs ((Z + Z * Z) * vfs_inode) :=
  pi ← own_inode smp inode;
  let inode := with_vfs_time time inode in
  sih ← get_sih;
  mem ← get_nvm;
  num_blocks ← (match nova_find_next_entry (tree sih) iblock with
                | None => mret (i32 max_blocks)
                | Some entry =>
                  let next_pgoff := We.pgoff mem entry in
                  if next_pgoff <=? iblock then fs_fault
                  else
                    let num_blocks := i32 (next_pgoff - iblock) in
                    mret (if max_blocks <? u64 num_blocks then i32 max_blocks else num_blocks)
                end);
  r ← on_sbi (fun sbi => nova_new_data_blocks sbi smp pi 0 (u32 num_blocks) 1);
  let '(allocated, blocknr) := (r : Z * Z) in
  let out ret nvmm num_blocks temp_tail :=
    if ret <? 0 then
      _ ← nova_cleanup_incomplete_write slab_garbage pi blocknr allocated 0 temp_tail;
      mret (inl ret, inode)
    else mret (inr (nvmm, num_blocks), inode) in
  if allocated <=? 0 then out allocated 0 num_blocks 0
  else
    let num_blocks := allocated in
    mem ← get_nvm;
    let block := nova_get_block_off blocknr in
    let entry_data := WriteEntry (block - block mod 256 + FILE_WRITE) iblock (u32 num_blocks) 0 (u32 time) garbage
                        (u64 (vfs_size inode)) in
    curr_entry ← nova_append_file_write_entry slab_garbage smp jiffies_to_msecs e garbage pi entry_data (Pi.log_tail mem pi);
    if curr_entry =? 0 then out (- ENOSPC) 0 num_blocks 0
    else
      mem ← get_nvm;
      data_bits ← fs_deref (blk_type_to_shift (Pi.i_blk_type mem pi));
      _ ← put_nvm (fun mem => Pi.set_i_blocks mem pi
                     (Pi.i_blocks mem pi ⊞ Z.shiftl num_blocks (data_bits - s_blocksize_bits)));
      let temp_tail := curr_entry ⊞ We.length in
      _ ← nova_update_tail_wwb smp e nova_base_address pi temp_tail;
      ret ← nova_reassign_file_tree slab_garbage smp jiffies_to_msecs e garbage radix_nomem pi curr_entry;
      if negb (ret =? 0) then out ret blocknr num_blocks temp_tail
      else
        mem ← get_nvm;
        mret (inr (blocknr, num_blocks), with_vfs_blocks (Pi.i_blocks mem pi) inode).

(** [nova_dax_get_blocks]: the result, the inode and the buffer head. *)
Definition nova_dax_get_blocks (inode : vfs_inode) (iblock max_blocks : Z) (bh : buffer_head) (create : bool) (time : Z) :
    fs (Z * vfs_inode * buffer_head) :=
  if max_blocks =? 0 then mret (0, inode, bh)
  else
    entry ← nova_get_write_entry iblock;
    mem ← get_nvm;
    match entry with
    | Some entry =>
      let num_blocks := if We.invalid_pages mem entry =? 0
                        then i32 (We.num_pages mem entry - (iblock - We.pgoff mem entry)) else 1 in
      let num_blocks := if max_blocks <? u64 num_blocks then i32 max_blocks else num_blocks in
      nvmm ← get_nvmm smp entry iblock;
      let '(ret, bh) := map_blocks nvmm num_blocks (clear_buffer_new bh) in
      mret (ret, inode, bh)
    | None =>
      if negb create then mret (0, inode, bh)
      else
        r ← fill_hole inode iblock max_blocks time;
        match (r : (Z + Z * Z) * vfs_inode) with
        | (inl ret, inode) => mret (ret, inode, bh)
        | (inr (nvmm, num_blocks), inode) =>
          let '(ret, bh) := map_blocks nvmm num_blocks bh in
          mret (ret, inode, bh)
        end
    end.

(** [nova_dax_get_block]; [i_blkbits] is that of the file system. *)
Definition nova_dax_get_block (inode : vfs_inode) (iblock : Z) (bh : buffer_head) (create : bool) (time : Z) :
    fs (Z * vfs_inode * buffer_head) :=
  let max_blocks := Z.shiftr (b_size bh) s_blocksize_bits in
  r ← nova_dax_get_blocks inode iblock max_blocks bh create time;
  let '(ret, inode, bh) := (r : Z * vfs_inode * buffer_head) in
  if 0 <? ret then mret (0, inode, with_b_size (u64 (i32 (Z.shiftl ret s_blocksize_bits))) bh) else mret (ret, inode, bh).
End operations.

(** ** What is mapped *)

Section theorems.
Context `{RbTree} {L : LogBlocks} (slab_garbage : nova_range_node) (smp : Z) (jiffies_to_msecs : Z -> Z) (e : env).
Context (garbage : Z) (radix_nomem : Z -> bool) (nova_base_address : Z).
Context (sbi0 : nova_sb_info) (F0 : Z -> Prop) (P : Z -> list Z) (pi : Z) (t0 : gmap Z Z) (logb : Z -> Prop).
#[local] Abbreviation va := (virt_addr sbi0).
#[local] Abbreviation m0 := (nvm sbi0).
#[local] Abbreviation blk b := (block_addr sbi0 b).
Hypothesis wenv : write_env smp sbi0 F0 P pi t0 logb.
Context (tail0 limit : Z).
Hypothesis tok : tail_ok sbi0 t0 logb tail0 limit.
Hypothesis Hroom : tail0 + 40 <= limit.
Hypothesis Htail : Pi.log_tail m0 pi = tail0.
Hypothesis pid_nonneg : 0 <= current_pid e.
Hypothesis radix_serves : forall i, radix_nomem i = false.
Hypothesis Hread : readable sbi0 t0.
Hypothesis Hpages : forall q a, t0 !! q = Some a -> q < 2 ^ 31.
Context (mon : monitor) (sih : nova_inode_info_header).
Hypothesis Hsih : tree sih = t0.
Hypothesis Hgaps : no_gaps sbi0 sih.
Context (inode : vfs_inode).
Hypothesis Hino : i_ino inode = Pi.nova_ino m0 pi.

Lemma looping_start : looping sbi0 F0 tail0 limit sbi0 F0.
Proof. split; auto; [by split|apply (we_free _ _ _ _ _ _ _ wenv)|by intros x]. Qed.

Lemma dax_own_inode : own_inode smp inode (World sbi0 mon sih) = Some (pi, World sbi0 mon sih).
Proof. apply own_inode_run. rewrite Hino. by eapply FileWrite.find_inode. Qed.

(** The pages up to the next entry are a hole. *)
Lemma hole_length iblock max_blocks : 0 <= iblock < 2 ^ 31 -> 0 < max_blocks < 1048576 -> t0 !! iblock = None ->
  exists n, (match nova_find_next_entry (tree sih) iblock with
             | None => mret (i32 max_blocks)
             | Some entry =>
               let next_pgoff := We.pgoff m0 entry in
               if next_pgoff <=? iblock then fs_fault
               else
                 let num_blocks := i32 (next_pgoff - iblock) in
                 mret (if max_blocks <? u64 num_blocks then i32 max_blocks else num_blocks)
             end) (World sbi0 mon sih) = Some (n, World sbi0 mon sih) /\
    0 < n <= max_blocks /\ (forall q, iblock <= q < iblock + n -> t0 !! q = None).
Proof.
  intros Hi Hm Hn. rewrite (i32_small max_blocks) by lia. unfold nova_find_next_entry.
  destruct (radix_tree_next (tree sih) iblock) as [[q a]|] eqn:E; cbn [fmap option_fmap option_map snd].
  - destruct (next_entry_start sbi0 sih iblock q a) as (Eq & Hlt & Hq & Hno); [rewrite Hsih; apply Hread|done|by rewrite Hsih|done|].
    rewrite Hsih in Hq, Hno. pose proof (Hpages q a Hq). cbv zeta. rewrite Eq, (proj2 (Z.leb_gt q iblock)) by lia.
    rewrite i32_small, u64_small by lia. eexists. split; [done|]. destruct (Z.ltb_spec max_blocks (q - iblock)); (split; [lia|]); intros r Hr; apply Hno; lia.
  - exists max_blocks. split; [done|]. split; [lia|]. intros q Hq. rewrite <- Hsih. apply (radix_tree_next_none _ _ E). lia.
Qed.

(** One zeroed extent with its entry at the end of the log, as the state of a write of no
    bytes. *)
Definition hole_locals (p n b : Z) : write_locals := WriteLocals (4096 * p) 0 n 0 tail0 0 0 b n.

Lemma extent_one p n b c : in_extents [(p, n, b)] c <-> b <= c < b + n.
Proof. rewrite in_extents_cons. split; [intros [?|(p' & n' & b' & Hin & _)]; [done|by apply not_elem_of_nil in Hin]|by left]. Qed.

Lemma hole_extent p n b sbi1 m2 data :
  0 <= p -> 0 < n -> (forall q, p <= q < p + n -> t0 !! q = None) -> (forall c, b <= c < b + n -> F0 c) ->
  same_geometry sbi0 sbi1 -> lb_free sbi1 (fun c => F0 c /\ ~ b <= c < b + n) -> zeroed_pages sbi0 b n m0 (nvm sbi1) ->
  m2 = copy_write_entry (nvm sbi1) (va + tail0) data -> entry_is m2 (va + tail0) p n b ->
  looping sbi0 F0 tail0 limit (with_nvm m2 sbi1) (fun c => F0 c /\ ~ b <= c < b + n) /\
  extents_ok sbi0 t0 (fun _ => 0) (hole_locals p n b) sbi0 F0 [(p, n, b)] (with_nvm m2 sbi1) (fun c => F0 c /\ ~ b <= c < b + n).
Proof.
  intros Hp Hn Hhole Htake Hg Hf [Z1 Z2] Em He.
  assert (forall x, blk b <= x < blk (b + n) -> in_free sbi0 F0 x) as Hin
    by (intros x Hx; by eapply (extent_free (fun _ => 0) (fun _ => false) (fun _ _ => 0))).
  assert (forall x, ~ va + tail0 <= x < va + tail0 + 40 -> m2 x = nvm sbi1 x) as S2 by (intros x Hx; rewrite Em; by apply copy_write_entry_same).
  split.
  - split; [by destruct Hg|by apply lb_free_nvm|tauto|]. cbn [nvm with_nvm]. intros x H1 H2. rewrite S2 by lia. apply Z2. intros Hx. by apply H1, Hin.
  - assert (4096 * p / 4096 = p) as Ep by mlia. split; cbn [hole_locals wl_pos wl_num_blocks wl_tail wl_buf wl_count nvm with_nvm].
    + rewrite Ep. cbn [chained]. lia.
    + intros c. rewrite extent_one. apply Htake.
    + intros c. by rewrite extent_one.
    + intros [|[|i]] q k c; cbn; [|done..]. intros [= <- <- <-]. by rewrite Z.add_0_r.
    + intros q k c y [= -> -> ->]%list_elem_of_singleton Hy. unfold turn_byte.
      replace ((4096 * p <=? 4096 * p + y) && (4096 * p + y <? 4096 * p + 0)) with false
        by (symmetry; apply andb_false_iff; right; apply Z.ltb_ge; lia).
      unfold file_byte. rewrite Hhole by mlia. rewrite S2, Z1; [done|unfold block_addr; lia|].
      intros Hx. apply (tail_window smp sbi0 F0 P pi t0 logb wenv tail0 limit tok _ tail0 ltac:(lia) Hroom Hx), Hin. unfold block_addr. lia.
    + intros x Hx1 Hx2. cbn [length] in Hx2. rewrite S2 by lia. apply Z2. intros Hx.
      destruct (Hin x Hx) as (c & Hc & Hcx). apply (Hx1 (b + (x - blk b) / 4096)); [apply extent_one|]; unfold block_addr in *; mlia.
Qed.

(** Filling a hole. *)
Lemma fill_hole_ok iblock max_blocks time k :
  0 <= iblock < 2 ^ 31 -> 0 < max_blocks < 1048576 -> t0 !! iblock = None -> ready (Z.to_nat max_blocks + S (S k)) mon ->
  exists r inode' sbi' mon' t', fill_hole slab_garbage smp jiffies_to_msecs e garbage radix_nomem nova_base_address inode iblock max_blocks time
      (World sbi0 mon sih) = Some ((r, inode'), World sbi' mon' (with_tree t' sih)) /\ ready k mon' /\
    file_kept sbi' t' /\ vfs_size inode' = vfs_size inode /\ (forall o, 0 <= o -> file_byte sbi' t' o = file_byte sbi0 t0 o) /\
    ((r = inl (- ENOSPC) /\ t' = t0 /\ Pi.log_tail (nvm sbi') pi = tail0) \/
     (exists b n, r = inr (b, n) /\ 0 < n <= max_blocks /\ committed sbi0 pi tail0 (nvm sbi') [(iblock, n, b)] /\ (forall q, iblock <= q < iblock + n -> t0 !! q = None) /\
        (forall q, ~ iblock <= q < iblock + n -> t' !! q = t0 !! q) /\
        (forall q, iblock <= q < iblock + n -> exists a, t' !! q = Some a /\ entry_block (nvm sbi') a q = b + (q - iblock)))).
Proof.
  intros Hi Hmx Hn Hr. unfold fill_hole. fstep dax_own_inode. frun. destruct (hole_length iblock max_blocks Hi Hmx Hn) as (num & E & Hnum & Hhole). fstep E.
  pose proof (we_free _ _ _ _ _ _ _ wenv) as Hf0. pose proof (we_mapped _ _ _ _ _ _ _ wenv) as Hmp.
  destruct (lb_extent_zeroed sbi0 F0 smp pi 0 num Hf0 Hmp (we_cpu _ _ _ _ _ _ _ wenv) (we_type _ _ _ _ _ _ _ wenv) ltac:(lia))
    as (ret & nr & sbi1 & E1 & Hg1 & _ & Hout).
  rewrite (u32_small num) by lia.
  fstep (on_sbi_run (fun s => nova_new_data_blocks s smp pi 0 num 1) (World sbi0 mon sih) _ _ E1). cbn [w_mon w_sih]. cbv beta iota zeta.
  destruct Hout as [(Hret & Hin & Hf1 & Hz)|(-> & -> & Hf1 & Hm1)].
  2:{ cbn [Z.leb Z.ltb Z.compare Z.opp ENOSPC]. unfold nova_cleanup_incomplete_write. cbn [Z.ltb Z.eqb andb orb Z.compare]. frun.
      assert (looping sbi0 F0 tail0 limit sbi1 F0) as HL by (split; [done|done|tauto|rewrite Hm1; by intros x]).
      eexists _, _, sbi1, mon, t0. rewrite <- Hsih at 1. rewrite with_tree_same. split; [reflexivity|]. split; [eapply ready_less; [exact Hr|lia]|].
      split; [by eapply loop_kept|]. split; [done|]. split; [|left; split; [done|split; [done|by rewrite Hm1]]].
      intros o _. apply (loop_file_byte smp (fun _ => 0) radix_nomem (fun _ _ => 0) sbi0 F0 P pi t0 logb wenv tail0 limit tok); apply HL. }
  rewrite (proj2 (Z.leb_gt ret 0)) by lia. frun.
  destruct (tail_block smp sbi0 F0 P pi t0 logb wenv tail0 limit tok) as (T1 & T2 & T3 & T4). pose proof (lb_size _ _ Hf0) as Hsz.
  assert (0 < nr /\ nr + ret <= num_blocks sbi0) as Hnr.
  { pose proof (lb_bounds _ _ nr Hf0 (Hin nr ltac:(lia))). pose proof (lb_bounds _ _ (nr + ret - 1) Hf0 (Hin (nr + ret - 1) ltac:(lia))). lia. }
  rewrite nova_get_block_off_alt, (u32_small ret) by lia.
  replace (4096 * nr - (4096 * nr) mod 256 + FILE_WRITE) with (4096 * nr + FILE_WRITE) by mlia.
  assert (loop_mem sbi0 F0 tail0 limit (nvm sbi1)) as Hlm1.
  { intros x H1 H2. apply Hz. intros Hx. apply H1. by eapply (extent_free (fun _ => 0) (fun _ => false) (fun _ _ => 0)). }
  assert (Pi.log_tail (nvm sbi1) pi = tail0) as Ht1
    by (rewrite <- Htail; apply (loop_pi smp sbi0 F0 P pi t0 logb wenv tail0 limit tok 8 _ 80 Hlm1); simpl; lia).
  rewrite Ht1. set (data := WriteEntry _ _ _ _ _ _ _).
  destruct (append_ok slab_garbage smp jiffies_to_msecs e garbage sbi0 F0 P pi t0 logb wenv tail0 limit tok pid_nonneg sbi1 mon sih
    (Z.to_nat max_blocks + S k) tail0 data Hg1 Hlm1) as (mon1 & E2 & Hr1); [by rewrite <- Nat.add_succ_r|lia|lia|]. fstep E2.
  rewrite (proj2 (Z.eqb_neq tail0 0)) by lia. set (m2 := copy_write_entry (nvm sbi1) (va + tail0) data).
  assert (entry_is m2 (va + tail0) iblock ret nr) as He by (apply (copied_entry (fun _ => 0)); lia).
  assert (forall q, iblock <= q < iblock + ret -> t0 !! q = None) as Hhole' by (intros q Hq; apply Hhole; lia).
  destruct (hole_extent iblock ret nr sbi1 m2 data ltac:(lia) ltac:(lia) Hhole' Hin Hg1 Hf1 Hz eq_refl He) as [HL HX].
  pose proof HL as [G1 G2 G3 G4]. pose proof HX as [X1 X2 X3 X4 X5 X6]. cbn [nvm with_nvm] in G4, X4, X5. frun. cbn [nvm with_nvm].
  assert (Pi.i_blk_type m2 pi = 0) as ->
    by (rewrite <- (we_type _ _ _ _ _ _ _ wenv); apply (loop_pi smp sbi0 F0 P pi t0 logb wenv tail0 limit tok 1 _ 3 G4); simpl; lia).
  change (blk_type_to_shift 0) with (Some 12). frun. cbn [nvm with_nvm]. set (v := u64 (Pi.i_blocks _ _ + _)).
  destruct (commit_homed smp sbi0 F0 P pi t0 logb wenv tail0 limit tok (with_nvm m2 sbi1) v G1 G4) as [Hh Hi']. cbv zeta in Hh, Hi'.
  unfold We.length. rewrite (u64_small (tail0 + 40)) by lia.
  destruct (update_tail_ok smp e nova_base_address sbi0 F0 P pi t0 logb wenv _ mon1 sih (Z.to_nat max_blocks + k) (tail0 + 40) Hh Hi')
    as (mon2 & E3 & Hr2); [apply (lb_size _ _ G2)|by rewrite <- Nat.add_succ_r|]. fstep E3. cbn [nvm with_nvm].
  pose proof (commit_state smp sbi0 F0 P pi t0 logb wenv tail0 limit tok _ _ _ _ _ v HL HX eq_refl ltac:(cbn [length]; lia)) as A0.
  cbn [hole_locals wl_pos wl_num_blocks nvm with_nvm] in A0, X1. rewrite <- Hsih in A0 at 2.
  replace (4096 * iblock / 4096) with iblock in A0, X1 by mlia. change (new_tail tail0 [(iblock, ret, nr)]) with (tail0 + 40) in A0.
  destruct (reassign_tree_ok slab_garbage smp jiffies_to_msecs e garbage radix_nomem sbi0 F0 P pi t0 logb wenv tail0 limit tok pid_nonneg radix_serves
    [(iblock, ret, nr)] m2 iblock (iblock + ret) _ _ mon2 sih k ltac:(lia) ltac:(cbn [length]; lia) X2 X4 G4 X1 A0)
    as (sbi3 & F3 & mon3 & t3 & E4 & A & Hr3); [eapply ready_less; [exact Hr2|lia]|].
  fstep E4. cbn [negb Z.eqb]. frun. eexists _, _, sbi3, mon3, t3. split; [reflexivity|]. split; [done|].
  assert (file_kept sbi3 t3) as Hk by (eapply (final_kept smp sbi0 F0 P pi t0 logb wenv tail0 limit tok [(iblock, ret, nr)] m2); eauto; cbn [length]; lia).
  split; [done|]. split; [done|]. split; [|right].
  - intros o Ho. erewrite (final_bytes smp (fun _ => 0) sbi0 F0 P pi t0 logb wenv tail0 limit tok [(iblock, ret, nr)] m2 iblock (iblock + ret)
      ltac:(lia) ltac:(cbn [length]; lia) X2 X4 G4 sbi3 F3 t3 A _ _ (4096 * iblock) 0 o X5); [|mlia|lia|done].
    unfold turn_byte. replace (_ && _) with false; [done|]. symmetry. apply andb_false_iff.
    destruct (Z.lt_ge_cases o (4096 * iblock)); [left; apply Z.leb_gt; lia|right; apply Z.ltb_ge; lia].
  - exists nr, ret. split; [done|]. split; [lia|].
    split; [exact (final_committed smp sbi0 F0 P pi t0 logb wenv tail0 limit tok [(iblock, ret, nr)] m2 iblock (iblock + ret) ltac:(cbn [length]; lia) X4 sbi3 F3 t3 A)|].
    split; [done|]. split; [intros q Hq; by apply (as_old _ _ _ _ _ _ _ _ _ _ _ A)|].
    intros q Hq. destruct (as_new _ _ _ _ _ _ _ _ _ _ _ A q Hq) as (i & p' & n' & b' & Hi2 & Hp' & Et). exists (new_entry sbi0 tail0 i). split; [done|].
    destruct (final_new smp sbi0 F0 P pi t0 logb wenv tail0 limit tok [(iblock, ret, nr)] m2 iblock (iblock + ret) ltac:(cbn [length]; lia) X4 sbi3 F3 t3 A
      q i p' n' b' Hi2 Hp') as [-> _]. destruct i as [|[|i]]; [|done..]. by injection Hi2 as <- <- <-.
Qed.

(** What the buffer head says of [n] blocks from [b] on. *)
Lemma map_blocks_ok b n bh : 0 < n < 1048576 ->
  exists bh', map_blocks b n bh = (n, bh') /\ b_mapped bh' = true /\ b_blocknr bh' = b /\ b_size bh' = 4096 * n.
Proof.
  intros Hn. unfold map_blocks, s_blocksize, NOVA_DEF_BLOCK_SIZE_4K. eexists. split; [done|].
  destruct (Z.ltb_spec 1 n); cbn [with_b_size map_bh b_mapped b_blocknr b_size]; (split; [done|]; split; [done|]).
  - apply u64_small. lia.
  - change s_blocksize with 4096. lia.
Qed.

(** A page that is mapped. *)
Lemma mapped_run iblock max_blocks bh create time a :
  0 <= iblock < 2 ^ 31 -> 0 < max_blocks < 1048576 -> t0 !! iblock = Some a ->
  exists n bh', nova_dax_get_blocks slab_garbage smp jiffies_to_msecs e garbage radix_nomem nova_base_address inode iblock max_blocks bh create time
      (World sbi0 mon sih) = Some ((n, inode, bh'), World sbi0 mon sih) /\
    0 < n <= max_blocks /\ b_mapped bh' = true /\ b_size bh' = 4096 * n /\
    (forall q, iblock <= q < iblock + n -> t0 !! q = Some a /\ entry_block m0 a q = b_blocknr bh' + (q - iblock)).
Proof.
  intros Hi Hm Ha. destruct Hread as [Hmp Hc Hb Hw]. destruct (Hc iblock a Ha) as (C1 & C2 & C3). pose proof (Hb iblock a Ha) as Hblk.
  pose proof (lb_size _ _ (we_free _ _ _ _ _ _ _ wenv)) as Hsz. unfold nova_dax_get_blocks, nova_get_write_entry.
  rewrite (proj2 (Z.eqb_neq _ 0)) by lia. rewrite fs_assoc. frun. rewrite Hsih, Ha.
  assert (exists k, (if We.invalid_pages m0 a =? 0 then i32 (We.num_pages m0 a - (iblock - We.pgoff m0 a)) else 1) = k /\ 0 < k < 2 ^ 31 /\
    (forall q, iblock <= q < iblock + k -> t0 !! q = Some a)) as (k & -> & Hk & Hkq).
  { destruct (Z.eqb_spec (We.invalid_pages m0 a) 0) as [H0|H0].
    - pose proof (Hw iblock a Ha H0) as Hall. assert (t0 !! (We.pgoff m0 a + We.num_pages m0 a - 1) = Some a) as Hl by (apply Hall; lia).
      pose proof (Hb _ _ Hl) as Hlb. pose proof (Hb _ _ Ha) as Hfb. unfold entry_block in Hlb, Hfb.
      eexists. split; [done|]. rewrite i32_small by lia. split; [lia|]. intros q Hq. apply Hall. lia.
    - exists 1. split; [done|]. split; [lia|]. intros q Hq. by replace q with iblock by lia. }
  rewrite (u64_small k), (i32_small max_blocks) by lia. set (n := if max_blocks <? k then max_blocks else k).
  assert (0 < n <= max_blocks /\ n <= k) as [Hn1 Hn2] by (unfold n; destruct (Z.ltb_spec max_blocks k); lia).
  erewrite fs_step by (apply get_nvmm_run; rewrite ?Hsih; auto; lia).
  destruct (map_blocks_ok (entry_block m0 a iblock) n (clear_buffer_new bh) ltac:(lia)) as (bh' & -> & B1 & B2 & B3).
  exists n, bh'. split; [done|]. split; [done|]. split; [done|]. split; [done|]. intros q Hq. split; [apply Hkq; lia|].
  rewrite B2. unfold entry_block. lia.
Qed.

End theorems.

(** ** An example *)

(** The environment of a write, for a part of the pages. *)
Lemma write_env_sub `{RbTree} {L : LogBlocks} smp sbi F P pi t t' logb :
  t' ⊆ t -> write_env smp sbi F P pi t logb -> write_env smp sbi F P pi t' logb.
Proof.
  intros Hs W. assert (forall p a, t' !! p = Some a -> t !! p = Some a) as Hl by (intros p a Ha; by apply (lookup_weaken t' t)).
  destruct W as [W1 W2 W3 W4 W5 W6 W7 W8 W9 W10 W11 W12 W13 W14 W15 W16 W17 W18]. split; try assumption.
  - intros p a Ha. exact (W9 p a (Hl _ _ Ha)).
  - intros p a Ha. exact (W10 p a (Hl _ _ Ha)).
  - intros p q a b Ha Hb. exact (W11 p q a b (Hl _ _ Ha) (Hl _ _ Hb)).
  - intros p a Ha. exact (W12 p a (Hl _ _ Ha)).
  - intros p q a b Ha Hb. exact (W13 p q a b (Hl _ _ Ha) (Hl _ _ Hb)).
  - intros p a Ha. pose proof (W14 p a (Hl _ _ Ha)). assert (slots t' a <= slots t a)%nat; [|lia].
    apply map_subseteq_size, map_subseteq_spec. intros r v [Hr Hv]%map_lookup_filter_Some. apply map_lookup_filter_Some. split; [by apply Hl|done].
  - intros b p a Hb Ha. exact (W16 b p a Hb (Hl _ _ Ha)).
  - intros b [Hb|[Hb|(p & a & Ha & Hb)]]; apply W17; [by left|by right; left|]. right. right. exists p, a. split; [by apply Hl|done].
Qed.

Module DaxDemo.
Import RbList.RbList InodeTable.TableDemo Detect.DetectDemo FastGc.GcDemo Truncate.TruncateDemo FileWrite.WriteDemo SeekDemo.

(** The file with its first page only. *)
Definition dx_tree : gmap Z Z := {[0 := cut_entry]}.
Definition dx_sih : nova_inode_info_header := with_tree dx_tree cut_sih.

Lemma dx_lookup p a : dx_tree !! p = Some a -> p = 0 /\ a = cut_entry.
Proof. unfold dx_tree. by intros [<- <-]%lookup_singleton_Some. Qed.

Lemma dx_sub : dx_tree ⊆ cut_tree.
Proof. apply map_subseteq_spec. intros p a [-> ->]%dx_lookup. reflexivity. Qed.

Lemma dx_readable : readable wr_sbi dx_tree /\ no_gaps wr_sbi dx_sih.
Proof.
  destruct wr_readable as [R1 R2 R3 R4]. destruct wr_fields as (F1 & _ & F3 & _). split.
  - split; [exact R1| | |].
    + intros p a Ha. apply R2. by apply (lookup_weaken dx_tree cut_tree _ _ Ha dx_sub).
    + intros p a Ha. apply R3. by apply (lookup_weaken dx_tree cut_tree _ _ Ha dx_sub).
    + intros p a [-> ->]%dx_lookup H0. rewrite F3 in H0. discriminate H0.
  - intros p a [-> ->]%dx_lookup q Hq. rewrite F1 in Hq. assert (q = 0) as -> by lia. exists cut_entry. reflexivity.
Qed.

Lemma dx_tail : tail_ok wr_sbi dx_tree (fun b => b = 5) wr_tail (wr_tail + 80).
Proof. destruct wr_tail_ok as [T1 T2 T3]. split; auto. intros p a Ha. apply (T3 p). by apply (lookup_weaken dx_tree cut_tree _ _ Ha dx_sub). Qed.

(** The call of the example. *)
#[local] Abbreviation dx_run := (fun (mon : monitor) =>
  nova_dax_get_blocks garbage 0 msecs_250 (demo_env 0) 0 (fun _ => false) 65536 wr_inode 3 2 (BufferHead 8192 0 false false) true 7 (World wr_sbi mon dx_sih)).

Lemma dx_returns : (fun r => fst (fst (fst r))) <$> (init_monitor initial_monitor ≫= fun r => dx_run (snd r)) = Some 2.
Proof. vm_compute. reflexivity. Qed.

End DaxDemo.
