(* ===== verification/Recovery.v ===== *)
(** * Recovery after a crash (bbuild.c)

    When the log of the last shutdown is not found, the mount collects the pages of inodes
    of all CPUs in the rings of as many threads; each thread scans its pages, walks the log
    of every valid inode to mark its blocks (Crawl), and enters the inode numbers it finds
    into the trees of numbers in use, runs of consecutive numbers at once.  The free lists
    are then rebuilt from the bitmaps (BlockMap). *)

From S2P Require Import Prelude Layout RangeTree RbList State Balloc BallocFacts BallocSpec.
From S2P Require Import BallocInit BallocTheorems TreeEdits InodeMap LogBlocks InodeTable.
From S2P Require Import Monitor Histogram HashTable Records KnapSack Detect WriteCount Migrate Journal.
From S2P Require Import LogPages World InodeLog BlockMap Shutdown Crawl FileTree Attr Vfs SuperBlock.
#[local] Open Scope word_scope.

(** ** The code *)

Section operations.
Context `{RbTree} (slab_garbage : nova_range_node) (smp : Z) (jiffies_to_msecs : Z -> Z) (e : env).
Context (garbage : Z).

(** A node for the run, when it touches no range of the tree. *)
Definition insert_run (sbi : nova_sb_info) (cpu internal_low internal_high : Z) : option (Z * nova_sb_info) :=
  match nova_alloc_range_node (range_nodes sbi) slab_garbage with
  | None => None (* NOVA_ASSERT only warns; the next store faults *)
  | Some (new_node, h) =>
    let h := <[new_node := RangeNode internal_low internal_high]> h in
    res ← nova_insert_inodetree (with_range_nodes h sbi) new_node cpu;
    let '(ret, sbi) := (res : Z * nova_sb_info) in
    if negb (ret =? 0) then Some (ret, with_range_nodes (nova_free_range_node new_node (range_nodes sbi)) sbi)
    else
      im ← nova_get_inode_map sbi cpu;
      Some (ret, put_inode_map sbi cpu (with_num_range_node_inode (num_range_node_inode im ⊞ 1) im))
  end.

Definition nova_failure_insert_inodetree (sbi : nova_sb_info) (ino_low ino_high : Z) : option (Z * nova_sb_info) :=
  if ino_high <? ino_low then None (* BUG *)
  else if cpus sbi =? 0 then None
  else
    let cpu := ino_low mod cpus sbi in
    if negb (ino_high mod cpus sbi =? cpu) then None (* BUG *)
    else
      let internal_low := ino_low / cpus sbi in
      let internal_high := ino_high / cpus sbi in
      im ← nova_get_inode_map sbi cpu;
      let h := range_nodes sbi in
      slot ← nova_find_free_slot h (inode_inuse_tree im) internal_low internal_high;
      let '(ret, (prev, next)) := (slot : Z * (option ptr * option ptr)) in
      if negb (ret =? 0) then Some (ret, sbi)
      else
        jp ← joins_prev h prev internal_low;
        jn ← joins_next h next internal_high;
        match prev, next, jp, jn with
        | Some p, Some n, true, true =>
          (* fits the hole *)
          rn ← h !! n;
          let im := with_inode_inuse_tree (rb_erase n (inode_inuse_tree im)) im in
          let im := with_num_range_node_inode (num_range_node_inode im ⊟ 1) im in
          let h := nova_free_range_node n (set_range_high p (range_high rn) h) in
          Some (0, put_inode_map (with_range_nodes h sbi) cpu im)
        | Some p, _, true, _ =>
          (* aligns left *)
          rp ← h !! p;
          let h := set_range_high p (u64 (range_high rp + (internal_high - internal_low + 1))) h in
          Some (0, with_range_nodes h sbi)
        | _, Some n, _, true =>
          (* aligns right *)
          rn ← h !! n;
          let h := set_range_low n (u64 (range_low rn - (internal_high - internal_low + 1))) h in
          Some (0, with_range_nodes h sbi)
        | _, _, _, _ => insert_run sbi cpu internal_low internal_high
        end.

(** The run of numbers from [*ino_low] to [*ino_high], 0 for none, is extended by the number
    of the inode at [pi], or entered and begun anew with it. *)
Definition nova_failure_update_inodetree (sbi : nova_sb_info) (pi ino_low ino_high : Z) :
    option (Z * Z * nova_sb_info) :=
  let ino := Pi.nova_ino (nvm sbi) pi in
  if ino_low =? 0 then Some (ino, ino, sbi)
  else if ino =? ino_high ⊞ cpus sbi then Some (ino_low, ino, sbi)
  else
    res ← nova_failure_insert_inodetree sbi ino_low ino_high;
    let '(_, sbi) := (res : Z * nova_sb_info) in
    Some (ino, ino, sbi).

Definition count_found (ring : task_ring) : task_ring :=
  TaskRing (addr ring) (i32 (inodes_used_count ring + 1)) (array ring).

(** The log of the inode at offset [pi_addr] is walked; the header is the one of the caller. *)
Definition nova_recover_inode_pages (ring : task_ring) (pi_addr : Z) (bm : scan_bitmap) :
    fs (task_ring * scan_bitmap) :=
  pi ← get_block pi_addr;
  mem ← get_nvm;
  if Pi.valid mem pi =? 0 then mret (ring, bm)
  else
    let ring := count_found ring in
    _ ← put_sih (fun sih => with_sih_ino (Pi.nova_ino mem pi) (with_sih_mode (Pi.i_mode mem pi) sih));
    sbi ← get_sbi;
    if Z.land (Pi.i_mode mem pi) S_IFMT =? S_IFDIR then
      bm ← fs_deref (nova_traverse_dir_inode_log sbi pi bm);
      mret (ring, bm)
    else
      c ← fs_deref (nova_traverse_file_inode_log sbi pi ring bm);
      _ ← put_sih (with_sih_size (c_size c));
      mret (c_ring c, c_bm c).

(** ** A thread *)

(** The local variables of [failure_thread_func]. *)
Record scan := Scan {
  sc_ring : task_ring;
  sc_bm : scan_bitmap;
  sc_low : Z;
  sc_high : Z;
  sc_max_size : Z;
}.

(** Slot [i] of the page of inodes at [curr]. *)
Definition scan_slot (curr i : Z) (sc : scan) : fs scan :=
  let pi_addr := curr ⊞ i * NOVA_INODE_SIZE in
  pi ← get_block pi_addr;
  mem ← get_nvm;
  if Pi.valid mem pi =? 0 then mret sc
  else
    r ← nova_recover_inode_pages (sc_ring sc) pi_addr (sc_bm sc);
    let '(ring, bm) := (r : task_ring * scan_bitmap) in
    r ← on_sbi (fun sbi =>
          res ← nova_failure_update_inodetree sbi pi (sc_low sc) (sc_high sc);
          let '(low, high, sbi) := (res : Z * Z * nova_sb_info) in Some ((low, high), sbi));
    let '(low, high) := (r : Z * Z) in
    sih ← get_sih;
    mret (Scan ring bm low high (if sc_max_size sc <? sih_size sih then sih_size sih else sc_max_size sc)).

Fixpoint scan_slots (n : nat) (curr i : Z) (sc : scan) : fs scan :=
  match n with
  | O => mret sc
  | S n => sc ← scan_slot curr i sc; scan_slots n curr (i + 1) sc
  end.

(** One page: its blocks are marked, then its [n] slots are scanned and the last run is
    entered. *)
Definition scan_page (n : nat) (curr : Z) (sc : scan) : fs scan :=
  bm ← fs_deref (set_bits_4K 512 (Z.shiftr curr PAGE_SHIFT) (sc_bm sc));
  sc ← scan_slots n curr 0 (Scan (sc_ring sc) bm 0 0 (sc_max_size sc));
  _ ← (if negb (sc_low sc =? 0) && negb (sc_high sc =? 0)
       then on_sbi (fun sbi => nova_failure_insert_inodetree sbi (sc_low sc) (sc_high sc)) else mret 0);
  mret sc.

Fixpoint scan_pages (n : nat) (pages : list Z) (sc : scan) : fs scan :=
  match pages with
  | [] => mret sc
  | curr :: pages => sc ← scan_page n curr sc; scan_pages n pages sc
  end.

(** [failure_thread_func] of the CPU with [ring] and [bm]; the header on its stack is the one
    of the world. *)
Definition failure_thread_func (ring : task_ring) (bm : scan_bitmap) : fs (task_ring * scan_bitmap) :=
  sbi ← get_sbi;
  pi ← fs_deref (nova_get_inode_by_ino (virt_addr sbi) NOVA_INODETABLE_INO);
  data_bits ← fs_deref (blk_type_to_shift (Pi.i_blk_type (nvm sbi) pi));
  let num_inodes_per_page := i32 (Z.shiftl 1 (u32 (data_bits - NOVA_INODE_BITS))) in
  _ ← put_sih (nova_init_header 0);
  sc ← scan_pages (Z.to_nat num_inodes_per_page) (addr ring) (Scan ring bm 0 0 0);
  _ ← (if negb (sc_max_size sc =? 0)
       then nova_delete_file_tree slab_garbage smp 0 (Z.shiftr (u64 (sc_max_size sc - 1)) PAGE_SHIFT) false false
       else mret 0);
  mret (sc_ring sc, sc_bm sc).

(** ** The crawl *)

(** The chain of pages of inodes from [curr] on is dealt out to the rings in turn; [None] is a
    ring that is full.  Every turn fills a place of a ring, which bounds the chain. *)
Fixpoint deal_chain (fuel : nat) (sbi : nova_sb_info) (curr ring_id : Z) (rings : list task_ring) :
    option (option (Z * list task_ring)) :=
  if curr =? 0 then Some (Some (ring_id, rings))
  else
    match fuel with
    | O => None
    | S fuel =>
      ring ← rings !! Z.to_nat ring_id;
      if 512 <=? Z.of_nat (length (addr ring)) then Some None
      else
        let ring := TaskRing (addr ring ++ [curr]) (inodes_used_count ring) (array ring) in
        deal_chain fuel sbi (load 8 (nvm sbi) (nova_get_block (virt_addr sbi) curr + 2097152 - 8))
          ((ring_id + 1) mod cpus sbi) (<[Z.to_nat ring_id := ring]> rings)
    end.

Fixpoint deal_tables (n : nat) (sbi : nova_sb_info) (cpuid ring_id : Z) (rings : list task_ring) :
    option (option (list task_ring)) :=
  match n with
  | O => Some (Some rings)
  | S n =>
    match nova_get_inode_table sbi cpuid with
    | None => Some None
    | Some inode_table =>
      r ← deal_chain (Z.to_nat (512 * cpus sbi + 1)) sbi (load 8 (nvm sbi) inode_table) ring_id rings;
      match (r : option (Z * list task_ring)) with
      | None => Some None
      | Some (ring_id, rings) => deal_tables n sbi (cpuid + 1) ring_id rings
      end
    end
  end.

(** Who crawls: a thread of a CPU, or the mounting thread, which recovers the root inode. *)
Inductive crawler := thread (cpuid : Z) | root_crawler.

(** One of them runs; the header on its stack is [sih]. *)
Definition run_crawler (sih : nova_inode_info_header) (c : crawler) (st : list task_ring * list scan_bitmap) :
    fs (list task_ring * list scan_bitmap) :=
  let '(rings, bms) := st in
  _ ← put_sih (fun _ => sih);
  match c with
  | thread cpuid =>
    ring ← fs_deref (rings !! Z.to_nat cpuid);
    bm ← fs_deref (bms !! Z.to_nat cpuid);
    r ← failure_thread_func ring bm;
    let '(ring, bm) := (r : task_ring * scan_bitmap) in
    mret (<[Z.to_nat cpuid := ring]> rings, <[Z.to_nat cpuid := bm]> bms)
  | root_crawler =>
    ring ← fs_deref (rings !! 0%nat);
    bm ← fs_deref (bms !! 1%nat);
    _ ← put_sih (nova_init_header 0);
    r ← nova_recover_inode_pages ring NOVA_ROOT_INO_START bm;
    let '(ring, bm) := (r : task_ring * scan_bitmap) in
    mret (<[0%nat := ring]> rings, <[1%nat := bm]> bms)
  end.

Fixpoint run_crawlers (sih : nova_inode_info_header) (cs : list crawler) (st : list task_ring * list scan_bitmap) :
    fs (list task_ring * list scan_bitmap) :=
  match cs with
  | [] => mret st
  | c :: cs => st ← run_crawler sih c st; run_crawlers sih cs st
  end.

(** [nova_failure_recovery_crawl] and [wait_to_finish], with the crawlers run one after the
    other in the order [cs]; they share the trees of inode numbers, each of which has a
    mutex.  When a ring is full the threads are never woken and the wait does not end. *)
Definition nova_failure_recovery_crawl (cs : list crawler) (rings : list task_ring) (bms : list scan_bitmap) :
    fs (list task_ring * list scan_bitmap) :=
  sbi ← get_sbi;
  sih ← get_sih;
  r ← fs_deref (deal_tables (Z.to_nat (cpus sbi)) sbi 0 0 rings);
  match (r : option (list task_ring)) with
  | None => fs_fault
  | Some rings => run_crawlers sih cs (rings, bms)
  end.

(** [allocate_resources]: the rings of the threads. *)
Definition allocate_resources (alloc_ok : bool) (cpus : Z) : Z + list task_ring :=
  if alloc_ok then inr (replicate (Z.to_nat cpus) (TaskRing [] 0 ∅)) else inl (- ENOMEM).

(** The pages of the journals are marked, each in the map of its CPU. *)
Fixpoint mark_journals (n : nat) (i : Z) (sbi : nova_sb_info) (bms : list scan_bitmap) :
    option (Z * list scan_bitmap) :=
  match n with
  | O => Some (0, bms)
  | S n =>
    match nova_get_journal_pointers sbi i with
    | None => Some (- EINVAL, bms)
    | Some pp =>
      bm ← bms !! Z.to_nat i;
      bm ← set_bm (Z.shiftr (journal_head (nvm sbi) pp) PAGE_SHIFT) bm BM_4K;
      mark_journals n (i + 1) sbi (<[Z.to_nat i := bm]> bms)
    end
  end.

(** The inode of the free ranges loses its log. *)
Definition reset_blocknodes : fs Z :=
  sbi ← get_sbi;
  pi ← fs_deref (nova_get_inode_by_ino (virt_addr sbi) NOVA_BLOCKNODE_INO);
  pi ← reget_inode smp pi;
  _ ← put_nvm (fun mem => Pi.set_log_head (Pi.set_log_tail mem pi 0) pi 0);
  mret pi.

Definition nova_failure_recovery (alloc_ok : bool) (cs : list crawler) (global_bm : list scan_bitmap) :
    fs (Z * list scan_bitmap) :=
  _ ← on_sbi (fun sbi => Some (tt, with_s_inodes_used_count 0 sbi));
  ret ← on_sbi (fun sbi => nova_init_inode_inuse_list slab_garbage sbi);
  if ret <? 0 then mret (- EINVAL, global_bm)
  else
    pi ← reset_blocknodes;
    sbi ← get_sbi;
    r ← fs_deref (mark_journals (Z.to_nat (cpus sbi)) 0 sbi global_bm);
    let '(ret, bms) := (r : Z * list scan_bitmap) in
    if negb (ret =? 0) then mret (ret, bms)
    else
      match allocate_resources alloc_ok (cpus sbi) with
      | inl err => mret (err, bms)
      | inr rings =>
        st ← nova_failure_recovery_crawl cs rings bms;
        let '(rings, bms) := (st : list task_ring * list scan_bitmap) in
        _ ← on_sbi (fun sbi => Some (tt, with_s_inodes_used_count
              (fold_left (fun n ring => u64 (n + inodes_used_count ring)) rings (s_inodes_used_count sbi)) sbi));
        _ ← count_inode jiffies_to_msecs e pi;
        mret (0, bms)
      end.

(** [bm_ok] and [final_ok] tell whether the bitmaps can be allocated. *)
Definition nova_recovery (bm_ok : Z -> bool) (alloc_ok final_ok : bool) (cs : list crawler) : fs Z :=
  sbi ← get_sbi;
  let initsize := Sb.s_size (nvm sbi) (virt_addr sbi) in
  _ ← on_sbi (fun sbi => Some (tt, with_num_blocks (Z.shiftr initsize PAGE_SHIFT) sbi));
  _ ← on_sbi (fun sbi => sbi ← nova_init_blockmap slab_garbage sbi 1; Some (tt, sbi));
  value ← nova_can_skip_full_scan slab_garbage smp jiffies_to_msecs e garbage;
  if (value : bool) then mret 0
  else
    sbi ← get_sbi;
    let '(ret, global_bm) := alloc_bm sbi initsize bm_ok in
    if negb (ret =? 0) then mret ret
    else
      _ ← on_sbi (fun sbi => Some (tt, with_s_inodes_used_count 0 sbi));
      r ← nova_failure_recovery alloc_ok cs global_bm;
      let '(ret, bms) := (r : Z * list scan_bitmap) in
      if negb (ret =? 0) then mret ret
      else on_sbi (fun sbi => nova_build_blocknode_map slab_garbage sbi final_ok bms initsize).
End operations.

(** ** Entering a run of numbers *)

#[local] Arguments joins_prev : simpl never.
#[local] Arguments joins_next : simpl never.

Section one_map.
Context `{RbTreeLaws}.
Implicit Types (h : node_heap) (im : inode_map).

(** The run closes the gap between two ranges, which become one. *)
Lemma map_fill h im base p n ms1 ms2 qs1 rp rn qs2 low high :
  inode_map_ok h im base (qs1 ++ rp :: rn :: qs2) -> inorder (inode_inuse_tree im) = ms1 ++ p :: n :: ms2 ->
  holds h ms1 qs1 -> h !! p = Some rp -> h !! n = Some rn -> holds h ms2 qs2 ->
  low = range_high rp + 1 -> high + 1 = range_low rn ->
  map_edit h im base None (fun x => in_ranges x (qs1 ++ rp :: rn :: qs2) \/ low <= x <= high)
    (nova_free_range_node n (set_range_high p (range_high rn) h))
    (with_num_range_node_inode (u64 (num_range_node_inode im - 1))
       (with_inode_inuse_tree (rb_erase n (inode_inuse_tree im)) im))
    (qs1 ++ RangeNode (range_low rp) (range_high rn) :: qs2).
Proof.
  intros [Ht Hf Hc Hb Hl] En H1 Hp Hn H2 -> Hhigh.
  pose proof (tree_ok_ranges _ _ _ Ht) as Hrs. pose proof (sum_ranges_limit _ Hrs) as Hlim.
  pose proof (sum_ranges_nonneg _ Hrs) as Hnn.
  pose proof Hrs as (Hq1 & Hrs2 & Hwp & Hb1 & Hpn)%ranges_ok_mid.
  apply Forall_cons in Hpn as [Hpn _]. apply (ranges_ok_mid []) in Hrs2 as (_ & Hq2 & Hwn & _ & Hb2).
  assert (node_at h (inode_inuse_tree im) (qs1 ++ rp :: rn :: qs2) n (ms1 ++ [p]) ms2 (qs1 ++ [rp]) rn qs2) as Hat.
  { split; rewrite <- ?app_assoc; auto. apply holds_app; [done|by repeat constructor]. }
  destruct (tree_ok_erase _ _ _ _ _ _ _ _ _ Ht Hat) as [Ht2 Ei]. rewrite <- !app_assoc in *. simpl in *.
  pose proof (node_at_nodup _ _ _ _ _ _ _ _ _ Ht Hat) as [Hnin _].
  assert (node_at (delete n h) (rb_erase n (inode_inuse_tree im)) (qs1 ++ rp :: qs2) p ms1 ms2 qs1 rp qs2) as Hat2.
  { split; auto; try (apply holds_delete; [set_solver|done]). rewrite lookup_delete_ne by set_solver. done. }
  split; [|split; [|split]].
  - split; simpl.
    + unfold nova_free_range_node, set_range_high. rewrite delete_alter_ne by set_solver.
      apply (tree_ok_alter _ _ _ _ _ _ _ _ _ (fun x => RangeNode (range_low x) (range_high rn)) Ht2 Hat2).
      apply ranges_ok_mid. unfold wf_range, before in *; simpl. split_and!; auto; try lia; forall_lia Hb2.
    + rewrite Ei, Hf, En. by destruct ms1.
    + rewrite Hc. rewrite !length_app in *. simpl in *. unfold RANGE_LIMIT in *. wrap. lia.
    + destruct (base_split _ _ _ _ Hb) as [(r & rest & -> & ? & ?)|(-> & ? & ?)]; simpl; [eauto|].
      eexists _, _. split; [done|]. unfold wf_range, before in *. simpl. lia.
    + apply Forall_app in Hl as [Hl1 Hl2]. inversion_clear Hl2 as [|? ? _ Hl3]. inversion_clear Hl3.
      apply Forall_app. split; [done|]. by constructor.
  - intros x. rewrite !in_ranges_app, !in_ranges_cons. unfold in_range, wf_range, before in *; simpl. intuition lia.
  - intros m Hm. simpl in Hm. rewrite En in Hm. unfold nova_free_range_node.
    rewrite lookup_delete_ne by set_solver. apply lookup_alter_ne. set_solver.
  - simpl. rewrite Ei, En. set_solver.
Qed.

(** The run gets a node [c] of its own, behind the first range. *)
Lemma map_new h im base ms1 ms2 qs1 qs2 c low high :
  inode_map_ok h im base (qs1 ++ qs2) -> inorder (inode_inuse_tree im) = ms1 ++ ms2 ->
  holds h ms1 qs1 -> holds h ms2 qs2 -> h !! c = None -> qs1 <> [] -> high < MAX_INODE ->
  ranges_ok (qs1 ++ RangeNode low high :: qs2) ->
  let h1 := <[c := RangeNode low high]> h in
  exists t', nova_insert_range_node h1 (inode_inuse_tree im) c = Some (0, t') /\
    map_edit h im base (Some c) (fun x => in_ranges x (qs1 ++ qs2) \/ low <= x <= high) h1
      (with_num_range_node_inode (u64 (num_range_node_inode im + 1)) (with_inode_inuse_tree t' im))
      (qs1 ++ RangeNode low high :: qs2).
Proof.
  intros [Ht Hf Hc Hb Hl] En H1 H2 Hfr Hne Hhigh Hok h1.
  pose proof (tree_ok_ranges _ _ _ Ht) as Hrs. pose proof (sum_ranges_limit _ Hok) as Hlim.
  pose proof (sum_ranges_nonneg _ Hok) as Hnn.
  assert (c ∉ inorder (inode_inuse_tree im)) as Hcin.
  { intros Hin. destruct (holds_in _ _ _ _ (tree_holds _ _ _ Ht) Hin) as (? & ? & _). congruence. }
  assert (ms1 <> []) as Hms by (intros ->; inversion H1; subst; done).
  destruct (tree_ok_insert h1 (inode_inuse_tree im) ms1 ms2 qs1 qs2 c (RangeNode low high)) as (t' & E & Ei & Ht'); auto.
  - destruct Ht. split; auto. by apply holds_insert.
  - rewrite En in Hcin. apply holds_insert; [set_solver|done].
  - rewrite En in Hcin. apply holds_insert; [set_solver|done].
  - apply lookup_insert_eq.
  - exists t'. split; [done|]. split; [|split; [|split]].
    + split; simpl; auto.
      * rewrite Ei, Hf, En. by destruct ms1.
      * rewrite Hc. rewrite !length_app in *. simpl in *. unfold RANGE_LIMIT in *. wrap. lia.
      * destruct qs1 as [|q qs1]; [done|]. destruct Hb as (r & rest & Er & ? & ?). injection Er as <- _. eexists _, _. done.
      * apply Forall_app in Hl as [Hl1 Hl2]. apply Forall_app. split; [done|]. by constructor.
    + intros x. rewrite !in_ranges_app, !in_ranges_cons. unfold in_range; simpl. tauto.
    + intros m Hm. simpl in Hm. apply lookup_insert_ne. set_solver.
    + simpl. rewrite Ei, En. set_solver.
Qed.
End one_map.

Section specs.
Context `{RbTreeLaws} (slab_garbage : nova_range_node).
Implicit Types (sbi : nova_sb_info) (R : Z -> list nova_range_node).

(** What entering the numbers [low], [low + cpus], ..., [high] means for the whole state. *)
Record run_added sbi R (low high : Z) sbi' R' : Prop := {
  ra_ok : inodes_ok sbi' R';
  ra_frame : inode_frame sbi sbi';
  ra_nodes n : inode_node sbi' n -> inode_node sbi n \/ range_nodes sbi !! n = None;
  ra_set x : used_ino sbi' R' x <-> used_ino sbi R x \/ (x mod cpus sbi = low mod cpus sbi /\ low <= x <= high);
}.

Lemma run_numbers cpus low high x : 0 < cpus -> low mod cpus = high mod cpus -> x mod cpus = low mod cpus ->
  (low / cpus <= x / cpus <= high / cpus <-> low <= x <= high).
Proof.
  intros Hc E Ex. pose proof (Z.div_mod low cpus). pose proof (Z.div_mod high cpus). pose proof (Z.div_mod x cpus). nia.
Qed.

Lemma run_added_intro sbi R low high im fresh h' im' rs' :
  inodes_ok sbi R -> high mod cpus sbi = low mod cpus sbi ->
  nova_get_inode_map sbi (low mod cpus sbi) = Some im ->
  (forall n, fresh = Some n -> range_nodes sbi !! n = None) ->
  map_edit (range_nodes sbi) im (inuse_range_high (cpus sbi)) fresh
    (fun x => in_ranges x (R (low mod cpus sbi)) \/ low / cpus sbi <= x <= high / cpus sbi) h' im' rs' ->
  run_added sbi R low high (map_updated sbi (low mod cpus sbi) im' h' (s_inodes_used_count sbi))
    (set_ranges (low mod cpus sbi) rs' R).
Proof.
  intros Hok Em Hget Hfresh He. destruct (io_cpus _ _ Hok) as [_ Hcp].
  pose proof (Z.mod_pos_bound low (cpus sbi) ltac:(lia)) as Hc. split.
  - eapply map_updated_ok; eauto.
  - eapply map_updated_frame; eauto.
  - intros n. eapply map_updated_nodes; eauto.
  - intros x. rewrite (map_updated_used sbi R _ im _ fresh _ h' rs' _ He). case_decide as Hx.
    + unfold used_ino. rewrite Hx, (run_numbers _ low high x) by lia. tauto.
    + tauto.
Qed.

(** Writing back what is there changes nothing. *)
Lemma map_updated_same sbi c im h : nova_get_inode_map sbi c = Some im ->
  map_updated sbi c im h (s_inodes_used_count sbi) = with_range_nodes h sbi.
Proof.
  unfold nova_get_inode_map, map_updated, put_inode_map. destruct (c <? 0); [done|]. intros Hg.
  rewrite list_insert_id by done. by destruct sbi.
Qed.

Lemma insert_run_ok sbi R low high im ms1 ms2 qs1 qs2 :
  inodes_ok sbi R -> high mod cpus sbi = low mod cpus sbi -> high / cpus sbi < MAX_INODE ->
  nova_get_inode_map sbi (low mod cpus sbi) = Some im -> R (low mod cpus sbi) = qs1 ++ qs2 ->
  inorder (inode_inuse_tree im) = ms1 ++ ms2 -> holds (range_nodes sbi) ms1 qs1 -> holds (range_nodes sbi) ms2 qs2 ->
  qs1 <> [] -> ranges_ok (qs1 ++ RangeNode (low / cpus sbi) (high / cpus sbi) :: qs2) ->
  kmem_cache_alloc (range_nodes sbi) <> None ->
  exists sbi' R', insert_run slab_garbage sbi (low mod cpus sbi) (low / cpus sbi) (high / cpus sbi) = Some (0, sbi') /\
    run_added sbi R low high sbi' R'.
Proof.
  intros Hok Em Hlim Hget ER En H1 H2 Hne Hrs Hslab. destruct (io_cpus _ _ Hok) as [Hlen Hcp].
  pose proof (Z.mod_pos_bound low (cpus sbi) ltac:(lia)) as Hc. set (c := low mod cpus sbi) in *.
  pose proof (io_map _ _ Hok _ _ Hc Hget) as Him. rewrite ER in Him. unfold insert_run, nova_alloc_range_node.
  destruct (kmem_cache_alloc (range_nodes sbi)) as [cn|] eqn:Ea; [|done].
  pose proof (kmem_cache_alloc_fresh _ _ Ea) as Hfr. rewrite insert_insert_eq.
  destruct (map_new _ _ _ _ _ _ _ cn _ _ Him En H1 H2 Hfr Hne Hlim Hrs) as (t' & E & Hedit).
  unfold nova_insert_inodetree.
  change (nova_get_inode_map (with_range_nodes ?h sbi) c) with (nova_get_inode_map sbi c).
  rewrite Hget. simpl. rewrite E. simpl. rewrite <- ER in Hedit. set (h1 := <[cn := _]> (range_nodes sbi)) in *.
  assert (nova_get_inode_map (put_inode_map (with_range_nodes h1 sbi) c
            (with_inode_inuse_tree t' im)) c = Some (with_inode_inuse_tree t' im)) as ->.
  { unfold nova_get_inode_map. simpl. rewrite (proj2 (Z.ltb_ge c 0)) by lia. apply list_lookup_insert_eq. lia. }
  simpl. eexists _, _. split; [|by eapply (run_added_intro sbi R low high im (Some cn)); eauto; intros n [= <-]].
  unfold put_inode_map, map_updated. simpl. rewrite list_insert_insert_eq. by destruct sbi.
Qed.

(** The range of one node grows by the run. *)
Lemma run_joins sbi R low high im i ms1 ms2 qs1 ri qs2 f :
  inodes_ok sbi R -> high mod cpus sbi = low mod cpus sbi -> nova_get_inode_map sbi (low mod cpus sbi) = Some im ->
  node_at (range_nodes sbi) (inode_inuse_tree im) (R (low mod cpus sbi)) i ms1 ms2 qs1 ri qs2 ->
  wf_range (f ri) -> Forall (fun y => before y (f ri)) qs1 -> Forall (before (f ri)) qs2 ->
  range_high (f ri) < MAX_INODE -> (qs1 = [] -> range_low (f ri) = range_low ri /\ range_high ri <= range_high (f ri)) ->
  (forall x, in_range x (f ri) <-> in_range x ri \/ low / cpus sbi <= x <= high / cpus sbi) ->
  exists R', run_added sbi R low high (with_range_nodes (alter f i (range_nodes sbi)) sbi) R'.
Proof.
  intros Hok Em Hget Hat Hw Hb1 Hb2 Hlim Hbase Hin. destruct (io_cpus _ _ Hok) as [Hlen Hcp].
  pose proof (Z.mod_pos_bound low (cpus sbi) ltac:(lia)) as Hc.
  pose proof (io_map _ _ Hok _ _ Hc Hget) as Him. pose proof Him as [Ht _ _ Hb _].
  pose proof Hat as [_ Er _ _ _]. rewrite Er in Hb. pose proof (tree_ok_ranges _ _ _ Ht) as Hrs.
  rewrite Er in Hrs. apply ranges_ok_mid in Hrs as (Hq1 & Hq2 & _).
  eexists. rewrite <- (map_updated_same sbi (low mod cpus sbi) im) by done.
  eapply (run_added_intro _ _ _ _ im None); try done.
  eapply (map_replace _ _ _ _ _ ms1 ms2 qs1 ri qs2 f); eauto.
  - by apply ranges_ok_mid.
  - intros ->. destruct Hb as (r & rest & Eb & ? & ?). injection Eb as <- _. destruct (Hbase eq_refl). lia.
  - intros x. rewrite Er, !in_ranges_app, !in_ranges_cons, Hin. tauto.
Qed.

(** A run of unused numbers is entered, whether it joins a range before or behind it, both
    or none. *)
Lemma failure_insert_ok sbi R low high :
  inodes_ok sbi R -> 0 <= low <= high -> high mod cpus sbi = low mod cpus sbi -> high / cpus sbi < MAX_INODE ->
  (forall x, low <= x <= high -> x mod cpus sbi = low mod cpus sbi -> ~ used_ino sbi R x) ->
  kmem_cache_alloc (range_nodes sbi) <> None ->
  exists sbi' R', nova_failure_insert_inodetree slab_garbage sbi low high = Some (0, sbi') /\
    run_added sbi R low high sbi' R'.
Proof.
  intros Hok Hle Em Hlim Hdis Hslab. destruct (io_cpus _ _ Hok) as [Hlen Hcp].
  pose proof (Z.mod_pos_bound low (cpus sbi) ltac:(lia)) as Hc.
  destruct (get_inode_map_some sbi R _ Hok Hc) as [im Hget].
  pose proof (io_map _ _ Hok _ _ Hc Hget) as Him. pose proof Him as [Ht Hf Hn Hb Hl].
  pose proof (tree_ok_ranges _ _ _ Ht) as Hrs.
  assert (0 <= low / cpus sbi <= high / cpus sbi) as Hk.
  { split; [apply Z.div_pos; lia|]. apply Z.div_le_mono; lia. }
  assert (forall k, in_ranges k (R (low mod cpus sbi)) -> ~ low / cpus sbi <= k <= high / cpus sbi) as Hd.
  { intros k Hin Hk'. destruct (ino_parts (cpus sbi) k (low mod cpus sbi) ltac:(lia) Hc) as [E1 E2].
    apply (Hdis (k * cpus sbi + low mod cpus sbi)); [|done|unfold used_ino; by rewrite E1, E2].
    apply (run_numbers (cpus sbi)); [lia|done|done|]. by rewrite E2. }
  destruct (nova_find_free_slot_ok (range_nodes sbi) (inode_inuse_tree im) _ (low / cpus sbi) (high / cpus sbi) Ht
              ltac:(lia)) as (ns1 & ns2 & rs1 & rs2 & E & Hs & Hah); [by apply disjoint_apart; auto; lia|].
  unfold nova_failure_insert_inodetree. rewrite (proj2 (Z.ltb_ge _ _)), (proj2 (Z.eqb_neq (cpus sbi) 0)), Em, Z.eqb_refl by lia.
  simpl. rewrite Hget. simpl. rewrite E. simpl.
  pose proof Hs as [En Er Hh1 Hh2 Hbl Ha].
  assert (rs1 <> []) as Hne.
  { intros ->. destruct Hb as (r & rest & Eb & E0 & _). rewrite Er in Eb. simpl in Eb. rewrite Eb in Ha.
    apply Forall_cons in Ha as [Ha _]. unfold above in Ha. lia. }
  pose proof Hrs as Hrs'. rewrite Er in Hrs'. pose proof (ranges_ok_app _ _ Hrs') as [Hrs1 Hrs2].
  pose proof (below_apart _ rs1 Hrs1 Hbl) as Bp. pose proof (above_apart _ rs2 Hrs2 Hah) as Bn.
  assert (Forall (fun y => range_high y + 1 < low / cpus sbi) rs1 -> Forall (fun y => high / cpus sbi + 1 < range_low y) rs2 ->
    exists sbi' R', insert_run slab_garbage sbi (low mod cpus sbi) (low / cpus sbi) (high / cpus sbi) = Some (0, sbi') /\
      run_added sbi R low high sbi' R') as Hnew.
  { intros B1 B2. eapply insert_run_ok; eauto. apply ranges_ok_mid. unfold wf_range, before, RANGE_LIMIT, MAX_INODE in *. simpl.
    split_and!; auto; lia. }
  destruct (holds_last_case _ _ _ Hh1) as [[-> ->]|(ms1 & p & qs1 & rp & -> & -> & Hp & Hm1)]; [done|].
  rewrite last_snoc in *. pose proof Hrs1 as (Hq1 & _ & Hwp & Hbp & _)%ranges_ok_mid.
  rewrite (joins_prev_some _ _ _ _ Hp Hwp). simpl.
  pose proof Hwp as Hwp'. unfold wf_range, RANGE_LIMIT, MAX_INODE in Hwp', Hlim.
  rewrite <- app_assoc in En, Er. simpl in En, Er.
  assert (low / cpus sbi = range_high rp + 1 -> Forall (fun y => high / cpus sbi + 1 < range_low y) rs2 ->
    exists sbi' R', (rp ← range_nodes sbi !! p; Some (0, with_range_nodes
      (set_range_high p (u64 (range_high rp + (high / cpus sbi - low / cpus sbi + 1))) (range_nodes sbi)) sbi)) = Some (0, sbi') /\
      run_added sbi R low high sbi' R') as Hleft.
  { intros Jp B2. rewrite Hp. simpl. rewrite u64_small by lia. eexists.
    destruct (run_joins sbi R low high im p ms1 ns2 qs1 rp rs2
      (fun r => RangeNode (range_low r) (range_high rp + (high / cpus sbi - low / cpus sbi + 1)))) as [R' HR]; eauto;
      unfold wf_range, before, in_range, RANGE_LIMIT, MAX_INODE in *; simpl in *; auto; try lia.
    - by split.
    - forall_lia B2. }
  destruct (holds_head_case _ _ _ Hh2) as [[-> ->]|(n & ms2 & rn & qs2 & -> & -> & Hn2 & Hm2)]; simpl.
  - destruct (low / cpus sbi =? range_high rp + 1) eqn:Jp; bool_hyps; [by apply Hleft|].
    apply Hnew; [|done]. apply Bp. intros x. rewrite last_snoc. intros [= <-]. lia.
  - rewrite (joins_next_some _ _ _ _ Hn2) by (unfold RANGE_LIMIT; lia). simpl.
    pose proof Hrs2 as (_ & Hq2 & Hwn & _ & Hbn)%(ranges_ok_mid []).
    destruct (low / cpus sbi =? range_high rp + 1) eqn:Jp, (high / cpus sbi + 1 =? range_low rn) eqn:Jn; bool_hyps.
    + rewrite Hn2. simpl. rewrite Er in Him.
      eexists _, _. split; [|eapply (run_added_intro sbi R low high im None); try done; rewrite Er; by eapply map_fill].
      unfold map_updated. by destruct sbi.
    + apply Hleft; [done|]. apply Bn. intros x [= <-]. lia.
    + rewrite Hn2. simpl. unfold wf_range, RANGE_LIMIT in Hwn. rewrite u64_small by lia. eexists.
      assert (Forall (fun y => range_high y + 1 < low / cpus sbi) (qs1 ++ [rp])) as B1 by (apply Bp; intros x; rewrite last_snoc; intros [= <-]; lia).
      destruct (run_joins sbi R low high im n (ms1 ++ [p]) ms2 (qs1 ++ [rp]) rn qs2
        (fun r => RangeNode (range_low rn - (high / cpus sbi - low / cpus sbi + 1)) (range_high r))) as [R' HR]; eauto;
        unfold wf_range, before, in_range, RANGE_LIMIT, MAX_INODE in *; simpl in *; auto; try lia.
      * split; rewrite <- ?app_assoc; auto.
      * forall_lia B1.
      * rewrite Er in Hl. apply Forall_app in Hl as [_ Hl]. inversion_clear Hl as [|? ? _ Hl2]. by inversion_clear Hl2.
      * by intros [? ?]%app_eq_nil.
    + apply Hnew; [apply Bp; intros x; rewrite last_snoc|apply Bn; intros x]; intros [= <-]; lia.
Qed.

(** A run whose first number is in use is refused. *)
Lemma failure_insert_refused sbi R low high :
  inodes_ok sbi R -> 0 <= low <= high -> high mod cpus sbi = low mod cpus sbi -> used_ino sbi R low ->
  nova_failure_insert_inodetree slab_garbage sbi low high = Some (- EINVAL, sbi).
Proof.
  intros Hok Hle Em Hin. destruct (io_cpus _ _ Hok) as [Hlen Hcp].
  pose proof (Z.mod_pos_bound low (cpus sbi) ltac:(lia)) as Hc.
  destruct (get_inode_map_some sbi R _ Hok Hc) as [im Hget]. pose proof (io_map _ _ Hok _ _ Hc Hget) as [Ht _ _ _ _].
  unfold nova_failure_insert_inodetree. rewrite (proj2 (Z.ltb_ge _ _)), (proj2 (Z.eqb_neq (cpus sbi) 0)), Em, Z.eqb_refl by lia.
  simpl. rewrite Hget. simpl. by rewrite (nova_find_free_slot_covered _ _ _ _ _ Ht Hin).
Qed.
End specs.

(** ** Scanning a page of inodes *)

(** What a scan leaves alone: everything but the inode maps; the nodes of others stay theirs. *)
Record scan_kept (sbi sbi' : nova_sb_info) : Prop := {
  sk_virt : virt_addr sbi' = virt_addr sbi;
  sk_cpus : cpus sbi' = cpus sbi;
  sk_blocks : num_blocks sbi' = num_blocks sbi;
  sk_per : per_list_blocks sbi' = per_list_blocks sbi;
  sk_lists : free_lists sbi' = free_lists sbi /\ shared_free_list sbi' = shared_free_list sbi;
  sk_tables : inode_page_mapping_tables sbi' = inode_page_mapping_tables sbi /\
    inode_page_mapping_table_locks sbi' = inode_page_mapping_table_locks sbi;
  sk_nvm : nvm sbi' = nvm sbi;
  sk_nodes n r : range_nodes sbi !! n = Some r -> ~ inode_node sbi n ->
    range_nodes sbi' !! n = Some r /\ ~ inode_node sbi' n;
}.

#[local] Instance scan_kept_preorder : PreOrder scan_kept.
Proof.
  split; [by split|]. intros s1 s2 s3 [] []. split; try (intuition congruence).
  intros n r Hr Hn. destruct (sk_nodes0 n r Hr Hn) as [Hr2 Hn2]. by apply sk_nodes1.
Qed.

Lemma run_added_kept sbi R low high sbi' R' : run_added sbi R low high sbi' R' -> scan_kept sbi sbi'.
Proof.
  intros [_ [] Hn _]. split; try done. intros n r Hr Hni. split; [by auto|]. intros [?|E]%Hn; [done|]. by rewrite E in Hr.
Qed.

(** The next number of the residue class. *)
Lemma residue_gap c x y : 0 < c -> x mod c = y mod c -> x < y -> x + c <= y.
Proof.
  intros Hc E Hlt. pose proof (Z.div_mod x c). pose proof (Z.div_mod y c).
  assert (x / c < y / c) by (apply Z.nle_gt; intros ?; nia). nia.
Qed.

Section page.
Context `{RbTreeLaws} (slab_garbage : nova_range_node).
Hypothesis slab_serves : forall h, kmem_cache_alloc h <> None.

(** The page at offset [curr] holds the inodes [base], [base + cpus], ..., in order, [n] of
    them; none of those that are valid is in use yet. *)
Context (sbi0 : nova_sb_info) (R0 : Z -> list nova_range_node) (mon : monitor) (n : nat) (curr base : Z).
Hypothesis Hok0 : inodes_ok sbi0 R0.
Let c := cpus sbi0.
Let slot_pi (i : Z) : Z := nova_get_block (virt_addr sbi0) (curr ⊞ i * NOVA_INODE_SIZE).
Hypothesis Hcurr : 0 < curr < 2 ^ 63.
Hypothesis Hbase : 0 <= base /\ base + Z.of_nat n * c < MAX_INODE * c.

(** Slot [i] holds a valid inode. *)
Definition valid_slot (i : Z) : Prop := Pi.valid (nvm sbi0) (slot_pi i) <> 0.

Hypothesis Hslots : forall i, 0 <= i < Z.of_nat n -> valid_slot i ->
  Pi.nova_ino (nvm sbi0) (slot_pi i) = base + i * c /\ 0 < base + i * c /\ ~ used_ino sbi0 R0 (base + i * c).

(** Walking the log of a valid inode does not fault; what the walks keep of the header, the
    ring and the bitmap is [G]. *)
Context (G : nova_inode_info_header -> task_ring -> scan_bitmap -> Prop).
Hypothesis Hwalk : forall i sbi sih ring bm, 0 <= i < Z.of_nat n -> valid_slot i -> scan_kept sbi0 sbi -> G sih ring bm ->
  exists sih' ring' bm', G sih' ring' bm' /\
    nova_recover_inode_pages ring (curr ⊞ i * NOVA_INODE_SIZE) bm (World sbi mon sih) = Some ((ring', bm'), World sbi mon sih').

(** The numbers found in the slots before [i]. *)
Definition found (i x : Z) : Prop := exists k, 0 <= k < i /\ valid_slot k /\ x = base + k * c.

(** The run that is not entered yet. *)
Definition in_run (low high x : Z) : Prop := low <> 0 /\ low <= x <= high /\ x mod c = base mod c.

Record scanned (i : Z) (sbi : nova_sb_info) (R : Z -> list nova_range_node) (low high : Z) : Prop := {
  sd_ok : inodes_ok sbi R;
  sd_kept : scan_kept sbi0 sbi;
  sd_run : low = 0 \/ (0 < low <= high /\ high < base + i * c /\ low mod c = base mod c /\ high mod c = base mod c);
  sd_set x : used_ino sbi R x \/ in_run low high x <-> used_ino sbi0 R0 x \/ found i x;
  sd_apart x : in_run low high x -> ~ used_ino sbi R x;
}.

Lemma found_next i x : 0 <= i -> found (i + 1) x <-> found i x \/ (valid_slot i /\ x = base + i * c).
Proof.
  intros Hi. split.
  - intros (k & Hk & Hv & ->). destruct (decide (k = i)) as [->|]; [by right|]. left. exists k. split_and!; auto; lia.
  - intros [(k & Hk & Hv & ->)|[Hv ->]]; [exists k|exists i]; split_and!; auto; lia.
Qed.

(** The run is entered. *)
Lemma enter_run i sbi R low high : (i <= Z.of_nat n) -> low <> 0 -> scanned i sbi R low high ->
  exists sbi' R', nova_failure_insert_inodetree slab_garbage sbi low high = Some (0, sbi') /\
    inodes_ok sbi' R' /\ scan_kept sbi0 sbi' /\ (forall x, used_ino sbi' R' x <-> used_ino sbi0 R0 x \/ found i x).
Proof.
  intros Hi Hl [Hok Hk Hrun Hset Hap]. destruct Hrun as [?|(Hlh & Hb & El & Eh)]; [done|].
  destruct (io_cpus _ _ Hok0) as [_ Hc]. pose proof (sk_cpus _ _ Hk) as Ec. fold c in Ec, Hc.
  destruct (failure_insert_ok slab_garbage sbi R low high) as (sbi' & R' & E & Ha); auto; rewrite ?Ec; try lia; try congruence.
  - apply Z.div_lt_upper_bound; [lia|]. nia.
  - intros x Hx Em. apply Hap. split_and!; try lia; congruence.
  - exists sbi', R'. split_and!; [done|apply Ha|by etrans; [|eapply run_added_kept]|].
    intros x. rewrite (ra_set _ _ _ _ _ _ Ha), Ec, <- Hset. unfold in_run. rewrite El. intuition lia.
Qed.

(** A valid inode extends the run or begins a new one. *)
Lemma update_ok i sbi R low high : 0 <= i < Z.of_nat n -> valid_slot i -> scanned i sbi R low high ->
  exists low' high' sbi' R', nova_failure_update_inodetree slab_garbage sbi (slot_pi i) low high = Some (low', high', sbi') /\
    scanned (i + 1) sbi' R' low' high'.
Proof.
  intros Hi Hv Hs. pose proof Hs as [Hok Hk Hrun Hset Hap]. destruct (Hslots i Hi Hv) as (Eino & Hpos & Hun).
  destruct (io_cpus _ _ Hok0) as [_ Hc]. pose proof (sk_cpus _ _ Hk) as Ec. fold c in Ec, Hc.
  assert ((base + i * c) mod c = base mod c) as Em by (apply Z.mod_add; lia).
  assert (forall sbi' R', inodes_ok sbi' R' -> scan_kept sbi0 sbi' ->
    (forall x, used_ino sbi' R' x <-> used_ino sbi0 R0 x \/ found i x) -> scanned (i + 1) sbi' R' (base + i * c) (base + i * c)) as Hfresh.
  { intros sbi' R' Hok' Hk' Hset'. split; auto; [right; split_and!; auto; nia| |].
    - intros x. rewrite Hset', found_next by lia. unfold in_run. split.
      + intros [?|(_ & Hx & _)]; [tauto|]. right. right. split; [done|lia].
      + intros [?|[?|[_ ->]]]; [tauto|tauto|]. right. split_and!; auto; lia.
    - intros x (_ & Hx & _). assert (x = base + i * c) as -> by lia. rewrite Hset'. intros [?|(k & Hk2 & _ & E)]; [done|nia]. }
  unfold nova_failure_update_inodetree. rewrite (sk_nvm _ _ Hk), Eino, Ec.
  destruct (low =? 0) eqn:E0; bool_hyps.
  - subst low. exists (base + i * c), (base + i * c), sbi, R. split; [done|]. apply Hfresh; auto. intros x. rewrite <- Hset. unfold in_run. tauto.
  - destruct Hrun as [?|(Hlh & Hb & El & Eh)]; [done|]. unfold MAX_INODE in Hbase. fold c in Hbase. rewrite u64_small by nia.
    destruct (base + i * c =? high + c) eqn:E1; bool_hyps.
    + exists low, (base + i * c), sbi, R. split; [done|]. split; auto; [right; split_and!; auto; lia| |].
      * intros x. rewrite found_next by lia.
        assert (in_run low (base + i * c) x <-> in_run low high x \/ x = base + i * c) as ->.
        { unfold in_run. split.
          - intros (? & ? & Ex). destruct (decide (x <= high)); [left; split_and!; auto; lia|right].
            pose proof (residue_gap c high x ltac:(lia) ltac:(congruence) ltac:(lia)). lia.
          - intros [(? & ? & ?)| ->]; split_and!; auto; lia. }
        specialize (Hset x). tauto.
      * intros x (? & ? & Ex). destruct (decide (x <= high)); [apply Hap; split_and!; auto; lia|].
        pose proof (residue_gap c high x ltac:(lia) ltac:(congruence) ltac:(lia)).
        assert (x = base + i * c) as -> by lia. intros Hx. destruct (proj1 (Hset _) (or_introl Hx)) as [?|(k & ? & _ & ?)]; [done|nia].
    + destruct (enter_run i sbi R low high ltac:(lia) E0 Hs) as (sbi' & R' & -> & Hok' & Hk' & Hset'). simpl.
      do 4 eexists. split; [done|]. by apply Hfresh.
Qed.

Lemma slot_offset i : 0 <= i < Z.of_nat n -> (curr ⊞ i * NOVA_INODE_SIZE) <> 0.
Proof.
  intros Hi. destruct (io_cpus _ _ Hok0) as [_ Hc]. fold c in Hc. unfold NOVA_INODE_SIZE, MAX_INODE in *. fold c in Hbase.
  assert (Z.of_nat n < 2147483648) by nia. rewrite u64_small by lia. lia.
Qed.

Lemma scan_slots_ok m : forall i sbi R sih sc,
  0 <= i -> i + Z.of_nat m = Z.of_nat n -> scanned i sbi R (sc_low sc) (sc_high sc) -> G sih (sc_ring sc) (sc_bm sc) ->
  exists sc' sbi' R' sih', scan_slots slab_garbage m curr i sc (World sbi mon sih) = Some (sc', World sbi' mon sih') /\
    scanned (Z.of_nat n) sbi' R' (sc_low sc') (sc_high sc') /\ G sih' (sc_ring sc') (sc_bm sc').
Proof.
  induction m as [|m IH]; intros i sbi R sih sc Hi Hm Hs HG; simpl.
  - replace i with (Z.of_nat n) in Hs by lia. by exists sc, sbi, R, sih.
  - assert (exists sc' sbi' R' sih', scan_slot slab_garbage curr i sc (World sbi mon sih) = Some (sc', World sbi' mon sih') /\
      scanned (i + 1) sbi' R' (sc_low sc') (sc_high sc') /\ G sih' (sc_ring sc') (sc_bm sc')) as (sc' & sbi' & R' & sih' & E & Hs' & HG').
    { pose proof (slot_offset i ltac:(lia)) as Hne. pose proof (sd_kept _ _ _ _ _ Hs) as Hk. unfold scan_slot.
      assert (get_block (curr ⊞ i * NOVA_INODE_SIZE) (World sbi mon sih) = Some (slot_pi i, World sbi mon sih)) as Hg.
      { unfold get_block. rewrite (proj2 (Z.eqb_neq _ _) Hne). simpl. by rewrite (sk_virt _ _ Hk). }
      fstep Hg. frun. rewrite (sk_nvm _ _ Hk). destruct (_ =? 0) eqn:Ev; bool_hyps.
      - exists sc, sbi, R, sih. split_and!; auto. destruct Hs as [? ? Hrun Hset Hap]. split; auto.
        + destruct Hrun as [?|?]; [by left|right]. destruct (io_cpus _ _ Hok0) as [_ Hc]. fold c in Hc. intuition nia.
        + intros x. rewrite Hset, found_next by lia. unfold valid_slot. tauto.
      - destruct (Hwalk i sbi sih (sc_ring sc) (sc_bm sc)) as (sih1 & ring1 & bm1 & HG1 & E1); auto; [lia|].
        fstep E1. destruct (update_ok i sbi R _ _ ltac:(lia) Ev Hs) as (low' & high' & sbi' & R' & E2 & Hs').
        erewrite fs_step; [|by apply on_sbi_run; cbn [w_sbi]; rewrite E2]. frun.
        do 4 eexists. split; [done|]. done. }
    fstep E. apply (IH (i + 1) sbi' R' sih' sc'); auto; lia.
Qed.

(** Scanning a page of inodes enters exactly the numbers of its valid inodes into the
    trees of numbers in use, and changes nothing else of the file system. *)
Theorem scan_page_exact ring bm bm1 max_size sih low high :
  set_bits_4K 512 (Z.shiftr curr PAGE_SHIFT) bm = Some bm1 -> G sih ring bm1 ->
  exists sc sbi R sih', scan_page slab_garbage n curr (Scan ring bm low high max_size) (World sbi0 mon sih) = Some (sc, World sbi mon sih') /\
    G sih' (sc_ring sc) (sc_bm sc) /\ inodes_ok sbi R /\ scan_kept sbi0 sbi /\
    (forall x, used_ino sbi R x <->
       used_ino sbi0 R0 x \/ exists i, 0 <= i < Z.of_nat n /\ valid_slot i /\ x = base + i * cpus sbi0).
Proof.
  intros Em HG. unfold scan_page. simpl sc_bm. rewrite Em. simpl fs_deref. frun.
  destruct (scan_slots_ok n 0 sbi0 R0 sih (Scan ring bm1 0 0 max_size)) as (sc & sbi & R & sih' & E & Hs & HG'); auto; try lia.
  { split; simpl; auto; [by reflexivity| |].
    - intros x. unfold in_run. split; [tauto|]. intros [?|(k & ? & _)]; [tauto|lia].
    - by intros x (? & _). }
  fstep E. destruct (sc_low sc =? 0) eqn:E0; bool_hyps; simpl.
  - exists sc, sbi, R, sih'. split; [done|]. pose proof Hs as [Hok Hk _ Hset _]. split_and!; auto.
    intros x. change (used_ino sbi R x <-> used_ino sbi0 R0 x \/ found (Z.of_nat n) x). rewrite <- (Hset x).
    unfold in_run. tauto.
  - assert (sc_high sc <> 0) as Hh by (destruct (sd_run _ _ _ _ _ Hs) as [?|?]; [done|lia]).
    rewrite (proj2 (Z.eqb_neq _ _) Hh). simpl.
    destruct (enter_run (Z.of_nat n) sbi R _ _ ltac:(lia) E0 Hs) as (sbi' & R' & E' & Hok' & Hk' & Hset').
    erewrite fs_step; [|by apply on_sbi_run]. by exists sc, sbi', R', sih'.
Qed.
End page.

(** ** A page with three inodes *)

Module RecoveryDemo.
Import RbList.RbList InodeMap.InodeDemo.

(** Page 5 holds the inodes 16, 18, ... of CPU 0; 18, 20 and 26 are valid files without a log. *)
Definition rd_slot (i : Z) : Z := nova_get_block (virt_addr fs) (4096 * 5 + i * NOVA_INODE_SIZE).
Definition rd_file (i : Z) (m : memory) : memory :=
  Pi.set_i_mode (Pi.set_valid (Pi.set_nova_ino m (rd_slot i) (16 + i * 2)) (rd_slot i) 1) (rd_slot i) (S_IFREG + 420).
Definition rd_sbi : nova_sb_info := with_nvm (rd_file 1 (rd_file 2 (rd_file 5 (fun _ => 0)))) fs.
Definition rd_bm : scan_bitmap := ScanBitmap (ScanBm 80 (replicate 640 false)) (ScanBm 0 []) (ScanBm 0 []).

Definition rd_sih : nova_inode_info_header := InodeHeader ∅ ∅ 0 0 0 0 0 0 0 0 0 0 0.

Lemma rd_ok : inodes_ok rd_sbi R.
Proof. destruct imap_fs_ok. by split. Qed.

Lemma rd_valid i : 0 <= i < 8 -> valid_slot rd_sbi (4096 * 5) i -> i = 1 \/ i = 2 \/ i = 5.
Proof.
  intros Hi Hv. unfold valid_slot in Hv.
  assert (forallb (fun i => (Pi.valid (nvm rd_sbi) (nova_get_block (virt_addr rd_sbi) (u64 (4096 * 5 + i * NOVA_INODE_SIZE))) =? 0) ||
    (i =? 1) || (i =? 2) || (i =? 5)) [0; 1; 2; 3; 4; 5; 6; 7] = true) as Hf by (vm_compute; reflexivity).
  rewrite forallb_forall in Hf. specialize (Hf i ltac:(cbn; lia)). apply Z.eqb_neq in Hv. rewrite Hv in Hf. lia.
Qed.

Lemma rd_slots i : 0 <= i < 8 -> valid_slot rd_sbi (4096 * 5) i ->
  Pi.nova_ino (nvm rd_sbi) (nova_get_block (virt_addr rd_sbi) (u64 (4096 * 5 + i * NOVA_INODE_SIZE))) = 16 + i * cpus rd_sbi /\
  0 < 16 + i * cpus rd_sbi /\ ~ used_ino rd_sbi R (16 + i * cpus rd_sbi) /\
  Pi.log_head (nvm rd_sbi) (nova_get_block (virt_addr rd_sbi) (u64 (4096 * 5 + i * NOVA_INODE_SIZE))) = 0.
Proof.
  intros Hi Hv. assert (i = 1 \/ i = 2 \/ i = 5) as [-> | [-> | ->]] by (by apply rd_valid).
  all: split_and!; try (vm_compute; reflexivity).
  all: intros Hu; unfold used_ino in Hu; apply in_ranges_cons in Hu as [Hu|Hu%in_ranges_nil]; [|done]; revert Hu; vm_compute; intuition congruence.
Qed.

Lemma rd_recover sbi mon sih ring bm i : 0 <= i < 8 -> valid_slot rd_sbi (4096 * 5) i -> scan_kept rd_sbi sbi ->
  exists sih' ring' bm', nova_recover_inode_pages ring (u64 (4096 * 5 + i * NOVA_INODE_SIZE)) bm (World sbi mon sih) =
    Some ((ring', bm'), World sbi mon sih').
Proof.
  intros Hi Hv Hk. assert (i = 1 \/ i = 2 \/ i = 5) as Hc by (by apply rd_valid).
  assert (get_block (u64 (4096 * 5 + i * NOVA_INODE_SIZE)) (World sbi mon sih) = Some (rd_slot i, World sbi mon sih)) as Hg.
  { unfold get_block. simpl w_sbi. rewrite (sk_virt _ _ Hk). destruct Hc as [-> | [-> | ->]]; reflexivity. }
  unfold nova_recover_inode_pages. fstep Hg. frun. rewrite (sk_nvm _ _ Hk).
  assert (Pi.valid (nvm rd_sbi) (rd_slot i) = 1 /\ Pi.i_mode (nvm rd_sbi) (rd_slot i) = 33188 /\ Pi.i_blk_type (nvm rd_sbi) (rd_slot i) = 0 /\
    Pi.log_head (nvm rd_sbi) (rd_slot i) = 0 /\ Pi.log_tail (nvm rd_sbi) (rd_slot i) = 0) as (E1 & E2 & E3 & E4 & E5)
    by (destruct Hc as [-> | [-> | ->]]; vm_compute; done).
  rewrite E1, E2. cbv iota. change (1 =? 0) with false. cbv iota. frun. change (Z.land 33188 S_IFMT =? S_IFDIR) with false. cbv iota.
  unfold nova_traverse_file_inode_log, traverse_pass. rewrite (sk_nvm _ _ Hk), E3, E4, E5. eauto.
Qed.

Lemma scan_page_exact_witness : exists sc sbi R' sih',
  scan_page garbage 8 (4096 * 5) (Scan (TaskRing [] 0 ∅) rd_bm 0 0 0) (World rd_sbi initial_monitor rd_sih) = Some (sc, World sbi initial_monitor sih') /\
  (forall x, used_ino sbi R' x <-> used_ino rd_sbi R x \/ exists i, 0 <= i < Z.of_nat 8 /\ valid_slot rd_sbi (4096 * 5) i /\ x = 16 + i * cpus rd_sbi).
Proof.
  assert (exists bm1, set_bits_4K 512 (Z.shiftr (4096 * 5) PAGE_SHIFT) rd_bm = Some bm1) as [bm1 Eb] by (vm_compute; eauto).
  destruct (scan_page_exact garbage imap_slab rd_sbi R initial_monitor 8 (4096 * 5) 16 rd_ok) with (G := fun (_ : nova_inode_info_header) (_ : task_ring) (_ : scan_bitmap) => True)
    (ring := TaskRing [] 0 ∅) (bm := rd_bm) (bm1 := bm1) (max_size := 0) (sih := rd_sih) (low := 0) (high := 0) as (sc & sbi & R' & sih' & E & _ & _ & _ & Hset).
  - lia.
  - vm_compute. split; congruence.
  - intros i Hi Hv. destruct (rd_slots i Hi Hv) as (A & B & C & _). split; [exact A|split; [exact B|exact C]].
  - intros i sbi sih0 ring bm Hi Hv Hk _. destruct (rd_recover sbi initial_monitor sih0 ring bm i Hi Hv Hk) as (sih' & ring' & bm' & E).
    exists sih', ring', bm'. split; [exact I|exact E].
  - exact Eb.
  - exact I.
  - exists sc, sbi, R', sih'. split; [exact E|]. exact Hset.
Defined.
End RecoveryDemo.
