(* ===== verification/Mount.v ===== *)
(** * Creating and mounting a file system (super.c)

    A mount with the option [init] writes a new file system: the super block and its copy,
    the free lists, the journals, the inode tables and the root directory.  One without it
    checks the super block, recovers the journals and calls the recovery.  Unmounting saves
    the free ranges and the inode numbers in logs. *)

From S2P Require Import Prelude Layout RangeTree RbList State Balloc BallocFacts BallocSpec.
From S2P Require Import BallocInit BallocTheorems TreeEdits InodeMap LogBlocks InodeTable.
From S2P Require Import Monitor Histogram HashTable Records KnapSack Detect WriteCount Migrate Journal.
From S2P Require Import LogPages World InodeLog FastGc LogAppend BlockMap Shutdown Crawl FileTree WearBudget FileData Directory Attr.
From S2P Require Import Vfs Names SuperBlock MountOptions Recovery.
#[local] Open Scope word_scope.

Definition LONG_MAX : Z := 9223372036854775807.
Definition MS_NOSEC : Z := 268435456.

(** ** Creating a file system *)

(** [s_blocksize_bits] and [s_blocksize]; [fls] counts from 1. *)
Definition nova_set_blocksize (size : Z) : Z * Z :=
  let bits := (if u32 size =? 0 then 0 else Z.log2 (u32 size) + 1) - 1 in (bits, Z.shiftl 1 bits).

(** [num_inodes] of [struct nova_sb_info], which nothing sets. *)
Definition nova_check_size (num_inodes s_blocksize_bits size : Z) : bool :=
  let minimum_size := Z.shiftl 2 s_blocksize_bits in
  let num_blocks := if 0 <? num_inodes then Z.shiftr num_inodes (u32 (s_blocksize_bits - NOVA_INODE_BITS)) ⊞ 1 else 1 in
  let minimum_size := minimum_size ⊞ u64 (Z.shiftl num_blocks s_blocksize_bits) in
  negb (size <? minimum_size).

(** The blocks the special inodes need. *)
Definition required_blocks (blocksize : Z) : Z := (NOVA_SB_SIZE * 4 + blocksize - 1) / blocksize.

(** The first blocks are cleared and the super block is written. *)
Definition clear_super (mem : memory) (super reserved_blocks blocksize size : Z) : memory :=
  let mem := memset0 mem super (u32 (reserved_blocks * blocksize)) in
  let mem := Sb.set_s_size mem super size in
  let mem := Sb.set_s_blocksize mem super blocksize in
  Sb.set_s_magic mem super NOVA_SUPER_MAGIC.

(** The fields of the root inode. *)
Definition init_root (mem : memory) (root_i mode uid gid blocksize seconds : Z) : memory :=
  let mem := Pi.set_i_mode mem root_i (Z.lor mode S_IFDIR) in
  let mem := Pi.set_i_uid mem root_i uid in
  let mem := Pi.set_i_gid mem root_i gid in
  let mem := Pi.set_i_links_count mem root_i 2 in
  let mem := Pi.set_i_blk_type mem root_i NOVA_BLOCK_TYPE_4K in
  let mem := Pi.set_i_flags mem root_i 0 in
  let mem := Pi.set_i_blocks mem root_i 1 in
  let mem := Pi.set_i_size mem root_i blocksize in
  let mem := Pi.set_i_ctime mem root_i seconds in
  let mem := Pi.set_i_mtime mem root_i seconds in
  let mem := Pi.set_i_atime mem root_i seconds in
  let mem := Pi.set_nova_ino mem root_i NOVA_ROOT_INO in
  Pi.set_valid mem root_i 1.

Section operations.
Context `{RbTree} (slab_garbage : nova_range_node) (smp : Z) (jiffies_to_msecs : Z -> Z) (e : env).
Context (garbage : Z) (radix_nomem : Z -> bool).
Context (alloc_inode : option (vfs_inode * nova_inode_info_header)).
Context (crc16 : Z -> list Z -> Z) (seconds : Z).

(** The memory a mount asks for: [struct nova_sb_info], the inode maps, the page of zeros,
    the free lists, the locks of the journals, the mapping tables, the bitmaps and the rings of
    the recovery, the last bitmap, and the root entry. *)
Record allocations := Allocations {
  ok_sbi : bool;
  ok_maps : bool;
  ok_page : bool;
  ok_lists : bool;
  ok_journals : bool;
  ok_tables : option (Z -> bool);
  ok_bm : Z -> bool;
  ok_rings : bool;
  ok_final : bool;
  ok_root : bool;
}.
Context (alloc : allocations).

(** The address of an inode in the first block. *)
Definition basic_inode (ino : Z) : fs Z :=
  sbi ← get_sbi;
  fs_deref (nova_get_inode_by_ino (virt_addr sbi) ino).

(** Which step of [nova_init] has failed is the same error for all. *)
Definition init_step (c : fs Z) (k : fs (Z + Z)) : fs (Z + Z) :=
  ret ← c; if ret <? 0 then mret (inl (- EINVAL)) else k.

(** The end of [nova_init]: the special inodes, the checksum, the root inode.  The result of
    [nova_append_dir_init_entries] is not looked at. *)
Definition init_inodes (nova_base_address mode uid gid blocksize : Z) : fs (Z + Z) :=
  pi ← basic_inode NOVA_BLOCKNODE_INO;
  _ ← put_nvm (fun mem => Pi.set_nova_ino mem pi NOVA_BLOCKNODE_INO);
  pi ← basic_inode NOVA_INODELIST_INO;
  _ ← put_nvm (fun mem => Pi.set_nova_ino mem pi NOVA_INODELIST_INO);
  sbi ← get_sbi;
  _ ← put_nvm (fun mem => nova_sync_super crc16 mem (virt_addr sbi) seconds);
  root_i ← basic_inode NOVA_ROOT_INO;
  _ ← put_nvm (fun mem => init_root mem root_i mode uid gid blocksize seconds);
  _ ← nova_append_dir_init_entries smp jiffies_to_msecs e garbage nova_base_address root_i NOVA_ROOT_INO NOVA_ROOT_INO;
  mret (inr root_i).

(** [nova_init]: an error or the root inode.  [fake_pi] is the inode on the stack of the
    initialisation of the journals. *)
Definition nova_init (size num_inodes fake_pi nova_base_address mode uid gid : Z) : fs (Z + Z) :=
  _ ← on_sbi (fun sbi => Some (tt, with_num_blocks (Z.shiftr size PAGE_SHIFT) sbi));
  sbi ← get_sbi;
  if virt_addr sbi =? 0 then mret (inl (- EINVAL))
  else
    let '(s_blocksize_bits, blocksize) := nova_set_blocksize NOVA_DEF_BLOCK_SIZE_4K in
    if negb (nova_check_size num_inodes s_blocksize_bits size) then mret (inl (- EINVAL))
    else if reserved_blocks sbi <? required_blocks blocksize then mret (inl (- EINVAL))
    else
      _ ← put_nvm (fun mem => clear_super mem (virt_addr sbi) (reserved_blocks sbi) blocksize size);
      _ ← on_sbi (fun sbi => sbi ← nova_init_blockmap slab_garbage sbi 0; Some (tt, sbi));
      init_step (on_sbi (fun sbi => nova_lite_journal_hard_init smp sbi fake_pi (ok_journals alloc)))
        (init_step (on_sbi (fun sbi => nova_init_inode_inuse_list slab_garbage sbi))
          (init_step (on_sbi (fun sbi => nova_init_inode_table smp sbi (ok_tables alloc) garbage))
            (init_inodes nova_base_address mode uid gid blocksize))).

(** ** Mounting *)

Context (match_token : list Z -> opt_token * list Z) (match_int match_octal : list Z -> option Z).
Context (make_kuid make_kgid : Z -> Z).

(** [struct nova_sb_info] as [kzalloc] gives it: the device and the slab are not in it. *)
Definition zeroed_sbi (h : node_heap) (mem : memory) : nova_sb_info :=
  SbInfo 0 0 0 0 0 [] 0 [] [] [] 0 empty_free_list h mem.

Definition with_device (v : Z) (sbi : nova_sb_info) : nova_sb_info :=
  SbInfo v (num_blocks sbi) (s_inodes_used_count sbi) (reserved_blocks sbi) (cpus sbi) (inode_maps sbi) (map_id sbi)
    (free_lists sbi) (inode_page_mapping_tables sbi) (inode_page_mapping_table_locks sbi) (per_list_blocks sbi)
    (shared_free_list sbi) (range_nodes sbi) (nvm sbi).

Definition put_sbi (f : nova_sb_info -> nova_sb_info) : vfs unit := fun v =>
  Some (tt, Vfs (f (v_sbi v)) (v_mon v) (icache v) (next_generation v)).

(** The part up to the test of the options: the error, or the options. *)
Definition prepare_mount (cpus uid gid : Z) (device : option (Z * Z)) (data : option (list Z)) (dbgmask random : Z) :
    vfs (Z + mount_info * Z) :=
  if negb (ok_sbi alloc) then mret (inl (- ENOMEM))
  else
    sbi ← (fun v => Some (v_sbi v, v));
    let '(i, sbi) := set_default_opts cpus (MountInfo 0 0 0 0 0 dbgmask) (zeroed_sbi (range_nodes sbi) (nvm sbi)) in
    _ ← put_sbi (fun _ => sbi);
    if 64 <? cpus then mret (inl (- EINVAL))
    else
      match device with
      | None => mret (inl (- EINVAL))
      | Some (virt_addr, size) =>
        if size <=? 0 then mret (inl (- EINVAL))
        else
          _ ← put_sbi (with_device virt_addr);
          _ ← (fun v => Some (tt, Vfs (v_sbi v) (v_mon v) (icache v) (i32 random)));
          let i := with_mi_gid gid (with_mi_uid uid (with_mi_mode 493 i)) in
          let i := set_opt NOVA_MOUNT_HUGEIOREMAP (clear_opt NOVA_MOUNT_PROTECT (set_opt NOVA_MOUNT_DAX i)) in
          if negb (ok_maps alloc) then mret (inl (- ENOMEM))
          else
            _ ← put_sbi (with_inode_maps (replicate (Z.to_nat cpus) empty_inode_map));
            if negb (ok_page alloc) then mret (inl (- ENOMEM))
            else
              let '(err, i) := nova_parse_options match_token match_int match_octal make_kuid make_kgid data i false in
              if negb (err =? 0) then mret (inl (- EINVAL))
              else
                let i := set_opt NOVA_MOUNT_MOUNTING i in
                _ ← put_sbi (fun sbi => snd (nova_alloc_block_free_lists sbi (ok_lists alloc)));
                if negb (ok_lists alloc) then mret (inl (- ENOMEM)) else mret (inr (i, size))
      end.

(** An existing file system: the super block and the journals. *)
Definition check_image : vfs Z :=
  mem ← get_mem;
  sbi ← (fun v => Some (v_sbi v, v));
  let '(valid, mem) := nova_check_integrity crc16 mem true (virt_addr sbi) seconds in
  _ ← put_sbi (with_nvm mem);
  if valid =? 0 then mret (- EINVAL)
  else
    ret ← on_fs (fun sbi m => match nova_lite_journal_soft_init sbi (ok_journals alloc) with
                              | Some (ret, sbi) => Some (ret, sbi, m)
                              | None => None
                              end);
    if negb (ret =? 0) then mret (- EINVAL) else mret 0.

(** The root inode and the times of the mount. *)
Definition finish_mount (s_flags : Z) (i : mount_info) : vfs (Z * mount_info) :=
  r ← nova_iget slab_garbage smp jiffies_to_msecs e garbage radix_nomem alloc_inode NOVA_ROOT_INO seconds;
  match (r : Z + Z) with
  | inl err => mret (err, i)
  | inr _ =>
    if negb (ok_root alloc) then mret (- ENOMEM, i)
    else
      sbi ← (fun v => Some (v_sbi v, v));
      _ ← (if Z.land s_flags MS_RDONLY =? 0 then
             let mnt_write_time := Z.land seconds 0xFFFFFFFF in
             put_mem (fun mem => Sb.set_s_times mem (virt_addr sbi)
                                   (Z.lor mnt_write_time (u64 (Z.shiftl mnt_write_time 32))))
           else mret tt);
      mret (0, clear_opt NOVA_MOUNT_MOUNTING i)
  end.

(** [nova_fill_super]: the result and the options.  [header] is the header on the stack of the
    threads of the recovery, [cs] their order. *)
Definition nova_fill_super (cpus uid gid : Z) (device : option (Z * Z)) (data : option (list Z))
    (dbgmask random fake_pi s_flags : Z) (header : nova_inode_info_header) (cs : list crawler) : vfs (Z * mount_info) :=
  r ← prepare_mount cpus uid gid device data dbgmask random;
  match (r : Z + mount_info * Z) with
  | inl err => mret (err, MountInfo 0 0 0 0 0 dbgmask)
  | inr (i, size) =>
    if negb (Z.land (s_mount_opt i) NOVA_MOUNT_FORMAT =? 0) then
      sbi ← (fun v => Some (v_sbi v, v));
      r ← on_header header (nova_init size 0 fake_pi (virt_addr sbi) (mi_mode i) (mi_uid i) (mi_gid i));
      match fst (r : (Z + Z) * nova_inode_info_header) with
      | inl _ => mret (- EINVAL, i)
      | inr _ => finish_mount (Z.lor s_flags MS_NOSEC) i
      end
    else
      err ← check_image;
      if negb (err =? 0) then mret (err, i)
      else
        _ ← on_header header (nova_recovery slab_garbage smp jiffies_to_msecs e garbage (ok_bm alloc) (ok_rings alloc)
                                (ok_final alloc) cs);
        finish_mount (Z.lor s_flags MS_NOSEC) i
  end.

(** ** Unmounting and statistics *)

(** [nova_put_super]: the logs are written and the lists are released. *)
Definition nova_put_super (nova_base_address : Z) : fs unit :=
  sbi ← get_sbi;
  _ ← (if negb (virt_addr sbi =? 0) then
         _ ← nova_save_inode_list_to_log smp jiffies_to_msecs e garbage nova_base_address;
         _ ← nova_save_blocknode_mappings_to_log smp jiffies_to_msecs e garbage nova_base_address seconds;
         on_sbi (fun sbi => Some (tt, with_device 0 sbi))
       else mret tt);
  on_sbi (fun sbi => Some (tt, with_inode_maps [] (nova_delete_free_lists sbi))).

(** [struct kstatfs]. *)
Record kstatfs := Kstatfs {
  f_type : Z;
  f_bsize : Z;
  f_blocks : Z;
  f_bfree : Z;
  f_bavail : Z;
  f_files : Z;
  f_ffree : Z;
  f_namelen : Z;
}.

Definition nova_statfs (sbi : nova_sb_info) (s_blocksize : Z) : option kstatfs :=
  free ← nova_count_free_blocks sbi;
  Some (Kstatfs NOVA_SUPER_MAGIC s_blocksize (num_blocks sbi) free free LONG_MAX
          (LONG_MAX ⊟ s_inodes_used_count sbi) NOVA_NAME_LEN).
End operations.

(** ** A mount without [init] *)

(** What the steps before the lookup leave alone. *)
Record untouched (sbi sbi' : nova_sb_info) : Prop := {
  ut_virt : virt_addr sbi' = virt_addr sbi;
  ut_locks : inode_page_mapping_table_locks sbi' = inode_page_mapping_table_locks sbi;
  ut_nvm : nvm sbi' = nvm sbi;
  ut_maps : cpus sbi' = cpus sbi /\ inode_maps sbi' = inode_maps sbi;
  ut_rest : num_blocks sbi' = num_blocks sbi /\ map_id sbi' = map_id sbi;
}.

#[local] Instance untouched_preorder : PreOrder untouched.
Proof. split; [by split|]. intros ? ? ? [] []. split; intuition congruence. Qed.

Lemma put_free_list_untouched sbi c fl : untouched sbi (put_free_list sbi c fl) /\ per_list_blocks (put_free_list sbi c fl) = per_list_blocks sbi.
Proof. unfold put_free_list. by case_match. Qed.

(** The file system as [nova_init] leaves it and as it stays: the inode of the free ranges has its number and no
    log, since the shutdown stores the log elsewhere. *)
Definition no_record (va : Z) (mem : memory) : Prop :=
  exists pi, nova_get_inode_by_ino va NOVA_BLOCKNODE_INO = Some pi /\ Pi.nova_ino mem pi = NOVA_BLOCKNODE_INO /\ Pi.log_head mem pi = 0.

(** The journal of every CPU is idle. *)
Definition journals_idle (sbi : nova_sb_info) : Prop :=
  forall i pp, 0 <= i < cpus sbi -> nova_get_journal_pointers sbi i = Some pp -> journal_head (nvm sbi) pp = journal_tail (nvm sbi) pp.

Lemma soft_init_idle sbi n : forall i, journals_idle sbi -> 0 <= i -> i + Z.of_nat n = cpus sbi -> soft_init_loop n i sbi = Some (0, sbi).
Proof.
  induction n as [|n IH]; intros i Hj Hi Hn; simpl; [done|].
  assert (exists pp, nova_get_journal_pointers sbi i = Some pp) as [pp Hpp].
  { unfold nova_get_journal_pointers. rewrite (proj2 (Z.leb_gt _ _)) by lia. eauto. }
  rewrite Hpp. simpl. rewrite (Hj i pp), Z.eqb_refl by (done || lia). apply IH; auto; lia.
Qed.

Section again.
Context `{RbTree} (slab_garbage : nova_range_node) (smp : Z) (jiffies_to_msecs : Z -> Z) (e : env).
Context (garbage : Z).

Lemma init_lists_untouched n rec : forall i sbi r, init_lists slab_garbage n i sbi rec = Some r ->
  untouched sbi (match r with inl s => s | inr s => s end) /\
  per_list_blocks (match r with inl s => s | inr s => s end) = per_list_blocks sbi.
Proof.
  induction n as [|n IH]; intros i sbi r E; simpl in E; [by injection E as <-|].
  destruct (init_one_list slab_garbage sbi i rec) as [r1|] eqn:E1; [|done]. simpl in E.
  assert (untouched sbi (match r1 with inl s => s | inr s => s end) /\
    per_list_blocks (match r1 with inl s => s | inr s => s end) = per_list_blocks sbi) as [H1 P1].
  { unfold init_one_list in E1. destruct (nova_get_free_list sbi i) as [fl|]; [|done]. simpl in E1.
    pose proof (put_free_list_untouched sbi i) as Hp.
    destruct (rec =? 0); [|injection E1 as <-; by apply Hp].
    destruct (nova_alloc_range_node _ _) as [[c h]|]; [|done].
    destruct (nova_insert_blocktree _ _ _) as [[ret t]|]; [|done]. simpl in E1.
    destruct (negb _); injection E1 as <-; (split; [etrans; [apply Hp|by split]|apply Hp]). }
  destruct r1 as [s|s]; [injection E as <-; done|]. apply IH in E as [H2 P2]. split; [by etrans|congruence].
Qed.

Lemma init_blockmap_untouched sbi rec sbi' : nova_init_blockmap slab_garbage sbi rec = Some sbi' ->
  untouched sbi sbi' /\ per_list_blocks sbi' = num_blocks sbi / cpus sbi.
Proof.
  unfold nova_init_blockmap. destruct (cpus sbi =? 0); [done|].
  destruct (init_lists _ _ _ _ _) as [r|] eqn:E; [|done]. apply init_lists_untouched in E as [E Ep]. simpl in *.
  assert (untouched sbi (match r with inl s => s | inr s => s end)) as Hu by (etrans; [|exact E]; by split).
  destruct r as [s|s]; [by intros [= <-]|]. destruct (nova_get_free_list _ _); [|done]. simpl.
  destruct (_ <? _); intros [= <-]; [|done]. split; [|done]. etrans; [exact Hu|]. by split.
Qed.

(** Without mapping tables the inode of the free ranges cannot be looked up. *)
Lemma reset_blocknodes_faults w : no_record (virt_addr (w_sbi w)) (nvm (w_sbi w)) -> inode_page_mapping_table_locks (w_sbi w) = [] ->
  reset_blocknodes smp w = None.
Proof.
  intros (pi & Hpi & Hino & _) Hl. destruct w as [sbi mon sih]. simpl in *. unfold reset_blocknodes.
  erewrite fs_step by reflexivity. cbn [w_sbi]. rewrite Hpi. erewrite fs_step by reflexivity.
  assert (reget_inode smp pi (World sbi mon sih) = None) as E; [|unfold mbind, fs_bind; by rewrite E].
  unfold reget_inode. frun. rewrite Hino. unfold fs_deref at 1.
  destruct (nova_get_specific_inode_page_lock sbi NOVA_BLOCKNODE_INO); [|done]. frun. simpl.
  unfold mbind, fs_bind, on_sbi. simpl. unfold nova_get_inode_by_ino_or_pi_addr. simpl. unfold nova_get_inode_address.
  destruct (nova_get_inode_by_ino _ _); [|done]. simpl. destruct (blk_type_to_shift _); [|done]. simpl. destruct (cpus sbi =? 0); [done|].
  unfold mutex_lock. by rewrite Hl.
Qed.
End again.

Lemma alloc_bm_loop_ok n initsize ok : (forall i, ok i = true) -> forall i, fst (alloc_bm_loop n i initsize ok) = 0.
Proof.
  intros Hok. induction n as [|n IH]; intros i; simpl; [done|]. rewrite Hok. specialize (IH (i + 1)).
  destruct (alloc_bm_loop n (i + 1) initsize ok). done.
Qed.

(** [struct nova_sb_info] when the options are read. *)
Definition prepared_sbi (cpus va : Z) (h : node_heap) (mem : memory) : nova_sb_info :=
  SbInfo va 0 0 RESERVED_BLOCKS cpus (replicate (Z.to_nat cpus) empty_inode_map) 0
    (replicate (Z.to_nat cpus) empty_free_list) [] [] 0 empty_free_list h mem.

(** The options a mount starts with. *)
Definition default_mount (dbgmask uid gid : Z) : mount_info :=
  MountInfo (foldr Z.lor 0 [NOVA_MOUNT_HUGEIOREMAP; NOVA_MOUNT_ERRORS_CONT; NOVA_MOUNT_DAX]) 0 uid gid 493 dbgmask.

Section again2.
Context `{RbTreeLaws} (slab_garbage : nova_range_node) (smp : Z) (jiffies_to_msecs : Z -> Z) (e : env).
Context (garbage : Z) (radix_nomem : Z -> bool) (alloc_inode : option (vfs_inode * nova_inode_info_header)).
Context (crc16 : Z -> list Z -> Z) (seconds : Z) (alloc : allocations).
Context (match_token : list Z -> opt_token * list Z) (match_int match_octal : list Z -> option Z) (make_kuid make_kgid : Z -> Z).
Hypothesis slab_serves : forall h, kmem_cache_alloc h <> None.

(** The recovery faults at the lookup, when its memory is there. *)
Lemma recovery_faults w bm_ok alloc_ok final_ok cs :
  fresh_maps (w_sbi w) -> (forall i, bm_ok i = true) ->
  no_record (virt_addr (w_sbi w)) (nvm (w_sbi w)) -> inode_page_mapping_table_locks (w_sbi w) = [] ->
  nova_recovery slab_garbage smp jiffies_to_msecs e garbage bm_ok alloc_ok final_ok cs w = None.
Proof.
  intros Hf Hbm Hrec Hl. destruct w as [sbi mon sih]. simpl in Hf, Hrec, Hl. unfold nova_recovery. frun.
  set (sbi1 := with_num_blocks _ sbi).
  destruct (nova_init_blockmap slab_garbage sbi1 1) as [sbi2|] eqn:E2; [|unfold mbind at 1, fs_bind, on_sbi; simpl; by rewrite E2].
  erewrite fs_step by (apply on_sbi_run; cbn [w_sbi]; rewrite E2; reflexivity). cbn [w_mon w_sih].
  destruct (init_blockmap_untouched _ _ _ _ E2) as [[Ev El En [Ec Em] _] _]. simpl in Ev, El, En, Ec, Em.
  assert (nova_can_skip_full_scan slab_garbage smp jiffies_to_msecs e garbage (World sbi2 mon sih) = Some (false, World sbi2 mon sih)) as Es.
  { destruct Hrec as (pi & Hpi & _ & Hh). unfold nova_can_skip_full_scan. erewrite fs_step by reflexivity. cbn [w_sbi].
    rewrite Ev, Hpi. erewrite fs_step by reflexivity. by rewrite En, Hh. }
  fstep Es. erewrite fs_step by reflexivity. cbn [w_sbi].
  destruct (alloc_bm sbi2 _ bm_ok) as [ret bms] eqn:Eb. assert (ret = 0) as ->.
  { change ret with (fst (ret, bms)). rewrite <- Eb. unfold alloc_bm. by apply alloc_bm_loop_ok. }
  simpl. erewrite fs_step by reflexivity. cbn [w_sbi w_mon w_sih]. set (sbi3 := with_s_inodes_used_count 0 sbi2).
  assert (nova_failure_recovery slab_garbage smp jiffies_to_msecs e alloc_ok cs bms (World sbi3 mon sih) = None) as E;
    [|unfold mbind, fs_bind; by rewrite E].
  unfold nova_failure_recovery. erewrite fs_step by reflexivity. cbn [w_sbi w_mon w_sih].
  destruct (nova_init_inode_inuse_list_spec slab_garbage slab_serves (with_s_inodes_used_count 0 sbi3)) as (sbi4 & E4 & Hmo & _).
  { destruct Hf. by split; simpl; rewrite ?Ec, ?Em. }
  erewrite fs_step by (apply on_sbi_run; cbn [w_sbi]; exact E4). cbn [w_mon w_sih]. simpl.
  unfold mbind, fs_bind. rewrite reset_blocknodes_faults; simpl; [done| |].
  - rewrite (mo_virt _ _ Hmo), (mo_nvm _ _ Hmo). simpl. by rewrite Ev, En.
  - destruct (mo_tables _ _ Hmo) as [_ ->]. simpl. by rewrite El.
Qed.

(** The options a mount prepares with. *)
Let parse data i := nova_parse_options match_token match_int match_octal make_kuid make_kgid data i false.

(** C40: A file system cannot be mounted again.  On a device with an intact super block, idle
    journals and no record of free ranges (as formatting leaves it, and as it stays, since the
    shutdown stores the record elsewhere), a mount without the option [init], whose options
    are accepted and which gets all the memory it asks for, prepares the file system, accepts
    the image and then faults in the recovery: [nova_recovery] locks a table of inode pages,
    and only [nova_init] allocates the tables. *)
Theorem mount_again_faults cpus uid gid va size data dbgmask random fake_pi s_flags header cs v i :
  let sbi := prepared_sbi cpus va (range_nodes (v_sbi v)) (nvm (v_sbi v)) in
  let v1 := Vfs sbi (v_mon v) (icache v) (i32 random) in
  0 < cpus <= 64 -> 0 < size -> ok_sbi alloc = true -> ok_maps alloc = true -> ok_page alloc = true -> ok_lists alloc = true ->
  ok_journals alloc = true -> (forall c, ok_bm alloc c = true) ->
  parse data (default_mount dbgmask uid gid) = (0, i) -> Z.land (s_mount_opt i) NOVA_MOUNT_FORMAT = 0 ->
  super_ok crc16 (nvm sbi) va -> journals_idle sbi -> no_record va (nvm sbi) ->
  prepare_mount alloc match_token match_int match_octal make_kuid make_kgid cpus uid gid (Some (va, size)) data dbgmask random v =
    Some (inr (set_opt NOVA_MOUNT_MOUNTING i, size), v1) /\
  check_image crc16 seconds alloc v1 = Some (0, v1) /\
  nova_recovery slab_garbage smp jiffies_to_msecs e garbage (ok_bm alloc) (ok_rings alloc) (ok_final alloc) cs
    (World sbi (v_mon v) header) = None /\
  nova_fill_super slab_garbage smp jiffies_to_msecs e garbage radix_nomem alloc_inode crc16 seconds alloc
    match_token match_int match_octal make_kuid make_kgid cpus uid gid (Some (va, size)) data dbgmask random fake_pi s_flags header cs v = None.
Proof.
  intros sbi v1 Hc Hs O1 O2 O3 O4 O5 Obm Hp Hfmt Hsup Hj Hrec.
  assert (prepare_mount alloc match_token match_int match_octal make_kuid make_kgid cpus uid gid (Some (va, size)) data dbgmask random v =
    Some (inr (set_opt NOVA_MOUNT_MOUNTING i, size), v1)) as E1.
  { unfold prepare_mount. rewrite O1, O2, O3, O4. simpl. unfold mbind, vfs_bind, put_sbi. simpl.
    rewrite (proj2 (Z.ltb_ge 64 cpus)), (proj2 (Z.leb_gt size 0)) by lia. simpl.
    change (nova_parse_options _ _ _ _ _ _ _ _) with (parse data (default_mount dbgmask uid gid)). rewrite Hp. done. }
  assert (check_image crc16 seconds alloc v1 = Some (0, v1)) as E2.
  { destruct Hsup as [Hm Hsum]. unfold check_image, mbind, vfs_bind, get_mem. simpl. unfold nova_check_integrity. simpl in Hm, Hsum.
    rewrite Hm, Hsum. simpl. unfold on_fs. simpl. unfold nova_lite_journal_soft_init. rewrite O5. simpl.
    rewrite (soft_init_idle sbi) by (auto; simpl; lia). done. }
  assert (nova_recovery slab_garbage smp jiffies_to_msecs e garbage (ok_bm alloc) (ok_rings alloc) (ok_final alloc) cs
    (World sbi (v_mon v) header) = None) as E3.
  { apply recovery_faults; auto. split; simpl; [rewrite length_replicate; lia|]. by apply Forall_replicate. }
  split_and!; auto. unfold nova_fill_super. vstep E1.
  assert (Z.land (s_mount_opt (set_opt NOVA_MOUNT_MOUNTING i)) NOVA_MOUNT_FORMAT = 0) as ->.
  { simpl. rewrite Z.land_lor_distr_l, Hfmt. done. }
  simpl. vstep E2. simpl. unfold mbind, vfs_bind, on_header. simpl. by rewrite E3.
Qed.
End again2.

Module MountDemo.
Import RbList.RbList SuperBlock.SuperDemo.

Definition md_mem : memory := Pi.set_nova_ino sd_made (nova_get_basic_inode 4096 NOVA_BLOCKNODE_INO) NOVA_BLOCKNODE_INO.
Definition md_state : vfs_state := Vfs (zeroed_sbi ∅ md_mem) initial_monitor ∅ 0.
Definition md_alloc : allocations :=
  Allocations true true true true true (Some (fun _ => true)) (fun _ => true) true true true.
Definition md_token (p : list Z) : opt_token * list Z := (Opt_err, []).
Definition md_header : nova_inode_info_header := InodeHeader ∅ ∅ 0 0 0 0 0 0 0 0 0 0 0.
Definition md_env : env := Env 0 0 0 0.

Lemma mount_again_faults_witness :
  nova_fill_super (RangeNode 0 0) 0 (fun x => x) md_env 0 (fun _ => false) None sum16 0 md_alloc md_token
    (fun _ => None) (fun _ => None) (fun x => x) (fun x => x) 4 0 0 (Some (4096, 163840)) None 0 7 0 0 md_header [] md_state = None.
Proof.
  eapply (mount_again_faults (RangeNode 0 0) 0 (fun x => x) md_env 0 (fun _ => false) None sum16 0 md_alloc md_token
    (fun _ => None) (fun _ => None) (fun x => x) (fun x => x) InodeMap.InodeDemo.imap_slab); try reflexivity; try lia.
  - vm_compute. split; reflexivity.
  - intros i pp Hi E. assert (i = 0 \/ i = 1 \/ i = 2 \/ i = 3) as [-> | [-> | [-> | ->]]] by (simpl in Hi; lia);
      injection E as <-; vm_compute; reflexivity.
  - exists (nova_get_basic_inode 4096 NOVA_BLOCKNODE_INO). vm_compute. split_and!; reflexivity.
Defined.
End MountDemo.
